(* ===== verification/_CoqProject ===== *)
-Q . S2P
Prelude.v
RustStr.v
Core.v
Track.v
AudioLevel.v
Turn.v
Auth.v
Twirp.v
Config.v
Proto.v
Participant.v
Room.v
Signal.v
RoomService.v
Agent.v
AgentSession.v
AgentProto.v
AgentService.v
Wkt.v
SipProto.v
Store.v
IpAddr.v
Sip.v
SipService.v
Psrpc.v
Protobuf.v
PsrpcWire.v
Wav.v
Recorder.v
EgressProto.v
Redact.v
Egress.v
EgressServer.v
Cluster.v
Relay.v
RedisRelay.v
RelayOut.v
Http.v
Router.v
Webhook.v
SipCalls.v
F64.v
Metrics.v
Rtp.v
Media.v
Negotiation.v
Ice.v
Transport.v
Session.v
SignalIo.v
Mp3.v
EgressClient.v
RecorderSession.v
RedisBus.v
BusClients.v
Sts.v
Startup.v
Cli.v
LoadTest.v
SendAudio.v
