(* ===== verification/Prelude.v ===== *)
(** * A verification library for livekit-rs-voice

    livekit-rs-voice is a voice-only WebRTC server with LiveKit's protocols: clients join rooms
    with signed tokens over a WebSocket, publish audio tracks and receive each other's updates;
    a TURN server relays media; phone calls enter through a SIP gateway that asks the server
    which room a call belongs to; a recorder reports its progress.  The code is the Rust
    workspace [crates/]: [lk-server] (the server), [lk-proto] (messages), [lk-psrpc] (the
    message bus) and [lk-egress] (the recorder).

    ** How the parts interact

    [auth.rs] turns a token into grants.  [signal.rs] uses the grants to create a participant
    ([participant.rs]) and to join it to a room ([room.rs]) found in the room table
    ([server.rs]); from then on it handles the participant's requests, which change
    participants, tracks ([track.rs]) and rooms and send updates to the other members.  Media
    callbacks ([media.rs], fed by [audio_level.rs]) re-enter [signal.rs].  A sweep in
    [server.rs] closes rooms whose timeout has passed.  [turn.rs] mints and checks the
    credentials of the TURN relay.  [services_sip.rs] administers SIP trunks and dispatch rules
    in a store ([redis_store.rs]) that [ioservice.rs] reads to decide on inbound calls and
    writes to when the recorder reports.  Gateway, recorder and server call each other over the
    message bus of [lk-psrpc].  Timestamps and durations of the JSON API are printed
    and parsed by [wkt_serde.rs].

    In front of all this, [http.rs] authenticates requests, routes API calls to
    [services.rs] and [services_sip.rs] and admits signaling and worker sockets.  The room API
    of [services.rs] works on the same rooms as the sessions; its dispatch API and [agent.rs]
    offer jobs to agent workers and hand them join tokens.  With several nodes, [cluster.rs]
    decides which one hosts a room and relays sessions to it.  [webhook.rs] reports what happens
    to configured URLs, and [config.rs] holds the settings.  [lk-egress] records rooms: it
    admits start requests, mixes the tracks, writes a WAV or MP3 file, uploads it and reports
    to the server.

    ** Files

    - [Prelude]: results as a monad, machine integers, tactics, reachability.
    - [RustStr]: the string operations of Rust's standard library on UTF-8 bytes.
    - [Core]: clock readings, ids, the two version counters, participant state and kind
      ([core.rs]).
    - [Track]: the published-track record and its [TrackInfo] ([track.rs]).
    - [AudioLevel]: the active-speaker detector and the SDP extension search
      ([audio_level.rs]).
    - [Turn]: the base62 codec as its bit-cursor loops, and the credential scheme ([turn.rs]).
    - [Auth]: JSON claims, grants and token verification ([auth.rs]).
    - [Twirp]: API errors, responses, content types, the body codec as a class, and the monad
      of API handlers ([http.rs]).
    - [Config]: the configuration records, defaults and environment overrides ([config.rs]).
    - [Proto], [SipProto], [EgressProto]: the protobuf messages, as records ([protos/]).
    - [Participant]: the participant record and its operations; [Module SetState] has the
      compare-and-exchange loop of the participant state as a step relation over threads
      ([participant.rs]).
    - [Room]: the [World] of shared objects (heaps of tracks, participants and rooms by
      location, outbound channels, the room table, a trace of calls that leave the signaling
      plane), every room operation, the timeout sweep of [server.rs], and the interleavings of
      concurrent joins ([room.rs]).
    - [Signal]: request handlers, media callbacks, join, resume, grace period and end of a
      session, and the transition system [server_step] of all of them ([signal.rs]).
    - [RoomService]: the room API over the same world; what its handlers spawn is a list of
      tasks that run later, and [api_step] interleaves calls, tasks and sessions
      ([services.rs]).
    - [Agent], [AgentProto], [AgentService]: agent workers, dispatches and join tokens; the
      availability protocol of concurrent launches as the transition system [agent_step]; the
      dispatch API ([agent.rs], [services.rs]); [AgentSession]: the reading loop and the writer
      of a worker's socket ([agent.rs]).
    - [Wkt]: timestamps, durations, [Any] and [Empty] in JSON, and the calendar arithmetic
      ([wkt_serde.rs]).
    - [Store]: the interface [Backend] of a store of hashes with its laws, the in-memory
      instance, and the store API on top of any backend ([redis_store.rs]).
    - [IpAddr]: the address parser of the standard library.
    - [Sip]: trunk matching, dispatch rules, the handlers of the SIP gateway and of the
      recorder's reports ([ioservice.rs]).
    - [SipService]: the SIP administration API in a state-and-error monad
      ([services_sip.rs]).
    - [Psrpc]: channel names of the message bus, and the claim flow between RPC clients,
      servers and handlers as the transition system [rpc_step] ([lk-psrpc]).
    - [Protobuf], [PsrpcWire]: the protobuf wire format (varints, fields, UTF-8 strings) with the
      messages of the bus encoded in it, and the loops of clients and servers on the bytes that
      arrive ([protos/internal.proto], [lk-psrpc]).
    - [Wav], [Recorder]: the WAV writer over a file whose operations may fail, the mixer with
      the iteration order of its hash map as an argument, and the recording loop
      ([wav.rs], [audio.rs] and [recorder.rs] of [lk-egress]).
    - [Redact], [Egress], [EgressServer]: redaction of requests, choice of format and
      destination and the upload, and the recorder's tables and jobs as the transition
      system [egress_step] ([redact.rs], [upload.rs] and [server.rs] of [lk-egress]).
    - [Cluster], [Relay]: the in-memory bus, room routing as interleaved bus operations, and
      the signal relay between nodes; [RedisRelay]: the relay over Redis streams, a class
      [RedisStreams] with laws; [RelayOut]: the relay of responses back to the client
      ([cluster.rs]).
    - [Http]: authentication, API routing and the admission of sockets ([http.rs]), composing
      [Auth], [Twirp], [RoomService], [AgentService] and [Signal]; [Router]: its paths, body
      limit, socket upgrades and CORS in front of them.
    - [Webhook]: events, signatures and delivery with retries ([webhook.rs]).
    - [SipCalls]: outbound calls, transfers and the egress API, over the rooms and the store,
      with the requests they send ([services_sip.rs]).
    - [F64]: the binary64 arithmetic the statistics use, over the Standard Library's model of
      floats.
    - [Metrics]: the collectors with names, labels and buckets, their start-up, and the store of
      series ([metrics.rs]).
    - [Rtp]: loss, jitter and quality statistics of a stream, RTCP reports and the forwarding of
      packets with its accounting ([media.rs]).
    - [Media]: the media state of participants beside the [World] (the [MWorld]), set-up of peer
      connections, publishing, subscribing, negotiation, speakers and teardown ([media.rs],
      [server.rs]); [Negotiation]: its tasks, requests and answers interleaved, and candidates
      that arrive during set-up.
    - [Ice]: the TURN relay's address, its start, and the servers clients are told ([turn.rs]).
    - [Transport], [Session]: the two halves of a socket with their shared state; the opening,
      loop and end of a session with what it writes to the wire ([signal.rs]).
    - [SignalIo]: the reading half of a transport as a class with laws, the websocket and the
      relay as its instances, and the session's loop against it ([signal.rs], [cluster.rs]).
    - [Mp3]: the MP3 encoder and the Opus decoder around their libraries, and MP3 recordings
      ([mp3.rs], [audio.rs] and [recorder.rs] of [lk-egress]).
    - [EgressClient]: the recorder as a participant, with its signaling loop ([client.rs] of
      [lk-egress]).
    - [RecorderSession]: the recorder's client and the server's negotiation as one system
      ([client.rs] of [lk-egress], [media.rs]).
    - [RedisBus], [BusClients]: the Redis clients of the cluster bus, the store and the message
      bus, the in-memory message bus; the typed calls and registrations over the bus and the
      clients made on first use ([cluster.rs], [redis_store.rs], [lk-psrpc], [psrpc.rs],
      [server.rs], [io.rs] of [lk-egress]).
    - [Sts]: temporary credentials for uploads ([sts.rs] of [lk-egress]).
    - [Startup]: command lines, the choice of the configuration, the parts and tasks of a
      server, its sockets, log lines, and the recorder's start ([main.rs] of both programs).
    - [Cli]: the command-line client and how the server treats its calls ([bin/lk.rs]).
    - [LoadTest], [SendAudio]: the load generator with its statistics, and the test publisher
      ([bin/load_test.rs], [examples/send_audio.rs]).

    A definition has the name of the Rust function it translates where Rocq allows it; records
    have the source's fields with a short prefix.  Integers are [Z] with the wrap-around of
    their width written out ([wrap_u], [wrap_s]); fallible code returns [Result]; a possible
    panic is an explicit result ([option] or an error value), never assumed away.  Values the
    code draws (random ids, clock readings, addresses of new objects) are arguments.

    ** What is proved

    - Sessions and rooms: an invariant of every reachable server state ([reachable_world_ok],
      and [api_reachable_ok] with the API and its tasks interleaved:
      members of open rooms are live objects of that room, identities are unique, the
      occupancy bookkeeping behind the timeouts is right, the table points to open rooms);
      what joining, ending and resuming a session do; delivery of updates and data; reclaiming
      of empty rooms; the effect of closing a room; consistency of concurrent joins; capacity.
    - Participants: linearization and termination of the lock-free state change, attribute
      updates, and that revoked publishing stays revoked.
    - Tokens and credentials: verification is characterized exactly; minted TURN credentials
      authenticate (whatever their expiry), and only usernames over a configured key do; the
      base62 codec round-trips and never indexes out of bounds.
    - Versions and speaker detection: monotonicity of the version counters; the detector is
      active exactly when the last complete window was loud.
    - JSON forms: the calendar is the Gregorian one; timestamps and durations round-trip.
    - Storage and SIP: the store refines four independent tables over any lawful backend; the
      administration API refines updates of these tables; trunk selection equals its
      reference; the dispatch decision, the masking of hidden callers, and the once-only
      webhooks of the recorder.
    - Message-bus calls: at most one handler call per request under loss and any
      interleaving; results come from a handler called with the request's method and payload;
      on a bus without losses a call is answered; channel names do not collide; the messages of
      the bus round-trip through their bytes, and the loops that run on bytes refine the
      protocol.
    - The API: calls get through only with a token that verifies and grants them, and failing
      calls change nothing; a connection that is admitted joins; no request that passes the
      router changes the server or opens a socket without authentication; what deleting, removing and muting do.
    - Agents: jobs are assigned only on acceptance and once, to live workers of their agent;
      the token of an assignment admits to exactly its room; dispatches live from creation to
      deletion; what a worker's session registers it removes again.
    - Nodes: concurrent routing agrees on one owner and takes a bounded number of operations;
      the relay is a queue; the responses of the owning node reach the client in order; over
      Redis a session gets exactly the requests relayed since the call of its first read that
      found something.
    - The recorder: mixing is the exact mean in any iteration order and never clips;
      recordings are complete, readable files; reports come in order with one terminal one, and
      a recording without failures completes; credentials are not echoed; uploads go where
      the request or the configuration says.
    - Outbound calls and the egress API: what is dialled; requests leave only for granted
      callers, transfers only for calls of the room; stops only for running recordings.
    - Webhooks and configuration: attempts and duration of a delivery, signatures; the
      environment wins over the file.
    - Media: every packet is forwarded once to each subscriber and counted; the loss counter is
      exact for streams without repetitions; statistics stay in their machine ranges; a
      published track reaches exactly the members allowed to hear it; closing releases
      everything; negotiation converges to the current tracks.
    - Sessions on the wire: a client sees the server's messages in the order they were sent,
      the join response first; a joining client is offered the tracks that exist; a frame that
      does not decode ends a local session; a session relayed to another node is handled like
      a local one; the ICE servers clients are told accept the credentials that come with them.
    - The recorder as a client: its token admits it, silent and hidden; offers are answered in
      order on one connection; recorder and server together come to rest with every offer
      answered; MP3 and WAV recordings of the same packets hold the same audio;
      the encoder's buffer is always large enough.
    - Redis and the bus: blocking reads use a connection of their own; publications are retried
      once; subscriptions recover; the in-memory bus loses nothing; every call has a
      registration on the other side and no two share a channel.
    - Start-up: command lines can express every setting; which configuration is used; when the
      recorder starts; what a log line holds.
    - Test programs: the load test's percentiles are samples of its measurements and its tokens
      admit its clients, which are distinct; the test publisher finishes, and the server counts
      its packets without loss.
    - Defects: theorems that exhibit what the code does not do as intended (the close
      notification that reaches nobody, joins racing past the capacity, lost and repeated
      launches, the address filter that IPv6 callers bypass, a panic on hidden empty numbers,
      a dropped encryption setting, crossed answers of agent workers, rooms split by a dead
      node, full rooms that refuse reconnections, silent mutes, leaked recorder slots and
      admission races, credentials of deprecated outputs that are echoed, reports that the
      answer to a start overwrites, negotiation stopped by a refused answer, candidates that
      are stranded, sessions ended by the late close of an old socket, a client blocked on its
      own queue, transfers the command-line client is refused, an environment that is not
      read, requests lost at the start of a session relayed over Redis, worker sessions that
      wait for themselves, slow workers that are dropped, a load test whose count of connections
      underflows, a sender whose times fall back).

    ** Bounds and fuel

    Decimal printing counts at most 40 digits, enough for 128-bit integers.  The string loops
    that are not structural ([trim_start], [split_whitespace]) use the length of the text as
    fuel; every turn drops at least one byte.  The base62 encoder has the number of
    bits left as fuel, of which every digit takes at least five.  The calendar theorems cover day
    numbers up to 2^60, far beyond what an [i64] of seconds can reach.  Grace generations are
    64-bit; the theorem about resumed sessions excludes 2^64 resumptions within one grace
    period.  The mixer's drain loop has the number of queued samples as fuel, and every turn
    takes 960 of them; a routing call makes at most 26 bus operations, eight turns of three and
    two at the end.  The statistics theorems cover streams of
    up to 2^48 packets (2^46 where the loss is shown exact).  Renegotiation converges by a
    potential that every step lowers.  The recorder's queue of requests holds 64, the MP3 buffer
    16384 bytes, the Opus buffer 5760 samples, as in the code.  A varint has at most ten bytes,
    and messages are shorter than 2^64 bytes.  The load test's statistics are exact up to 2^53
    samples; its waits use the number of frames left as fuel, of which every turn takes one.
    API handlers are atomic steps: their code has no suspension point, and the
    locks inside one are not modelled separately, except where a theorem is about such a gap
    (joins, participant state, availability requests, routing, recorder starts).

    ** External code

    The SIP gateway's and the recorder's answers to calls over the bus are arguments, and so is
    what Redis, sockets and peer connections answer.  The JWT, base64, gzip, HMAC and digest
    libraries, the YAML and JSON parsers, the XML reader, the percent encoder and the request
    signer, the network-mask library, the protobuf codec, libopus and libmp3lame, object stores,
    the HTTP client, the [webrtc] and [prometheus] crates and the TURN library are parameters:
    section variables or type classes ([Backend], [RedisStreams], [BusCodec], [Message],
    [WireMessage]) with the documented
    behaviour a theorem uses as named laws, each instantiated once.  The floating-point
    admission test of the recorder is a parameter too.

    ** Not modelled

    - The inside of the libraries above: ICE, DTLS and SRTP, the set-up of the [webrtc] media
      engine, the answers the web framework gives by itself, the text in which the [prometheus]
      crate exposes the metrics.  The code hands these libraries closures and settings and keeps
      no state of its own there.
    - The code generated from the protobuf files ([prost], [pbjson]): the build makes it, and the
      repository has only its input.  Its messages are records; the messages of the bus are also
      modelled as bytes.
    - Crate roots (lists of modules), the candidate probe, tests and benchmarks, and the log
      formatter of [lk-egress], a second copy of the server's. *)
From stdpp Require Import base gmap strings list fin_maps option.
From Stdlib Require Import ZArith Lia.

Declare Scope lk_scope.
Delimit Scope lk_scope with lk.
Open Scope Z_scope.

(** * Results *)

(** Rust's [Result<A, E>]. *)
Inductive Result (E A : Type) : Type :=
| Ok (a : A)
| Err (e : E).
Arguments Ok {E A} a.
Arguments Err {E A} e.

#[global] Instance Result_ret {E} : MRet (Result E) := fun A a => Ok a.
#[global] Instance Result_bind {E} : MBind (Result E) :=
  fun A B f r => match r with Ok a => f a | Err e => Err e end.

(** [opt.ok_or(e)]. *)
Definition ok_or {E A} (o : option A) (e : E) : Result E A :=
  match o with Some a => Ok a | None => Err e end.

(** [res.map_err(f)]. *)
Definition map_err {E F A} (f : E -> F) (r : Result E A) : Result F A :=
  match r with Ok a => Ok a | Err e => Err (f e) end.

(** [if cond { return Err(e) }]. *)
Definition guard_err {E} (bad : bool) (e : E) : Result E unit :=
  if bad then Err e else Ok ().

Notation "'guard!' b 'else' e ; k" := (Result_bind _ _ (fun _ => k) (guard_err b e))
  (at level 100, b at level 99, e at level 99, k at level 200) : lk_scope.

Definition is_ok {E A} (r : Result E A) : bool :=
  match r with Ok _ => true | Err _ => false end.

Lemma bind_ok {E A B} (r : Result E A) (f : A -> Result E B) b :
  r ≫= f = Ok b <-> exists a, r = Ok a /\ f a = Ok b.
Proof. destruct r; cbn; split; [eauto|intros (?&[=->]&?);eauto|done|naive_solver]. Qed.

Lemma map_err_ok {E F A} (f : E -> F) (r : Result E A) a : map_err f r = Ok a <-> r = Ok a.
Proof. destruct r; cbn; split; congruence. Qed.

Lemma ok_or_ok {E A} (o : option A) (e : E) a : ok_or o e = Ok a <-> o = Some a.
Proof. destruct o; cbn; split; congruence. Qed.

(** * Machine integers *)

Definition u8_max : Z := 2^8 - 1.
Definition u32_max : Z := 2^32 - 1.
Definition i32_min : Z := - 2^31.
Definition i32_max : Z := 2^31 - 1.
Definition i64_min : Z := - 2^63.
Definition i64_max : Z := 2^63 - 1.

(** [x as uN]: truncation to the low [w] bits. *)
Definition wrap_u (w x : Z) : Z := x mod 2^w.

(** [x as iN]: truncation to [w] bits read in two's complement. *)
Definition wrap_s (w x : Z) : Z := (x + 2^(w-1)) mod 2^w - 2^(w-1).

Definition in_i64 (x : Z) : bool := (i64_min <=? x) && (x <=? i64_max).
Definition in_i32 (x : Z) : bool := (i32_min <=? x) && (x <=? i32_max).

(** [u32::saturating_add]. *)
Definition saturating_add_u32 (a b : Z) : Z := Z.min (a + b) u32_max.

(** [x.clamp(lo, hi)]. *)
Definition clamp (lo hi x : Z) : Z := Z.max lo (Z.min hi x).

Lemma wrap_u_small w x : 0 <= x < 2^w -> wrap_u w x = x.
Proof. intros; unfold wrap_u; by rewrite Z.mod_small. Qed.

Lemma wrap_u_bound w x : 0 <= w -> 0 <= wrap_u w x < 2^w.
Proof. intros; unfold wrap_u; apply Z.mod_pos_bound; lia. Qed.

Lemma wrap_s_small w x : 0 < w -> - 2^(w-1) <= x < 2^(w-1) -> wrap_s w x = x.
Proof.
  intros Hw Hx. unfold wrap_s.
  assert (2^w = 2 * 2^(w-1)) as ->.
  { replace w with (1 + (w-1)) at 1 by lia. rewrite Z.pow_add_r by lia. lia. }
  rewrite Z.mod_small; lia.
Qed.

Lemma clamp_bounds lo hi x : lo <= hi -> lo <= clamp lo hi x <= hi.
Proof. unfold clamp; lia. Qed.

Lemma clamp_id lo hi x : lo <= x <= hi -> clamp lo hi x = x.
Proof. unfold clamp; lia. Qed.

(** * Tactics *)

(** Case analysis on the scrutinee of the innermost match or [if] of the goal
    or of a hypothesis. *)
Ltac destruct_scrut t :=
  match t with
  | context [match ?x with _ => _ end] => destruct_scrut x
  | _ => let E := fresh "E" in destruct t eqn:E
  end.

Ltac case_goal :=
  match goal with
  | |- context [match ?x with _ => _ end] => destruct_scrut x
  end.

Ltac case_hyp H :=
  match type of H with
  | context [match ?x with _ => _ end] => destruct_scrut x
  end.

(** Turns boolean comparisons in the context into propositions. *)
Ltac bool_to_prop :=
  repeat match goal with
  | H : (_ && _)%bool = true |- _ => apply andb_true_iff in H as [? ?]
  | H : (_ || _)%bool = false |- _ => apply orb_false_iff in H as [? ?]
  | H : negb _ = true |- _ => apply negb_true_iff in H
  | H : negb _ = false |- _ => apply negb_false_iff in H
  | H : (_ <=? _) = true |- _ => apply Z.leb_le in H
  | H : (_ <=? _) = false |- _ => apply Z.leb_gt in H
  | H : (_ <? _) = true |- _ => apply Z.ltb_lt in H
  | H : (_ <? _) = false |- _ => apply Z.ltb_ge in H
  | H : (_ =? _) = true |- _ => apply Z.eqb_eq in H
  | H : (_ =? _) = false |- _ => apply Z.eqb_neq in H
  | H : (_ =? _)%string = true |- _ => apply String.eqb_eq in H
  | H : (_ =? _)%string = false |- _ => apply String.eqb_neq in H
  | H : bool_decide _ = true |- _ => apply bool_decide_eq_true in H
  | H : bool_decide _ = false |- _ => apply bool_decide_eq_false in H
  end.

(** Linear arithmetic with division and remainder by constants. *)
Ltac div_lia := Z.div_mod_to_equations; lia.

Create HintDb lk.
#[export] Hint Resolve wrap_u_small wrap_u_bound clamp_bounds : lk.
#[export] Hint Rewrite @length_app @length_fmap : lk.

(** * Step relations *)

(** Reflexive transitive closure of a step relation, extended on the right:
    the form in which reachable-state invariants are proved. *)
Inductive reach {S : Type} (step : S -> S -> Prop) (s0 : S) : S -> Prop :=
| reach_init : reach step s0 s0
| reach_step s s' : reach step s0 s -> step s s' -> reach step s0 s'.

Lemma reach_invariant {S} (step : S -> S -> Prop) (I : S -> Prop) s0 :
  I s0 -> (forall s s', I s -> step s s' -> I s') ->
  forall s, reach step s0 s -> I s.
Proof. intros H0 Hs s Hr; induction Hr; eauto. Qed.
