(* ===== verification/RustStr.v ===== *)
(** The part of Rust's [str]/[String]/[format!]/[parse] that the program uses,
    on strings as sequences of (UTF-8) bytes: splitting, prefixes and suffixes,
    decimal printing with zero padding, and integer parsing with its sign and
    overflow rules.  The lemmas are the ones the print/parse round trips of the
    components need. *)
From Stdlib Require Import ZArith Lia Ascii String.
From stdpp Require Import base strings list option.
From S2P Require Import Prelude.

Open Scope string_scope.
Open Scope Z_scope.

#[global] Arguments String.append !s1 s2 : simpl nomatch.

(** * Lengths, characters *)

(** [s.len()]: the number of bytes. *)
Definition str_len (s : string) : Z := Z.of_nat (String.length s).

Definition code (c : ascii) : Z := Z.of_nat (nat_of_ascii c).

Definition is_digit (c : ascii) : bool := (48 <=? code c) && (code c <=? 57).
Definition is_upper (c : ascii) : bool := (65 <=? code c) && (code c <=? 90).
Definition is_lower (c : ascii) : bool := (97 <=? code c) && (code c <=? 122).
Definition is_ascii_alphanumeric (c : ascii) : bool :=
  is_digit c || is_upper c || is_lower c.
(** ASCII part of [char::is_whitespace]. *)
Definition is_space (c : ascii) : bool :=
  ((9 <=? code c) && (code c <=? 13)) || (code c =? 32).

Fixpoint str_forallb (p : ascii -> bool) (s : string) : bool :=
  match s with
  | "" => true
  | String c s' => p c && str_forallb p s'
  end.

Fixpoint str_filter (p : ascii -> bool) (s : string) : string :=
  match s with
  | "" => ""
  | String c s' => if p c then String c (str_filter p s') else str_filter p s'
  end.

Definition contains_char (c : ascii) (s : string) : bool :=
  negb (str_forallb (fun d => negb (Ascii.eqb c d)) s).

(** [s.to_uppercase()] for comparison with an ASCII literal: the characters whose
    Unicode uppercase mapping is ASCII are mapped (the ASCII letters, dotless i,
    long s, sharp s and the Latin ligatures); every other character is left as it
    is, which like its real image is not ASCII, so no comparison with an ASCII
    string can tell the difference. *)
Definition upper_char (c : ascii) : ascii :=
  if is_lower c then ascii_of_nat (nat_of_ascii c - 32) else c.
Definition upper2 (a b : Z) : option string :=
  if (a =? 196) && (b =? 177) then Some "I"
  else if (a =? 197) && (b =? 191) then Some "S"
  else if (a =? 195) && (b =? 159) then Some "SS"
  else None.
Definition upper3 (a b c : Z) : option string :=
  if (a =? 239) && (b =? 172) then
    match c with
    | 128 => Some "FF" | 129 => Some "FI" | 130 => Some "FL" | 131 => Some "FFI"
    | 132 => Some "FFL" | 133 => Some "ST" | 134 => Some "ST"
    | _ => None
    end
  else None.
Fixpoint to_uppercase (s : string) : string :=
  match s with
  | "" => ""
  | String a s1 =>
      match s1 with
      | "" => String (upper_char a) ""
      | String b s2 =>
          match upper2 (code a) (code b) with
          | Some u => u +:+ to_uppercase s2
          | None =>
              match s2 with
              | "" => String (upper_char a) (to_uppercase s1)
              | String c s3 =>
                  match upper3 (code a) (code b) (code c) with
                  | Some u => u +:+ to_uppercase s3
                  | None => String (upper_char a) (to_uppercase s1)
                  end
              end
          end
      end
  end.

Example to_uppercase_ascii : to_uppercase "screen_Share1" = "SCREEN_SHARE1".
Proof. reflexivity. Qed.
Example to_uppercase_long_s :
  to_uppercase (String (ascii_of_nat 197) (String (ascii_of_nat 191) "ip")) = "SIP".
Proof. reflexivity. Qed.

(** * Prefixes, suffixes, substrings *)

Fixpoint strip_prefix (p s : string) : option string :=
  match p, s with
  | "", _ => Some s
  | String a p', String b s' => if Ascii.eqb a b then strip_prefix p' s' else None
  | String _ _, "" => None
  end.

Definition starts_with (p s : string) : bool :=
  match strip_prefix p s with Some _ => true | None => false end.

Fixpoint strip_suffix (suf s : string) : option string :=
  if String.eqb suf s then Some ""
  else match s with
       | "" => None
       | String c s' => String c <$> strip_suffix suf s'
       end.

Definition ends_with (suf s : string) : bool :=
  match strip_suffix suf s with Some _ => true | None => false end.

Fixpoint contains (sub s : string) : bool :=
  starts_with sub s ||
  match s with "" => false | String _ s' => contains sub s' end.

(** * Splitting *)

(** [s.split(c)]: the maximal pieces between occurrences of [c]. *)
Fixpoint split_on (c : ascii) (s : string) : list string :=
  match s with
  | "" => [""]
  | String d s' =>
      if Ascii.eqb d c then "" :: split_on c s'
      else match split_on c s' with
           | [] => [String d ""]
           | w :: ws => String d w :: ws
           end
  end.

(** [s.split_once(c)]: around the first occurrence. *)
Fixpoint split_once (c : ascii) (s : string) : option (string * string) :=
  match s with
  | "" => None
  | String d s' =>
      if Ascii.eqb d c then Some ("", s')
      else '(a, b) ← split_once c s'; Some (String d a, b)
  end.

(** [s.rsplit_once(c)]: around the last occurrence. *)
Fixpoint rsplit_once (c : ascii) (s : string) : option (string * string) :=
  match s with
  | "" => None
  | String d s' =>
      match rsplit_once c s' with
      | Some (a, b) => Some (String d a, b)
      | None => if Ascii.eqb d c then Some ("", s') else None
      end
  end.

(** One leading whitespace character (Unicode [White_Space], UTF-8 encoded): what
    follows it. *)
Definition space2 (a b : Z) : bool := (a =? 194) && ((b =? 133) || (b =? 160)).
Definition space3 (a b c : Z) : bool :=
  ((a =? 225) && (b =? 154) && (c =? 128))
  || ((a =? 226) && (b =? 128) && (((128 <=? c) && (c <=? 138)) || (c =? 168) || (c =? 169) || (c =? 175)))
  || ((a =? 226) && (b =? 129) && (c =? 159))
  || ((a =? 227) && (b =? 128) && (c =? 128)).
Definition strip_space (s : string) : option string :=
  match s with
  | "" => None
  | String a s1 =>
      if is_space a then Some s1
      else match s1 with
           | "" => None
           | String b s2 =>
               if space2 (code a) (code b) then Some s2
               else match s2 with
                    | "" => None
                    | String c s3 => if space3 (code a) (code b) (code c) then Some s3 else None
                    end
           end
  end.

(** Each turn drops at least one byte: the length of the string is enough fuel. *)
Fixpoint trim_start_fuel (fuel : nat) (s : string) : string :=
  match fuel with
  | O => s
  | S f => match strip_space s with Some r => trim_start_fuel f r | None => s end
  end.
Definition trim_start (s : string) : string := trim_start_fuel (String.length s) s.
Fixpoint trim_end (s : string) : string :=
  match s with
  | "" => ""
  | String c s' => if (trim_start s =? "")%string then "" else String c (trim_end s')
  end.
Definition trim (s : string) : string := trim_end (trim_start s).

(** [s.split_whitespace()]: the non-empty runs of non-space characters; [cur] is
    the run being read. *)
Definition flush_word (cur : string) (ws : list string) : list string :=
  if (cur =? "")%string then ws else cur :: ws.
Fixpoint split_ws_fuel (fuel : nat) (cur s : string) : list string :=
  match fuel with
  | O => flush_word cur []
  | S f =>
      match strip_space s with
      | Some r => flush_word cur (split_ws_fuel f "" r)
      | None => match s with
                | "" => flush_word cur []
                | String c s' => split_ws_fuel f (cur +:+ String c "") s'
                end
      end
  end.
Definition split_whitespace (s : string) : list string := split_ws_fuel (S (String.length s)) "" s.

(** [s.lines()]: the pieces between newlines without a final empty one, each
    without a trailing carriage return. *)
Fixpoint drop_last_empty (l : list string) : list string :=
  match l with
  | [] => []
  | [x] => if (x =? "")%string then [] else [x]
  | x :: l' => x :: drop_last_empty l'
  end.
Definition newline : ascii := ascii_of_nat 10.
Definition cr : string := String (ascii_of_nat 13) "".
Definition lines (s : string) : list string :=
  (fun l => match strip_suffix cr l with Some l' => l' | None => l end)
  <$> drop_last_empty (split_on newline s).

Example trim_ex : trim "  a b  " = "a b". Proof. reflexivity. Qed.
Example split_ws_ex : split_whitespace " 1  urn:x " = ["1"; "urn:x"]. Proof. reflexivity. Qed.
Example split_ws_empty : split_whitespace "   " = []. Proof. reflexivity. Qed.

Fixpoint join (sep : string) (l : list string) : string :=
  match l with
  | [] => ""
  | [x] => x
  | x :: l' => x +:+ sep +:+ join sep l'
  end.

(** * Decimal printing *)

Definition digit_char (d : Z) : ascii := ascii_of_nat (48 + Z.to_nat d).

(** The last [w] decimal digits of [n], most significant first. *)
Fixpoint dec_digits (w : nat) (n : Z) : string :=
  match w with
  | O => ""
  | S w' => dec_digits w' (n / 10) +:+ String (digit_char (n mod 10)) ""
  end.

(** Number of decimal digits of [n >= 0]; [fuel] digits are always enough when
    [n < 10 ^ fuel]. *)
Fixpoint ndigits_fuel (fuel : nat) (n : Z) : nat :=
  match fuel with
  | O => 1
  | S f => if n <? 10 then 1 else S (ndigits_fuel f (n / 10))
  end.
(** 40 digits cover every 128-bit integer. *)
Definition ndigits (n : Z) : nat := ndigits_fuel 40 n.

(** [format!("{:0width$}", n)]: the sign counts in the width. *)
Definition fmt_pad (width : nat) (n : Z) : string :=
  if n <? 0 then "-" +:+ dec_digits (Nat.max (width - 1) (ndigits (- n))) (- n)
  else dec_digits (Nat.max width (ndigits n)) n.

(** [n.to_string()]. *)
Definition fmt_dec (n : Z) : string := fmt_pad 0 n.

(** * Integer parsing *)

Fixpoint parse_digits (s : string) (acc : Z) : option Z :=
  match s with
  | "" => Some acc
  | String c s' =>
      if is_digit c then parse_digits s' (acc * 10 + (code c - 48)) else None
  end.

(** [str::parse] for an integer type with range [lo..hi]: an optional sign
    ([-] only for signed types), at least one digit, overflow is an error. *)
Definition parse_int (lo hi : Z) (s : string) : option Z :=
  let '(neg, digits) :=
    match s with
    | String "+" s' => (false, s')
    | String "-" s' => if lo <? 0 then (true, s') else (false, s)
    | _ => (false, s)
    end in
  match digits with
  | "" => None
  | _ =>
      n ← parse_digits digits 0;
      let v := if neg : bool then - n else n in
      if (lo <=? v) && (v <=? hi) then Some v else None
  end.

Definition parse_i64 : string -> option Z := parse_int i64_min i64_max.
Definition parse_i32 : string -> option Z := parse_int i32_min i32_max.
Definition parse_u8 : string -> option Z := parse_int 0 u8_max.
Definition parse_u16 : string -> option Z := parse_int 0 65535.

(** * Slices *)

(** [s[i..]] for a byte index; [None] is the panic of an index out of range or inside a
    character. *)
Definition slice_from (i : Z) (s : string) : option string :=
  if (i <? 0) || (str_len s <? i) then None
  else
    let t := String.substring (Z.to_nat i) (String.length s) s in
    match t with
    | String c _ => if (128 <=? code c) && (code c <? 192) then None else Some t
    | "" => Some t
    end.

(** [s[..n]], with the same panic. *)
Definition slice_to (n : Z) (s : string) : option string :=
  _ ← slice_from n s; Some (String.substring 0 (Z.to_nat n) s).

(** * Lemmas *)

(** [c] does not occur in [s]. *)
Definition free_of (c : ascii) (s : string) : Prop := contains_char c s = false.

Lemma str_app_assoc (a b c : string) : (a +:+ b) +:+ c = a +:+ (b +:+ c).
Proof. induction a as [|x a IH]; [done|]. cbn [String.append]. f_equal. exact IH. Qed.

Lemma str_app_nil_r (a : string) : a +:+ "" = a.
Proof. induction a as [|x a IH]; [done|]. cbn [String.append]. f_equal. exact IH. Qed.

Lemma str_len_app a b : str_len (a +:+ b) = str_len a + str_len b.
Proof. unfold str_len. induction a; cbn [String.length String.append] in *; lia. Qed.

Lemma str_app_inj (a b a' b' : string) :
  str_len a = str_len a' -> a +:+ b = a' +:+ b' -> a = a' /\ b = b'.
Proof.
  revert a'. induction a as [|x a IH]; intros [|x' a'] Hl E; unfold str_len in *; cbn in *; try lia; [done|].
  injection E as -> E. destruct (IH a') as [-> ->]; [unfold str_len; lia|done|done].
Qed.

Lemma str_forallb_app p a b :
  str_forallb p (a +:+ b) = (str_forallb p a && str_forallb p b)%bool.
Proof. induction a as [|x a IH]; cbn; [done|]. rewrite IH. by destruct (p x). Qed.

Lemma free_of_cons c x s :
  free_of c (String x s) <-> x <> c /\ free_of c s.
Proof.
  unfold free_of, contains_char; cbn. rewrite !negb_false_iff, andb_true_iff, negb_true_iff.
  rewrite Ascii.eqb_neq. split; intros [? ?]; split; congruence.
Qed.

Lemma free_of_app c a b : free_of c (a +:+ b) <-> free_of c a /\ free_of c b.
Proof.
  unfold free_of, contains_char. rewrite str_forallb_app, !negb_false_iff.
  apply andb_true_iff.
Qed.

Lemma strip_prefix_app p s : strip_prefix p (p +:+ s) = Some s.
Proof. induction p as [|x p IH]; cbn; [done|]. by rewrite Ascii.eqb_refl. Qed.

Lemma strip_prefix_Some p s r : strip_prefix p s = Some r -> s = p +:+ r.
Proof.
  revert s. induction p as [|x p IH]; intros [|y s]; cbn; try congruence.
  destruct (Ascii.eqb_spec x y) as [->|]; [|done]. intros ?%IH. by subst.
Qed.

Lemma split_once_app c a b :
  free_of c a -> split_once c (a +:+ String c b) = Some (a, b).
Proof.
  induction a as [|x a IH]; cbn; intros H.
  - by rewrite Ascii.eqb_refl.
  - apply free_of_cons in H as [Hx Ha]. destruct (Ascii.eqb_spec x c); [done|].
    by rewrite IH.
Qed.

Lemma split_once_None c a : free_of c a -> split_once c a = None.
Proof.
  induction a as [|x a IH]; cbn; intros H; [done|].
  apply free_of_cons in H as [Hx Ha]. destruct (Ascii.eqb_spec x c); [done|].
  by rewrite IH.
Qed.

Lemma split_on_free c a : free_of c a -> split_on c a = [a].
Proof.
  induction a as [|x a IH]; cbn; intros H; [done|].
  apply free_of_cons in H as [Hx Ha]. destruct (Ascii.eqb_spec x c); [done|].
  by rewrite IH.
Qed.

Lemma split_on_app c a b :
  free_of c a -> split_on c (a +:+ String c b) = a :: split_on c b.
Proof.
  induction a as [|x a IH]; cbn; intros H.
  - by rewrite Ascii.eqb_refl.
  - apply free_of_cons in H as [Hx Ha]. destruct (Ascii.eqb_spec x c); [done|].
    by rewrite IH.
Qed.

(** Joining the pieces of a split with the separator gives the string back. *)
Lemma split_on_join c s : join (String c "") (split_on c s) = s.
Proof.
  induction s as [|x s IH]; [done|]. cbn [split_on].
  destruct (Ascii.eqb_spec x c) as [->|Hx].
  - destruct (split_on c s) as [|p l] eqn:E; [by destruct s; cbn in E; repeat case_match|].
    rewrite <- IH. done.
  - destruct (split_on c s) as [|p [|q l]] eqn:E; cbn in *; by rewrite <- IH.
Qed.

Lemma strip_suffix_char c s : free_of c s -> strip_suffix (String c "") (s +:+ String c "") = Some s.
Proof.
  induction s as [|x s IH]; cbn [String.append strip_suffix]; intros H.
  - by rewrite String.eqb_refl.
  - apply free_of_cons in H as [Hx Hs].
    destruct (String.eqb_spec (String c "") (String x (s +:+ String c ""))) as [E|_].
    + injection E as E1 E2. by subst.
    + by rewrite IH.
Qed.

Lemma strip_suffix_None c s : free_of c s -> strip_suffix (String c "") s = None.
Proof.
  induction s as [|x s IH]; cbn [strip_suffix]; intros H; [done|].
  apply free_of_cons in H as [Hx Hs].
  destruct (String.eqb_spec (String c "") (String x s)) as [E|_].
  - by injection E as -> _.
  - by rewrite IH.
Qed.

(** ** Digits *)

Lemma code_digit_char d : 0 <= d < 10 -> code (digit_char d) = 48 + d.
Proof.
  intros H. unfold code, digit_char. rewrite nat_ascii_embedding by lia. lia.
Qed.

Lemma is_digit_digit_char d : 0 <= d < 10 -> is_digit (digit_char d) = true.
Proof. intros H. unfold is_digit. rewrite code_digit_char by done. lia. Qed.

Lemma dec_digits_all w n : str_forallb is_digit (dec_digits w n) = true.
Proof.
  revert n; induction w as [|w IH]; intros n; cbn; [done|].
  rewrite str_forallb_app, IH; cbn.
  by rewrite is_digit_digit_char by (apply Z.mod_pos_bound; lia).
Qed.

Lemma dec_digits_len w n : str_len (dec_digits w n) = Z.of_nat w.
Proof.
  revert n; induction w as [|w IH]; intros n; [done|]. cbn [dec_digits].
  rewrite str_len_app, IH. unfold str_len; cbn. lia.
Qed.

Lemma free_of_digits c s : is_digit c = false -> str_forallb is_digit s = true -> free_of c s.
Proof.
  intros Hc. induction s as [|x s IH]; cbn; intros H; [done|].
  apply andb_true_iff in H as [H1 H2]. apply free_of_cons. split; [congruence|auto].
Qed.

Lemma dec_digits_free c w n : is_digit c = false -> free_of c (dec_digits w n).
Proof. intros; apply free_of_digits; [done|apply dec_digits_all]. Qed.

Lemma parse_digits_app a b acc :
  str_forallb is_digit a = true ->
  parse_digits (a +:+ b) acc = n ← parse_digits a acc; parse_digits b n.
Proof.
  revert acc; induction a as [|x a IH]; cbn; intros acc H; [done|].
  apply andb_true_iff in H as [-> H]. by apply IH.
Qed.

Lemma parse_dec_digits w n acc :
  0 <= n < 10 ^ Z.of_nat w ->
  parse_digits (dec_digits w n) acc = Some (acc * 10 ^ Z.of_nat w + n).
Proof.
  revert n acc; induction w as [|w IH]; intros n acc Hn.
  - cbn in *. f_equal; lia.
  - rewrite Nat2Z.inj_succ, Z.pow_succ_r in * by lia. cbn [dec_digits].
    rewrite parse_digits_app by apply dec_digits_all.
    pose proof (Z.div_mod n 10 ltac:(lia)). pose proof (Z.mod_pos_bound n 10 ltac:(lia)).
    rewrite IH by (split; [apply Z.div_pos; lia|apply Z.div_lt_upper_bound; lia]).
    cbn. rewrite is_digit_digit_char, code_digit_char by done. cbn. f_equal; lia.
Qed.

Lemma ndigits_fuel_bound f n :
  0 <= n < 10 ^ Z.of_nat (S f) -> n < 10 ^ Z.of_nat (ndigits_fuel f n).
Proof.
  revert n; induction f as [|f IH]; intros n Hn; [cbn in *; lia|]. cbn [ndigits_fuel].
  destruct (Z.ltb_spec n 10); [cbn; lia|].
  rewrite Nat2Z.inj_succ, Z.pow_succ_r by lia.
  enough (n / 10 < 10 ^ Z.of_nat (ndigits_fuel f (n / 10))).
  { pose proof (Z.div_mod n 10 ltac:(lia)). pose proof (Z.mod_pos_bound n 10 ltac:(lia)). lia. }
  apply IH. rewrite Nat2Z.inj_succ, Z.pow_succ_r in Hn by lia.
  split; [apply Z.div_pos; lia|apply Z.div_lt_upper_bound; lia].
Qed.

Lemma ndigits_bound n : 0 <= n < 10 ^ 41 -> n < 10 ^ Z.of_nat (ndigits n).
Proof. intros; apply ndigits_fuel_bound. exact H. Qed.

Lemma ndigits_pos n : (1 <= ndigits n)%nat.
Proof. unfold ndigits; cbn [ndigits_fuel]. destruct (n <? 10); lia. Qed.

Lemma pow10_mono a b : (a <= b)%nat -> 10 ^ Z.of_nat a <= 10 ^ Z.of_nat b.
Proof. intros; apply Z.pow_le_mono_r; lia. Qed.

(** A non-empty digit string is not taken for a signed one. *)
Lemma parse_int_digits lo hi s n :
  str_forallb is_digit s = true -> s <> "" ->
  parse_digits s 0 = Some n -> lo <= n <= hi ->
  parse_int lo hi s = Some n.
Proof.
  intros Hd Hne Hp Hr. unfold parse_int.
  destruct s as [|c s]; [done|].
  assert (is_digit c = true) as Hc by (cbn in Hd; by apply andb_true_iff in Hd as [? _]).
  assert ((match c with
    | "+"%char => (false, s)
    | "-"%char => if lo <? 0 then (true, s) else (false, String c s)
    | _ => (false, String c s) end) = (false, String c s)) as E.
  { destruct c as [[] [] [] [] [] [] [] []]; try reflexivity; by cbn in Hc. }
  assert (match String c s with
    | String "+" s' => (false, s')
    | String "-" s' => if lo <? 0 then (true, s') else (false, String c s)
    | _ => (false, String c s) end = (false, String c s)) as -> by exact E.
  cbv iota beta. rewrite Hp. cbn [mbind option_bind].
  replace ((lo <=? n) && (n <=? hi))%bool with true by lia. done.
Qed.

Lemma dec_digits_nonempty w n : (1 <= w)%nat -> dec_digits w n <> "".
Proof.
  intros Hw E. assert (str_len (dec_digits w n) = 0) as H by by rewrite E.
  rewrite dec_digits_len in H. lia.
Qed.

(** Printing with any padding and parsing back. *)
Lemma parse_fmt_pad lo hi w n :
  0 <= n < 10 ^ 41 -> lo <= n <= hi -> parse_int lo hi (fmt_pad w n) = Some n.
Proof.
  intros Hn Hr. unfold fmt_pad. destruct (Z.ltb_spec n 0); [lia|].
  pose proof (ndigits_pos n). apply parse_int_digits; try done.
  - apply dec_digits_all.
  - apply dec_digits_nonempty. lia.
  - rewrite parse_dec_digits; [f_equal; lia|].
    pose proof (ndigits_bound n Hn).
    pose proof (pow10_mono (ndigits n) (Nat.max w (ndigits n)) ltac:(lia)). lia.
Qed.

(** Printing and parsing a signed number. *)
Lemma parse_fmt_dec lo hi n :
  lo < 0 -> - 10 ^ 41 < n < 10 ^ 41 -> lo <= n <= hi -> parse_int lo hi (fmt_dec n) = Some n.
Proof.
  intros Hlo Hn Hr. destruct (Z.ltb_spec n 0) as [Hneg|]; [|apply parse_fmt_pad; lia].
  unfold fmt_dec, fmt_pad. replace (n <? 0) with true by lia.
  pose proof (ndigits_pos (- n)). change (Nat.max (0 - 1) (ndigits (- n))) with (ndigits (- n)).
  unfold parse_int. cbn [String.append]. replace (lo <? 0) with true by lia.
  destruct (dec_digits (ndigits (- n)) (- n)) eqn:E.
  { by apply dec_digits_nonempty in E. }
  rewrite <- E. rewrite parse_dec_digits by (pose proof (ndigits_bound (- n) ltac:(lia)); lia).
  cbn [mbind option_bind].
  replace (- (0 * 10 ^ Z.of_nat (ndigits (- n)) + - n)) with n by lia.
  replace ((lo <=? n) && (n <=? hi))%bool with true by lia. done.
Qed.

Lemma fmt_pad_free c w n : is_digit c = false -> c <> "-"%char -> free_of c (fmt_pad w n).
Proof.
  intros Hc Hm. unfold fmt_pad. destruct (n <? 0).
  - apply free_of_cons. split; [congruence|]. by apply dec_digits_free.
  - by apply dec_digits_free.
Qed.

Lemma fmt_pad_free_nonneg c w n : 0 <= n -> is_digit c = false -> free_of c (fmt_pad w n).
Proof.
  intros Hn Hc. unfold fmt_pad. destruct (Z.ltb_spec n 0); [lia|]. by apply dec_digits_free.
Qed.

#[export] Hint Resolve fmt_pad_free_nonneg fmt_pad_free dec_digits_free dec_digits_all : lk.
