(* ===== verification/Core.v ===== *)
(** Core identifiers and value types, [crates/lk-server/src/core.rs]: clock
    readings, id generation, the two version counters that order updates, and the
    participant state and kind enums with their wire values. *)
From Stdlib Require Import ZArith Lia Ascii String Sorted.
From stdpp Require Import base gmap strings list option.
From S2P Require Import Prelude RustStr.

Open Scope string_scope.
Open Scope list_scope.
Open Scope Z_scope.

(** * Clock readings *)

(** [SystemTime::now().duration_since(UNIX_EPOCH)]: nanoseconds since the epoch,
    or no value when the system clock is before it. *)
Definition sys_time := option Z.

Definition unix_micros (t : sys_time) : Z :=
  match t with Some ns => wrap_s 64 (ns / 1000) | None => 0 end.
Definition unix_nanos (t : sys_time) : Z :=
  match t with Some ns => wrap_s 64 ns | None => 0 end.
Definition unix_millis (t : sys_time) : Z := Z.quot (unix_micros t) 1000.
Definition unix_seconds (t : sys_time) : Z := Z.quot (unix_micros t) 1000000.

(** * Identifiers *)

Definition ALPHABET : string := "abcdefghijklmnopqrstuvwxyzABCDEFGHIJKLMNOPQRSTUVWXYZ0123456789".

(** The suffix for the indices drawn by [rng.gen_range(0..ALPHABET.len())];
    [None] is an index out of bounds. *)
Fixpoint id_suffix (draws : list nat) : option string :=
  match draws with
  | [] => Some ""
  | i :: ds => c ← String.get i ALPHABET; s ← id_suffix ds; Some (String c s)
  end.

Definition generate_id (prefix : string) (draws : list nat) : option string :=
  s ← id_suffix draws; Some (prefix +:+ s).

Definition new_room_sid := generate_id "RM_".
Definition new_participant_sid := generate_id "PA_".
Definition new_track_sid := generate_id "TR_".
Definition new_dispatch_id := generate_id "DA_".
Definition new_worker_id := generate_id "LW_".
Definition new_job_id := generate_id "LJ_".

(** * Versions *)

Record TimedVersion := mkTV { unix_micro : Z; ticks : Z }.
#[global] Instance TimedVersion_eq_dec : EqDecision TimedVersion.
Proof. solve_decision. Defined.

Definition TimedVersion_new (now : Z) : TimedVersion := mkTV now 0.

(** [TimedVersion::bump] with the clock reading [now]; the tick counter is an
    [i32]. *)
Definition bump (now : Z) (v : TimedVersion) : TimedVersion :=
  if now =? unix_micro v then mkTV (unix_micro v) (wrap_s 32 (ticks v + 1))
  else mkTV now 0.

(** [VersionCounter(AtomicI64)]. *)
Definition VersionCounter := Z.

(** [VersionCounter::next]: the counter after, and the value returned. *)
Definition next (c : VersionCounter) : VersionCounter * Z :=
  (wrap_s 64 (c + 1), wrap_u 32 (Z.max c 1)).
Definition get (c : VersionCounter) : Z := wrap_u 32 c.

(** * Participant state and kind *)

Inductive ParticipantState := Joining | Joined | Active | Disconnected.
#[global] Instance ParticipantState_eq_dec : EqDecision ParticipantState.
Proof. solve_decision. Defined.

(** [state as u8], also the wire value. *)
Definition state_u8 (s : ParticipantState) : Z :=
  match s with Joining => 0 | Joined => 1 | Active => 2 | Disconnected => 3 end.

Inductive ParticipantKind := Standard | Ingress | Egress | Sip | Agent | Connector | Bridge.
#[global] Instance ParticipantKind_eq_dec : EqDecision ParticipantKind.
Proof. solve_decision. Defined.

Definition kind_to_proto (k : ParticipantKind) : Z :=
  match k with
  | Standard => 0 | Ingress => 1 | Egress => 2 | Sip => 3 | Agent => 4
  | Connector => 7 | Bridge => 8
  end.

Definition kind_from_proto (v : Z) : ParticipantKind :=
  match v with
  | 1 => Ingress | 2 => Egress | 3 => Sip | 4 => Agent | 7 => Connector | 8 => Bridge
  | _ => Standard
  end.

(** Agents and egress recorders neither count toward the capacity of a room nor
    keep it open. *)
Definition is_dependent (k : ParticipantKind) : bool :=
  match k with Agent | Egress => true | _ => false end.

(** * Order of versions *)

(** Clients order updates lexicographically. *)
Definition tv_lt (a b : TimedVersion) : Prop :=
  unix_micro a < unix_micro b \/ (unix_micro a = unix_micro b /\ ticks a < ticks b).

Lemma tv_lt_trans a b c : tv_lt a b -> tv_lt b c -> tv_lt a c.
Proof. unfold tv_lt; lia. Qed.

Lemma bump_lt now v :
  unix_micro v <= now -> 0 <= ticks v < i32_max -> tv_lt v (bump now v).
Proof.
  intros Hn Ht. unfold bump, tv_lt. destruct (Z.eqb_spec now (unix_micro v)); cbn; [|lia].
  unfold i32_max in Ht. rewrite wrap_s_small by lia. lia.
Qed.

(** Successive bumps under the clock readings [nows]: the versions handed out. *)
Fixpoint bump_run (v : TimedVersion) (nows : list Z) : list TimedVersion :=
  match nows with
  | [] => []
  | now :: rest => let v' := bump now v in v' :: bump_run v' rest
  end.

Lemma bump_ticks now v k :
  0 <= ticks v <= k -> k < i32_max -> 0 <= ticks (bump now v) <= k + 1.
Proof.
  intros Hv Hk. unfold bump. unfold i32_max in Hk.
  destruct (_ =? _); cbn; [rewrite wrap_s_small; lia | lia].
Qed.

Lemma bump_micro now v : unix_micro (bump now v) = now.
Proof. unfold bump. destruct (Z.eqb_spec now (unix_micro v)); cbn; congruence. Qed.

Lemma bump_run_sorted nows : forall v,
  Sorted Z.le (unix_micro v :: nows) ->
  0 <= ticks v -> ticks v + Z.of_nat (length nows) <= i32_max ->
  Sorted tv_lt (v :: bump_run v nows).
Proof.
  induction nows as [|now rest IH]; intros v Hs Ht Hk; cbn [bump_run]; [repeat constructor|].
  apply Sorted_inv in Hs as [Hs Hd]. inversion Hd as [|? ? Hle]; subst. cbn [length] in Hk.
  pose proof (bump_ticks now v (ticks v) ltac:(lia) ltac:(lia)) as Hb.
  constructor.
  - apply IH; rewrite ?bump_micro; [done|lia|lia].
  - constructor. apply bump_lt; lia.
Qed.

(** Versions order updates.  As long as the clock does not step back, the
    versions a room or track hands out over any number of bumps (up to the range
    of the tick counter) are strictly increasing, also when several bumps fall in
    one microsecond. *)
Theorem timed_versions_increase v nows :
  Sorted Z.le (unix_micro v :: nows) ->
  0 <= ticks v -> ticks v + Z.of_nat (length nows) <= i32_max ->
  StronglySorted tv_lt (v :: bump_run v nows).
Proof.
  intros Hs Ht Hk. apply Sorted_StronglySorted; [exact tv_lt_trans|]. by apply bump_run_sorted.
Qed.

Lemma timed_versions_increase_witness :
  StronglySorted tv_lt (mkTV 5 0 :: bump_run (mkTV 5 0) [5; 5; 7]).
Proof.
  apply (timed_versions_increase (mkTV 5 0) [5; 5; 7]); [repeat constructor; cbn; lia | cbn; lia | cbn; unfold i32_max; lia].
Defined.

(** A clock that steps back makes the version go back with it. *)
Lemma bump_follows_clock_back : tv_lt (bump 3 (mkTV 5 0)) (mkTV 5 0).
Proof. left. reflexivity. Qed.

(** The versions of the first [n] serializations from counter [c]. *)
Fixpoint serial_versions (n : nat) (c : VersionCounter) : list Z :=
  match n with
  | O => []
  | S n' => let '(c', v) := next c in v :: serial_versions n' c'
  end.

Lemma serial_versions_from n : forall c,
  1 <= c -> c + Z.of_nat n <= 2 ^ 32 -> serial_versions n c = (fun i => c + Z.of_nat i) <$> seq 0 n.
Proof.
  induction n as [|n IH]; intros c Hc Hn; [done|]. cbn [serial_versions next seq].
  rewrite wrap_s_small, wrap_u_small by lia. rewrite IH by lia. cbn [fmap list_fmap].
  f_equal; [lia|]. rewrite <- seq_shift, <- list_fmap_compose. apply list_fmap_ext.
  intros i x _. cbn. lia.
Qed.

(** Participant versions.  The counter of a fresh participant hands out 1, then
    1 again, then 2, 3, 4, ... for every later serialization: the first two share
    a version and all others are distinct and increasing. *)
Theorem serial_versions_fresh n :
  Z.of_nat n < 2 ^ 32 ->
  serial_versions (S n) 0 = 1 :: ((fun i => 1 + Z.of_nat i) <$> seq 0 n).
Proof.
  intros Hn. cbn [serial_versions next]. change (wrap_s 64 (0 + 1)) with 1.
  change (wrap_u 32 (Z.max 0 1)) with 1. f_equal. apply serial_versions_from; lia.
Qed.

Lemma serial_versions_fresh_witness : serial_versions 5 0 = [1; 1; 2; 3; 4].
Proof. rewrite (serial_versions_fresh 4) by lia. reflexivity. Defined.

(** * Generated ids *)

Lemma id_suffix_ok draws :
  Forall (fun i => (i < 62)%nat) draws ->
  exists s, id_suffix draws = Some s /\ String.length s = length draws.
Proof.
  induction 1 as [|i ds Hi _ (s & IH & Hl)]; [by exists ""|]. cbn [id_suffix].
  destruct (String.get i ALPHABET) as [c|] eqn:E.
  - rewrite IH. exists (String c s). cbn. by rewrite Hl.
  - exfalso. assert (forallb (fun i => match String.get i ALPHABET with Some _ => true | None => false end) (seq 0 62) = true) as H by reflexivity.
    rewrite forallb_forall in H. specialize (H i). rewrite E in H. discriminate H.
    apply in_seq. lia.
Qed.
