(* ===== verification/Track.v ===== *)
(** Published tracks, [crates/lk-server/src/track.rs]: the signaling side of a
    media track and the [TrackInfo] message it is announced with. *)
From Stdlib Require Import ZArith Lia Ascii String.
From stdpp Require Import base gmap strings list option.
From S2P Require Import Prelude RustStr Core.

Open Scope string_scope.
Open Scope list_scope.
Open Scope Z_scope.

Inductive TrackKind := Audio.

(** [lk::TrackType::Audio as i32]. *)
Definition track_kind_to_proto (k : TrackKind) : Z := match k with Audio => 0 end.

Inductive TrackSource := Unknown | Camera | Microphone | ScreenShare | ScreenShareAudio.
#[global] Instance TrackSource_eq_dec : EqDecision TrackSource.
Proof. solve_decision. Defined.

Definition source_to_proto (s : TrackSource) : Z :=
  match s with
  | Unknown => 0 | Camera => 1 | Microphone => 2 | ScreenShare => 3 | ScreenShareAudio => 4
  end.

Definition source_from_proto (v : Z) : TrackSource :=
  match v with
  | 1 => Camera | 2 => Microphone | 3 => ScreenShare | 4 => ScreenShareAudio | _ => Unknown
  end.

Definition source_str (s : TrackSource) : string :=
  match s with
  | Unknown => "unknown" | Camera => "camera" | Microphone => "microphone"
  | ScreenShare => "screen_share" | ScreenShareAudio => "screen_share_audio"
  end.

(** [source_from_str]: a grant's [canPublishSources] entry to the wire value. *)
Definition source_from_str (s : string) : Z :=
  let u := to_uppercase s in
  if (u =? "CAMERA")%string then 1
  else if (u =? "MICROPHONE")%string then 2
  else if (u =? "SCREEN_SHARE")%string then 3
  else if (u =? "SCREEN_SHARE_AUDIO")%string then 4
  else 0.

Record PublishedTrack := mkTrack {
  t_sid : string;
  t_cid : string;
  t_name : string;
  t_kind : TrackKind;
  t_source : TrackSource;
  t_stream : string;
  t_muted : bool;
  t_mime : string;
  t_mid : option string;
  t_version : TimedVersion;
  t_red_enabled : bool;
  t_encryption : Z;
  t_stereo : bool;
  t_disable_dtx : bool;
  t_audio_features : list Z;
  t_backup_codec_policy : Z
}.

(** [PublishedTrack::new]; [sid] is the value [new_track_sid] drew. *)
Definition PublishedTrack_new (now : Z) (sid name cid : string) (source : TrackSource) (stream : string)
  : PublishedTrack :=
  mkTrack sid cid name Audio source stream false "audio/opus" None (TimedVersion_new now)
    false 0 false false [] 0.

Definition is_muted (t : PublishedTrack) : bool := t_muted t.

Definition with_muted (b : bool) (v : TimedVersion) (t : PublishedTrack) : PublishedTrack :=
  mkTrack (t_sid t) (t_cid t) (t_name t) (t_kind t) (t_source t) (t_stream t) b (t_mime t)
    (t_mid t) v (t_red_enabled t) (t_encryption t) (t_stereo t) (t_disable_dtx t)
    (t_audio_features t) (t_backup_codec_policy t).

(** [set_muted]: whether the flag changed; the version moves exactly then. *)
Definition set_muted (now : Z) (muted : bool) (t : PublishedTrack) : PublishedTrack * bool :=
  let prev := t_muted t in
  if negb (Bool.eqb prev muted) then (with_muted muted (bump now (t_version t)) t, true)
  else (with_muted muted (t_version t) t, false).

Definition set_mime (mime : string) (t : PublishedTrack) : PublishedTrack :=
  mkTrack (t_sid t) (t_cid t) (t_name t) (t_kind t) (t_source t) (t_stream t) (t_muted t) mime
    (t_mid t) (t_version t) (t_red_enabled t) (t_encryption t) (t_stereo t) (t_disable_dtx t)
    (t_audio_features t) (t_backup_codec_policy t).

Definition set_mid (mid : option string) (t : PublishedTrack) : PublishedTrack :=
  mkTrack (t_sid t) (t_cid t) (t_name t) (t_kind t) (t_source t) (t_stream t) (t_muted t) (t_mime t)
    mid (t_version t) (t_red_enabled t) (t_encryption t) (t_stereo t) (t_disable_dtx t)
    (t_audio_features t) (t_backup_codec_policy t).

(** [lk::TrackInfo]: the fields the server sets; the others keep their defaults. *)
Record TrackInfo := mkTrackInfo {
  ti_sid : string;
  ti_type : Z;
  ti_name : string;
  ti_muted : bool;
  ti_source : Z;
  ti_disable_dtx : bool;
  ti_mime_type : string;
  ti_mid : string;
  ti_stereo : bool;
  ti_disable_red : bool;
  ti_encryption : Z;
  ti_version : TimedVersion;
  ti_stream : string;
  ti_audio_features : list Z;
  ti_backup_codec_policy : Z
}.

Definition track_to_proto (t : PublishedTrack) : TrackInfo :=
  mkTrackInfo (t_sid t) (track_kind_to_proto (t_kind t)) (t_name t) (is_muted t)
    (source_to_proto (t_source t)) (t_disable_dtx t) (t_mime t) (default "" (t_mid t)) (t_stereo t)
    (negb (t_red_enabled t)) (t_encryption t) (t_version t) (t_stream t) (t_audio_features t)
    (t_backup_codec_policy t).

Lemma source_roundtrip s : source_from_proto (source_to_proto s) = s.
Proof. by destruct s. Qed.

(** A grant entry is always one of the five wire values, and is recovered from
    the source it names. *)
Lemma source_from_str_range s : source_to_proto (source_from_proto (source_from_str s)) = source_from_str s.
Proof. unfold source_from_str. by repeat case_goal. Qed.

(** Muting: the flag ends up as asked, the answer tells whether it changed, and
    the version moves exactly on a change. *)
Lemma set_muted_spec now b t :
  let '(t', changed) := set_muted now b t in
  t_muted t' = b /\ changed = negb (Bool.eqb (t_muted t) b) /\
  t_version t' = (if changed then bump now (t_version t) else t_version t) /\
  t_sid t' = t_sid t /\ t_cid t' = t_cid t.
Proof. unfold set_muted. destruct (Bool.eqb _ _); cbn; auto. Qed.

Lemma set_muted_idem now b t : (set_muted now b (set_muted now b t).1).2 = false.
Proof.
  pose proof (set_muted_spec now b t) as H. destruct (set_muted now b t) as [t' c]. destruct H as [H _].
  cbn. unfold set_muted. by rewrite H, Bool.eqb_reflx.
Qed.
