(* ===== verification/AudioLevel.v ===== *)
(** Active-speaker detection, [crates/lk-server/src/audio_level.rs]: the RFC 6464
    level extension in a publisher SDP and the per-track detector that decides
    over a window of packets whether the speaker is active. *)
From Stdlib Require Import ZArith Lia Ascii String.
From stdpp Require Import base strings list option.
From S2P Require Import Prelude RustStr.

Open Scope string_scope.
Open Scope list_scope.
Open Scope Z_scope.

Definition ACTIVE_LEVEL_DBOV : Z := 35.
Definition MIN_PERCENTILE : Z := 40.
(** Durations in nanoseconds. *)
Definition UPDATE_INTERVAL : Z := 400 * 1000000.
Definition SMOOTH_INTERVALS : Z := 2.

(** * The extension id in an SDP *)

(** The loop over the lines; an [extmap] line of an audio section whose id does
    not parse, or that has no URI, ends the search. *)
Fixpoint ext_id_lines (in_audio : bool) (ls : list string) : option Z :=
  match ls with
  | [] => None
  | l :: rest =>
      let line := trim l in
      if starts_with "m=" line then ext_id_lines (starts_with "m=audio" line) rest
      else if negb in_audio then ext_id_lines in_audio rest
      else match strip_prefix "a=extmap:" line with
           | None => ext_id_lines in_audio rest
           | Some ext =>
               match split_whitespace ext with
               | id_str :: tl =>
                   id ← parse_u8 id_str;
                   match tl with
                   | uri :: _ =>
                       if contains "ssrc-audio-level" uri then Some id else ext_id_lines in_audio rest
                   | [] => None
                   end
               | [] => None
               end
           end
  end.

Definition audio_level_ext_id_from_sdp (sdp : string) : option Z := ext_id_lines false (lines sdp).

(** * The detector *)

(** Instants are nanoseconds of a monotonic clock. *)
Definition duration_since (now s : Z) : Z := Z.max 0 (now - s).

Record Window := mkWindow { w_total : Z; w_active : Z; w_started : option Z }.
Record AudioLevelDetector := mkDetector { d_level : Z; d_active : bool; d_window : Window }.

Definition AudioLevelDetector_new : AudioLevelDetector :=
  mkDetector 127 false (mkWindow 0 0 None).

(** The product is a [u32]. *)
Definition compute_active (total active_packets : Z) : bool :=
  if total =? 0 then false else MIN_PERCENTILE <=? wrap_u 32 (active_packets * 100) / total.

Definition window_over (now : Z) (w : Window) : bool :=
  match w_started w with
  | Some s => UPDATE_INTERVAL <=? duration_since now s
  | None => true
  end.

(** [observe]. *)
Definition observe (now level : Z) (d : AudioLevelDetector) : AudioLevelDetector :=
  let w := d_window d in
  let '(active, w) :=
    if window_over now w
    then (compute_active (w_total w) (w_active w), mkWindow 0 0 (Some now))
    else (d_active d, w) in
  mkDetector level active
    (mkWindow (saturating_add_u32 (w_total w) 1)
       (if level <=? ACTIVE_LEVEL_DBOV then saturating_add_u32 (w_active w) 1 else w_active w)
       (w_started w)).

Definition is_stale (now : Z) (d : AudioLevelDetector) : bool :=
  match w_started (d_window d) with
  | Some s => UPDATE_INTERVAL * SMOOTH_INTERVALS <=? duration_since now s
  | None => false
  end.

(** [reset_if_stale]. *)
Definition reset_if_stale (now : Z) (d : AudioLevelDetector) : AudioLevelDetector :=
  if is_stale now d then mkDetector 127 false (d_window d) else d.

(** * Windows of a packet stream *)

(** A packet: its arrival and its level. *)
Notation packet := (Z * Z)%type.
Definition run (pkts : list packet) : AudioLevelDetector :=
  foldl (fun d p => observe p.1 p.2 d) AudioLevelDetector_new pkts.

(** Reference: the packets grouped greedily into windows; the state is the last
    complete window and the open one with its start. *)
Record groups := mkGroups { complete : list packet; open_w : list packet; open_at : option Z }.
Definition group_step (g : groups) (p : packet) : groups :=
  match open_at g with
  | Some s => if UPDATE_INTERVAL <=? duration_since p.1 s then mkGroups (open_w g) [p] (Some p.1)
              else mkGroups (complete g) (open_w g ++ [p]) (Some s)
  | None => mkGroups [] [p] (Some p.1)
  end.
Definition group (pkts : list packet) : groups := foldl group_step (mkGroups [] [] None) pkts.

Definition loud (p : packet) : bool := p.2 <=? ACTIVE_LEVEL_DBOV.
Definition n_loud (l : list packet) : Z := Z.of_nat (length (filter (fun p => loud p = true) l)).

(** At least 40 percent of the packets of a non-empty window are loud. *)
Definition speaking (l : list packet) : bool :=
  negb (Z.of_nat (length l) =? 0) && (MIN_PERCENTILE * Z.of_nat (length l) <=? 100 * n_loud l).

Lemma n_loud_app l p : n_loud (l ++ [p]) = n_loud l + (if loud p then 1 else 0).
Proof.
  unfold n_loud. rewrite list.filter_app, length_app.
  destruct (loud p) eqn:E; [rewrite filter_cons_True by done | rewrite filter_cons_False by congruence];
    rewrite filter_nil; cbn; lia.
Qed.

Lemma n_loud_bound l : 0 <= n_loud l <= Z.of_nat (length l).
Proof. unfold n_loud. pose proof (list.length_filter (fun p => loud p = true) l). lia. Qed.

(** The integer quotient of the source is the percentage test. *)
Lemma compute_active_spec l :
  Z.of_nat (length l) * 100 < 2 ^ 32 ->
  compute_active (Z.of_nat (length l)) (n_loud l) = speaking l.
Proof.
  intros Hl. pose proof (n_loud_bound l). unfold compute_active, speaking.
  destruct (Z.eqb_spec (Z.of_nat (length l)) 0); [done|]. cbn [negb andb].
  rewrite wrap_u_small by lia. unfold MIN_PERCENTILE.
  destruct (Z.leb_spec (40 * Z.of_nat (length l)) (100 * n_loud l)) as [H1|H1].
  - apply Z.leb_le, Z.div_le_lower_bound; lia.
  - apply Z.leb_gt, Z.div_lt_upper_bound; lia.
Qed.

(** The detector counts exactly the packets of the open window. *)
Definition tracks (d : AudioLevelDetector) (g : groups) : Prop :=
  w_started (d_window d) = open_at g /\
  w_total (d_window d) = Z.of_nat (length (open_w g)) /\
  w_active (d_window d) = n_loud (open_w g) /\
  d_active d = speaking (complete g) /\
  (open_at g = None -> open_w g = [] /\ complete g = []).

Ltac red_tracks :=
  cbv beta iota; unfold tracks;
  cbn [d_window w_started w_total w_active d_active open_at open_w complete length].

Lemma observe_tracks d g p :
  tracks d g -> (Z.of_nat (length (open_w g)) + 1) * 100 < 2 ^ 32 ->
  tracks (observe p.1 p.2 d) (group_step g p).
Proof.
  intros (Hs & Ht & Ha & Hc & Hn) Hb. pose proof (n_loud_bound (open_w g)).
  unfold observe, window_over, group_step. rewrite Hs.
  assert (forall x, 0 <= x <= Z.of_nat (length (open_w g)) -> saturating_add_u32 x 1 = x + 1) as Hsat.
  { intros x Hx. unfold saturating_add_u32, u32_max. lia. }
  assert (n_loud [p] = if p.2 <=? ACTIVE_LEVEL_DBOV then 1 else 0) as H1.
  { pose proof (n_loud_app [] p) as H1. cbn [app] in H1. rewrite H1. unfold loud. reflexivity. }
  assert (forall b : bool, (if b then saturating_add_u32 0 1 else 0) = if b then 1 else 0) as H0 by (by intros []).
  destruct (open_at g) as [s|] eqn:Es.
  - destruct (UPDATE_INTERVAL <=? duration_since p.1 s).
    + red_tracks. rewrite H0, H1, Ht, Ha, compute_active_spec by lia. by split_and!.
    + red_tracks. rewrite length_app, n_loud_app, Hsat, Ht, Ha by lia. cbn [length]. unfold loud.
      split_and!; try done; [lia|]. destruct (_ <=? _); [apply Hsat|]; lia.
  - destruct (Hn eq_refl) as [Eo Ec]. rewrite Eo in Ht, Ha. red_tracks.
    rewrite H0, H1, Ht, Ha. by split_and!.
Qed.

Lemma group_open_length pkts : (length (open_w (group pkts)) <= length pkts)%nat.
Proof.
  unfold group. induction pkts as [|p pkts IH] using rev_ind; [done|].
  rewrite foldl_app, length_app. set (g := foldl group_step _ pkts) in *. cbn [foldl length].
  unfold group_step. repeat case_match; cbn [open_w length]; rewrite ?length_app; cbn [length]; lia.
Qed.

Lemma run_tracks pkts :
  Z.of_nat (length pkts) * 100 < 2 ^ 32 -> tracks (run pkts) (group pkts).
Proof.
  induction pkts as [|p pkts IH] using rev_ind; intros Hb; [repeat split|].
  rewrite length_app in Hb. cbn in Hb. unfold run, group. rewrite !foldl_app. cbn [foldl].
  apply observe_tracks; [apply IH; lia|]. pose proof (group_open_length pkts) as Hg.
  unfold group in Hg. lia.
Qed.

(** C38: active-speaker decision.  After any stream of packets the detector reports
    active exactly when the last complete 400 ms window had packets and at least
    40 percent of them were at or below 35 dBov: the counters, the reset at window
    boundaries and the integer percentage agree with the definition over the
    grouped stream, for streams short of the 32-bit range. *)
Theorem detector_active_iff_window_loud pkts :
  Z.of_nat (length pkts) * 100 < 2 ^ 32 ->
  d_active (run pkts) = speaking (complete (group pkts)).
Proof. intros Hb. apply (run_tracks pkts Hb). Qed.

Lemma detector_active_iff_window_loud_witness :
  d_active (run [(0, 20); (100, 127); (500000000, 127)]) = true.
Proof. rewrite (detector_active_iff_window_loud [(0, 20); (100, 127); (500000000, 127)]) by (cbn; lia). reflexivity. Defined.

(** A stream whose gaps never exceed the interval is never stale. *)
Lemma observe_fresh now level d last :
  now - last <= UPDATE_INTERVAL -> last <= now ->
  (forall s, w_started (d_window d) = Some s -> s <= last /\ last - s < UPDATE_INTERVAL) ->
  forall s, w_started (d_window (observe now level d)) = Some s -> s <= now /\ now - s < UPDATE_INTERVAL.
Proof.
  intros Hg Hm Hd s. unfold observe, window_over. unfold UPDATE_INTERVAL in *.
  destruct (w_started (d_window d)) as [s0|] eqn:E.
  - specialize (Hd s0 eq_refl). unfold duration_since.
    destruct (Z.leb_spec (400 * 1000000) (Z.max 0 (now - s0))); cbn; [intros [= <-]; lia|].
    rewrite E. intros [= <-]. lia.
  - cbn. intros [= <-]. lia.
Qed.

(** The search stops at the first malformed [extmap] of an audio section, although a
    well-formed level extension follows. *)
Example ext_id_malformed_line_hides_extension :
  ext_id_lines true ["a=extmap:300 urn:x"; "a=extmap:1 urn:ietf:params:rtp-hdrext:ssrc-audio-level"] = None.
Proof. reflexivity. Qed.
Example ext_id_found :
  ext_id_lines false ["v=0"; "m=audio 9"; "a=extmap:4 urn:mid"; "a=extmap:1/sendonly x"; "m=video"] = None
  /\ ext_id_lines false ["m=audio 9"; "a=extmap:4 urn:mid"; "a=extmap:1 urn:ietf:params:rtp-hdrext:ssrc-audio-level"] = Some 1.
Proof. split; reflexivity. Qed.
