(* ===== verification/Turn.v ===== *)
(** TURN credentials, [crates/lk-server/src/turn.rs]: the variable-length base62
    codec, the username/password scheme and the long-term-credential handler.

    [Module Base62] holds the codec as the bit-cursor loops of the source
    together with an arithmetic specification of the encoder ([chunks]) and the
    round-trip proof; [Section Credentials] holds the credential functions over
    the external digests. *)
From Stdlib Require Import ZArith Lia Ascii String.
From stdpp Require Import base gmap strings list option.
From S2P Require Import Prelude RustStr.

Open Scope string_scope.
Open Scope list_scope.
Open Scope Z_scope.

(** * Bytes *)

Definition is_byte (b : Z) : Prop := 0 <= b < 256.

(** [s.as_bytes()] and [String::from_utf8] without the validity check. *)
Fixpoint as_bytes (s : string) : list Z :=
  match s with "" => [] | String c s' => code c :: as_bytes s' end.
Fixpoint of_bytes (l : list Z) : string :=
  match l with [] => "" | b :: l' => String (ascii_of_nat (Z.to_nat b)) (of_bytes l') end.

(** The number a byte sequence denotes, most significant byte first. *)
Definition be_val (l : list Z) : Z := foldl (fun acc b => acc * 256 + b) 0 l.

(** UTF-8 validity ([core::str::from_utf8]): the well-formed byte sequences of
    the Unicode standard, table 3-7. *)
Definition cont (b : Z) : bool := (128 <=? b) && (b <=? 191).
Definition lead2 (b0 b1 : Z) : bool := (194 <=? b0) && (b0 <=? 223) && cont b1.
Definition lead3 (b0 b1 b2 : Z) : bool :=
  cont b2 &&
  (((b0 =? 224) && (160 <=? b1) && (b1 <=? 191))
   || ((225 <=? b0) && (b0 <=? 236) && cont b1)
   || ((b0 =? 237) && (128 <=? b1) && (b1 <=? 159))
   || ((238 <=? b0) && (b0 <=? 239) && cont b1)).
Definition lead4 (b0 b1 b2 b3 : Z) : bool :=
  cont b2 && cont b3 &&
  (((b0 =? 240) && (144 <=? b1) && (b1 <=? 191))
   || ((241 <=? b0) && (b0 <=? 243) && cont b1)
   || ((b0 =? 244) && (128 <=? b1) && (b1 <=? 143))).
Fixpoint utf8_valid (l : list Z) : bool :=
  match l with
  | [] => true
  | b0 :: t =>
      if b0 <? 128 then utf8_valid t
      else match t with
           | [] => false
           | b1 :: t1 =>
               if lead2 b0 b1 then utf8_valid t1
               else match t1 with
                    | [] => false
                    | b2 :: t2 =>
                        if lead3 b0 b1 b2 then utf8_valid t2
                        else match t2 with
                             | [] => false
                             | b3 :: t3 => if lead4 b0 b1 b2 b3 then utf8_valid t3 else false
                             end
                    end
           end
  end.

(** [String::from_utf8]. *)
Definition from_utf8 (l : list Z) : option string :=
  if utf8_valid l then Some (of_bytes l) else None.

(** ** Byte sequences as numbers *)

Lemma be_val_foldl l a :
  foldl (fun acc b => acc * 256 + b) a l = a * 256 ^ Z.of_nat (length l) + be_val l.
Proof.
  unfold be_val. revert a. induction l as [|b l IH]; intros a; cbn [foldl length]; [cbn; lia|].
  rewrite IH, (IH (0 * 256 + b)), Nat2Z.inj_succ, Z.pow_succ_r by lia. lia.
Qed.

Lemma be_val_cons b l : be_val (b :: l) = b * 256 ^ Z.of_nat (length l) + be_val l.
Proof. unfold be_val at 1. cbn [foldl]. rewrite be_val_foldl. lia. Qed.

Lemma be_val_app a l : be_val (a ++ l) = be_val a * 256 ^ Z.of_nat (length l) + be_val l.
Proof. unfold be_val at 1. by rewrite foldl_app, be_val_foldl. Qed.

Lemma pow256 k : 256 ^ Z.of_nat k = 2 ^ (8 * Z.of_nat k).
Proof. rewrite Z.pow_mul_r by lia. done. Qed.

Lemma be_val_bound l : Forall is_byte l -> 0 <= be_val l < 256 ^ Z.of_nat (length l).
Proof.
  induction 1 as [|b l Hb _ IH]; [done|]. rewrite be_val_cons. cbn [length].
  rewrite Nat2Z.inj_succ, Z.pow_succ_r by lia. unfold is_byte in Hb. nia.
Qed.

Lemma be_val_inj l l' :
  Forall is_byte l -> Forall is_byte l' -> length l = length l' ->
  be_val l = be_val l' -> l = l'.
Proof.
  intros H; revert l'; induction H as [|b l Hb Hl IH]; intros [|b' l'] H' E V; try done.
  inversion_clear H' as [|? ? Hb' Hl']. cbn in E. injection E as E.
  rewrite !be_val_cons, E in V. pose proof (be_val_bound l Hl). pose proof (be_val_bound l' Hl').
  rewrite E in *. assert (b = b') as -> by nia. f_equal. apply IH; auto. lia.
Qed.

Lemma be_val_take l k :
  Forall is_byte l -> (k <= length l)%nat ->
  be_val l / 2 ^ (8 * (Z.of_nat (length l) - Z.of_nat k)) = be_val (take k l).
Proof.
  intros Hl Hk. rewrite <- (take_drop k l) at 1. rewrite be_val_app.
  rewrite length_drop, pow256, Nat2Z.inj_sub by done.
  pose proof (be_val_bound (drop k l) ltac:(by apply Forall_drop)) as Hd.
  rewrite length_drop, pow256, Nat2Z.inj_sub in Hd by done.
  rewrite Z.div_add_l by lia. rewrite (Z.div_small (be_val (drop k l))) by done. lia.
Qed.

Module Base62.

Definition B62 : string := "ABCDEFGHIJKLMNOPQRSTUVWXYZabcdefghijklmnopqrstuvwxyz0123456789".
Definition COMPACT : Z := 30.
Definition MASK5 : Z := 31.
Definition MASK6 : Z := 63.

(** One turn of the [while pos > 0] loop: the symbol and how far the cursor
    moves; [None] is an index out of bounds (a panic). *)
Definition encode_step (src : list Z) (pos : Z) : option (Z * Z) :=
  let r := Z.land pos 7 in
  let i := Z.shiftr pos 3 in
  let '(i, r) := if r =? 0 then (i - 1, 8) else (i, r) in
  s_i ← src !! Z.to_nat i;
  let b := Z.shiftr s_i (8 - r) in
  b ← (if (r <? 6) && (0 <? i) then
         s_p ← src !! Z.to_nat (i - 1);
         Some (Z.lor b (wrap_u 8 (Z.shiftl s_p r)))
       else Some b);
  let b := Z.land b MASK6 in
  if Z.land b COMPACT =? COMPACT then
    Some (Z.land b MASK5, if (6 <? pos) || (MASK5 <? b) then 5 else 6)
  else Some (b, 6).

(** [out.push(B62[b as usize])]. *)
Definition b62_char (b : Z) : option ascii := String.get (Z.to_nat b) B62.

(** The encoder loop.  Every turn moves the cursor by at least 5 bits, so
    [pos] turns are enough. *)
Fixpoint encode_loop (fuel : nat) (src : list Z) (pos : Z) : option string :=
  match fuel with
  | O => Some ""
  | S f =>
      if 0 <? pos then
        '(b, size) ← encode_step src pos;
        c ← b62_char b;
        rest ← encode_loop f src (pos - size);
        Some (String c rest)
      else Some ""
  end.

Definition b62_encode (src : list Z) : option string :=
  encode_loop (8 * length src) src (Z.of_nat (length src) * 8).

Definition bit_len (x : Z) : Z := if x =? 0 then 0 else Z.log2 x + 1.

(** The 256-entry reverse table, [0xFF] where a byte is not a symbol. *)
Fixpoint fill_table (s : string) (i : Z) (table : list Z) : list Z :=
  match s with
  | "" => table
  | String c s' => fill_table s' (i + 1) (<[Z.to_nat (code c) := i]> table)
  end.
Definition table : list Z := fill_table B62 0 (replicate 256 255).

(** The decoder's mutable locals: the output buffer, its fill index from the
    right, and the bit accumulator with its length. *)
Record dec := mkDec { dst : list Z; idx : nat; dpos : Z; acc : Z }.

(** [idx -= 1; dst[idx] = v]; [None] on underflow. *)
Definition put (d : dec) (v pos b : Z) : option dec :=
  match idx d with
  | O => None
  | S i => Some (mkDec (<[i := v]> (dst d)) i pos b)
  end.

(** The loop body for one symbol value [x]. *)
Definition decode_step (last : bool) (x : Z) (d : dec) : option dec :=
  let width := if last then bit_len x
               else if Z.land x COMPACT =? COMPACT then 5 else 6 in
  let b := Z.lor (acc d) (Z.shiftl x (dpos d)) in
  let pos := dpos d + width in
  if 8 <=? pos then put d (Z.land b 255) (pos mod 8) (Z.shiftr b 8)
  else Some (mkDec (dst d) (idx d) pos b).

Inductive outcome := Invalid | Panicked | Decoded (d : dec).

Fixpoint decode_loop (s : string) (d : dec) : outcome :=
  match s with
  | "" => Decoded d
  | String c s' =>
      match table !! Z.to_nat (code c) with
      | None => Panicked
      | Some x =>
          if x =? 255 then Invalid
          else match decode_step (match s' with "" => true | _ => false end) x d with
               | Some d' => decode_loop s' d'
               | None => Panicked
               end
      end
  end.

(** [b62_decode]: [Ok (Some _)] and [Ok None] are the source's [Some]/[None];
    [Err] is a panic. *)
Definition b62_decode (s : string) : Result unit (option (list Z)) :=
  match s with
  | "" => Ok (Some [])
  | _ =>
      let dst_len := (String.length s * 6 / 8 + 1)%nat in
      match decode_loop s (mkDec (replicate dst_len 0) dst_len 0 0) with
      | Invalid => Ok None
      | Panicked => Err ()
      | Decoded d =>
          if 0 <? dpos d then
            match put d (Z.land (acc d) 255) (dpos d) (acc d) with
            | Some d' => Ok (Some (drop (idx d') (dst d')))
            | None => Err ()
            end
          else Ok (Some (drop (idx d) (dst d)))
      end
  end.

Example encode_vector : b62_encode [0xbd; 0x46; 0x3e] = Some "exoeC".
Proof. reflexivity. Qed.
Example decode_vector : b62_decode "exoeC" = Ok (Some [0xbd; 0x46; 0x3e]).
Proof. vm_compute. reflexivity. Qed.

(** ** The encoder's arithmetic *)

(** What the loop emits for the six low bits [v] of what is left: the symbol and
    the number of bits it stands for. *)
Definition sym (v pos : Z) : Z * Z :=
  if Z.land v COMPACT =? COMPACT
  then (Z.land v MASK5, if (6 <? pos) || (MASK5 <? v) then 5 else 6)
  else (v, 6).

(** Reference encoder: [n] is the number still to be written, [pos] its width in
    bits; symbols are taken from the least significant end. *)
Fixpoint chunks (fuel : nat) (n pos : Z) : list Z :=
  match fuel with
  | O => []
  | S f =>
      if 0 <? pos then
        let '(b, size) := sym (n mod 64) pos in
        b :: chunks f (n / 2 ^ size) (pos - size)
      else []
  end.

Lemma land7 x : Z.land x 7 = x mod 8.
Proof. change 7 with (Z.ones 3). by rewrite Z.land_ones. Qed.
Lemma land63 x : Z.land x MASK6 = x mod 64.
Proof. change MASK6 with (Z.ones 6). by rewrite Z.land_ones. Qed.
Lemma land255 x : Z.land x 255 = x mod 256.
Proof. change 255 with (Z.ones 8). by rewrite Z.land_ones. Qed.

(** Disjoint bit fields: [or] is addition. *)
Lemma lor_add a b r : 0 <= r -> 0 <= a < 2 ^ r -> Z.lor a (b * 2 ^ r) = a + b * 2 ^ r.
Proof.
  intros Hr Ha. rewrite <- Z.shiftl_mul_pow2 by done. symmetry. apply Z.add_nocarry_lor.
  apply Z.bits_inj'; intros k Hk; rewrite Z.land_spec, Z.bits_0, Z.shiftl_spec by done.
  destruct (Z.ltb_spec k r).
  - rewrite (Z.testbit_neg_r b) by lia. by rewrite andb_false_r.
  - rewrite <- (Z.mod_small a (2 ^ r)), Z.mod_pow2_bits_high by lia. done.
Qed.


Lemma be_val_take_S src i s :
  src !! i = Some s -> be_val (take (S i) src) = be_val (take i src) * 256 + s.
Proof. intros H. rewrite (take_S_r _ _ s) by done. rewrite be_val_app. cbn. lia. Qed.

(** The byte window the source builds by shifts is the next six bits. *)
Lemma window src i r s :
  Forall is_byte src -> src !! i = Some s -> 1 <= r <= 8 ->
  forall b,
  (if (r <? 6) && (0 <? Z.of_nat i) then
     s_p ← src !! Z.to_nat (Z.of_nat i - 1);
     Some (Z.lor (Z.shiftr s (8 - r)) (wrap_u 8 (Z.shiftl s_p r)))
   else Some (Z.shiftr s (8 - r))) = Some b ->
  Z.land b MASK6 = (be_val (take (S i) src) / 2 ^ (8 - r)) mod 64.
Proof.
  intros Hs Hi Hr b Hb. rewrite land63, (be_val_take_S _ _ _ Hi).
  assert (is_byte s) as Hsb by (eapply Forall_lookup_1; eauto).
  set (M := be_val (take i src)).
  assert (2 ^ r * 2 ^ (8 - r) = 256) as H256.
  { rewrite <- Z.pow_add_r by lia. by replace (r + (8 - r)) with 8 by lia. }
  assert (0 < 2 ^ (8 - r)) by lia.
  replace (M * 256 + s) with ((M * 2 ^ r) * 2 ^ (8 - r) + s) by (rewrite <- H256; lia).
  rewrite Z.div_add_l by lia.
  assert (0 <= s / 2 ^ (8 - r) < 2 ^ r) as Hlow.
  { unfold is_byte in Hsb. split; [apply Z.div_pos; lia|]. apply Z.div_lt_upper_bound; lia. }
  rewrite Z.shiftr_div_pow2 in Hb by lia.
  destruct (Z.ltb_spec r 6) as [Hr6|Hr6]; cbn [andb] in Hb.
  2: { injection Hb as <-. replace r with (6 + (r - 6)) at 2 by lia.
       rewrite Z.pow_add_r, (Z.mul_comm (2 ^ 6)), Z.mul_assoc by lia. change (2 ^ 6) with 64.
       by rewrite Z.add_comm, Z.mod_add by lia. }
  assert (2 ^ r * 2 ^ (6 - r) = 64) as H64.
  { rewrite <- Z.pow_add_r by lia. by replace (r + (6 - r)) with 6 by lia. }
  destruct i as [|i].
  { cbn in Hb. injection Hb as <-. unfold M. cbn [take]. cbn [be_val foldl].
    change (be_val []) with 0. by rewrite Z.mul_0_l. }
  change (0 <? Z.of_nat (S i)) with true in Hb. cbv iota in Hb.
  replace (Z.to_nat (Z.of_nat (S i) - 1)) with i in Hb by lia.
  destruct (src !! i) as [sp|] eqn:Ep; [|done]. cbn [mbind option_bind] in Hb. injection Hb as <-.
  unfold M. rewrite (be_val_take_S _ _ _ Ep).
  rewrite Z.shiftl_mul_pow2 by lia. unfold wrap_u. change (2 ^ 8) with 256.
  replace 256 with (2 ^ (8 - r) * 2 ^ r) by lia. rewrite Z.mul_mod_distr_r by lia.
  rewrite lor_add by lia.
  set (M' := be_val (take i src)). set (lo := s / 2 ^ (8 - r)) in *.
  replace ((M' * (2 ^ (8 - r) * 2 ^ r) + sp) * 2 ^ r + lo)
    with (lo + sp * 2 ^ r + (M' * 2 ^ (8 - r) * 2 ^ r * 2 ^ (r - 0))%Z) by (rewrite Z.sub_0_r; lia).
  rewrite Z.sub_0_r.
  pose proof (Z.div_mod sp (2 ^ (8 - r)) ltac:(lia)) as Hd.
  set (q := sp / 2 ^ (8 - r)) in *. set (m := sp mod 2 ^ (8 - r)) in *.
  rewrite Hd.
  replace (lo + (2 ^ (8 - r) * q + m) * 2 ^ r + M' * 2 ^ (8 - r) * 2 ^ r * 2 ^ r)
    with (lo + m * 2 ^ r + (q + M' * 2 ^ r) * (2 ^ r * 2 ^ (8 - r))) by ring.
  rewrite H256. replace ((q + M' * 2 ^ r) * 256) with ((q * 4 + M' * 4 * 2 ^ r) * 64) by ring.
  by rewrite Z.mod_add by lia.
Qed.

Lemma encode_step_sym src pos :
  Forall is_byte src -> 0 < pos <= 8 * Z.of_nat (length src) ->
  encode_step src pos =
  Some (sym ((be_val src / 2 ^ (8 * Z.of_nat (length src) - pos)) mod 64) pos).
Proof.
  intros Hs Hp. unfold encode_step. rewrite land7, Z.shiftr_div_pow2 by lia. change (2 ^ 3) with 8.
  set (i := Z.to_nat ((pos - 1) / 8)). set (r := pos - 8 * Z.of_nat i).
  assert (Z.of_nat i = (pos - 1) / 8) as Hi.
  { unfold i. rewrite Z2Nat.id; [done|]. apply Z.div_pos; lia. }
  assert (1 <= r <= 8) as Hr.
  { unfold r. rewrite Hi. pose proof (Z.div_mod (pos - 1) 8). pose proof (Z.mod_pos_bound (pos - 1) 8). lia. }
  assert ((if pos mod 8 =? 0 then (pos / 8 - 1, 8) else (pos / 8, pos mod 8)) = (Z.of_nat i, r)) as ->.
  { assert (pos = 8 * Z.of_nat i + r) as Hpos by (unfold r; lia). clearbody r i. clear Hi.
    destruct (Z.eq_dec r 8) as [->|].
    - replace (pos mod 8) with 0 by div_lia. replace (pos / 8) with (Z.of_nat i + 1) by div_lia.
      cbn. f_equal. lia.
    - replace (pos mod 8) with r by div_lia. replace (pos / 8) with (Z.of_nat i) by div_lia.
      by replace (r =? 0) with false by lia. }
  cbv beta iota. rewrite Nat2Z.id.
  assert (i < length src)%nat as Hlt by lia.
  destruct (lookup_lt_is_Some_2 src i Hlt) as [s Es]. rewrite Es. cbn [mbind option_bind].
  pose proof (window src i r s Hs Es Hr) as Hw.
  assert (be_val src / 2 ^ (8 * Z.of_nat (length src) - pos)
          = be_val (take (S i) src) / 2 ^ (8 - r)) as ->.
  { rewrite <- be_val_take by (done || lia).
    rewrite Z.div_div by lia. rewrite <- Z.pow_add_r by lia. do 2 f_equal. unfold r. lia. }
  destruct (if (r <? 6) && (0 <? Z.of_nat i) then _ else _) as [b|] eqn:Eb.
  - cbn [mbind option_bind]. rewrite (Hw _ eq_refl). unfold sym. by destruct (_ =? COMPACT).
  - exfalso. destruct (r <? 6); [|done]. destruct (Z.ltb_spec 0 (Z.of_nat i)); [|done].
    cbn [andb] in Eb. destruct (lookup_lt_is_Some_2 src (Z.to_nat (Z.of_nat i - 1)) ltac:(lia)) as [sp Ep].
    by rewrite Ep in Eb.
Qed.

(** ** Symbols *)

Lemma z_lt_cases (n : nat) (v : Z) (P : Z -> Prop) :
  0 <= v < Z.of_nat n -> Forall P (Z.of_nat <$> seq 0 n) -> P v.
Proof.
  intros Hv HP. rewrite <- (Z2Nat.id v) by lia. apply (Forall_lookup_1 _ _ (Z.to_nat v) _ HP).
  rewrite list_lookup_fmap, lookup_seq_lt by lia. done.
Qed.

Definition char_ok (b : Z) : Prop :=
  match b62_char b with Some c => table !! Z.to_nat (code c) = Some b | None => False end.

Lemma b62_char_ok b : 0 <= b < 62 -> char_ok b.
Proof. intros Hb. apply (z_lt_cases 62); [lia|]. cbn [seq fmap list_fmap]. repeat constructor. Qed.

Lemma compact_cases v :
  0 <= v < 64 ->
  (Z.land v COMPACT =? COMPACT) = (30 <=? v mod 32).
Proof.
  intros Hv. apply (z_lt_cases 64 v (fun v => (Z.land v COMPACT =? COMPACT) = (30 <=? v mod 32)));
    [lia|]. repeat constructor.
Qed.

Lemma land31 x : Z.land x MASK5 = x mod 32.
Proof. change MASK5 with (Z.ones 5). by rewrite Z.land_ones. Qed.

(** A symbol carries exactly the [size] low bits of what is left, is a valid
    index of the alphabet, and the decoder infers [size] back from it whenever it
    is not the last one; when [pos] bits or fewer are covered it is the last. *)
Lemma sym_spec n pos b size :
  0 < pos -> 0 <= n < 2 ^ pos -> sym (n mod 64) pos = (b, size) ->
  0 <= b < 62 /\ 5 <= size <= 6 /\
  (size < pos -> b = n mod 2 ^ size /\ size = (if Z.land b COMPACT =? COMPACT then 5 else 6)) /\
  (pos <= size -> b = n).
Proof.
  intros Hp Hn Hs. unfold sym in Hs.
  pose proof (Z.mod_pos_bound n 64 ltac:(lia)) as Hv.
  rewrite compact_cases in Hs by done.
  assert ((n mod 64) mod 32 = n mod 32) as E32.
  { change 64 with (32 * 2). rewrite Z.rem_mul_r by lia.
    rewrite Z.mul_comm, Z.mod_add by lia. by rewrite Z.mod_mod by lia. }
  rewrite land31, E32 in Hs. unfold MASK5 in Hs.
  assert (pos <= 6 -> n mod 64 = n) as Hsmall.
  { intros H6. rewrite Z.mod_small; [done|]. split; [lia|].
    eapply Z.lt_le_trans; [apply Hn|]. change 64 with (2 ^ 6). apply Z.pow_le_mono_r; lia. }
  pose proof (Z.mod_pos_bound n 32 ltac:(lia)) as Hm.
  destruct (Z.leb_spec 30 (n mod 32)) as [Hc|Hc]; injection Hs as <- <-.
  - split; [lia|]. split; [case_match; lia|]. rewrite compact_cases by lia.
    rewrite Z.mod_mod by lia. replace (30 <=? n mod 32) with true by lia.
    destruct (Z.ltb_spec 6 pos); cbn [orb]; [split; [done|lia]|].
    rewrite Hsmall in * by lia.
    destruct (Z.ltb_spec 31 n); (split; [|intros]); try done; try lia.
    + assert (pos <> 5 /\ pos <= 5 -> False).
      { intros [? ?]. assert (2 ^ pos <= 2 ^ 5) by (apply Z.pow_le_mono_r; lia). lia. }
      assert (pos = 5) as -> by lia. lia.
    + rewrite Z.mod_small; lia.
  - rewrite compact_cases by done. rewrite E32. replace (30 <=? n mod 32) with false by lia.
    assert (n mod 64 < 62).
    { rewrite <- E32 in Hc. div_lia. }
    split; [lia|]. split; [lia|]. split; [done|]. intros; by apply Hsmall.
Qed.

Fixpoint emit (l : list Z) : string :=
  match l with
  | [] => ""
  | b :: l' => match b62_char b with Some c => String c (emit l') | None => "" end
  end.

(** The source's bit cursor computes the reference encoding and never indexes
    out of bounds. *)
Lemma encode_loop_chunks fuel src pos :
  Forall is_byte src -> pos <= 8 * Z.of_nat (length src) ->
  encode_loop fuel src pos =
  Some (emit (chunks fuel (be_val src / 2 ^ (8 * Z.of_nat (length src) - pos)) pos)).
Proof.
  intros Hs. revert pos. set (L := 8 * Z.of_nat (length src)).
  induction fuel as [|f IH]; intros pos Hp; [done|]. cbn [encode_loop chunks].
  destruct (Z.ltb_spec 0 pos); [|done].
  rewrite encode_step_sym by (done || (unfold L in *; lia)). fold L.
  set (n := be_val src / 2 ^ (L - pos)).
  assert (0 <= n < 2 ^ pos) as Hn.
  { unfold n. pose proof (be_val_bound src Hs) as Hb. rewrite pow256 in Hb. fold L in Hb.
    split; [apply Z.div_pos; lia|]. apply Z.div_lt_upper_bound; [lia|].
    rewrite <- Z.pow_add_r by lia. replace (L - pos + pos) with L by lia. lia. }
  destruct (sym (n mod 64) pos) as [b size] eqn:Es.
  destruct (sym_spec n pos b size ltac:(lia) Hn Es) as (Hb & Hsz & _ & _).
  cbn [mbind option_bind]. pose proof (b62_char_ok b Hb) as Hc. unfold char_ok in Hc.
  cbn [emit]. destruct (b62_char b) as [c|]; [|done]. cbn [mbind option_bind].
  rewrite IH by lia. cbn [mbind option_bind]. do 4 f_equal.
  unfold n. rewrite Z.div_div by lia. rewrite <- Z.pow_add_r by lia. do 2 f_equal. lia.
Qed.

(** ** The decoder's buffer *)

(** [out] is what has been written: the filled right end of the buffer. *)
Definition holds (d : dec) (out : list Z) : Prop :=
  dst d = replicate (idx d) 0 ++ out /\ Forall is_byte out /\
  0 <= dpos d < 8 /\ 0 <= acc d < 2 ^ dpos d.

Definition value (d : dec) (out : list Z) : Z :=
  be_val out + 2 ^ (8 * Z.of_nat (length out)) * acc d.
Definition width (d : dec) (out : list Z) : Z := 8 * Z.of_nat (length out) + dpos d.

Lemma put_spec d out v pos b :
  dst d = replicate (idx d) 0 ++ out -> (0 < idx d)%nat ->
  exists d', put d v pos b = Some d' /\ idx d = S (idx d') /\
             dst d' = replicate (idx d') 0 ++ v :: out /\ dpos d' = pos /\ acc d' = b.
Proof.
  intros Hd Hi. unfold put. destruct (idx d) as [|i] eqn:E; [lia|].
  eexists; split; [done|]; cbn. split; [done|]. split; [|done].
  rewrite Hd, replicate_S_end, <- app_assoc.
  rewrite insert_app_r_alt by (rewrite length_replicate; lia).
  rewrite length_replicate, Nat.sub_diag. done.
Qed.

Lemma decode_step_spec (last : bool) x d out w :
  holds d out ->
  w = (if last then bit_len x else if Z.land x COMPACT =? COMPACT then 5 else 6) ->
  0 <= w <= 6 -> 0 <= x < 2 ^ w -> (0 < idx d)%nat \/ dpos d + w < 8 ->
  exists d' out', decode_step last x d = Some d' /\ holds d' out' /\
    value d' out' = value d out + 2 ^ width d out * x /\
    width d' out' = width d out + w /\
    (idx d' + length out' = idx d + length out)%nat.
Proof.
  intros (Hd & Ho & Hp & Ha) Hw Hw6 Hx Hcap. unfold decode_step. rewrite <- Hw.
  rewrite Z.shiftl_mul_pow2, lor_add by lia.
  set (b := acc d + x * 2 ^ dpos d).
  assert (0 <= b < 2 ^ (dpos d + w)) as Hb.
  { unfold b. rewrite Z.pow_add_r by lia. nia. }
  destruct (Z.leb_spec 8 (dpos d + w)) as [Hge|Hlt].
  - destruct (put_spec d out (Z.land b 255) ((dpos d + w) mod 8) (Z.shiftr b 8) Hd ltac:(lia))
      as (d' & -> & Hi & Hd' & Hp' & Ha').
    rewrite land255, Z.shiftr_div_pow2 in * by lia. change (2 ^ 8) with 256 in *.
    replace ((dpos d + w) mod 8) with (dpos d + w - 8) in * by div_lia.
    pose proof (Z.div_mod b 256 ltac:(lia)) as Hdm.
    pose proof (Z.mod_pos_bound b 256 ltac:(lia)) as Hmb.
    exists d', (b mod 256 :: out). split; [done|]. split.
    { split; [done|]. split; [by constructor|]. rewrite Hp', Ha'. split; [lia|].
      split; [apply Z.div_pos; lia|]. apply Z.div_lt_upper_bound; [lia|].
      change 256 with (2 ^ 8). rewrite <- Z.pow_add_r by lia.
      replace (8 + (dpos d + w - 8)) with (dpos d + w) by lia. lia. }
    unfold value, width. rewrite be_val_cons, pow256, Ha', Hp'. cbn [length].
    split; [|lia].
    replace (8 * Z.of_nat (S (length out))) with (8 * Z.of_nat (length out) + 8) by lia.
    rewrite !Z.pow_add_r by lia. change (2 ^ 8) with 256.
    set (K := 2 ^ (8 * Z.of_nat (length out))).
    transitivity (be_val out + K * (256 * (b / 256) + b mod 256)); [ring|].
    rewrite <- Hdm. unfold b. ring.
  - eexists _, out. split; [reflexivity|]. cbn. split; [split; cbn; auto with lia|].
    unfold value, width; cbn. split; [|lia].
    rewrite Z.pow_add_r by lia. unfold b. ring.
Qed.

Lemma bit_len_spec x : 0 <= x -> 0 <= bit_len x /\ x < 2 ^ bit_len x.
Proof.
  intros Hx. unfold bit_len. destruct (Z.eqb_spec x 0) as [->|]; [done|].
  pose proof (Z.log2_nonneg x). pose proof (Z.log2_spec x ltac:(lia)).
  rewrite Z.add_1_r. split; lia.
Qed.

Lemma bit_len_le x w : 0 <= w -> 0 <= x < 2 ^ w -> bit_len x <= w.
Proof.
  intros Hw Hx. unfold bit_len. destruct (Z.eqb_spec x 0); [done|].
  assert (Z.log2 x < w); [|lia]. apply Z.log2_lt_pow2; lia.
Qed.

Lemma emit_chunks_cons f n pos b size c :
  0 < pos -> sym (n mod 64) pos = (b, size) -> b62_char b = Some c ->
  emit (chunks (S f) n pos) = String c (emit (chunks f (n / 2 ^ size) (pos - size))).
Proof. intros Hp Es Ec. cbn [chunks]. replace (0 <? pos) with true by lia. rewrite Es. cbn [emit]. by rewrite Ec. Qed.

(** Another turn always emits a symbol. *)
Lemma emit_chunks_nonempty f n pos :
  (0 < f)%nat -> 0 < pos -> 0 <= n < 2 ^ pos -> exists c s, emit (chunks f n pos) = String c s.
Proof.
  intros Hf Hp Hn. destruct f as [|f]; [lia|].
  destruct (sym (n mod 64) pos) as [b size] eqn:Es.
  destruct (sym_spec n pos b size Hp Hn Es) as (Hb & _).
  pose proof (b62_char_ok b Hb) as Hc. unfold char_ok in Hc.
  destruct (b62_char b) as [c|] eqn:Ec; [|done]. erewrite emit_chunks_cons by eauto. eauto.
Qed.

Lemma div_pow2_bound n size pos :
  0 <= size <= pos -> 0 <= n < 2 ^ pos -> 0 <= n / 2 ^ size < 2 ^ (pos - size).
Proof.
  intros Hs Hn. split; [apply Z.div_pos; lia|]. apply Z.div_lt_upper_bound; [lia|].
  rewrite <- Z.pow_add_r by lia. replace (size + (pos - size)) with pos by lia. lia.
Qed.

Lemma emit_chunks_done f n pos : pos <= 0 -> emit (chunks f n pos) = "".
Proof. intros Hp. destruct f; [done|]. cbn [chunks]. by replace (0 <? pos) with false by lia. Qed.

Lemma lookup_char b c : 0 <= b < 62 -> b62_char b = Some c -> table !! Z.to_nat (code c) = Some b.
Proof. intros Hb Ec. pose proof (b62_char_ok b Hb) as H. unfold char_ok in H. by rewrite Ec in H. Qed.

(** Decoding the reference encoding of [n] appends exactly the bits of [n]; the
    last symbol contributes its significant bits only, so the width ends in the
    top byte. *)
Lemma decode_chunks L fuel : forall n pos d out,
  holds d out -> 0 < pos -> (Z.to_nat pos <= fuel)%nat -> 0 <= n < 2 ^ pos ->
  width d out + pos = 8 * L -> L <= Z.of_nat (idx d + length out) ->
  exists d' out',
    decode_loop (emit (chunks fuel n pos)) d = Decoded d' /\ holds d' out' /\
    value d' out' = value d out + 2 ^ width d out * n /\
    8 * (L - 1) < width d' out' <= 8 * L /\
    (idx d' + length out' = idx d + length out)%nat.
Proof.
  induction fuel as [|f IH]; intros n pos d out Hh Hp Hf Hn HL Hcap; [lia|].
  destruct (sym (n mod 64) pos) as [b size] eqn:Es.
  destruct (sym_spec n pos b size Hp Hn Es) as (Hb & Hsz & Hmid & Hlast).
  pose proof (b62_char_ok b Hb) as Hc. unfold char_ok in Hc.
  destruct (b62_char b) as [c|] eqn:Ec; [|done]. clear Hc.
  rewrite (emit_chunks_cons f n pos b size c Hp Es Ec). cbn [decode_loop].
  rewrite (lookup_char b c Hb Ec). replace (b =? 255) with false by lia.
  pose proof Hh as (_ & _ & Hd8 & _).
  destruct (Z.ltb_spec size pos) as [Hlt|Hge].
  - destruct (Hmid Hlt) as [Ebn Esz].
    pose proof (div_pow2_bound n size pos ltac:(lia) Hn) as Hn'.
    destruct (emit_chunks_nonempty f (n / 2 ^ size) (pos - size)) as (c' & s' & Ee); [lia..|].
    destruct (decode_step_spec false b d out size Hh Esz) as (d1 & o1 & Hs1 & Hh1 & Hv1 & Hw1 & Hi1);
      [lia|rewrite Ebn; apply Z.mod_pos_bound; lia|unfold width in HL; lia|].
    rewrite Ee, Hs1, <- Ee.
    destruct (IH (n / 2 ^ size) (pos - size) d1 o1) as (d2 & o2 & Hr & Hh2 & Hv2 & Hw2 & Hi2); try done; try lia.
    exists d2, o2. split; [done|]. split; [done|]. split; [|lia].
    assert (0 <= width d out) by (unfold width; lia).
    rewrite Hv2, Hv1, Hw1, Z.pow_add_r by lia. rewrite Ebn at 1.
    rewrite (Z.div_mod n (2 ^ size)) at 3 by lia. ring.
  - rewrite (Hlast Hge) in *. rewrite emit_chunks_done by lia.
    destruct (bit_len_spec n ltac:(lia)) as [Hl0 Hl].
    pose proof (bit_len_le n pos ltac:(lia) Hn).
    destruct (decode_step_spec true n d out (bit_len n) Hh eq_refl) as (d1 & o1 & Hs1 & Hh1 & Hv1 & Hw1 & Hi1);
      [lia|lia|unfold width in HL; lia|].
    rewrite Hs1. exists d1, o1. split; [done|]. split; [done|]. split; [done|]. lia.
Qed.

(** A symbol covers at most six bits. *)
Lemma emit_chunks_len fuel : forall n pos,
  (Z.to_nat pos <= fuel)%nat -> 0 <= n < 2 ^ pos \/ pos <= 0 ->
  pos <= 6 * Z.of_nat (String.length (emit (chunks fuel n pos))).
Proof.
  induction fuel as [|f IH]; intros n pos Hf Hn; [lia|].
  destruct (Z.leb_spec pos 0); [lia|]. destruct Hn as [Hn|]; [|lia].
  destruct (sym (n mod 64) pos) as [b size] eqn:Es.
  destruct (sym_spec n pos b size ltac:(lia) Hn Es) as (Hb & Hsz & Hmid & _).
  pose proof (b62_char_ok b Hb) as Hc. unfold char_ok in Hc.
  destruct (b62_char b) as [c|] eqn:Ec; [|done].
  rewrite (emit_chunks_cons f n pos b size c) by (done || lia). cbn [String.length].
  destruct (Z.leb_spec pos size); [lia|].
  pose proof (div_pow2_bound n size pos ltac:(lia) Hn) as Hn'.
  specialize (IH (n / 2 ^ size) (pos - size)). lia.
Qed.

(** Flushing a partial byte leaves exactly [L] bytes that denote the value. *)
Lemma flush_spec d out L n :
  holds d out -> value d out = n -> 8 * (L - 1) < width d out <= 8 * L ->
  L <= Z.of_nat (idx d + length out) -> 
  exists res,
    (if 0 <? dpos d then
       match put d (Z.land (acc d) 255) (dpos d) (acc d) with
       | Some d' => Ok (Some (drop (idx d') (dst d')))
       | None => Err ()
       end
     else Ok (Some (drop (idx d) (dst d)))) = Ok (E:=unit) (Some res) /\
    Forall is_byte res /\ Z.of_nat (length res) = L /\ be_val res = n.
Proof.
  intros (Hd & Ho & Hp & Ha) Hv Hw Hcap. unfold width in Hw.
  destruct (Z.ltb_spec 0 (dpos d)).
  - destruct (put_spec d out (Z.land (acc d) 255) (dpos d) (acc d) Hd ltac:(lia)) as (d' & -> & _ & Hd' & _).
    exists (Z.land (acc d) 255 :: out). rewrite Hd', land255.
    assert (acc d < 256).
    { eapply Z.lt_le_trans; [apply Ha|]. change 256 with (2 ^ 8). apply Z.pow_le_mono_r; lia. }
    rewrite Z.mod_small by lia. rewrite drop_app_length' by (by rewrite length_replicate).
    split; [done|]. split; [constructor; unfold is_byte; [lia|done]|]. cbn [length].
    split; [lia|]. rewrite be_val_cons, pow256. unfold value in Hv. lia.
  - exists out. rewrite Hd, drop_app_length' by (by rewrite length_replicate).
    split; [done|]. split; [done|]. split; [lia|]. unfold value in Hv.
    assert (dpos d = 0) as Hz by lia. rewrite Hz in Ha. change (2 ^ 0) with 1 in Ha.
    assert (acc d = 0) as Hz' by lia. rewrite Hz' in Hv. lia.
Qed.

Lemma b62_encode_chunks src :
  Forall is_byte src ->
  b62_encode src = Some (emit (chunks (8 * length src) (be_val src) (8 * Z.of_nat (length src)))).
Proof.
  intros Hs. unfold b62_encode. rewrite encode_loop_chunks by (done || lia).
  replace (Z.of_nat (length src) * 8) with (8 * Z.of_nat (length src)) by lia.
  by rewrite Z.sub_diag, Z.pow_0_r, Z.div_1_r.
Qed.

Lemma b62_decode_chunks src :
  Forall is_byte src ->
  b62_decode (emit (chunks (8 * length src) (be_val src) (8 * Z.of_nat (length src)))) = Ok (Some src).
Proof.
  intros Hs. destruct (decide (length src = 0)%nat) as [E|E]; [by destruct src|].
  set (L := Z.of_nat (length src)). set (s := emit _).
  pose proof (be_val_bound src Hs) as Hb. rewrite pow256 in Hb.
  assert (8 * L <= 6 * Z.of_nat (String.length s)) as Hlen.
  { apply emit_chunks_len; [lia|]. left; exact Hb. }
  set (N := (String.length s * 6 / 8 + 1)%nat).
  assert (L <= Z.of_nat N) as HN.
  { unfold N. pose proof (Nat.div_mod_eq (String.length s * 6) 8).
    pose proof (Nat.mod_upper_bound (String.length s * 6) 8). lia. }
  destruct (decode_chunks L (8 * length src) (be_val src) (8 * L) (mkDec (replicate N 0) N 0 0) [])
    as (d & out & Hr & Hh & Hv & Hw & Hi); try done; try lia.
  - split; [by rewrite app_nil_r|]. split; [constructor|]. cbn. lia.
  - cbn [length]. cbn [idx]. lia.
  - fold L in Hr. fold s in Hr. cbn [idx length] in Hi.
    destruct (flush_spec d out L (be_val src) Hh) as (res & Ef & Hres & Hlr & Hbr); [|done|lia|].
    { rewrite Hv. unfold value, width. cbn [acc length dpos]. change (be_val []) with 0.
      rewrite !Z.mul_0_r. cbn. lia. }
    assert (res = src) as -> by (apply be_val_inj; auto; lia).
    assert (s <> "") as Hne by (intros E0; rewrite E0 in Hlen; cbn in Hlen; lia).
    transitivity (match decode_loop s (mkDec (replicate N 0) N 0 0) with
                  | Invalid => Ok None
                  | Panicked => Err ()
                  | Decoded d0 =>
                      if 0 <? dpos d0 then
                        match put d0 (Z.land (acc d0) 255) (dpos d0) (acc d0) with
                        | Some d' => Ok (Some (drop (idx d') (dst d')))
                        | None => Err ()
                        end
                      else Ok (Some (drop (idx d0) (dst d0)))
                  end); [|by rewrite Hr].
    unfold N. clearbody s. by destruct s.
Qed.

(** ** The decoder on arbitrary input *)

Lemma table_range (k : nat) : (k < 256)%nat -> exists x, table !! k = Some x /\ (0 <= x < 62 \/ x = 255).
Proof.
  intros Hk. destruct (lookup_lt_is_Some_2 table k) as [x Ex]; [done|]. exists x. split; [done|].
  assert (Forall (fun x => 0 <= x < 62 \/ x = 255) table) as HF.
  { apply (bool_decide_unpack _). vm_compute. exact I. }
  exact (Forall_lookup_1 _ _ _ _ HF Ex).
Qed.

Lemma code_lt (c : ascii) : (Z.to_nat (code c) < 256)%nat.
Proof. unfold code. rewrite Nat2Z.id. apply nat_ascii_bounded. Qed.

(** The width the decoder charges for a symbol covers its bits. *)
Lemma symbol_width (last : bool) x w :
  0 <= x < 62 ->
  w = (if last then bit_len x else if Z.land x COMPACT =? COMPACT then 5 else 6) ->
  0 <= w <= 6 /\ 0 <= x < 2 ^ w.
Proof.
  intros Hx ->. destruct last.
  - destruct (bit_len_spec x ltac:(lia)). pose proof (bit_len_le x 6 ltac:(lia) ltac:(lia)). lia.
  - rewrite compact_cases by lia. destruct (Z.leb_spec 30 (x mod 32)); [|lia].
    split; [lia|]. change (2 ^ 5) with 32. div_lia.
Qed.

Lemma decode_loop_safe s : forall d out,
  holds d out -> width d out + 6 * str_len s < 8 * Z.of_nat (idx d + length out) ->
  decode_loop s d = Invalid \/
  exists d' out', decode_loop s d = Decoded d' /\ holds d' out' /\
    width d' out' < 8 * Z.of_nat (idx d' + length out').
Proof.
  unfold str_len. induction s as [|c s IH]; intros d out Hh Hcap; cbn [decode_loop].
  - right. exists d, out. cbn [String.length] in Hcap. split; [done|]. split; [done|]. lia.
  - destruct (table_range (Z.to_nat (code c)) (code_lt c)) as (x & -> & [Hx| ->]); [|by left].
    replace (x =? 255) with false by lia.
    set (last := match s with "" => true | _ => false end).
    destruct (symbol_width last x _ Hx eq_refl) as [Hw Hxw].
    pose proof Hh as (_ & _ & Hd8 & _). unfold width in Hcap. cbn [String.length] in Hcap.
    destruct (decode_step_spec last x d out _ Hh eq_refl Hw Hxw) as (d1 & o1 & -> & Hh1 & _ & Hw1 & Hi1); [lia|].
    apply (IH d1 o1 Hh1). rewrite Hw1, Hi1. unfold width. lia.
Qed.

Lemma b62_decode_cons c s :
  b62_decode (String c s) = Ok None \/ exists res, b62_decode (String c s) = Ok (Some res) /\ Forall is_byte res.
Proof.
  set (str := String c s). set (N := (String.length str * 6 / 8 + 1)%nat).
  assert (6 * str_len str < 8 * Z.of_nat N) as HN.
  { unfold N, str_len. pose proof (Nat.div_mod_eq (String.length str * 6) 8).
    pose proof (Nat.mod_upper_bound (String.length str * 6) 8). lia. }
  destruct (decode_loop_safe str (mkDec (replicate N 0) N 0 0) []) as [E|(d & out & E & Hh & Hc)].
  - split; [by rewrite app_nil_r|]. split; [constructor|]. cbn. lia.
  - unfold width. cbn [length dpos idx]. lia.
  - left. unfold b62_decode, str. fold str N. by rewrite E.
  - right. pose proof Hh as (_ & _ & Hd8 & _). unfold width in Hc.
    destruct (flush_spec d out ((width d out + 7) / 8) (value d out) Hh eq_refl) as (res & Ef & Hres & _);
      [unfold width; div_lia| unfold width; div_lia |].
    exists res. split; [|done]. unfold b62_decode, str. fold str N. rewrite E. exact Ef.
Qed.

(** Decoding an arbitrary string returns: bytes, or no result on a foreign
    symbol; the buffer never underflows. *)
Lemma b62_decode_safe s :
  b62_decode s = Ok None \/ exists res, b62_decode s = Ok (Some res) /\ Forall is_byte res.
Proof. destruct s as [|c s]; [right; exists []; auto|]. apply b62_decode_cons. Qed.

End Base62.

(** * Strings as bytes *)

Lemma as_bytes_app a b : as_bytes (a +:+ b) = as_bytes a ++ as_bytes b.
Proof. induction a; cbn; [done|]. f_equal. done. Qed.

Lemma as_bytes_byte s : Forall is_byte (as_bytes s).
Proof.
  induction s as [|c s IH]; cbn; constructor; [|done].
  unfold is_byte, code. pose proof (nat_ascii_bounded c). lia.
Qed.

Lemma of_as_bytes s : of_bytes (as_bytes s) = s.
Proof.
  induction s as [|c s IH]; cbn; [done|]. unfold code. by rewrite Nat2Z.id, ascii_nat_embedding, IH.
Qed.

(** A valid sequence starts with one character, whatever follows it. *)
Lemma utf8_valid_head l :
  utf8_valid l = true ->
  l = [] \/ exists ch t, l = ch ++ t /\ ch <> [] /\ utf8_valid t = true /\
                       forall r, utf8_valid (ch ++ r) = utf8_valid r.
Proof.
  intros H. destruct l as [|b0 t]; [by left|]. right. cbn [utf8_valid] in H.
  destruct (b0 <? 128) eqn:E0; [by exists [b0], t; cbn; rewrite E0|].
  destruct t as [|b1 t]; [done|].
  destruct (lead2 b0 b1) eqn:E1; [by exists [b0; b1], t; cbn; rewrite E0, E1|].
  destruct t as [|b2 t]; [done|].
  destruct (lead3 b0 b1 b2) eqn:E2; [by exists [b0; b1; b2], t; cbn; rewrite E0, E1, E2|].
  destruct t as [|b3 t]; [done|].
  destruct (lead4 b0 b1 b2 b3) eqn:E3; [|done].
  by exists [b0; b1; b2; b3], t; cbn; rewrite E0, E1, E2, E3.
Qed.

Lemma utf8_valid_app a b : utf8_valid a = true -> utf8_valid b = true -> utf8_valid (a ++ b) = true.
Proof.
  remember (length a) as n eqn:En. revert a En. induction n as [n IH] using lt_wf_ind. intros a -> Ha Hb.
  destruct (utf8_valid_head a Ha) as [->|(ch & t & -> & Hne & Ht & Hr)]; [done|].
  rewrite <- app_assoc, Hr. apply (IH (length t)); auto.
  rewrite length_app. destruct ch; [done|cbn; lia].
Qed.

Lemma utf8_ascii s : str_forallb (fun c => code c <? 128) s = true -> utf8_valid (as_bytes s) = true.
Proof.
  induction s as [|c s IH]; cbn; [done|]. intros H. apply andb_true_iff in H as [-> H]. by apply IH.
Qed.

Lemma fmt_dec_ascii n : str_forallb (fun c => code c <? 128) (fmt_dec n) = true.
Proof.
  assert (forall w k, str_forallb (fun c => code c <? 128) (dec_digits w k) = true) as H.
  { intros w k. pose proof (dec_digits_all w k) as Hd. induction (dec_digits w k) as [|c s IH]; [done|].
    cbn in *. apply andb_true_iff in Hd as [Hc Hd]. rewrite IH by done. rewrite andb_true_r.
    unfold is_digit in Hc. lia. }
  unfold fmt_dec, fmt_pad. case_match; [|by rewrite ?H]. cbn. by rewrite ?H.
Qed.

(** * Credentials *)

(** [webrtc::turn::Error], as far as the handler produces it; [TurnPanic] stands
    for a panic of the codec. *)
Inductive turn_error := ErrNoSuchUser | TurnPanic.

Section Credentials.
(** [sha2::Sha256::digest] and [webrtc::turn::auth::generate_auth_key]. *)
Context (sha256 : list Z -> list Z).
Context (generate_auth_key : string -> string -> string -> list Z).
(** A digest is a sequence of bytes. *)
Context (sha256_bytes : forall m, Forall is_byte (sha256 m)).

(** [format!("{a}|{b}|{n}")]. *)
Definition cred_fields (a pid : string) (n : Z) : string :=
  a +:+ "|" +:+ pid +:+ "|" +:+ fmt_dec n.

Definition turn_username (api_key participant_id : string) (expiry_unix : Z) : option string :=
  Base62.b62_encode (as_bytes (cred_fields api_key participant_id expiry_unix)).

Definition turn_password (secret participant_id : string) (expiry_unix : Z) : option string :=
  Base62.b62_encode (sha256 (as_bytes (cred_fields secret participant_id expiry_unix))).

(** [TurnAuthHandler::auth_handle]. *)
Definition auth_handle (keys : gmap string string) (username realm : string) : Result turn_error (list Z) :=
  match Base62.b62_decode username with
  | Err _ => Err TurnPanic
  | Ok None => Err ErrNoSuchUser
  | Ok (Some bytes) =>
      decoded ← ok_or (from_utf8 bytes) ErrNoSuchUser;
      match split_on "|" decoded with
      | [key; pid; exp] =>
          expiry ← ok_or (parse_i64 exp) ErrNoSuchUser;
          if expiry =? 0 then Err ErrNoSuchUser
          else
            secret ← ok_or (keys !! key) ErrNoSuchUser;
            password ← ok_or (turn_password secret pid expiry) TurnPanic;
            Ok (generate_auth_key username realm password)
      | _ => Err ErrNoSuchUser
      end
  end.

Lemma turn_password_total secret pid n : exists pw, turn_password secret pid n = Some pw.
Proof. eexists. apply Base62.b62_encode_chunks, sha256_bytes. Qed.

Lemma cred_fields_split a pid n :
  free_of "|" a -> free_of "|" pid -> split_on "|" (cred_fields a pid n) = [a; pid; fmt_dec n].
Proof.
  intros Ha Hp. unfold cred_fields. cbn [String.append].
  rewrite split_on_app by done. rewrite split_on_app by done. rewrite split_on_free; [done|].
  apply fmt_pad_free; done.
Qed.

Lemma cred_fields_utf8 a pid n :
  utf8_valid (as_bytes a) = true -> utf8_valid (as_bytes pid) = true ->
  utf8_valid (as_bytes (cred_fields a pid n)) = true.
Proof.
  intros Ha Hp. unfold cred_fields. rewrite !as_bytes_app.
  repeat apply utf8_valid_app; auto. apply utf8_ascii, fmt_dec_ascii.
Qed.

(** The username decodes to the three fields it was minted from. *)
Lemma auth_handle_minted keys a pid n realm :
  free_of "|" a -> free_of "|" pid ->
  utf8_valid (as_bytes a) = true -> utf8_valid (as_bytes pid) = true -> in_i64 n = true ->
  exists u, turn_username a pid n = Some u /\
  auth_handle keys u realm =
    (if n =? 0 then Err ErrNoSuchUser
     else match keys !! a with
          | None => Err ErrNoSuchUser
          | Some secret =>
              match turn_password secret pid n with
              | Some pw => Ok (generate_auth_key u realm pw)
              | None => Err TurnPanic
              end
          end).
Proof.
  intros Ha Hp Ua Up Hn. pose proof (as_bytes_byte (cred_fields a pid n)) as Hb.
  eexists. split; [by apply Base62.b62_encode_chunks|].
  unfold auth_handle. rewrite Base62.b62_decode_chunks by done.
  unfold from_utf8. rewrite cred_fields_utf8 by done. cbn [ok_or mbind Result_bind].
  rewrite of_as_bytes, cred_fields_split by done.
  unfold in_i64 in Hn. bool_to_prop. unfold parse_i64. rewrite parse_fmt_dec; [|unfold i64_min, i64_max in *; lia..].
  cbn [ok_or mbind Result_bind]. destruct (n =? 0); [done|].
  destruct (keys !! a); [|done]. cbn [ok_or mbind Result_bind]. by destruct (turn_password s pid n).
Qed.

(** TURN credentials authenticate.  For an API key and participant id without
    the separator [|], any secret and any non-zero 64-bit expiry, minting the username and
    the password always succeeds, and the handler, given that username, decodes
    it, looks the key up and derives the key material from exactly the minted
    password; in particular an expiry in the past is accepted. *)
Theorem turn_credentials_authenticate keys api_key secret pid expiry realm :
  keys !! api_key = Some secret ->
  free_of "|" api_key -> free_of "|" pid ->
  utf8_valid (as_bytes api_key) = true -> utf8_valid (as_bytes pid) = true ->
  in_i64 expiry = true -> expiry <> 0 ->
  exists username password,
    turn_username api_key pid expiry = Some username /\
    turn_password secret pid expiry = Some password /\
    auth_handle keys username realm = Ok (generate_auth_key username realm password).
Proof.
  intros Hk Ha Hp Ua Up Hn Hz.
  destruct (auth_handle_minted keys api_key pid expiry realm) as (u & Hu & Hr); try done.
  destruct (turn_password_total secret pid expiry) as [pw Hpw].
  exists u, pw. rewrite Hr, Hk, Hpw. by replace (expiry =? 0) with false by lia.
Qed.

(** Only configured keys authenticate.  Whatever the username, the handler
    never panics; when it accepts, the username decodes to [key|participant|expiry] with a key that is
    configured and an expiry that is a non-zero 64-bit number, and the key
    material comes from that key's secret; every other username is refused with
    [ErrNoSuchUser]. *)
Theorem auth_handle_sound keys username realm :
  match auth_handle keys username realm with
  | Err e => e = ErrNoSuchUser
  | Ok k => exists bytes key pid exp expiry secret password,
      Base62.b62_decode username = Ok (Some bytes) /\
      of_bytes bytes = key +:+ "|" +:+ pid +:+ "|" +:+ exp /\ parse_i64 exp = Some expiry /\ expiry <> 0 /\
      keys !! key = Some secret /\ turn_password secret pid expiry = Some password /\
      k = generate_auth_key username realm password
  end.
Proof.
  unfold auth_handle. destruct (Base62.b62_decode_safe username) as [->|(bytes & -> & _)]; [done|].
  unfold from_utf8. destruct (utf8_valid bytes); [|done]. cbn [ok_or mbind Result_bind].
  destruct (split_on "|" (of_bytes bytes)) as [|key [|pid [|exp [|]]]] eqn:Es; try done.
  destruct (parse_i64 exp) as [expiry|] eqn:Ee; [|done]. cbn [ok_or mbind Result_bind].
  destruct (Z.eqb_spec expiry 0); [done|].
  destruct (keys !! key) as [secret|] eqn:Ek; [|done]. cbn [ok_or mbind Result_bind].
  destruct (turn_password_total secret pid expiry) as [pw Hpw]. rewrite Hpw. cbn [ok_or mbind Result_bind].
  exists bytes, key, pid, exp, expiry, secret, pw. do 1 split; [done|].
  rewrite <- (split_on_join "|" (of_bytes bytes)), Es. done.
Qed.

End Credentials.

(** Base62 round trip.  The encoder never indexes out of bounds on any byte
    sequence and the decoder returns exactly the bytes that were encoded, with
    leading zero bytes and the empty sequence included. *)
Theorem b62_roundtrip src :
  Forall is_byte src ->
  exists s, Base62.b62_encode src = Some s /\ Base62.b62_decode s = Ok (Some src).
Proof.
  intros Hs. eexists. split; [by apply Base62.b62_encode_chunks|]. by apply Base62.b62_decode_chunks.
Qed.

Lemma b62_roundtrip_witness :
  exists s, Base62.b62_encode [0; 0; 255; 30] = Some s /\ Base62.b62_decode s = Ok (Some [0; 0; 255; 30]).
Proof. apply (b62_roundtrip [0; 0; 255; 30]). repeat constructor; unfold is_byte; lia. Defined.

(** The decoder is total on untrusted input: on every string it returns, with
    bytes or with no result; neither the output index nor the table lookup can
    fail. *)
Theorem b62_decode_total s :
  Base62.b62_decode s = Ok None \/
  exists res, Base62.b62_decode s = Ok (Some res) /\ Forall is_byte res.
Proof. apply Base62.b62_decode_safe. Qed.

(** A concrete digest and key derivation, for the witnesses. *)
Definition toy_digest (m : list Z) : list Z := [be_val m mod 256; Z.of_nat (length m) mod 256].
Definition toy_auth_key (u r p : string) : list Z := as_bytes (u +:+ ":" +:+ r +:+ ":" +:+ p).

Lemma toy_digest_bytes m : Forall is_byte (toy_digest m).
Proof. repeat constructor; apply Z.mod_pos_bound; lia. Qed.

Lemma turn_credentials_authenticate_witness :
  exists username password,
    turn_username "APIkey" "PA_1" 1700000000 = Some username /\
    turn_password toy_digest "secret" "PA_1" 1700000000 = Some password /\
    auth_handle toy_digest toy_auth_key {["APIkey" := "secret"]} username "livekit"
    = Ok (toy_auth_key username "livekit" password).
Proof.
  apply (turn_credentials_authenticate toy_digest toy_auth_key toy_digest_bytes
           {["APIkey" := "secret"]} "APIkey" "secret" "PA_1" 1700000000 "livekit");
    [by rewrite lookup_singleton | reflexivity.. | lia].
Defined.

Lemma auth_handle_sound_witness :
  match auth_handle toy_digest toy_auth_key {["APIkey" := "secret"]} "bogus!" "livekit" with
  | Err e => e = ErrNoSuchUser
  | Ok _ => False
  end.
Proof.
  pose proof (auth_handle_sound toy_digest toy_auth_key toy_digest_bytes {["APIkey" := "secret"]} "bogus!" "livekit") as H.
  vm_compute in H |- *. exact H.
Defined.
