(* ===== verification/Auth.v ===== *)
(** Access tokens, [crates/lk-server/src/auth.rs]: the grant types, the lenient
    reading of JSON claims, key lookup and token verification.  JSON parsing,
    base64 and the JWT library are parameters. *)
From Stdlib Require Import ZArith Lia Ascii String.
From stdpp Require Import base gmap strings list option.
From S2P Require Import Prelude RustStr.

Open Scope string_scope.
Open Scope list_scope.
Open Scope Z_scope.

(** * Grants *)

Record VideoGrant := mkVideoGrant {
  room_create : bool;
  room_list : bool;
  room_record : bool;
  room_admin : bool;
  room_join : bool;
  vg_room : string;
  vg_can_publish : option bool;
  vg_can_subscribe : option bool;
  vg_can_publish_data : option bool;
  vg_can_publish_sources : list string;
  can_update_own_metadata : option bool;
  vg_hidden : bool;
  vg_recorder : bool;
  vg_agent : bool;
  vg_can_subscribe_metrics : option bool;
  destination_room : string
}.

(** [VideoGrant::default()]. *)
Definition VideoGrant_default : VideoGrant :=
  mkVideoGrant false false false false false "" None None None [] None false false false None "".

Record SipGrant := mkSipGrant { sip_admin : bool; sip_call : bool }.

Record RoomAgentDispatch := mkDispatch {
  agent_name : string;
  d_metadata : string;
  deployment : string;
  d_attributes : gmap string string
}.
#[global] Instance RoomAgentDispatch_eq_dec : EqDecision RoomAgentDispatch.
Proof. solve_decision. Defined.

Record RoomConfiguration := mkRoomConfig {
  rc_name : string;
  rc_empty_timeout : Z;
  rc_departure_timeout : Z;
  rc_max_participants : Z;
  rc_metadata : string;
  rc_agents : list RoomAgentDispatch
}.

Record VerifiedToken := mkToken {
  api_key : string;
  tk_identity : string;
  tk_name : string;
  tk_metadata : string;
  tk_attributes : gmap string string;
  tk_kind : string;
  video : VideoGrant;
  sip : SipGrant;
  room_config : option RoomConfiguration;
  room_preset : string;
  sha256 : string;
  nbf : option Z
}.

Definition token_can_publish (t : VerifiedToken) : bool := default true (vg_can_publish (video t)).
Definition token_can_subscribe (t : VerifiedToken) : bool := default true (vg_can_subscribe (video t)).
Definition token_can_publish_data (t : VerifiedToken) : bool :=
  default (token_can_publish t) (vg_can_publish_data (video t)).

Inductive AuthError :=
| MissingAuthorization
| InvalidAuthorization
| InvalidApiKey
| InvalidToken (msg : string).

(** * JSON values *)

(** [serde_json::Value]; an object is its list of entries, whose keys are
    distinct. *)
Inductive Value :=
| Null
| VBool (b : bool)
| VInt (n : Z)
| VFloat
| VStr (s : string)
| VArr (l : list Value)
| VObj (m : list (string * Value)).

Fixpoint value_eqb (a b : Value) : bool :=
  match a, b with
  | Null, Null | VFloat, VFloat => true
  | VBool x, VBool y => Bool.eqb x y
  | VInt x, VInt y => x =? y
  | VStr x, VStr y => (x =? y)%string
  | VArr l, VArr l' =>
      (fix go l l' := match l, l' with
                      | [], [] => true
                      | x :: l, y :: l' => value_eqb x y && go l l'
                      | _, _ => false
                      end) l l'
  | VObj m, VObj m' =>
      (fix go m m' := match m, m' with
                      | [], [] => true
                      | (k, x) :: m, (k', y) :: m' => (k =? k')%string && value_eqb x y && go m m'
                      | _, _ => false
                      end) m m'
  | _, _ => false
  end.
Lemma value_eqb_eq : forall a b, value_eqb a b = true -> a = b.
Proof.
  fix IH 1. intros [|x|x| |x|l|m] [|y|y| |y|l'|m'] H; cbn [value_eqb] in H; try discriminate; try reflexivity.
  - by apply Bool.eqb_prop in H as ->.
  - by apply Z.eqb_eq in H as ->.
  - by apply String.eqb_eq in H as ->.
  - f_equal. revert l' H. induction l as [|x l IHl]; intros [|y l'] H; try discriminate; [reflexivity|].
    apply andb_prop in H as [H1 H2]. f_equal; [by apply IH|by apply IHl].
  - f_equal. revert m' H. induction m as [|[k x] m IHm]; intros [|[k' y] m'] H; try discriminate; [reflexivity|].
    apply andb_prop in H as [[Hk%String.eqb_eq H1]%andb_prop H2]. rewrite Hk. f_equal; [f_equal; by apply IH|by apply IHm].
Qed.

Fixpoint assoc {A} (k : string) (m : list (string * A)) : option A :=
  match m with
  | [] => None
  | (k', v) :: m' => if (k =? k')%string then Some v else assoc k m'
  end.

Definition vget (k : string) (v : Value) : option Value :=
  match v with VObj m => assoc k m | _ => None end.
Definition as_str (v : Value) : option string := match v with VStr s => Some s | _ => None end.
Definition as_bool (v : Value) : option bool := match v with VBool b => Some b | _ => None end.
Definition as_array (v : Value) : option (list Value) := match v with VArr l => Some l | _ => None end.
Definition as_object (v : Value) : option (list (string * Value)) :=
  match v with VObj m => Some m | _ => None end.
Definition as_u64 (v : Value) : option Z :=
  match v with VInt n => if (0 <=? n) && (n <? 2 ^ 64) then Some n else None | _ => None end.
Definition as_i64 (v : Value) : option Z :=
  match v with VInt n => if in_i64 n then Some n else None | _ => None end.

(** [opt.or_else(|| other)]. *)
Definition or_else {A} (o : option A) (other : option A) : option A :=
  match o with Some a => Some a | None => other end.

Fixpoint get_str (map : Value) (names : list string) : string :=
  match names with
  | [] => ""
  | n :: ns => match vget n map ≫= as_str with Some s => s | None => get_str map ns end
  end.

Fixpoint get_bool (map : Value) (names : list string) : bool :=
  match names with
  | [] => false
  | n :: ns => match vget n map ≫= as_bool with Some b => b | None => get_bool map ns end
  end.

Fixpoint get_optional_bool (map : Value) (names : list string) : option bool :=
  match names with
  | [] => None
  | n :: ns => match vget n map with Some v => as_bool v | None => get_optional_bool map ns end
  end.

Definition get_string_map (obj : Value) : gmap string string :=
  match or_else (vget "attributes" obj) (vget "participantAttributes" obj) ≫= as_object with
  | None => ∅
  | Some m =>
      foldl (fun acc kv => match as_str kv.2 with Some s => <[kv.1 := s]> acc | None => acc end) ∅ m
  end.

(** [rc.get(a).or_else(|| rc.get(b)).and_then(as_u64).map(|v| v as u32).unwrap_or(0)]. *)
Definition get_u32 (rc : Value) (a b : string) : Z :=
  match or_else (vget a rc) (vget b rc) ≫= as_u64 with Some v => wrap_u 32 v | None => 0 end.

Definition parse_video (v : Value) : VideoGrant :=
  mkVideoGrant
    (get_bool v ["roomCreate"; "room_create"])
    (get_bool v ["roomList"; "room_list"])
    (get_bool v ["roomRecord"; "room_record"])
    (get_bool v ["roomAdmin"; "room_admin"])
    (get_bool v ["roomJoin"; "room_join"])
    (get_str v ["room"])
    (get_optional_bool v ["canPublish"; "can_publish"])
    (get_optional_bool v ["canSubscribe"; "can_subscribe"])
    (get_optional_bool v ["canPublishData"; "can_publish_data"])
    (match or_else (vget "canPublishSources" v) (vget "can_publish_sources" v) ≫= as_array with
     | Some a => omap as_str a
     | None => []
     end)
    (get_optional_bool v ["canUpdateOwnMetadata"; "can_update_own_metadata"])
    (get_bool v ["hidden"])
    (get_bool v ["recorder"])
    (get_bool v ["agent"])
    (get_optional_bool v ["canSubscribeMetrics"; "can_subscribe_metrics"])
    (get_str v ["destinationRoom"; "destination_room"]).

Definition parse_dispatch (d : Value) : RoomAgentDispatch :=
  mkDispatch (get_str d ["agentName"; "agent_name"]) (get_str d ["metadata"])
    (get_str d ["deployment"]) (get_string_map d).

Definition parse_room_config (rc : Value) : RoomConfiguration :=
  mkRoomConfig (get_str rc ["name"])
    (get_u32 rc "emptyTimeout" "empty_timeout")
    (get_u32 rc "departureTimeout" "departure_timeout")
    (get_u32 rc "maxParticipants" "max_participants")
    (get_str rc ["metadata"])
    (match vget "agents" rc ≫= as_array with
     | Some a => (fun m => parse_dispatch (VObj m)) <$> omap as_object a
     | None => []
     end).

Definition parse_claims (key : string) (claims : Value) : VerifiedToken :=
  mkToken key
    (get_str claims ["sub"; "identity"; "jti"])
    (get_str claims ["name"])
    (get_str claims ["metadata"])
    (get_string_map claims)
    (get_str claims ["kind"])
    (match or_else (vget "video" claims) (vget "vid" claims) ≫= as_object with
     | Some v => parse_video (VObj v)
     | None => VideoGrant_default
     end)
    (match vget "sip" claims ≫= as_object with
     | Some v => mkSipGrant (get_bool (VObj v) ["admin"]) (get_bool (VObj v) ["call"])
     | None => mkSipGrant false false
     end)
    (rc ← or_else (vget "roomConfig" claims) (vget "room_config" claims) ≫= as_object;
     Some (parse_room_config (VObj rc)))
    (get_str claims ["roomPreset"; "room_preset"])
    (get_str claims ["sha256"])
    (vget "nbf" claims ≫= as_i64).

(** [bearer_token]. *)
Definition bearer_token (header : option string) : Result AuthError string :=
  match header with
  | Some h => match strip_prefix "Bearer " h with
              | Some token => Ok (trim token)
              | None => Err InvalidAuthorization
              end
  | None => Err MissingAuthorization
  end.

(** * Verification *)

(** The settings of [jsonwebtoken::Validation] that [verify] chooses. *)
Record Validation := mkValidation {
  v_algorithm : string;
  v_issuer : string;
  v_validate_exp : bool;
  v_required_claims : list string;
  v_validate_nbf : bool;
  v_leeway : Z
}.

Section Verify.
(** [base64] (URL-safe, unpadded), [serde_json::from_slice] and
    [jsonwebtoken::decode]; errors carry their rendering. *)
Context (b64_decode : string -> Result string (list Z)).
Context (json_from_slice : list Z -> Result string Value).
Context (jwt_decode : string -> string -> Validation -> Result string Value).

Definition decode_payload_unverified (token : string) : Result AuthError Value :=
  match split_on "." token with
  | [_; payload_b64; _] =>
      decoded ← map_err (fun e => InvalidToken ("invalid token payload: " +:+ e)) (b64_decode payload_b64);
      map_err (fun e => InvalidToken ("invalid token claims: " +:+ e)) (json_from_slice decoded)
  | _ => Err (InvalidToken "malformed token")
  end.

Definition get_secret (keys : gmap string string) (key : string) : option string := keys !! key.

Definition validation_for (key : string) : Validation :=
  mkValidation "HS256" key true ["exp"] true 60.

(** [KeyProvider::verify]. *)
Definition verify (keys : gmap string string) (token : string) : Result AuthError VerifiedToken :=
  unverified ← decode_payload_unverified token;
  key ← ok_or (vget "iss" unverified ≫= as_str) InvalidApiKey;
  secret ← ok_or (get_secret keys key) InvalidApiKey;
  claims ← map_err InvalidToken (jwt_decode token secret (validation_for key));
  Ok (parse_claims key claims).

(** The documented contract of [jsonwebtoken::decode]: it succeeds exactly on a
    token whose HS256 signature under the secret is good and whose claims pass the
    validation, and then returns the claims of the payload. *)
Context (hs256_ok : string -> string -> bool).
Context (claims_valid : Validation -> Value -> bool).
Context (jwt_spec : forall token secret v claims,
  jwt_decode token secret v = Ok claims <->
  hs256_ok token secret = true /\ decode_payload_unverified token = Ok claims /\
  claims_valid v claims = true).

(** C33: token verification.  A token is accepted exactly when its payload names, as
    issuer, a configured API key under whose secret the signature is good and
    whose claims pass the expiry, not-before (60 s leeway) and issuer checks for
    that same key; the result is read from those verified claims and carries that
    key.  The issuer is read before the signature is checked, and this is where it
    is shown that the unverified reading cannot select another key than the
    verified one. *)
Theorem verify_spec keys token t :
  verify keys token = Ok t <->
  exists key secret claims,
    decode_payload_unverified token = Ok claims /\
    vget "iss" claims = Some (VStr key) /\
    keys !! key = Some secret /\
    hs256_ok token secret = true /\
    claims_valid (validation_for key) claims = true /\
    t = parse_claims key claims.
Proof.
  unfold verify. split.
  - intros (claims & Hp & (key & Hk & (secret & Hs & (claims' & Hj & [= <-])%bind_ok)%bind_ok)%bind_ok)%bind_ok.
    apply ok_or_ok in Hk, Hs. apply map_err_ok, jwt_spec in Hj as (Hsig & Hp' & Hv).
    assert (claims' = claims) as -> by congruence.
    destruct (vget "iss" claims) as [v|] eqn:Ei; [|done]. destruct v; try done. injection Hk as ->.
    exists key, secret, claims. done.
  - intros (key & secret & claims & Hp & Hi & Hs & Hsig & Hv & ->).
    assert (jwt_decode token secret (validation_for key) = Ok claims) as Hj by (by apply jwt_spec).
    rewrite Hp. cbn. rewrite Hi. cbn. unfold get_secret. rewrite Hs. cbn. rewrite Hj. done.
Qed.

(** A token whose issuer is not configured is refused whatever its signature. *)
Lemma verify_unknown_issuer keys token claims key :
  decode_payload_unverified token = Ok claims -> vget "iss" claims = Some (VStr key) ->
  keys !! key = None -> verify keys token = Err InvalidApiKey.
Proof. intros Hp Hi Hk. unfold verify. rewrite Hp. cbn. rewrite Hi. cbn. unfold get_secret. by rewrite Hk. Qed.

End Verify.

(** Concrete collaborators for the witness: the payload is the JSON text itself,
    and a signature is good when the third segment is the secret. *)
Module ToyJwt.
Definition b64 (s : string) : Result string (list Z) := if (s =? "")%string then Err "empty" else Ok [str_len s].
Definition json (l : list Z) : Result string Value :=
  Ok (VObj [("iss", VStr "devkey"); ("sub", VStr "alice");
            ("video", VObj [("roomJoin", VBool true); ("room", VStr "r"); ("canPublish", VBool false)])]).
Definition hs256 (token secret : string) : bool :=
  match split_on "." token with [_; _; sig] => (sig =? secret)%string | _ => false end.
Definition valid (v : Validation) (c : Value) : bool := (v_issuer v =? get_str c ["iss"])%string.
Definition decode (token secret : string) (v : Validation) : Result string Value :=
  match decode_payload_unverified b64 json token with
  | Ok c => if hs256 token secret && valid v c then Ok c else Err "invalid"
  | Err _ => Err "malformed"
  end.

Lemma spec token secret v claims :
  decode token secret v = Ok claims <->
  hs256 token secret = true /\ decode_payload_unverified b64 json token = Ok claims /\
  valid v claims = true.
Proof.
  unfold decode. destruct (decode_payload_unverified b64 json token) as [c|].
  - destruct (hs256 token secret) eqn:E1; cbn; [|naive_solver].
    destruct (valid v c) eqn:E2; split; intros H; [injection H as <- | | |]; destruct_and?; try done; congruence.
  - split; [done|]. intros (_ & H & _). done.
Qed.
End ToyJwt.

Lemma verify_spec_witness :
  exists t, verify ToyJwt.b64 ToyJwt.json ToyJwt.decode {["devkey" := "secret"]} "h.p.secret" = Ok t
            /\ tk_identity t = "alice" /\ token_can_publish_data t = false.
Proof.
  set (claims := VObj [("iss", VStr "devkey"); ("sub", VStr "alice");
            ("video", VObj [("roomJoin", VBool true); ("room", VStr "r"); ("canPublish", VBool false)])]).
  exists (parse_claims "devkey" claims). split.
  - apply (verify_spec ToyJwt.b64 ToyJwt.json ToyJwt.decode ToyJwt.hs256 ToyJwt.valid ToyJwt.spec).
    exists "devkey", "secret", claims.
    split; [reflexivity|]. split; [reflexivity|]. split; [by rewrite lookup_singleton|]. done.
  - split; reflexivity.
Defined.
