(* ===== verification/Twirp.v ===== *)
(** The Twirp surface of [crates/lk-server/src/http.rs]: error codes with their HTTP status,
    responses, content negotiation, and the body codec the services share. *)
From Stdlib Require Import ZArith Lia Ascii String.
From stdpp Require Import base gmap strings list option.
From S2P Require Import Prelude RustStr Auth.

Open Scope string_scope.
Open Scope list_scope.
Open Scope Z_scope.

(** * Errors *)

(** The constructors of [TwirpError]; code string and status are functions of them. *)
Inductive TwirpCode :=
| invalid_argument | not_found | permission_denied | unauthenticated | already_exists
| failed_precondition | deadline_exceeded | unavailable | resource_exhausted | unimplemented
| bad_route | twirp_internal.
#[export] Instance TwirpCode_eq_dec : EqDecision TwirpCode.
Proof. solve_decision. Defined.

Definition TwirpError : Type := TwirpCode * string.

Definition twirp_code (c : TwirpCode) : string :=
  match c with
  | invalid_argument => "invalid_argument" | not_found => "not_found"
  | permission_denied => "permission_denied" | unauthenticated => "unauthenticated"
  | already_exists => "already_exists" | failed_precondition => "failed_precondition"
  | deadline_exceeded => "deadline_exceeded" | unavailable => "unavailable"
  | resource_exhausted => "resource_exhausted" | unimplemented => "unimplemented"
  | bad_route => "bad_route" | twirp_internal => "internal"
  end.

Definition twirp_status (c : TwirpCode) : Z :=
  match c with
  | invalid_argument => 400 | not_found => 404 | permission_denied => 403 | unauthenticated => 401
  | already_exists => 409 | failed_precondition => 400 | deadline_exceeded => 504 | unavailable => 503
  | resource_exhausted => 429 | unimplemented => 501 | bad_route => 404 | twirp_internal => 500
  end.

(** * Responses *)

Inductive Body := JsonBody (v : Value) | TextBody (s : string) | BytesBody (b : list Z).
Record Response := mkResponse { rs_status : Z; rs_content_type : string; rs_body : Body }.

(** [TwirpError::into_response]. *)
Definition into_response (e : TwirpError) : Response :=
  mkResponse (twirp_status e.1) "application/json"
    (JsonBody (VObj [("code", VStr (twirp_code e.1)); ("msg", VStr e.2); ("meta", VObj [])])).

(** * Handlers *)

(** A handler over a state: its answer and the state it leaves. *)
Definition Handler (St A : Type) : Type := St -> Result TwirpError A * St.
Definition ret {St A} (a : A) : Handler St A := fun s => (Ok a, s).
Definition throw {St A} (e : TwirpError) : Handler St A := fun s => (Err e, s).
Definition bind {St A C} (m : Handler St A) (k : A -> Handler St C) : Handler St C := fun s =>
  match m s with (Ok a, s') => k a s' | (Err e, s') => (Err e, s') end.
(** [result?]. *)
Definition lift {St A} (r : Result TwirpError A) : Handler St A := fun s => (r, s).
Declare Scope twirp_scope.
Notation "'let!' x := m 'in' k" := (bind m (fun x => k)) (at level 200, x pattern, k at level 200) : twirp_scope.

(** A handler that leaves the state alone. *)
Definition keeps {St A} (m : Handler St A) : Prop := forall s, (m s).2 = s.
Lemma keeps_ret {St A} (a : A) : keeps (St := St) (ret a). Proof. done. Qed.
Lemma keeps_throw {St A} (e : TwirpError) : keeps (St := St) (A := A) (throw e). Proof. done. Qed.
Lemma keeps_lift {St A} (r : Result TwirpError A) : keeps (St := St) (lift r). Proof. done. Qed.
Lemma keeps_bind {St A C} (m : Handler St A) (k : A -> Handler St C) : keeps m -> (forall a, keeps (k a)) -> keeps (bind m k).
Proof.
  intros Hm Hk s. unfold bind. specialize (Hm s). destruct (m s) as [[a|e] s']; cbn in Hm |- *; subst; [by rewrite Hk|done].
Qed.

Lemma bind_lift_ok {St A C} (r : Result TwirpError A) (k : A -> Handler St C) a s : r = Ok a -> bind (lift r) k s = k a s.
Proof. by intros ->. Qed.
Lemma bind_lift_err {St A C} (r : Result TwirpError A) (k : A -> Handler St C) e s : r = Err e -> bind (lift r) k s = (Err e, s).
Proof. by intros ->. Qed.

Lemma bind_inv {St A C} (m : Handler St A) (k : A -> Handler St C) s c s' : bind m k s = (Ok c, s') ->
  exists a s1, m s = (Ok a, s1) /\ k a s1 = (Ok c, s').
Proof. unfold bind. destruct (m s) as [[a|e] s1]; [|done]. by eauto. Qed.
Lemma bind_assoc {St A C D} (m : Handler St A) (k : A -> Handler St C) (j : C -> Handler St D) s :
  bind (bind m k) j s = bind m (fun a => bind (k a) j) s.
Proof. unfold bind. by destruct (m s) as [[a|e] s1]. Qed.
Lemma bind_ret {St A C} (a : A) (k : A -> Handler St C) s : bind (ret a) k s = k a s.
Proof. done. Qed.

(** * Content types *)

Inductive WireFormat := Json | Protobuf.
#[export] Instance WireFormat_eq_dec : EqDecision WireFormat.
Proof. solve_decision. Defined.

(** [format_from]: [ct] is the header, when it is there and readable as text. *)
Definition format_from (ct : option string) : Result TwirpError WireFormat :=
  let ct := default "" ct in
  if contains "application/protobuf" ct then Ok Protobuf
  else if (ct =? "")%string || contains "application/json" ct then Ok Json
  else Err (bad_route, "unsupported content type: " +:+ ct).

Definition content_type_of (format : WireFormat) : string :=
  match format with Json => "application/json" | Protobuf => "application/protobuf" end.

(** A message type with its two generated codecs. *)
Class WireMessage (T : Type) := {
  from_json : list Z -> Result string T; to_json : T -> Result string (list Z);
  from_protobuf : list Z -> Result string T; to_protobuf : T -> Result string (list Z);
}.

Definition parse_body {T} `{WireMessage T} (body : list Z) (format : WireFormat) : Result TwirpError T :=
  match format with
  | Json => map_err (fun e => (invalid_argument, "invalid json: " +:+ e)) (from_json body)
  | Protobuf => map_err (fun e => (invalid_argument, "invalid protobuf: " +:+ e)) (from_protobuf body)
  end.

Definition write_body {T} `{WireMessage T} (msg : T) (format : WireFormat) : Result TwirpError (list Z) :=
  match format with
  | Json => map_err (fun e => (twirp_internal, "serialize response: " +:+ e)) (to_json msg)
  | Protobuf => map_err (fun e => (twirp_internal, "encode response: " +:+ e)) (to_protobuf msg)
  end.
