(* ===== verification/Config.v ===== *)
(** The server configuration, [crates/lk-server/src/config.rs]: the sections with their
    defaults, the effective ports, the codec list and the environment overrides.  YAML parsing
    is a parameter. *)
From Stdlib Require Import ZArith Lia Ascii String.
From stdpp Require Import base gmap strings list option.
From S2P Require Import Prelude RustStr.

Open Scope string_scope.
Open Scope list_scope.
Open Scope Z_scope.

(** * Sections *)

Record RTCIPConfig := mkRTCIP { ip_includes : list string; ip_excludes : list string }.
Record CongestionControlConfig := mkCongestion { cc_enabled : bool; cc_allow_pause : bool }.
Record RTCConfig := mkRTC {
  rtc_udp_port : Z; rtc_tcp_port : Z; rtc_port_range_start : Z; rtc_port_range_end : Z;
  rtc_use_external_ip : bool; rtc_ips : RTCIPConfig; rtc_node_ip : string;
  rtc_packet_buffer_size_audio : Z; rtc_packet_buffer_size_video : Z;
  rtc_enable_datachannel_data_tracks : bool; rtc_congestion_control : CongestionControlConfig;
}.
Record RedisConfig := mkRedis {
  rd_address : string; rd_username : string; rd_password : string; rd_db : Z; rd_use_tls : bool;
  rd_max_retries : Z; rd_cluster : bool;
}.
Definition is_configured (r : RedisConfig) : bool := negb (rd_address r =? "")%string.
Record LoggingConfig := mkLogging { lg_level : string; lg_pion_level : string }.
Record CodecConfig := mkCodec { cd_mime : string; cd_fmtp_line : string }.
Record RoomConfig := mkRoomCfg {
  rm_auto_create : bool; rm_empty_timeout : Z; rm_departure_timeout : Z; rm_max_participants : Z;
  rm_create_room_timeout : Z; rm_enabled_codecs : list CodecConfig; rm_update_batch_target_size : Z;
}.
Record WebhookConfig := mkWebhookCfg { wh_api_key : string; wh_urls : list string; wh_notify_agent_events : bool }.
Record PrometheusConfig := mkPrometheus {
  pr_port : Z; pr_ignore_tags : list string; pr_username : string; pr_password : string;
}.
Record TurnConfig := mkTurnCfg {
  tn_enabled : bool; tn_domain : string; tn_udp_port : Z; tn_tls_port : Z; tn_cert_file : string;
  tn_key_file : string; tn_ttl : Z; tn_use_external_ip : bool;
}.
(** The load is an [f32], kept as its bits. *)
Record AgentConfig := mkAgentCfg {
  ag_target_load : Z; ag_default_name : string; ag_room_auto_join : bool; ag_namespace : string;
  ag_max_agents : Z; ag_agent_signal_message_size_limit : Z;
}.
Record LimitConfig := mkLimits {
  lm_max_metadata : Z; lm_max_attributes : Z; lm_max_room_name_length : Z; lm_max_participant_name_length : Z;
  lm_max_identity_length : Z; lm_max_agent_name_length : Z; lm_max_data_blob_size : Z;
  lm_signal_message_size_limit : Z; lm_agent_signal_message_size_limit : Z; lm_max_api_request_body_size : Z;
}.
Record SignalRelayConfig := mkRelayCfg {
  sy_retry_timeout : Z; sy_min_retry : Z; sy_max_retry : Z; sy_stream_buffer_size : Z; sy_connect_attempts : Z;
}.
Record PsrpcConfig := mkPsrpcCfg { ps_enabled : bool }.

(** [debug_handler] is accepted and ignored; it is left out. *)
Record Config := mkConfig {
  cf_port : option Z; cf_bind_addresses : list string; cf_rtc : RTCConfig; cf_redis : RedisConfig;
  cf_keys : gmap string string; cf_logging : LoggingConfig; cf_room : RoomConfig; cf_webhook : WebhookConfig;
  cf_prometheus_port : option Z; cf_prometheus : PrometheusConfig; cf_turn : TurnConfig; cf_agents : AgentConfig;
  cf_limit : LimitConfig; cf_region : string; cf_node_id : string; cf_dev : bool;
  cf_signal_relay : SignalRelayConfig; cf_psrpc : PsrpcConfig; cf_log_level : option string;
}.

(** * Defaults *)

Definition DEFAULT_PORT : Z := 7880.
Definition DEFAULT_RTC_TCP_PORT : Z := 7881.
Definition DEFAULT_NODE_ID_PREFIX : string := "LX".

Definition default_codecs : list CodecConfig :=
  (fun mime => mkCodec mime "") <$> ["audio/opus"; "audio/red"; "audio/PCMU"; "audio/PCMA"].
Definition RTCConfig_default : RTCConfig :=
  mkRTC 0 DEFAULT_RTC_TCP_PORT 0 0 false (mkRTCIP [] []) "" 200 500 true (mkCongestion true false).
Definition LoggingConfig_default : LoggingConfig := mkLogging "info" "error".
Definition RoomConfig_default : RoomConfig := mkRoomCfg true 300 20 0 10 default_codecs (128 * 1024).
Definition TurnConfig_default : TurnConfig := mkTurnCfg false "" 5349 0 "" "" 300 false.
(** 0.7 is the float 0x3f333333. *)
Definition AgentConfig_default : AgentConfig := mkAgentCfg 1060320051 "" false "" 0 (2 * 1024 * 1024).
Definition LimitConfig_default : LimitConfig :=
  mkLimits (512 * 1024) (64 * 1024) 256 256 256 256 64000 (2 * 1024 * 1024) (2 * 1024 * 1024) (10 * 1024 * 1024).
Definition SignalRelayConfig_default : SignalRelayConfig := mkRelayCfg 7500 500 4000 1000 3.
Definition Config_default : Config :=
  mkConfig (Some DEFAULT_PORT) [] RTCConfig_default (mkRedis "" "" "" 0 false 0 false) ∅ LoggingConfig_default
    RoomConfig_default (mkWebhookCfg "" [] false) None (mkPrometheus 0 [] "" "") TurnConfig_default
    AgentConfig_default LimitConfig_default "" "" false SignalRelayConfig_default (mkPsrpcCfg false) None.

(** * Effective values *)

Definition effective_port (c : Config) : Z := default DEFAULT_PORT (cf_port c).
Definition effective_udp_port (c : Config) : Z :=
  if rtc_udp_port (cf_rtc c) =? 0 then rtc_tcp_port (cf_rtc c) else rtc_udp_port (cf_rtc c).
Definition enabled_codec_mimes (c : Config) : list string := cd_mime <$> rm_enabled_codecs (cf_room c).

Definition lower_char (c : ascii) : ascii := if is_upper c then ascii_of_nat (nat_of_ascii c + 32) else c.
Fixpoint eq_ignore_ascii_case (a b : string) : bool :=
  match a, b with
  | "", "" => true
  | String c a', String d b' => Ascii.eqb (lower_char c) (lower_char d) && eq_ignore_ascii_case a' b'
  | _, _ => false
  end.
Definition is_codec_enabled (mime : string) (c : Config) : bool :=
  existsb (fun m => eq_ignore_ascii_case m mime) (enabled_codec_mimes c).

(** * Environment *)

Definition set_redis_address (a : string) (c : Config) : Config :=
  let r := cf_redis c in
  mkConfig (cf_port c) (cf_bind_addresses c) (cf_rtc c)
    (mkRedis a (rd_username r) (rd_password r) (rd_db r) (rd_use_tls r) (rd_max_retries r) (rd_cluster r))
    (cf_keys c) (cf_logging c) (cf_room c) (cf_webhook c) (cf_prometheus_port c) (cf_prometheus c) (cf_turn c)
    (cf_agents c) (cf_limit c) (cf_region c) (cf_node_id c) (cf_dev c) (cf_signal_relay c) (cf_psrpc c) (cf_log_level c).
Definition set_rtc (tcp udp : Z) (node_ip : string) (c : Config) : Config :=
  let r := cf_rtc c in
  mkConfig (cf_port c) (cf_bind_addresses c)
    (mkRTC udp tcp (rtc_port_range_start r) (rtc_port_range_end r) (rtc_use_external_ip r) (rtc_ips r) node_ip
       (rtc_packet_buffer_size_audio r) (rtc_packet_buffer_size_video r) (rtc_enable_datachannel_data_tracks r)
       (rtc_congestion_control r))
    (cf_redis c) (cf_keys c) (cf_logging c) (cf_room c) (cf_webhook c) (cf_prometheus_port c) (cf_prometheus c)
    (cf_turn c) (cf_agents c) (cf_limit c) (cf_region c) (cf_node_id c) (cf_dev c) (cf_signal_relay c) (cf_psrpc c)
    (cf_log_level c).
Definition set_level (level : string) (legacy : option string) (c : Config) : Config :=
  mkConfig (cf_port c) (cf_bind_addresses c) (cf_rtc c) (cf_redis c) (cf_keys c)
    (mkLogging level (lg_pion_level (cf_logging c))) (cf_room c) (cf_webhook c) (cf_prometheus_port c)
    (cf_prometheus c) (cf_turn c) (cf_agents c) (cf_limit c) (cf_region c) (cf_node_id c) (cf_dev c)
    (cf_signal_relay c) (cf_psrpc c) legacy.
Definition set_server (port : option Z) (keys : gmap string string) (region : string) (c : Config) : Config :=
  mkConfig port (cf_bind_addresses c) (cf_rtc c) (cf_redis c) keys (cf_logging c) (cf_room c) (cf_webhook c)
    (cf_prometheus_port c) (cf_prometheus c) (cf_turn c) (cf_agents c) (cf_limit c) region (cf_node_id c) (cf_dev c)
    (cf_signal_relay c) (cf_psrpc c) (cf_log_level c).

(** [if let Ok(value) = std::env::var(name) { ... }]. *)
Definition with_env {A} (env : gmap string string) (name : string) (f : string -> A -> A) (a : A) : A :=
  match env !! name with Some v => f v a | None => a end.

Section Load.
Context (yaml_config : string -> Result string Config) (yaml_keys : string -> Result string (gmap string string)).

Definition apply_env_overrides (env : gmap string string) (c : Config) : Config :=
  let c := with_env env "LIVEKIT_REDIS_ADDRESS" set_redis_address c in
  let c := with_env env "LIVEKIT_RTC_TCP_PORT" (fun v c =>
    match parse_u16 v with
    | Some p => set_rtc p (rtc_udp_port (cf_rtc c)) (rtc_node_ip (cf_rtc c)) c
    | None => c
    end) c in
  let c := with_env env "LIVEKIT_LOG_LEVEL" (fun v c => set_level v (cf_log_level c) c) c in
  let c := with_env env "LIVEKIT_KEYS" (fun v c =>
    match yaml_keys v with Ok keys => set_server (cf_port c) keys (cf_region c) c | Err _ => c end) c in
  let c := with_env env "LIVEKIT_PORT" (fun v c => set_server (parse_u16 v) (cf_keys c) (cf_region c) c) c in
  let c := with_env env "LIVEKIT_REGION" (fun v c => set_server (cf_port c) (cf_keys c) v c) c in
  let c := with_env env "NODE_IP" (fun v c => set_rtc (rtc_tcp_port (cf_rtc c)) (rtc_udp_port (cf_rtc c)) v c) c in
  with_env env "UDP_PORT" (fun v c =>
    set_rtc (rtc_tcp_port (cf_rtc c)) (default 0 (parse_u16 v)) (rtc_node_ip (cf_rtc c)) c) c.

Definition load_config_from_yaml (env : gmap string string) (yaml : string) : Result string Config :=
  config ← map_err (fun e => "failed to parse config: " +:+ e) (yaml_config yaml);
  let config := match cf_log_level config with Some level => set_level level None config | None => config end in
  Ok (apply_env_overrides env config).
End Load.

(** [node_id]: the suffix is the random UUID in its simple form. *)
Definition node_id (prefix : option string) (suffix : string) : string :=
  to_uppercase (default DEFAULT_NODE_ID_PREFIX prefix) +:+ suffix.

(** * Overrides *)

Section Overrides.
Context (yaml_keys : string -> Result string (gmap string string)).

(** A variable that does not concern [g]. *)
Lemma with_env_proj {B} (g : Config -> B) env name f c : (forall v c, g (f v c) = g c) -> g (with_env env name f c) = g c.
Proof. intros Hf. unfold with_env. destruct (env !! name); [apply Hf|done]. Qed.
Ltac peel g :=
  repeat match goal with
  | |- context [with_env ?e ?n ?f ?c] =>
      rewrite (with_env_proj g e n f c) by (intros; repeat case_match; reflexivity)
  end.

(** The variable [o] sets [g]; the others do not concern it. *)
Ltac env_field g o :=
  peel g; unfold with_env at 1; destruct o; cbn [mbind option_bind];
  repeat match goal with |- context [match ?x with _ => _ end] => lazymatch x with _ !! _ => fail | _ => destruct x end end;
  cbn [default]; try reflexivity; peel g; reflexivity.

(** What each setting is after the overrides, one by one. *)
Lemma overrides_fields env c : let c' := apply_env_overrides yaml_keys env c in
  rd_address (cf_redis c') = default (rd_address (cf_redis c)) (env !! "LIVEKIT_REDIS_ADDRESS") /\
  rtc_tcp_port (cf_rtc c') = default (rtc_tcp_port (cf_rtc c)) (env !! "LIVEKIT_RTC_TCP_PORT" ≫= parse_u16) /\
  rtc_udp_port (cf_rtc c') = match env !! "UDP_PORT" with Some v => default 0 (parse_u16 v) | None => rtc_udp_port (cf_rtc c) end /\
  rtc_node_ip (cf_rtc c') = default (rtc_node_ip (cf_rtc c)) (env !! "NODE_IP") /\
  lg_level (cf_logging c') = default (lg_level (cf_logging c)) (env !! "LIVEKIT_LOG_LEVEL") /\
  cf_keys c' = match env !! "LIVEKIT_KEYS" with Some v => match yaml_keys v with Ok k => k | Err _ => cf_keys c end | None => cf_keys c end /\
  cf_port c' = match env !! "LIVEKIT_PORT" with Some v => parse_u16 v | None => cf_port c end /\
  cf_region c' = default (cf_region c) (env !! "LIVEKIT_REGION") /\
  cf_log_level c' = cf_log_level c.
Proof.
  cbv zeta. unfold apply_env_overrides. split_and!.
  - env_field (fun c => rd_address (cf_redis c)) (env !! "LIVEKIT_REDIS_ADDRESS").
  - env_field (fun c => rtc_tcp_port (cf_rtc c)) (env !! "LIVEKIT_RTC_TCP_PORT").
  - env_field (fun c => rtc_udp_port (cf_rtc c)) (env !! "UDP_PORT").
  - env_field (fun c => rtc_node_ip (cf_rtc c)) (env !! "NODE_IP").
  - env_field (fun c => lg_level (cf_logging c)) (env !! "LIVEKIT_LOG_LEVEL").
  - env_field (fun c => cf_keys c) (env !! "LIVEKIT_KEYS").
  - env_field (fun c => cf_port c) (env !! "LIVEKIT_PORT").
  - env_field (fun c => cf_region c) (env !! "LIVEKIT_REGION").
  - by peel (fun c => cf_log_level c).
Qed.

(** The sections no variable names. *)
Definition untouched (c c' : Config) : Prop :=
  cf_bind_addresses c' = cf_bind_addresses c /\ cf_room c' = cf_room c /\ cf_webhook c' = cf_webhook c /\
  cf_prometheus c' = cf_prometheus c /\ cf_turn c' = cf_turn c /\ cf_agents c' = cf_agents c /\ cf_limit c' = cf_limit c /\
  cf_signal_relay c' = cf_signal_relay c /\ cf_psrpc c' = cf_psrpc c /\ cf_node_id c' = cf_node_id c.

Lemma untouched_trans a b c : untouched a b -> untouched b c -> untouched a c.
Proof. intros (?&?&?&?&?&?&?&?&?&?) (?&?&?&?&?&?&?&?&?&?). unfold untouched. split_and!; congruence. Qed.

Lemma with_env_untouched env name f c : (forall v c, untouched c (f v c)) -> untouched c (with_env env name f c).
Proof. intros Hf. unfold with_env. destruct (env !! name); [apply Hf|done]. Qed.

Lemma overrides_untouched env c : untouched c (apply_env_overrides yaml_keys env c).
Proof.
  unfold apply_env_overrides.
  repeat (eapply untouched_trans; [|apply with_env_untouched; intros; repeat case_match; done]). done.
Qed.

(** A port override that does not parse.  [LIVEKIT_PORT] set to anything but a 16-bit number
    does not leave the configured port in place: the server listens on the default port. *)
Theorem bad_port_override_resets env v c : env !! "LIVEKIT_PORT" = Some v -> parse_u16 v = None ->
  effective_port (apply_env_overrides yaml_keys env c) = DEFAULT_PORT.
Proof.
  intros He Hp. destruct (overrides_fields env c) as (_ & _ & _ & _ & _ & _ & Hport & _). unfold effective_port.
  by rewrite Hport, He, Hp.
Qed.
End Overrides.

(** The environment wins over the file.  Loading succeeds exactly when the YAML parses, and
    then every overridable setting is the variable's value when it is set (and parses), the
    file's otherwise, the legacy log level standing in for the nested one; all other sections
    are the file's. *)
Theorem load_config_spec yaml_config yaml_keys env yaml c :
  load_config_from_yaml yaml_config yaml_keys env yaml = Ok c ->
  exists f, yaml_config yaml = Ok f /\ untouched f c /\ cf_log_level c = None /\
    lg_level (cf_logging c) = default (default (lg_level (cf_logging f)) (cf_log_level f)) (env !! "LIVEKIT_LOG_LEVEL") /\
    rd_address (cf_redis c) = default (rd_address (cf_redis f)) (env !! "LIVEKIT_REDIS_ADDRESS") /\
    rtc_tcp_port (cf_rtc c) = default (rtc_tcp_port (cf_rtc f)) (env !! "LIVEKIT_RTC_TCP_PORT" ≫= parse_u16) /\
    (env !! "LIVEKIT_KEYS" = None -> cf_keys c = cf_keys f) /\
    cf_region c = default (cf_region f) (env !! "LIVEKIT_REGION").
Proof.
  unfold load_config_from_yaml. intros (f & Hf%map_err_ok & [= <-])%bind_ok. exists f. split; [done|].
  set (f' := match cf_log_level f with Some level => set_level level None f | None => f end).
  assert (untouched f f' /\ cf_log_level f' = None /\ cf_rtc f' = cf_rtc f /\ cf_redis f' = cf_redis f /\ cf_keys f' = cf_keys f /\
    cf_region f' = cf_region f /\ lg_level (cf_logging f') = default (lg_level (cf_logging f)) (cf_log_level f)) as
    (Hu & Hl & Hr & Hd & Hk & Hg & Hv) by (unfold f'; destruct (cf_log_level f) eqn:E; by rewrite ?E; split_and!).
  destruct (overrides_fields yaml_keys env f') as (F1 & F2 & _ & _ & F3 & F4 & _ & F5 & F6).
  split; [eapply untouched_trans; [exact Hu|apply overrides_untouched]|]. split_and!.
  - by rewrite F6, Hl.
  - by rewrite F3, Hv.
  - by rewrite F1, Hd.
  - by rewrite F2, Hr.
  - intros E. by rewrite F4, E, Hk.
  - by rewrite F5, Hg.
Qed.

Lemma load_config_spec_witness :
  exists f, Ok Config_default = Ok (E := string) f /\ untouched f (set_level "debug" None Config_default).
Proof.
  set (file := Config_default).
  destruct (load_config_spec (fun _ => Ok file) (fun _ => Err "no keys") {["LIVEKIT_LOG_LEVEL" := "debug"]} "" (set_level "debug" None file))
    as (f & Hf & Hu & _); [vm_compute; reflexivity|]. exists f. by split.
Defined.

Lemma bad_port_override_resets_witness :
  effective_port (apply_env_overrides (fun _ => Err "no keys") {["LIVEKIT_PORT" := "80a"]} Config_default) = 7880.
Proof. by apply (bad_port_override_resets (fun _ => Err "no keys") {["LIVEKIT_PORT" := "80a"]} "80a" Config_default). Defined.

(** Codec names compare without case. *)
Lemma eq_ignore_case_lower a b : eq_ignore_ascii_case a b = true <->
  (fix go s := match s with "" => "" | String c s' => String (lower_char c) (go s') end) a =
  (fix go s := match s with "" => "" | String c s' => String (lower_char c) (go s') end) b.
Proof.
  revert b. induction a as [|c a IH]; intros [|d b]; cbn; try done.
  rewrite andb_true_iff, IH, Ascii.eqb_eq. split; [by intros [-> ->]|by intros [= -> ->]].
Qed.
