(* ===== verification/Proto.v ===== *)
(** Protobuf messages the signaling plane exchanges ([protos/livekit_models.proto],
    [protos/livekit_rtc.proto]), with the fields the server reads or sets; fields it
    leaves at their defaults are omitted.  Also the ordered view of a [BTreeMap]. *)
From Stdlib Require Import ZArith Lia Ascii String.
From stdpp Require Import base gmap strings list option.
From S2P Require Import Prelude RustStr Core Track.

Open Scope string_scope.
Open Scope list_scope.
Open Scope Z_scope.

(** * Ordered maps *)

(** [Ord for str]: byte order. *)
Definition str_le (a b : string) : bool :=
  match String.compare a b with Gt => false | _ => true end.

Section Btree.
Context {A : Type}.

Fixpoint insert_sorted (e : string * A) (l : list (string * A)) : list (string * A) :=
  match l with
  | [] => [e]
  | x :: l' => if str_le e.1 x.1 then e :: l else x :: insert_sorted e l'
  end.

(** The entries of a [BTreeMap] in iteration order. *)
Definition btree_entries (m : gmap string A) : list (string * A) :=
  foldr insert_sorted [] (map_to_list m).
Definition btree_values (m : gmap string A) : list A := snd <$> btree_entries m.

Lemma insert_sorted_perm e l : insert_sorted e l ≡ₚ e :: l.
Proof.
  induction l as [|x l IH]; cbn; [done|]. destruct (str_le _ _); [done|].
  rewrite IH. apply Permutation_swap.
Qed.

Lemma btree_entries_perm m : btree_entries m ≡ₚ map_to_list m.
Proof.
  unfold btree_entries. induction (map_to_list m) as [|e l IH]; cbn; [done|].
  by rewrite insert_sorted_perm, IH.
Qed.

Lemma elem_of_btree_entries m k v : (k, v) ∈ btree_entries m <-> m !! k = Some v.
Proof. rewrite btree_entries_perm. apply elem_of_map_to_list. Qed.

Lemma elem_of_btree_values m v : v ∈ btree_values m <-> exists k, m !! k = Some v.
Proof.
  unfold btree_values. rewrite list_elem_of_fmap. split.
  - intros ([k v'] & -> & H). exists k. by apply elem_of_btree_entries.
  - intros [k H]. exists (k, v). split; [done|]. by apply elem_of_btree_entries.
Qed.
End Btree.

(** * Enums *)

Inductive DisconnectReason :=
| UNKNOWN_REASON | CLIENT_INITIATED | DUPLICATE_IDENTITY | SERVER_SHUTDOWN | PARTICIPANT_REMOVED
| ROOM_DELETED | STATE_MISMATCH | JOIN_FAILURE | MIGRATION | SIGNAL_CLOSE | ROOM_CLOSED
| USER_UNAVAILABLE | USER_REJECTED | SIP_TRUNK_FAILURE | CONNECTION_TIMEOUT | MEDIA_FAILURE
| AGENT_ERROR.

Definition reasons : list DisconnectReason :=
  [UNKNOWN_REASON; CLIENT_INITIATED; DUPLICATE_IDENTITY; SERVER_SHUTDOWN; PARTICIPANT_REMOVED;
   ROOM_DELETED; STATE_MISMATCH; JOIN_FAILURE; MIGRATION; SIGNAL_CLOSE; ROOM_CLOSED;
   USER_UNAVAILABLE; USER_REJECTED; SIP_TRUNK_FAILURE; CONNECTION_TIMEOUT; MEDIA_FAILURE;
   AGENT_ERROR].

(** [reason as i32]. *)
Definition reason_i32 (r : DisconnectReason) : Z :=
  match r with
  | UNKNOWN_REASON => 0 | CLIENT_INITIATED => 1 | DUPLICATE_IDENTITY => 2 | SERVER_SHUTDOWN => 3
  | PARTICIPANT_REMOVED => 4 | ROOM_DELETED => 5 | STATE_MISMATCH => 6 | JOIN_FAILURE => 7
  | MIGRATION => 8 | SIGNAL_CLOSE => 9 | ROOM_CLOSED => 10 | USER_UNAVAILABLE => 11
  | USER_REJECTED => 12 | SIP_TRUNK_FAILURE => 13 | CONNECTION_TIMEOUT => 14 | MEDIA_FAILURE => 15
  | AGENT_ERROR => 16
  end.

(** [DisconnectReason::try_from(v)]. *)
Definition reason_try_from (v : Z) : option DisconnectReason :=
  if (0 <=? v) then reasons !! Z.to_nat v else None.

Lemma reason_roundtrip r : reason_try_from (reason_i32 r) = Some r.
Proof. by destruct r. Qed.

(** [request_response::Reason], the two values the server answers with. *)
Inductive RequestReason := NOT_ALLOWED | UNSUPPORTED_TYPE.

(** * Messages *)

Record ParticipantPermission := mkPermission {
  can_subscribe : bool;
  can_publish : bool;
  can_publish_data : bool;
  can_publish_sources : list Z;
  hidden : bool;
  recorder : bool;
  can_update_metadata : bool;
  agent : bool;
  can_subscribe_metrics : bool;
  can_manage_agent_session : bool
}.
#[global] Instance ParticipantPermission_eq_dec : EqDecision ParticipantPermission.
Proof. solve_decision. Defined.

Definition ParticipantPermission_default : ParticipantPermission :=
  mkPermission false false false [] false false false false false false.

Record ParticipantInfo := mkInfo {
  pi_sid : string;
  pi_identity : string;
  pi_state : Z;
  pi_tracks : list TrackInfo;
  pi_metadata : string;
  pi_joined_at : Z;
  pi_joined_at_ms : Z;
  pi_name : string;
  pi_version : Z;
  pi_permission : option ParticipantPermission;
  pi_is_publisher : bool;
  pi_kind : Z;
  pi_attributes : gmap string string;
  pi_disconnect_reason : Z;
  pi_client_protocol : Z
}.

(** [lk::Room]. *)
Record RoomInfo := mkRoomInfo {
  ri_sid : string;
  ri_name : string;
  ri_empty_timeout : Z;
  ri_departure_timeout : Z;
  ri_max_participants : Z;
  ri_creation_time : Z;
  ri_creation_time_ms : Z;
  ri_metadata : string;
  ri_num_participants : Z;
  ri_num_publishers : Z;
  ri_active_recording : bool;
  ri_version : TimedVersion
}.

Record SessionDescription := mkSdp {
  sd_type : string; sd_sdp : string; sd_id : Z; sd_mid_to_track_id : gmap string string
}.

Record AddTrackRequest := mkAddTrack {
  at_cid : string;
  at_name : string;
  at_type : Z;
  at_muted : bool;
  at_disable_dtx : bool;
  at_source : Z;
  at_stereo : bool;
  at_disable_red : bool;
  at_encryption : Z;
  at_stream : string;
  at_backup_codec_policy : Z;
  at_audio_features : list Z
}.

(** [SpeakerInfo]; the level is kept as the raw dBov byte the float is computed
    from. *)
Record SpeakerInfo := mkSpeaker { sp_sid : string; sp_level : Z; sp_active : bool }.

Record IceServer := mkIceServer { ice_urls : list string; ice_username : string; ice_credential : string }.

Record ServerInfo := mkServerInfo {
  si_version : string; si_protocol : Z; si_region : string; si_node_id : string; si_agent_protocol : Z
}.

Record JoinResponse := mkJoinResponse {
  jr_room : RoomInfo;
  jr_participant : ParticipantInfo;
  jr_others : list ParticipantInfo;
  jr_server_version : string;
  jr_ice_servers : list IceServer;
  jr_subscriber_primary : bool;
  jr_server_region : string;
  jr_ping_timeout : Z;
  jr_ping_interval : Z;
  jr_server_info : ServerInfo;
  jr_codecs : list string;
  jr_fast_publish : bool
}.

Record ReconnectResponse := mkReconnect {
  rr_ice_servers : list IceServer; rr_server_info : ServerInfo; rr_last_message_seq : Z
}.

(** [signal_response::Message], the variants the server sends. *)
Inductive SignalResponse :=
| RJoin (j : JoinResponse)
| RAnswer (sd : SessionDescription)
| ROffer (sd : SessionDescription)
| RTrickle (candidate_init : string) (target : Z) (final : bool)
| RUpdate (infos : list ParticipantInfo)
| RTrackPublished (cid : string) (track : TrackInfo)
| RLeave (reason : Z)
| RMute (sid : string) (muted : bool)
| RSpeakersChanged (speakers : list SpeakerInfo)
| RRoomUpdate (room : RoomInfo)
| RTrackUnpublished (sid : string)
| RPong (timestamp : Z)
| RPongResp (last_ping_timestamp timestamp : Z)
| RReconnect (r : ReconnectResponse)
| RRequestResponse (reason : RequestReason) (req : AddTrackRequest).

(** [data_packet::Value]: a user packet with its deprecated destination sids, or
    any other payload. *)
Inductive DataValue :=
| DUser (payload : list Z) (destination_sids : list string)
| DOther (payload : list Z).

Inductive DataKind := Reliable | Lossy.

Record DataPacket := mkPacket {
  dp_kind : DataKind;
  dp_participant_identity : string;
  dp_participant_sid : string;
  dp_destination_identities : list string;
  dp_value : option DataValue
}.
