(* ===== verification/Participant.v ===== *)
(** Participants, [crates/lk-server/src/participant.rs]: the participant record
    with its monotone state, outbound channel, attributes, metadata, permission
    and track maps.

    Objects shared through [Arc] are referred to by location ([loc]); the track
    heap gives the content of a track location, so that a track reached through
    [tracks] and through [tracks_by_cid] is one object.  [Module SetState] holds
    the compare-and-exchange loop as a step relation over threads. *)
From Stdlib Require Import ZArith Lia Ascii String.
From stdpp Require Import base gmap strings list option relations.
From S2P Require Import Prelude RustStr Core Track Auth Proto.

Open Scope string_scope.
Open Scope list_scope.
Open Scope Z_scope.

Definition loc := nat.

Definition SIGNAL_CHANNEL_CAPACITY : nat := 4096.

Record Participant := mkParticipant {
  p_sid : string;
  p_identity : string;
  p_name : string;
  p_metadata : string;
  p_attributes : gmap string string;
  p_kind : ParticipantKind;
  p_joined_at_ms : Z;
  p_client_protocol : Z;
  p_is_publisher : bool;
  p_permission : ParticipantPermission;
  p_auto_subscribe : bool;
  p_state : Z;
  p_version : VersionCounter;
  p_disconnected_reason : Z;
  p_resume_gen : Z;
  p_tx : option loc;
  p_room : option loc;
  p_tracks : gmap string loc;
  p_tracks_by_cid : gmap string loc
}.

(** [Participant::new]; [sid] is the value [new_participant_sid] drew and [now] the
    clock in microseconds. *)
Definition Participant_new (now : Z) (sid identity name metadata : string) (kind : ParticipantKind)
  : Participant :=
  mkParticipant sid identity name metadata ∅ kind (Z.quot now 1000) 0 false
    ParticipantPermission_default true (state_u8 Joining) 0 0 0 None None ∅ ∅.

(** ** Field updates *)

Definition set_p_state (v : Z) (p : Participant) : Participant :=
  mkParticipant (p_sid p) (p_identity p) (p_name p) (p_metadata p) (p_attributes p) (p_kind p)
    (p_joined_at_ms p) (p_client_protocol p) (p_is_publisher p) (p_permission p)
    (p_auto_subscribe p) v (p_version p) (p_disconnected_reason p) (p_resume_gen p) (p_tx p)
    (p_room p) (p_tracks p) (p_tracks_by_cid p).
Definition set_p_version (v : VersionCounter) (p : Participant) : Participant :=
  mkParticipant (p_sid p) (p_identity p) (p_name p) (p_metadata p) (p_attributes p) (p_kind p)
    (p_joined_at_ms p) (p_client_protocol p) (p_is_publisher p) (p_permission p)
    (p_auto_subscribe p) (p_state p) v (p_disconnected_reason p) (p_resume_gen p) (p_tx p)
    (p_room p) (p_tracks p) (p_tracks_by_cid p).
Definition set_p_reason (v : Z) (p : Participant) : Participant :=
  mkParticipant (p_sid p) (p_identity p) (p_name p) (p_metadata p) (p_attributes p) (p_kind p)
    (p_joined_at_ms p) (p_client_protocol p) (p_is_publisher p) (p_permission p)
    (p_auto_subscribe p) (p_state p) (p_version p) v (p_resume_gen p) (p_tx p)
    (p_room p) (p_tracks p) (p_tracks_by_cid p).
Definition set_p_resume_gen (v : Z) (p : Participant) : Participant :=
  mkParticipant (p_sid p) (p_identity p) (p_name p) (p_metadata p) (p_attributes p) (p_kind p)
    (p_joined_at_ms p) (p_client_protocol p) (p_is_publisher p) (p_permission p)
    (p_auto_subscribe p) (p_state p) (p_version p) (p_disconnected_reason p) v (p_tx p)
    (p_room p) (p_tracks p) (p_tracks_by_cid p).
Definition set_p_tx (v : option loc) (p : Participant) : Participant :=
  mkParticipant (p_sid p) (p_identity p) (p_name p) (p_metadata p) (p_attributes p) (p_kind p)
    (p_joined_at_ms p) (p_client_protocol p) (p_is_publisher p) (p_permission p)
    (p_auto_subscribe p) (p_state p) (p_version p) (p_disconnected_reason p) (p_resume_gen p) v
    (p_room p) (p_tracks p) (p_tracks_by_cid p).
Definition set_p_room (v : option loc) (p : Participant) : Participant :=
  mkParticipant (p_sid p) (p_identity p) (p_name p) (p_metadata p) (p_attributes p) (p_kind p)
    (p_joined_at_ms p) (p_client_protocol p) (p_is_publisher p) (p_permission p)
    (p_auto_subscribe p) (p_state p) (p_version p) (p_disconnected_reason p) (p_resume_gen p)
    (p_tx p) v (p_tracks p) (p_tracks_by_cid p).
Definition set_p_tracks (v w : gmap string loc) (p : Participant) : Participant :=
  mkParticipant (p_sid p) (p_identity p) (p_name p) (p_metadata p) (p_attributes p) (p_kind p)
    (p_joined_at_ms p) (p_client_protocol p) (p_is_publisher p) (p_permission p)
    (p_auto_subscribe p) (p_state p) (p_version p) (p_disconnected_reason p) (p_resume_gen p)
    (p_tx p) (p_room p) v w.
Definition set_p_meta (name metadata : string) (p : Participant) : Participant :=
  mkParticipant (p_sid p) (p_identity p) name metadata (p_attributes p) (p_kind p)
    (p_joined_at_ms p) (p_client_protocol p) (p_is_publisher p) (p_permission p)
    (p_auto_subscribe p) (p_state p) (p_version p) (p_disconnected_reason p) (p_resume_gen p)
    (p_tx p) (p_room p) (p_tracks p) (p_tracks_by_cid p).
Definition set_p_attributes (v : gmap string string) (p : Participant) : Participant :=
  mkParticipant (p_sid p) (p_identity p) (p_name p) (p_metadata p) v (p_kind p)
    (p_joined_at_ms p) (p_client_protocol p) (p_is_publisher p) (p_permission p)
    (p_auto_subscribe p) (p_state p) (p_version p) (p_disconnected_reason p) (p_resume_gen p)
    (p_tx p) (p_room p) (p_tracks p) (p_tracks_by_cid p).
Definition set_p_permission (v : ParticipantPermission) (p : Participant) : Participant :=
  mkParticipant (p_sid p) (p_identity p) (p_name p) (p_metadata p) (p_attributes p) (p_kind p)
    (p_joined_at_ms p) (p_client_protocol p) (p_is_publisher p) v
    (p_auto_subscribe p) (p_state p) (p_version p) (p_disconnected_reason p) (p_resume_gen p)
    (p_tx p) (p_room p) (p_tracks p) (p_tracks_by_cid p).
Definition set_p_auto_subscribe (v : bool) (p : Participant) : Participant :=
  mkParticipant (p_sid p) (p_identity p) (p_name p) (p_metadata p) (p_attributes p) (p_kind p)
    (p_joined_at_ms p) (p_client_protocol p) (p_is_publisher p) (p_permission p)
    v (p_state p) (p_version p) (p_disconnected_reason p) (p_resume_gen p)
    (p_tx p) (p_room p) (p_tracks p) (p_tracks_by_cid p).

(** * Operations *)

Definition attach_room (r : loc) (p : Participant) : Participant := set_p_room (Some r) p.

(** [state()]: the stored byte read back. *)
Definition state (p : Participant) : ParticipantState :=
  match p_state p with 1 => Joined | 2 => Active | 3 => Disconnected | _ => Joining end.

(** [set_state], run alone; [Module SetState] has the interleavings. *)
Definition set_state (s : ParticipantState) (p : Participant) : Participant * bool :=
  if state_u8 s <=? p_state p then (p, false) else (set_p_state (state_u8 s) p, true).

Definition set_signal_sink (tx : loc) (p : Participant) : Participant * option loc :=
  (set_p_tx (Some tx) p, p_tx p).
Definition clear_signal_sink (p : Participant) : Participant := set_p_tx None p.

Definition is_disconnected (p : Participant) : bool := bool_decide (state p = Disconnected).

Definition session_age_ms (now : Z) (p : Participant) : Z := Z.quot now 1000 - p_joined_at_ms p.

Definition p_can_subscribe (p : Participant) : bool := can_subscribe (p_permission p).
Definition p_can_publish (p : Participant) : bool := can_publish (p_permission p).

Definition get_attribute (key : string) (p : Participant) : option string := p_attributes p !! key.

(** One entry of [set_attributes]: an empty value deletes. *)
Definition set_attribute (acc : gmap string string * bool) (kv : string * string)
  : gmap string string * bool :=
  let '(map, changed) := acc in
  let '(k, v) := kv in
  if (v =? "")%string
  then (delete k map, changed || bool_decide (is_Some (map !! k)))
  else (<[k := v]> map, changed || negb (bool_decide (map !! k = Some v))).

Definition set_attributes (attrs : gmap string string) (p : Participant) : Participant * bool :=
  let '(map, changed) := foldl set_attribute (p_attributes p, false) (btree_entries attrs) in
  (set_p_attributes map p, changed).

Definition update_metadata (metadata : string) (name : option string) (p : Participant)
  : Participant * bool :=
  let '(m, c1) :=
    if negb (metadata =? "")%string && negb (p_metadata p =? metadata)%string
    then (metadata, true) else (p_metadata p, false) in
  let '(n, c2) :=
    match name with
    | Some name =>
        if negb (name =? "")%string && negb (p_name p =? name)%string then (name, true) else (p_name p, c1)
    | None => (p_name p, c1)
    end in
  (set_p_meta n m p, c1 || c2).

Definition update_permission (perm : ParticipantPermission) (p : Participant) : Participant * bool :=
  if bool_decide (p_permission p = perm) then (p, false) else (set_p_permission perm p, true).

(** [add_track]: [t] is the location of a track with this sid and cid. *)
Definition add_track (sid cid : string) (t : loc) (p : Participant) : Participant :=
  set_p_tracks (<[sid := t]> (p_tracks p)) (<[cid := t]> (p_tracks_by_cid p)) p.

(** [remove_track]: the cid is read from the removed track. *)
Definition remove_track (heap : gmap loc PublishedTrack) (sid : string) (p : Participant)
  : Participant * option loc :=
  match p_tracks p !! sid with
  | Some t =>
      let by_cid := match heap !! t with
                    | Some tr => delete (t_cid tr) (p_tracks_by_cid p)
                    | None => p_tracks_by_cid p
                    end in
      (set_p_tracks (delete sid (p_tracks p)) by_cid p, Some t)
  | None => (p, None)
  end.

Definition get_track (sid : string) (p : Participant) : option loc := p_tracks p !! sid.
Definition get_track_by_cid (cid : string) (p : Participant) : option loc := p_tracks_by_cid p !! cid.
Definition tracks (p : Participant) : list loc := btree_values (p_tracks p).

Definition track_infos (heap : gmap loc PublishedTrack) (p : Participant) : list TrackInfo :=
  omap (fun t => track_to_proto <$> heap !! t) (tracks p).

(** [to_proto]: every serialization draws a version. *)
Definition participant_to_proto (heap : gmap loc PublishedTrack) (p : Participant)
  : Participant * ParticipantInfo :=
  let '(c, v) := next (p_version p) in
  (set_p_version c p,
   mkInfo (p_sid p) (p_identity p) (state_u8 (state p)) (track_infos heap p) (p_metadata p)
     (Z.quot (p_joined_at_ms p) 1000) (p_joined_at_ms p) (p_name p) v (Some (p_permission p))
     (p_is_publisher p) (kind_to_proto (p_kind p)) (p_attributes p) (p_disconnected_reason p)
     (p_client_protocol p)).

(** [permission_from_grant]. *)
Definition permission_from_grant (g : VideoGrant) : ParticipantPermission :=
  mkPermission
    (default true (vg_can_subscribe g))
    (default true (vg_can_publish g))
    (default (default true (vg_can_publish g)) (vg_can_publish_data g))
    ((fun s => source_to_proto (source_from_proto (source_from_str s))) <$> vg_can_publish_sources g)
    (vg_hidden g)
    (vg_recorder g)
    (default false (can_update_own_metadata g))
    (vg_agent g)
    (default false (vg_can_subscribe_metrics g))
    false.

(** * Concurrent state transitions *)

Module SetState.

(** A thread inside [set_state]: before the first load, about to compare and
    exchange with the value it last saw, or returned. *)
Inductive pc := Start (new : Z) | Loop (new prev : Z) | Done (new : Z) (result : bool).

(** One access to the shared byte: the load, or one turn of the loop. *)
Definition thread_step (s : Z) (t : pc) : option (Z * pc) :=
  match t with
  | Start new => Some (s, Loop new s)
  | Loop new prev =>
      if new <=? prev then Some (s, Done new false)
      else if s =? prev then Some (new, Done new true)
      else Some (s, Loop new s)
  | Done _ _ => None
  end.

(** The shared byte and the threads; a step advances one of them. *)
Definition sys := (Z * list pc)%type.
Inductive step : sys -> sys -> Prop :=
| step_thread s ts i t s' t' :
    ts !! i = Some t -> thread_step s t = Some (s', t') -> step (s, ts) (s', <[i := t']> ts).

Definition requested (t : pc) : Z := match t with Start n => n | Loop n _ => n | Done n _ => n end.
Definition finished (t : pc) : bool := match t with Done _ _ => true | _ => false end.

Definition thread_ok (s : Z) (t : pc) : Prop :=
  match t with Start n => True | Loop n prev => prev <= s | Done n _ => n <= s end.
Definition inv (s0 : Z) (news : list Z) (c : sys) : Prop :=
  s0 <= c.1 /\ Forall (thread_ok c.1) c.2 /\ requested <$> c.2 = news /\
  (c.1 = s0 \/ Done c.1 true ∈ c.2).

Lemma thread_step_mono s t s' t' :
  thread_ok s t -> thread_step s t = Some (s', t') ->
  s <= s' /\ thread_ok s' t' /\ requested t' = requested t /\ finished t = false /\
  (s' = s \/ (t' = Done s' true /\ s < s')).
Proof.
  intros Ho Hs. destruct t as [n|n prev|n b]; cbn in *; [injection Hs as <- <-; cbn; auto with lia| |done].
  destruct (Z.leb_spec n prev); [injection Hs as <- <-; cbn; auto with lia|].
  destruct (Z.eqb_spec s prev); injection Hs as <- <-; cbn; subst; repeat split; auto with lia.
Qed.

Lemma thread_ok_mono s s' t : s <= s' -> thread_ok s t -> thread_ok s' t.
Proof. destruct t; cbn; lia. Qed.

Lemma list_fmap_insert_same {A B} (f : A -> B) (l : list A) i x y :
  l !! i = Some x -> f y = f x -> f <$> <[i := y]> l = f <$> l.
Proof. intros Hl Hf. rewrite list_fmap_insert. apply list_insert_id. by rewrite list_lookup_fmap, Hl, Hf. Qed.

Lemma step_inv s0 news c c' : inv s0 news c -> step c c' -> inv s0 news c' /\ c.1 <= c'.1.
Proof.
  intros (Hb & Ht & Hr & Hw) Hst. destruct Hst as [s ts i t s' t' Hi Hs]. cbn [fst snd] in *.
  pose proof (Forall_lookup_1 _ _ _ _ Ht Hi) as Hok.
  destruct (thread_step_mono s t s' t' Hok Hs) as (Hm & Hok' & Hreq & Hf & Hcase).
  split; [|done]. split_and!; cbn [fst snd].
  - lia.
  - apply Forall_insert; [|done]. eapply Forall_impl; [exact Ht|]. intros x. by apply thread_ok_mono.
  - by rewrite (list_fmap_insert_same _ _ _ t).
  - pose proof (lookup_lt_Some _ _ _ Hi) as Hlt. destruct Hcase as [->|[-> _]].
    + destruct Hw as [->|Hd]; [by left|]. right. apply list_elem_of_lookup in Hd as [j Hj].
      apply list_elem_of_lookup. exists j. rewrite list_lookup_insert_ne; [done|].
      intros ->. rewrite Hi in Hj. injection Hj as ->. done.
    + right. apply list_elem_of_lookup. exists i. by rewrite list_lookup_insert_eq.
Qed.

Lemma reach_inv s0 news c :
  reach step (s0, Start <$> news) c -> inv s0 news c.
Proof.
  intros Hr. apply (reach_invariant step (inv s0 news) (s0, Start <$> news)); [| |exact Hr].
  - split_and!; cbn [fst snd]; [lia| | |by left].
    + apply Forall_fmap, Forall_forall. intros; exact I.
    + rewrite <- list_fmap_compose. apply list_fmap_id.
  - intros. by eapply step_inv.
Qed.

(** Turns a thread can still take: a failed exchange means another thread raised
    the byte, which has four values. *)
Definition fuel (t : pc) : nat :=
  match t with Start _ => 6 | Loop _ prev => Z.to_nat (5 - prev) | Done _ _ => 0 end.
Definition bounded (t : pc) : Prop :=
  match t with Start n => 0 <= n <= 3 | Loop n p => 0 <= n <= 3 /\ 0 <= p <= 3 | Done n _ => 0 <= n <= 3 end.

Lemma thread_step_fuel s t s' t' :
  0 <= s <= 3 -> bounded t -> thread_ok s t -> thread_step s t = Some (s', t') ->
  (fuel t' < fuel t)%nat /\ bounded t' /\ 0 <= s' <= 3.
Proof.
  intros Hs Hb Ho Ht. destruct t as [n|n prev|n b]; cbn in *; [injection Ht as <- <-; cbn; lia| |done].
  destruct (Z.leb_spec n prev); [injection Ht as <- <-; cbn; lia|].
  destruct (Z.eqb_spec s prev); injection Ht as <- <-; cbn; lia.
Qed.

Fixpoint total_fuel (ts : list pc) : nat :=
  match ts with [] => 0 | t :: ts' => fuel t + total_fuel ts' end.

Lemma sum_insert (l : list pc) i t t' :
  l !! i = Some t -> (fuel t' < fuel t)%nat -> (total_fuel (<[i := t']> l) < total_fuel l)%nat.
Proof.
  revert i. induction l as [|x l IH]; intros [|i] Hi Hf; try done.
  - injection Hi as ->. change (fuel t' + total_fuel l < fuel t + total_fuel l)%nat. lia.
  - specialize (IH i Hi Hf). change (fuel x + total_fuel (<[i := t']> l) < fuel x + total_fuel l)%nat. lia.
Qed.

Lemma steps_bounded n s0 news c :
  0 <= s0 <= 3 -> Forall (fun v => 0 <= v <= 3) news ->
  nsteps step n (s0, Start <$> news) c -> (n <= 6 * length news)%nat.
Proof.
  intros Hs0 Hn Hst.
  assert (forall n c c', nsteps step n c c' -> 0 <= c.1 <= 3 -> Forall bounded c.2 ->
            Forall (thread_ok c.1) c.2 -> (n <= total_fuel c.2)%nat) as Hgen.
  { clear. induction n as [|n IH]; intros c c' Hs Hc Hb Ho; [lia|].
    inversion Hs as [|? ? c1 ? H1 Hrest]; subst. destruct H1 as [s ts i t s' t' Hi Hts]. cbn [fst snd] in *.
    destruct (thread_step_fuel s t s' t' Hc) as (Hf & Hb' & Hs');
      [by eapply (Forall_lookup_1 bounded) | by eapply (Forall_lookup_1 (thread_ok s)) | done |].
    destruct (thread_step_mono s t s' t') as (Hm & Hok' & _); [by eapply (Forall_lookup_1 (thread_ok s))|done|].
    specialize (IH (s', <[i:=t']> ts) c' Hrest Hs'). cbn [fst snd] in IH.
    pose proof (sum_insert ts i t t' Hi Hf).
    assert (n <= total_fuel (<[i:=t']> ts))%nat; [|lia]. apply IH; apply Forall_insert; auto.
    eapply Forall_impl; [exact Ho|]. intros x. by apply thread_ok_mono. }
  specialize (Hgen n _ _ Hst Hs0). cbn [fst snd] in Hgen.
  assert (total_fuel (Start <$> news) = 6 * length news)%nat as <-.
  { clear. induction news as [|x l IH]; [done|]. change (fuel (Start x) + total_fuel (Start <$> l) = 6 * S (length l))%nat.
    rewrite IH. cbn [fuel]. lia. }
  apply Hgen; apply Forall_fmap; [|apply Forall_forall; intros; exact I].
  eapply Forall_impl; [exact Hn|]. done.
Qed.

End SetState.

Lemma foldr_max_ub s0 news v : v ∈ news -> v <= foldr Z.max s0 news.
Proof. induction 1 as [|? ? ? _ IH]; cbn; lia. Qed.

Lemma foldr_max_cases s0 news : foldr Z.max s0 news = s0 \/ foldr Z.max s0 news ∈ news.
Proof.
  induction news as [|x l IH]; cbn; [by left|].
  destruct (Z.max_spec x (foldr Z.max s0 l)) as [[_ ->]|[_ ->]].
  - destruct IH as [IH|IH]; [by left|right; by constructor].
  - right. constructor.
Qed.

Lemma foldr_max_lb s0 news : s0 <= foldr Z.max s0 news.
Proof. induction news; cbn; lia. Qed.

Lemma finished_max s0 news c :
  SetState.inv s0 news c -> forallb SetState.finished c.2 = true -> c.1 = foldr Z.max s0 news.
Proof.
  intros (Hb & Ht & Hr & Hw) Hf.
  assert (Forall (fun n => n <= c.1) news) as Hup.
  { rewrite <- Hr. apply Forall_fmap. apply Forall_forall. intros t Hin.
    rewrite Forall_forall in Ht. specialize (Ht t Hin).
    assert (SetState.finished t = true) as Hd.
    { rewrite forallb_forall in Hf. apply Hf. by apply list_elem_of_In. }
    destruct t; try done. }
  apply Z.le_antisymm.
  - destruct Hw as [->|Hd]; [apply foldr_max_lb|]. apply foldr_max_ub. rewrite <- Hr.
    apply list_elem_of_fmap. by exists (SetState.Done c.1 true).
  - destruct (foldr_max_cases s0 news) as [->|Hin]; [done|]. rewrite Forall_forall in Hup. by apply Hup.
Qed.

(** C17: concurrent state transitions.  Whatever the interleaving of any number of
    [set_state] calls on one participant, the state never goes back, a step is
    possible until every call has returned, and when all have returned the state is
    the latest of the initial and the requested ones: the same as running the
    calls one after the other in any order. *)
Theorem concurrent_set_state s0 news c :
  reach SetState.step (s0, SetState.Start <$> news) c ->
  (forall c', SetState.step c c' -> c.1 <= c'.1) /\
  (forallb SetState.finished c.2 = false -> exists c', SetState.step c c') /\
  (forallb SetState.finished c.2 = true -> c.1 = foldr Z.max s0 news).
Proof.
  intros Hr. pose proof (SetState.reach_inv s0 news c Hr) as Hi. split_and!.
  - intros c' Hs. by eapply SetState.step_inv.
  - intros Hf. destruct c as [s ts]. cbn [snd] in Hf.
    induction ts as [|t ts IH] using rev_ind; [done|]. clear IH Hi Hr.
    assert (exists i t0, (ts ++ [t]) !! i = Some t0 /\ SetState.finished t0 = false) as (i & t0 & Hl & Hd).
    { clear -Hf. induction (ts ++ [t]) as [|x l IH]; [done|]. cbn in Hf.
      destruct (SetState.finished x) eqn:E; [|by exists 0%nat, x].
      destruct (IH Hf) as (i & t0 & Hl & Hd). by exists (S i), t0. }
    destruct (SetState.thread_step s t0) as [[s' t']|] eqn:Es.
    + eexists. econstructor; eauto.
    + destruct t0; cbn in Es; try done. repeat case_match; done.
  - by apply finished_max.
Qed.

Lemma concurrent_set_state_witness :
  reach SetState.step (0, SetState.Start <$> [3; 1]) (3, [SetState.Done 3 true; SetState.Done 1 false])
  /\ 3 = foldr Z.max 0 [3; 1].
Proof.
  assert (reach SetState.step (0, SetState.Start <$> [3; 1]) (3, [SetState.Done 3 true; SetState.Done 1 false])) as Hr.
  { assert (forall s ts s' ts' i t st, ts !! i = Some t -> SetState.thread_step s t = Some (s', st) -> ts' = <[i:=st]> ts -> SetState.step (s, ts) (s', ts')) as Hst.
    { intros; subst; by econstructor. }
    eapply reach_step; [eapply reach_step; [eapply reach_step; [eapply reach_step; [eapply reach_step; [apply reach_init|]|]|]|]|].
    - by apply (Hst _ _ 0 [SetState.Loop 3 0; SetState.Start 1] 0%nat (SetState.Start 3) (SetState.Loop 3 0)).
    - by apply (Hst _ _ 0 [SetState.Loop 3 0; SetState.Loop 1 0] 1%nat (SetState.Start 1) (SetState.Loop 1 0)).
    - by apply (Hst _ _ 3 [SetState.Done 3 true; SetState.Loop 1 0] 0%nat (SetState.Loop 3 0) (SetState.Done 3 true)).
    - by apply (Hst _ _ 3 [SetState.Done 3 true; SetState.Loop 1 3] 1%nat (SetState.Loop 1 0) (SetState.Loop 1 3)).
    - by apply (Hst _ _ 3 [SetState.Done 3 true; SetState.Done 1 false] 1%nat (SetState.Loop 1 3) (SetState.Done 1 false)). }
  split; [exact Hr|]. destruct (concurrent_set_state 0 [3; 1] _ Hr) as (_ & _ & H). apply H. reflexivity.
Defined.

(** The exchange loop terminates.  With the four participant states, any
    interleaving of [k] calls takes at most [6 k] accesses to the state byte: a
    failed exchange means that another call raised the state. *)
Theorem set_state_terminates n s0 news c :
  0 <= s0 <= 3 -> Forall (fun v => 0 <= v <= 3) news ->
  nsteps SetState.step n (s0, SetState.Start <$> news) c -> (n <= 6 * length news)%nat.
Proof. apply SetState.steps_bounded. Qed.

Lemma set_state_terminates_witness : (1 <= 6 * length [2%Z])%nat.
Proof.
  apply (set_state_terminates 1 0 [2] (0, [SetState.Loop 2 0])); [lia | repeat constructor; lia |].
  apply nsteps_once. by apply (SetState.step_thread 0 [SetState.Start 2] 0%nat (SetState.Start 2)).
Defined.

(** * Attributes *)

(** What an entry asks a key to become. *)
Definition attr_target (v : string) : option string := if (v =? "")%string then None else Some v.

Lemma set_attribute_lookup m c k v j :
  (set_attribute (m, c) (k, v)).1 !! j = if decide (j = k) then attr_target v else m !! j.
Proof.
  unfold set_attribute, attr_target. destruct (_ =? _)%string; cbn; destruct (decide (j = k)) as [->|].
  - apply lookup_delete_eq.
  - by apply lookup_delete_ne.
  - apply lookup_insert_eq.
  - by apply lookup_insert_ne.
Qed.

Lemma set_attribute_changed m c k v :
  (set_attribute (m, c) (k, v)).2 = c || negb (bool_decide (m !! k = attr_target v)).
Proof.
  unfold set_attribute, attr_target. destruct (_ =? _)%string; cbn; [|done]. f_equal.
  destruct (m !! k); [|done]. by rewrite bool_decide_true by eauto.
Qed.

Lemma set_attribute_fold l : NoDup l.*1 -> forall m c m' c',
  foldl set_attribute (m, c) l = (m', c') ->
  (forall k, m' !! k = match (list_to_map l : gmap string string) !! k with
                       | Some v => attr_target v
                       | None => m !! k
                       end) /\
  (c' = true <-> c = true \/ m' <> m).
Proof.
  induction l as [|[k v] l IH]; intros Hnd m c m' c' Hf; cbn [foldl] in Hf.
  - injection Hf as <- <-. split; [done|]. split; [by left|]. by intros [|].
  - apply NoDup_cons in Hnd as [Hk Hnd].
    destruct (set_attribute (m, c) (k, v)) as [m1 c1] eqn:E1.
    pose proof (set_attribute_lookup m c k v) as Hl1. pose proof (set_attribute_changed m c k v) as Hc1.
    rewrite E1 in Hl1, Hc1. cbn [fst snd] in Hl1, Hc1.
    destruct (IH Hnd m1 c1 m' c' Hf) as [Hl Hc].
    assert ((list_to_map l : gmap string string) !! k = None) as Hkn by (by apply not_elem_of_list_to_map_1).
    assert (m' !! k = attr_target v) as Hmk.
    { rewrite Hl, Hkn, Hl1. by rewrite decide_True. }
    assert (forall j, j <> k -> m1 !! j = m !! j) as Hne by (intros j Hj; rewrite Hl1; by rewrite decide_False).
    split.
    + intros j. rewrite list_to_map_cons. destruct (decide (j = k)) as [->|Hj].
      * by rewrite lookup_insert_eq.
      * rewrite lookup_insert_ne by done. rewrite Hl. by rewrite Hne.
    + rewrite Hc, Hc1. destruct (bool_decide_reflect (m !! k = attr_target v)) as [Heq|Hneq].
      * assert (m1 = m) as ->.
        { apply map_eq. intros j. destruct (decide (j = k)) as [->|]; [|by apply Hne].
          rewrite Hl1, decide_True by done. done. }
        rewrite orb_false_r. done.
      * rewrite orb_true_r. split; [|by left]. intros _. right. intros ->. done.
Qed.

Lemma btree_entries_nodup {A} (m : gmap string A) : NoDup (btree_entries m).*1.
Proof. rewrite btree_entries_perm. apply NoDup_fst_map_to_list. Qed.

Lemma btree_entries_to_map {A} (m : gmap string A) : list_to_map (btree_entries m) = m.
Proof.
  rewrite (list_to_map_proper _ (map_to_list m)); [apply list_to_map_to_list| |apply btree_entries_perm].
  apply btree_entries_nodup.
Qed.

(** Attribute updates.  An entry with a value sets it, an entry with an empty
    value removes the attribute, every other attribute is kept, and the returned
    flag is true exactly when the attribute map changed. *)
Theorem set_attributes_spec attrs p :
  let '(p', changed) := set_attributes attrs p in
  (forall k, get_attribute k p' =
     match attrs !! k with
     | Some v => if (v =? "")%string then None else Some v
     | None => get_attribute k p
     end) /\
  (changed = true <-> p_attributes p' <> p_attributes p).
Proof.
  unfold set_attributes, get_attribute.
  destruct (foldl set_attribute _ _) as [m c] eqn:E.
  destruct (set_attribute_fold _ (btree_entries_nodup attrs) _ _ _ _ E) as [Hl Hc].
  cbn [p_attributes set_p_attributes]. rewrite btree_entries_to_map in Hl. split; [exact Hl|].
  rewrite Hc. split; [intros [|]; done|]. by right.
Qed.

(** * Track maps *)

(** Each map entry names a live track under its own sid or cid, and a track that
    can be found by cid can be found by sid. *)
Definition wf_tracks (heap : gmap loc PublishedTrack) (p : Participant) : Prop :=
  (forall sid t, p_tracks p !! sid = Some t -> exists tr, heap !! t = Some tr /\ t_sid tr = sid) /\
  (forall cid t, p_tracks_by_cid p !! cid = Some t ->
     exists tr, heap !! t = Some tr /\ t_cid tr = cid /\ p_tracks p !! t_sid tr = Some t).

Lemma add_track_wf heap p t tr :
  wf_tracks heap p -> heap !! t = Some tr -> p_tracks p !! t_sid tr = None ->
  wf_tracks heap (add_track (t_sid tr) (t_cid tr) t p).
Proof.
  intros [Hs Hc] Ht Hf. split; cbn.
  - intros sid t' [[<- <-]|[_ H]]%lookup_insert_Some; eauto.
  - intros cid t' [[<- <-]|[_ H]]%lookup_insert_Some.
    + exists tr. by rewrite lookup_insert_eq.
    + destruct (Hc _ _ H) as (tr' & Ht' & <- & Hp). exists tr'. split_and!; [done..|].
      rewrite lookup_insert_ne; [done|]. congruence.
Qed.

Lemma remove_track_wf heap sid p :
  wf_tracks heap p -> wf_tracks heap (remove_track heap sid p).1.
Proof.
  intros [Hs Hc]. unfold remove_track. destruct (p_tracks p !! sid) as [t|] eqn:E; [|done].
  destruct (Hs _ _ E) as (tr & Ht & Hsid). rewrite Ht. split; cbn.
  - intros sid' t' [_ H]%lookup_delete_Some. eauto.
  - intros cid t' [Hne H]%lookup_delete_Some. destruct (Hc _ _ H) as (tr' & Ht' & <- & Hp).
    exists tr'. split_and!; [done..|]. rewrite lookup_delete_ne; [done|]. intros Heq.
    rewrite <- Heq in Hp. congruence.
Qed.

(** Adding a track and removing it again: the maps lose exactly that track, also
    when another track with the same client id is published. *)
Lemma remove_track_found heap sid p t :
  p_tracks p !! sid = Some t ->
  (remove_track heap sid p).2 = Some t /\ get_track sid (remove_track heap sid p).1 = None /\
  forall sid', sid' <> sid -> get_track sid' (remove_track heap sid p).1 = get_track sid' p.
Proof.
  intros E. unfold remove_track, get_track. rewrite E. cbn. split_and!; [done|apply lookup_delete_eq|].
  intros. by rewrite lookup_delete_ne.
Qed.

(** Two tracks under one client id: removing the older one leaves the newer one
    published but no longer reachable by its client id. *)
Example remove_track_loses_shared_cid :
  let tr s := PublishedTrack_new 0 s "mic" "cid" Microphone "" in
  let heap : gmap loc PublishedTrack := {[1%nat := tr "TR_1"; 2%nat := tr "TR_2"]} in
  let p0 := Participant_new 0 "PA_1" "a" "" "" Standard in
  let p := add_track "TR_2" "cid" 2%nat (add_track "TR_1" "cid" 1%nat p0) in
  let p' := (remove_track heap "TR_1" p).1 in
  get_track "TR_2" p' = Some 2%nat /\ get_track_by_cid "cid" p' = None.
Proof. split; reflexivity. Qed.

(** ** Permissions of a token *)

Lemma permission_range g : Forall (fun v => 0 <= v <= 4) (can_publish_sources (permission_from_grant g)).
Proof.
  cbn. apply Forall_fmap, Forall_forall. intros s _. cbn.
  unfold source_from_str. repeat case_goal; cbn; lia.
Qed.

(** A revoked grant stays revoked from the claims to the participant.  When the
    video claim carries [canPublish: false] (or [can_publish] when the first
    spelling is absent), the participant may not publish, and may not publish data
    either unless the token sets that permission itself; sources are always among
    the five wire values. *)
Theorem revoked_publish_permission key claims v :
  or_else (vget "video" claims) (vget "vid" claims) = Some (VObj v) ->
  or_else (vget "canPublish" (VObj v)) (vget "can_publish" (VObj v)) = Some (VBool false) ->
  let perm := permission_from_grant (video (parse_claims key claims)) in
  can_publish perm = false /\
  (or_else (vget "canPublishData" (VObj v)) (vget "can_publish_data" (VObj v)) = None ->
   can_publish_data perm = false) /\
  Forall (fun s => 0 <= s <= 4) (can_publish_sources perm).
Proof.
  intros Hv Hp. cbn zeta.
  assert (video (parse_claims key claims) = parse_video (VObj v)) as ->.
  { unfold parse_claims. rewrite Hv. done. }
  assert (forall a b, get_optional_bool (VObj v) [a; b] = or_else (vget a (VObj v)) (vget b (VObj v)) ≫= as_bool) as Hob.
  { intros a b. cbn [get_optional_bool]. destruct (vget a (VObj v)); [done|]. by destruct (vget b (VObj v)). }
  split_and!; [| |apply permission_range]; cbn [permission_from_grant can_publish can_publish_data parse_video vg_can_publish vg_can_publish_data].
  - rewrite Hob, Hp. done.
  - intros Hd. rewrite !Hob, Hd, Hp. done.
Qed.

Lemma revoked_publish_permission_witness :
  can_publish (permission_from_grant (video (parse_claims "k"
    (VObj [("sub", VStr "a"); ("video", VObj [("can_publish", VBool false); ("room", VStr "r")])])))) = false.
Proof.
  refine (proj1 (revoked_publish_permission "k" (VObj [("sub", VStr "a"); ("video", VObj [("can_publish", VBool false); ("room", VStr "r")])])
    [("can_publish", VBool false); ("room", VStr "r")] _ _)); reflexivity.
Defined.

(** A non-boolean value for the first spelling hides the second one and counts as
    unset, that is as allowed. *)
Example non_boolean_grant_is_unset :
  can_publish (permission_from_grant (video (parse_claims "k"
    (VObj [("video", VObj [("canPublish", VStr "false"); ("can_publish", VBool false)])])))) = true.
Proof. reflexivity. Qed.
