(* ===== verification/Room.v ===== *)
(** Rooms, [crates/lk-server/src/room.rs], over the shared store of the server.

    [World] is the memory the signaling plane shares: the heaps of tracks,
    participants and rooms (objects behind an [Arc], by location), the outbound
    channels, the room table of [server.rs] and the trace of calls that leave the
    signaling plane (webhooks, media plane, agents, cluster, gauges).  An operation
    of the source is a function on the world; the locks it takes make it atomic
    except where the source releases them between two accesses, which
    [Module JoinRace] models.  [HashMap] iteration order is unspecified in the
    source; the model fixes one and no theorem depends on it. *)
From Stdlib Require Import ZArith Lia Ascii String.
From stdpp Require Import base gmap strings list option.
From S2P Require Import Prelude RustStr Core Track Auth Proto Participant.

Open Scope string_scope.
Open Scope list_scope.
Open Scope Z_scope.

(** * State *)

Record Room := mkRoom {
  r_sid : string;
  r_name : string;
  r_metadata : string;
  r_empty_timeout : Z;
  r_departure_timeout : Z;
  r_max_participants : Z;
  r_creation_time_ms : Z;
  r_version : TimedVersion;
  r_active_recording : bool;
  r_agents : list RoomAgentDispatch;
  r_launched_agents : gset string;
  r_closed : bool;
  r_participants : gmap string loc;
  r_on_close : bool;
  r_empty_since : option Z;
  r_ever_joined : bool
}.

(** [Room::new]: the limits come from the configuration, or are (300, 20, 0) when
    the context is gone. *)
Definition Room_new (now : Z) (sid name : string) (limits : option (Z * Z * Z)) : Room :=
  let '(et, dt, mp) := default (300, 20, 0) limits in
  mkRoom sid name "" et dt mp (Z.quot now 1000) (TimedVersion_new now) false [] ∅ false ∅ false None false.

(** An [mpsc] channel: what is queued and whether the receiver is still there. *)
Record Chan := mkChan { c_queue : list SignalResponse; c_open : bool }.

(** Calls out of the signaling plane. *)
Inductive Event :=
| EvTerminateRoomJobs (room : string)
| EvReleaseRoom (room : string)
| EvCloseMedia (sid : string)
| EvParticipantTotal (delta : Z)
| EvRoomTotal (delta : Z)
| EvRoomStarted (room : RoomInfo)
| EvRoomFinished (room : RoomInfo)
| EvParticipantJoined (room : RoomInfo) (p : ParticipantInfo)
| EvParticipantLeft (room : RoomInfo) (p : ParticipantInfo)
| EvTrackPublished (room : RoomInfo) (p : ParticipantInfo) (t : TrackInfo)
| EvTrackUnpublished (room : RoomInfo) (p : ParticipantInfo) (t : TrackInfo)
| EvSubscribe (subscriber track publisher : string)
| EvUnsubscribe (subscriber track : string)
| EvNegotiate (sid : string)
| EvData (target : string) (packet : DataPacket)
| EvLaunchPendingDispatches (room : string).

Record World := mkWorld {
  w_now : Z;
  w_tracks : gmap loc PublishedTrack;
  w_parts : gmap loc Participant;
  w_rooms : gmap loc Room;
  w_chans : gmap loc Chan;
  w_table : gmap string loc;
  w_speakers : gmap string string;
  w_trace : list Event
}.

(** ** Updates *)

Definition set_parts (m : gmap loc Participant) (w : World) : World :=
  mkWorld (w_now w) (w_tracks w) m (w_rooms w) (w_chans w) (w_table w) (w_speakers w) (w_trace w).
Definition set_rooms (m : gmap loc Room) (w : World) : World :=
  mkWorld (w_now w) (w_tracks w) (w_parts w) m (w_chans w) (w_table w) (w_speakers w) (w_trace w).
Definition set_tracks (m : gmap loc PublishedTrack) (w : World) : World :=
  mkWorld (w_now w) m (w_parts w) (w_rooms w) (w_chans w) (w_table w) (w_speakers w) (w_trace w).
Definition set_chans (m : gmap loc Chan) (w : World) : World :=
  mkWorld (w_now w) (w_tracks w) (w_parts w) (w_rooms w) m (w_table w) (w_speakers w) (w_trace w).
Definition set_table (m : gmap string loc) (w : World) : World :=
  mkWorld (w_now w) (w_tracks w) (w_parts w) (w_rooms w) (w_chans w) m (w_speakers w) (w_trace w).
Definition set_speakers (m : gmap string string) (w : World) : World :=
  mkWorld (w_now w) (w_tracks w) (w_parts w) (w_rooms w) (w_chans w) (w_table w) m (w_trace w).
Definition set_now (t : Z) (w : World) : World :=
  mkWorld t (w_tracks w) (w_parts w) (w_rooms w) (w_chans w) (w_table w) (w_speakers w) (w_trace w).
Definition emit (e : Event) (w : World) : World :=
  mkWorld (w_now w) (w_tracks w) (w_parts w) (w_rooms w) (w_chans w) (w_table w) (w_speakers w)
    (w_trace w ++ [e]).

Definition upd_part (pl : loc) (f : Participant -> Participant) (w : World) : World :=
  set_parts (alter f pl (w_parts w)) w.
Definition upd_room (r : loc) (f : Room -> Room) (w : World) : World :=
  set_rooms (alter f r (w_rooms w)) w.

(** [unix_millis()]. *)
Definition millis (w : World) : Z := Z.quot (w_now w) 1000.

Definition set_r_participants (m : gmap string loc) (r : Room) : Room :=
  mkRoom (r_sid r) (r_name r) (r_metadata r) (r_empty_timeout r) (r_departure_timeout r)
    (r_max_participants r) (r_creation_time_ms r) (r_version r) (r_active_recording r) (r_agents r)
    (r_launched_agents r) (r_closed r) m (r_on_close r) (r_empty_since r) (r_ever_joined r).
Definition set_r_joined (es : option Z) (ej : bool) (r : Room) : Room :=
  mkRoom (r_sid r) (r_name r) (r_metadata r) (r_empty_timeout r) (r_departure_timeout r)
    (r_max_participants r) (r_creation_time_ms r) (r_version r) (r_active_recording r) (r_agents r)
    (r_launched_agents r) (r_closed r) (r_participants r) (r_on_close r) es ej.
Definition set_r_closed (b : bool) (r : Room) : Room :=
  mkRoom (r_sid r) (r_name r) (r_metadata r) (r_empty_timeout r) (r_departure_timeout r)
    (r_max_participants r) (r_creation_time_ms r) (r_version r) (r_active_recording r) (r_agents r)
    (r_launched_agents r) b (r_participants r) (r_on_close r) (r_empty_since r) (r_ever_joined r).
Definition set_on_close (b : bool) (r : Room) : Room :=
  mkRoom (r_sid r) (r_name r) (r_metadata r) (r_empty_timeout r) (r_departure_timeout r)
    (r_max_participants r) (r_creation_time_ms r) (r_version r) (r_active_recording r) (r_agents r)
    (r_launched_agents r) (r_closed r) (r_participants r) b (r_empty_since r) (r_ever_joined r).
Definition set_r_meta (m : string) (v : TimedVersion) (r : Room) : Room :=
  mkRoom (r_sid r) (r_name r) m (r_empty_timeout r) (r_departure_timeout r)
    (r_max_participants r) (r_creation_time_ms r) v (r_active_recording r) (r_agents r)
    (r_launched_agents r) (r_closed r) (r_participants r) (r_on_close r) (r_empty_since r) (r_ever_joined r).
Definition set_r_limits (et dt mp : Z) (r : Room) : Room :=
  mkRoom (r_sid r) (r_name r) (r_metadata r) et dt mp (r_creation_time_ms r) (r_version r)
    (r_active_recording r) (r_agents r) (r_launched_agents r) (r_closed r) (r_participants r)
    (r_on_close r) (r_empty_since r) (r_ever_joined r).
Definition set_r_agents (a : list RoomAgentDispatch) (l : gset string) (r : Room) : Room :=
  mkRoom (r_sid r) (r_name r) (r_metadata r) (r_empty_timeout r) (r_departure_timeout r)
    (r_max_participants r) (r_creation_time_ms r) (r_version r) (r_active_recording r) a l
    (r_closed r) (r_participants r) (r_on_close r) (r_empty_since r) (r_ever_joined r).

(** * Operations on one room *)

Definition bump_version (now : Z) (r : Room) : Room := set_r_meta (r_metadata r) (bump now (r_version r)) r.

Definition room_update_metadata (now : Z) (m : string) (r : Room) : Room * bool :=
  if (r_metadata r =? m)%string then (r, false)
  else (bump_version now (set_r_meta m (r_version r) r), true).

Definition set_empty_timeout (v : Z) (r : Room) : Room :=
  set_r_limits v (r_departure_timeout r) (r_max_participants r) r.
Definition set_departure_timeout (v : Z) (r : Room) : Room :=
  set_r_limits (r_empty_timeout r) v (r_max_participants r) r.
Definition set_max_participants (v : Z) (r : Room) : Room :=
  set_r_limits (r_empty_timeout r) (r_departure_timeout r) v r.

(** [format!("{}\0{}", agent_name, metadata)]. *)
Definition dispatch_key (d : RoomAgentDispatch) : string :=
  agent_name d +:+ String zero (d_metadata d).

Definition add_agent_dispatch (d : RoomAgentDispatch) (r : Room) : Room * bool :=
  if existsb (fun a => (dispatch_key a =? dispatch_key d)%string) (r_agents r) then (r, false)
  else (set_r_agents (r_agents r ++ [d]) (r_launched_agents r) r, true).
Definition mark_dispatch_launched (key : string) (r : Room) : Room :=
  set_r_agents (r_agents r) ({[key]} ∪ r_launched_agents r) r.
Definition was_dispatch_launched (key : string) (r : Room) : bool :=
  bool_decide (key ∈ r_launched_agents r).

(** * Operations on the world *)

(** The participants of a room: locations, and the objects at them. *)
Definition members (r : Room) : list loc := (map_to_list (r_participants r)).*2.
Definition parts_of (w : World) (r : Room) : list Participant := omap (fun l => w_parts w !! l) (members r).

Definition non_dependent (p : Participant) : bool := negb (is_dependent (p_kind p)).
Definition count_non_dependent (w : World) (r : Room) : nat :=
  length (filter (fun p => non_dependent p = true) (parts_of w r)).

Definition is_full (w : World) (r : Room) : bool :=
  if r_max_participants r =? 0 then false
  else r_max_participants r <=? Z.of_nat (count_non_dependent w r).

Definition has_non_dependent (w : World) (r : Room) : bool := existsb non_dependent (parts_of w r).

Definition get_participant (sid : string) (r : Room) : option loc := r_participants r !! sid.

Definition has_identity (w : World) (identity : string) (l : loc) : bool :=
  match w_parts w !! l with Some p => (p_identity p =? identity)%string | None => false end.

(** [values().find(|p| p.identity == identity)]. *)
Definition get_participant_by_identity (w : World) (identity : string) (r : Room) : option loc :=
  snd <$> list_find (fun l => has_identity w identity l = true) (members r).

(** ** Sending *)

(** [send_update]: [try_send] drops when the channel is full or closed. *)
Definition send_update (pl : loc) (resp : SignalResponse) (w : World) : World * bool :=
  match w_parts w !! pl ≫= p_tx with
  | None => (w, false)
  | Some c =>
      match w_chans w !! c with
      | Some ch =>
          if c_open ch && (length (c_queue ch) <? SIGNAL_CHANNEL_CAPACITY)%nat
          then (set_chans (<[c := mkChan (c_queue ch ++ [resp]) (c_open ch)]> (w_chans w)) w, true)
          else (w, false)
      | None => (w, false)
      end
  end.

(** [send]: waits for capacity, so the message joins the line of an open channel. *)
Definition send (pl : loc) (resp : SignalResponse) (w : World) : World * bool :=
  match w_parts w !! pl ≫= p_tx with
  | None => (w, false)
  | Some c =>
      match w_chans w !! c with
      | Some ch =>
          if c_open ch
          then (set_chans (<[c := mkChan (c_queue ch ++ [resp]) (c_open ch)]> (w_chans w)) w, true)
          else (w, false)
      | None => (w, false)
      end
  end.

Definition send_all (targets : list loc) (resp : SignalResponse) (w : World) : World :=
  foldl (fun w l => (send_update l resp w).1) w targets.

(** ** Serialization *)

Definition num_participants (r : Room) : Z := Z.of_nat (size (r_participants r)).
Definition num_publishers (w : World) (r : Room) : Z :=
  Z.of_nat (length (filter (fun p => p_is_publisher p = true) (parts_of w r))).

Definition room_to_proto (w : World) (r : Room) : RoomInfo :=
  mkRoomInfo (r_sid r) (r_name r) (r_empty_timeout r) (r_departure_timeout r) (r_max_participants r)
    (Z.quot (r_creation_time_ms r) 1000) (r_creation_time_ms r) (r_metadata r)
    (wrap_u 32 (num_participants r)) (wrap_u 32 (num_publishers w r)) (r_active_recording r) (r_version r).

(** [participant.to_proto()] on a shared participant: the version it draws stays
    drawn. *)
Definition info_of (pl : loc) (w : World) : World * option ParticipantInfo :=
  match w_parts w !! pl with
  | Some p => let '(p', i) := participant_to_proto (w_tracks w) p in
              (set_parts (<[pl := p']> (w_parts w)) w, Some i)
  | None => (w, None)
  end.

(** ** Broadcasts *)

Definition sid_of (w : World) (l : loc) : option string := p_sid <$> w_parts w !! l.

Definition info_hidden (i : ParticipantInfo) : bool :=
  match pi_permission i with Some p => hidden p | None => false end.

Definition hidden_sids (infos : list ParticipantInfo) : gset string :=
  list_to_set (pi_sid <$> filter (fun i => info_hidden i = true) infos).
Definition hidden_only (infos : list ParticipantInfo) : bool :=
  negb (bool_decide (hidden_sids infos = ∅)) && (size (hidden_sids infos) =? length infos)%nat.

(** [broadcast_participant_update]: who receives it. *)
Definition update_target (w : World) (infos : list ParticipantInfo) (except : option string) (l : loc) : bool :=
  match sid_of w l with
  | Some sid =>
      negb (bool_decide (except = Some sid)) &&
      (negb (hidden_only infos) || bool_decide (sid ∈ hidden_sids infos))
  | None => false
  end.
Definition update_targets (w : World) (r : Room) (infos : list ParticipantInfo) (except : option string)
  : list loc := filter (fun l => update_target w infos except l = true) (members r).

Definition broadcast_participant_update (rl : loc) (infos : list ParticipantInfo) (except : option string)
  (w : World) : World :=
  match w_rooms w !! rl with
  | Some r => send_all (update_targets w r infos except) (RUpdate infos) w
  | None => w
  end.

Definition broadcast_room_update (rl : loc) (w : World) : World :=
  match w_rooms w !! rl with
  | Some r => send_all (members r) (RRoomUpdate (room_to_proto w r)) w
  | None => w
  end.

(** [broadcast_data]. *)
Definition broadcast_data (rl : loc) (packet : DataPacket) (destinations : list string) (w : World) : World :=
  match w_rooms w !! rl with
  | Some r =>
      foldl (fun w l =>
        match w_parts w !! l with
        | Some p =>
            if bool_decide (destinations = []) || existsb (fun d => (d =? p_identity p)%string) destinations
            then emit (EvData (p_sid p) packet) w else w
        | None => w
        end) w (members r)
  | None => w
  end.

(** ** Membership *)

(** The part of [join] before the participant lock is taken. *)
Definition join_check (w : World) (rl pl : loc) : bool :=
  match w_rooms w !! rl, w_parts w !! pl with
  | Some r, Some p => negb (r_closed r) && negb (non_dependent p && is_full w r)
  | _, _ => false
  end.

(** The part under the lock, and the updates after it. *)
Definition join_insert (rl pl : loc) (w : World) : World * bool :=
  match w_rooms w !! rl, w_parts w !! pl with
  | Some r, Some p =>
      if existsb (fun q => (p_identity q =? p_identity p)%string) (parts_of w r) then (w, false)
      else
        let r := set_r_participants (<[p_sid p := pl]> (r_participants r)) r in
        let r := if non_dependent p then set_r_joined None true r else r in
        let r := bump_version (w_now w) r in
        (upd_part pl (attach_room rl) (set_rooms (<[rl := r]> (w_rooms w)) w), true)
  | _, _ => (w, false)
  end.

Definition join (rl pl : loc) (w : World) : World * bool :=
  if join_check w rl pl then join_insert rl pl w else (w, false).

Definition remove_participant (rl : loc) (sid : string) (w : World) : World * option loc :=
  match w_rooms w !! rl with
  | Some r =>
      match r_participants r !! sid with
      | Some pl =>
          let r := bump_version (w_now w) (set_r_participants (delete sid (r_participants r)) r) in
          let r := if bool_decide (r_participants r = ∅)
                   then set_r_joined (Some (millis w)) (r_ever_joined r) r else r in
          (set_rooms (<[rl := r]> (w_rooms w)) w, Some pl)
      | None => (w, None)
      end
  | None => (w, None)
  end.

Definition on_participant_left (rl : loc) (w : World) : World :=
  match w_rooms w !! rl with
  | Some r =>
      if has_non_dependent w r then w
      else match r_empty_since r with
           | Some _ => w
           | None => set_rooms (<[rl := set_r_joined (Some (millis w)) (r_ever_joined r) r]> (w_rooms w)) w
           end
  | None => w
  end.

Definition empty_since_ms (w : World) (r : Room) : option Z := (fun t => millis w - t) <$> r_empty_since r.

Definition should_close (w : World) (r : Room) : bool :=
  if r_closed r || has_non_dependent w r then false
  else
    let timeout := if r_ever_joined r then r_departure_timeout r else r_empty_timeout r in
    if timeout =? 0 then false
    else
      match (if r_ever_joined r then empty_since_ms w r else Some (millis w - r_creation_time_ms r)) with
      | Some elapsed => timeout * 1000 <=? elapsed
      | None => false
      end.

(** ** Closing *)

(** [Server::remove_room] and [Server::on_room_closed], the installed callback. *)
Definition remove_room (name : string) (w : World) : World :=
  emit (EvRoomTotal (-1)) (set_table (delete name (w_table w)) w).
Definition on_room_closed (rl : loc) (w : World) : World :=
  match w_rooms w !! rl with
  | Some r => remove_room (r_name r) (set_speakers (delete (r_name r) (w_speakers w)) w)
  | None => w
  end.

(** One turn of the loop of [close]. *)
Definition close_participant (reason : DisconnectReason) (room_proto : RoomInfo) (w : World) (pl : loc) : World :=
  match w_parts w !! pl with
  | None => w
  | Some p =>
      let w := upd_part pl (fun p => (set_state Disconnected p).1) w in
      let w := upd_part pl (set_p_reason (reason_i32 reason)) w in
      let w := upd_part pl clear_signal_sink w in
      let w := emit (EvCloseMedia (p_sid p)) w in
      let w := (send pl (RLeave (reason_i32 reason)) w).1 in
      let w := emit (EvParticipantTotal (-1)) w in
      match info_of pl w with
      | (w, Some info) => emit (EvParticipantLeft room_proto info) w
      | (w, None) => w
      end
  end.

Definition close (rl : loc) (reason : DisconnectReason) (w : World) : World :=
  match w_rooms w !! rl with
  | None => w
  | Some r =>
      if r_closed r then w
      else
        let w := upd_room rl (set_r_closed true) w in
        let room_proto := room_to_proto w r in
        let w := emit (EvTerminateRoomJobs (r_name r)) w in
        let w := emit (EvReleaseRoom (r_name r)) w in
        let w := foldl (close_participant reason room_proto) w (members r) in
        let w := upd_room rl (set_r_participants ∅) w in
        let w := emit (EvRoomFinished room_proto) w in
        if r_on_close r then on_room_closed rl (upd_room rl (set_on_close false) w) else w
  end.

(** * Frames *)

(** What membership, lifecycle and session resumption depend on of a participant:
    only attaching to a room and resuming a session change it. *)
Record Static := mkStatic {
  s_sid : string; s_identity : string; s_kind : ParticipantKind; s_room : option loc; s_gen : Z
}.
Definition static (p : Participant) : Static :=
  mkStatic (p_sid p) (p_identity p) (p_kind p) (p_room p) (p_resume_gen p).
Definition statics (w : World) : gmap loc Static := static <$> w_parts w.

(** The parts of the world the lifecycle invariants read are the same. *)
Definition frame (w w' : World) : Prop :=
  statics w' = statics w /\ w_rooms w' = w_rooms w /\ w_table w' = w_table w /\ w_now w' = w_now w.

#[global] Instance frame_preorder : PreOrder frame.
Proof. split; [done|]. intros a b c (?&?&?&?) (?&?&?&?). unfold frame. split_and!; congruence. Qed.

Lemma statics_alter f pl w :
  (forall p, static (f p) = static p) -> static <$> alter f pl (w_parts w) = statics w.
Proof.
  intros Hf. apply map_eq. intros l. unfold statics. rewrite !lookup_fmap.
  destruct (decide (l = pl)) as [->|]; [|by rewrite lookup_alter_ne].
  rewrite lookup_alter_eq. destruct (w_parts w !! pl); cbn; [|done]. by rewrite Hf.
Qed.

Lemma statics_insert pl p p' w :
  w_parts w !! pl = Some p -> static p' = static p -> static <$> <[pl := p']> (w_parts w) = statics w.
Proof.
  intros Hp Hs. apply map_eq. intros l. unfold statics. rewrite !lookup_fmap.
  destruct (decide (l = pl)) as [->|]; [|by rewrite lookup_insert_ne].
  rewrite lookup_insert_eq, Hp. cbn. by rewrite Hs.
Qed.

Lemma upd_part_frame pl f w : (forall p, static (f p) = static p) -> frame w (upd_part pl f w).
Proof. intros Hf. split_and!; [by apply statics_alter|done..]. Qed.

Lemma emit_frame e w : frame w (emit e w).
Proof. done. Qed.

Lemma send_update_frame pl m w : frame w (send_update pl m w).1.
Proof. unfold send_update. repeat case_match; done. Qed.

Lemma send_frame pl m w : frame w (send pl m w).1.
Proof. unfold send. repeat case_match; done. Qed.

Lemma foldl_frame {A} (f : World -> A -> World) l w :
  (forall w a, frame w (f w a)) -> frame w (foldl f w l).
Proof. intros Hf. revert w. induction l as [|a l IH]; intros w; cbn; [done|]. etrans; [apply Hf|apply IH]. Qed.

Lemma send_all_frame targets m w : frame w (send_all targets m w).
Proof. apply foldl_frame. intros. apply send_update_frame. Qed.

Lemma info_of_frame pl w : frame w (info_of pl w).1.
Proof.
  unfold info_of. destruct (w_parts w !! pl) as [p|] eqn:E; [|done].
  unfold participant_to_proto. destruct (next _). cbn. split_and!; [by eapply statics_insert|done..].
Qed.

Lemma broadcast_participant_update_frame rl infos ex w : frame w (broadcast_participant_update rl infos ex w).
Proof. unfold broadcast_participant_update. case_match; [apply send_all_frame|done]. Qed.

Lemma broadcast_room_update_frame rl w : frame w (broadcast_room_update rl w).
Proof. unfold broadcast_room_update. case_match; [apply send_all_frame|done]. Qed.

Lemma broadcast_data_frame rl pk ds w : frame w (broadcast_data rl pk ds w).
Proof.
  unfold broadcast_data. case_match; [|done]. apply foldl_frame. intros w' l. repeat case_match; done.
Qed.

Lemma static_set_state s p : static (set_state s p).1 = static p.
Proof. unfold set_state. by case_match. Qed.

#[export] Hint Resolve upd_part_frame emit_frame send_update_frame send_frame send_all_frame info_of_frame
  broadcast_participant_update_frame broadcast_room_update_frame broadcast_data_frame static_set_state : lk.

Lemma close_participant_frame reason rp w pl : frame w (close_participant reason rp w pl).
Proof.
  unfold close_participant. destruct (w_parts w !! pl) as [p|]; [|done].
  set (w1 := upd_part pl _ w). set (w2 := upd_part pl _ w1). set (w3 := upd_part pl _ w2).
  assert (frame w w3) as H3.
  { transitivity w1; [apply upd_part_frame, static_set_state|]. transitivity w2; by apply upd_part_frame. }
  set (w4 := emit (EvParticipantTotal (-1)) _).
  assert (frame w w4) as H4.
  { unfold w4. etrans; [|apply emit_frame]. etrans; [|apply send_frame]. etrans; [exact H3|apply emit_frame]. }
  pose proof (info_of_frame pl w4) as Hi. destruct (info_of pl w4) as [w5 [i|]]; cbn [fst] in Hi.
  - etrans; [exact H4|]. etrans; [exact Hi|apply emit_frame].
  - by etrans.
Qed.

(** * The lifecycle invariant *)

Definition nd_static (st : gmap loc Static) (l : loc) : bool :=
  match st !! l with Some s => negb (is_dependent (s_kind s)) | None => false end.
(** A real (non-dependent) participant is in the room. *)
Definition occupied (st : gmap loc Static) (r : Room) : Prop :=
  exists sid l, r_participants r !! sid = Some l /\ nd_static st l = true.

Lemma elem_of_members r l : l ∈ members r <-> exists sid, r_participants r !! sid = Some l.
Proof.
  unfold members. rewrite list_elem_of_fmap. split.
  - intros ([sid l'] & -> & H). apply elem_of_map_to_list in H. by exists sid.
  - intros [sid H]. exists (sid, l). by rewrite elem_of_map_to_list.
Qed.

Lemma elem_of_parts_of w r p :
  p ∈ parts_of w r <-> exists sid l, r_participants r !! sid = Some l /\ w_parts w !! l = Some p.
Proof.
  unfold parts_of. rewrite list_elem_of_omap. split.
  - intros (l & [sid Hs]%elem_of_members & Hp). by exists sid, l.
  - intros (sid & l & Hs & Hp). exists l. rewrite elem_of_members. eauto.
Qed.

Lemma has_non_dependent_iff w r : has_non_dependent w r = true <-> occupied (statics w) r.
Proof.
  unfold has_non_dependent, occupied. rewrite existsb_exists. setoid_rewrite <- list_elem_of_In.
  split.
  - intros (p & (sid & l & Hs & Hp)%elem_of_parts_of & Hn). exists sid, l. split; [done|].
    unfold nd_static, statics. by rewrite lookup_fmap, Hp.
  - intros (sid & l & Hs & Hn). unfold nd_static, statics in Hn. rewrite lookup_fmap in Hn.
    destruct (w_parts w !! l) as [p|] eqn:Hp; [|done]. exists p. rewrite elem_of_parts_of. split; [by eauto|done].
Qed.

Lemma has_non_dependent_false w r : has_non_dependent w r = false <-> ~ occupied (statics w) r.
Proof. rewrite <- has_non_dependent_iff. by rewrite not_true_iff_false. Qed.

(** Consistency of one room: its map is keyed by the sids of live participants
    attached to it, identities are distinct, an occupied room has been joined and
    is not counting down, a closed room is empty and an open one has its callback. *)
Record room_ok (st : gmap loc Static) (rl : loc) (r : Room) : Prop := {
  ok_members : forall sid l, r_participants r !! sid = Some l ->
    exists s, st !! l = Some s /\ s_sid s = sid /\ s_room s = Some rl;
  ok_unique : forall sid1 sid2 l1 l2 s1 s2,
    r_participants r !! sid1 = Some l1 -> r_participants r !! sid2 = Some l2 ->
    st !! l1 = Some s1 -> st !! l2 = Some s2 -> s_identity s1 = s_identity s2 -> sid1 = sid2;
  ok_occupied : occupied st r -> r_ever_joined r = true /\ r_empty_since r = None;
  ok_closed : r_closed r = true -> r_participants r = ∅;
  ok_callback : r_closed r = false -> r_on_close r = true
}.

(** A room that was joined and has no real participant left is counting down. *)
Definition counting (st : gmap loc Static) (now_ms : Z) (r : Room) : Prop :=
  r_creation_time_ms r <= now_ms /\
  (forall t, r_empty_since r = Some t -> t <= now_ms) /\
  (r_closed r = false -> r_ever_joined r = true -> ~ occupied st r -> is_Some (r_empty_since r)).

Record world_ok (w : World) : Prop := {
  wok_rooms : forall rl r, w_rooms w !! rl = Some r -> room_ok (statics w) rl r;
  wok_counting : forall rl r, w_rooms w !! rl = Some r -> counting (statics w) (millis w) r;
  wok_table : forall name rl, w_table w !! name = Some rl ->
    exists r, w_rooms w !! rl = Some r /\ r_name r = name /\ r_closed r = false
}.

Lemma frame_world_ok w w' : frame w w' -> world_ok w -> world_ok w'.
Proof.
  intros (Hs & Hr & Ht & Hn) [H1 H2 H3].
  split; unfold millis in *; rewrite ?Hs, ?Hr, ?Ht, ?Hn; auto.
Qed.

Lemma set_room_ok w rl r r' :
  world_ok w -> w_rooms w !! rl = Some r ->
  room_ok (statics w) rl r' -> counting (statics w) (millis w) r' ->
  r_name r' = r_name r -> r_closed r' = r_closed r -> r_on_close r' = r_on_close r ->
  world_ok (set_rooms (<[rl := r']> (w_rooms w)) w).
Proof.
  intros [H1 H2 H3] Hr Hok Hc En Ec Eo. split; cbn.
  - intros rl' r0 [[<- <-]|[_ H]]%lookup_insert_Some; [exact Hok|by apply H1].
  - intros rl' r0 [[<- <-]|[_ H]]%lookup_insert_Some; [exact Hc|by eapply H2].
  - intros name rl' Ht. destruct (H3 _ _ Ht) as (r0 & Hr0 & <- & Hc0).
    destruct (decide (rl = rl')) as [<-|Hne].
    + exists r'. rewrite lookup_insert_eq. assert (r0 = r) as -> by congruence. split_and!; congruence.
    + exists r0. by rewrite lookup_insert_ne.
Qed.

(** Updates that leave the lifecycle fields alone. *)
Definition same_life (r r' : Room) : Prop :=
  r_name r' = r_name r /\ r_closed r' = r_closed r /\ r_on_close r' = r_on_close r /\
  r_participants r' = r_participants r /\ r_empty_since r' = r_empty_since r /\
  r_ever_joined r' = r_ever_joined r /\ r_creation_time_ms r' = r_creation_time_ms r.

Lemma same_life_occupied st r r' : same_life r r' -> occupied st r' <-> occupied st r.
Proof. intros (_&_&_&Hp&_). unfold occupied. by rewrite Hp. Qed.

Lemma same_life_room_ok st rl r r' : same_life r r' -> room_ok st rl r -> room_ok st rl r'.
Proof.
  intros Hs [H1 H2 H3 H4 H5]. pose proof (same_life_occupied st r r' Hs) as Ho.
  destruct Hs as (_&Hc&Hcb&Hp&He&Hj&_). split.
  - rewrite Hp. apply H1.
  - rewrite Hp. apply H2.
  - rewrite Ho, He, Hj. apply H3.
  - rewrite Hp, Hc. apply H4.
  - rewrite Hcb, Hc. apply H5.
Qed.

Lemma same_life_counting st n r r' : same_life r r' -> counting st n r -> counting st n r'.
Proof.
  intros Hs (H1 & H2 & H3). pose proof (same_life_occupied st r r' Hs) as Ho.
  destruct Hs as (_&Hc&_&Hp&He&Hj&Ht). unfold counting. rewrite Hc, Ho, He, Hj, Ht. auto.
Qed.

Lemma upd_room_same_life rl f w :
  (forall r, same_life r (f r)) -> world_ok w -> world_ok (upd_room rl f w).
Proof.
  intros Hf Hw. unfold upd_room. destruct (w_rooms w !! rl) as [r|] eqn:Hr.
  - assert (alter f rl (w_rooms w) = <[rl := f r]> (w_rooms w)) as ->.
    { apply map_eq. intros l. destruct (decide (l = rl)) as [->|].
      - by rewrite lookup_alter_eq, Hr, lookup_insert_eq.
      - by rewrite lookup_alter_ne, lookup_insert_ne. }
    pose proof (Hf r) as Hs. pose proof Hs as (?&?&?&_). apply (set_room_ok w rl r); auto.
    + eapply same_life_room_ok; [exact Hs|]. by apply wok_rooms.
    + eapply same_life_counting; [exact Hs|]. by eapply wok_counting.
  - assert (alter f rl (w_rooms w) = w_rooms w) as -> by (by apply map_alter_not_in_dom || (apply map_eq; intros l; destruct (decide (l = rl)) as [->|]; [by rewrite lookup_alter_eq, Hr|by rewrite lookup_alter_ne])).
    by destruct w.
Qed.

(** ** Joining *)

Definition attach_static (rl : loc) (s : Static) : Static := mkStatic (s_sid s) (s_identity s) (s_kind s) (Some rl) (s_gen s).

Lemma statics_attach pl rl w :
  statics (upd_part pl (attach_room rl) w) = alter (attach_static rl) pl (statics w).
Proof.
  unfold statics, upd_part. cbn [w_parts set_parts]. apply map_eq. intros l. rewrite lookup_fmap.
  destruct (decide (l = pl)) as [->|].
  - rewrite !lookup_alter_eq, lookup_fmap. by destruct (w_parts w !! pl).
  - by rewrite !lookup_alter_ne, lookup_fmap.
Qed.

Lemma nd_attach st pl rl l : nd_static (alter (attach_static rl) pl st) l = nd_static st l.
Proof.
  unfold nd_static. destruct (decide (l = pl)) as [->|]; [|by rewrite lookup_alter_ne].
  rewrite lookup_alter_eq. by destruct (st !! pl).
Qed.

Lemma occupied_attach st pl rl r : occupied (alter (attach_static rl) pl st) r <-> occupied st r.
Proof. unfold occupied. by setoid_rewrite nd_attach. Qed.

(** Attaching a participant that belongs to no other room. *)
Lemma attach_ok w pl rl s :
  world_ok w -> statics w !! pl = Some s -> s_room s = None \/ s_room s = Some rl ->
  world_ok (upd_part pl (attach_room rl) w).
Proof.
  intros [H1 H2 H3] Hs Hroom. split; [|unfold counting; intros rl' r Hr|exact H3].
  - intros rl' r Hr. rewrite statics_attach. destruct (H1 _ _ Hr) as [K1 K2 K3 K4 K5]. split.
    + intros sid l Hl. destruct (K1 _ _ Hl) as (s0 & Hs0 & Hsid & Hrm).
      destruct (decide (l = pl)) as [->|]; [|exists s0; by rewrite lookup_alter_ne].
      exists (attach_static rl s0). rewrite lookup_alter_eq, Hs0. split_and!; [done..|]. cbn.
      assert (s0 = s) as -> by congruence. destruct Hroom; congruence.
    + intros sid1 sid2 l1 l2 s1 s2 Hl1 Hl2 Hs1 Hs2 He.
      assert (forall l x, alter (attach_static rl) pl (statics w) !! l = Some x ->
                exists y, statics w !! l = Some y /\ s_identity y = s_identity x) as Hback.
      { intros l x Hx. destruct (decide (l = pl)) as [->|]; [|rewrite lookup_alter_ne in Hx by done; eauto].
        rewrite lookup_alter_eq, Hs in Hx. cbn in Hx. injection Hx as <-. eauto. }
      destruct (Hback _ _ Hs1) as (y1 & Hy1 & E1). destruct (Hback _ _ Hs2) as (y2 & Hy2 & E2).
      eapply K2; eauto. congruence.
    + rewrite occupied_attach. exact K3.
    + exact K4.
    + exact K5.
  - rewrite statics_attach, occupied_attach. exact (H2 _ _ Hr).
Qed.

(** The room after a successful [join]. *)
Definition joined_room (now : Z) (r : Room) (p : Participant) (pl : loc) : Room :=
  bump_version now
    (let r1 := set_r_participants (<[p_sid p := pl]> (r_participants r)) r in
     if non_dependent p then set_r_joined None true r1 else r1).

Lemma joined_room_fields now r p pl :
  r_name (joined_room now r p pl) = r_name r /\ r_closed (joined_room now r p pl) = r_closed r /\
  r_on_close (joined_room now r p pl) = r_on_close r /\
  r_creation_time_ms (joined_room now r p pl) = r_creation_time_ms r /\
  r_max_participants (joined_room now r p pl) = r_max_participants r /\
  r_participants (joined_room now r p pl) = <[p_sid p := pl]> (r_participants r) /\
  r_ever_joined (joined_room now r p pl) = (if non_dependent p then true else r_ever_joined r) /\
  r_empty_since (joined_room now r p pl) = (if non_dependent p then None else r_empty_since r).
Proof. unfold joined_room. cbn zeta. destruct (non_dependent p); cbn; split_and!; done. Qed.

Lemma join_insert_eq rl pl w r p :
  w_rooms w !! rl = Some r -> w_parts w !! pl = Some p ->
  join_insert rl pl w =
    if existsb (fun q => (p_identity q =? p_identity p)%string) (parts_of w r) then (w, false)
    else (set_rooms (<[rl := joined_room (w_now w) r p pl]> (w_rooms w)) (upd_part pl (attach_room rl) w), true).
Proof. intros Hr Hp. unfold join_insert. rewrite Hr, Hp. case_match; [done|]. reflexivity. Qed.

Lemma no_identity_existsb w r p :
  existsb (fun q => (p_identity q =? p_identity p)%string) (parts_of w r) = false ->
  forall sid l s, r_participants r !! sid = Some l -> statics w !! l = Some s -> s_identity s <> p_identity p.
Proof.
  intros He sid l s Hl Hs Heq. unfold statics in Hs. rewrite lookup_fmap in Hs.
  destruct (w_parts w !! l) as [q|] eqn:Hq; [|done]. injection Hs as <-.
  apply not_true_iff_false in He. apply He. apply existsb_exists. exists q. split.
  - apply list_elem_of_In, elem_of_parts_of. by exists sid, l.
  - by apply String.eqb_eq.
Qed.

Lemma occupied_joined st now r p pl :
  r_participants r !! p_sid p = None -> nd_static st pl = non_dependent p ->
  occupied st (joined_room now r p pl) <-> non_dependent p = true \/ occupied st r.
Proof.
  intros Hf Hn. pose proof (joined_room_fields now r p pl) as (_&_&_&_&_&Hp&_). unfold occupied. rewrite Hp. split.
  - intros (sid & l & [[<- <-]|[_ H]]%lookup_insert_Some & Hl); [left; congruence|right; eauto].
  - intros [H|(sid & l & Hs & Hl)].
    + exists (p_sid p), pl. rewrite lookup_insert_eq. split; congruence.
    + exists sid, l. rewrite lookup_insert_ne; [done|congruence].
Qed.

Lemma join_insert_ok rl pl w r p :
  world_ok w -> w_rooms w !! rl = Some r -> w_parts w !! pl = Some p ->
  r_closed r = false -> r_participants r !! p_sid p = None ->
  p_room p = None \/ p_room p = Some rl ->
  world_ok (join_insert rl pl w).1.
Proof.
  intros Hw Hr Hp Hcl Hfresh Hroom. rewrite (join_insert_eq rl pl w r p) by done.
  destruct (existsb _ _) eqn:He; [done|]. cbn [fst].
  assert (statics w !! pl = Some (static p)) as Hs by (unfold statics; by rewrite lookup_fmap, Hp).
  set (w1 := upd_part pl (attach_room rl) w).
  assert (world_ok w1) as Hw1 by (by apply (attach_ok w pl rl (static p))).
  pose proof (joined_room_fields (w_now w) r p pl) as (Fn & Fc & Fo & Ft & _ & Fp & Fj & Fe).
  assert (statics w1 = alter (attach_static rl) pl (statics w)) as Hst by apply statics_attach.
  assert (nd_static (statics w1) pl = non_dependent p) as Hnd.
  { rewrite Hst, nd_attach. unfold nd_static. by rewrite Hs. }
  pose proof (occupied_joined (statics w1) (w_now w) r p pl Hfresh Hnd) as Hocc.
  destruct (wok_rooms w1 Hw1 rl r Hr) as [K1 K2 K3 K4 K5].
  assert (statics w1 !! pl = Some (attach_static rl (static p))) as Hpl.
  { by rewrite Hst, lookup_alter_eq, Hs. }
  assert (forall sid l s, r_participants r !! sid = Some l -> statics w1 !! l = Some s -> s_identity s <> p_identity p) as Hno.
  { intros sid l s Hl. rewrite Hst. destruct (decide (l = pl)) as [->|Hne].
    - exfalso. by apply (no_identity_existsb w r p He sid pl (static p)).
    - rewrite lookup_alter_ne by done. by apply (no_identity_existsb w r p He sid). }
  apply (set_room_ok w1 rl r); auto.
  - split.
    + rewrite Fp. intros sid l [[<- <-]|[_ Hl]]%lookup_insert_Some; [|by apply K1].
      exists (attach_static rl (static p)). done.
    + rewrite Fp. intros sid1 sid2 l1 l2 s1 s2 [[<- <-]|[N1 H1]]%lookup_insert_Some [[<- <-]|[N2 H2]]%lookup_insert_Some Hs1 Hs2 He'; [done| | |by eapply K2].
      * exfalso. rewrite Hpl in Hs1. injection Hs1 as <-. by eapply (Hno sid2 l2 s2).
      * exfalso. rewrite Hpl in Hs2. injection Hs2 as <-. by eapply (Hno sid1 l1 s1).
    + rewrite Hocc, Fj, Fe. intros [->|Ho]; [done|]. destruct (K3 Ho) as [-> ->]. by destruct (non_dependent p).
    + rewrite Fc, Hcl. done.
    + rewrite Fc, Fo. exact K5.
  - destruct (wok_counting w1 Hw1 rl r Hr) as (C1 & C2 & C3). unfold counting.
    rewrite Ft, Fe, Fj, Fc, Hocc. split_and!; [done| |].
    + destruct (non_dependent p); [done|]. exact C2.
    + destruct (non_dependent p) eqn:Hd; [naive_solver|]. intros Hc0 Hj Ho. apply C3; [done..|]. naive_solver.
Qed.

(** ** Leaving *)

(** Between [remove_participant] and [on_participant_left] the countdown of room
    [rl] may not have started yet. *)
Record world_ok_but (rl : loc) (w : World) : Prop := {
  wokb_rooms : forall rl' r, w_rooms w !! rl' = Some r -> room_ok (statics w) rl' r;
  wokb_counting : forall rl' r, w_rooms w !! rl' = Some r -> rl' <> rl -> counting (statics w) (millis w) r;
  wokb_times : forall r, w_rooms w !! rl = Some r ->
    r_creation_time_ms r <= millis w /\ (forall t, r_empty_since r = Some t -> t <= millis w);
  wokb_table : forall name rl', w_table w !! name = Some rl' ->
    exists r, w_rooms w !! rl' = Some r /\ r_name r = name /\ r_closed r = false
}.

Lemma world_ok_weaken rl w : world_ok w -> world_ok_but rl w.
Proof.
  intros [H1 H2 H3]. split; [exact H1|by eauto| |exact H3].
  intros r Hr. destruct (H2 _ _ Hr) as (? & ? & _). done.
Qed.

Lemma frame_world_ok_but rl w w' : frame w w' -> world_ok_but rl w -> world_ok_but rl w'.
Proof.
  intros (Hs & Hr & Ht & Hn) [H1 H2 H3 H4].
  split; unfold millis in *; rewrite ?Hs, ?Hr, ?Ht, ?Hn; auto.
Qed.

Lemma on_participant_left_ok rl w : world_ok_but rl w -> world_ok (on_participant_left rl w).
Proof.
  intros [H1 H2 H3 H4]. unfold on_participant_left.
  destruct (w_rooms w !! rl) as [r|] eqn:Hr.
  2: { split; [exact H1| |exact H4]. intros rl' r' Hr'. apply (H2 rl'); congruence. }
  destruct (H3 r eq_refl) as [T1 T2].
  assert (forall r', counting (statics w) (millis w) r' ->
    room_ok (statics w) rl r' -> r_name r' = r_name r -> r_closed r' = r_closed r -> r_on_close r' = r_on_close r ->
    world_ok (set_rooms (<[rl := r']> (w_rooms w)) w)) as Hset.
  { intros r' Hc Hok En Ec Eo. split; cbn.
    - intros rl' r0 [[<- <-]|[_ H]]%lookup_insert_Some; [exact Hok|by apply H1].
    - intros rl' r0 [[<- <-]|[Hne H]]%lookup_insert_Some; [exact Hc|by apply (H2 rl')].
    - intros name rl' Ht. destruct (H4 _ _ Ht) as (r0 & Hr0 & <- & Hc0).
      destruct (decide (rl = rl')) as [<-|Hne].
      + exists r'. rewrite lookup_insert_eq. assert (r0 = r) as -> by congruence. split_and!; congruence.
      + exists r0. by rewrite lookup_insert_ne. }
  assert (set_rooms (<[rl := r]> (w_rooms w)) w = w) as Hid.
  { rewrite insert_id by done. by destruct w. }
  destruct (has_non_dependent w r) eqn:Hn.
  - rewrite <- Hid. apply Hset; auto. split_and!; [done..|]. apply has_non_dependent_iff in Hn. done.
  - apply has_non_dependent_false in Hn. destruct (r_empty_since r) as [t|] eqn:Et.
    + rewrite <- Hid. apply Hset; auto. unfold counting. rewrite Et. split_and!; [done|exact T2|by eauto].
    + apply Hset; auto.
      * unfold counting. cbn. split_and!; [done|by intros ? [= <-]|by eauto].
      * destruct (H1 _ _ Hr) as [K1 K2 K3 K4 K5]. split; cbn; [exact K1|exact K2| |exact K4|exact K5].
        intros Ho. by destruct Hn.
Qed.

(** The room after a removal. *)
Definition removed_room (w : World) (r : Room) (sid : string) : Room :=
  let r1 := bump_version (w_now w) (set_r_participants (delete sid (r_participants r)) r) in
  if bool_decide (r_participants r1 = ∅) then set_r_joined (Some (millis w)) (r_ever_joined r1) r1 else r1.

Lemma removed_room_fields w r sid :
  r_name (removed_room w r sid) = r_name r /\ r_closed (removed_room w r sid) = r_closed r /\
  r_on_close (removed_room w r sid) = r_on_close r /\
  r_creation_time_ms (removed_room w r sid) = r_creation_time_ms r /\
  r_participants (removed_room w r sid) = delete sid (r_participants r) /\
  r_ever_joined (removed_room w r sid) = r_ever_joined r /\
  r_empty_since (removed_room w r sid) =
    (if bool_decide (delete sid (r_participants r) = ∅) then Some (millis w) else r_empty_since r).
Proof. unfold removed_room. cbn. case_bool_decide; cbn; split_and!; done. Qed.

Lemma remove_participant_eq rl sid w r pl :
  w_rooms w !! rl = Some r -> r_participants r !! sid = Some pl ->
  remove_participant rl sid w = (set_rooms (<[rl := removed_room w r sid]> (w_rooms w)) w, Some pl).
Proof. intros Hr Hp. unfold remove_participant. rewrite Hr, Hp. reflexivity. Qed.

Lemma remove_participant_ok rl sid w : world_ok w -> world_ok_but rl (remove_participant rl sid w).1.
Proof.
  intros Hw. destruct (w_rooms w !! rl) as [r|] eqn:Hr.
  2: { unfold remove_participant. rewrite Hr. by apply world_ok_weaken. }
  destruct (r_participants r !! sid) as [pl|] eqn:Hp.
  2: { unfold remove_participant. rewrite Hr, Hp. by apply world_ok_weaken. }
  rewrite (remove_participant_eq rl sid w r pl Hr Hp). cbn [fst]. destruct Hw as [H1 H2 H3].
  pose proof (removed_room_fields w r sid) as (Fn & Fc & Fo & Ft & Fp & Fj & Fe).
  destruct (H1 _ _ Hr) as [K1 K2 K3 K4 K5]. destruct (H2 _ _ Hr) as (C1 & C2 & C3).
  assert (forall s l, r_participants (removed_room w r sid) !! s = Some l -> r_participants r !! s = Some l) as Hsub.
  { intros s l. rewrite Fp. by intros [_ H]%lookup_delete_Some. }
  split; cbn.
  - intros rl' r0 [[<- <-]|[_ H]]%lookup_insert_Some; [|by apply H1]. split.
    + intros s l Hl. apply K1. by apply Hsub.
    + intros s1 s2 l1 l2 x1 x2 Hl1 Hl2. apply K2; by apply Hsub.
    + intros (s & l & Hl & Hn). destruct K3 as [Hj He]; [exists s, l; eauto|].
      rewrite Fj, Fe, Hj, He. split; [done|]. rewrite bool_decide_false; [done|]. rewrite <- Fp. intros E.
      by rewrite E in Hl.
    + rewrite Fc, Fp. intros Hcl. by rewrite (K4 Hcl), delete_empty.
    + rewrite Fc, Fo. exact K5.
  - intros rl' r0 [[<- <-]|[_ H]]%lookup_insert_Some Hne; [done|by apply (H2 rl')].
  - intros r0. rewrite lookup_insert_eq. intros [= <-]. rewrite Ft, Fe. split; [done|].
    case_bool_decide; [by intros t [= <-]|exact C2].
  - intros name rl' Ht. destruct (H3 _ _ Ht) as (r0 & Hr0 & <- & Hc0).
    destruct (decide (rl = rl')) as [<-|Hne].
    + exists (removed_room w r sid). rewrite lookup_insert_eq. assert (r0 = r) as -> by congruence.
      rewrite Fn, Fc. done.
    + exists r0. by rewrite lookup_insert_ne.
Qed.

(** ** Closing *)

Definition closed_room (r : Room) : Room :=
  set_on_close false (set_r_participants ∅ (set_r_closed true r)).

Lemma upd_room_lookup rl f w r :
  w_rooms w !! rl = Some r -> w_rooms (upd_room rl f w) = <[rl := f r]> (w_rooms w).
Proof.
  intros Hr. cbn. apply map_eq. intros l. destruct (decide (l = rl)) as [->|].
  - by rewrite lookup_alter_eq, Hr, lookup_insert_eq.
  - by rewrite lookup_alter_ne, lookup_insert_ne.
Qed.

(** The loop of [close], with the room already marked closed. *)
Definition close_loop (rl : loc) (reason : DisconnectReason) (w : World) (r : Room) : World :=
  let w1 := upd_room rl (set_r_closed true) w in
  foldl (close_participant reason (room_to_proto w1 r))
    (emit (EvReleaseRoom (r_name r)) (emit (EvTerminateRoomJobs (r_name r)) w1)) (members r).

Lemma close_loop_frame rl reason w r : frame (upd_room rl (set_r_closed true) w) (close_loop rl reason w r).
Proof.
  unfold close_loop. etrans; [|apply foldl_frame; intros; apply close_participant_frame].
  etrans; apply emit_frame.
Qed.

Lemma close_shape rl reason w r :
  w_rooms w !! rl = Some r -> r_closed r = false -> r_on_close r = true ->
  statics (close rl reason w) = statics w /\ w_now (close rl reason w) = w_now w /\
  w_rooms (close rl reason w) = <[rl := closed_room r]> (w_rooms w) /\
  w_table (close rl reason w) = delete (r_name r) (w_table w) /\
  w_chans (close rl reason w) = w_chans (close_loop rl reason w r) /\
  w_parts (close rl reason w) = w_parts (close_loop rl reason w r).
Proof.
  intros Hr Hc Ho. pose proof (close_loop_frame rl reason w r) as (Fs & Fr & Ft & Fn).
  unfold close. rewrite Hr, Hc, Ho. cbn zeta.
  fold (close_loop rl reason w r) in *. set (w1 := close_loop rl reason w r) in *.
  set (w2 := upd_room rl (set_r_participants ∅) w1). set (w3 := emit _ w2).
  assert (w_rooms w1 = <[rl := set_r_closed true r]> (w_rooms w)) as Hr1.
  { rewrite Fr. by apply upd_room_lookup. }
  assert (w_rooms w2 = <[rl := set_r_participants ∅ (set_r_closed true r)]> (w_rooms w)) as Hr2.
  { unfold w2. rewrite (upd_room_lookup _ _ _ (set_r_closed true r)) by (rewrite Hr1; apply lookup_insert_eq).
    by rewrite Hr1, insert_insert_eq. }
  assert (w_rooms (upd_room rl (set_on_close false) w3) = <[rl := closed_room r]> (w_rooms w)) as Hr3.
  { rewrite (upd_room_lookup _ _ _ (set_r_participants ∅ (set_r_closed true r)))
      by (change (w_rooms w3) with (w_rooms w2); rewrite Hr2; apply lookup_insert_eq).
    change (w_rooms w3) with (w_rooms w2). by rewrite Hr2, insert_insert_eq. }
  unfold on_room_closed. rewrite Hr3, lookup_insert_eq. cbn [r_name closed_room set_on_close set_r_participants set_r_closed].
  split_and!; [exact Fs|exact Fn|exact Hr3| |done|done]. cbn. by rewrite Ft.
Qed.

Lemma close_ok rl reason w : world_ok w -> world_ok (close rl reason w).
Proof.
  intros Hw. destruct (w_rooms w !! rl) as [r|] eqn:Hr; [|by unfold close; rewrite Hr].
  destruct (r_closed r) eqn:Hc; [by unfold close; rewrite Hr, Hc|].
  pose proof (ok_callback _ _ _ (wok_rooms w Hw rl r Hr) Hc) as Hcb.
  destruct (close_shape rl reason w r Hr Hc Hcb) as (Es & En & Er & Et & _).
  destruct Hw as [H1 H2 H3]. split; unfold millis; rewrite ?Es, ?En, ?Er, ?Et.
  - intros rl' r0 [[<- <-]|[_ H]]%lookup_insert_Some; [|by apply H1].
    assert (forall st, ~ occupied st (closed_room r)) as Hno by (intros st (? & ? & ? & _); done).
    split; cbn; [done|done| |done|done]. intros Ho. by destruct (Hno _ Ho).
  - intros rl' r0 [[<- <-]|[_ H]]%lookup_insert_Some; [|by apply (H2 rl')].
    destruct (H2 _ _ Hr) as (C1 & C2 & _). split_and!; [exact C1|exact C2|done].
  - intros name rl' [Hne Ht]%lookup_delete_Some. destruct (H3 _ _ Ht) as (r0 & Hr0 & <- & Hc0).
    exists r0. rewrite lookup_insert_ne; [done|]. intros <-. congruence.
Qed.

(** ** What closing does to the participants *)

Definition gone (reason : DisconnectReason) (p : Participant) : Prop :=
  state p = Disconnected /\ p_disconnected_reason p = reason_i32 reason /\ p_tx p = None.

Lemma upd_part_lookup pl f w l :
  w_parts (upd_part pl f w) !! l = if decide (l = pl) then f <$> w_parts w !! l else w_parts w !! l.
Proof. cbn. case_decide; subst; [apply lookup_alter_eq|by apply lookup_alter_ne]. Qed.

Lemma send_parts pl m w : w_parts (send pl m w).1 = w_parts w.
Proof. unfold send. repeat case_match; done. Qed.

Lemma send_update_parts pl m w : w_parts (send_update pl m w).1 = w_parts w.
Proof. unfold send_update. repeat case_match; done. Qed.

(** The participant after its turn of the loop. *)
Definition closed_part (reason : DisconnectReason) (p : Participant) : Participant :=
  let p1 := clear_signal_sink (set_p_reason (reason_i32 reason) (set_state Disconnected p).1) in
  set_p_version (wrap_s 64 (p_version p1 + 1)) p1.

Lemma close_participant_parts reason rp w pl :
  w_parts (close_participant reason rp w pl) = alter (closed_part reason) pl (w_parts w) /\
  w_chans (close_participant reason rp w pl) = w_chans w.
Proof.
  unfold close_participant. destruct (w_parts w !! pl) as [p|] eqn:Hp.
  2: { split; [|done]. apply map_eq. intros l. destruct (decide (l = pl)) as [->|]; [by rewrite lookup_alter_eq, Hp|by rewrite lookup_alter_ne]. }
  set (w3 := upd_part pl clear_signal_sink _).
  assert (w_parts w3 !! pl = Some (clear_signal_sink (set_p_reason (reason_i32 reason) (set_state Disconnected p).1))) as H3.
  { unfold w3. by rewrite !upd_part_lookup, !decide_True, Hp. }
  assert (forall l, l <> pl -> w_parts w3 !! l = w_parts w !! l) as Hne.
  { intros l Hl. unfold w3. by rewrite !upd_part_lookup, !decide_False. }
  set (w4 := emit (EvCloseMedia (p_sid p)) w3).
  assert (send pl (RLeave (reason_i32 reason)) w4 = (w4, false)) as ->.
  { unfold send. change (w_parts w4) with (w_parts w3). rewrite H3. reflexivity. }
  cbn [fst]. unfold info_of. change (w_parts (emit _ w4)) with (w_parts w3). rewrite H3.
  unfold participant_to_proto. cbn [next]. split; [|reflexivity]. cbn [w_parts emit set_parts].
  change (w_parts w4) with (w_parts w3).
  apply map_eq. intros l. destruct (decide (l = pl)) as [->|Hl].
  - rewrite lookup_insert_eq, lookup_alter_eq, Hp. reflexivity.
  - rewrite lookup_insert_ne, lookup_alter_ne by done. by apply Hne.
Qed.

Lemma closed_part_gone reason p : p_state p <= 3 -> gone reason (closed_part reason p).
Proof.
  intros Hs. unfold gone, closed_part, state, set_state. cbn zeta. change (state_u8 Disconnected) with 3.
  destruct (Z.leb_spec 3 (p_state p)); cbn; [|done].
  assert (p_state p = 3) as -> by lia. done.
Qed.

Lemma closed_part_state reason p : p_state p <= 3 -> p_state (closed_part reason p) <= 3.
Proof. intros Hs. unfold closed_part, set_state. cbn. case_match; cbn; lia. Qed.

Lemma close_fold_parts reason rp ls : forall w l p,
  w_parts w !! l = Some p -> p_state p <= 3 ->
  exists p', w_parts (foldl (close_participant reason rp) w ls) !! l = Some p' /\ p_state p' <= 3 /\
             (l ∈ ls \/ gone reason p -> gone reason p').
Proof.
  induction ls as [|l0 ls IH]; intros w l p Hp Hs; cbn [foldl].
  - exists p. split_and!; [done..|]. intros [H|H]; [by apply not_elem_of_nil in H|done].
  - pose proof (close_participant_parts reason rp w l0) as [Hw _].
    destruct (decide (l = l0)) as [->|Hne].
    + destruct (IH (close_participant reason rp w l0) l0 (closed_part reason p)) as (p' & Hp' & Hs' & Hg).
      * by rewrite Hw, lookup_alter_eq, Hp.
      * by apply closed_part_state.
      * exists p'. split_and!; [done..|]. intros _. apply Hg. right. by apply closed_part_gone.
    + destruct (IH (close_participant reason rp w l0) l p) as (p' & Hp' & Hs' & Hg); [by rewrite Hw, lookup_alter_ne|done|].
      exists p'. split_and!; [done..|]. intros [[->|H]%elem_of_cons|H]; [done|apply Hg; by left|apply Hg; by right].
Qed.

Lemma close_fold_chans reason rp ls w : w_chans (foldl (close_participant reason rp) w ls) = w_chans w.
Proof.
  revert w. induction ls as [|l ls IH]; intros w; cbn [foldl]; [done|].
  rewrite IH. apply close_participant_parts.
Qed.

Lemma close_closed rl reason w r :
  w_rooms w !! rl = Some r -> r_closed r = true -> close rl reason w = w.
Proof. intros Hr Hc. unfold close. by rewrite Hr, Hc. Qed.

(** C6: closing a room.  Closing an open room empties it, marks it closed, removes
    it from the room table, and leaves every participant that was in it
    disconnected with the given reason and without an outbound channel; a second
    close, for whatever reason, changes nothing. *)
Theorem close_room_spec rl reason reason' w r :
  world_ok w -> w_rooms w !! rl = Some r -> r_closed r = false ->
  let w' := close rl reason w in
  w_rooms w' !! rl = Some (closed_room r) /\ w_table w' !! r_name r = None /\
  (forall sid l p, r_participants r !! sid = Some l -> w_parts w !! l = Some p -> p_state p <= 3 ->
     exists p', w_parts w' !! l = Some p' /\ state p' = Disconnected /\
                p_disconnected_reason p' = reason_i32 reason /\ p_tx p' = None) /\
  close rl reason' w' = w'.
Proof.
  intros Hw Hr Hc. cbn zeta. pose proof (ok_callback _ _ _ (wok_rooms w Hw rl r Hr) Hc) as Ho.
  destruct (close_shape rl reason w r Hr Hc Ho) as (_ & _ & Er & Et & _ & Ep).
  assert (w_rooms (close rl reason w) !! rl = Some (closed_room r)) as Hr' by (by rewrite Er, lookup_insert_eq).
  split_and!; [done|by rewrite Et, lookup_delete_eq| |by apply (close_closed rl reason' _ (closed_room r))].
  intros sid l p Hl Hp Hs. rewrite Ep. unfold close_loop.
  destruct (close_fold_parts reason (room_to_proto (upd_room rl (set_r_closed true) w) r) (members r)
             (emit (EvReleaseRoom (r_name r)) (emit (EvTerminateRoomJobs (r_name r)) (upd_room rl (set_r_closed true) w))) l p)
    as (p' & Hp' & _ & Hg); [done..|].
  exists p'. split; [done|]. apply Hg. left. apply elem_of_members. by exists sid.
Qed.

(** The Leave notification of a closing room reaches nobody.  [close] removes
    each participant's channel before it sends the Leave message, so no channel of
    the server receives anything, although the code means to notify every
    participant it disconnects. *)
Theorem close_notifies_nobody rl reason w : w_chans (close rl reason w) = w_chans w.
Proof.
  unfold close. destruct (w_rooms w !! rl) as [r|]; [|done]. destruct (r_closed r); [done|]. cbn zeta.
  set (rp := room_to_proto _ r). set (w1 := emit _ (emit _ _)).
  assert (w_chans (foldl (close_participant reason rp) w1 (members r)) = w_chans w) as H.
  { rewrite close_fold_chans. done. }
  set (w2 := foldl _ _ _) in *. destruct (r_on_close r); [|exact H].
  unfold on_room_closed. case_match; exact H.
Qed.

(** * The room table *)

(** [Server::get_or_create_room]: [rl] and [sid] are the location and the id a new
    room gets.  The callback is installed before the room is published. *)
Definition get_or_create_room (name : string) (rl : loc) (sid : string) (limits : option (Z * Z * Z)) (w : World)
  : World * loc :=
  match w_table w !! name with
  | Some l => (w, l)
  | None =>
      let room := set_on_close true (Room_new (w_now w) sid name limits) in
      let w := set_table (<[name := rl]> (w_table w)) (set_rooms (<[rl := room]> (w_rooms w)) w) in
      (emit (EvLaunchPendingDispatches name) (emit (EvRoomTotal 1) w), rl)
  end.

Definition get_room (name : string) (w : World) : option loc := w_table w !! name.
Definition list_rooms (w : World) : list loc := (map_to_list (w_table w)).*2.
Definition num_rooms (w : World) : nat := size (w_table w).

Definition close_room (name : string) (reason : DisconnectReason) (w : World) : World * bool :=
  match get_room name w with
  | None => (w, false)
  | Some rl => (close rl reason w, true)
  end.

(** [check_room_timeouts]: one pass of the one-second ticker. *)
Definition check_room_timeout (w : World) (rl : loc) : World :=
  match w_rooms w !! rl with
  | Some r => if should_close w r then close rl ROOM_CLOSED w else w
  | None => w
  end.
Definition check_room_timeouts (w : World) : World := foldl check_room_timeout w (list_rooms w).

(** The store before the first request. *)
Definition empty_world (now : Z) : World := mkWorld now ∅ ∅ ∅ ∅ ∅ ∅ [].

Lemma empty_world_ok now : world_ok (empty_world now).
Proof. split; intros; done. Qed.

Lemma Room_new_fields now sid name limits :
  let r := set_on_close true (Room_new now sid name limits) in
  r_name r = name /\ r_closed r = false /\ r_on_close r = true /\ r_participants r = ∅ /\
  r_empty_since r = None /\ r_ever_joined r = false /\ r_creation_time_ms r = Z.quot now 1000.
Proof. cbn zeta. unfold Room_new. destruct (default _ _) as [[et dt] mp]. done. Qed.

Lemma get_or_create_room_ok name rl sid limits w :
  world_ok w -> w_rooms w !! rl = None ->
  world_ok (get_or_create_room name rl sid limits w).1.
Proof.
  intros Hw Hf. unfold get_or_create_room. destruct (w_table w !! name) as [l|] eqn:Ht; [done|].
  pose proof (Room_new_fields (w_now w) sid name limits) as (Fn & Fc & Fo & Fp & Fe & Fj & Ft). cbn zeta in *.
  set (room := set_on_close true _) in *. cbn [fst].
  assert (forall st, ~ occupied st room) as Hno by (intros st (? & ? & H & _); by rewrite Fp in H).
  destruct Hw as [H1 H2 H3]. split; cbn.
  - intros rl' r0 [[<- <-]|[_ H]]%lookup_insert_Some; [|by apply H1]. split.
    + rewrite Fp. done.
    + rewrite Fp. done.
    + intros Ho. by destruct (Hno _ Ho).
    + congruence.
    + done.
  - intros rl' r0 [[<- <-]|[_ H]]%lookup_insert_Some; [|by apply (H2 rl')]. unfold counting.
    rewrite Ft, Fe, Fj. unfold millis. cbn. split_and!; [lia|done|done].
  - intros name' rl' [[<- <-]|[Hne Ht']]%lookup_insert_Some.
    + exists room. rewrite lookup_insert_eq. done.
    + destruct (H3 _ _ Ht') as (r0 & Hr0 & Hn & Hc0). exists r0. rewrite lookup_insert_ne; [done|congruence].
Qed.

(** Time passes. *)
Lemma set_now_ok t w : w_now w <= t -> world_ok w -> world_ok (set_now t w).
Proof.
  intros Ht [H1 H2 H3]. split; [exact H1| |exact H3].
  assert (millis w <= millis (set_now t w)) as Hm.
  { unfold millis. cbn. apply Z.quot_le_mono; lia. }
  intros rl r Hr. destruct (H2 _ _ Hr) as (C1 & C2 & C3). split_and!; [lia| |exact C3].
  intros t0 H0. specialize (C2 t0 H0). lia.
Qed.

(** ** Timeouts *)

Lemma should_close_frame w w' r :
  statics w' = statics w -> w_now w' = w_now w -> should_close w' r = should_close w r.
Proof.
  intros Hs Hn. unfold should_close, empty_since_ms, millis. rewrite Hn.
  assert (has_non_dependent w' r = has_non_dependent w r) as ->; [|done].
  apply Bool.eq_iff_eq_true. rewrite !has_non_dependent_iff. by rewrite Hs.
Qed.

Definition after_check (w : World) (r : Room) : Room := if should_close w r then closed_room r else r.

Lemma check_room_timeout_shape w rl r :
  world_ok w -> w_rooms w !! rl = Some r ->
  let w' := check_room_timeout w rl in
  world_ok w' /\ statics w' = statics w /\ w_now w' = w_now w /\
  w_rooms w' = <[rl := after_check w r]> (w_rooms w) /\
  w_table w' = (if should_close w r then delete (r_name r) (w_table w) else w_table w).
Proof.
  intros Hw Hr. cbn zeta. unfold check_room_timeout, after_check. rewrite Hr.
  destruct (should_close w r) eqn:Hs.
  - assert (r_closed r = false) as Hc.
    { unfold should_close in Hs. by destruct (r_closed r). }
    pose proof (ok_callback _ _ _ (wok_rooms w Hw rl r Hr) Hc) as Ho.
    destruct (close_shape rl ROOM_CLOSED w r Hr Hc Ho) as (E1 & E2 & E3 & E4 & _).
    split_and!; [by apply close_ok|done..].
  - split_and!; [done..| |done]. by rewrite insert_id.
Qed.

Lemma check_fold_shape ls : forall w,
  world_ok w -> NoDup ls -> (forall l, l ∈ ls -> exists n, w_table w !! n = Some l) ->
  let w' := foldl check_room_timeout w ls in
  world_ok w' /\
  (forall rl, rl ∉ ls -> w_rooms w' !! rl = w_rooms w !! rl) /\
  (forall name rl r, w_table w !! name = Some rl -> w_rooms w !! rl = Some r -> rl ∉ ls ->
     w_table w' !! name = Some rl) /\
  (forall name, w_table w !! name = None -> w_table w' !! name = None) /\
  (forall name rl r, w_table w !! name = Some rl -> w_rooms w !! rl = Some r -> rl ∈ ls ->
     w_rooms w' !! rl = Some (after_check w r) /\
     w_table w' !! name = if should_close w r then None else Some rl).
Proof.
  induction ls as [|l0 ls IH]; intros w Hw Hnd Htab; cbn zeta; cbn [foldl].
  - split_and!; [done..|]. intros name rl r _ _ H. by apply not_elem_of_nil in H.
  - apply list.NoDup_cons in Hnd as [Hl0 Hnd]. destruct (Htab l0) as [n0 Hn0]; [by constructor|].
    destruct (wok_table w Hw n0 l0 Hn0) as (r0 & Hr0 & Hname & Hc0).
    destruct (check_room_timeout_shape w l0 r0 Hw Hr0) as (Hw1 & Es & En & Er & Et).
    set (w1 := check_room_timeout w l0) in *.
    assert (forall name rl, rl <> l0 -> w_table w !! name = Some rl -> w_table w1 !! name = Some rl) as Hkeep.
    { intros name rl Hne H. rewrite Et. destruct (should_close w r0); [|done].
      rewrite lookup_delete_ne; [done|]. rewrite Hname. intros ->. congruence. }
    destruct (IH w1 Hw1 Hnd) as (J1 & J2 & J3 & J4 & J5).
    { intros l Hl. destruct (Htab l) as [n Hn]; [by constructor|]. exists n. apply Hkeep; [|done].
      intros ->. done. }
    split_and!; [exact J1| | | |].
    + intros rl [Hne Hni]%not_elem_of_cons. rewrite J2 by done. rewrite Er. by rewrite lookup_insert_ne.
    + intros name rl r Ht Hr [Hne Hni]%not_elem_of_cons. apply (J3 name rl r); [by apply Hkeep| |done].
      by rewrite Er, lookup_insert_ne.
    + intros name Hn. apply J4. rewrite Et. destruct (should_close w r0); [|done]. rewrite lookup_delete_None. by right.
    + intros name rl r Ht Hr Hin. destruct (decide (rl = l0)) as [->|Hne].
      * assert (r = r0) as -> by congruence. rewrite J2 by done. rewrite Er, lookup_insert_eq. split; [done|].
        assert (name = n0) as -> by (destruct (wok_table w Hw name l0 Ht) as (? & ? & ? & _); congruence).
        destruct (should_close w r0) eqn:Hs.
        -- apply J4. by rewrite Et, Hname, lookup_delete_eq.
        -- apply (J3 n0 l0 r0); [by rewrite Et| |done]. rewrite Er, lookup_insert_eq. unfold after_check. by rewrite Hs.
      * apply elem_of_cons in Hin as [|Hin]; [done|].
        destruct (J5 name rl r) as [K1 K2]; [by apply Hkeep|by rewrite Er, lookup_insert_ne|done|].
        rewrite K1, K2. unfold after_check. by rewrite !(should_close_frame w w1).
Qed.

Lemma list_rooms_nodup w : world_ok w -> NoDup (list_rooms w).
Proof.
  intros Hw. unfold list_rooms. apply NoDup_fmap_2_strong; [|apply NoDup_map_to_list].
  intros [n1 l1] [n2 l2] H1 H2 E. cbn in E. subst. apply elem_of_map_to_list in H1, H2.
  destruct (wok_table w Hw _ _ H1) as (r1 & E1 & N1 & _). destruct (wok_table w Hw _ _ H2) as (r2 & E2 & N2 & _).
  f_equal. congruence.
Qed.

Lemma elem_of_list_rooms w l : l ∈ list_rooms w <-> exists n, w_table w !! n = Some l.
Proof.
  unfold list_rooms. rewrite list_elem_of_fmap. split.
  - intros ([n l'] & -> & H). apply elem_of_map_to_list in H. by exists n.
  - intros [n H]. exists (n, l). by rewrite elem_of_map_to_list.
Qed.

(** The timeout sweep.  One pass over the room table closes exactly the rooms
    whose timeout has expired when the pass starts, removes exactly those from the
    table, and leaves every other room as it was: closing one room never changes
    the verdict on another, in whatever order the table is visited. *)
Theorem check_room_timeouts_spec w name rl r :
  world_ok w -> w_table w !! name = Some rl -> w_rooms w !! rl = Some r ->
  let w' := check_room_timeouts w in
  w_rooms w' !! rl = Some (if should_close w r then closed_room r else r) /\
  w_table w' !! name = (if should_close w r then None else Some rl) /\
  world_ok w'.
Proof.
  intros Hw Ht Hr. cbn zeta. unfold check_room_timeouts.
  destruct (check_fold_shape (list_rooms w) w Hw (list_rooms_nodup w Hw)) as (J1 & _ & _ & _ & J5).
  { intros l. by rewrite elem_of_list_rooms. }
  destruct (J5 name rl r Ht Hr) as [K1 K2]; [apply elem_of_list_rooms; by exists name|]. done.
Qed.


(** ** Capacity *)

Lemma omap_ext_in {A B} (f g : A -> option B) (l : list A) :
  (forall x, x ∈ l -> f x = g x) -> omap f l = omap g l.
Proof.
  induction l as [|a l IH]; intros H; [done|]. cbn. rewrite (H a) by constructor.
  rewrite IH; [done|]. intros x Hx. apply H. by constructor.
Qed.

Lemma omap_perm {A B} (f : A -> option B) (l l' : list A) : l ≡ₚ l' -> omap f l ≡ₚ omap f l'.
Proof. induction 1; cbn; repeat case_match; eauto using Permutation_trans, Permutation_swap. Qed.

Lemma filter_perm_length {A} (P : A -> Prop) `{!forall x, Decision (P x)} (l l' : list A) :
  l ≡ₚ l' -> length (filter P l) = length (filter P l').
Proof. intros Hll. by rewrite Hll. Qed.

Lemma members_insert r sid pl r' :
  r_participants r !! sid = None -> r_participants r' = <[sid := pl]> (r_participants r) ->
  members r' ≡ₚ pl :: members r.
Proof. intros Hf Hp. unfold members. rewrite Hp, map_to_list_insert by done. done. Qed.

Lemma count_joined rl pl w r p :
  w_parts w !! pl = Some p -> r_participants r !! p_sid p = None -> pl ∉ members r ->
  count_non_dependent (set_rooms (<[rl := joined_room (w_now w) r p pl]> (w_rooms w)) (upd_part pl (attach_room rl) w))
    (joined_room (w_now w) r p pl)
  = ((if non_dependent p then 1 else 0) + count_non_dependent w r)%nat.
Proof.
  intros Hp Hf Hni. pose proof (joined_room_fields (w_now w) r p pl) as (_&_&_&_&_&Fp&_).
  unfold count_non_dependent, parts_of. cbn [w_parts set_rooms].
  rewrite (filter_perm_length _ _ _ (omap_perm _ _ _ (members_insert r (p_sid p) pl _ Hf Fp))).
  change (w_parts (set_rooms ?m ?v)) with (w_parts v).
  cbn [omap list_omap]. rewrite upd_part_lookup, decide_True, Hp by done. cbn [fmap option_fmap option_map].
  assert (omap (fun l => w_parts (upd_part pl (attach_room rl) w) !! l) (members r)
          = omap (fun l => w_parts w !! l) (members r)) as ->.
  { apply omap_ext_in. intros l Hl. rewrite upd_part_lookup, decide_False; [done|]. intros ->. done. }
  rewrite filter_cons. change (non_dependent (attach_room rl p)) with (non_dependent p).
  destruct (non_dependent p); cbn [decide decide_rel]; case_decide; done.
Qed.

Lemma join_true rl pl w w' :
  join rl pl w = (w', true) ->
  exists r p, w_rooms w !! rl = Some r /\ w_parts w !! pl = Some p /\ r_closed r = false /\
    (non_dependent p = true -> is_full w r = false) /\
    existsb (fun q => (p_identity q =? p_identity p)%string) (parts_of w r) = false /\
    w' = set_rooms (<[rl := joined_room (w_now w) r p pl]> (w_rooms w)) (upd_part pl (attach_room rl) w).
Proof.
  unfold join, join_check. destruct (w_rooms w !! rl) as [r|] eqn:Hr; [|done].
  destruct (w_parts w !! pl) as [p|] eqn:Hp; [|done].
  destruct (r_closed r) eqn:Hc; [done|]. cbn [negb andb].
  destruct (non_dependent p && is_full w r) eqn:Hf; [done|]. cbn [negb].
  rewrite (join_insert_eq rl pl w r p) by done. destruct (existsb _ _) eqn:He; [done|].
  intros [= <-]. exists r, p. split_and!; try done. intros Hn. rewrite Hn in Hf. done.
Qed.

Lemma not_member w r p pl :
  w_parts w !! pl = Some p ->
  existsb (fun q => (p_identity q =? p_identity p)%string) (parts_of w r) = false -> pl ∉ members r.
Proof.
  intros Hp He [sid Hs]%elem_of_members.
  assert (statics w !! pl = Some (static p)) as Hst by (unfold statics; by rewrite lookup_fmap, Hp).
  by apply (no_identity_existsb w r p He sid pl (static p)).
Qed.

(** Capacity.  When a real participant is admitted by [join], the number of
    real participants in the room does not exceed a non-zero limit; agents and
    egress recorders are admitted without counting. *)
Theorem join_respects_capacity rl pl w w' r p :
  join rl pl w = (w', true) -> w_rooms w !! rl = Some r -> w_parts w !! pl = Some p ->
  r_participants r !! p_sid p = None -> r_max_participants r <> 0 ->
  exists r', w_rooms w' !! rl = Some r' /\ r_max_participants r' = r_max_participants r /\
    (non_dependent p = true -> Z.of_nat (count_non_dependent w' r') <= r_max_participants r) /\
    (non_dependent p = false -> count_non_dependent w' r' = count_non_dependent w r).
Proof.
  intros Hj Hr Hp Hf Hm. destruct (join_true rl pl w w' Hj) as (r0 & p0 & Hr0 & Hp0 & Hc & Hfull & He & ->).
  assert (r0 = r) as -> by congruence. assert (p0 = p) as -> by congruence.
  exists (joined_room (w_now w) r p pl). cbn [w_rooms set_rooms]. rewrite lookup_insert_eq. split; [done|].
  split; [apply joined_room_fields|]. rewrite (count_joined rl pl w r p Hp Hf) by (by apply (not_member w r p)).
  split; intros Hn; rewrite Hn; [|done]. specialize (Hfull Hn). unfold is_full in Hfull.
  replace (r_max_participants r =? 0) with false in Hfull by lia. bool_to_prop. lia.
Qed.

(** * Concurrent joins *)

Module JoinRace.

(** A call of [join]: before the capacity check, between the check and the
    participant lock, or returned. *)
Inductive jpc := JStart (pl : loc) | JChecked (pl : loc) | JDone (pl : loc) (result : bool).
Definition jloc (t : jpc) : loc := match t with JStart l => l | JChecked l => l | JDone l _ => l end.

Definition thread_step (rl : loc) (w : World) (t : jpc) : option (World * jpc) :=
  match t with
  | JStart pl => Some (w, if join_check w rl pl then JChecked pl else JDone pl false)
  | JChecked pl => let '(w', b) := join_insert rl pl w in Some (w', JDone pl b)
  | JDone _ _ => None
  end.

Inductive step (rl : loc) : World * list jpc -> World * list jpc -> Prop :=
| step_thread w ts i t w' t' :
    ts !! i = Some t -> thread_step rl w t = Some (w', t') -> step rl (w, ts) (w', <[i := t']> ts).

(** A participant that can still be added to the room. *)
Definition joinable (rl : loc) (w : World) (r : Room) (pl : loc) : Prop :=
  exists s, statics w !! pl = Some s /\ (s_room s = None \/ s_room s = Some rl) /\
            r_participants r !! s_sid s = None.
Definition pending (t : jpc) : Prop := match t with JDone _ _ => False | _ => True end.

Definition inv (rl : loc) (c : World * list jpc) : Prop :=
  world_ok c.1 /\
  (exists r, w_rooms c.1 !! rl = Some r /\ r_closed r = false /\
     forall i t, c.2 !! i = Some t -> pending t -> joinable rl c.1 r (jloc t)) /\
  (forall i j t u s1 s2, c.2 !! i = Some t -> c.2 !! j = Some u -> i <> j ->
     statics c.1 !! jloc t = Some s1 -> statics c.1 !! jloc u = Some s2 -> s_sid s1 <> s_sid s2).

Lemma statics_lookup w pl s :
  statics w !! pl = Some s -> exists p, w_parts w !! pl = Some p /\ static p = s.
Proof.
  unfold statics. rewrite lookup_fmap. destruct (w_parts w !! pl) as [p|]; [|done].
  intros [= <-]. by exists p.
Qed.

Lemma insert_other_joinable rl w r p pl l :
  w_parts w !! pl = Some p -> (forall s, statics w !! l = Some s -> s_sid s <> p_sid p) ->
  joinable rl w r l ->
  joinable rl (set_rooms (<[rl := joined_room (w_now w) r p pl]> (w_rooms w)) (upd_part pl (attach_room rl) w))
    (joined_room (w_now w) r p pl) l.
Proof.
  intros Hp Hne (s & Hs & Hr & Hf). pose proof (joined_room_fields (w_now w) r p pl) as (_&_&_&_&_&Fp&_).
  unfold joinable. change (statics (set_rooms ?m ?v)) with (statics v). rewrite statics_attach.
  assert (l <> pl) as Hl.
  { intros ->. unfold statics in Hs. rewrite lookup_fmap, Hp in Hs. injection Hs as <-.
    apply (Hne (static p)); [|done]. unfold statics. by rewrite lookup_fmap, Hp. }
  exists s. rewrite lookup_alter_ne by done. rewrite Fp. split_and!; [done..|].
  rewrite lookup_insert_ne; [done|]. by apply not_eq_sym, Hne.
Qed.

Lemma lookup_insert_cases (ts : list jpc) i t' j u :
  <[i := t']> ts !! j = Some u -> (j = i /\ u = t') \/ (j <> i /\ ts !! j = Some u).
Proof.
  intros H. destruct (decide (j = i)) as [->|Hne].
  - left. split; [done|]. apply list_lookup_insert_Some in H as [(_ & -> & _)|(? & _)]; done.
  - right. by rewrite list_lookup_insert_ne in H.
Qed.

Lemma join_step_inv rl c c' : inv rl c -> step rl c c' -> inv rl c'.
Proof.
  intros (Hw & (r & Hr & Hc & Hj) & Hd) Hst. destruct Hst as [w ts i t w' t' Hi Ht]. cbn [fst snd] in *.
  assert (forall w2, statics w2 = statics w -> w_rooms w2 = w_rooms w -> world_ok w2 -> jloc t' = jloc t ->
            inv rl (w2, <[i:=t']> ts)) as Hsame.
  { intros w2 Es Er Hw2 El. split; [done|]. split; cbn [fst snd].
    - exists r. rewrite Er. split_and!; [done..|]. intros j u Hju Hp. unfold joinable. rewrite Es.
      destruct (lookup_insert_cases _ _ _ _ _ Hju) as [[-> ->]|[_ Hju']]; [|by eapply Hj].
      rewrite El. apply (Hj i t Hi). by destruct t.
    - intros a b x y s1 s2 Ha Hb Hab. rewrite Es.
      destruct (lookup_insert_cases _ _ _ _ _ Ha) as [[-> ->]|[_ Ha']];
        destruct (lookup_insert_cases _ _ _ _ _ Hb) as [[-> ->]|[_ Hb']]; rewrite ?El; eauto. }
  destruct t as [pl|pl|]; cbn [thread_step] in Ht; [|clear Hsame|done].
  - injection Ht as <- <-. apply Hsame; [done..|]. by case_match.
  - destruct (Hj i (JChecked pl) Hi I) as (s & Hs & Hroom & Hfresh). cbn [jloc] in *.
    destruct (statics_lookup w pl s Hs) as (p & Hp & <-).
    pose proof (join_insert_ok rl pl w r p Hw Hr Hp Hc Hfresh Hroom) as Hok.
    rewrite (join_insert_eq rl pl w r p Hr Hp) in Ht, Hok.
    destruct (existsb _ _) eqn:He; injection Ht as <- <-; cbn [fst] in Hok.
    + split; [done|]. split; cbn [fst snd].
      * exists r. split_and!; [done..|]. intros j u Hju Hpu.
        destruct (lookup_insert_cases _ _ _ _ _ Hju) as [[-> ->]|[_ Hju']]; [done|by eapply Hj].
      * intros a b x y s1 s2 Ha Hb Hab.
        destruct (lookup_insert_cases _ _ _ _ _ Ha) as [[-> ->]|[_ Ha']];
          destruct (lookup_insert_cases _ _ _ _ _ Hb) as [[-> ->]|[_ Hb']]; cbn [jloc]; eauto; done.
    + set (w' := set_rooms _ _) in *.
      assert (forall l s', statics w' !! l = Some s' -> exists s0, statics w !! l = Some s0 /\ s_sid s0 = s_sid s') as Hback.
      { intros l s' Hl. change (statics w') with (statics (upd_part pl (attach_room rl) w)) in Hl.
        rewrite statics_attach in Hl. destruct (decide (l = pl)) as [->|]; [|rewrite lookup_alter_ne in Hl by done; eauto].
        rewrite lookup_alter_eq, Hs in Hl. cbn in Hl. injection Hl as <-. by eexists. }
      split; [done|]. split; cbn [fst snd].
      * exists (joined_room (w_now w) r p pl). cbn [w_rooms set_rooms w']. rewrite lookup_insert_eq. split; [done|].
        split; [by destruct (joined_room_fields (w_now w) r p pl) as (_ & -> & _)|].
        intros j u Hju Hpu. destruct (lookup_insert_cases _ _ _ _ _ Hju) as [[-> ->]|[Hne Hju']]; [done|].
        apply insert_other_joinable; [done| |by eapply Hj].
        intros s' Hs'. apply (Hd j i u (JChecked pl) s' (static p)); done.
      * intros a b x y s1 s2 Ha Hb Hab H1 H2. destruct (Hback _ _ H1) as (z1 & Hz1 & <-). destruct (Hback _ _ H2) as (z2 & Hz2 & <-).
        destruct (lookup_insert_cases _ _ _ _ _ Ha) as [[-> ->]|[_ Ha']];
          destruct (lookup_insert_cases _ _ _ _ _ Hb) as [[-> ->]|[_ Hb']]; cbn [jloc] in *; [done| | |].
        -- by apply (Hd i b (JChecked pl) y).
        -- by apply (Hd a i x (JChecked pl)).
        -- by apply (Hd a b x y).
Qed.

End JoinRace.

(** Adding a detached participant object to the store. *)
Definition new_part (pl : loc) (p : Participant) (w : World) : World := set_parts (<[pl := p]> (w_parts w)) w.

Lemma new_part_ok pl p w :
  world_ok w -> w_parts w !! pl = None -> world_ok (new_part pl p w).
Proof.
  intros [H1 H2 H3] Hf.
  assert (statics (new_part pl p w) = <[pl := static p]> (statics w)) as Hst.
  { unfold statics, new_part. cbn. apply fmap_insert. }
  assert (statics w !! pl = None) as Hn by (unfold statics; by rewrite lookup_fmap, Hf).
  assert (forall rl r sid l, w_rooms w !! rl = Some r -> r_participants r !! sid = Some l ->
            statics (new_part pl p w) !! l = statics w !! l) as Hsame.
  { intros rl r sid l Hr Hl. rewrite Hst, lookup_insert_ne; [done|]. intros <-.
    destruct (ok_members _ _ _ (H1 rl r Hr) _ _ Hl) as (s & Hs & _). congruence. }
  assert (forall rl r, w_rooms w !! rl = Some r -> occupied (statics (new_part pl p w)) r <-> occupied (statics w) r) as Ho.
  { intros rl r Hr. unfold occupied, nd_static. split; intros (sid & l & Hl & Hn'); exists sid, l; (split; [done|]);
      [rewrite (Hsame rl r sid l Hr Hl) in Hn'|rewrite (Hsame rl r sid l Hr Hl)]; done. }
  split; [| |exact H3].
  - intros rl r Hr. destruct (H1 rl r Hr) as [K1 K2 K3 K4 K5]. split; [| | |exact K4|exact K5].
    + intros sid l Hl. rewrite (Hsame rl r sid l Hr Hl). by apply K1.
    + intros sid1 sid2 l1 l2 s1 s2 Hl1 Hl2. rewrite (Hsame rl r _ _ Hr Hl1), (Hsame rl r _ _ Hr Hl2). by apply K2.
    + rewrite (Ho rl r Hr). exact K3.
  - intros rl r Hr. destruct (H2 rl r Hr) as (C1 & C2 & C3). unfold counting. rewrite (Ho rl r Hr). done.
Qed.

(** C7: concurrent joins keep the room consistent.  However the capacity check and
    the locked insertion of any number of concurrent [join] calls interleave, the
    room keeps one participant per identity, keyed by their own sids: the
    duplicate check and the insertion are under one lock. *)
Theorem concurrent_joins_consistent rl pls w0 r0 w ts :
  world_ok w0 -> w_rooms w0 !! rl = Some r0 -> r_closed r0 = false ->
  Forall (JoinRace.joinable rl w0 r0) pls ->
  (forall i j l1 l2 s1 s2, pls !! i = Some l1 -> pls !! j = Some l2 -> i <> j ->
     statics w0 !! l1 = Some s1 -> statics w0 !! l2 = Some s2 -> s_sid s1 <> s_sid s2) ->
  reach (JoinRace.step rl) (w0, JoinRace.JStart <$> pls) (w, ts) ->
  world_ok w.
Proof.
  intros Hw Hr Hc Hj Hd Hreach.
  apply (reach_invariant (JoinRace.step rl) (JoinRace.inv rl) (w0, JoinRace.JStart <$> pls)) in Hreach;
    [by destruct Hreach | |intros; by eapply JoinRace.join_step_inv].
  split; [done|]. split; cbn [fst snd].
  - exists r0. split_and!; [done..|]. intros i t Hi _. rewrite list_lookup_fmap in Hi.
    destruct (pls !! i) as [l|] eqn:El; [|done]. injection Hi as <-. by eapply (Forall_lookup_1 _ _ i).
  - intros i j t u s1 s2 Hi Hjj Hij. rewrite list_lookup_fmap in Hi, Hjj.
    destruct (pls !! i) as [l1|] eqn:E1; [|done]. destruct (pls !! j) as [l2|] eqn:E2; [|done].
    injection Hi as <-. injection Hjj as <-. cbn. by eapply Hd.
Qed.

(** A room with a limit of one and two callers. *)
Module Demo.
Definition room_world : World := (get_or_create_room "r" 0%nat "RM_1" (Some (300, 20, 1)) (empty_world 5000000)).1.
Definition caller (n : nat) : Participant :=
  Participant_new 5000000 (if (n =? 1)%nat then "PA_1" else "PA_2") (if (n =? 1)%nat then "a" else "b") "" "" Standard.
Definition w0 : World := new_part 2%nat (caller 2) (new_part 1%nat (caller 1) room_world).
Definition r0 : Room := set_on_close true (Room_new 5000000 "RM_1" "r" (Some (300, 20, 1))).

Lemma w0_ok : world_ok w0.
Proof.
  apply new_part_ok; [apply new_part_ok|]; [|reflexivity..].
  apply get_or_create_room_ok; [apply empty_world_ok|reflexivity].
Qed.

Lemma callers_joinable : Forall (JoinRace.joinable 0%nat w0 r0) [1%nat; 2%nat].
Proof.
  constructor; [|constructor; [|constructor]].
  - exists (static (caller 1)). split_and!; [reflexivity|by left|reflexivity].
  - exists (static (caller 2)). split_and!; [reflexivity|by left|reflexivity].
Qed.

Definition w1 : World := (join_insert 0%nat 1%nat w0).1.
Definition w2 : World := (join_insert 0%nat 2%nat w1).1.

Lemma checked_step rl pl w b :
  (join_insert rl pl w).2 = b ->
  JoinRace.thread_step rl w (JoinRace.JChecked pl) = Some ((join_insert rl pl w).1, JoinRace.JDone pl b).
Proof. intros <-. cbn. by destruct (join_insert rl pl w). Qed.

(** Both callers pass the check before either is inserted. *)
Lemma race : reach (JoinRace.step 0%nat) (w0, JoinRace.JStart <$> [1%nat; 2%nat])
  (w2, [JoinRace.JDone 1%nat true; JoinRace.JDone 2%nat true]).
Proof.
  assert (forall rl w ts w' ts' i t st, ts !! i = Some t -> JoinRace.thread_step rl w t = Some (w', st) ->
            ts' = <[i := st]> ts -> JoinRace.step rl (w, ts) (w', ts')) as Hst by (intros; subst; by econstructor).
  eapply reach_step; [eapply reach_step; [eapply reach_step; [eapply reach_step; [apply reach_init|]|]|]|].
  - by apply (Hst _ _ _ w0 [JoinRace.JChecked 1%nat; JoinRace.JStart 2%nat] 0%nat (JoinRace.JStart 1%nat) (JoinRace.JChecked 1%nat)).
  - by apply (Hst _ _ _ w0 [JoinRace.JChecked 1%nat; JoinRace.JChecked 2%nat] 1%nat (JoinRace.JStart 2%nat) (JoinRace.JChecked 2%nat)).
  - apply (Hst _ _ _ w1 [JoinRace.JDone 1%nat true; JoinRace.JChecked 2%nat] 0%nat (JoinRace.JChecked 1%nat) (JoinRace.JDone 1%nat true));
      [reflexivity|apply checked_step; vm_compute; reflexivity|reflexivity].
  - apply (Hst _ _ _ w2 [JoinRace.JDone 1%nat true; JoinRace.JDone 2%nat true] 1%nat (JoinRace.JChecked 2%nat) (JoinRace.JDone 2%nat true));
      [reflexivity|apply checked_step; vm_compute; reflexivity|reflexivity].
Qed.
End Demo.

Lemma concurrent_joins_consistent_witness : world_ok Demo.w2.
Proof.
  apply (concurrent_joins_consistent 0%nat [1%nat; 2%nat] Demo.w0 Demo.r0 Demo.w2
           [JoinRace.JDone 1%nat true; JoinRace.JDone 2%nat true]);
    [exact Demo.w0_ok|reflexivity|reflexivity|exact Demo.callers_joinable| |exact Demo.race].
  intros [|[|i]] [|[|j]] l1 l2 s1 s2 H1 H2 Hij H3 H4; try done;
    injection H1 as <-; injection H2 as <-; vm_compute in H3, H4; injection H3 as <-; injection H4 as <-; done.
Defined.

(** The capacity limit can be exceeded by a race.  [join] tests the capacity
    before it takes the participant lock, so two concurrent calls can both pass the
    test: a room limited to one participant ends up with two. *)
Theorem join_race_exceeds_capacity :
  exists r, reach (JoinRace.step 0%nat) (Demo.w0, JoinRace.JStart <$> [1%nat; 2%nat])
              (Demo.w2, [JoinRace.JDone 1%nat true; JoinRace.JDone 2%nat true]) /\
            w_rooms Demo.w2 !! 0%nat = Some r /\ r_max_participants r = 1 /\
            count_non_dependent Demo.w2 r = 2%nat.
Proof. eexists. split; [exact Demo.race|]. split; [vm_compute; reflexivity|]. split; vm_compute; reflexivity. Qed.

Module DemoFacts.
Definition joined : World := (join 0%nat 1%nat Demo.w0).1.
Definition joined_r : Room := joined_room 5000000 Demo.r0 (Demo.caller 1) 1%nat.

Lemma joined_ok : world_ok joined.
Proof.
  unfold joined, join. replace (join_check Demo.w0 0%nat 1%nat) with true by (vm_compute; reflexivity).
  apply (join_insert_ok 0%nat 1%nat Demo.w0 Demo.r0 (Demo.caller 1)); [exact Demo.w0_ok|reflexivity..|by left].
Qed.

Lemma joined_lookup : w_rooms joined !! 0%nat = Some joined_r.
Proof. vm_compute. reflexivity. Qed.
End DemoFacts.

Lemma close_room_spec_witness :
  w_table (close 0%nat ROOM_DELETED DemoFacts.joined) !! "r" = None.
Proof.
  exact (proj1 (proj2 (close_room_spec 0%nat ROOM_DELETED ROOM_CLOSED DemoFacts.joined DemoFacts.joined_r
    DemoFacts.joined_ok DemoFacts.joined_lookup eq_refl))).
Defined.

Lemma check_room_timeouts_spec_witness :
  w_table (check_room_timeouts (set_now 400000000 Demo.w0)) !! "r" = None.
Proof.
  assert (world_ok (set_now 400000000 Demo.w0)) as Hw by (apply set_now_ok; [vm_compute; discriminate|exact Demo.w0_ok]).
  pose proof (check_room_timeouts_spec (set_now 400000000 Demo.w0) "r" 0%nat Demo.r0 Hw eq_refl eq_refl) as (_ & H & _).
  rewrite H. vm_compute. reflexivity.
Defined.


Lemma join_respects_capacity_witness :
  exists r', w_rooms DemoFacts.joined !! 0%nat = Some r' /\
    Z.of_nat (count_non_dependent DemoFacts.joined r') <= 1.
Proof.
  destruct (join_respects_capacity 0%nat 1%nat Demo.w0 DemoFacts.joined Demo.r0 (Demo.caller 1))
    as (r' & Hr' & _ & Hc & _);
    [vm_compute; reflexivity|reflexivity|reflexivity|reflexivity|vm_compute; discriminate|].
  exists r'. split; [exact Hr'|]. apply Hc. reflexivity.
Defined.

(** * Delivery of updates *)

(** No two participants share an outbound channel. *)
Definition own_channels (w : World) : Prop :=
  forall l1 l2 p1 p2 c, w_parts w !! l1 = Some p1 -> w_parts w !! l2 = Some p2 ->
    p_tx p1 = Some c -> p_tx p2 = Some c -> l1 = l2.

(** What a [try_send] leaves in a channel. *)
Definition offered (ch : Chan) (m : SignalResponse) : Chan :=
  if c_open ch && (length (c_queue ch) <? SIGNAL_CHANNEL_CAPACITY)%nat
  then mkChan (c_queue ch ++ [m]) (c_open ch) else ch.

Lemma send_update_chans w l p m c ch c' :
  w_parts w !! l = Some p -> w_chans w !! c' = Some ch -> p_tx p = Some c ->
  w_chans (send_update l m w).1 !! c' = Some (if decide (c' = c) then offered ch m else ch).
Proof.
  intros Hp Hc Ht. unfold send_update. rewrite Hp. cbn [mbind option_bind]. rewrite Ht.
  destruct (decide (c' = c)) as [->|Hne].
  - rewrite Hc. unfold offered. case_match; cbn; [by rewrite lookup_insert_eq|done].
  - destruct (w_chans w !! c) as [ch'|]; [|done]. case_match; cbn; [by rewrite lookup_insert_ne|done].
Qed.

Lemma send_update_no_tx w l m : (w_parts w !! l ≫= p_tx) = None -> (send_update l m w).1 = w.
Proof. intros H. unfold send_update. by rewrite H. Qed.

Lemma send_all_chans ts m : forall w l p c ch,
  own_channels w -> NoDup ts -> w_parts w !! l = Some p -> p_tx p = Some c -> w_chans w !! c = Some ch ->
  w_chans (send_all ts m w) !! c = Some (if decide (l ∈ ts) then offered ch m else ch).
Proof.
  induction ts as [|t ts IH]; intros w l p c ch Ho Hnd Hp Ht Hc; cbn [send_all foldl].
  - rewrite decide_False; [done|]. apply not_elem_of_nil.
  - apply list.NoDup_cons in Hnd as [Hni Hnd]. set (w1 := (send_update t m w).1).
    assert (w_parts w1 = w_parts w) as Hw1 by apply send_update_parts.
    assert (own_channels w1) as Ho1 by (unfold own_channels; by rewrite Hw1).
    change (foldl _ w1 ts) with (send_all ts m w1).
    destruct (decide (t = l)) as [->|Hne].
    + assert (w_chans w1 !! c = Some (offered ch m)) as Hc1.
      { unfold w1. rewrite (send_update_chans w l p m c ch c) by done. by rewrite decide_True. }
      rewrite (IH w1 l p c (offered ch m)) by (done || by rewrite Hw1).
      rewrite decide_False, decide_True; [done| |done]. by constructor.
    + assert (w_chans w1 !! c = Some ch) as Hc1.
      { unfold w1. destruct (w_parts w !! t ≫= p_tx) as [c2|] eqn:E.
        - destruct (w_parts w !! t) as [q|] eqn:Eq; [|done]. cbn in E.
          rewrite (send_update_chans w t q m c2 ch c) by done. rewrite decide_False; [done|].
          intros <-. apply Hne. by apply (Ho t l q p c).
        - by rewrite send_update_no_tx. }
      rewrite (IH w1 l p c ch) by (done || by rewrite Hw1). f_equal.
      destruct (decide (l ∈ ts)) as [Hin|Hin]; [rewrite decide_True; [done|by constructor]|].
      rewrite decide_False; [done|]. rewrite not_elem_of_cons. done.
Qed.

Lemma members_nodup w rl r : world_ok w -> w_rooms w !! rl = Some r -> NoDup (members r).
Proof.
  intros Hw Hr. unfold members. apply NoDup_fmap_2_strong; [|apply NoDup_map_to_list].
  intros [s1 l1] [s2 l2] H1 H2 E. cbn in E. subst. apply elem_of_map_to_list in H1, H2.
  destruct (ok_members _ _ _ (wok_rooms w Hw rl r Hr) _ _ H1) as (x1 & E1 & N1 & _).
  destruct (ok_members _ _ _ (wok_rooms w Hw rl r Hr) _ _ H2) as (x2 & E2 & N2 & _). f_equal. congruence.
Qed.

Lemma hidden_only_single i : hidden_only [i] = info_hidden i.
Proof.
  unfold hidden_only, hidden_sids. rewrite filter_cons, filter_nil.
  destruct (info_hidden i); case_decide; try done.
  - cbn. rewrite bool_decide_false by set_solver.
    assert (({[pi_sid i]} ∪ ∅ : gset string) = {[pi_sid i]}) as -> by set_solver. by rewrite size_singleton.
Qed.

Lemma hidden_sids_single i sid : info_hidden i = true -> sid ∈ hidden_sids [i] <-> sid = pi_sid i.
Proof. intros H. unfold hidden_sids. rewrite filter_cons, filter_nil, decide_True by done. set_solver. Qed.

(** Who receives a participant update.  Broadcasting the update of one
    participant appends it once to the channel of every member of the room except
    the excluded one, dropping it where the channel is full or its reader is gone;
    the update of a hidden participant reaches no channel but that participant's
    own. *)
Theorem update_delivery w rl r i except l p c ch :
  world_ok w -> own_channels w -> w_rooms w !! rl = Some r ->
  r_participants r !! p_sid p = Some l -> w_parts w !! l = Some p ->
  p_tx p = Some c -> w_chans w !! c = Some ch ->
  w_chans (broadcast_participant_update rl [i] except w) !! c =
  Some (if negb (bool_decide (except = Some (p_sid p))) &&
           (negb (info_hidden i) || (p_sid p =? pi_sid i)%string)
        then offered ch (RUpdate [i]) else ch).
Proof.
  intros Hw Ho Hr Hm Hp Ht Hc. unfold broadcast_participant_update. rewrite Hr.
  rewrite (send_all_chans _ _ w l p c ch); [| done | | done | done | done].
  2: { unfold update_targets. apply list.NoDup_filter, (members_nodup w rl r Hw Hr). }
  f_equal. unfold update_targets.
  assert (update_target w [i] except l =
          negb (bool_decide (except = Some (p_sid p))) && (negb (info_hidden i) || (p_sid p =? pi_sid i)%string)) as Hu.
  { unfold update_target, sid_of. rewrite Hp. cbn [fmap option_fmap option_map].
    rewrite hidden_only_single. f_equal.
    destruct (info_hidden i) eqn:Eh; [|done]. cbn [negb orb]. apply Bool.eq_iff_eq_true.
    rewrite bool_decide_eq_true, (hidden_sids_single i _ Eh), String.eqb_eq. done. }
  rewrite <- Hu. destruct (update_target w [i] except l) eqn:Eu.
  - rewrite decide_True; [done|]. apply list_elem_of_filter. split; [done|]. apply elem_of_members. by exists (p_sid p).
  - rewrite decide_False; [done|]. rewrite list_elem_of_filter. intros [E _]. congruence.
Qed.

Module DemoWired.
Definition wired : World :=
  set_chans {[9%nat := mkChan [] true]} (upd_part 1%nat (set_p_tx (Some 9%nat)) DemoFacts.joined).
Definition p1 : Participant := set_p_tx (Some 9%nat) (attach_room 0%nat (Demo.caller 1)).
Definition other : ParticipantInfo := (participant_to_proto ∅ (Demo.caller 2)).2.

Lemma wired_ok : world_ok wired.
Proof.
  eapply frame_world_ok; [|exact DemoFacts.joined_ok].
  transitivity (upd_part 1%nat (set_p_tx (Some 9%nat)) DemoFacts.joined); [by apply upd_part_frame|done].
Qed.

Lemma wired_parts : w_parts wired = {[1%nat := p1; 2%nat := Demo.caller 2]}.
Proof. vm_compute. reflexivity. Qed.

Lemma wired_channels : own_channels wired.
Proof.
  intros l1 l2 q1 q2 c. rewrite wired_parts.
  intros [[<- <-]|[_ [<- <-]%lookup_singleton_Some]]%lookup_insert_Some
         [[<- <-]|[_ [<- <-]%lookup_singleton_Some]]%lookup_insert_Some; done.
Qed.
End DemoWired.

Lemma update_delivery_witness :
  w_chans (broadcast_participant_update 0%nat [DemoWired.other] None DemoWired.wired) !! 9%nat
  = Some (mkChan [RUpdate [DemoWired.other]] true).
Proof.
  exact (update_delivery DemoWired.wired 0%nat DemoFacts.joined_r DemoWired.other None 1%nat DemoWired.p1 9%nat (mkChan [] true)
    DemoWired.wired_ok DemoWired.wired_channels DemoFacts.joined_lookup eq_refl
    ltac:(rewrite DemoWired.wired_parts; reflexivity) eq_refl eq_refl).
Defined.
