(* ===== verification/Signal.v ===== *)
(** Signaling, [crates/lk-server/src/signal.rs]: the handlers of participant
    requests, the callbacks of the media plane, joining, resuming and ending a
    session, over the [World] of [Room.v].

    Calls into the media plane, the agent manager and the webhook queue are
    recorded in the trace of the world; their results are only logged by the
    source.  Values the source draws (locations of new objects, random ids) are
    arguments. *)
From Stdlib Require Import ZArith Lia Ascii String.
From stdpp Require Import base gmap strings list option.
From S2P Require Import Prelude RustStr Core Track Auth Proto Participant Room.

Open Scope string_scope.
Open Scope list_scope.
Open Scope Z_scope.

Definition PROTOCOL_VERSION : Z := 17.
Definition SERVER_VERSION : string := "1.13.5".
Definition AGENT_PROTOCOL : Z := 1.
Definition PING_INTERVAL_SECS : Z := 5.
Definition PING_TIMEOUT_SECS : Z := 15.

Record SessionParams := mkParams {
  sp_reconnect : bool;
  sp_participant_sid : string;
  sp_auto_subscribe : bool;
  sp_publish : bool;
  sp_metadata : string;
  sp_attributes : gmap string string;
  sp_add_track_requests : list AddTrackRequest
}.

(** [participant.room()]: the weak reference resolves while the room object lives. *)
Definition room_of (w : World) (pl : loc) : option (loc * Room) :=
  p ← w_parts w !! pl; rl ← p_room p; r ← w_rooms w !! rl; Some (rl, r).

(** The other members of a room. *)
Definition others (w : World) (r : Room) (sid : string) : list loc :=
  filter (fun l => negb (bool_decide (sid_of w l = Some sid)) = true) (members r).

(** * Callbacks of the media plane *)

Definition subscribe_if_allowed (track_sid publisher_sid : string) (w : World) (l : loc) : World :=
  match w_parts w !! l with
  | Some s => if p_can_subscribe s && p_auto_subscribe s
              then emit (EvSubscribe (p_sid s) track_sid publisher_sid) w else w
  | None => w
  end.

Definition on_track_published (pl tl : loc) (w : World) : World :=
  match w_parts w !! pl, room_of w pl, w_tracks w !! tl with
  | Some p, Some (rl, r), Some t =>
      let room_proto := room_to_proto w r in
      match info_of pl w with
      | (w, Some info) =>
          let track_info := track_to_proto t in
          let w := broadcast_participant_update rl [info] (Some (p_sid p)) w in
          let w := foldl (subscribe_if_allowed (t_sid t) (p_sid p)) w (others w r (p_sid p)) in
          emit (EvTrackPublished room_proto info track_info) w
      | (w, None) => w
      end
  | _, _, _ => w
  end.

Definition on_track_unpublished (pl : loc) (track_sid : string) (w : World) : World :=
  match w_parts w !! pl, room_of w pl with
  | Some p, Some (rl, r) =>
      match remove_track (w_tracks w) track_sid p with
      | (_, None) => w
      | (p', Some tl) =>
          let w := set_parts (<[pl := p']> (w_parts w)) w in
          let w := foldl (fun w l => match sid_of w l with
                                     | Some s => emit (EvUnsubscribe s track_sid) w
                                     | None => w end) w (others w r (p_sid p)) in
          match info_of pl w with
          | (w, Some info) =>
              let w := broadcast_participant_update rl [info] (Some (p_sid p)) w in
              let w := (send pl (RTrackUnpublished track_sid) w).1 in
              match info_of pl w, w_tracks w !! tl with
              | (w', Some info'), Some t =>
                  emit (EvTrackUnpublished (room_to_proto w r) info' (track_to_proto t)) w'
              | (w', _), _ => w'
              end
          | (w, None) => w
          end
      end
  | _, _ => w
  end.

(** * Ending a participant *)

Definition already_removed (w : World) (pl : loc) : bool :=
  match w_parts w !! pl, room_of w pl with
  | Some p, Some (_, r) => match get_participant (p_sid p) r with Some _ => false | None => true end
  | _, _ => true
  end.

(** The updates of the participant itself. *)
Definition mark_disconnected (reason : DisconnectReason) (p : Participant) : Participant :=
  clear_signal_sink (set_p_reason (reason_i32 reason) (set_state Disconnected p).1).

Definition end_participant (pl : loc) (reason : DisconnectReason) (w : World) : World :=
  if already_removed w pl then w
  else
    let w := upd_part pl (mark_disconnected reason) w in
    match w_parts w !! pl, room_of w pl with
    | Some p, Some (rl, r) =>
        let room_proto := room_to_proto w r in
        match info_of pl w with
        | (w, Some info) =>
            let w := (remove_participant rl (p_sid p) w).1 in
            let w := emit (EvCloseMedia (p_sid p)) w in
            let w := broadcast_participant_update rl [info] (Some (p_sid p)) w in
            let w := on_participant_left rl w in
            let w := emit (EvParticipantTotal (-1)) w in
            emit (EvParticipantLeft room_proto info) w
        | (w, None) => w
        end
    | _, _ => w
    end.

Definition on_media_disconnected (pl : loc) (failed : bool) (w : World) : World :=
  if failed then end_participant pl CLIENT_INITIATED w else w.

(** [close_signal]. *)
Definition close_signal (pl : loc) (reason : DisconnectReason) (w : World) : World :=
  let w := (send_update pl (RLeave (reason_i32 reason)) w).1 in
  match w_parts w !! pl with
  | Some p =>
      if bool_decide (state p = Disconnected) then w
      else upd_part pl (fun p => set_p_reason (reason_i32 reason) (set_state Disconnected p).1) w
  | None => w
  end.

(** * Data packets *)

(** The packet as it is forwarded: the kind is that of the channel it came on, and
    a hidden sender stays anonymous. *)
Definition normalize_packet (p : Participant) (lossy : bool) (pk : DataPacket) : DataPacket :=
  let kind := if lossy then Lossy else Reliable in
  if hidden (p_permission p)
  then mkPacket kind "" "" (dp_destination_identities pk) (dp_value pk)
  else mkPacket kind
         (if (dp_participant_identity pk =? "")%string then p_identity p else dp_participant_identity pk)
         (if (dp_participant_sid pk =? "")%string then p_sid p else dp_participant_sid pk)
         (dp_destination_identities pk) (dp_value pk).

Definition dest_sids (pk : DataPacket) : list string :=
  match dp_value pk with Some (DUser _ sids) => sids | _ => [] end.

(** [broadcast || dest_identities... || dest_sids...]. *)
Definition addressed (pk : DataPacket) (q : Participant) : bool :=
  (bool_decide (dp_destination_identities pk = []) && bool_decide (dest_sids pk = []))
  || existsb (fun d => (d =? p_identity q)%string) (dp_destination_identities pk)
  || existsb (fun s => (s =? p_sid q)%string) (dest_sids pk).

Definition forward_data (out : DataPacket) (sender : string) (w : World) (l : loc) : World :=
  match w_parts w !! l with
  | Some q => if negb (p_sid q =? sender)%string && addressed out q
              then emit (EvData (p_sid q) out) w else w
  | None => w
  end.

(** [handle_incoming_data] on a packet that decodes. *)
Definition handle_incoming_data (pl : loc) (pk : DataPacket) (lossy : bool) (w : World) : World :=
  match w_parts w !! pl, room_of w pl with
  | Some p, Some (_, r) =>
      if can_publish_data (p_permission p)
      then let out := normalize_packet p lossy pk in
           foldl (forward_data out (p_sid p)) w (members r)
      else w
  | _, _ => w
  end.

(** * Requests *)

(** [send_request_response]. *)
Definition send_request_response (pl : loc) (reason : RequestReason) (req : AddTrackRequest) (w : World) : World :=
  (send pl (RRequestResponse reason req) w).1.

(** The track an accepted request creates. *)
Definition track_of_request (now : Z) (sid : string) (req : AddTrackRequest) : PublishedTrack :=
  let t := PublishedTrack_new now sid (at_name req) (at_cid req) (source_from_proto (at_source req)) (at_stream req) in
  let t := if at_muted req then (set_muted now true t).1 else t in
  mkTrack (t_sid t) (t_cid t) (t_name t) (t_kind t) (t_source t) (t_stream t) (t_muted t) (t_mime t)
    (t_mid t) (t_version t) (negb (at_disable_red req)) (at_encryption req) (at_stereo req)
    (at_disable_dtx req) (at_audio_features req) (at_backup_codec_policy req).

Definition handle_add_track (pl : loc) (req : AddTrackRequest) (tl : loc) (tsid : string) (w : World) : World :=
  match w_parts w !! pl with
  | None => w
  | Some p =>
      if negb (p_can_publish p) then send_request_response pl NOT_ALLOWED req w
      else if negb (at_type req =? track_kind_to_proto Audio) then send_request_response pl UNSUPPORTED_TYPE req w
      else
        let t := track_of_request (w_now w) tsid req in
        let w := set_tracks (<[tl := t]> (w_tracks w)) w in
        let w := upd_part pl (add_track (t_sid t) (t_cid t) tl) w in
        (send pl (RTrackPublished (at_cid req) (track_to_proto t)) w).1
  end.

Definition set_track_muted (pl : loc) (sid : string) (muted from_server : bool) (w : World) : World :=
  match w_parts w !! pl with
  | None => w
  | Some p =>
      match tl ← get_track sid p; t ← w_tracks w !! tl; Some (tl, t) with
      | None => w
      | Some (tl, t) =>
          let '(t', changed) := set_muted (w_now w) muted t in
          let w := set_tracks (<[tl := t']> (w_tracks w)) w in
          if negb changed then w
          else
            let w := if from_server then (send pl (RMute sid muted) w).1 else w in
            match room_of w pl with
            | Some (rl, _) =>
                match info_of pl w with
                | (w, Some info) => broadcast_participant_update rl [info] (Some (p_sid p)) w
                | (w, None) => w
                end
            | None => w
            end
      end
  end.

(** [find_track]: the first participant with a track of that sid. *)
Definition find_track (w : World) (r : Room) (tid : string) : option (loc * loc) :=
  head (omap (fun l => p ← w_parts w !! l; t ← get_track tid p; Some (l, t)) (members r)).

Record UpdateSubscription := mkSub {
  us_track_sids : list string;
  us_subscribe : bool;
  us_participant_tracks : list (string * list string)
}.

(** One [add_subscription] or [remove_subscription]. *)
Definition apply_subscription (subscribe : bool) (subscriber tid publisher : string) (w : World) : World :=
  emit (if subscribe then EvSubscribe subscriber tid publisher else EvUnsubscribe subscriber tid) w.

Definition handle_update_subscriptions (pl : loc) (sub : UpdateSubscription) (w : World) : World :=
  match w_parts w !! pl, room_of w pl with
  | Some p, Some (_, r) =>
      if negb (p_can_subscribe p) then w
      else
        let w := foldl (fun w pt =>
          match get_participant pt.1 r ≫= (fun l => w_parts w !! l) with
          | None => w
          | Some publisher =>
              foldl (fun w tid =>
                match get_track tid publisher with
                | Some _ => apply_subscription (us_subscribe sub) (p_sid p) tid (p_sid publisher) w
                | None => w
                end) w pt.2
          end) w (us_participant_tracks sub) in
        foldl (fun w tid =>
          if existsb (fun pt => existsb (fun t => (t =? tid)%string) pt.2) (us_participant_tracks sub) then w
          else match find_track w r tid with
               | None => w
               | Some (l, _) =>
                   match w_parts w !! l with
                   | Some publisher => apply_subscription (us_subscribe sub) (p_sid p) tid (p_sid publisher) w
                   | None => w
                   end
               end) w (us_track_sids sub)
  | _, _ => w
  end.

Definition handle_leave (pl : loc) (reason : Z) (w : World) : World :=
  end_participant pl (default CLIENT_INITIATED (reason_try_from reason)) w.

Definition handle_update_metadata (pl : loc) (metadata name : string) (attrs : gmap string string) (w : World) : World :=
  match w_parts w !! pl with
  | None => w
  | Some p =>
      if negb (can_update_metadata (p_permission p)) then w
      else
        let name := if (name =? "")%string then None else Some name in
        let '(p, changed) := update_metadata metadata name p in
        let w := set_parts (<[pl := p]> (w_parts w)) w in
        if changed || negb (bool_decide (attrs = ∅)) then
          let w := upd_part pl (fun p => (set_attributes attrs p).1) w in
          match room_of w pl with
          | Some (rl, _) =>
              match info_of pl w with
              | (w, Some info) => broadcast_participant_update rl [info] None w
              | (w, None) => w
              end
          | None => w
          end
        else w
  end.

(** A track the client says it publishes: its cid and, if present, its info; the
    location and id a new object gets. *)
Record SyncTrack := mkSyncTrack { sy_cid : string; sy_track : option TrackInfo; sy_loc : loc; sy_sid : string }.

Definition sync_track (pl : loc) (w : World) (s : SyncTrack) : World :=
  match sy_track s, w_parts w !! pl with
  | Some ti, Some p =>
      match get_track_by_cid (sy_cid s) p with
      | Some _ => w
      | None =>
          let t := PublishedTrack_new (w_now w) (sy_sid s) (ti_name ti) (sy_cid s) (source_from_proto (ti_source ti)) (ti_stream ti) in
          upd_part pl (add_track (t_sid t) (t_cid t) (sy_loc s)) (set_tracks (<[sy_loc s := t]> (w_tracks w)) w)
      end
  | _, _ => w
  end.

Definition handle_sync_state (pl : loc) (tracks : list SyncTrack) (w : World) : World :=
  let w := foldl (sync_track pl) w tracks in
  match sid_of w pl with Some s => emit (EvNegotiate s) w | None => w end.

(** [handle_offer]; [answer] is the outcome of the media plane. *)
Definition handle_offer (pl : loc) (answer : option SessionDescription) (w : World) : World :=
  let w := upd_part pl (fun p => (set_state Joined p).1) w in
  match w_parts w !! pl with
  | Some p =>
      if negb (p_can_publish p) then w
      else match answer with Some sd => (send pl (RAnswer sd) w).1 | None => w end
  | None => w
  end.

(** [signal_request::Message]; what only reaches the media plane or is ignored by
    the voice-only server is one constructor. *)
Inductive SignalRequest :=
| QOffer (answer : option SessionDescription)
| QAddTrack (req : AddTrackRequest) (tl : loc) (tsid : string)
| QMute (sid : string) (muted : bool)
| QSubscription (sub : UpdateSubscription)
| QLeave (reason : Z)
| QUpdateMetadata (metadata name : string) (attrs : gmap string string)
| QPingReq (timestamp : Z)
| QPing
| QSyncState (tracks : list SyncTrack)
| QMediaOrIgnored.

Definition handle_participant_request (pl : loc) (req : SignalRequest) (w : World) : World :=
  match req with
  | QOffer a => handle_offer pl a w
  | QAddTrack r tl tsid => handle_add_track pl r tl tsid w
  | QMute sid m => set_track_muted pl sid m false w
  | QSubscription s => handle_update_subscriptions pl s w
  | QLeave r => handle_leave pl r w
  | QUpdateMetadata m n a => handle_update_metadata pl m n a w
  | QPingReq ts => (send pl (RPongResp ts (millis w)) w).1
  | QPing => (send pl (RPong (millis w)) w).1
  | QSyncState ts => handle_sync_state pl ts w
  | QMediaOrIgnored => w
  end.

(** * Sessions *)

Definition participant_kind_from_token (t : VerifiedToken) : ParticipantKind :=
  let k := to_uppercase (tk_kind t) in
  if (k =? "AGENT")%string then Agent
  else if (k =? "EGRESS")%string then Egress
  else if (k =? "SIP")%string then Sip
  else if (k =? "INGRESS")%string then Ingress
  else Standard.

(** The values [join_room] draws. *)
Record Draws := mkDraws { dr_room : loc; dr_room_sid : string; dr_part : loc; dr_part_sid : string }.

(** The participant object of a join, before it is added to the room. *)
Definition session_participant (now : Z) (token : VerifiedToken) (params : SessionParams) (kind : ParticipantKind)
  (rl : loc) (psid : string) : Participant :=
  let p := Participant_new now psid (tk_identity token) (tk_name token) (tk_metadata token) kind in
  let p := attach_room rl p in
  let p := set_p_auto_subscribe (sp_auto_subscribe params) p in
  let p := (set_attributes (tk_attributes token) p).1 in
  let p := set_p_permission (permission_from_grant (video token)) p in
  if (sp_metadata params =? "")%string then p else set_p_meta (p_name p) (sp_metadata params) p.

(** The dispatches a token adds to a room, with what is new. *)
Definition add_dispatch (acc : Room * list RoomAgentDispatch) (d : RoomAgentDispatch) : Room * list RoomAgentDispatch :=
  let '(r, new) := acc in
  let '(r, added) := add_agent_dispatch d r in
  if added then (mark_dispatch_launched (dispatch_key d) r, new ++ [d]) else (r, new).

Definition token_agents (token : VerifiedToken) : list RoomAgentDispatch :=
  match room_config token with Some rc => rc_agents rc | None => [] end.

(** [Err] when the token does not allow the join. *)
Definition check_join (token : VerifiedToken) (params : SessionParams) : Result string string :=
  if negb (room_join (video token)) then Err "join permission denied"
  else if (tk_identity token =? "")%string then Err "identity is required"
  else if (vg_room (video token) =? "")%string then Err "room is required"
  else if negb (sp_publish params) && negb (token_can_subscribe token) then Err "subscribe permission denied"
  else Ok (vg_room (video token)).

(** The session of an existing participant with the same identity is ended. *)
Definition evict_duplicate (identity : string) (rl : loc) (w : World) : World :=
  match w_rooms w !! rl ≫= get_participant_by_identity w identity with
  | Some old => end_participant old DUPLICATE_IDENTITY (close_signal old DUPLICATE_IDENTITY w)
  | None => w
  end.

(** The announcements after a successful [Room::join]. *)
Definition announce_join (first_join : bool) (rl pl : loc) (psid : string) (w : World) : World :=
  match w_rooms w !! rl with
  | None => w
  | Some r =>
      let room_proto := room_to_proto w r in
      match info_of pl w with
      | (w, Some info) =>
          let w := if first_join then emit (EvRoomStarted room_proto) w else w in
          let w := emit (EvParticipantTotal 1) w in
          let w := broadcast_participant_update rl [info] (Some psid) w in
          emit (EvParticipantJoined room_proto info) w
      | (w, None) => w
      end
  end.

Definition join_room (limits : option (Z * Z * Z)) (token : VerifiedToken) (params : SessionParams)
  (kind : ParticipantKind) (dr : Draws) (w : World)
  : World * Result string (loc * loc * list RoomAgentDispatch) :=
  match check_join token params with
  | Err e => (w, Err e)
  | Ok room_name =>
      let '(w, rl) := get_or_create_room room_name (dr_room dr) (dr_room_sid dr) limits w in
      let w := evict_duplicate (tk_identity token) rl w in
      match w_rooms w !! rl with
      | None => (w, Err "room is full or closed")
      | Some r =>
          let first_join := negb (r_ever_joined r) in
          let p := session_participant (w_now w) token params kind rl (dr_part_sid dr) in
          let w := new_part (dr_part dr) p w in
          let '(r, new) := foldl add_dispatch (r, []) (token_agents token) in
          let w := set_rooms (<[rl := r]> (w_rooms w)) w in
          match join rl (dr_part dr) w with
          | (w, false) => (w, Err "room is full or closed")
          | (w, true) => (announce_join first_join rl (dr_part dr) (dr_part_sid dr) w, Ok (rl, dr_part dr, new))
          end
      end
  end.

(** [resume_room_participant]. *)
Definition resume_room_participant (token : VerifiedToken) (params : SessionParams) (w : World)
  : World * option (loc * loc) :=
  match rl ← get_room (vg_room (video token)) w; r ← w_rooms w !! rl;
        pl ← get_participant_by_identity w (tk_identity token) r; p ← w_parts w !! pl; Some (rl, pl, p) with
  | None => (w, None)
  | Some (rl, pl, p) =>
      if bool_decide (state p = Disconnected) then (w, None)
      else if negb (sp_participant_sid params =? "")%string && negb (p_sid p =? sp_participant_sid params)%string
      then (w, None)
      else (upd_part pl (fun p => set_p_resume_gen (wrap_u 64 (p_resume_gen p + 1)) p) w, Some (rl, pl))
  end.

(** The reader loop of [run_signal_session]: it stops after the request that
    disconnects the participant, or when the transport ends. *)
Fixpoint session_loop (pl : loc) (reqs : list SignalRequest) (w : World) : World :=
  match reqs with
  | [] => w
  | req :: rest =>
      let w := handle_participant_request pl req w in
      match w_parts w !! pl with
      | Some p => if bool_decide (state p = Disconnected) then w else session_loop pl rest w
      | None => w
      end
  end.

(** The end of a session: the generation the grace task remembers, if it is
    spawned. *)
Definition session_end (pl : loc) (w : World) : option Z :=
  match w_parts w !! pl with
  | Some p => if bool_decide (state p = Disconnected) then None else Some (p_resume_gen p)
  | None => None
  end.

(** The grace task, when its sleep is over. *)
Definition grace_task (pl : loc) (gen : Z) (w : World) : World :=
  match w_parts w !! pl with
  | Some p => if p_resume_gen p =? gen then end_participant pl SIGNAL_CLOSE w else w
  | None => w
  end.

(** * Handlers that leave the lifecycle alone *)

Lemma set_tracks_frame m w : frame w (set_tracks m w).
Proof. done. Qed.

Lemma insert_part_frame pl p p' w :
  w_parts w !! pl = Some p -> static p' = static p -> frame w (set_parts (<[pl := p']> (w_parts w)) w).
Proof. intros Hp Hs. split_and!; [by eapply statics_insert|done..]. Qed.

Lemma static_set_attributes a p : static (set_attributes a p).1 = static p.
Proof. unfold set_attributes. by destruct (foldl _ _ _). Qed.

Lemma static_update_metadata m n p : static (update_metadata m n p).1 = static p.
Proof. unfold update_metadata. repeat case_match; simplify_eq; done. Qed.

Lemma static_remove_track h sid p : static (remove_track h sid p).1 = static p.
Proof. unfold remove_track. by case_match. Qed.

(** Peels one operation off the world on the right of a frame. *)
Ltac frame_step :=
  match goal with
  | |- frame ?w ?w => reflexivity
  | H : frame ?w ?x |- frame ?w ?x => exact H
  | |- frame _ (emit _ _) => etrans; [|apply emit_frame]
  | |- frame _ (send _ _ _).1 => etrans; [|apply send_frame]
  | |- frame _ (send_update _ _ _).1 => etrans; [|apply send_update_frame]
  | |- frame _ (set_tracks _ _) => etrans; [|apply set_tracks_frame]
  | |- frame _ (broadcast_participant_update _ _ _ _) => etrans; [|apply broadcast_participant_update_frame]
  | |- frame _ (upd_part _ _ _) =>
      etrans; [|apply upd_part_frame; intros; first [reflexivity | apply static_set_state | apply static_set_attributes]]
  | |- frame _ (foldl _ _ _) => etrans; [|apply foldl_frame; intros]
  | |- context [info_of ?pl ?w] =>
      let H := fresh "Hinfo" in
      pose proof (info_of_frame pl w) as H; destruct (info_of pl w) as [? [?|]]; cbn [fst] in H
  | H : frame ?x ?y |- frame ?w ?y => transitivity x; [|exact H]; clear H
  | |- frame _ (match ?x with _ => _ end) => destruct x eqn:?
  | |- frame _ (if ?x then _ else _) => destruct x eqn:?
  | |- frame _ (let _ := _ in _) => cbv zeta
  end.
Ltac solve_frame := repeat frame_step.

Lemma on_track_published_frame pl tl w : frame w (on_track_published pl tl w).
Proof. unfold on_track_published, subscribe_if_allowed. cbv zeta. solve_frame. Qed.

Lemma close_signal_frame pl reason w : frame w (close_signal pl reason w).
Proof. unfold close_signal. cbv zeta. solve_frame. Qed.

Lemma handle_incoming_data_frame pl pk lossy w : frame w (handle_incoming_data pl pk lossy w).
Proof. unfold handle_incoming_data, forward_data. cbv zeta. solve_frame. Qed.

Lemma handle_add_track_frame pl req tl tsid w : frame w (handle_add_track pl req tl tsid w).
Proof. unfold handle_add_track, send_request_response. cbv zeta. solve_frame. Qed.

Lemma set_track_muted_frame pl sid m fs w : frame w (set_track_muted pl sid m fs w).
Proof. unfold set_track_muted. cbv zeta. solve_frame. Qed.

Lemma handle_update_subscriptions_frame pl sub w : frame w (handle_update_subscriptions pl sub w).
Proof. unfold handle_update_subscriptions, apply_subscription. cbv zeta. solve_frame. Qed.

Lemma handle_update_metadata_frame pl m n a w : frame w (handle_update_metadata pl m n a w).
Proof.
  unfold handle_update_metadata. cbv zeta. destruct (w_parts w !! pl) as [p|] eqn:Hp; [|done].
  destruct (negb _); [done|]. destruct (update_metadata _ _ _) as [p' c] eqn:E.
  assert (frame w (set_parts (<[pl := p']> (w_parts w)) w)) as H1.
  { eapply insert_part_frame; [done|]. pose proof (static_update_metadata m (if (n =? "")%string then None else Some n) p) as Hs.
    by rewrite E in Hs. }
  solve_frame; exact H1.
Qed.

Lemma handle_sync_state_frame pl ts w : frame w (handle_sync_state pl ts w).
Proof. unfold handle_sync_state, sync_track. cbv zeta. solve_frame. Qed.

Lemma handle_offer_frame pl a w : frame w (handle_offer pl a w).
Proof. unfold handle_offer. cbv zeta. solve_frame. Qed.

Lemma on_track_unpublished_frame pl sid w : frame w (on_track_unpublished pl sid w).
Proof.
  unfold on_track_unpublished. cbv zeta. destruct (w_parts w !! pl) as [p|] eqn:Hp; [|done].
  destruct (room_of w pl) as [[rl r]|]; [|done].
  destruct (remove_track _ _ _) as [p' [tl|]] eqn:E; [|done].
  assert (frame w (set_parts (<[pl := p']> (w_parts w)) w)) as H1.
  { eapply insert_part_frame; [done|]. pose proof (static_remove_track (w_tracks w) sid p) as Hs. by rewrite E in Hs. }
  set (w1 := set_parts _ w) in *. solve_frame.
Qed.

(** * The lifecycle under the handlers *)

Lemma static_mark reason p : static (mark_disconnected reason p) = static p.
Proof. apply static_set_state. Qed.

Lemma end_participant_ok pl reason w : world_ok w -> world_ok (end_participant pl reason w).
Proof.
  intros Hw. unfold end_participant. destruct (already_removed w pl); [done|]. cbv zeta.
  set (w1 := upd_part pl (mark_disconnected reason) w).
  assert (world_ok w1) as Hw1.
  { eapply frame_world_ok; [apply upd_part_frame, static_mark|done]. }
  destruct (w_parts w1 !! pl) as [p|]; [|done]. destruct (room_of w1 pl) as [[rl r]|]; [|done].
  pose proof (info_of_frame pl w1) as Hi. destruct (info_of pl w1) as [w2 [info|]]; cbn [fst] in Hi;
    [|by eapply frame_world_ok].
  pose proof (frame_world_ok _ _ Hi Hw1) as Hw2.
  do 2 (eapply frame_world_ok; [apply emit_frame|]). apply on_participant_left_ok.
  eapply frame_world_ok_but; [apply broadcast_participant_update_frame|].
  eapply frame_world_ok_but; [apply emit_frame|]. by apply remove_participant_ok.
Qed.

Lemma handle_participant_request_ok pl req w : world_ok w -> world_ok (handle_participant_request pl req w).
Proof.
  intros Hw. destruct req; cbn [handle_participant_request];
    try (eapply frame_world_ok; [|exact Hw];
         first [apply handle_offer_frame | apply handle_add_track_frame | apply set_track_muted_frame
               | apply handle_update_subscriptions_frame | apply handle_update_metadata_frame
               | apply handle_sync_state_frame | apply send_frame | reflexivity]).
  by apply end_participant_ok.
Qed.

Lemma session_loop_ok pl reqs : forall w, world_ok w -> world_ok (session_loop pl reqs w).
Proof.
  induction reqs as [|q reqs IH]; intros w Hw; cbn [session_loop]; [done|].
  pose proof (handle_participant_request_ok pl q w Hw) as H1. repeat case_match; auto.
Qed.

Lemma evict_duplicate_ok id rl w : world_ok w -> world_ok (evict_duplicate id rl w).
Proof.
  intros Hw. unfold evict_duplicate. case_match; [|done]. apply end_participant_ok.
  eapply frame_world_ok; [apply close_signal_frame|done].
Qed.

Lemma add_dispatch_life acc d : same_life acc.1 (add_dispatch acc d).1.
Proof. destruct acc as [r new]. unfold add_dispatch, add_agent_dispatch, same_life. destruct (existsb _ _); cbn; by split_and!. Qed.

Lemma same_life_trans a b c : same_life a b -> same_life b c -> same_life a c.
Proof. unfold same_life. intros (?&?&?&?&?&?&?) (?&?&?&?&?&?&?). split_and!; congruence. Qed.

Lemma add_dispatches_life ds : forall acc, same_life acc.1 (foldl add_dispatch acc ds).1.
Proof.
  induction ds as [|d ds IH]; intros acc; cbn [foldl]; [by unfold same_life; split_and!|].
  eapply same_life_trans; [apply add_dispatch_life|apply IH].
Qed.

Lemma set_room_same_life w rl r r' :
  world_ok w -> w_rooms w !! rl = Some r -> same_life r r' -> world_ok (set_rooms (<[rl := r']> (w_rooms w)) w).
Proof.
  intros Hw Hr Hs. pose proof Hs as (?&?&?&_). apply (set_room_ok w rl r); auto.
  - eapply same_life_room_ok; [exact Hs|]. by apply wok_rooms.
  - eapply same_life_counting; [exact Hs|]. by eapply wok_counting.
Qed.

Lemma announce_join_frame fj rl pl psid w : frame w (announce_join fj rl pl psid w).
Proof. unfold announce_join. cbv zeta. solve_frame. Qed.

Lemma static_session_participant now token params kind rl psid :
  static (session_participant now token params kind rl psid) = mkStatic psid (tk_identity token) kind (Some rl) 0.
Proof.
  unfold session_participant. cbv zeta. set (p0 := set_p_auto_subscribe _ _).
  assert (static (set_attributes (tk_attributes token) p0).1 = mkStatic psid (tk_identity token) kind (Some rl) 0) as H.
  { by rewrite static_set_attributes. }
  case_match; exact H.
Qed.

(** ** The values a join draws *)

(** Fresh locations and a participant sid no room uses. *)
Definition fresh_draws (dr : Draws) (w : World) : Prop :=
  w_rooms w !! dr_room dr = None /\ w_parts w !! dr_part dr = None /\
  forall l s, statics w !! l = Some s -> s_sid s <> dr_part_sid dr.

Lemma remove_participant_statics rl sid w :
  statics (remove_participant rl sid w).1 = statics w /\ w_table (remove_participant rl sid w).1 = w_table w /\
  w_now (remove_participant rl sid w).1 = w_now w.
Proof. unfold remove_participant. repeat case_match; done. Qed.

Lemma on_participant_left_statics rl w :
  statics (on_participant_left rl w) = statics w /\ w_table (on_participant_left rl w) = w_table w /\
  w_now (on_participant_left rl w) = w_now w.
Proof. unfold on_participant_left. repeat case_match; done. Qed.

(** Ending a participant moves nobody between rooms and leaves the table alone. *)
Lemma end_participant_statics pl reason w :
  let w' := end_participant pl reason w in
  statics w' = statics w /\ w_table w' = w_table w /\ w_now w' = w_now w.
Proof.
  cbn zeta. unfold end_participant. destruct (already_removed w pl); [done|]. cbv zeta.
  set (w1 := upd_part pl (mark_disconnected reason) w).
  assert (frame w w1) as F1 by (apply upd_part_frame, static_mark).
  destruct (w_parts w1 !! pl) as [p|]; [|by destruct F1 as (?&_&?&?)].
  destruct (room_of w1 pl) as [[rl r]|]; [|by destruct F1 as (?&_&?&?)].
  pose proof (info_of_frame pl w1) as F2. destruct (info_of pl w1) as [w2 [info|]]; cbn [fst] in F2.
  2: { destruct F1 as (?&_&?&?), F2 as (?&_&?&?). split_and!; congruence. }
  set (w3 := (remove_participant rl (p_sid p) w2).1).
  pose proof (remove_participant_statics rl (p_sid p) w2) as (R1 & R2 & R3). fold w3 in R1, R2, R3.
  set (w4 := broadcast_participant_update rl [info] (Some (p_sid p)) (emit (EvCloseMedia (p_sid p)) w3)).
  assert (frame w3 w4) as F4 by (etrans; [apply emit_frame|apply broadcast_participant_update_frame]).
  pose proof (on_participant_left_statics rl w4) as (L1 & L2 & L3).
  destruct F1 as (A1&_&A2&A3), F2 as (B1&_&B2&B3), F4 as (C1&_&C2&C3).
  split_and!; cbn [w_table w_now emit]; [|congruence..].
  transitivity (statics (on_participant_left rl w4)); [reflexivity|congruence].
Qed.

Lemma evict_duplicate_statics id rl w :
  statics (evict_duplicate id rl w) = statics w /\ w_table (evict_duplicate id rl w) = w_table w /\
  w_now (evict_duplicate id rl w) = w_now w.
Proof.
  unfold evict_duplicate. case_match; [|done].
  pose proof (close_signal_frame l DUPLICATE_IDENTITY w) as (F1 & _ & F2 & F3).
  destruct (end_participant_statics l DUPLICATE_IDENTITY (close_signal l DUPLICATE_IDENTITY w)) as (E1 & E2 & E3).
  split_and!; congruence.
Qed.

Lemma get_or_create_room_statics name rl sid limits w :
  statics (get_or_create_room name rl sid limits w).1 = statics w.
Proof. unfold get_or_create_room. by case_match. Qed.

Lemma join_room_ok limits token params kind dr w :
  world_ok w -> fresh_draws dr w -> world_ok (join_room limits token params kind dr w).1.
Proof.
  intros Hw (Hfr & Hfp & Hfs). unfold join_room. destruct (check_join token params) as [room_name|]; [|done].
  pose proof (get_or_create_room_ok room_name (dr_room dr) (dr_room_sid dr) limits w Hw Hfr) as Hw1.
  pose proof (get_or_create_room_statics room_name (dr_room dr) (dr_room_sid dr) limits w) as Hs1.
  destruct (get_or_create_room _ _ _ _ _) as [w1 rl]. cbn [fst] in *. cbv zeta.
  pose proof (evict_duplicate_ok (tk_identity token) rl w1 Hw1) as Hw2.
  pose proof (evict_duplicate_statics (tk_identity token) rl w1) as (Hs2 & _).
  set (w2 := evict_duplicate _ _ _) in *. destruct (w_rooms w2 !! rl) as [r|] eqn:Hr; [|done].
  set (p := session_participant _ _ _ _ _ _).
  assert (statics w2 = statics w) as Hs by congruence.
  assert (w_parts w2 !! dr_part dr = None) as Hfp2.
  { assert (statics w2 !! dr_part dr = None) as H by (rewrite Hs; unfold statics; by rewrite lookup_fmap, Hfp).
    unfold statics in H. rewrite lookup_fmap in H. by destruct (w_parts w2 !! dr_part dr). }
  pose proof (new_part_ok (dr_part dr) p w2 Hw2 Hfp2) as Hw3. set (w3 := new_part _ _ _) in *.
  pose proof (add_dispatches_life (token_agents token) (r, [])) as Hl. cbn [fst] in Hl.
  destruct (foldl add_dispatch _ _) as [r' new]. cbn [fst] in Hl.
  pose proof (set_room_same_life w3 rl r r' Hw3 Hr Hl) as Hw4. set (w4 := set_rooms _ w3) in *.
  assert (w_rooms w4 !! rl = Some r') as Hr4 by apply lookup_insert_eq.
  assert (w_parts w4 !! dr_part dr = Some p) as Hp4 by apply lookup_insert_eq.
  assert (static p = mkStatic (dr_part_sid dr) (tk_identity token) kind (Some rl) 0) as Hst by apply static_session_participant.
  assert (p_sid p = dr_part_sid dr) as Hsid by exact (f_equal s_sid Hst).
  assert (r_participants r' !! p_sid p = None) as Hfree.
  { destruct Hl as (_&_&_&Hpp&_). rewrite Hpp, Hsid. destruct (r_participants r !! dr_part_sid dr) as [l|] eqn:E; [|done].
    destruct (ok_members _ _ _ (wok_rooms w2 Hw2 rl r Hr) _ _ E) as (s & E1 & E2 & _). rewrite Hs in E1.
    by destruct (Hfs l s E1). }
  destruct (join rl (dr_part dr) w4) as [w5 [|]] eqn:Hj; cbn [fst].
  - eapply frame_world_ok; [apply announce_join_frame|].
    unfold join in Hj. destruct (join_check w4 rl (dr_part dr)) eqn:Hck; [|done].
    unfold join_check in Hck. rewrite Hr4, Hp4 in Hck. destruct (r_closed r') eqn:Hc; [done|].
    pose proof (join_insert_ok rl (dr_part dr) w4 r' p Hw4 Hr4 Hp4 Hc Hfree) as H5. rewrite Hj in H5. apply H5.
    right. exact (f_equal s_room Hst).
  - unfold join in Hj. destruct (join_check _ _ _); [|by injection Hj as <-].
    rewrite (join_insert_eq rl (dr_part dr) w4 r' p Hr4 Hp4) in Hj. by destruct (existsb _ _); injection Hj as <-.
Qed.

(** ** Resuming *)

Definition resume_static (s : Static) : Static :=
  mkStatic (s_sid s) (s_identity s) (s_kind s) (s_room s) (wrap_u 64 (s_gen s + 1)).
Definition bump_gen (p : Participant) : Participant := set_p_resume_gen (wrap_u 64 (p_resume_gen p + 1)) p.

Lemma statics_bump_gen pl w : statics (upd_part pl bump_gen w) = alter resume_static pl (statics w).
Proof.
  unfold statics, upd_part. cbn [w_parts set_parts]. apply map_eq. intros l. rewrite lookup_fmap.
  destruct (decide (l = pl)) as [->|].
  - rewrite !lookup_alter_eq, lookup_fmap. by destruct (w_parts w !! pl).
  - by rewrite !lookup_alter_ne, lookup_fmap.
Qed.

Lemma alter_static_back (f : Static -> Static) pl (st : gmap loc Static) l x :
  alter f pl st !! l = Some x -> exists y, st !! l = Some y /\ (x = y \/ x = f y).
Proof.
  destruct (decide (l = pl)) as [->|]; [rewrite lookup_alter_eq|rewrite lookup_alter_ne by done]; [|eauto].
  destruct (st !! pl) as [y|]; [|done]. intros [= <-]. eauto.
Qed.

Lemma bump_gen_ok pl w : world_ok w -> world_ok (upd_part pl bump_gen w).
Proof.
  intros [H1 H2 H3].
  assert (forall l, nd_static (statics (upd_part pl bump_gen w)) l = nd_static (statics w) l) as Hnd.
  { intros l. rewrite statics_bump_gen. unfold nd_static. destruct (decide (l = pl)) as [->|]; [|by rewrite lookup_alter_ne].
    rewrite lookup_alter_eq. by destruct (statics w !! pl). }
  assert (forall r, occupied (statics (upd_part pl bump_gen w)) r <-> occupied (statics w) r) as Ho.
  { intros r. unfold occupied. by setoid_rewrite Hnd. }
  split; [| |exact H3]; intros rl r Hr.
  - destruct (H1 rl r Hr) as [K1 K2 K3 K4 K5]. split; [| |by rewrite Ho|exact K4|exact K5].
    + intros sid l Hl. destruct (K1 _ _ Hl) as (s & Hs & Hsid & Hrm). rewrite statics_bump_gen.
      destruct (decide (l = pl)) as [->|]; [|exists s; by rewrite lookup_alter_ne].
      exists (resume_static s). by rewrite lookup_alter_eq, Hs.
    + rewrite statics_bump_gen. intros sid1 sid2 l1 l2 s1 s2 Hl1 Hl2 Hs1 Hs2 He.
      destruct (alter_static_back _ _ _ _ _ Hs1) as (y1 & Hy1 & E1).
      destruct (alter_static_back _ _ _ _ _ Hs2) as (y2 & Hy2 & E2).
      eapply K2; eauto. destruct E1 as [->| ->], E2 as [->| ->]; exact He.
  - destruct (H2 rl r Hr) as (C1 & C2 & C3). unfold counting. rewrite Ho. done.
Qed.

Lemma resume_cases token params w :
  resume_room_participant token params w = (w, None) \/
  exists rl pl, resume_room_participant token params w = (upd_part pl bump_gen w, Some (rl, pl)) /\
    exists p, w_parts w !! pl = Some p /\ state p <> Disconnected /\ p_identity p = tk_identity token.
Proof.
  unfold resume_room_participant, get_room.
  destruct (w_table w !! vg_room (video token)) as [rl|]; [|by left]. cbn [mbind option_bind].
  destruct (w_rooms w !! rl) as [r|]; [|by left]. cbn [mbind option_bind].
  destruct (get_participant_by_identity w (tk_identity token) r) as [pl|] eqn:Eg; [|by left]. cbn [mbind option_bind].
  destruct (w_parts w !! pl) as [p|] eqn:Hp; [|by left]. cbn [mbind option_bind].
  case_bool_decide; [by left|]. case_match; [by left|]. right. exists rl, pl. split; [done|].
  exists p. split_and!; [done..|]. unfold get_participant_by_identity in Eg.
  destruct (list_find _ _) as [[i l]|] eqn:Ef; [|done]. injection Eg as ->.
  apply list_find_Some in Ef as (_ & Hid & _). unfold has_identity in Hid. rewrite Hp in Hid. by apply String.eqb_eq.
Qed.

(** * The server as a transition system *)

(** [set_signal_sink] with a new channel, at the start of a session. *)
Definition open_session (pl c : loc) (w : World) : World :=
  upd_part pl (fun p => (set_signal_sink c p).1) (set_chans (<[c := mkChan [] true]> (w_chans w)) w).
(** The writer task takes what is queued, and may end. *)
Definition drain (c : loc) (keep : bool) (w : World) : World :=
  set_chans (<[c := mkChan [] keep]> (w_chans w)) w.

Lemma open_session_frame pl c w : frame w (open_session pl c w).
Proof.
  transitivity (set_chans (<[c:=mkChan [] true]> (w_chans w)) w); [done|by apply upd_part_frame].
Qed.

(** Everything that happens to the store: time, the handlers of requests and of
    media events, joins, session starts and ends, resumption, the API's room
    operations, and the timeout sweep. *)
Inductive server_step : World -> World -> Prop :=
| st_tick t w : w_now w <= t -> server_step w (set_now t w)
| st_join limits token params kind dr w :
    fresh_draws dr w -> server_step w (join_room limits token params kind dr w).1
| st_resume token params w : server_step w (resume_room_participant token params w).1
| st_open_session pl c w : server_step w (open_session pl c w)
| st_drain c keep w : server_step w (drain c keep w)
| st_request pl req w : server_step w (handle_participant_request pl req w)
| st_track_published pl tl w : server_step w (on_track_published pl tl w)
| st_track_unpublished pl sid w : server_step w (on_track_unpublished pl sid w)
| st_media_disconnected pl failed w : server_step w (on_media_disconnected pl failed w)
| st_data pl pk lossy w : server_step w (handle_incoming_data pl pk lossy w)
| st_close_signal pl reason w : server_step w (close_signal pl reason w)
| st_end pl reason w : server_step w (end_participant pl reason w)
| st_grace pl gen w : server_step w (grace_task pl gen w)
| st_create_room name rl sid limits w :
    w_rooms w !! rl = None -> server_step w (get_or_create_room name rl sid limits w).1
| st_room_settings rl et dt mp md w :
    server_step w (upd_room rl (fun r => (room_update_metadata (w_now w) md (set_r_limits et dt mp r)).1) w)
| st_room_update rl w : server_step w (broadcast_room_update rl w)
| st_broadcast_data rl pk ds w : server_step w (broadcast_data rl pk ds w)
| st_close_room name reason w : server_step w (close_room name reason w).1
| st_timeouts w : server_step w (check_room_timeouts w).

Lemma check_room_timeouts_ok w : world_ok w -> world_ok (check_room_timeouts w).
Proof.
  intros Hw. unfold check_room_timeouts.
  destruct (check_fold_shape (list_rooms w) w Hw (list_rooms_nodup w Hw)) as (J1 & _); [|done].
  intros l. by rewrite elem_of_list_rooms.
Qed.

Lemma grace_task_ok pl gen w : world_ok w -> world_ok (grace_task pl gen w).
Proof. intros Hw. unfold grace_task. repeat case_match; auto. by apply end_participant_ok. Qed.

Lemma server_step_ok w w' : world_ok w -> server_step w w' -> world_ok w'.
Proof.
  intros Hw Hs. destruct Hs.
  - by apply set_now_ok.
  - by apply join_room_ok.
  - destruct (resume_cases token params w) as [->|(rl & pl & -> & _)]; [done|by apply bump_gen_ok].
  - eapply frame_world_ok; [apply open_session_frame|exact Hw].
  - by eapply frame_world_ok; [|exact Hw].
  - by apply handle_participant_request_ok.
  - eapply frame_world_ok; [apply on_track_published_frame|done].
  - eapply frame_world_ok; [apply on_track_unpublished_frame|done].
  - unfold on_media_disconnected. case_match; [by apply end_participant_ok|done].
  - eapply frame_world_ok; [apply handle_incoming_data_frame|done].
  - eapply frame_world_ok; [apply close_signal_frame|done].
  - by apply end_participant_ok.
  - by apply grace_task_ok.
  - by apply get_or_create_room_ok.
  - apply upd_room_same_life; [|done]. intros r. unfold room_update_metadata, same_life.
    destruct (_ =? _)%string; cbn; by split_and!.
  - eapply frame_world_ok; [apply broadcast_room_update_frame|done].
  - eapply frame_world_ok; [apply broadcast_data_frame|done].
  - unfold close_room. case_match; [by apply close_ok|done].
  - by apply check_room_timeouts_ok.
Qed.

(** The lifecycle invariant of the server.  In every state reachable from the
    empty server by any sequence of joins (with fresh ids), requests, media
    events, session ends, resumptions, API calls and timeout sweeps: every room's
    participants are keyed by their own sid, attached to that room and distinct in
    identity; a room with a real participant is open, joined and not counting
    down; a joined room without one is counting down; a closed room is empty; and
    the room table maps each name to an open room of that name. *)
Theorem reachable_world_ok t0 w : reach server_step (empty_world t0) w -> world_ok w.
Proof.
  intros Hr. eapply reach_invariant; [apply empty_world_ok| |exact Hr]. intros; by eapply server_step_ok.
Qed.

(** * Ending a session *)

Lemma send_update_trace pl m w : w_trace (send_update pl m w).1 = w_trace w.
Proof. unfold send_update. repeat case_match; done. Qed.

Lemma send_all_trace ts m : forall w, w_trace (send_all ts m w) = w_trace w.
Proof.
  induction ts as [|t ts IH]; intros w; [done|]. change (send_all (t :: ts) m w) with (send_all ts m (send_update t m w).1).
  rewrite IH. apply send_update_trace.
Qed.

Lemma send_all_parts ts m : forall w, w_parts (send_all ts m w) = w_parts w.
Proof.
  induction ts as [|t ts IH]; intros w; [done|]. change (send_all (t :: ts) m w) with (send_all ts m (send_update t m w).1).
  rewrite IH. apply send_update_parts.
Qed.

Lemma broadcast_update_trace rl i e w :
  w_trace (broadcast_participant_update rl i e w) = w_trace w /\ w_parts (broadcast_participant_update rl i e w) = w_parts w.
Proof. unfold broadcast_participant_update. case_match; [|done]. by rewrite send_all_trace, send_all_parts. Qed.

Lemma remove_participant_trace rl sid w :
  w_trace (remove_participant rl sid w).1 = w_trace w /\ w_parts (remove_participant rl sid w).1 = w_parts w.
Proof. unfold remove_participant. repeat case_match; done. Qed.

Lemma on_participant_left_trace rl w :
  w_trace (on_participant_left rl w) = w_trace w /\ w_parts (on_participant_left rl w) = w_parts w.
Proof. unfold on_participant_left. repeat case_match; done. Qed.

Lemma on_participant_left_members rl w rl' r :
  w_rooms w !! rl' = Some r ->
  exists r', w_rooms (on_participant_left rl w) !! rl' = Some r' /\ r_participants r' = r_participants r /\ r_name r' = r_name r.
Proof.
  intros Hr. unfold on_participant_left. destruct (w_rooms w !! rl) as [r0|] eqn:E; [|by eauto].
  destruct (has_non_dependent w r0); [by eauto|]. destruct (r_empty_since r0); [by eauto|]. cbn.
  destruct (decide (rl = rl')) as [<-|]; [|rewrite lookup_insert_ne by done; by eauto].
  rewrite lookup_insert_eq. assert (r0 = r) as -> by congruence. by eexists.
Qed.

Lemma mark_gone reason p : p_state p <= 3 -> gone reason (mark_disconnected reason p).
Proof.
  intros Hs. unfold gone, mark_disconnected, state, set_state. change (state_u8 Disconnected) with 3.
  destruct (Z.leb_spec 3 (p_state p)); cbn; [|done]. assert (p_state p = 3) as -> by lia. done.
Qed.

(** The participant after [end_participant]: marked, and serialized once. *)
Definition ended (reason : DisconnectReason) (p : Participant) : Participant :=
  let p1 := mark_disconnected reason p in set_p_version (wrap_s 64 (p_version p1 + 1)) p1.

(** The steps of [end_participant] for a participant that is in its room. *)
Lemma end_participant_effect pl reason w p rl r :
  w_parts w !! pl = Some p -> p_room p = Some rl -> w_rooms w !! rl = Some r ->
  get_participant (p_sid p) r = Some pl ->
  let w' := end_participant pl reason w in
  (exists r', w_rooms w' !! rl = Some r' /\ r_participants r' = delete (p_sid p) (r_participants r)) /\
  w_parts w' = <[pl := ended reason p]> (w_parts w) /\
  exists rp, ri_name rp = r_name r /\
    w_trace w' = w_trace w ++ [EvCloseMedia (p_sid p); EvParticipantTotal (-1);
      EvParticipantLeft rp (participant_to_proto (w_tracks w) (mark_disconnected reason p)).2].
Proof.
  intros Hp Hrm Hr Hm. cbn zeta. unfold end_participant.
  assert (room_of w pl = Some (rl, r)) as Hro by (unfold room_of; rewrite Hp; cbn; rewrite Hrm; cbn; by rewrite Hr).
  unfold already_removed. rewrite Hp, Hro, Hm. cbv zeta.
  set (w1 := upd_part pl (mark_disconnected reason) w).
  assert (w_parts w1 !! pl = Some (mark_disconnected reason p)) as Hp1.
  { unfold w1. by rewrite upd_part_lookup, decide_True, Hp. }
  pose proof (static_mark reason p) as Hsm.
  assert (room_of w1 pl = Some (rl, r)) as Hro1.
  { unfold room_of. rewrite Hp1. cbn [mbind option_bind].
    assert (p_room (mark_disconnected reason p) = Some rl) as ->.
    { transitivity (p_room p); [exact (f_equal s_room Hsm)|exact Hrm]. }
    cbn [mbind option_bind]. change (w_rooms w1) with (w_rooms w). by rewrite Hr. }
  rewrite Hp1, Hro1. assert (p_sid (mark_disconnected reason p) = p_sid p) as -> by exact (f_equal s_sid Hsm).
  unfold info_of. rewrite Hp1. unfold participant_to_proto. cbn [next].
  set (w2 := set_parts _ w1). set (info := mkInfo _ _ _ _ _ _ _ _ _ _ _ _ _ _ _).
  set (w3 := (remove_participant rl (p_sid p) w2).1).
  assert (w_rooms w3 = <[rl := removed_room w2 r (p_sid p)]> (w_rooms w)) as Hr3.
  { unfold w3. by rewrite (remove_participant_eq rl (p_sid p) w2 r pl Hr Hm). }
  pose proof (remove_participant_trace rl (p_sid p) w2) as [T3 P3]. fold w3 in T3, P3.
  set (w4 := broadcast_participant_update rl [info] (Some (p_sid p)) (emit (EvCloseMedia (p_sid p)) w3)).
  pose proof (broadcast_update_trace rl [info] (Some (p_sid p)) (emit (EvCloseMedia (p_sid p)) w3)) as [T4 P4].
  fold w4 in T4, P4.
  assert (frame (emit (EvCloseMedia (p_sid p)) w3) w4) as (_ & R4 & _) by apply broadcast_participant_update_frame.
  pose proof (on_participant_left_trace rl w4) as [T5 P5].
  split_and!.
  - destruct (on_participant_left_members rl w4 rl (removed_room w2 r (p_sid p))) as (r' & Hr' & Hpp & _).
    { rewrite R4. cbn [w_rooms emit]. by rewrite Hr3, lookup_insert_eq. }
    exists r'. cbn [w_rooms emit]. split; [done|]. rewrite Hpp. apply removed_room_fields.
  - cbn [w_parts emit]. rewrite P5, P4. cbn [w_parts emit]. rewrite P3. unfold w2. cbn [w_parts set_parts].
    apply map_eq. intros l. destruct (decide (l = pl)) as [->|Hne].
    + by rewrite !lookup_insert_eq.
    + rewrite !lookup_insert_ne by done. unfold w1. by rewrite upd_part_lookup, decide_False.
  - exists (room_to_proto w1 r). split; [done|]. cbn [w_trace emit]. rewrite T5, T4. cbn [w_trace emit].
    rewrite T3. change (w_trace w2) with (w_trace w). by rewrite <- !app_assoc.
Qed.

(** C3: ending a participant.  For a participant in its room, [end_participant]
    takes exactly that one out of the room, leaves it disconnected with the given
    reason and without a channel, closes its media, and reports its departure
    once, with that reason and state; a second call, for whatever reason, changes
    nothing, so the several paths that end a session (leave, media failure, grace
    expiry, eviction) report it once. *)
Theorem end_participant_spec pl reason reason' w p rl r :
  w_parts w !! pl = Some p -> p_room p = Some rl -> w_rooms w !! rl = Some r ->
  get_participant (p_sid p) r = Some pl -> p_state p <= 3 ->
  let w' := end_participant pl reason w in
  (exists r', w_rooms w' !! rl = Some r' /\ r_participants r' = delete (p_sid p) (r_participants r)) /\
  (exists p', w_parts w' !! pl = Some p' /\ gone reason p') /\
  (forall l, l <> pl -> w_parts w' !! l = w_parts w !! l) /\
  (exists rp info, w_trace w' = w_trace w ++ [EvCloseMedia (p_sid p); EvParticipantTotal (-1); EvParticipantLeft rp info] /\
     ri_name rp = r_name r /\ pi_sid info = p_sid p /\ pi_identity info = p_identity p /\
     pi_state info = state_u8 Disconnected /\ pi_disconnect_reason info = reason_i32 reason) /\
  end_participant pl reason' w' = w'.
Proof.
  intros Hp Hrm Hr Hm Hs. cbn zeta.
  destruct (end_participant_effect pl reason w p rl r Hp Hrm Hr Hm) as ((r' & Hr' & Hd) & Hpp & rp & Hrp & Ht).
  pose proof (mark_gone reason p Hs) as Hg. pose proof (static_mark reason p) as Hsm.
  set (w' := end_participant pl reason w) in *.
  assert (w_parts w' !! pl = Some (ended reason p)) as Hpl by (by rewrite Hpp, lookup_insert_eq).
  split_and!.
  - by exists r'.
  - exists (ended reason p). split; [done|exact Hg].
  - intros l Hne. by rewrite Hpp, lookup_insert_ne.
  - eexists rp, _. split; [exact Ht|]. destruct Hg as (G1 & G2 & _). unfold participant_to_proto. cbn [next snd].
    split_and!; [done|exact (f_equal s_sid Hsm)|exact (f_equal s_identity Hsm)|by cbn; rewrite G1|exact G2].
  - unfold end_participant. assert (already_removed w' pl = true) as ->; [|done].
    unfold already_removed, room_of. rewrite Hpl. cbn [mbind option_bind].
    assert (p_room (ended reason p) = Some rl) as -> by (transitivity (p_room p); [exact (f_equal s_room Hsm)|done]).
    cbn [mbind option_bind]. rewrite Hr'. cbn [mbind option_bind]. unfold get_participant. rewrite Hd.
    assert (p_sid (ended reason p) = p_sid p) as -> by exact (f_equal s_sid Hsm). by rewrite lookup_delete_eq.
Qed.

Lemma end_participant_spec_witness :
  end_participant 1%nat CLIENT_INITIATED (end_participant 1%nat SIGNAL_CLOSE DemoWired.wired)
  = end_participant 1%nat SIGNAL_CLOSE DemoWired.wired.
Proof.
  refine (proj2 (proj2 (proj2 (proj2 (end_participant_spec 1%nat SIGNAL_CLOSE CLIENT_INITIATED DemoWired.wired
    DemoWired.p1 0%nat DemoFacts.joined_r _ _ _ _ _))))).
  - rewrite DemoWired.wired_parts. reflexivity.
  - reflexivity.
  - exact DemoFacts.joined_lookup.
  - vm_compute. reflexivity.
  - vm_compute. discriminate.
Defined.

(** * Resumption and the grace task *)

Lemma close_statics rl reason w : statics (close rl reason w) = statics w.
Proof.
  unfold close. destruct (w_rooms w !! rl) as [r|]; [|done]. destruct (r_closed r); [done|]. cbv zeta.
  pose proof (close_loop_frame rl reason w r) as (Fs & _). unfold close_loop in Fs.
  set (w2 := foldl _ _ _) in *. destruct (r_on_close r); [|exact Fs].
  unfold on_room_closed. case_match; exact Fs.
Qed.

Lemma check_room_timeouts_statics w : statics (check_room_timeouts w) = statics w.
Proof.
  unfold check_room_timeouts. generalize (list_rooms w) as ls. intros ls. revert w.
  induction ls as [|l ls IH]; intros w; cbn [foldl]; [done|]. rewrite IH. unfold check_room_timeout.
  repeat case_match; try done. apply close_statics.
Qed.

Lemma handle_participant_request_statics pl req w : statics (handle_participant_request pl req w) = statics w.
Proof.
  destruct req; cbn [handle_participant_request]; try reflexivity;
    try apply handle_offer_frame; try apply handle_add_track_frame; try apply set_track_muted_frame;
    try apply handle_update_subscriptions_frame; try apply handle_update_metadata_frame;
    try apply handle_sync_state_frame; try apply send_frame.
  apply end_participant_statics.
Qed.

Lemma join_room_statics limits token params kind dr w l :
  l <> dr_part dr -> statics (join_room limits token params kind dr w).1 !! l = statics w !! l.
Proof.
  intros Hne. unfold join_room. destruct (check_join token params) as [room_name|]; [|done].
  pose proof (get_or_create_room_statics room_name (dr_room dr) (dr_room_sid dr) limits w) as Hs1.
  destruct (get_or_create_room _ _ _ _ _) as [w1 rl]. cbn [fst] in *. cbv zeta.
  pose proof (evict_duplicate_statics (tk_identity token) rl w1) as (Hs2 & _).
  set (w2 := evict_duplicate _ _ _) in *. destruct (w_rooms w2 !! rl) as [r|] eqn:Hr; [|cbn [fst]; congruence].
  set (p := session_participant _ _ _ _ _ _). destruct (foldl add_dispatch _ _) as [r' new].
  set (w4 := set_rooms _ _).
  assert (statics w4 = <[dr_part dr := static p]> (statics w)) as H4.
  { transitivity (<[dr_part dr := static p]> (statics w2)); [apply fmap_insert|congruence]. }
  assert (statics w4 !! l = statics w !! l) as Hl by (by rewrite H4, lookup_insert_ne).
  destruct (join rl (dr_part dr) w4) as [w5 [|]] eqn:Hj; cbn [fst].
  - destruct (announce_join_frame (negb (r_ever_joined r)) rl (dr_part dr) (dr_part_sid dr) w5) as (-> & _).
    destruct (join_true _ _ _ _ Hj) as (r0 & p0 & _ & _ & _ & _ & _ & ->).
    transitivity (statics (upd_part (dr_part dr) (attach_room rl) w4) !! l); [done|].
    by rewrite statics_attach, lookup_alter_ne.
  - unfold join in Hj. destruct (join_check _ _ _); [|by injection Hj as <-].
    unfold join_insert in Hj. repeat case_match; by injection Hj as <-.
Qed.

(** A step changes what is known of an existing participant only by resuming its
    session. *)
Lemma server_step_gen w w' l s :
  server_step w w' -> statics w !! l = Some s ->
  statics w' !! l = Some s \/ statics w' !! l = Some (resume_static s).
Proof.
  intros Hs Hl. destruct Hs.
  - by left.
  - left. rewrite join_room_statics; [done|]. intros ->. destruct H as (_ & Hp & _).
    unfold statics in Hl. by rewrite lookup_fmap, Hp in Hl.
  - destruct (resume_cases token params w) as [->|(rl & pl & -> & _)]; [by left|]. cbn [fst]. rewrite statics_bump_gen.
    destruct (decide (l = pl)) as [->|]; [right; by rewrite lookup_alter_eq, Hl|left; by rewrite lookup_alter_ne].
  - left. by destruct (open_session_frame pl c w) as (-> & _).
  - by left.
  - left. by rewrite handle_participant_request_statics.
  - left. by destruct (on_track_published_frame pl tl w) as (-> & _).
  - left. by destruct (on_track_unpublished_frame pl sid w) as (-> & _).
  - left. unfold on_media_disconnected. case_match; [|done]. by destruct (end_participant_statics pl CLIENT_INITIATED w) as (-> & _).
  - left. by destruct (handle_incoming_data_frame pl pk lossy w) as (-> & _).
  - left. by destruct (close_signal_frame pl reason w) as (-> & _).
  - left. by destruct (end_participant_statics pl reason w) as (-> & _).
  - left. unfold grace_task. repeat case_match; try done. by destruct (end_participant_statics pl SIGNAL_CLOSE w) as (-> & _).
  - left. by rewrite get_or_create_room_statics.
  - by left.
  - left. by destruct (broadcast_room_update_frame rl w) as (-> & _).
  - left. by destruct (broadcast_data_frame rl pk ds w) as (-> & _).
  - left. unfold close_room. case_match; [cbn; by rewrite close_statics|done].
  - left. by rewrite check_room_timeouts_statics.
Qed.

Lemma server_steps_gen n : forall w w' l s,
  nsteps server_step n w w' -> statics w !! l = Some s -> 0 <= s_gen s < 2 ^ 64 ->
  exists s' k, statics w' !! l = Some s' /\ 0 <= k <= Z.of_nat n /\ s_gen s' = (s_gen s + k) mod 2 ^ 64.
Proof.
  induction n as [|n IH]; intros w w' l s Hn Hl Hg.
  - inversion Hn; subst. exists s, 0. split; [done|]. split; [lia|]. by rewrite Z.add_0_r, Z.mod_small.
  - inversion Hn as [|? ? w1 ? H1 Hrest]; subst.
    destruct (server_step_gen _ _ _ _ H1 Hl) as [Hl1|Hl1].
    + destruct (IH _ _ _ _ Hrest Hl1 Hg) as (s' & k & E1 & E2 & E3). exists s', k. split_and!; [done|lia..|done].
    + destruct (IH _ _ _ (resume_static s) Hrest Hl1) as (s' & k & E1 & E2 & E3).
      { cbn. apply wrap_u_bound. lia. }
      exists s', (k + 1). split; [done|]. split; [lia|]. rewrite E3. cbn. unfold wrap_u.
      rewrite Z.add_mod_idemp_l by lia. f_equal. lia.
Qed.

(** C5: a resumed session survives the grace period.  When a participant whose
    signal socket closed (the grace task remembers the resume generation [gen]) is
    resumed, then whatever happens before the grace task wakes up (fewer than
    [2^64 - 1] steps), the task finds a newer generation and changes nothing: it
    cannot end the resumed session. *)
Theorem resumed_session_survives_grace n token params w w1 rl pl p w2 :
  w_parts w !! pl = Some p -> 0 <= p_resume_gen p < 2 ^ 64 ->
  resume_room_participant token params w = (w1, Some (rl, pl)) ->
  nsteps server_step n w1 w2 -> Z.of_nat n < 2 ^ 64 - 1 ->
  grace_task pl (p_resume_gen p) w2 = w2.
Proof.
  intros Hp Hg Hres Hn Hb.
  assert (w1 = upd_part pl bump_gen w) as ->.
  { destruct (resume_cases token params w) as [E|(rl' & pl' & E & _)]; rewrite E in Hres; [done|]. by injection Hres as <- _ <-. }
  assert (statics (upd_part pl bump_gen w) !! pl = Some (resume_static (static p))) as Hs.
  { rewrite statics_bump_gen, lookup_alter_eq. unfold statics. by rewrite lookup_fmap, Hp. }
  destruct (server_steps_gen n _ _ _ _ Hn Hs) as (s' & k & E1 & E2 & E3).
  { cbn. apply wrap_u_bound. lia. }
  unfold grace_task. unfold statics in E1. rewrite lookup_fmap in E1.
  destruct (w_parts w2 !! pl) as [p2|]; [|done]. cbn in E1. injection E1 as <-. cbn in E3. unfold wrap_u in E3.
  rewrite Z.add_mod_idemp_l in E3 by lia.
  destruct (Z.eqb_spec (p_resume_gen p2) (p_resume_gen p)) as [Heq|]; [|done]. exfalso. rewrite E3 in Heq.
  destruct (Z.ltb_spec (p_resume_gen p + 1 + k) (2 ^ 64)) as [Hlt|Hge].
  - rewrite Z.mod_small in Heq; lia.
  - rewrite <- (Z.mod_unique (p_resume_gen p + 1 + k) (2 ^ 64) 1 (p_resume_gen p + 1 + k - 2 ^ 64)) in Heq; lia.
Qed.

(** * Joining *)

Lemma statics_part w l s : statics w !! l = Some s <-> exists p, w_parts w !! l = Some p /\ static p = s.
Proof.
  unfold statics. rewrite lookup_fmap. destruct (w_parts w !! l) as [p|]; cbn; [|naive_solver].
  split; [intros [= <-]; eauto|intros (? & [= ->] & <-); done].
Qed.

(** In a consistent room an identity names one participant. *)
Lemma get_by_identity_iff w rl r id l :
  world_ok w -> w_rooms w !! rl = Some r ->
  get_participant_by_identity w id r = Some l <->
  exists sid p, r_participants r !! sid = Some l /\ w_parts w !! l = Some p /\ p_identity p = id.
Proof.
  intros Hw Hr. unfold get_participant_by_identity. split.
  - destruct (list_find _ _) as [[i x]|] eqn:Ef; [|done]. intros [= ->].
    apply list_find_Some in Ef as (Hi & Hid & _). apply list_elem_of_lookup_2, elem_of_members in Hi as [sid Hs].
    unfold has_identity in Hid. destruct (w_parts w !! l) as [p|] eqn:Hp; [|done]. apply String.eqb_eq in Hid. eauto.
  - intros (sid & p & Hs & Hp & Hid).
    assert (exists i x, list_find (fun l => has_identity w id l = true) (members r) = Some (i, x)) as (i & x & Ef).
    { destruct (list_find (fun l => has_identity w id l = true) (members r)) as [[i x]|] eqn:E; [by eauto|].
      exfalso. apply list_find_None in E. rewrite list.Forall_forall in E. apply (E l).
      - apply elem_of_members. by exists sid.
      - unfold has_identity. rewrite Hp. by apply String.eqb_eq. }
    rewrite Ef. cbn. apply list_find_Some in Ef as (Hi & Hx & _).
    apply list_elem_of_lookup_2, elem_of_members in Hi as [sid' Hs'].
    unfold has_identity in Hx. destruct (w_parts w !! x) as [q|] eqn:Hq; [|done]. apply String.eqb_eq in Hx.
    assert (sid' = sid) as ->; [|congruence].
    eapply (ok_unique _ _ _ (wok_rooms w Hw rl r Hr) _ _ _ _ (static q) (static p)); try done;
      [apply statics_part; eauto..|]. cbn. congruence.
Qed.

Lemma announce_join_trace fj rl pl psid w r p :
  w_rooms w !! rl = Some r -> w_parts w !! pl = Some p ->
  exists info, pi_sid info = p_sid p /\ pi_identity info = p_identity p /\
    w_trace (announce_join fj rl pl psid w) =
      w_trace w ++ (if fj : bool then [EvRoomStarted (room_to_proto w r)] else []) ++
      [EvParticipantTotal 1; EvParticipantJoined (room_to_proto w r) info] /\
    w_parts (announce_join fj rl pl psid w) = <[pl := set_p_version (wrap_s 64 (p_version p + 1)) p]> (w_parts w).
Proof.
  intros Hr Hp. unfold announce_join. rewrite Hr. cbv zeta. unfold info_of. rewrite Hp. unfold participant_to_proto. cbn [next].
  set (info := mkInfo _ _ _ _ _ _ _ _ _ _ _ _ _ _ _). set (w1 := emit (EvParticipantTotal 1) _).
  pose proof (broadcast_update_trace rl [info] (Some psid) w1) as [T P].
  exists info. split_and!; [done..| |].
  - cbn [w_trace emit]. rewrite T. unfold w1. destruct fj; cbn [w_trace emit set_parts]; by rewrite <- !app_assoc.
  - cbn [w_parts emit]. rewrite P. unfold w1. by destruct fj.
Qed.

(** What a successful [join_room] went through. *)
Lemma join_room_inv limits token params kind dr w w' rl pl ds :
  join_room limits token params kind dr w = (w', Ok (rl, pl, ds)) ->
  check_join token params = Ok (vg_room (video token)) /\ pl = dr_part dr /\
  exists w1 r r' w5,
    get_or_create_room (vg_room (video token)) (dr_room dr) (dr_room_sid dr) limits w = (w1, rl) /\
    let w2 := evict_duplicate (tk_identity token) rl w1 in
    w_rooms w2 !! rl = Some r /\
    let p := session_participant (w_now w2) token params kind rl (dr_part_sid dr) in
    foldl add_dispatch (r, []) (token_agents token) = (r', ds) /\
    join rl pl (set_rooms (<[rl := r']> (w_rooms w2)) (new_part pl p w2)) = (w5, true) /\
    w' = announce_join (negb (r_ever_joined r)) rl pl (dr_part_sid dr) w5.
Proof.
  unfold join_room. destruct (check_join token params) as [room_name|] eqn:Hck; [|done].
  assert (room_name = vg_room (video token)) as ->.
  { unfold check_join in Hck. repeat case_match; by simplify_eq. }
  destruct (get_or_create_room _ _ _ _ _) as [w1 rl1] eqn:Hg. cbv zeta.
  destruct (w_rooms (evict_duplicate _ _ _) !! rl1) as [r|] eqn:Hr; [|done].
  destruct (foldl add_dispatch _ _) as [r' new] eqn:Hf.
  destruct (join _ _ _) as [w5 [|]] eqn:Hj; [|done]. intros [= <- <- <- <-].
  split; [done|]. split; [done|]. exists w1, r, r', w5. split_and!; done.
Qed.

Lemma session_participant_fields now token params kind rl psid :
  let p := session_participant now token params kind rl psid in
  p_sid p = psid /\ p_identity p = tk_identity token /\ p_kind p = kind /\ p_room p = Some rl /\
  p_permission p = permission_from_grant (video token).
Proof.
  cbn zeta. pose proof (static_session_participant now token params kind rl psid) as H.
  split_and!; [exact (f_equal s_sid H)|exact (f_equal s_identity H)|exact (f_equal s_kind H)|exact (f_equal s_room H)|].
  unfold session_participant. cbv zeta. by case_match.
Qed.

Lemma close_signal_part pl reason w p :
  w_parts w !! pl = Some p -> p_state p <= 3 ->
  exists p', w_parts (close_signal pl reason w) !! pl = Some p' /\ static p' = static p /\ p_state p' <= 3.
Proof.
  intros Hp Hs. unfold close_signal. cbv zeta. rewrite send_update_parts, Hp.
  case_bool_decide; [exists p; by rewrite send_update_parts|].
  rewrite upd_part_lookup, decide_True, send_update_parts, Hp by done. cbn [fmap option_fmap option_map].
  eexists. split; [done|]. split; [apply static_set_state|].
  unfold set_state. change (state_u8 Disconnected) with 3. case_match; cbn; lia.
Qed.

Lemma evict_duplicate_gone id rl w r sid old q :
  world_ok w -> w_rooms w !! rl = Some r -> r_participants r !! sid = Some old ->
  w_parts w !! old = Some q -> p_identity q = id -> p_state q <= 3 ->
  exists q' r', w_parts (evict_duplicate id rl w) !! old = Some q' /\ gone DUPLICATE_IDENTITY q' /\
    w_rooms (evict_duplicate id rl w) !! rl = Some r' /\ r_participants r' = delete sid (r_participants r).
Proof.
  intros Hw Hr Hm Hq Hid Hs. unfold evict_duplicate. rewrite Hr. cbn [mbind option_bind].
  assert (get_participant_by_identity w id r = Some old) as ->.
  { apply (get_by_identity_iff w rl r id old Hw Hr). by exists sid, q. }
  destruct (close_signal_part old DUPLICATE_IDENTITY w q Hq Hs) as (q1 & Hq1 & Hst & Hs1).
  destruct (close_signal_frame old DUPLICATE_IDENTITY w) as (_ & Fr & _).
  destruct (ok_members _ _ _ (wok_rooms w Hw rl r Hr) _ _ Hm) as (s & Es & Esid & Eroom).
  apply statics_part in Es as (q0 & Hq0 & <-). assert (q0 = q) as -> by congruence.
  assert (p_sid q1 = sid) as Hsid by (transitivity (p_sid q); [exact (f_equal s_sid Hst)|exact Esid]).
  assert (p_room q1 = Some rl) as Hrm by (transitivity (p_room q); [exact (f_equal s_room Hst)|exact Eroom]).
  assert (w_rooms (close_signal old DUPLICATE_IDENTITY w) !! rl = Some r) as Hr1 by (by rewrite Fr).
  assert (get_participant (p_sid q1) r = Some old) as Hg by (rewrite Hsid; exact Hm).
  destruct (end_participant_effect old DUPLICATE_IDENTITY _ q1 rl r Hq1 Hrm Hr1 Hg)
    as ((r' & Hr' & Hd) & Hpp & _).
  exists (ended DUPLICATE_IDENTITY q1), r'. rewrite Hpp, lookup_insert_eq. split_and!; [done|by apply mark_gone|done|].
  by rewrite Hd, Hsid.
Qed.

(** Ending a session does not change whether a room was ever joined, nor its capacity. *)
Definition ever (r : Room) : bool * Z := (r_ever_joined r, r_max_participants r).
Definition evers (w : World) : gmap loc (bool * Z) := ever <$> w_rooms w.

Lemma evers_insert rl r r' w :
  w_rooms w !! rl = Some r -> ever r' = ever r ->
  ever <$> <[rl := r']> (w_rooms w) = evers w.
Proof.
  intros Hr He. unfold evers. apply map_eq. intros l. rewrite !lookup_fmap.
  destruct (decide (l = rl)) as [->|]; [|by rewrite lookup_insert_ne]. rewrite lookup_insert_eq, Hr. cbn. by rewrite He.
Qed.

Lemma frame_evers w w' : frame w w' -> evers w' = evers w.
Proof. intros (_ & Hr & _). unfold evers. by rewrite Hr. Qed.

Lemma remove_participant_evers rl sid w : evers (remove_participant rl sid w).1 = evers w.
Proof.
  destruct (w_rooms w !! rl) as [r|] eqn:Hr; [|by unfold remove_participant; rewrite Hr].
  destruct (r_participants r !! sid) as [pl|] eqn:Hp; [|by unfold remove_participant; rewrite Hr, Hp].
  rewrite (remove_participant_eq rl sid w r pl Hr Hp). apply (evers_insert rl r); [done|].
  unfold ever, removed_room. cbn. by case_bool_decide.
Qed.

Lemma on_participant_left_evers rl w : evers (on_participant_left rl w) = evers w.
Proof.
  unfold on_participant_left. destruct (w_rooms w !! rl) as [r|] eqn:Hr; [|done]. repeat case_match; try done.
  by apply (evers_insert rl r).
Qed.

Lemma end_participant_evers pl reason w : evers (end_participant pl reason w) = evers w.
Proof.
  unfold end_participant. destruct (already_removed w pl); [done|]. cbv zeta.
  set (w1 := upd_part pl (mark_disconnected reason) w).
  assert (evers w1 = evers w) as E1 by done.
  destruct (w_parts w1 !! pl) as [p|]; [|done]. destruct (room_of w1 pl) as [[rl r]|]; [|done].
  pose proof (frame_evers _ _ (info_of_frame pl w1)) as E2. destruct (info_of pl w1) as [w2 [info|]]; cbn [fst] in E2; [|congruence].
  set (w3 := (remove_participant rl (p_sid p) w2).1).
  assert (evers w3 = evers w2) as E3 by apply remove_participant_evers.
  set (w4 := broadcast_participant_update _ _ _ _).
  assert (evers w4 = evers w3) as E4.
  { apply frame_evers. etrans; [apply emit_frame|apply broadcast_participant_update_frame]. }
  transitivity (evers (on_participant_left rl w4)); [done|]. rewrite on_participant_left_evers. congruence.
Qed.

Lemma evict_duplicate_evers id rl w : evers (evict_duplicate id rl w) = evers w.
Proof.
  unfold evict_duplicate. case_match; [|done]. rewrite end_participant_evers. apply frame_evers, close_signal_frame.
Qed.

(** The rooms a join finds or makes. *)
Lemma first_join_evicted id rl w1 r :
  w_rooms (evict_duplicate id rl w1) !! rl = Some r -> evers w1 !! rl = Some (ever r).
Proof. intros Hr. rewrite <- (evict_duplicate_evers id rl). unfold evers. by rewrite lookup_fmap, Hr. Qed.

(** The room of a join is the one listed under its name. *)
Lemma joined_room_listed limits token params kind dr w w' rl pl ds :
  join_room limits token params kind dr w = (w', Ok (rl, pl, ds)) -> get_room (vg_room (video token)) w' = Some rl.
Proof.
  intros Hj. destruct (join_room_inv _ _ _ _ _ _ _ _ _ _ Hj) as (_ & _ & w1 & r1 & r1' & w5 & Hg & _ & _ & Hj5 & ->).
  destruct (join_true _ _ _ _ Hj5) as (r5 & p5 & _ & _ & _ & _ & _ & ->).
  unfold get_room. edestruct announce_join_frame as (_ & _ & -> & _). cbn [w_table set_rooms upd_part set_parts new_part].
  destruct (evict_duplicate_statics (tk_identity token) rl w1) as (_ & -> & _). unfold get_or_create_room in Hg. destruct (w_table w !! _) as [l|] eqn:El; injection Hg as <- <-; [done|apply lookup_insert_eq].
Qed.


(** * Joins that succeed *)

Lemma count_statics w r :
  count_non_dependent w r = length (filter (fun l => nd_static (statics w) l = true) (members r)).
Proof.
  unfold count_non_dependent, parts_of. induction (members r) as [|l ls IH]; [done|]. cbn [omap list_omap].
  assert (nd_static (statics w) l = match w_parts w !! l with Some p => non_dependent p | None => false end) as Hn.
  { unfold nd_static, statics. rewrite lookup_fmap. by destruct (w_parts w !! l). }
  rewrite filter_cons. destruct (w_parts w !! l) as [p|]; [|rewrite decide_False by (by rewrite Hn); exact IH].
  rewrite filter_cons. destruct (non_dependent p).
  - rewrite !decide_True by done. cbn [length]. by f_equal.
  - rewrite !decide_False by (try rewrite Hn; done). exact IH.
Qed.

(** Fewer members count for less. *)
Lemma count_delete w w' r r' sid l :
  statics w' = statics w -> r_participants r !! sid = Some l -> r_participants r' = delete sid (r_participants r) ->
  (count_non_dependent w' r' <= count_non_dependent w r)%nat.
Proof.
  intros Hs Hl Hd. rewrite !count_statics, Hs.
  assert (members r ≡ₚ l :: members r') as Hperm.
  { unfold members. rewrite Hd. by rewrite <- (map_to_list_delete (r_participants r) sid l Hl). }
  rewrite (filter_perm_length _ _ _ Hperm), filter_cons. case_decide; cbn [length]; lia.
Qed.

(** A room after the eviction: nobody in it has the identity, and it is no fuller. *)
Lemma evict_duplicate_room id rl w r :
  world_ok w -> w_rooms w !! rl = Some r ->
  exists r', w_rooms (evict_duplicate id rl w) !! rl = Some r' /\ r_max_participants r' = r_max_participants r /\
    (count_non_dependent (evict_duplicate id rl w) r' <= count_non_dependent w r)%nat /\
    get_participant_by_identity (evict_duplicate id rl w) id r' = None.
Proof.
  intros Hw Hr. pose proof (evict_duplicate_evers id rl w) as He. pose proof (evict_duplicate_ok id rl w Hw) as Hw'.
  pose proof (evict_duplicate_statics id rl w) as (Hst & _).
  assert (exists r', w_rooms (evict_duplicate id rl w) !! rl = Some r' /\ r_max_participants r' = r_max_participants r) as (r' & Hr' & Hm).
  { apply (f_equal (lookup rl)) in He. unfold evers in He. rewrite !lookup_fmap, Hr in He.
    destruct (w_rooms (evict_duplicate id rl w) !! rl) as [r'|]; [|done]. exists r'. by injection He. }
  exists r'. split_and!; [done..| |].
  all: unfold evict_duplicate in *; rewrite Hr in *; cbn [mbind option_bind] in *.
  all: destruct (get_participant_by_identity w id r) as [old|] eqn:Hg; [|assert (r' = r) as -> by congruence; done].
  all: apply (get_by_identity_iff w rl r id old Hw Hr) in Hg as (sid & q & Hsid & Hq & Hid).
  all: destruct (close_signal_frame old DUPLICATE_IDENTITY w) as (Fs & Fr & _).
  all: destruct (ok_members _ _ _ (wok_rooms w Hw rl r Hr) _ _ Hsid) as (s & Es & Esid & Eroom).
  all: pose proof Es as Es0; rewrite <- Fs in Es; apply statics_part in Es as (q1 & Hq1 & <-).
  all: destruct (end_participant_effect old DUPLICATE_IDENTITY _ q1 rl r Hq1 Eroom) as ((r1 & Hr1 & Hd) & _);
    [by rewrite Fr|rewrite <- Esid in Hsid; exact Hsid|].
  all: assert (r1 = r') as -> by congruence; change (s_sid (static q1)) with (p_sid q1) in Esid; rewrite Esid in Hd.
  - by eapply count_delete.
  - destruct (get_participant_by_identity _ id r') as [l|] eqn:Hg; [|done].
    apply (get_by_identity_iff _ rl r' id l Hw' Hr') in Hg as (sid' & q' & Hsid' & Hq' & Hid').
    rewrite Hd in Hsid'. apply lookup_delete_Some in Hsid' as [Hne Hsid'].
    assert (statics w !! l = Some (static q')) as E1 by (rewrite <- Hst; unfold statics; by rewrite lookup_fmap, Hq').
    assert (statics w !! old = Some (static q)) as E2 by (unfold statics; by rewrite lookup_fmap, Hq).
    destruct Hne. apply (ok_unique _ _ _ (wok_rooms w Hw rl r Hr) _ _ _ _ _ _ Hsid Hsid' E2 E1). cbn. congruence.
Qed.

Lemma add_dispatches_ever ds : forall acc, ever (foldl add_dispatch acc ds).1 = ever acc.1.
Proof.
  induction ds as [|d ds IH]; intros acc; cbn [foldl]; [done|]. rewrite IH. destruct acc as [r new].
  unfold add_dispatch, add_agent_dispatch. by destruct (existsb _ _).
Qed.

(** The room a join finds or makes. *)
Lemma get_or_create_room_found name rl0 sid limits w w1 rl :
  world_ok w -> get_or_create_room name rl0 sid limits w = (w1, rl) ->
  get_room name w1 = Some rl /\
  exists r, w_rooms w1 !! rl = Some r /\
    match get_room name w with
    | Some l => w1 = w /\ l = rl
    | None => r_participants r = ∅ /\ r_max_participants r = (default (300, 20, 0) limits).2
    end.
Proof.
  intros Hw. unfold get_or_create_room, get_room. destruct (w_table w !! name) as [l|] eqn:Ht; intros [= <- <-].
  - split; [done|]. destruct (wok_table w Hw _ _ Ht) as (r & Hr & _). by exists r.
  - cbn [w_table w_rooms emit set_table set_rooms]. rewrite !lookup_insert_eq. split; [done|]. eexists. split; [done|].
    unfold Room_new. by destruct (default _ limits) as [[et dt] mp].
Qed.

(** A join that finds its room open, with a place, succeeds. *)
Lemma join_room_succeeds limits token params kind dr w :
  world_ok w -> fresh_draws dr w -> check_join token params = Ok (vg_room (video token)) -> 0 <= (default (300, 20, 0) limits).2 ->
  (forall rl r, get_room (vg_room (video token)) w = Some rl -> w_rooms w !! rl = Some r -> is_full w r = false) ->
  exists w' rl ds, join_room limits token params kind dr w = (w', Ok (rl, dr_part dr, ds)).
Proof.
  intros Hw Hfr Hck Hlim Hfull. unfold join_room. rewrite Hck. destruct (get_or_create_room _ _ _ _ _) as [w1 rl] eqn:Hg.
  pose proof (get_or_create_room_ok (vg_room (video token)) (dr_room dr) (dr_room_sid dr) limits w Hw (proj1 Hfr)) as Hw1.
  rewrite Hg in Hw1. cbn [fst] in Hw1. destruct (get_or_create_room_found _ _ _ _ _ _ _ Hw Hg) as (Hname & r & Hr & Hwas).
  assert (is_full w1 r = false) as Hf1.
  { destruct (get_room _ w) as [l|] eqn:Hl; [destruct Hwas as [-> ->]; by apply (Hfull rl)|]. destruct Hwas as [E1 E2].
    unfold is_full, count_non_dependent, parts_of, members. rewrite E1, E2, map_to_list_empty. change (Z.of_nat _) with 0.
    destruct (_ =? 0) eqn:E0; [done|]. bool_to_prop. lia. }
  destruct (evict_duplicate_room (tk_identity token) rl w1 r Hw1 Hr) as (r2 & Hr2 & Hm2 & Hc2 & Hid2).
  pose proof (evict_duplicate_ok (tk_identity token) rl w1 Hw1) as Hw2.
  pose proof (evict_duplicate_statics (tk_identity token) rl w1) as (Hst & Htab & _).
  cbv zeta. set (w2 := evict_duplicate _ _ _) in *. rewrite Hr2. set (p := session_participant _ _ _ _ _ _).
  pose proof (add_dispatches_life (token_agents token) (r2, [])) as Hl. pose proof (add_dispatches_ever (token_agents token) (r2, [])) as He.
  destruct (foldl add_dispatch _ _) as [r' new]. cbn [fst] in Hl, He. destruct Hl as (_ & Hclosed & _ & Hparts & _).
  injection He as _ Hmax.
  assert (r_closed r2 = false) as Hopen.
  { unfold get_room in Hname. rewrite <- Htab in Hname. destruct (wok_table w2 Hw2 _ _ Hname) as (r0 & ? & _ & ?). congruence. }
  assert (w_parts w2 !! dr_part dr = None) as Hnew.
  { destruct Hfr as (_ & Hp & _). pose proof (get_or_create_room_statics (vg_room (video token)) (dr_room dr) (dr_room_sid dr) limits w) as Hs1.
    rewrite Hg in Hs1. cbn [fst] in Hs1. assert (statics w2 !! dr_part dr = None) as H.
    { rewrite Hst, Hs1. unfold statics. by rewrite lookup_fmap, Hp. }
    unfold statics in H. rewrite lookup_fmap in H. by destruct (w_parts w2 !! dr_part dr). }
  set (w4 := set_rooms _ (new_part _ _ _)).
  assert (w_rooms w4 !! rl = Some r') as Hr4 by apply lookup_insert_eq.
  assert (w_parts w4 !! dr_part dr = Some p) as Hp4 by apply lookup_insert_eq.
  assert (parts_of w4 r' = parts_of w2 r2) as Hpo.
  { unfold parts_of, members. rewrite Hparts. apply omap_ext_in. intros l Hl. unfold w4. cbn [w_parts set_rooms new_part set_parts].
    apply lookup_insert_ne. intros <-. apply (elem_of_members r2) in Hl as [sid Hs].
    destruct (ok_members _ _ _ (wok_rooms w2 Hw2 rl r2 Hr2) _ _ Hs) as (s & Es & _). apply statics_part in Es as (q & Hq & _). congruence. }
  assert (is_full w4 r' = false) as Hfull4.
  { unfold is_full, count_non_dependent in *. rewrite Hpo, Hmax, Hm2. destruct (r_max_participants r =? 0); [done|]. bool_to_prop. lia. }
  unfold join, join_check. rewrite Hr4, Hp4, Hclosed, Hopen, Hfull4, andb_false_r. cbn [negb andb].
  rewrite (join_insert_eq rl (dr_part dr) w4 r' p Hr4 Hp4), Hpo.
  destruct (existsb _ _) eqn:Hex; [|by eexists _, _, _].
  exfalso. apply existsb_exists in Hex as (q & Hq & Hqid). apply list_elem_of_In, elem_of_parts_of in Hq as (sid & l & Hs & Hq).
  assert (get_participant_by_identity w2 (tk_identity token) r2 = Some l) as E; [|congruence].
  apply (get_by_identity_iff w2 rl r2 _ l Hw2 Hr2). exists sid, q. split_and!; [done..|]. apply String.eqb_eq in Hqid.
  rewrite Hqid. exact (f_equal s_identity (static_session_participant (w_now w2) token params kind rl (dr_part_sid dr))).
Qed.

(** * Data routing *)

Lemma forward_data_fold out sender ls : forall w,
  w_trace (foldl (forward_data out sender) w ls) =
    w_trace w ++ omap (fun l => q ← w_parts w !! l;
                                if negb (p_sid q =? sender)%string && addressed out q
                                then Some (EvData (p_sid q) out) else None) ls /\
  w_parts (foldl (forward_data out sender) w ls) = w_parts w.
Proof.
  induction ls as [|l ls IH]; intros w; cbn [foldl]; [by rewrite app_nil_r|].
  assert (w_parts (forward_data out sender w l) = w_parts w) as Hp by (unfold forward_data; repeat case_match; done).
  destruct (IH (forward_data out sender w l)) as [Ht Hpp]. rewrite Ht, Hpp, Hp. split; [|done].
  cbn [omap list_omap]. unfold forward_data. destruct (w_parts w !! l) as [q|] eqn:Eq; cbn [mbind option_bind]; [|done].
  destruct (negb _ && _); cbn [w_trace emit]; [|done]. by rewrite <- app_assoc.
Qed.

(** Data packets.  A packet from a participant without the data permission is
    dropped.  Otherwise it is forwarded to exactly the members of the sender's room
    that it is addressed to (all of them when it names no destination), never back
    to the sender, with the kind of the channel it came on; a hidden sender's
    identity and sid are blanked, and any other sender's are filled in where the
    packet leaves them empty. *)
Theorem data_routing pl pk lossy w p rl r :
  w_parts w !! pl = Some p -> p_room p = Some rl -> w_rooms w !! rl = Some r ->
  let w' := handle_incoming_data pl pk lossy w in
  (can_publish_data (p_permission p) = false -> w' = w) /\
  (can_publish_data (p_permission p) = true ->
   exists evs out, w_trace w' = w_trace w ++ evs /\
     (forall e, e ∈ evs <-> exists q, q ∈ parts_of w r /\ p_sid q <> p_sid p /\ addressed pk q = true /\ e = EvData (p_sid q) out) /\
     dp_kind out = (if lossy then Lossy else Reliable) /\ dp_value out = dp_value pk /\
     (hidden (p_permission p) = true -> dp_participant_identity out = "" /\ dp_participant_sid out = "") /\
     (hidden (p_permission p) = false -> dp_participant_identity pk = "" -> dp_participant_identity out = p_identity p)).
Proof.
  intros Hp Hrm Hr. cbn zeta. unfold handle_incoming_data, room_of. rewrite Hp. cbn [mbind option_bind].
  rewrite Hrm. cbn [mbind option_bind]. rewrite Hr. cbn [mbind option_bind].
  split; intros Hd; rewrite Hd; [done|]. set (out := normalize_packet p lossy pk).
  destruct (forward_data_fold out (p_sid p) (members r) w) as [Ht _]. eexists _, out. split; [exact Ht|].
  assert (forall q, addressed out q = addressed pk q) as Ha.
  { intros q. unfold out, normalize_packet. by destruct (hidden _). }
  split_and!.
  - intros e. rewrite list_elem_of_omap. split.
    + intros (l & Hl & He). destruct (w_parts w !! l) as [q|] eqn:Hq; [|done]. cbn [mbind option_bind] in He.
      destruct (negb _ && _) eqn:Hc; [|done]. injection He as <-. bool_to_prop.
      exists q. split_and!; [|done|by rewrite <- Ha|done]. apply elem_of_members in Hl as [sid Hs].
      apply elem_of_parts_of. by exists sid, l.
    + intros (q & (sid & l & Hs & Hq)%elem_of_parts_of & Hne & Hadd & ->). exists l. split; [apply elem_of_members; by exists sid|].
      rewrite Hq. cbn [mbind option_bind]. rewrite Ha, Hadd. apply String.eqb_neq in Hne. by rewrite Hne.
  - unfold out, normalize_packet. by destruct (hidden _).
  - unfold out, normalize_packet. by destruct (hidden _).
  - intros Hh. unfold out, normalize_packet. by rewrite Hh.
  - intros Hh He. unfold out, normalize_packet. rewrite Hh. cbn. by rewrite He.
Qed.

(** * Concrete runs *)

Module DemoSignal.
Definition grant (room : string) : VideoGrant :=
  mkVideoGrant false false false false true room None None None [] None false false false None "".
Definition token (identity kind : string) (agents : list RoomAgentDispatch) : VerifiedToken :=
  mkToken "key" identity identity "" ∅ kind (grant "r") (mkSipGrant false false)
    (Some (mkRoomConfig "" 0 0 0 "" agents)) "" "" None.
Definition params : SessionParams := mkParams false "" true false "" ∅ [].
Definition draws (n : nat) : Draws :=
  mkDraws (10 * n)%nat (String.append "RM_" (fmt_dec (Z.of_nat n))) (10 * n + 1)%nat (String.append "PA_" (fmt_dec (Z.of_nat n))).
Definition limits : option (Z * Z * Z) := Some (300, 20, 1).

Definition join_as (n : nat) (identity kind : string) (agents : list RoomAgentDispatch) (w : World) :=
  join_room limits (token identity kind agents) params (participant_kind_from_token (token identity kind agents)) (draws n) w.

Definition s0 : World := empty_world 5000000.
Definition s1 : World := (join_as 1 "alice" "" [] s0).1.
Definition s2 : World := (join_as 2 "alice" "" [] s1).1.

Lemma s1_fresh : fresh_draws (draws 1) s0.
Proof. split_and!; done. Qed.

Lemma s1_ok : world_ok s1.
Proof. apply join_room_ok; [apply empty_world_ok|exact s1_fresh]. Qed.

Lemma s1_statics : statics s1 = {[11%nat := mkStatic "PA_1" "alice" Standard (Some 10%nat) 0]}.
Proof. vm_compute. reflexivity. Qed.

Lemma s2_fresh : fresh_draws (draws 2) s1.
Proof.
  split_and!; [vm_compute; reflexivity..|]. intros l s. rewrite s1_statics. intros [_ <-]%lookup_singleton_Some. done.
Qed.

Definition count_started (w : World) : nat :=
  length (List.filter (fun e => match e with EvRoomStarted _ => true | _ => false end) (w_trace w)).

Definition helper : RoomAgentDispatch := mkDispatch "helper" "" "" ∅.
(** A full room, a refused caller with a dispatch, then the same caller again. *)
Definition refused := join_as 2 "bob" "" [helper] s1.
Definition freed : World := end_participant 11%nat CLIENT_INITIATED refused.1.
Definition admitted := join_as 3 "bob" "" [helper] freed.
End DemoSignal.

Lemma reachable_world_ok_witness : world_ok DemoSignal.s2.
Proof.
  apply (reachable_world_ok 5000000 DemoSignal.s2).
  eapply reach_step; [eapply reach_step; [apply reach_init|]|].
  - apply (st_join DemoSignal.limits (DemoSignal.token "alice" "" []) DemoSignal.params Standard (DemoSignal.draws 1)).
    exact DemoSignal.s1_fresh.
  - apply (st_join DemoSignal.limits (DemoSignal.token "alice" "" []) DemoSignal.params Standard (DemoSignal.draws 2)).
    exact DemoSignal.s2_fresh.
Defined.


Lemma resumed_session_survives_grace_witness :
  let w1 := (resume_room_participant (DemoSignal.token "alice" "" []) DemoSignal.params DemoSignal.s1).1 in
  grace_task 11%nat 0 w1 = w1.
Proof.
  cbn zeta.
  change 0 with (p_resume_gen (Demo.caller 1)).
  replace (p_resume_gen (Demo.caller 1)) with (p_resume_gen (default (Demo.caller 1) (w_parts DemoSignal.s1 !! 11%nat)))
    by (vm_compute; reflexivity).
  apply (resumed_session_survives_grace 0 (DemoSignal.token "alice" "" []) DemoSignal.params DemoSignal.s1
    (resume_room_participant (DemoSignal.token "alice" "" []) DemoSignal.params DemoSignal.s1).1 10%nat 11%nat
    (default (Demo.caller 1) (w_parts DemoSignal.s1 !! 11%nat))).
  - vm_compute. reflexivity.
  - vm_compute. split; [discriminate|reflexivity].
  - vm_compute. reflexivity.
  - constructor.
  - vm_compute. reflexivity.
Defined.

Lemma data_routing_witness :
  exists evs out, w_trace (handle_incoming_data 11%nat (mkPacket Lossy "" "" [] None) false DemoSignal.s1)
                  = w_trace DemoSignal.s1 ++ evs /\ dp_kind out = Reliable /\ dp_participant_identity out = "alice".
Proof.
  destruct (data_routing 11%nat (mkPacket Lossy "" "" [] None) false DemoSignal.s1
    (default (Demo.caller 1) (w_parts DemoSignal.s1 !! 11%nat)) 10%nat
    (default Demo.r0 (w_rooms DemoSignal.s1 !! 10%nat))) as [_ H]; [vm_compute; reflexivity..|].
  destruct H as (evs & out & Ht & _ & Hk & _ & _ & Hi); [vm_compute; reflexivity|].
  exists evs, out. split; [exact Ht|]. split; [exact Hk|]. rewrite Hi; [vm_compute; reflexivity..].
Defined.

(** [room_started] can be reported more than once for a room.  A join counts as
    the first one as long as no real participant ever joined, and agents do not
    count as real: when an agent joins before the caller, both joins report the
    room as started. *)
Theorem room_started_twice :
  let w1 := (DemoSignal.join_as 1 "agent" "agent" [] DemoSignal.s0).1 in
  let w2 := (DemoSignal.join_as 2 "alice" "" [] w1).1 in
  DemoSignal.count_started w1 = 1%nat /\ DemoSignal.count_started w2 = 2%nat.
Proof. vm_compute. split; reflexivity. Qed.

(** A refused join swallows its agent dispatch.  [join_room] records the
    dispatches of the token in the room and marks them launched before it tries to
    join; when the room is full the caller gets an error and nobody launches them,
    and a later join with the same dispatch finds it recorded and launches nothing
    either. *)
Theorem refused_join_swallows_dispatch :
  DemoSignal.refused.2 = Err "room is full or closed" /\
  DemoSignal.admitted.2 = Ok (10%nat, 31%nat, []) /\
  match w_rooms DemoSignal.admitted.1 !! 10%nat with
  | Some r => was_dispatch_launched (dispatch_key DemoSignal.helper) r = true
  | None => False
  end.
Proof. vm_compute. split_and!; reflexivity. Qed.
