(* ===== verification/RoomService.v ===== *)
(** The room administration API, [room_service] of [crates/lk-server/src/services.rs], over the
    shared store of [Room] and [Signal].  What a handler spawns is kept as a list of tasks that
    run later, at any time. *)
From Stdlib Require Import ZArith Lia Ascii String.
From stdpp Require Import base gmap strings list option.
From S2P Require Import Prelude RustStr Core Track Auth Twirp Config Proto Participant Room Signal.

Open Scope string_scope.
Open Scope list_scope.
Open Scope Z_scope.
Local Open Scope twirp_scope.

(** * Grants and limits *)

Definition denied : TwirpError := (unauthenticated, "permissions denied").
Definition ensure_admin (token : VerifiedToken) (room : string) : Result TwirpError unit :=
  if room_admin (video token) && (vg_room (video token) =? room)%string then Ok tt else Err denied.
Definition ensure_create (token : VerifiedToken) : Result TwirpError unit :=
  if room_create (video token) then Ok tt else Err denied.
Definition ensure_list (token : VerifiedToken) : Result TwirpError unit :=
  if room_list (video token) then Ok tt else Err denied.

Definition validate_metadata (lim : LimitConfig) (metadata : string) : Result TwirpError unit :=
  if lm_max_metadata lim <? str_len metadata then Err (invalid_argument, "metadata size exceeds limits") else Ok tt.

Definition attributes_size (attributes : gmap string string) : Z :=
  map_fold (fun k v acc => str_len k + str_len v + acc) 0 attributes.
Definition validate_attributes (lim : LimitConfig) (attributes : gmap string string) : Result TwirpError unit :=
  if lm_max_attributes lim <? attributes_size attributes then Err (invalid_argument, "attribute size exceeds limits") else Ok tt.

(** * Requests, replies and tasks *)

Record CreateRoomRequest := mkCreateRoom {
  cq_name : string; cq_empty_timeout : Z; cq_departure_timeout : Z; cq_max_participants : Z; cq_metadata : string;
  cq_agents : list RoomAgentDispatch;
}.
Record RoomParticipantIdentity := mkIdentity { id_room : string; id_identity : string }.
Record MuteRoomTrackRequest := mkMute { mq_room : string; mq_identity : string; mq_track_sid : string; mq_muted : bool }.
Record UpdateParticipantRequest := mkUpdateParticipant {
  uq_room : string; uq_identity : string; uq_metadata : string; uq_permission : option ParticipantPermission;
  uq_name : string; uq_attributes : gmap string string;
}.
Record UpdateSubscriptionsRequest := mkUpdateSubscriptions { sq_room : string; sq_identity : string; sq_update : UpdateSubscription }.
Record SendDataRequest := mkSendData {
  dq_room : string; dq_data : list Z; dq_kind : DataKind; dq_destination_identities : list string;
}.

(** The methods with their bodies; [Err] is a body that does not parse. *)
Inductive RoomCall :=
| CreateRoom (r : Result TwirpError CreateRoomRequest)
| ListRooms (names : Result TwirpError (list string))
| DeleteRoom (room : Result TwirpError string)
| ListParticipants (room : Result TwirpError string)
| GetParticipant (r : Result TwirpError RoomParticipantIdentity)
| RemoveParticipant (r : Result TwirpError RoomParticipantIdentity)
| MutePublishedTrack (r : Result TwirpError MuteRoomTrackRequest)
| UpdateParticipant (r : Result TwirpError UpdateParticipantRequest)
| UpdateSubscriptions (r : Result TwirpError UpdateSubscriptionsRequest)
| SendData (r : Result TwirpError SendDataRequest)
| UpdateRoomMetadata (r : Result TwirpError (string * string))
| UnsupportedMethod
| UnknownMethod (method : string).

Inductive RoomReply :=
| ReplyRoom (r : RoomInfo) | ReplyRooms (l : list RoomInfo) | ReplyParticipants (l : list ParticipantInfo)
| ReplyParticipant (p : ParticipantInfo) | ReplyTrack (t : TrackInfo) | ReplyEmpty.

(** What handlers spawn. *)
Inductive Task :=
| TaskRoomStarted (proto : RoomInfo)
| TaskDeleteRoom (name : string) (proto : RoomInfo)
| TaskRemoveParticipant (pl : loc)
| TaskMute (pl : loc) (sid : string) (muted : bool)
| TaskSubscriptions (pl : loc) (sub : UpdateSubscription).

Definition run_task (t : Task) (w : World) : World :=
  match t with
  | TaskRoomStarted proto => emit (EvRoomStarted proto) w
  | TaskDeleteRoom name proto => (close_room name ROOM_DELETED (emit (EvRoomFinished proto) w)).1
  | TaskRemoveParticipant pl => end_participant pl PARTICIPANT_REMOVED w
  | TaskMute pl sid muted => set_track_muted pl sid muted true w
  | TaskSubscriptions pl sub => handle_update_subscriptions pl sub w
  end.

(** * Handlers *)

Definition Api : Type := World * list Task.
Definition reads {A} (f : World -> A) : Handler Api A := fun s => (Ok (f s.1), s).
Definition modify (f : World -> World) : Handler Api unit := fun s => (Ok tt, (f s.1, s.2)).
Definition updates {A} (f : World -> World * A) : Handler Api A := fun s => let '(w, a) := f s.1 in (Ok a, (w, s.2)).
Definition spawn (t : Task) : Handler Api unit := fun s => (Ok tt, (s.1, s.2 ++ [t])).

(** [room.to_proto()] of a room held by reference: its location is allocated. *)
Definition room_info (rl : loc) (w : World) : RoomInfo :=
  match w_rooms w !! rl with Some r => room_to_proto w r | None => room_to_proto w (Room_new 0 "" "" None) end.

Definition find_room (name : string) : Handler Api loc :=
  let! rl := reads (get_room name) in lift (ok_or rl (not_found, "room not found")).
Definition find_participant (rl : loc) (identity : string) : Handler Api loc :=
  let! pl := reads (fun w => r ← w_rooms w !! rl; get_participant_by_identity w identity r) in
  lift (ok_or pl (not_found, "participant not found")).
(** [participant.to_proto()]. *)
Definition participant_info (pl : loc) : Handler Api ParticipantInfo :=
  let! i := updates (info_of pl) in lift (ok_or i (not_found, "participant not found")).

(** The settings of [CreateRoom] on the room. *)
Definition apply_settings (now : Z) (r : CreateRoomRequest) (room : Room) : Room :=
  let room := if (cq_metadata r =? "")%string then room else (room_update_metadata now (cq_metadata r) room).1 in
  let room := if cq_empty_timeout r =? 0 then room else set_empty_timeout (cq_empty_timeout r) room in
  let room := if cq_departure_timeout r =? 0 then room else set_departure_timeout (cq_departure_timeout r) room in
  let room := if cq_max_participants r =? 0 then room else set_max_participants (cq_max_participants r) room in
  foldl (fun room d => (add_agent_dispatch d room).1) room (cq_agents r).

(** [rl] and [sid] are the location and the id a new room gets. *)
Definition create_room (lim : LimitConfig) (limits : option (Z * Z * Z)) (rl : loc) (sid : string) (r : CreateRoomRequest) :
    Handler Api RoomReply :=
  if (cq_name r =? "")%string then throw (invalid_argument, "room name is required")
  else if lm_max_room_name_length lim <? str_len (cq_name r)
  then throw (invalid_argument, "room name length exceeds limits: max length " +:+ fmt_dec (lm_max_room_name_length lim))
  else
    let! _ := lift (validate_metadata lim (cq_metadata r)) in
    let! existed := reads (fun w => bool_decide (is_Some (get_room (cq_name r) w))) in
    let! room := updates (get_or_create_room (cq_name r) rl sid limits) in
    let! _ := modify (fun w => upd_room room (apply_settings (w_now w) r) w) in
    let! proto := reads (room_info room) in
    let! _ := if existed then ret tt else spawn (TaskRoomStarted proto) in
    ret (ReplyRoom proto).

(** [server.list_rooms()] filtered by name. *)
Definition rooms_named (names : list string) (w : World) : list RoomInfo :=
  omap (fun rl => r ← w_rooms w !! rl;
                  if bool_decide (names = []) || existsb (String.eqb (r_name r)) names then Some (room_to_proto w r) else None)
    (list_rooms w).

Definition delete_room (name : string) : Handler Api RoomReply :=
  if (name =? "")%string then throw (invalid_argument, "room is required")
  else
    let! rl := find_room name in
    let! proto := reads (room_info rl) in
    let! _ := spawn (TaskDeleteRoom name proto) in
    ret ReplyEmpty.

(** [room.participants().iter().map(|p| p.to_proto())]. *)
Fixpoint infos_of (ls : list loc) (w : World) : World * list ParticipantInfo :=
  match ls with
  | [] => (w, [])
  | l :: ls' => let '(w, i) := info_of l w in let '(w, infos) := infos_of ls' w in (w, option_list i ++ infos)
  end.
Definition list_participants (name : string) : Handler Api RoomReply :=
  let! rl := find_room name in
  let! infos := updates (fun w => match w_rooms w !! rl with Some r => infos_of (members r) w | None => (w, []) end) in
  ret (ReplyParticipants infos).

Definition get_participant_info (r : RoomParticipantIdentity) : Handler Api RoomReply :=
  let! rl := find_room (id_room r) in
  let! pl := find_participant rl (id_identity r) in
  let! i := participant_info pl in
  ret (ReplyParticipant i).

Definition remove_participant_call (r : RoomParticipantIdentity) : Handler Api RoomReply :=
  let! rl := find_room (id_room r) in
  let! pl := find_participant rl (id_identity r) in
  let! _ := spawn (TaskRemoveParticipant pl) in
  ret ReplyEmpty.

Definition track_at (pl : loc) (sid : string) (w : World) : option (loc * PublishedTrack) :=
  p ← w_parts w !! pl; tl ← get_track sid p; t ← w_tracks w !! tl; Some (tl, t).

Definition mute_published_track (r : MuteRoomTrackRequest) : Handler Api RoomReply :=
  let! rl := find_room (mq_room r) in
  let! pl := find_participant rl (mq_identity r) in
  let! found := reads (track_at pl (mq_track_sid r)) in
  let! (tl, t) := lift (ok_or found (not_found, "track not found")) in
  let! info := updates (fun w => let t' := (set_muted (w_now w) (mq_muted r) t).1 in
                                 (set_tracks (<[tl := t']> (w_tracks w)) w, track_to_proto t')) in
  let! _ := spawn (TaskMute pl (mq_track_sid r) (mq_muted r)) in
  ret (ReplyTrack info).

(** The changes of [UpdateParticipant], and whether there was one. *)
Definition apply_update (r : UpdateParticipantRequest) (p : Participant) : Participant * bool :=
  let '(p, c1) := update_metadata (uq_metadata r) (if (uq_name r =? "")%string then None else Some (uq_name r)) p in
  let '(p, c2) := match uq_permission r with Some perm => update_permission perm p | None => (p, false) end in
  let '(p, c3) := if bool_decide (uq_attributes r = ∅) then (p, false) else set_attributes (uq_attributes r) p in
  (p, c1 || c2 || c3).

Definition update_participant (lim : LimitConfig) (r : UpdateParticipantRequest) : Handler Api RoomReply :=
  let! rl := find_room (uq_room r) in
  let! pl := find_participant rl (uq_identity r) in
  let! _ := lift (validate_metadata lim (uq_metadata r)) in
  let! _ := lift (validate_attributes lim (uq_attributes r)) in
  let! changed := updates (fun w => match w_parts w !! pl with
                                    | Some p => let '(p, c) := apply_update r p in (set_parts (<[pl := p]> (w_parts w)) w, c)
                                    | None => (w, false)
                                    end) in
  let! _ := if changed
            then let! i := participant_info pl in modify (broadcast_participant_update rl [i] None)
            else ret tt in
  let! i := participant_info pl in
  ret (ReplyParticipant i).

Definition update_subscriptions (r : UpdateSubscriptionsRequest) : Handler Api RoomReply :=
  let! rl := find_room (sq_room r) in
  let! pl := find_participant rl (sq_identity r) in
  let! _ := spawn (TaskSubscriptions pl (sq_update r)) in
  ret ReplyEmpty.

(** The packet of [SendData]; its topic and message id are not modelled. *)
Definition data_packet (r : SendDataRequest) : DataPacket :=
  mkPacket (dq_kind r) "" "" (dq_destination_identities r) (Some (DUser (dq_data r) [])).
Definition send_data (r : SendDataRequest) : Handler Api RoomReply :=
  let! rl := find_room (dq_room r) in
  let! _ := modify (broadcast_data rl (data_packet r) []) in
  ret ReplyEmpty.

Definition update_room_metadata (lim : LimitConfig) (room metadata : string) : Handler Api RoomReply :=
  let! _ := lift (validate_metadata lim metadata) in
  let! rl := find_room room in
  let! changed := updates (fun w => match w_rooms w !! rl with
                                    | Some r => let '(r', c) := room_update_metadata (w_now w) metadata r in
                                                (set_rooms (<[rl := r']> (w_rooms w)) w, c)
                                    | None => (w, false)
                                    end) in
  let! _ := if changed then modify (broadcast_room_update rl) else ret tt in
  let! proto := reads (room_info rl) in
  ret (ReplyRoom proto).

(** A body for one room, behind the admin grant of that room. *)
Definition admin_call {R} (token : VerifiedToken) (body : Result TwirpError R) (room : R -> string)
    (k : R -> Handler Api RoomReply) : Handler Api RoomReply :=
  let! r := lift body in
  let! _ := lift (ensure_admin token (room r)) in
  k r.

Definition room_service (lim : LimitConfig) (limits : option (Z * Z * Z)) (rl : loc) (sid : string) (token : VerifiedToken)
    (call : RoomCall) : Handler Api RoomReply :=
  match call with
  | CreateRoom body =>
      let! _ := lift (ensure_create token) in let! r := lift body in create_room lim limits rl sid r
  | ListRooms body =>
      let! _ := lift (ensure_list token) in let! names := lift body in
      let! rooms := reads (rooms_named names) in ret (ReplyRooms rooms)
  | DeleteRoom body =>
      let! _ := lift (ensure_create token) in let! name := lift body in delete_room name
  | ListParticipants body => admin_call token body id list_participants
  | GetParticipant body => admin_call token body id_room get_participant_info
  | RemoveParticipant body => admin_call token body id_room remove_participant_call
  | MutePublishedTrack body => admin_call token body mq_room mute_published_track
  | UpdateParticipant body => admin_call token body uq_room (update_participant lim)
  | UpdateSubscriptions body => admin_call token body sq_room update_subscriptions
  | SendData body => admin_call token body dq_room send_data
  | UpdateRoomMetadata body => admin_call token body fst (fun r => update_room_metadata lim r.1 r.2)
  | UnsupportedMethod => throw (failed_precondition, "not supported on this server")
  | UnknownMethod method => throw (not_found, "method not found: " +:+ method)
  end.

(** * The lifecycle under the API *)

(** Handlers that keep the server's invariant. *)
Definition preserves {A} (m : Handler Api A) : Prop := forall s, world_ok s.1 -> world_ok (m s).2.1.

Lemma preserves_keeps {A} (m : Handler Api A) : keeps m -> preserves m.
Proof. intros Hm s Hs. by rewrite Hm. Qed.
Lemma preserves_reads {A} (f : World -> A) : preserves (reads f).
Proof. by intros s. Qed.
Lemma preserves_spawn t : preserves (spawn t).
Proof. by intros s. Qed.
Lemma preserves_bind {A C} (m : Handler Api A) (k : A -> Handler Api C) : preserves m -> (forall a, preserves (k a)) -> preserves (bind m k).
Proof.
  intros Hm Hk s Hs. unfold bind. specialize (Hm s Hs). destruct (m s) as [[a|e] s']; [by apply Hk|done].
Qed.
Lemma preserves_modify f : (forall w, world_ok w -> world_ok (f w)) -> preserves (modify f).
Proof. intros Hf s Hs. by apply Hf. Qed.
Lemma preserves_updates {A} (f : World -> World * A) : (forall w, world_ok w -> world_ok (f w).1) -> preserves (updates f).
Proof. intros Hf s Hs. unfold updates. specialize (Hf s.1 Hs). by destruct (f s.1). Qed.
Lemma keeps_reads {A} (f : World -> A) : keeps (reads f).
Proof. by intros s. Qed.
Lemma preserves_ret {A} (a : A) : preserves (ret a).
Proof. by apply preserves_keeps. Qed.
Lemma preserves_throw {A} e : preserves (throw (A := A) e).
Proof. by apply preserves_keeps. Qed.
Lemma preserves_lift {A} (r : Result TwirpError A) : preserves (lift r).
Proof. by apply preserves_keeps. Qed.
Create HintDb preserves.
#[export] Hint Resolve preserves_reads preserves_spawn preserves_bind preserves_ret preserves_throw preserves_lift : preserves.

Lemma preserves_find_room name : preserves (find_room name).
Proof. unfold find_room. auto with preserves. Qed.
Lemma preserves_find_participant rl identity : preserves (find_participant rl identity).
Proof. unfold find_participant. auto with preserves. Qed.
Lemma preserves_participant_info pl : preserves (participant_info pl).
Proof.
  apply preserves_bind; [|auto with preserves]. apply preserves_updates. intros w Hw.
  eapply frame_world_ok; [apply info_of_frame|done].
Qed.
#[export] Hint Resolve preserves_find_room preserves_find_participant preserves_participant_info : preserves.

Lemma apply_settings_life now r room : same_life room (apply_settings now r room).
Proof.
  unfold apply_settings. cbv zeta.
  assert (forall ds room', same_life room room' -> same_life room (foldl (fun room d => (add_agent_dispatch d room).1) room' ds)) as Hds.
  { induction ds as [|d ds IH]; intros room' Hl; cbn [foldl]; [done|]. apply IH.
    eapply same_life_trans; [exact Hl|]. unfold add_agent_dispatch. by destruct (existsb _ _). }
  apply Hds. unfold room_update_metadata.
  repeat match goal with |- context [if ?b then _ else _] => destruct b end; done.
Qed.

Lemma static_apply_update r p : static (apply_update r p).1 = static p.
Proof.
  unfold apply_update. destruct (update_metadata _ _ p) as [p1 c1] eqn:E1.
  assert (static p1 = static p) as H1 by (by rewrite <- (static_update_metadata (uq_metadata r) (if (uq_name r =? "")%string then None else Some (uq_name r)) p), E1).
  destruct (match uq_permission r with Some perm => update_permission perm p1 | None => (p1, false) end) as [p2 c2] eqn:E2.
  assert (static p2 = static p) as H2.
  { destruct (uq_permission r); [unfold update_permission in E2; case_bool_decide|]; injection E2 as <- _; exact H1. }
  destruct (bool_decide _); [exact H2|]. destruct (set_attributes (uq_attributes r) p2) as [p3 c3] eqn:E3.
  rewrite <- H2, <- (static_set_attributes (uq_attributes r) p2), E3. done.
Qed.

Lemma infos_of_frame ls : forall w, frame w (infos_of ls w).1.
Proof.
  induction ls as [|l ls IH]; intros w; cbn [infos_of]; [done|].
  pose proof (info_of_frame l w) as H1. destruct (info_of l w) as [w1 i]. specialize (IH w1).
  destruct (infos_of ls w1) as [w2 infos]. cbn in *. by etrans.
Qed.

Lemma preserves_create_room lim limits rl sid r s : w_rooms s.1 !! rl = None -> world_ok s.1 ->
  world_ok (create_room lim limits rl sid r s).2.1.
Proof.
  intros Hf Hw. unfold create_room. destruct (cq_name r =? "")%string; [done|]. destruct (_ <? _); [done|].
  destruct (validate_metadata lim (cq_metadata r)) as [[]|e] eqn:Ev.
  2: { by rewrite (bind_lift_err _ _ e). }
  rewrite (bind_lift_ok _ _ tt) by done. unfold bind at 1, reads at 1. cbv beta iota.
  unfold bind at 1, updates at 1.
  pose proof (get_or_create_room_ok (cq_name r) rl sid limits s.1 Hw Hf) as H1.
  destruct (get_or_create_room (cq_name r) rl sid limits s.1) as [w1 l]. cbn [fst] in H1.
  match goal with |- world_ok (?m (w1, s.2)).2.1 => cut (preserves m); [intros Hm; by apply (Hm (w1, s.2))|] end.
  apply preserves_bind; [apply preserves_modify; intros w; apply upd_room_same_life; intros; apply apply_settings_life|].
  intros _. apply preserves_bind; [auto with preserves|]. intros proto. apply preserves_bind; [case_match; auto with preserves|auto with preserves].
Qed.

Lemma preserves_list_participants name : preserves (list_participants name).
Proof.
  apply preserves_bind; [auto with preserves|]. intros rl. apply preserves_bind; [|auto with preserves].
  apply preserves_updates. intros w Hw. destruct (w_rooms w !! rl); [|done].
  eapply frame_world_ok; [apply infos_of_frame|done].
Qed.
Lemma preserves_mute r : preserves (mute_published_track r).
Proof.
  repeat (apply preserves_bind; [auto with preserves|intros]). destruct a2 as [tl t].
  apply preserves_bind; [|auto with preserves]. apply preserves_updates. intros w Hw.
  eapply frame_world_ok; [apply set_tracks_frame|done].
Qed.
Lemma preserves_update_participant lim r : preserves (update_participant lim r).
Proof.
  repeat (apply preserves_bind; [solve [auto with preserves]|intros]).
  apply preserves_bind.
  - apply preserves_updates. intros w Hw. destruct (w_parts w !! a0) as [p|] eqn:Hp; [|done].
    pose proof (static_apply_update r p) as Hs. destruct (apply_update r p) as [p' c].
    eapply frame_world_ok; [by eapply insert_part_frame|done].
  - intros changed. apply preserves_bind; [|auto with preserves]. destruct changed; [|auto with preserves].
    apply preserves_bind; [auto with preserves|]. intros i. apply preserves_modify. intros w Hw.
    eapply frame_world_ok; [apply broadcast_participant_update_frame|done].
Qed.
Lemma preserves_send_data r : preserves (send_data r).
Proof.
  apply preserves_bind; [auto with preserves|]. intros rl. apply preserves_bind; [|auto with preserves].
  apply preserves_modify. intros w Hw. eapply frame_world_ok; [apply broadcast_data_frame|done].
Qed.
Lemma preserves_update_room_metadata lim room metadata : preserves (update_room_metadata lim room metadata).
Proof.
  repeat (apply preserves_bind; [solve [auto with preserves]|intros]). apply preserves_bind.
  - apply preserves_updates. intros w Hw. destruct (w_rooms w !! a0) as [r|] eqn:Hr; [|done].
    destruct (room_update_metadata (w_now w) metadata r) as [r' c] eqn:E. cbn [fst].
    assert (same_life r r') by (unfold room_update_metadata in E; destruct (_ =? _)%string; by simplify_eq).
    by eapply set_room_same_life.
  - intros changed. apply preserves_bind; [|auto with preserves]. destruct changed; [|auto with preserves].
    apply preserves_modify. intros w Hw. eapply frame_world_ok; [apply broadcast_room_update_frame|done].
Qed.
#[export] Hint Resolve preserves_list_participants preserves_mute preserves_update_participant preserves_send_data
  preserves_update_room_metadata : preserves.

Lemma room_service_ok lim limits rl sid token call s : w_rooms s.1 !! rl = None -> world_ok s.1 ->
  world_ok (room_service lim limits rl sid token call s).2.1.
Proof.
  intros Hf Hw.
  assert (forall R (body : Result TwirpError R) room k, (forall r, preserves (k r)) -> preserves (admin_call token body room k)) as Hadmin.
  { intros. unfold admin_call. auto with preserves. }
  destruct call as [body|body|body|body|body|body|body|body|body|body|body| |m]; cbn [room_service];
    try (apply Hadmin; [|done]; intros; solve [unfold get_participant_info, remove_participant_call, update_subscriptions; auto 8 with preserves]).
  - destruct (ensure_create token) as [[]|e] eqn:E; [rewrite (bind_lift_ok _ _ tt) by done|by rewrite (bind_lift_err _ _ e)].
    destruct body as [r|e]; [|done]. rewrite (bind_lift_ok _ _ r) by done. by apply preserves_create_room.
  - match goal with |- world_ok (?m s).2.1 => cut (preserves m); [by intros Hm; apply Hm|auto 8 with preserves] end.
  - match goal with |- world_ok (?m s).2.1 => cut (preserves m); [by intros Hm; apply Hm|] end.
    unfold delete_room. repeat (apply preserves_bind; [auto with preserves|intros]). case_match; auto 8 with preserves.
  - done.
  - done.
Qed.

Lemma run_task_ok t w : world_ok w -> world_ok (run_task t w).
Proof.
  intros Hw. destruct t; cbn [run_task].
  - eapply frame_world_ok; [apply emit_frame|done].
  - unfold close_room. assert (world_ok (emit (EvRoomFinished proto) w)) by (eapply frame_world_ok; [apply emit_frame|done]).
    case_match; [by apply close_ok|done].
  - by apply end_participant_ok.
  - eapply frame_world_ok; [apply set_track_muted_frame|done].
  - eapply frame_world_ok; [apply handle_update_subscriptions_frame|done].
Qed.

(** The server with its API: anything the signaling server does, a call with any token, or a
    spawned task that runs. *)
Inductive api_step : Api -> Api -> Prop :=
| api_server w w' ts : server_step w w' -> api_step (w, ts) (w', ts)
| api_call lim limits rl sid token call w ts :
    w_rooms w !! rl = None -> api_step (w, ts) (room_service lim limits rl sid token call (w, ts)).2
| api_task w ts1 t ts2 : api_step (w, ts1 ++ t :: ts2) (run_task t w, ts1 ++ ts2).


(** * Authorization *)

Definition admin_of (token : VerifiedToken) (room : string) : bool :=
  room_admin (video token) && (vg_room (video token) =? room)%string.
Definition body_room {R} (body : Result TwirpError R) (room : R -> string) (token : VerifiedToken) : bool :=
  match body with Ok r => admin_of token (room r) | Err _ => false end.

(** The grant a call needs. *)
Definition authorized (token : VerifiedToken) (call : RoomCall) : bool :=
  match call with
  | CreateRoom _ | DeleteRoom _ => room_create (video token)
  | ListRooms _ => room_list (video token)
  | ListParticipants body => body_room body id token
  | GetParticipant body | RemoveParticipant body => body_room body id_room token
  | MutePublishedTrack body => body_room body mq_room token
  | UpdateParticipant body => body_room body uq_room token
  | UpdateSubscriptions body => body_room body sq_room token
  | SendData body => body_room body dq_room token
  | UpdateRoomMetadata body => body_room body fst token
  | UnsupportedMethod | UnknownMethod _ => false
  end.

(** A handler that fails leaves everything as it was. *)
Definition clean {A} (m : Handler Api A) : Prop := forall s e s', m s = (Err e, s') -> s' = s.
(** A handler that does not fail. *)
Definition total {A} (m : Handler Api A) : Prop := forall s e s', m s <> (Err e, s').

Lemma keeps_clean {A} (m : Handler Api A) : keeps m -> clean m.
Proof. intros Hm s e s' E. specialize (Hm s). rewrite E in Hm. done. Qed.
Lemma total_clean {A} (m : Handler Api A) : total m -> clean m.
Proof. intros Hm s e s' E. by destruct (Hm s e s'). Qed.
Lemma clean_bind {A C} (m : Handler Api A) (k : A -> Handler Api C) : keeps m -> (forall a, clean (k a)) -> clean (bind m k).
Proof.
  intros Hm Hk s e s' E. unfold bind in E. specialize (Hm s). destruct (m s) as [[a|e'] s1]; cbn in Hm; subst; [by eapply Hk|].
  by injection E.
Qed.
Lemma total_bind {A C} (m : Handler Api A) (k : A -> Handler Api C) : total m -> (forall a, total (k a)) -> total (bind m k).
Proof. intros Hm Hk s e s' E. unfold bind in E. destruct (m s) as [[a|e'] s1] eqn:Em; [by eapply Hk|by eapply Hm]. Qed.
Lemma total_ret {A} (a : A) : total (ret a). Proof. done. Qed.
Lemma total_reads {A} (f : World -> A) : total (reads f). Proof. done. Qed.
Lemma total_modify f : total (modify f). Proof. done. Qed.
Lemma total_spawn t : total (spawn t). Proof. done. Qed.
Lemma total_updates {A} (f : World -> World * A) : total (updates f).
Proof. intros s e s' E. unfold updates in E. by destruct (f s.1). Qed.
Create HintDb clean.
#[export] Hint Resolve total_bind total_ret total_reads total_modify total_spawn total_updates : clean.
#[export] Hint Resolve keeps_clean keeps_reads keeps_lift keeps_throw keeps_ret keeps_bind : clean.

Lemma keeps_find_room name : keeps (find_room name).
Proof. unfold find_room. auto with clean. Qed.
Lemma keeps_find_participant rl identity : keeps (find_participant rl identity).
Proof. unfold find_participant. auto with clean. Qed.
#[export] Hint Resolve keeps_find_room keeps_find_participant : clean.

Lemma find_room_ok name s rl s' : find_room name s = (Ok rl, s') -> s' = s /\ get_room name s.1 = Some rl.
Proof.
  unfold find_room, bind, reads, lift. cbv beta iota. intros E. destruct (get_room name s.1); by simplify_eq/=.
Qed.
Lemma find_participant_ok rl identity s pl s' : find_participant rl identity s = (Ok pl, s') ->
  s' = s /\ exists r p, w_rooms s.1 !! rl = Some r /\ get_participant_by_identity s.1 identity r = Some pl /\
                        w_parts s.1 !! pl = Some p /\ p_identity p = identity.
Proof.
  unfold find_participant, bind, reads, lift. cbv beta iota. intros E.
  destruct (w_rooms s.1 !! rl) as [r|]; [|by simplify_eq/=]. cbn [mbind option_bind] in E.
  destruct (get_participant_by_identity s.1 identity r) as [l|] eqn:El; [|by simplify_eq/=]. injection E as -> <-. split; [done|].
  exists r. pose proof El as Ef. unfold get_participant_by_identity in Ef. destruct (list_find _ _) as [[i x]|] eqn:Elf; [|done].
  injection Ef as ->. apply list_find_Some in Elf as (_ & Hid & _). unfold has_identity in Hid.
  destruct (w_parts s.1 !! pl) as [p|]; [|done]. exists p. apply String.eqb_eq in Hid. done.
Qed.
Lemma participant_info_ok pl s p : w_parts s.1 !! pl = Some p ->
  exists i w', participant_info pl s = (Ok i, (w', s.2)) /\ is_Some (w_parts w' !! pl).
Proof.
  intros Hp. unfold participant_info, bind, updates, info_of. rewrite Hp. destruct (participant_to_proto _ p) as [p' i].
  eexists _, _. split; [reflexivity|]. cbn. rewrite lookup_insert_eq. by eexists.
Qed.
Lemma clean_participant_info pl : clean (participant_info pl).
Proof.
  intros s e s' E. destruct (w_parts s.1 !! pl) as [p|] eqn:Hp.
  - destruct (participant_info_ok pl s p Hp) as (i & w' & E' & _). by rewrite E' in E.
  - unfold participant_info, bind, updates, info_of, lift in E. rewrite Hp in E. cbn in E. injection E as _ <-. by destruct s.
Qed.

Lemma clean_update_participant lim r : clean (update_participant lim r).
Proof.
  apply clean_bind; [auto with clean|]. intros rl s e s' E. unfold bind at 1 in E.
  destruct (find_participant rl (uq_identity r) s) as [[pl|e1] s1] eqn:Ef.
  2: { pose proof (keeps_find_participant rl (uq_identity r) s) as Hk. rewrite Ef in Hk. cbn in Hk. by injection E as _ <-. }
  apply find_participant_ok in Ef as (-> & _ & p & _ & _ & Hp & _).
  destruct (validate_metadata lim (uq_metadata r)) as [[]|e2] eqn:E2; [|by injection E as _ <-].
  destruct (validate_attributes lim (uq_attributes r)) as [[]|e3] eqn:E3; [|by injection E as _ <-].
  exfalso. do 2 (rewrite (bind_lift_ok _ _ tt) in E by done). unfold bind at 1, updates at 1 in E. rewrite Hp in E.
  destruct (apply_update r p) as [p' c]. unfold bind at 1 in E.
  set (s0 := (set_parts (<[pl := p']> (w_parts s.1)) s.1, s.2)) in E.
  assert (w_parts s0.1 !! pl = Some p') as H0 by apply lookup_insert_eq.
  destruct c.
  - unfold bind at 1 in E. destruct (participant_info_ok pl s0 p' H0) as (i & w1 & E1 & [p1 Hp1]). rewrite E1 in E. cbn in E.
    unfold bind at 1 in E.
    destruct (participant_info_ok pl (broadcast_participant_update rl [i] None w1, s.2) p1) as (i2 & w2 & E4 & _).
    { cbn [fst]. unfold broadcast_participant_update. destruct (w_rooms w1 !! rl); [by rewrite send_all_parts|done]. }
    by rewrite E4 in E.
  - cbn [ret] in E. unfold bind at 1 in E. destruct (participant_info_ok pl s0 p' H0) as (i & w1 & E1 & _). cbn in E. by rewrite E1 in E.
Qed.

Lemma clean_mute r : clean (mute_published_track r).
Proof.
  repeat (apply clean_bind; [auto with clean|intros]). destruct a2 as [tl t]. apply total_clean. auto with clean.
Qed.

Lemma clean_update_room_metadata lim room metadata : clean (update_room_metadata lim room metadata).
Proof.
  repeat (apply clean_bind; [solve [auto with clean]|intros]). apply total_clean.
  apply total_bind; [auto with clean|]. intros []; auto 8 with clean.
Qed.

(** Grants, and calls that fail. *)
Lemma room_service_guard lim limits rl sid token call s :
  match room_service lim limits rl sid token call s with
  | (Ok _, _) => authorized token call = true
  | (Err _, s') => s' = s
  end.
Proof.
  assert (forall R (body : Result TwirpError R) room (k : R -> Handler Api RoomReply), (forall r, clean (k r)) ->
    match admin_call token body room k s with (Ok _, _) => body_room body room token = true | (Err _, s') => s' = s end) as Hadmin.
  { intros R body room k Hk. unfold admin_call. destruct body as [r|e]; [|done]. rewrite (bind_lift_ok _ _ r) by done.
    unfold ensure_admin. cbn [body_room]. fold (admin_of token (room r)). destruct (admin_of token (room r)); [|done].
    rewrite (bind_lift_ok _ _ tt) by done. destruct (k r s) as [[a|e] s'] eqn:E; [done|by eapply Hk]. }
  assert (forall A (body : Result TwirpError A) (ok : bool) (ensure : Result TwirpError unit) (k : A -> Handler Api RoomReply),
    ensure = (if ok then Ok tt else Err denied) -> (forall a, clean (k a)) ->
    match (let! _ := lift ensure in let! a := lift body in k a) s with (Ok _, _) => ok = true | (Err _, s') => s' = s end) as Hglobal.
  { intros A body ok ensure k -> Hk. destruct ok; [|done]. rewrite (bind_lift_ok _ _ tt) by done.
    destruct body as [a|e]; [|done]. rewrite (bind_lift_ok _ _ a) by done.
    destruct (k a s) as [[x|e] s'] eqn:E; [done|by eapply Hk]. }
  destruct call; cbn [room_service authorized]; try (by apply Hglobal; [done|]; intros; auto with clean); try done.
  - apply Hglobal; [done|]. intros q. unfold create_room. repeat case_match; auto with clean.
    apply clean_bind; [auto with clean|]. intros []. apply total_clean.
    repeat (apply total_bind; [solve [auto with clean]|intros]). apply total_bind; [case_match|]; auto with clean.
  - apply Hglobal; [done|]. intros name. unfold delete_room. case_match; auto with clean.
    apply clean_bind; [auto with clean|]. intros x. apply total_clean. auto 8 with clean.
  - apply Hadmin. intros name. apply clean_bind; [auto with clean|]. intros x. apply total_clean. auto with clean.
  - apply Hadmin. intros q. do 2 (apply clean_bind; [auto with clean|intros]). intros s1 e s2 E. unfold bind in E.
    destruct (participant_info a0 s1) as [[i|e'] s3] eqn:Ei; [done|]. injection E as _ <-. by eapply clean_participant_info.
  - apply Hadmin. intros q. do 2 (apply clean_bind; [auto with clean|intros]). apply total_clean. auto with clean.
  - apply Hadmin, clean_mute.
  - apply Hadmin, clean_update_participant.
  - apply Hadmin. intros q. do 2 (apply clean_bind; [auto with clean|intros]). apply total_clean. auto with clean.
  - apply Hadmin. intros q. apply clean_bind; [auto with clean|intros]. apply total_clean. auto with clean.
  - apply Hadmin. intros q. apply clean_update_room_metadata.
Qed.

(** Calls need their grant, and refused calls change nothing.  A call succeeds only for a
    token with the create, list or admin grant it needs, the admin grant being for the very room
    the request names; and a call that fails, for whatever reason, has changed neither the
    store nor the tasks to come. *)
Theorem room_service_guarded lim limits rl sid token call s :
  match room_service lim limits rl sid token call s with
  | (Ok _, _) => authorized token call = true
  | (Err _, s') => s' = s
  end.
Proof. apply room_service_guard. Qed.

(** * Effects of the calls *)

(** Events are only ever added to the trace. *)
Definition extends (w w' : World) : Prop := exists evs, w_trace w' = w_trace w ++ evs.
#[export] Instance extends_preorder : PreOrder extends.
Proof.
  split; [intros w; exists []; by rewrite app_nil_r|].
  intros a b c [e1 H1] [e2 H2]. exists (e1 ++ e2). by rewrite H2, H1, <- app_assoc.
Qed.
Lemma emit_extends e w : extends w (emit e w).
Proof. by exists [e]. Qed.
Lemma same_trace_extends w w' : w_trace w' = w_trace w -> extends w w'.
Proof. intros H. exists []. by rewrite app_nil_r. Qed.
Lemma info_of_trace pl w : w_trace (info_of pl w).1 = w_trace w.
Proof. unfold info_of. destruct (w_parts w !! pl); [by destruct (participant_to_proto _ _)|done]. Qed.
Lemma send_trace pl m w : w_trace (send pl m w).1 = w_trace w.
Proof. unfold send. repeat case_match; done. Qed.

Lemma close_participant_extends reason rp w pl : extends w (close_participant reason rp w pl).
Proof.
  unfold close_participant. destruct (w_parts w !! pl) as [p|]; [|done]. cbv zeta.
  set (w1 := upd_part pl clear_signal_sink _). set (w2 := emit (EvCloseMedia (p_sid p)) w1).
  set (w3 := (send pl (RLeave (reason_i32 reason)) w2).1). set (w4 := emit (EvParticipantTotal (-1)) w3).
  assert (extends w w4) as H4.
  { transitivity w3; [|apply emit_extends]. transitivity w2; [|apply same_trace_extends, send_trace].
    transitivity w1; [by apply same_trace_extends|apply emit_extends]. }
  pose proof (info_of_trace pl w4) as Hi. destruct (info_of pl w4) as [w5 [i|]]; cbn in Hi.
  - etrans; [exact H4|]. transitivity w5; [by apply same_trace_extends|apply emit_extends].
  - etrans; [exact H4|]. by apply same_trace_extends.
Qed.

Lemma close_trace rl reason w r : w_rooms w !! rl = Some r -> r_closed r = false -> r_on_close r = true ->
  exists mid proto, w_trace (close rl reason w) = w_trace w ++ mid ++ [EvRoomFinished proto; EvRoomTotal (-1)] /\ ri_name proto = r_name r.
Proof.
  intros Hr Hc Ho. destruct (close_shape rl reason w r Hr Hc Ho) as (_ & _ & Hrooms & _ & _ & _).
  unfold close in *. rewrite Hr, Hc, Ho in *. cbv zeta in *.
  set (w1 := emit (EvReleaseRoom _) _) in *. set (rp := room_to_proto _ r) in *.
  set (w2 := foldl (close_participant reason rp) w1 (members r)) in *.
  assert (extends w w2) as [mid Hmid].
  { transitivity w1; [by exists [EvTerminateRoomJobs (r_name r); EvReleaseRoom (r_name r)]; unfold w1; cbn; rewrite <- app_assoc|].
    unfold w2. generalize (members r) w1. intros ls. induction ls as [|l ls IH]; intros w0; cbn [foldl]; [done|].
    transitivity (close_participant reason rp w0 l); [apply close_participant_extends|apply IH]. }
  exists mid, rp. split; [|done]. unfold on_room_closed in *. set (w3 := upd_room rl (set_on_close false) _) in *.
  assert (w_trace w3 = w_trace w ++ mid ++ [EvRoomFinished rp]) as H3.
  { unfold w3. cbn. by rewrite Hmid, <- app_assoc. }
  destruct (w_rooms w3 !! rl) as [r3|] eqn:E3.
  - transitivity (w_trace w3 ++ [EvRoomTotal (-1)]); [done|]. rewrite H3, <- !app_assoc. done.
  - rewrite Hrooms, lookup_insert_eq in E3. done.
Qed.

(** What a successful [DeleteRoom] does. *)
Lemma delete_room_inv lim limits rl0 sid token name w ts reply s' :
  room_service lim limits rl0 sid token (DeleteRoom (Ok name)) (w, ts) = (Ok reply, s') ->
  exists rl, get_room name w = Some rl /\ s' = (w, ts ++ [TaskDeleteRoom name (room_info rl w)]).
Proof.
  cbn [room_service]. unfold ensure_create. destruct (room_create (video token)); [|done].
  rewrite (bind_lift_ok _ _ tt), (bind_lift_ok _ _ name) by done. unfold delete_room. destruct (name =? "")%string; [done|].
  unfold bind at 1. destruct (find_room name (w, ts)) as [[rl|e] s1] eqn:E; [|done].
  apply find_room_ok in E as [-> Hrl]. intros [= _ <-]. by exists rl.
Qed.

(** A deleted room goes.  A successful [DeleteRoom] changes nothing itself; its task closes
    whatever room has that name when it runs: the name leaves the table, the room is closed and
    empty.  But its end is announced twice, by the task and by the closing. *)
Theorem delete_room_effect lim limits rl0 sid token name w ts reply s' :
  room_service lim limits rl0 sid token (DeleteRoom (Ok name)) (w, ts) = (Ok reply, s') ->
  exists t, s' = (w, ts ++ [t]) /\
    forall w1 rl r, world_ok w1 -> get_room name w1 = Some rl -> w_rooms w1 !! rl = Some r ->
      let w2 := run_task t w1 in
      get_room name w2 = None /\ w_rooms w2 !! rl = Some (closed_room r) /\
      exists proto mid proto', w_trace w2 = w_trace w1 ++ EvRoomFinished proto :: mid ++ [EvRoomFinished proto'; EvRoomTotal (-1)] /\
        ri_name proto' = name.
Proof.
  intros (rl & Hrl & ->)%delete_room_inv. exists (TaskDeleteRoom name (room_info rl w)). split; [done|].
  intros w1 rl1 r Hw1 Hg Hr. cbn [run_task]. set (w1' := emit _ w1).
  unfold close_room, get_room. change (w_table w1') with (w_table w1). unfold get_room in Hg. rewrite Hg. cbn [fst].
  destruct (wok_table _ Hw1 _ _ Hg) as (r' & Hr' & Hn & Hc). assert (r' = r) as -> by congruence.
  pose proof (ok_callback _ _ _ (wok_rooms _ Hw1 _ _ Hr) Hc) as Ho.
  destruct (close_shape rl1 ROOM_DELETED w1' r Hr Hc Ho) as (_ & _ & H1 & H2 & _).
  destruct (close_trace rl1 ROOM_DELETED w1' r Hr Hc Ho) as (mid & proto' & Ht & Hp).
  split_and!.
  - by rewrite H2, Hn, lookup_delete_eq.
  - by rewrite H1, lookup_insert_eq.
  - exists (room_info rl w), mid, proto'. split; [|congruence]. rewrite Ht. cbn. by rewrite <- app_assoc.
Qed.

(** Muting twice is muting once. *)
Lemma set_muted_again now now' muted t : set_muted now' muted (set_muted now muted t).1 = ((set_muted now muted t).1, false).
Proof.
  unfold set_muted. destruct (negb (Bool.eqb (t_muted t) muted)) eqn:E; cbn [fst with_muted t_muted t_version].
  - by rewrite Bool.eqb_reflx.
  - by rewrite Bool.eqb_reflx.
Qed.

(** A track muted through the API is muted silently.  The handler mutes the track before it
    spawns the task that would tell the participant and the room; the task then finds nothing to
    change and sends nothing.  The caller gets the muted track, and no client is ever told. *)
Theorem mute_notifies_nobody lim limits rl0 sid token q w ts reply s' :
  room_service lim limits rl0 sid token (MutePublishedTrack (Ok q)) (w, ts) = (Ok reply, s') ->
  exists t info, s'.2 = ts ++ [t] /\ reply = ReplyTrack info /\ ti_muted info = mq_muted q /\
    w_chans s'.1 = w_chans w /\ w_trace s'.1 = w_trace w /\ run_task t s'.1 = s'.1.
Proof.
  cbn [room_service]. unfold admin_call. rewrite (bind_lift_ok _ _ q) by done. unfold ensure_admin.
  destruct (room_admin (video token) && _); [|done]. rewrite (bind_lift_ok _ _ tt) by done.
  unfold mute_published_track, bind at 1. destruct (find_room (mq_room q) (w, ts)) as [[rl|e] s1] eqn:E1; [|done].
  apply find_room_ok in E1 as [-> _]. unfold bind at 1. destruct (find_participant rl (mq_identity q) (w, ts)) as [[pl|e] s2] eqn:E2; [|done].
  apply find_participant_ok in E2 as (-> & _ & p & _ & _ & Hp & _). cbn [fst] in Hp. unfold bind at 1, reads at 1. cbn [fst snd].
  unfold track_at. rewrite Hp. cbn [mbind option_bind].
  destruct (get_track (mq_track_sid q) p) as [tl|] eqn:Et; [|done]. cbn [mbind option_bind].
  destruct (w_tracks w !! tl) as [t|] eqn:Etl; [|done]. intros [= <- <-].
  exists (TaskMute pl (mq_track_sid q) (mq_muted q)). eexists. split; [done|]. split; [done|]. cbn [fst].
  split; [by unfold set_muted; destruct (negb _)|]. split; [done|]. split; [done|].
  cbn [run_task]. unfold set_track_muted. set (t' := (set_muted (w_now w) (mq_muted q) t).1).
  change (w_parts (set_tracks _ w)) with (w_parts w). rewrite Hp, Et. cbn [mbind option_bind].
  change (w_tracks (set_tracks (<[tl:=t']> (w_tracks w)) w)) with (<[tl:=t']> (w_tracks w)).
  rewrite lookup_insert_eq. cbn [mbind option_bind]. 
  assert (forall n, set_muted n (mq_muted q) t' = (t', false)) as -> by (intros; apply set_muted_again). cbn [negb].
  unfold set_tracks. cbn. by rewrite insert_insert_eq.
Qed.

(** Data sent through the API reaches everyone.  Whatever destinations the request names,
    the packet goes to every participant of the room. *)
Theorem send_data_reaches_everyone w ts rl r q :
  world_ok w -> get_room (dq_room q) w = Some rl -> w_rooms w !! rl = Some r ->
  send_data q (w, ts) =
    (Ok ReplyEmpty,
     (foldl (fun w sid => emit (EvData sid (data_packet q)) w) w (p_sid <$> parts_of w r), ts)).
Proof.
  intros Hw Hg Hr. unfold send_data, find_room, bind, reads, lift, modify, ret. cbn [fst snd]. rewrite Hg. cbn [ok_or].
  unfold broadcast_data. rewrite Hr. f_equal. f_equal. unfold parts_of.
  assert (forall ls w', w_parts w' = w_parts w ->
    foldl (fun w l => match w_parts w !! l with
                      | Some p => if bool_decide ([] = @nil string) || existsb (fun d => (d =? p_identity p)%string) []
                                  then emit (EvData (p_sid p) (data_packet q)) w else w
                      | None => w end) w' ls =
    foldl (fun w sid => emit (EvData sid (data_packet q)) w) w' (p_sid <$> omap (fun l => w_parts w !! l) ls)) as H; [|by apply H].
  induction ls as [|l ls IH]; intros w' Hw'; cbn [foldl omap list_omap fmap list_fmap]; [done|].
  rewrite Hw'. destruct (w_parts w !! l) as [p|]; cbn; by rewrite IH.
Qed.

(** A removed participant is out.  A successful [RemoveParticipant] spawns a task for the
    participant with that identity; when it runs while the participant is still in its room, it
    takes exactly that participant out, disconnected, and reports its departure once. *)
Theorem remove_participant_effect lim limits rl0 sid token q w ts reply s' :
  room_service lim limits rl0 sid token (RemoveParticipant (Ok q)) (w, ts) = (Ok reply, s') ->
  exists pl, s' = (w, ts ++ [TaskRemoveParticipant pl]) /\ (exists p, w_parts w !! pl = Some p /\ p_identity p = id_identity q) /\
    forall w1 p rl r, w_parts w1 !! pl = Some p -> p_room p = Some rl -> w_rooms w1 !! rl = Some r ->
      get_participant (p_sid p) r = Some pl -> p_state p <= 3 ->
      let w2 := run_task (TaskRemoveParticipant pl) w1 in
      (exists r', w_rooms w2 !! rl = Some r' /\ r_participants r' = delete (p_sid p) (r_participants r)) /\
      (exists p', w_parts w2 !! pl = Some p' /\ gone PARTICIPANT_REMOVED p') /\
      (exists evs info, w_trace w2 = w_trace w1 ++ evs ++ [EvParticipantLeft info (participant_to_proto (w_tracks w1) (mark_disconnected PARTICIPANT_REMOVED p)).2]).
Proof.
  cbn [room_service]. unfold admin_call. rewrite (bind_lift_ok _ _ q) by done. unfold ensure_admin.
  destruct (room_admin (video token) && _); [|done]. rewrite (bind_lift_ok _ _ tt) by done.
  unfold remove_participant_call, bind at 1. destruct (find_room (id_room q) (w, ts)) as [[rl|e] s1] eqn:E1; [|done].
  apply find_room_ok in E1 as [-> _]. unfold bind at 1.
  destruct (find_participant rl (id_identity q) (w, ts)) as [[pl|e] s2] eqn:E2; [|done].
  apply find_participant_ok in E2 as (-> & _ & p & _ & _ & Hp & Hid). intros [= _ <-].
  exists pl. split; [done|]. split; [by exists p|]. intros w1 p1 rl1 r1 H1 H2 H3 H4 H5. cbn [run_task].
  destruct (end_participant_effect pl PARTICIPANT_REMOVED w1 p1 rl1 r1 H1 H2 H3 H4) as ((r' & Hr' & Hd) & Hpp & rp & Hrp & Ht).
  split; [by exists r'|]. split.
  - exists (ended PARTICIPANT_REMOVED p1). rewrite Hpp, lookup_insert_eq. split; [done|exact (mark_gone PARTICIPANT_REMOVED p1 H5)].
  - exists [EvCloseMedia (p_sid p1); EvParticipantTotal (-1)], rp. rewrite Ht. done.
Qed.

(** * Witnesses *)

Module ApiDemo.
(** A token that may create rooms and administer the room [r]. *)
Definition admin : VerifiedToken :=
  mkToken "devkey" "admin" "" "" ∅ "" (mkVideoGrant true true false true false "r" None None None [] None false false false None "")
    (mkSipGrant false false) None "" "" None.
Definition call (c : RoomCall) (w : World) : Result TwirpError RoomReply * Api :=
  room_service LimitConfig_default (Some (300, 20, 0)) 70%nat "RM_70" admin c (w, []).
Definition lobby : RoomCall := CreateRoom (Ok (mkCreateRoom "lobby" 0 0 2 "hall" [])).
Definition created : Api := (call lobby (empty_world 5000000)).2.
(** Alice of [DemoSignal.s1] has published a track. *)
Definition track : PublishedTrack :=
  mkTrack "TR_1" "c1" "mic" Audio Microphone "" false "audio/opus" None (TimedVersion_new 5000000) true 0 false false [] 0.
Definition published : World :=
  set_tracks {[30%nat := track]} (upd_part 11%nat (add_track "TR_1" "c1" 30%nat) DemoSignal.s1).
Definition mute : RoomCall := MutePublishedTrack (Ok (mkMute "r" "alice" "TR_1" true)).
Definition remove : RoomCall := RemoveParticipant (Ok (mkIdentity "r" "alice")).
End ApiDemo.


Lemma delete_room_effect_witness : exists t, (ApiDemo.call (DeleteRoom (Ok "r")) DemoSignal.s1).2 = (DemoSignal.s1, [] ++ [t]) /\
  get_room "r" (run_task t DemoSignal.s1) = None.
Proof.
  destruct (delete_room_effect LimitConfig_default (Some (300, 20, 0)) 70%nat "RM_70" ApiDemo.admin "r" DemoSignal.s1 [] ReplyEmpty
    (ApiDemo.call (DeleteRoom (Ok "r")) DemoSignal.s1).2) as (t & E & H); [vm_compute; reflexivity|].
  exists t. split; [exact E|].
  destruct (w_rooms DemoSignal.s1 !! 10%nat) as [r|] eqn:Hr; [|vm_compute in Hr; discriminate].
  destruct (H DemoSignal.s1 10%nat r DemoSignal.s1_ok) as [H1 _]; [reflexivity|exact Hr|exact H1].
Defined.

Lemma mute_notifies_nobody_witness : exists t, (ApiDemo.call ApiDemo.mute ApiDemo.published).2.2 = [] ++ [t] /\
  w_chans (run_task t (ApiDemo.call ApiDemo.mute ApiDemo.published).2.1) = w_chans ApiDemo.published.
Proof.
  destruct (mute_notifies_nobody LimitConfig_default (Some (300, 20, 0)) 70%nat "RM_70" ApiDemo.admin (mkMute "r" "alice" "TR_1" true)
    ApiDemo.published [] (ReplyTrack (track_to_proto (set_muted 5000000 true ApiDemo.track).1))
    (ApiDemo.call ApiDemo.mute ApiDemo.published).2) as (t & info & E1 & _ & _ & E2 & _ & E3); [vm_compute; reflexivity|].
  exists t. split; [exact E1|]. by rewrite E3.
Defined.

Lemma remove_participant_effect_witness : exists pl, (ApiDemo.call ApiDemo.remove DemoSignal.s1).2 = (DemoSignal.s1, [] ++ [TaskRemoveParticipant pl]).
Proof.
  destruct (remove_participant_effect LimitConfig_default (Some (300, 20, 0)) 70%nat "RM_70" ApiDemo.admin (mkIdentity "r" "alice") DemoSignal.s1 []
    ReplyEmpty (ApiDemo.call ApiDemo.remove DemoSignal.s1).2) as (pl & E & _); [vm_compute; reflexivity|].
  by exists pl.
Defined.

(** * Agents of created rooms *)

(** Dispatches given to [CreateRoom] are recorded on the room and never launched; and a token
    that asks for the same agent later finds it recorded and does not launch it either. *)
Lemma recorded_dispatch_suppressed ds : forall r new d, (foldl add_dispatch (r, new) ds).2 = new ++ d ->
  Forall (fun x => existsb (fun a => (dispatch_key a =? dispatch_key x)%string) (r_agents r) = false) d.
Proof.
  induction ds as [|x ds IH]; intros r new d E; cbn [foldl] in E.
  - assert (d = []) as -> by (apply (app_inv_head new); rewrite app_nil_r; symmetry; exact E). constructor.
  - unfold add_dispatch in E at 2. unfold add_agent_dispatch in *. destruct (existsb _ (r_agents r)) eqn:Ex; [by eapply IH|].
    set (r' := set_r_agents (r_agents r ++ [x]) (r_launched_agents r) r) in *.
    assert (exists d', d = x :: d') as [d' ->].
    { assert (forall ds r new, exists d', (foldl add_dispatch (r, new) ds).2 = new ++ d') as Hext.
      { clear. induction ds as [|y ds IH]; intros r new; cbn [foldl]; [exists []; by rewrite app_nil_r|].
        unfold add_dispatch at 2. destruct (add_agent_dispatch y r) as [r1 []]; [|apply IH].
        destruct (IH (mark_dispatch_launched (dispatch_key y) r1) (new ++ [y])) as [d' E]. exists (y :: d'). by rewrite E, <- app_assoc. }
      destruct (Hext ds (mark_dispatch_launched (dispatch_key x) r') (new ++ [x])) as [d' E'].
      exists d'. rewrite E' in E. rewrite <- app_assoc in E. by apply app_inv_head in E. }
    constructor; [done|]. rewrite (assoc_L (++) new [x] d') in E || (change (x :: d') with ([x] ++ d') in E; rewrite app_assoc in E).
    apply IH in E. revert E. apply Forall_impl. intros y Hy. cbn in Hy. rewrite existsb_app in Hy. by apply orb_false_elim in Hy as [? _].
Qed.
