(* ===== verification/Agent.v ===== *)
(** Agent workers and jobs, [crates/lk-server/src/agent.rs]: the registry of workers, dispatches
    and their jobs, the availability protocol with a worker as interleaved steps, agent tokens,
    and the worker's session. *)
From Stdlib Require Import ZArith Lia Ascii String.
From stdpp Require Import base gmap strings list option.
From S2P Require Import Prelude RustStr Core Auth Proto Participant Signal.

Open Scope string_scope.
Open Scope list_scope.
Open Scope Z_scope.

(** * Messages *)

Definition JT_ROOM : Z := 0.
Definition JS_PENDING : Z := 0.
Definition WS_AVAILABLE : Z := 0.

Record Job := mkJob {
  jo_id : string; jo_dispatch_id : string; jo_type : Z; jo_room : option RoomInfo; jo_metadata : string;
  jo_agent_name : string; jo_status : Z; jo_updated_at : Z; jo_deployment : string; jo_attributes : gmap string string;
}.
Record AvailabilityResponse := mkAvailability {
  av_job_id : string; av_available : bool; av_participant_name : string; av_participant_identity : string;
  av_participant_metadata : string; av_participant_attributes : gmap string string;
}.
Inductive ServerMessage :=
| MRegister (worker_id : string) (server_info : ServerInfo)
| MAvailability (job : Job)
| MAssignment (job : Job) (token : string)
| MTermination (job_id : string)
| MPong (last_timestamp timestamp : Z).

(** * Workers *)

(** [wk_tx] is the session's channel, [wk_availability] the pending responder; the load is an
    [f32], kept as its bits. *)
Record Worker := mkWorker {
  wk_id : string; wk_api_key : string; wk_agent_name : string; wk_job_type : Z; wk_status : Z; wk_load : Z;
  wk_job_count : Z; wk_ping_interval : Z; wk_is_available : bool; wk_tx : option loc; wk_availability : option nat;
}.
Definition set_wk_availability (o : option nat) (w : Worker) : Worker :=
  mkWorker (wk_id w) (wk_api_key w) (wk_agent_name w) (wk_job_type w) (wk_status w) (wk_load w) (wk_job_count w)
    (wk_ping_interval w) (wk_is_available w) (wk_tx w) o.
Definition set_wk_status (avail : bool) (status load count : Z) (w : Worker) : Worker :=
  mkWorker (wk_id w) (wk_api_key w) (wk_agent_name w) (wk_job_type w) status load count
    (wk_ping_interval w) avail (wk_tx w) (wk_availability w).

Record AgentDispatch := mkAgentDispatch {
  ad_id : string; ad_agent_name : string; ad_room : string; ad_metadata : string; ad_deployment : string;
  ad_attributes : gmap string string; ad_created_at : Z; ad_deleted_at : option Z; ad_jobs : list Job;
}.

(** A session's channel, and a [oneshot] channel seen from both ends. *)
Record WChan := mkWChan { wc_queue : list ServerMessage; wc_open : bool }.
Definition WORKER_CHANNEL_CAPACITY : nat := 256.
Inductive OneShot := OsPending | OsSent (res : AvailabilityResponse) | OsSenderGone | OsReceiverGone.

(** The manager with the workers it shares with sessions and calls, and the channels. *)
Record Manager := mkManager {
  am_heap : gmap loc Worker; am_workers : gmap string (list loc); am_dispatches : gmap string AgentDispatch;
  am_keys : gmap string string; am_chans : gmap loc WChan; am_oneshots : gmap nat OneShot;
}.
Definition AgentManager_new (keys : gmap string string) : Manager := mkManager ∅ ∅ ∅ keys ∅ ∅.

Definition set_heap (h : gmap loc Worker) (m : Manager) : Manager :=
  mkManager h (am_workers m) (am_dispatches m) (am_keys m) (am_chans m) (am_oneshots m).
Definition set_workers (t : gmap string (list loc)) (m : Manager) : Manager :=
  mkManager (am_heap m) t (am_dispatches m) (am_keys m) (am_chans m) (am_oneshots m).
Definition set_dispatches (d : gmap string AgentDispatch) (m : Manager) : Manager :=
  mkManager (am_heap m) (am_workers m) d (am_keys m) (am_chans m) (am_oneshots m).
Definition set_wchans (c : gmap loc WChan) (m : Manager) : Manager :=
  mkManager (am_heap m) (am_workers m) (am_dispatches m) (am_keys m) c (am_oneshots m).
Definition set_oneshots (o : gmap nat OneShot) (m : Manager) : Manager :=
  mkManager (am_heap m) (am_workers m) (am_dispatches m) (am_keys m) (am_chans m) o.

(** [tx.try_send]: dropped when the channel is full or closed. *)
Definition try_send (c : loc) (msg : ServerMessage) (m : Manager) : Manager :=
  match am_chans m !! c with
  | Some ch => if wc_open ch && (length (wc_queue ch) <? WORKER_CHANNEL_CAPACITY)%nat
               then set_wchans (<[c := mkWChan (wc_queue ch ++ [msg]) true]> (am_chans m)) m else m
  | None => m
  end.
(** [Worker::send]. *)
Definition worker_send (wl : loc) (msg : ServerMessage) (m : Manager) : Manager :=
  match am_heap m !! wl ≫= wk_tx with Some c => try_send c msg m | None => m end.

Definition drop_sender (o : nat) (m : Manager) : Manager :=
  match am_oneshots m !! o with
  | Some OsPending => set_oneshots (<[o := OsSenderGone]> (am_oneshots m)) m
  | _ => m
  end.
(** A responder that is replaced is dropped. *)
Definition set_availability_responder (wl : loc) (o : nat) (m : Manager) : Manager :=
  let m := match am_heap m !! wl ≫= wk_availability with Some old => drop_sender old m | None => m end in
  set_heap (alter (set_wk_availability (Some o)) wl (am_heap m)) m.
Definition fulfill_availability (wl : loc) (res : AvailabilityResponse) (m : Manager) : Manager :=
  match am_heap m !! wl ≫= wk_availability with
  | Some o =>
      let m := set_heap (alter (set_wk_availability None) wl (am_heap m)) m in
      match am_oneshots m !! o with
      | Some OsPending => set_oneshots (<[o := OsSent res]> (am_oneshots m)) m
      | _ => m
      end
  | None => m
  end.

(** * Registry *)

Definition register_worker (wl : loc) (w : Worker) (m : Manager) : Manager :=
  let m := set_heap (<[wl := w]> (am_heap m)) m in
  set_workers (<[wk_agent_name w := default [] (am_workers m !! wk_agent_name w) ++ [wl]]> (am_workers m)) m.

Definition has_worker_id (m : Manager) (worker_id : string) (wl : loc) : Prop := (wk_id <$> am_heap m !! wl) = Some worker_id.
#[export] Instance has_worker_id_dec m id wl : Decision (has_worker_id m id wl).
Proof. unfold has_worker_id. apply _. Defined.

Definition unregister_worker (worker_id : string) (m : Manager) : Manager :=
  let kept : gmap string (list loc) := (fun l => filter (fun wl => ~ has_worker_id m worker_id wl) l) <$> am_workers m in
  set_workers (filter (fun kv => kv.2 <> []) kept) m.

Definition workers_for (agent_name : string) (m : Manager) : list loc := default [] (am_workers m !! agent_name).

(** [idx] is the number drawn; [gen_range] gives one below the length. *)
Definition pick_worker (idx : nat) (ws : list loc) (m : Manager) : option loc :=
  let available := filter (fun wl => (wk_is_available <$> am_heap m !! wl) = Some true) ws in
  match available with [] => None | _ => available !! (idx mod length available)%nat end.

(** * Dispatches *)

Definition create_dispatch (id : string) (now : Z) (agent_name room metadata deployment : string) (attributes : gmap string string)
    (m : Manager) : AgentDispatch * Manager :=
  let d := mkAgentDispatch id agent_name room metadata deployment attributes now None [] in
  (d, set_dispatches (<[id := d]> (am_dispatches m)) m).

Definition delete_dispatch (id : string) (now : Z) (m : Manager) : option AgentDispatch * Manager :=
  match am_dispatches m !! id with
  | Some d =>
      (Some (mkAgentDispatch (ad_id d) (ad_agent_name d) (ad_room d) (ad_metadata d) (ad_deployment d) (ad_attributes d)
               (ad_created_at d) (Some now) (ad_jobs d)),
       set_dispatches (delete id (am_dispatches m)) m)
  | None => (None, m)
  end.

Definition live (d : AgentDispatch) : Prop := ad_deleted_at d = None.
Definition list_dispatches (room : string) (m : Manager) : list AgentDispatch :=
  filter (fun d => ad_room d = room /\ live d) (map_to_list (am_dispatches m)).*2.
Definition get_dispatch (id : string) (m : Manager) : option AgentDispatch :=
  d ← am_dispatches m !! id; if decide (live d) then Some d else None.

Definition add_job (job : Job) (d : AgentDispatch) : AgentDispatch :=
  if existsb (fun j => (jo_id j =? jo_id job)%string) (ad_jobs d) then d
  else mkAgentDispatch (ad_id d) (ad_agent_name d) (ad_room d) (ad_metadata d) (ad_deployment d) (ad_attributes d)
         (ad_created_at d) (ad_deleted_at d) (ad_jobs d ++ [job]).
Definition track_job (job : Job) (m : Manager) : Manager :=
  if (jo_dispatch_id job =? "")%string then m
  else set_dispatches (alter (add_job job) (jo_dispatch_id job) (am_dispatches m)) m.

(** A request to launch a job for a room: the arguments of [launch_room_job]. *)
Record Launch := mkLaunch {
  ln_agent_name : string; ln_room : RoomInfo; ln_metadata : string; ln_deployment : string;
  ln_attributes : gmap string string; ln_dispatch_id : option string;
}.
Definition room_job (id : string) (now : Z) (l : Launch) : Job :=
  mkJob id (default "" (ln_dispatch_id l)) JT_ROOM (Some (ln_room l)) (ln_metadata l) (ln_agent_name l) JS_PENDING
    (wrap_s 64 (now * 1000000000)) (ln_deployment l) (ln_attributes l).

(** [launch_room_dispatches]: the launches it spawns. *)
Definition launch_room_dispatches (room : RoomInfo) (m : Manager) : list Launch :=
  (fun d => mkLaunch (ad_agent_name d) room (ad_metadata d) (ad_deployment d) (ad_attributes d) (Some (ad_id d)))
    <$> list_dispatches (ri_name room) m.

Definition terminate_job (m : Manager) (job : Job) : Manager :=
  foldl (fun m wl => worker_send wl (MTermination (jo_id job)) m) m (workers_for (jo_agent_name job) m).
Definition room_jobs (room_name : string) (m : Manager) : list Job :=
  filter (fun j => (ri_name <$> jo_room j) = Some room_name) (mjoin (ad_jobs <$> (map_to_list (am_dispatches m)).*2)).
Definition terminate_room_jobs (room_name : string) (m : Manager) : Manager :=
  foldl terminate_job m (room_jobs room_name m).

(** * Tokens *)

(** The claims of [build_agent_token]. *)
Definition agent_claims (api_key room identity name metadata : string) (attributes : gmap string string) (now : Z) : Value :=
  VObj [("iss", VStr api_key); ("sub", VStr identity); ("name", VStr name); ("metadata", VStr metadata);
        ("attributes", VObj (prod_map id VStr <$> map_to_list attributes)); ("kind", VStr "AGENT");
        ("iat", VInt now); ("nbf", VInt (now - 5)); ("exp", VInt (now + 3600));
        ("video", VObj [("roomJoin", VBool true); ("room", VStr room); ("canPublish", VBool true);
                        ("canSubscribe", VBool true); ("canPublishData", VBool true);
                        ("canUpdateOwnMetadata", VBool true); ("agent", VBool true)])].

Section Tokens.
(** [jsonwebtoken::encode] with HS256, from the secret and the claims. *)
Context (jwt_encode : string -> Value -> Result string string).

Definition build_agent_token (api_key secret room identity name metadata : string) (attributes : gmap string string) (now : Z) :
    Result string string :=
  map_err (fun e => "encode agent token: " +:+ e)
    (jwt_encode secret (agent_claims api_key room identity name metadata attributes now)).

(** * The availability protocol *)

Definition no_worker (agent : string) : string :=
  "not dispatching agent job since no worker is available (agent '" +:+ agent +:+ "')".

(** Where a call of [launch_room_job] is: picking a worker (with the index drawn), past the check
    that the worker has no pending request, waiting for the answer, or done. *)
Inductive CallPc :=
| Picking (idx : nat) | Picked (wl : loc) | Waiting (wl : loc) (o : nat) | Done (r : Result string string).
Record Call := mkCall { ca_job : Job; ca_pc : CallPc }.

(** What the answer leads to: the message for the worker, or an error. *)
Definition on_answer (job : Job) (worker : Worker) (keys : gmap string string) (now : Z) (res : AvailabilityResponse) :
    Result string ServerMessage :=
  if negb (av_available res) then Err "worker declined the job"
  else
    let identity := if (av_participant_identity res =? "")%string then "agent-" +:+ jo_id job else av_participant_identity res in
    secret ← ok_or (keys !! wk_api_key worker) ("unknown api key '" +:+ wk_api_key worker +:+ "'");
    token ← build_agent_token (wk_api_key worker) secret (default "" (ri_name <$> jo_room job)) identity
              (av_participant_name res) (av_participant_metadata res) (av_participant_attributes res) now;
    Ok (MAssignment job token).

(** One step of a call; [None] when it has to wait.  [o] is the new [oneshot] channel. *)
Definition call_step (now : Z) (o : nat) (c : Call) (m : Manager) : option (CallPc * Manager) :=
  match ca_pc c with
  | Picking idx =>
      match pick_worker idx (workers_for (jo_agent_name (ca_job c)) m) m with
      | None => Some (Done (Err (no_worker (jo_agent_name (ca_job c)))), m)
      | Some wl =>
          match am_heap m !! wl ≫= wk_availability with
          | Some _ => Some (Done (Err "worker already has a pending availability request"), m)
          | None => Some (Picked wl, m)
          end
      end
  | Picked wl =>
      let m := set_oneshots (<[o := OsPending]> (am_oneshots m)) m in
      let m := set_availability_responder wl o m in
      Some (Waiting wl o, worker_send wl (MAvailability (ca_job c)) m)
  | Waiting wl o =>
      match am_oneshots m !! o, am_heap m !! wl with
      | Some (OsSent res), Some worker =>
          match on_answer (ca_job c) worker (am_keys m) now res with
          | Err e => Some (Done (Err e), m)
          | Ok msg => Some (Done (Ok (jo_id (ca_job c))), track_job (ca_job c) (worker_send wl msg m))
          end
      | Some OsSenderGone, _ => Some (Done (Err "availability channel closed"), m)
      | _, _ => None
      end
  | Done _ => None
  end.

(** The timeout of the wait: the receiver is dropped, the responder stays with the worker. *)
Definition call_timeout (c : Call) (m : Manager) : option (CallPc * Manager) :=
  match ca_pc c with
  | Waiting wl o =>
      Some (Done (Err "worker did not respond to availability request"),
            match am_oneshots m !! o with
            | Some OsPending => set_oneshots (<[o := OsReceiverGone]> (am_oneshots m)) m
            | _ => m
            end)
  | _ => None
  end.
End Tokens.

(** * Worker sessions *)

Inductive WorkerMessage :=
| WRegister (agent_name : string) (job_type ping_interval : Z)
| WAvailability (res : AvailabilityResponse)
| WUpdateWorker (status : option Z) (load job_count : Z)
| WUpdateJob (job_id : string) (status : Z)
| WPing (timestamp : Z)
| WSimulateJob | WMigrateJob.

(** The locals of [run_worker_session]. *)
Record WorkerSession := mkWSession { ws_worker_id : string; ws_conn : loc; ws_api_key : string; ws_worker : option loc }.

(** [wl] is the location a new [Worker] gets; [millis] the clock. *)
Definition on_worker_message (info : ServerInfo) (millis : Z) (wl : loc) (msg : WorkerMessage) (s : WorkerSession) (m : Manager) :
    WorkerSession * Manager :=
  match msg with
  | WRegister agent_name job_type ping_interval =>
      let w := mkWorker (ws_worker_id s) (ws_api_key s) agent_name job_type 0 0 0 (if ping_interval =? 0 then 10 else ping_interval)
                 true (Some (ws_conn s)) None in
      (mkWSession (ws_worker_id s) (ws_conn s) (ws_api_key s) (Some wl),
       try_send (ws_conn s) (MRegister (ws_worker_id s) info) (register_worker wl w m))
  | WAvailability res => (s, match ws_worker s with Some l => fulfill_availability l res m | None => m end)
  | WUpdateWorker status load count =>
      (s, match ws_worker s with
          | Some l => set_heap (alter (fun w =>
              match status with
              | Some st => set_wk_status (st =? WS_AVAILABLE) (wrap_u 32 st) load count w
              | None => set_wk_status (wk_is_available w) (wk_status w) load count w
              end) l (am_heap m)) m
          | None => m
          end)
  | WPing ts => (s, match ws_worker s with Some l => worker_send l (MPong ts millis) m | None => m end)
  | WUpdateJob _ _ | WSimulateJob | WMigrateJob => (s, m)
  end.

(** After the reader loop. *)
Definition worker_session_end (s : WorkerSession) (m : Manager) : Manager :=
  match ws_worker s with Some l => match am_heap m !! l with Some w => unregister_worker (wk_id w) m | None => m end | None => m end.

(** * Agent tokens are good *)

Lemma foldl_insert {A} (l : list (string * A)) : forall m : gmap string A,
  foldl (fun acc kv => <[kv.1 := kv.2]> acc) m l = list_to_map (rev l) ∪ m.
Proof.
  induction l as [|[k v] l IH]; intros m; cbn [foldl rev]; [symmetry; apply (left_id_L ∅ (∪))|].
  rewrite IH, list_to_map_app. cbn [list_to_map foldr uncurry fst snd]. rewrite <- (assoc_L (∪)). f_equal.
  transitivity (<[k:=v]> (∅ ∪ m)); [by rewrite (left_id_L ∅ (∪))|]. apply insert_union_l.
Qed.

(** Attributes survive their JSON form. *)
Lemma attributes_roundtrip (attrs : gmap string string) rest :
  get_string_map (VObj (("attributes", VObj (prod_map id VStr <$> map_to_list attrs)) :: rest)) = attrs.
Proof.
  unfold get_string_map. cbn [vget assoc String.eqb Ascii.eqb Bool.eqb or_else mbind option_bind as_object].
  assert (forall l m, foldl (fun acc kv => match as_str kv.2 with Some s => <[kv.1 := s]> acc | None => acc end) m (prod_map id VStr <$> l) =
    foldl (fun acc kv => <[kv.1 := kv.2]> acc) m l) as -> by (intros l; induction l as [|[k v] l IH]; intros m; cbn; [done|apply IH]).
  rewrite foldl_insert, (right_id_L ∅ (∪)). rewrite <- (list_to_map_to_list (M := gmap string) attrs) at 2.
  apply list_to_map_proper; [|by rewrite <- Permutation_rev].
  rewrite <- (Permutation_rev (map_to_list attrs)). apply NoDup_fst_map_to_list.
Qed.

Section AgentTokens.
Context (b64_decode : string -> Result string (list Z)) (json_from_slice : list Z -> Result string Value).
Context (jwt_decode : string -> string -> Validation -> Result string Value) (jwt_encode : string -> Value -> Result string string).
Context (hs256_ok : string -> string -> bool) (claims_valid : Validation -> Value -> bool).
(** The time of the verification, in seconds. *)
Variable at_time : Z.
(** The documented contract of the JWT library: decoding checks signature and claims and returns
    the payload; encoding signs the claims it is given; claims are valid for their issuer between
    not-before and expiry, with the leeway. *)
Hypothesis jwt_spec : forall token secret v claims,
  jwt_decode token secret v = Ok claims <->
  hs256_ok token secret = true /\ decode_payload_unverified b64_decode json_from_slice token = Ok claims /\
  claims_valid v claims = true.
Hypothesis encode_spec : forall secret claims token, jwt_encode secret claims = Ok token ->
  hs256_ok token secret = true /\ decode_payload_unverified b64_decode json_from_slice token = Ok claims.
Hypothesis valid_spec : forall v claims exp nbf,
  vget "iss" claims = Some (VStr (v_issuer v)) -> vget "exp" claims = Some (VInt exp) -> vget "nbf" claims = Some (VInt nbf) ->
  at_time < exp + v_leeway v -> nbf <= at_time + v_leeway v -> claims_valid v claims = true.

(** An agent's token admits it to its room, and to nothing else.  The token an assignment
    carries verifies under the worker's API key for an hour; it reads back as an agent with the
    identity, name, metadata and attributes of the answer; it may join exactly the job's room,
    publish, subscribe and send data there, and carries no administrative grant. *)
Theorem agent_token_grants keys key secret room identity name metadata attrs now token :
  build_agent_token jwt_encode key secret room identity name metadata attrs now = Ok token ->
  keys !! key = Some secret -> now - 65 <= at_time < now + 3600 -> room <> "" -> identity <> "" ->
  exists t, verify b64_decode json_from_slice jwt_decode keys token = Ok t /\
    api_key t = key /\ tk_identity t = identity /\ tk_name t = name /\ tk_metadata t = metadata /\ tk_attributes t = attrs /\
    participant_kind_from_token t = Agent /\ (forall params, check_join t params = Ok room) /\
    token_can_publish t = true /\ token_can_subscribe t = true /\ token_can_publish_data t = true /\
    room_join (video t) = true /\ vg_room (video t) = room /\ vg_agent (video t) = true /\
    room_admin (video t) = false /\ room_create (video t) = false /\ room_list (video t) = false /\
    room_record (video t) = false /\ vg_hidden (video t) = false /\ sip_admin (sip t) = false.
Proof.
  intros Hb%map_err_ok Hk Ht Hr Hi. destruct (encode_spec _ _ _ Hb) as [Hsig Hpay].
  set (claims := agent_claims key room identity name metadata attrs now) in *.
  exists (parse_claims key claims). split.
  - assert (jwt_decode token secret (validation_for key) = Ok claims) as Hj.
    { apply jwt_spec. split_and!; [done|done|]. eapply valid_spec; try reflexivity; cbn; lia. }
    unfold verify. rewrite Hpay. cbn. unfold get_secret. rewrite Hk. cbn. by rewrite Hj.
  - split_and!; try reflexivity.
    + transitivity (get_string_map (VObj [("attributes", VObj (prod_map id VStr <$> map_to_list attrs))]));
        [reflexivity|apply attributes_roundtrip].
    + intros params. unfold check_join.
      change (tk_identity (parse_claims key claims)) with identity. change (vg_room (video (parse_claims key claims))) with room.
      apply String.eqb_neq in Hr as ->, Hi as ->. cbn. by rewrite andb_false_r.
Qed.
End AgentTokens.

(** Concrete collaborators: one signed token, that of [claims]. *)
Module TokenDemo.
Definition claims : Value := agent_claims "key" "room1" "agent-123" "helper" "{}" {["lang" := "en"]} 1000.
Definition b64 (s : string) : Result string (list Z) := Ok [].
Definition json (l : list Z) : Result string Value := Ok claims.
Definition hs256 (token secret : string) : bool := match split_on "." token with [_; _; sig] => (sig =? secret)%string | _ => false end.
Definition valid (v : Validation) (c : Value) : bool := (v_issuer v =? get_str c ["iss"])%string.
Definition decode (token secret : string) (v : Validation) : Result string Value :=
  match decode_payload_unverified b64 json token with
  | Ok c => if hs256 token secret && valid v c then Ok c else Err "invalid"
  | Err _ => Err "malformed"
  end.
Definition encode (secret : string) (c : Value) : Result string string :=
  if value_eqb c claims && (secret =? "secret")%string then Ok "h.p.secret" else Err "unknown claims".

Lemma decode_spec token secret v c : decode token secret v = Ok c <->
  hs256 token secret = true /\ decode_payload_unverified b64 json token = Ok c /\ valid v c = true.
Proof.
  unfold decode. destruct (decode_payload_unverified b64 json token) as [c'|e].
  - destruct (hs256 token secret) eqn:E1; cbn [andb]; [|by split; [|intros [? ?]]].
    destruct (valid v c') eqn:E2; split; [intros [= <-]; done|by intros (_ & [= ->] & _)|done|intros (_ & [= ->] & ?); congruence].
  - split; [done|by intros (_ & ? & _)].
Qed.
Lemma encode_spec secret c token : encode secret c = Ok token ->
  hs256 token secret = true /\ decode_payload_unverified b64 json token = Ok c.
Proof.
  unfold encode. destruct (value_eqb c claims) eqn:E1; [|done]. apply value_eqb_eq in E1 as ->.
  destruct (String.eqb_spec secret "secret") as [->|]; [|done]. by intros [= <-].
Qed.
Lemma valid_spec v c : vget "iss" c = Some (VStr (v_issuer v)) -> valid v c = true.
Proof. intros H. unfold valid. cbn [get_str]. rewrite H. cbn. apply String.eqb_refl. Qed.
End TokenDemo.

Lemma agent_token_grants_witness : exists t,
  verify TokenDemo.b64 TokenDemo.json TokenDemo.decode {["key" := "secret"]} "h.p.secret" = Ok t /\
  tk_identity t = "agent-123" /\ vg_room (video t) = "room1".
Proof.
  destruct (agent_token_grants TokenDemo.b64 TokenDemo.json TokenDemo.decode TokenDemo.encode TokenDemo.hs256 TokenDemo.valid 2000
    TokenDemo.decode_spec TokenDemo.encode_spec (fun v c exp nbf H _ _ _ _ => TokenDemo.valid_spec v c H)
    {["key" := "secret"]} "key" "secret" "room1" "agent-123" "helper" "{}" {["lang" := "en"]} 1000 "h.p.secret")
    as (t & Hv & _ & Hi & _ & _ & _ & _ & _ & _ & _ & _ & _ & Hr & _).
  - vm_compute. reflexivity.
  - reflexivity.
  - lia.
  - discriminate.
  - discriminate.
  - exists t. split; [exact Hv|]. split; [exact Hi|exact Hr].
Defined.
