(* ===== verification/AgentSession.v ===== *)
(** The session of an agent worker, [run_worker_session] of [crates/lk-server/src/agent.rs]: the
    loop that reads its frames under a deadline, and the task that writes to it, with the channel
    between them.  What a message does is [on_worker_message] of [Agent]. *)
From Stdlib Require Import ZArith Lia Ascii String.
From stdpp Require Import base gmap strings list option relations.
From S2P Require Import Prelude RustStr Core Auth Proto Participant Room Agent.

Open Scope string_scope.
Open Scope list_scope.
Open Scope Z_scope.

(** * The reader *)

(** A frame: [None] does not decode, [Some None] has no message. *)
Inductive WorkerFrame := WfBinary (msg : option (option WorkerMessage)) | WfText (msg : option (option WorkerMessage)) | WfClose | WfOther.

(** What a read ends with, and after how many milliseconds; the clock and the location for a worker
    that registers. *)
Inductive ReadEvent := RdFrame (f : WorkerFrame) | RdError | RdEnd.
Record ReadTurn := mkTurn { rt_gap : Z; rt_event : ReadEvent; rt_millis : Z; rt_loc : loc }.

Definition READ_TIMEOUT_MS : Z := 30000.

(** What the loop makes of a read: the end of the loop, or the wire format for the writer and the
    message to handle. *)
Definition read_turn (t : ReadTurn) (json : bool) : option (bool * option WorkerMessage) :=
  if READ_TIMEOUT_MS <=? rt_gap t then None
  else match rt_event t with
       | RdFrame (WfBinary msg) => Some (false, mjoin msg)
       | RdFrame (WfText msg) => Some (true, mjoin msg)
       | RdFrame WfOther => Some (json, None)
       | RdFrame WfClose | RdError | RdEnd => None
       end.

(** The loop: the format, the session and the manager when it ends; [None] while it is reading. *)
Fixpoint worker_loop (info : ServerInfo) (turns : list ReadTurn) (json : bool) (s : WorkerSession) (m : Manager) :
    option (bool * WorkerSession * Manager) :=
  match turns with
  | [] => None
  | t :: turns =>
      match read_turn t json with
      | None => Some (json, s, m)
      | Some (json, None) => worker_loop info turns json s m
      | Some (json, Some msg) => let '(s, m) := on_worker_message info (rt_millis t) (rt_loc t) msg s m in worker_loop info turns json s m
      end
  end.

(** The session up to the wait for the writer. *)
Definition run_worker_session (info : ServerInfo) (turns : list ReadTurn) (worker_id : string) (conn : loc) (api_key : string) (m : Manager) :
    option Manager :=
  '(_, s, m) ← worker_loop info turns false (mkWSession worker_id conn api_key None) m; Some (worker_session_end s m).

(** ** What it handles *)

(** The messages of the turns before the first that ends the loop. *)
Fixpoint handled (turns : list ReadTurn) (json : bool) : list (ReadTurn * WorkerMessage) :=
  match turns with
  | [] => []
  | t :: turns =>
      match read_turn t json with
      | None => []
      | Some (json, None) => handled turns json
      | Some (json, Some msg) => (t, msg) :: handled turns json
      end
  end.
Definition apply_messages (info : ServerInfo) (l : list (ReadTurn * WorkerMessage)) (sm : WorkerSession * Manager) : WorkerSession * Manager :=
  foldl (fun '(s, m) '(t, msg) => on_worker_message info (rt_millis t) (rt_loc t) msg s m) sm l.

Lemma worker_loop_handled info turns : forall json s m json' s' m', worker_loop info turns json s m = Some (json', s', m') ->
  (s', m') = apply_messages info (handled turns json) (s, m).
Proof.
  induction turns as [|t turns IH]; intros json s m json' s' m' H; [done|]. cbn [worker_loop handled] in *.
  destruct (read_turn t json) as [[j [msg|]]|]; [|by eapply IH|by injection H as <- <- <-].
  unfold apply_messages. cbn [foldl]. destruct (on_worker_message _ _ _ _ _ _) as [s1 m1]. by apply IH in H.
Qed.

(** A message names the session's own id, whatever is registered. *)
Lemma on_worker_message_session info millis wl msg s m :
  let s' := (on_worker_message info millis wl msg s m).1 in
  ws_worker_id s' = ws_worker_id s /\ ws_conn s' = ws_conn s /\ ws_api_key s' = ws_api_key s.
Proof. by destruct msg. Qed.

(** The worker the session has in its hands is registered under the session's id. *)
Definition session_ok (s : WorkerSession) (m : Manager) : Prop :=
  match ws_worker s with None => True | Some l => exists w, am_heap m !! l = Some w /\ wk_id w = ws_worker_id s end.

Lemma try_send_heap c msg m : am_heap (try_send c msg m) = am_heap m.
Proof. unfold try_send. by repeat case_match. Qed.
Lemma fulfill_heap_id l res m l' w : am_heap m !! l' = Some w -> exists w', am_heap (fulfill_availability l res m) !! l' = Some w' /\ wk_id w' = wk_id w.
Proof.
  intros H. unfold fulfill_availability. destruct (am_heap m !! l ≫= wk_availability); [|eauto].
  assert (exists w', alter (set_wk_availability None) l (am_heap m) !! l' = Some w' /\ wk_id w' = wk_id w) as Hw.
  { destruct (decide (l = l')) as [->|]; [rewrite lookup_alter_eq, H; by eexists|rewrite lookup_alter_ne, H by done; by eexists]. }
  cbv zeta. by repeat case_match.
Qed.

Lemma on_worker_message_ok info millis wl msg s m : session_ok s m ->
  let '(s', m') := on_worker_message info millis wl msg s m in session_ok s' m'.
Proof.
  intros Hs. unfold session_ok in *. destruct msg as [name ty pi|res|status load count|jid st|ts| |]; cbn [on_worker_message];
    try (destruct (ws_worker s) as [l|] eqn:Ew; [|done]); try done.
  - cbn [ws_worker ws_worker_id]. rewrite try_send_heap. eexists. split; [apply lookup_insert_eq|done].
  - destruct Hs as (w & Hw & Hid). destruct (fulfill_heap_id l res m l w Hw) as (w' & Hw' & E). exists w'. by rewrite E.
  - destruct Hs as (w & Hw & Hid). cbn. rewrite lookup_alter_eq, Hw. eexists. split; [done|]. by destruct status.
  - destruct Hs as (w & Hw & Hid). exists w. unfold worker_send. case_match; [|done]. by rewrite try_send_heap.
Qed.

Lemma apply_messages_ok info l : forall s m, session_ok s m ->
  let '(s', m') := apply_messages info l (s, m) in session_ok s' m' /\ ws_worker_id s' = ws_worker_id s.
Proof.
  induction l as [|[t msg] l IH]; intros s m Hs; [done|]. unfold apply_messages. cbn [foldl].
  pose proof (on_worker_message_ok info (rt_millis t) (rt_loc t) msg s m Hs) as H1.
  pose proof (on_worker_message_session info (rt_millis t) (rt_loc t) msg s m) as H2.
  destruct (on_worker_message _ _ _ _ _ _) as [s1 m1]. destruct H2 as (H2 & _). specialize (IH s1 m1 H1).
  unfold apply_messages in IH. destruct (foldl _ _ _) as [s' m']. destruct IH as [I1 I2]. split; [done|]. cbn in H2. congruence.
Qed.

(** The session of a worker.  What it does to the manager is what its readable messages do, one
    after another up to the first close, error, end or silence; frames that do not decode and
    control frames are skipped; and when it is over and the worker had registered, no agent name
    leads to a worker of its id any more. *)
Theorem worker_session_spec info turns worker_id conn api_key m m' :
  run_worker_session info turns worker_id conn api_key m = Some m' ->
  exists s1 m1, (s1, m1) = apply_messages info (handled turns false) (mkWSession worker_id conn api_key None, m) /\
    m' = worker_session_end s1 m1 /\
    (ws_worker s1 <> None -> forall name wl, wl ∈ workers_for name m' -> ~ has_worker_id m1 worker_id wl).
Proof.
  unfold run_worker_session. destruct (worker_loop _ _ _ _ _) as [[[json s1] m1]|] eqn:E; [|done]. intros [= <-].
  pose proof (worker_loop_handled _ _ _ _ _ _ _ _ E) as Ha. exists s1, m1. split_and!; [done|done|]. intros Hw name wl Hin.
  pose proof (apply_messages_ok info (handled turns false) (mkWSession worker_id conn api_key None) m I) as Hok. rewrite <- Ha in Hok.
  destruct Hok as [Hok Hid]. unfold worker_session_end in Hin. unfold session_ok in Hok. destruct (ws_worker s1) as [l|]; [|done].
  destruct Hok as (w & Hl & Hwid). rewrite Hl in Hin. rewrite Hwid, Hid in Hin. cbn in Hin. unfold workers_for, unregister_worker in Hin. cbn in Hin.
  destruct (filter _ _ !! name) as [ws|] eqn:El in Hin; [|by apply elem_of_nil in Hin].
  apply map_lookup_filter_Some in El as [El _]. rewrite lookup_fmap in El. destruct (am_workers m1 !! name) as [ws0|]; [|done].
  injection El as <-. cbn in Hin. by apply list_elem_of_filter in Hin as [? _].
Qed.

(** The deadline is a constant: a worker that registers with a ping interval of more than 30 seconds
    and keeps to it is taken for gone before its first ping, and unregistered. *)
Theorem slow_worker_dropped info reg ping rest name ty interval worker_id conn api_key json m :
  30 < interval -> rt_gap reg < READ_TIMEOUT_MS ->
  rt_event reg = RdFrame (if json : bool then WfText (Some (Some (WRegister name ty interval))) else WfBinary (Some (Some (WRegister name ty interval)))) ->
  rt_gap ping = interval * 1000 ->
  exists m', run_worker_session info (reg :: ping :: rest) worker_id conn api_key m = Some m' /\ rt_loc reg ∉ workers_for name m'.
Proof.
  intros Hi Hg He Hp. set (s0 := mkWSession worker_id conn api_key None).
  assert (exists j s1 m1, worker_loop info (reg :: ping :: rest) false s0 m = Some (j, s1, m1) /\
    (s1, m1) = on_worker_message info (rt_millis reg) (rt_loc reg) (WRegister name ty interval) s0 m) as (j & s1 & m1 & El & Em).
  { cbn [worker_loop]. assert (read_turn reg false = Some (json, Some (WRegister name ty interval))) as ->.
    { unfold read_turn. rewrite He. unfold READ_TIMEOUT_MS in *. destruct (Z.leb_spec 30000 (rt_gap reg)); [lia|]. by destruct json. }
    destruct (on_worker_message _ _ _ _ s0 m) as [s1 m1] eqn:E. assert (forall b, read_turn ping b = None) as Hpn.
    { intros b. unfold read_turn. rewrite Hp. unfold READ_TIMEOUT_MS. destruct (Z.leb_spec 30000 (interval * 1000)); [done|lia]. }
    rewrite Hpn. by exists json, s1, m1. }
  eexists. unfold run_worker_session. fold s0. rewrite El. cbn [mbind option_bind]. split; [reflexivity|].
  injection Em as -> ->. cbn [worker_session_end ws_worker]. rewrite try_send_heap. cbn [register_worker set_heap set_workers am_heap].
  rewrite lookup_insert_eq. cbn [wk_id ws_worker_id]. unfold workers_for, unregister_worker. cbn [set_workers am_workers].
  intros Hin. destruct (filter _ _ !! name) as [ws|] eqn:Ef in Hin; [|by apply elem_of_nil in Hin].
  apply map_lookup_filter_Some in Ef as [Ef _]. rewrite lookup_fmap in Ef. destruct (am_workers _ !! name) as [ws0|]; [|done].
  injection Ef as <-. cbn in Hin. apply list_elem_of_filter in Hin as [Hn _]. apply Hn. unfold has_worker_id.
  rewrite try_send_heap. cbn [register_worker set_heap set_workers am_heap]. by rewrite lookup_insert_eq.
Qed.

(** * The writer *)

(** The channel to the writer: what is queued, how many others than the session hold a sender (the
    registered worker), whether the session's own sender is there, and which of the reader, the
    writer and the session are over. *)
Record Writing := mkWriting {
  wr_queue : list ServerMessage; wr_others : nat; wr_own : bool; wr_reader_over : bool; wr_writer_over : bool; wr_over : bool
}.
Definition writing_start : Writing := mkWriting [] 0 true false false false.

(** One step; [ok] says whether writes to the socket succeed.  The session waits for the writer with
    its sender still in scope. *)
Inductive writing_step (ok : bool) : Writing -> Writing -> Prop :=
| ws_clone q n o w : writing_step ok (mkWriting q n true false w o) (mkWriting q (S n) true false w o)
| ws_drop q n own r w o : writing_step ok (mkWriting q (S n) own r w o) (mkWriting q n own r w o)
| ws_send q n own r w o msg : (0 < n)%nat \/ (own = true /\ r = false) -> writing_step ok (mkWriting q n own r w o) (mkWriting (q ++ [msg]) n own r w o)
| ws_reader q n own w o : writing_step ok (mkWriting q n own false w o) (mkWriting q n own true w o)
| ws_write msg q n own r o : ok = true -> writing_step ok (mkWriting (msg :: q) n own r false o) (mkWriting q n own r false o)
| ws_fail msg q n own r o : ok = false -> writing_step ok (mkWriting (msg :: q) n own r false o) (mkWriting q n own r true o)
| ws_closed r o : writing_step ok (mkWriting [] 0 false r false o) (mkWriting [] 0 false r true o)
| ws_return q n own : writing_step ok (mkWriting q n own true true false) (mkWriting q n false true true true).

(** After a disconnection that no write notices, the session never ends: the writer waits for the
    channel to close, and the session, which holds a sender, for the writer. *)
Theorem session_waits_for_itself s : reach (writing_step true) writing_start s -> wr_over s = false /\ wr_writer_over s = false.
Proof.
  intros H. enough (wr_own s = true /\ wr_writer_over s = false /\ wr_over s = false) as (_ & ? & ?) by done. revert s H.
  apply reach_invariant; [done|]. intros s s' (H1 & H2 & H3) Hs. destruct Hs; cbn in *; naive_solver.
Qed.

(** A write that fails ends it. *)
Example failed_write_ends_session (msg : ServerMessage) : reach (writing_step false) writing_start (mkWriting [] 0 false true true true).
Proof.
  eapply reach_step; [eapply reach_step; [eapply reach_step; [eapply reach_step; [apply reach_init|]|]|]|].
  - apply (ws_send false [] 0 true false false false msg). by right.
  - apply (ws_reader false [msg] 0 true false false).
  - by apply (ws_fail false msg []).
  - apply ws_return.
Qed.
