(* ===== verification/AgentProto.v ===== *)
(** The availability protocol of [crates/lk-server/src/agent.rs] under interleaving: any number
    of launches, workers that answer, decline or stay silent, timeouts, registrations and
    disconnections, as a transition system over the manager of [Agent]. *)
From Stdlib Require Import ZArith Lia Ascii String.
From stdpp Require Import base gmap strings list option.
From S2P Require Import Prelude RustStr Core Auth Proto Participant Agent.

Open Scope string_scope.
Open Scope list_scope.
Open Scope Z_scope.

(** * The system *)

(** What happened between the server and the workers. *)
Inductive AgentEvent :=
| Requested (job : Job) (wl : loc) | Answered (wl : loc) (res : AvailabilityResponse) | Assigned (job : Job) (wl : loc).

Record AgentSys := mkSys { sy_mgr : Manager; sy_calls : list Call; sy_log : list AgentEvent }.

Definition call_event (c : Call) (pc : CallPc) : list AgentEvent :=
  match ca_pc c, pc with
  | Picked wl, Waiting _ _ => [Requested (ca_job c) wl]
  | Waiting wl _, Done (Ok _) => [Assigned (ca_job c) wl]
  | _, _ => []
  end.
Definition message_event (s : WorkerSession) (msg : WorkerMessage) : list AgentEvent :=
  match msg, ws_worker s with WAvailability res, Some wl => [Answered wl res] | _, _ => [] end.

(** The writer task of a session takes what is queued, and may end. *)
Definition drain_worker (c : loc) (keep : bool) (m : Manager) : Manager :=
  set_wchans (<[c := mkWChan [] keep]> (am_chans m)) m.

Section Steps.
Context (jwt_encode : string -> Value -> Result string string).

Inductive agent_step : AgentSys -> AgentSys -> Prop :=
| as_launch id now l idx m cs log :
    agent_step (mkSys m cs log) (mkSys m (cs ++ [mkCall (room_job id now l) (Picking idx)]) log)
| as_call now o m cs1 c cs2 log pc m' :
    am_oneshots m !! o = None -> call_step jwt_encode now o c m = Some (pc, m') ->
    agent_step (mkSys m (cs1 ++ c :: cs2) log) (mkSys m' (cs1 ++ mkCall (ca_job c) pc :: cs2) (log ++ call_event c pc))
| as_timeout m cs1 c cs2 log pc m' :
    call_timeout c m = Some (pc, m') ->
    agent_step (mkSys m (cs1 ++ c :: cs2) log) (mkSys m' (cs1 ++ mkCall (ca_job c) pc :: cs2) log)
| as_message info millis wl msg s m cs log :
    am_heap m !! wl = None ->
    agent_step (mkSys m cs log) (mkSys (on_worker_message info millis wl msg s m).2 cs (log ++ message_event s msg))
| as_session_end s m cs log : agent_step (mkSys m cs log) (mkSys (worker_session_end s m) cs log)
| as_drain c keep m cs log : agent_step (mkSys m cs log) (mkSys (drain_worker c keep m) cs log)
| as_create id now name room md dep attrs m cs log :
    agent_step (mkSys m cs log) (mkSys (create_dispatch id now name room md dep attrs m).2 cs log)
| as_delete id now m cs log : agent_step (mkSys m cs log) (mkSys (delete_dispatch id now m).2 cs log)
| as_terminate room m cs log : agent_step (mkSys m cs log) (mkSys (terminate_room_jobs room m) cs log).
End Steps.

Definition agent_init (keys : gmap string string) : AgentSys := mkSys (AgentManager_new keys) [] [].

(** * Logs *)

Definition requested (job : Job) (wl : loc) (log : list AgentEvent) : Prop := exists l1 l2, log = l1 ++ Requested job wl :: l2.
Definition answered (job : Job) (wl : loc) (res : AvailabilityResponse) (log : list AgentEvent) : Prop :=
  exists l1 l2 l3, log = l1 ++ Requested job wl :: l2 ++ Answered wl res :: l3.
(** Every assignment comes after a request for that job to that worker and an acceptance by it. *)
Definition assigned_ok (log : list AgentEvent) : Prop :=
  forall l1 job wl l2, log = l1 ++ Assigned job wl :: l2 -> exists res, answered job wl res l1 /\ av_available res = true.
Definition assigned_id (e : AgentEvent) : option string := match e with Assigned job _ => Some (jo_id job) | _ => None end.
Definition assigned_ids (log : list AgentEvent) : list string := omap assigned_id log.

Lemma requested_app job wl log evs : requested job wl log -> requested job wl (log ++ evs).
Proof. intros (l1 & l2 & ->). exists l1, (l2 ++ evs). by rewrite <- app_assoc. Qed.
Lemma answered_app job wl res log evs : answered job wl res log -> answered job wl res (log ++ evs).
Proof. intros (l1 & l2 & l3 & ->). exists l1, l2, (l3 ++ evs). by rewrite <- !app_assoc, <- app_comm_cons, <- app_assoc. Qed.
Lemma requested_answered job wl res log : requested job wl log -> answered job wl res (log ++ [Answered wl res]).
Proof. intros (l1 & l2 & ->). exists l1, l2, []. by rewrite <- app_assoc. Qed.

Lemma assigned_ok_snoc log e : assigned_ok log ->
  (forall job wl, e = Assigned job wl -> exists res, answered job wl res log /\ av_available res = true) -> assigned_ok (log ++ [e]).
Proof.
  intros Hok He l1 job wl l2 E. destruct l2 as [|x l2 _] using rev_ind.
  - apply app_inj_tail in E as [<- ->]. by apply He.
  - rewrite app_comm_cons, app_assoc in E. apply app_inj_tail in E as [-> _]. by eapply Hok.
Qed.
Lemma assigned_ok_app log evs : assigned_ok log -> Forall (fun e => assigned_id e = None) evs -> assigned_ok (log ++ evs).
Proof.
  intros Hok He. induction evs as [|e evs IH] using rev_ind; [by rewrite app_nil_r|].
  apply Forall_app in He as [He1 He2]. apply list.Forall_cons in He2 as [He2 _]. rewrite app_assoc. apply assigned_ok_snoc; [by apply IH|].
  intros job wl Ee. subst e. discriminate He2.
Qed.
Lemma assigned_ids_app log evs : Forall (fun e => assigned_id e = None) evs -> assigned_ids (log ++ evs) = assigned_ids log.
Proof.
  intros He. unfold assigned_ids. rewrite omap_app. replace (omap assigned_id evs) with (@nil string); [by rewrite app_nil_r|].
  symmetry. induction He as [|e evs E _ IH]; [reflexivity|]. cbn [omap list_omap]. by rewrite E.
Qed.

(** * Invariant *)

Definition avail (m : Manager) (wl : loc) : option nat := am_heap m !! wl ≫= wk_availability.
Definition waits (c : Call) (wl : loc) (o : nat) : Prop := ca_pc c = Waiting wl o.
Definition done_id (c : Call) : option string := match ca_pc c with Done (Ok _) => Some (jo_id (ca_job c)) | _ => None end.

Record sys_ok (s : AgentSys) : Prop := {
  so_owner : forall wl wl' o c, avail (sy_mgr s) wl' = Some o -> c ∈ sy_calls s -> waits c wl o -> wl = wl';
  so_alloc : forall wl o, avail (sy_mgr s) wl = Some o -> is_Some (am_oneshots (sy_mgr s) !! o);
  so_alloc_call : forall c wl o, c ∈ sy_calls s -> waits c wl o -> is_Some (am_oneshots (sy_mgr s) !! o);
  so_requested : forall c wl o, c ∈ sy_calls s -> waits c wl o -> requested (ca_job c) wl (sy_log s);
  so_answered : forall c wl o res, c ∈ sy_calls s -> waits c wl o -> am_oneshots (sy_mgr s) !! o = Some (OsSent res) ->
    answered (ca_job c) wl res (sy_log s);
  so_assigned : assigned_ok (sy_log s);
  so_count : assigned_ids (sy_log s) ≡ₚ omap done_id (sy_calls s);
}.

(** Managers with the same responders. *)
Definition same_resp (m m' : Manager) : Prop := (forall wl, avail m' wl = avail m wl) /\ am_oneshots m' = am_oneshots m.

Lemma sys_ok_resp m m' cs log evs : same_resp m m' -> Forall (fun e => assigned_id e = None) evs ->
  sys_ok (mkSys m cs log) -> sys_ok (mkSys m' cs (log ++ evs)).
Proof.
  intros [Ha Ho] He [H1 H2 H3 H4 H5 H6 H7]. cbn in *. split; cbn.
  - intros wl wl' o c. rewrite Ha. by apply H1.
  - intros wl o. rewrite Ha, Ho. apply H2.
  - intros c wl o. rewrite Ho. apply H3.
  - intros c wl o Hc Hw. apply requested_app. by eapply H4.
  - intros c wl o res. rewrite Ho. intros Hc Hw Hs. apply answered_app. by eapply H5.
  - by apply assigned_ok_app.
  - by rewrite assigned_ids_app.
Qed.
Lemma sys_ok_resp0 m m' cs log : same_resp m m' -> sys_ok (mkSys m cs log) -> sys_ok (mkSys m' cs log).
Proof. intros Hs Hok. rewrite <- (app_nil_r log). by apply (sys_ok_resp m). Qed.

Lemma try_send_resp c msg m : same_resp m (try_send c msg m).
Proof. unfold try_send. repeat case_match; done. Qed.
Lemma worker_send_resp wl msg m : same_resp m (worker_send wl msg m).
Proof. unfold worker_send. case_match; [apply try_send_resp|done]. Qed.
Lemma same_resp_trans a b c : same_resp a b -> same_resp b c -> same_resp a c.
Proof. intros [A1 A2] [B1 B2]. split; [intros; by rewrite B1, A1|congruence]. Qed.
Lemma track_job_resp job m : same_resp m (track_job job m).
Proof. unfold track_job. case_match; done. Qed.
Lemma foldl_resp {A} (f : Manager -> A -> Manager) l : (forall m x, same_resp m (f m x)) -> forall m, same_resp m (foldl f m l).
Proof. intros Hf. induction l as [|x l IH]; intros m; cbn [foldl]; [done|]. eapply same_resp_trans; [apply Hf|apply IH]. Qed.

(** A channel changes without an answer. *)
Lemma sys_ok_oneshot m cs log o v : (forall res, v <> OsSent res) -> sys_ok (mkSys m cs log) ->
  sys_ok (mkSys (set_oneshots (<[o := v]> (am_oneshots m)) m) cs log).
Proof.
  intros Hv [H1 H2 H3 H4 H5 H6 H7]. cbn in *.
  assert (forall o', is_Some (am_oneshots m !! o') -> is_Some (<[o := v]> (am_oneshots m) !! o')) as Hi.
  { intros o' [x Hx]. destruct (decide (o = o')) as [<-|Hne]; [rewrite lookup_insert_eq|rewrite lookup_insert_ne by done]; by eexists. }
  split; cbn; try done.
  - intros wl o' Ha. apply Hi. by eapply H2.
  - intros c wl o' Hc Hw. apply Hi. by eapply H3.
  - intros c wl o' res Hc Hw [[_ ?]|[_ Hs]]%lookup_insert_Some; [by destruct (Hv res)|by eapply H5].
Qed.

Lemma elem_of_replaced {A} (cs1 cs2 : list A) c c' x : x ∈ cs1 ++ c' :: cs2 -> x = c' \/ x ∈ cs1 ++ c :: cs2.
Proof. rewrite !elem_of_app, !elem_of_cons. tauto. Qed.

(** A call moves on without waiting. *)
Lemma sys_ok_pc m cs1 c cs2 log pc : (forall wl o, pc <> Waiting wl o) -> done_id (mkCall (ca_job c) pc) = done_id c ->
  sys_ok (mkSys m (cs1 ++ c :: cs2) log) -> sys_ok (mkSys m (cs1 ++ mkCall (ca_job c) pc :: cs2) log).
Proof.
  intros Hpc Hd [H1 H2 H3 H4 H5 H6 H7]. cbn in *.
  assert (forall x wl o, x ∈ cs1 ++ mkCall (ca_job c) pc :: cs2 -> waits x wl o -> x ∈ cs1 ++ c :: cs2) as Hin.
  { intros x wl o [->|Hx]%(elem_of_replaced _ _ c) Hw; [by destruct (Hpc wl o)|done]. }
  split; cbn; eauto. rewrite H7, !omap_app. cbn [omap list_omap]. by rewrite Hd.
Qed.

(** The job is assigned. *)
Lemma sys_ok_assign m cs1 c cs2 log wl o res id : waits c wl o -> am_oneshots m !! o = Some (OsSent res) -> av_available res = true ->
  sys_ok (mkSys m (cs1 ++ c :: cs2) log) ->
  sys_ok (mkSys m (cs1 ++ mkCall (ca_job c) (Done (Ok id)) :: cs2) (log ++ [Assigned (ca_job c) wl])).
Proof.
  intros Hw Ho Ha [H1 H2 H3 H4 H5 H6 H7]. cbn in *.
  assert (forall x wl o, x ∈ cs1 ++ mkCall (ca_job c) (Done (Ok id)) :: cs2 -> waits x wl o -> x ∈ cs1 ++ c :: cs2) as Hin.
  { intros x wl' o' [->|Hx]%(elem_of_replaced _ _ c) Hx'; [done|done]. }
  assert (c ∈ cs1 ++ c :: cs2) as Hc by (rewrite elem_of_app, elem_of_cons; by right; left).
  split; cbn; eauto using requested_app, answered_app.
  - apply assigned_ok_snoc; [done|]. intros job wl' [= <- <-]. exists res. split; [by eapply H5|done].
  - unfold assigned_ids in *. rewrite omap_app, H7, !omap_app. cbn [omap list_omap assigned_id].
    assert (done_id c = None) as -> by (unfold done_id; by rewrite (Hw : ca_pc c = _)).
    change (done_id (mkCall (ca_job c) (Done (Ok id)))) with (Some (jo_id (ca_job c))). cbn [omap list_omap]. solve_Permutation.
Qed.

Lemma avail_alter m wl f wl' : avail (set_heap (alter f wl (am_heap m)) m) wl' =
  if decide (wl' = wl) then (am_heap m !! wl) ≫= (fun w => wk_availability (f w)) else avail m wl'.
Proof.
  unfold avail. cbn. case_decide as E; [subst wl'; rewrite lookup_alter_eq; by destruct (am_heap m !! wl)|by rewrite lookup_alter_ne].
Qed.

(** A request goes out. *)
Lemma sys_ok_request m cs1 c cs2 log wl o : ca_pc c = Picked wl -> am_oneshots m !! o = Some OsPending ->
  (forall wl', avail m wl' <> Some o) -> (forall x wl', x ∈ cs1 ++ c :: cs2 -> ~ waits x wl' o) ->
  sys_ok (mkSys m (cs1 ++ c :: cs2) log) ->
  sys_ok (mkSys (set_heap (alter (set_wk_availability (Some o)) wl (am_heap m)) m)
            (cs1 ++ mkCall (ca_job c) (Waiting wl o) :: cs2) (log ++ [Requested (ca_job c) wl])).
Proof.
  intros Hpc Ho Hna Hnw [H1 H2 H3 H4 H5 H6 H7]. cbn in *.
  assert (forall x wl' o', x ∈ cs1 ++ mkCall (ca_job c) (Waiting wl o) :: cs2 -> waits x wl' o' ->
    (x = mkCall (ca_job c) (Waiting wl o) /\ wl' = wl /\ o' = o) \/ x ∈ cs1 ++ c :: cs2) as Hin.
  { intros x wl' o' [->|Hx]%(elem_of_replaced _ _ c) Hx'; [by injection Hx' as -> ->; left|by right]. }
  assert (forall wl' o', avail (set_heap (alter (set_wk_availability (Some o)) wl (am_heap m)) m) wl' = Some o' ->
    (wl' = wl /\ o' = o) \/ avail m wl' = Some o') as Hav.
  { intros wl' o'. rewrite avail_alter. case_decide as E; [|by right]. destruct (am_heap m !! wl); [|done]. intros [= <-]. by left. }
  split; cbn.
  - intros wl1 wl2 o' x [[-> ->]|Ha]%Hav Hx Hw.
    + destruct (Hin _ _ _ Hx Hw) as [(_ & -> & _)|Hx']; [done|by destruct (Hnw _ _ Hx' Hw)].
    + destruct (Hin _ _ _ Hx Hw) as [(_ & -> & ->)|Hx']; [by destruct (Hna wl2)|by eapply H1].
  - intros wl' o' [[_ ->]|Ha]%Hav; [by eexists|by eapply H2].
  - intros x wl' o' Hx Hw. destruct (Hin _ _ _ Hx Hw) as [(_ & _ & ->)|Hx']; [by eexists|by eapply H3].
  - intros x wl' o' Hx Hw. destruct (Hin _ _ _ Hx Hw) as [(-> & -> & _)|Hx']; [by exists log, []|by eapply requested_app, H4].
  - intros x wl' o' res Hx Hw Hs. destruct (Hin _ _ _ Hx Hw) as [(_ & _ & ->)|Hx']; [by rewrite Ho in Hs|by eapply answered_app, H5].
  - by apply assigned_ok_app; [|repeat constructor].
  - rewrite assigned_ids_app by (repeat constructor). rewrite H7, !omap_app. cbn [omap list_omap].
    assert (done_id c = None) as -> by (unfold done_id; by rewrite Hpc). done.
Qed.

(** An answer comes in. *)
Lemma sys_ok_fulfill m cs log wl res : sys_ok (mkSys m cs log) ->
  sys_ok (mkSys (fulfill_availability wl res m) cs (log ++ [Answered wl res])).
Proof.
  intros Hok. unfold fulfill_availability. fold (avail m wl). destruct (avail m wl) as [o|] eqn:Ea.
  2: { apply (sys_ok_resp m); [done|repeat constructor|done]. }
  set (m1 := set_heap (alter (set_wk_availability None) wl (am_heap m)) m).
  assert (forall wl' o', avail m1 wl' = Some o' -> avail m wl' = Some o') as Hav.
  { intros wl' o'. unfold m1. rewrite avail_alter. case_decide as E; [|done]. by destruct (am_heap m !! wl). }
  destruct Hok as [H1 H2 H3 H4 H5 H6 H7]. cbn in *.
  assert (sys_ok (mkSys m1 cs (log ++ [Answered wl res]))) as Hm1.
  { split; cbn; eauto using requested_app, answered_app.
    - by apply assigned_ok_app; [|repeat constructor].
    - by rewrite assigned_ids_app by (repeat constructor). }
  change (am_oneshots m1) with (am_oneshots m). destruct (am_oneshots m !! o) as [[| | |]|] eqn:Eo; try exact Hm1.
  destruct Hm1 as [J1 J2 J3 J4 J5 J6 J7]. cbn in *.
  assert (forall o', is_Some (am_oneshots m !! o') -> is_Some (<[o := OsSent res]> (am_oneshots m) !! o')) as Hi.
  { intros o' [x Hx]. destruct (decide (o = o')) as [<-|Hne]; [rewrite lookup_insert_eq|rewrite lookup_insert_ne by done]; by eexists. }
  split; cbn; eauto.
  intros c wl' o' res' Hc Hw [[-> [= <-]]|[_ Hs]]%lookup_insert_Some; [|by eapply J5].
  rewrite (H1 wl' wl o' c Ea Hc Hw). apply requested_answered. rewrite <- (H1 wl' wl o' c Ea Hc Hw). by eapply H4.
Qed.

Section Safety.
Context (jwt_encode : string -> Value -> Result string string).

Lemma drop_sender_ok m cs log o : sys_ok (mkSys m cs log) -> sys_ok (mkSys (drop_sender o m) cs log).
Proof. intros Hok. unfold drop_sender. repeat case_match; try done. by apply sys_ok_oneshot. Qed.
Lemma drop_sender_heap o m : am_heap (drop_sender o m) = am_heap m.
Proof. unfold drop_sender. repeat case_match; done. Qed.
Lemma drop_sender_other o o' m : o <> o' -> am_oneshots (drop_sender o m) !! o' = am_oneshots m !! o'.
Proof. intros Hne. unfold drop_sender. repeat case_match; try done. cbn. by rewrite lookup_insert_ne. Qed.

(** The request step: a fresh channel, the old responder dropped, the new one set. *)
Lemma request_ok m cs1 c cs2 log wl o : ca_pc c = Picked wl -> am_oneshots m !! o = None ->
  sys_ok (mkSys m (cs1 ++ c :: cs2) log) ->
  sys_ok (mkSys (set_availability_responder wl o (set_oneshots (<[o := OsPending]> (am_oneshots m)) m))
            (cs1 ++ mkCall (ca_job c) (Waiting wl o) :: cs2) (log ++ [Requested (ca_job c) wl])).
Proof.
  intros Hpc Hf Hok. unfold set_availability_responder. set (m1 := set_oneshots (<[o := OsPending]> (am_oneshots m)) m).
  assert (forall wl', avail m wl' <> Some o) as Hna.
  { intros wl' Ha. destruct (so_alloc _ Hok _ _ Ha) as [x Hx]. cbn in Hx. congruence. }
  assert (forall x wl', x ∈ cs1 ++ c :: cs2 -> ~ waits x wl' o) as Hnw.
  { intros x wl' Hx Hw. destruct (so_alloc_call _ Hok _ _ _ Hx Hw) as [y Hy]. cbn in Hy. congruence. }
  pose proof (sys_ok_oneshot m (cs1 ++ c :: cs2) log o OsPending ltac:(done) Hok) as Hok1. fold m1 in Hok1.
  fold (avail m1 wl). destruct (avail m1 wl) as [old|] eqn:Eold.
  - assert (old <> o) as Hne by (intros ->; by destruct (Hna wl)).
    apply sys_ok_request; try done; [..|by apply drop_sender_ok].
    + rewrite drop_sender_other by done. apply lookup_insert_eq.
    + intros wl'. unfold avail. rewrite drop_sender_heap. apply Hna.
  - apply sys_ok_request; try done. apply lookup_insert_eq.
Qed.

Lemma unregister_resp id m : same_resp m (unregister_worker id m).
Proof. done. Qed.
Lemma session_end_resp s m : same_resp m (worker_session_end s m).
Proof. unfold worker_session_end. repeat case_match; done. Qed.
Lemma terminate_resp room m : same_resp m (terminate_room_jobs room m).
Proof. apply foldl_resp. intros m' job. apply foldl_resp. intros. apply worker_send_resp. Qed.
Lemma register_resp wl w m : am_heap m !! wl = None -> wk_availability w = None -> same_resp m (register_worker wl w m).
Proof.
  intros Hf Hw. split; [|done]. intros wl'. unfold avail. cbn. destruct (decide (wl' = wl)) as [->|Hne].
  - by rewrite lookup_insert_eq, Hf.
  - by rewrite lookup_insert_ne.
Qed.
Lemma update_resp wl f m : (forall w, wk_availability (f w) = wk_availability w) -> same_resp m (set_heap (alter f wl (am_heap m)) m).
Proof.
  intros Hf. split; [|done]. intros wl'. rewrite avail_alter. case_decide as E; [subst|done]. unfold avail.
  destruct (am_heap m !! wl); [apply Hf|done].
Qed.

Lemma on_answer_available job worker keys now res msg : on_answer jwt_encode job worker keys now res = Ok msg -> av_available res = true.
Proof. unfold on_answer. by destruct (av_available res). Qed.

Lemma call_step_ok now o m cs1 c cs2 log pc m' : am_oneshots m !! o = None -> call_step jwt_encode now o c m = Some (pc, m') ->
  sys_ok (mkSys m (cs1 ++ c :: cs2) log) -> sys_ok (mkSys m' (cs1 ++ mkCall (ca_job c) pc :: cs2) (log ++ call_event c pc)).
Proof.
  intros Hf Hs Hok. unfold call_step in Hs. destruct (ca_pc c) as [idx|wl|wl o'|r] eqn:Epc; [..|done].
  - assert (call_event c pc = []) as -> by (unfold call_event; by rewrite Epc). rewrite app_nil_r.
    assert (done_id c = None) as Hd by (unfold done_id; by rewrite Epc).
    repeat case_match; simplify_eq; (apply sys_ok_pc; [done|by rewrite Hd|done]).
  - injection Hs as <- <-. assert (call_event c (Waiting wl o) = [Requested (ca_job c) wl]) as -> by (unfold call_event; by rewrite Epc).
    eapply sys_ok_resp0; [apply worker_send_resp|]. by apply request_ok.
  - destruct (am_oneshots m !! o') as [[|res| |]|] eqn:Eo; try discriminate.
    + destruct (am_heap m !! wl) as [worker|]; [|done].
      destruct (on_answer jwt_encode (ca_job c) worker (am_keys m) now res) as [msg|e] eqn:Ea; injection Hs as <- <-.
      * assert (call_event c (Done (Ok (jo_id (ca_job c)))) = [Assigned (ca_job c) wl]) as -> by (unfold call_event; by rewrite Epc).
        eapply sys_ok_resp0; [eapply same_resp_trans; [apply worker_send_resp|apply track_job_resp]|].
        eapply sys_ok_assign; [exact Epc|exact Eo|by eapply on_answer_available|done].
      * assert (call_event c (Done (Err e)) = []) as -> by (unfold call_event; by rewrite Epc). rewrite app_nil_r.
        apply sys_ok_pc; [done|unfold done_id; by rewrite Epc|done].
    + injection Hs as <- <-. assert (call_event c (Done (Err "availability channel closed")) = []) as -> by (unfold call_event; by rewrite Epc).
      rewrite app_nil_r. apply sys_ok_pc; [done|unfold done_id; by rewrite Epc|done].
Qed.

Lemma message_ok info millis wl msg s m cs log : am_heap m !! wl = None -> sys_ok (mkSys m cs log) ->
  sys_ok (mkSys (on_worker_message info millis wl msg s m).2 cs (log ++ message_event s msg)).
Proof.
  intros Hf Hok. destruct msg; cbn [on_worker_message snd]; unfold message_event.
  - rewrite app_nil_r. eapply sys_ok_resp0; [|exact Hok]. eapply same_resp_trans; [|apply try_send_resp]. by apply register_resp.
  - destruct (ws_worker s) as [l|]; [by apply sys_ok_fulfill|by rewrite app_nil_r].
  - rewrite app_nil_r. destruct (ws_worker s) as [l|]; [|done]. eapply sys_ok_resp0; [|exact Hok].
    apply update_resp. intros w. by destruct status.
  - by rewrite app_nil_r.
  - rewrite app_nil_r. destruct (ws_worker s) as [l|]; [|done]. eapply sys_ok_resp0; [apply worker_send_resp|exact Hok].
  - by rewrite app_nil_r.
  - by rewrite app_nil_r.
Qed.

Lemma agent_step_ok s s' : sys_ok s -> agent_step jwt_encode s s' -> sys_ok s'.
Proof.
  intros Hok Hs. destruct Hs.
  - destruct Hok as [H1 H2 H3 H4 H5 H6 H7]. cbn in *.
    assert (forall x wl o, x ∈ cs ++ [mkCall (room_job id now l) (Picking idx)] -> waits x wl o -> x ∈ cs) as Hin.
    { intros x wl o [Hx|Hx%list_elem_of_singleton]%elem_of_app Hw; [done|by subst x]. }
    split; cbn; eauto. rewrite H7, omap_app. cbn [omap list_omap]. change (done_id _) with (@None string). by rewrite app_nil_r.
  - by eapply call_step_ok.
  - unfold call_timeout in H. destruct (ca_pc c) as [idx|wl|wl o|r] eqn:Epc; try done. injection H as <- <-.
    assert (sys_ok (mkSys m (cs1 ++ mkCall (ca_job c) (Done (Err "worker did not respond to availability request")) :: cs2) log)) as H1
      by (apply sys_ok_pc; [done|unfold done_id; by rewrite Epc|done]).
    repeat case_match; try done. by apply sys_ok_oneshot.
  - by apply message_ok.
  - eapply sys_ok_resp0; [apply session_end_resp|done].
  - by eapply sys_ok_resp0; [|exact Hok].
  - by eapply sys_ok_resp0; [|exact Hok].
  - eapply sys_ok_resp0; [|exact Hok]. unfold delete_dispatch. by case_match.
  - eapply sys_ok_resp0; [apply terminate_resp|done].
Qed.

Lemma agent_reach_ok keys s : reach (agent_step jwt_encode) (agent_init keys) s -> sys_ok s.
Proof.
  intros Hr. eapply reach_invariant; [|by intros; eapply agent_step_ok|exact Hr].
  split; cbn; [..|reflexivity].
  - intros wl wl' o c Ha. discriminate Ha.
  - intros wl o Ha. discriminate Ha.
  - intros c wl o Hc. by apply elem_of_nil in Hc.
  - intros c wl o Hc. by apply elem_of_nil in Hc.
  - intros c wl o res Hc. by apply elem_of_nil in Hc.
  - intros l1 job wl l2 E. by destruct l1.
Qed.

End Safety.

(** * Runs *)

(** The [i]-th call takes a step with [o] as its new channel. *)
Definition run_call (jwt_encode : string -> Value -> Result string string) (now : Z) (o i : nat) (s : AgentSys) : AgentSys :=
  match sy_calls s !! i with
  | Some c =>
      match call_step jwt_encode now o c (sy_mgr s) with
      | Some (pc, m') => mkSys m' (<[i := mkCall (ca_job c) pc]> (sy_calls s)) (sy_log s ++ call_event c pc)
      | None => s
      end
  | None => s
  end.
Lemma run_call_reach jwt_encode now o i s0 s : am_oneshots (sy_mgr s) !! o = None -> reach (agent_step jwt_encode) s0 s ->
  reach (agent_step jwt_encode) s0 (run_call jwt_encode now o i s).
Proof.
  intros Hf Hr. unfold run_call. destruct (sy_calls s !! i) as [c|] eqn:Ec; [|done].
  destruct (call_step jwt_encode now o c (sy_mgr s)) as [[pc m']|] eqn:Es; [|done].
  eapply reach_step; [exact Hr|]. destruct s as [m cs log]. cbn in *.
  pose proof (take_drop_middle cs i c Ec) as E. rewrite insert_take_drop by (by eapply lookup_lt_Some).
  rewrite <- E at 1. by eapply as_call.
Qed.

Module AgentDemo.
Definition sign (secret : string) (claims : Value) : Result string string := Ok "signed".
Definition info : ServerInfo := mkServerInfo "1" 1 "" "N" 1.
Definition room : RoomInfo := mkRoomInfo "RM_1" "r" 0 0 0 0 0 "" 0 0 false (TimedVersion_new 0).
Definition session : WorkerSession := mkWSession "LW_1" 5%nat "key" None.
Definition joined : WorkerSession := mkWSession "LW_1" 5%nat "key" (Some 1%nat).
Definition launch : Launch := mkLaunch "voice" room "" "" ∅ None.
Definition job (id : string) : Job := room_job id 0 launch.
Definition answer (id : string) (ok : bool) : AvailabilityResponse := mkAvailability id ok "" "" "" ∅.
Definition step := run_call sign 0.
Definition message (wl : loc) (msg : WorkerMessage) (s : WorkerSession) (st : AgentSys) : AgentSys :=
  mkSys (on_worker_message info 0 wl msg s (sy_mgr st)).2 (sy_calls st) (sy_log st ++ message_event s msg).
Definition launched (id : string) (st : AgentSys) : AgentSys :=
  mkSys (sy_mgr st) (sy_calls st ++ [mkCall (job id) (Picking 0%nat)]) (sy_log st).

Lemma message_reach s0 wl msg s st : am_heap (sy_mgr st) !! wl = None -> reach (agent_step sign) s0 st ->
  reach (agent_step sign) s0 (message wl msg s st).
Proof. intros Hf Hr. eapply reach_step; [exact Hr|]. destruct st. by apply as_message. Qed.
Lemma launched_reach s0 id st : reach (agent_step sign) s0 st -> reach (agent_step sign) s0 (launched id st).
Proof. intros Hr. eapply reach_step; [exact Hr|]. destruct st. apply as_launch. Qed.

Definition init : AgentSys := agent_init {["key" := "secret"]}.
(** A worker registers, and two jobs are launched for it. *)
Definition ready : AgentSys := launched "J2" (launched "J1" (message 1%nat (WRegister "voice" 0 0) session init)).
(** Only the first call runs, and is accepted. *)
Definition accepted : AgentSys := step 8%nat 0%nat (message 2%nat (WAvailability (answer "J1" true)) joined (step 7%nat 0%nat (step 7%nat 0%nat ready))).
(** Both calls check before either asks; the worker accepts the first job and declines the second. *)
Definition crossed : AgentSys :=
  step 9%nat 1%nat (message 2%nat (WAvailability (answer "J2" false)) joined (message 2%nat (WAvailability (answer "J1" true)) joined
    (step 8%nat 1%nat (step 7%nat 0%nat (step 7%nat 1%nat (step 7%nat 0%nat ready)))))).

Ltac run :=
  repeat lazymatch goal with
  | |- reach _ _ (launched _ _) => apply launched_reach
  | |- reach _ _ (run_call _ _ _ _ _) => apply run_call_reach; [vm_compute; reflexivity|]
  | |- reach _ _ (message _ _ _ _) => apply message_reach; [vm_compute; reflexivity|]
  end.
Lemma accepted_reach : reach (agent_step sign) init accepted.
Proof. unfold accepted, ready, step. run. apply reach_init. Qed.
Lemma crossed_reach : reach (agent_step sign) init crossed.
Proof. unfold crossed, ready, step. run. apply reach_init. Qed.
End AgentDemo.


(** Answers can be crossed.  The check that a worker has no pending request and the setting
    of the responder are separate, and an answer is not compared with the job it is for: two
    launches at once can end with the worker assigned the job it declined, on its acceptance of
    the other one. *)
Theorem crossed_answers : exists s job1 job2 wl res1 res2,
  reach (agent_step AgentDemo.sign) AgentDemo.init s /\ av_job_id res1 = jo_id job1 /\ av_available res1 = true /\
  av_job_id res2 = jo_id job2 /\ av_available res2 = false /\ jo_id job1 <> jo_id job2 /\
  sy_log s = [Requested job1 wl; Requested job2 wl; Answered wl res1; Answered wl res2; Assigned job2 wl].
Proof.
  exists AgentDemo.crossed, (AgentDemo.job "J1"), (AgentDemo.job "J2"), 1%nat, (AgentDemo.answer "J1" true), (AgentDemo.answer "J2" false).
  split; [exact AgentDemo.crossed_reach|]. repeat (split; [done|]). vm_compute. reflexivity.
Qed.

(** A request that timed out still occupies its worker: until the worker answers it, every
    launch that picks this worker fails. *)
Lemma silent_worker_blocks jwt_encode now o idx job m wl old :
  pick_worker idx (workers_for (jo_agent_name job) m) m = Some wl -> avail m wl = Some old ->
  call_step jwt_encode now o (mkCall job (Picking idx)) m = Some (Done (Err "worker already has a pending availability request"), m).
Proof. intros Hp Ha. unfold call_step. cbn [ca_pc ca_job]. rewrite Hp. unfold avail in Ha. by rewrite Ha. Qed.
Lemma timeout_keeps_responder c m pc m' : call_timeout c m = Some (pc, m') -> forall wl, avail m' wl = avail m wl.
Proof. unfold call_timeout. destruct (ca_pc c); try done. intros [= _ <-] wl'. unfold avail. repeat case_match; done. Qed.
