(* ===== verification/AgentService.v ===== *)
(** The agent dispatch API, [agent_dispatch_service] of [crates/lk-server/src/services.rs], over
    the manager of [Agent]; and what it means for the jobs of a room. *)
From Stdlib Require Import ZArith Lia Ascii String.
From stdpp Require Import base gmap strings list option.
From S2P Require Import Prelude RustStr Core Auth Twirp Proto Participant Room RoomService Agent.

Open Scope string_scope.
Open Scope list_scope.
Open Scope Z_scope.
Local Open Scope twirp_scope.

(** * Requests and replies *)

Record CreateAgentDispatchRequest := mkCreateDispatch {
  cd_agent_name : string; cd_room : string; cd_metadata : string; cd_deployment : string; cd_attributes : gmap string string;
}.
Record DispatchQuery := mkQuery { dq_dispatch_id : string; dq_query_room : string }.

Inductive DispatchCall :=
| CreateDispatch (r : Result TwirpError CreateAgentDispatchRequest)
| DeleteDispatch (r : Result TwirpError DispatchQuery)
| ListDispatch (r : Result TwirpError DispatchQuery)
| UnknownDispatchMethod (method : string).

(** [lk::AgentDispatch]. *)
Record DispatchInfo := mkDispatchInfo {
  di_id : string; di_agent_name : string; di_room : string; di_metadata : string; di_jobs : list Job;
  di_created_at : Z; di_deleted_at : Z; di_deployment : string; di_attributes : gmap string string;
}.
Definition dispatch_to_proto (d : AgentDispatch) : DispatchInfo :=
  mkDispatchInfo (ad_id d) (ad_agent_name d) (ad_room d) (ad_metadata d) (ad_jobs d)
    (wrap_s 64 (ad_created_at d * 1000000000)) (wrap_s 64 (default 0 (ad_deleted_at d) * 1000000000))
    (ad_deployment d) (ad_attributes d).

Inductive DispatchReply := ReplyDispatch (d : DispatchInfo) | ReplyDispatches (l : list DispatchInfo).

(** * Handlers *)

(** The manager, and the launches spawned so far. *)
Definition DispatchState : Type := Manager * list Launch.
Definition on_manager {A} (f : Manager -> A * Manager) : Handler DispatchState A := fun s => let '(a, m) := f s.1 in (Ok a, (m, s.2)).

(** The launch of a new dispatch whose room is there. *)
Definition launch_now (d : AgentDispatch) (room : option RoomInfo) : list Launch :=
  match room with
  | Some r => [mkLaunch (ad_agent_name d) r (ad_metadata d) (ad_deployment d) (ad_attributes d) (Some (ad_id d))]
  | None => []
  end.

(** [rooms] is [server.get_room] with [to_proto]; [fresh] the generated id, [now] the clock. *)
Definition create_dispatch_call (rooms : string -> option RoomInfo) (fresh : string) (now : Z) (r : CreateAgentDispatchRequest) :
    Handler DispatchState DispatchReply :=
  if (cd_agent_name r =? "")%string then throw (invalid_argument, "agent name is required")
  else if (cd_room r =? "")%string then throw (invalid_argument, "room is required")
  else
    let! d := on_manager (create_dispatch fresh now (cd_agent_name r) (cd_room r) (cd_metadata r) (cd_deployment r) (cd_attributes r)) in
    let! _ := (fun s => (Ok tt, (s.1, s.2 ++ launch_now d (rooms (ad_room d))))) : Handler DispatchState unit in
    ret (ReplyDispatch (dispatch_to_proto d)).

Definition delete_dispatch_call (now : Z) (r : DispatchQuery) : Handler DispatchState DispatchReply :=
  let! found := on_manager (delete_dispatch (dq_dispatch_id r) now) in
  let! d := lift (ok_or found (not_found, "dispatch not found")) in
  let! _ := on_manager (fun m => (tt, foldl terminate_job m (ad_jobs d))) in
  ret (ReplyDispatch (dispatch_to_proto d)).

Definition list_dispatch_call (r : DispatchQuery) : Handler DispatchState DispatchReply := fun s =>
  let found := if (dq_dispatch_id r =? "")%string then list_dispatches (dq_query_room r) s.1
               else option_list (get_dispatch (dq_dispatch_id r) s.1) in
  (Ok (ReplyDispatches (dispatch_to_proto <$> found)), s).

(** A body for one room, behind the admin grant of that room. *)
Definition admin_dispatch {R} (token : VerifiedToken) (body : Result TwirpError R) (room : R -> string)
    (k : R -> Handler DispatchState DispatchReply) : Handler DispatchState DispatchReply :=
  let! r := lift body in
  let! _ := lift (ensure_admin token (room r)) in
  k r.

Definition agent_dispatch_service (rooms : string -> option RoomInfo) (fresh : string) (now : Z) (token : VerifiedToken) (call : DispatchCall) :
    Handler DispatchState DispatchReply :=
  match call with
  | CreateDispatch body => admin_dispatch token body cd_room (create_dispatch_call rooms fresh now)
  | DeleteDispatch body => admin_dispatch token body dq_query_room (delete_dispatch_call now)
  | ListDispatch body => admin_dispatch token body dq_query_room list_dispatch_call
  | UnknownDispatchMethod method => throw (not_found, "method not found: " +:+ method)
  end.

(** * The table of dispatches *)

(** Dispatches are stored live under their ids, with distinct jobs. *)
Definition dispatches_ok (m : Manager) : Prop :=
  map_Forall (fun id d => ad_id d = id /\ live d /\ NoDup (jo_id <$> ad_jobs d)) (am_dispatches m).

Lemma try_send_dispatches c msg m : am_dispatches (try_send c msg m) = am_dispatches m.
Proof. unfold try_send. repeat case_match; done. Qed.
Lemma worker_send_dispatches wl msg m : am_dispatches (worker_send wl msg m) = am_dispatches m.
Proof. unfold worker_send. case_match; [apply try_send_dispatches|done]. Qed.
Lemma terminate_jobs_dispatches jobs m : am_dispatches (foldl terminate_job m jobs) = am_dispatches m.
Proof.
  revert m. induction jobs as [|j jobs IH]; intros m; cbn [foldl]; [done|]. rewrite IH. unfold terminate_job.
  generalize (workers_for (jo_agent_name j) m). intros ws. revert m. induction ws as [|wl ws IHw]; intros m; cbn [foldl]; [done|].
  by rewrite IHw, worker_send_dispatches.
Qed.

Lemma create_dispatches_ok id now name room md dep attrs m : dispatches_ok m -> dispatches_ok (create_dispatch id now name room md dep attrs m).2.
Proof. intros Hm. apply map_Forall_insert_2; [|done]. split_and!; [done|done|constructor]. Qed.
Lemma delete_dispatches_ok id now m : dispatches_ok m -> dispatches_ok (delete_dispatch id now m).2.
Proof. intros Hm. unfold delete_dispatch. case_match; [by apply map_Forall_delete|done]. Qed.
Lemma track_job_ok job m : dispatches_ok m -> dispatches_ok (track_job job m).
Proof.
  intros Hm. unfold track_job. case_match; [done|]. intros id d. cbn [am_dispatches set_dispatches].
  destruct (decide (id = jo_dispatch_id job)) as [->|Hne]; [|rewrite lookup_alter_ne by done; apply Hm].
  rewrite lookup_alter_eq. destruct (am_dispatches m !! jo_dispatch_id job) as [d0|] eqn:E; [|done]. intros [= <-].
  destruct (Hm _ _ E) as (H1 & H2 & H3). unfold add_job. destruct (existsb _ (ad_jobs d0)) eqn:Ex; [done|].
  split_and!; [done|done|]. cbn [ad_jobs]. rewrite fmap_app. apply list.NoDup_app. split_and!; [done| |by apply list.NoDup_singleton].
  intros x Hx ->%list_elem_of_singleton. apply list_elem_of_fmap in Hx as (j & Ej & Hj).
  assert (existsb (fun j => (jo_id j =? jo_id job)%string) (ad_jobs d0) = true) as E2; [|congruence].
  apply existsb_exists. exists j. split; [by apply list_elem_of_In|]. apply String.eqb_eq. congruence.
Qed.

Lemma elem_of_list_dispatches room m d : d ∈ list_dispatches room m <->
  exists id, am_dispatches m !! id = Some d /\ ad_room d = room /\ live d.
Proof.
  unfold list_dispatches. rewrite list_elem_of_filter, list_elem_of_fmap. split.
  - intros ([H1 H2] & [id d'] & E & Hin). cbn in E. subst d'. exists id. by apply elem_of_map_to_list in Hin.
  - intros (id & Hl & H1 & H2). split; [done|]. exists (id, d). split; [done|]. by apply elem_of_map_to_list.
Qed.

(** Dispatches live from creation to deletion.  A created dispatch is found by its id and
    listed for its room, and launched when the room comes up; once deleted it is neither found
    nor listed nor launched, for any room, and every other dispatch is as before; the invariant
    of the table (stored under their own ids, live, jobs distinct) is kept throughout. *)
Theorem dispatch_lifecycle id now now' name room md dep attrs m : dispatches_ok m -> am_dispatches m !! id = None ->
  let '(d, m1) := create_dispatch id now name room md dep attrs m in
  let m2 := (delete_dispatch id now' m1).2 in
  dispatches_ok m1 /\ get_dispatch id m1 = Some d /\ d ∈ list_dispatches room m1 /\
  (forall r, ri_name r = room -> exists l, l ∈ launch_room_dispatches r m1 /\ ln_dispatch_id l = Some id /\ ln_agent_name l = name) /\
  am_dispatches m2 = am_dispatches m /\ get_dispatch id m2 = None /\
  (forall r l, l ∈ launch_room_dispatches r m2 -> ln_dispatch_id l <> Some id).
Proof.
  intros Hm Hf. pose proof (create_dispatches_ok id now name room md dep attrs m Hm) as Hok1.
  unfold create_dispatch in *. set (d := mkAgentDispatch id name room md dep attrs now None []) in *. cbn [snd] in Hok1.
  set (m1 := set_dispatches (<[id := d]> (am_dispatches m)) m) in *. cbv zeta.
  assert (am_dispatches m1 !! id = Some d) as H1 by apply lookup_insert_eq.
  assert (am_dispatches (delete_dispatch id now' m1).2 = am_dispatches m) as H2.
  { unfold delete_dispatch. rewrite H1. cbn. by rewrite delete_insert_eq, delete_id. }
  assert (d ∈ list_dispatches room m1) as H3 by (apply elem_of_list_dispatches; by exists id).
  split_and!; [done| |done| |done| |].
  - unfold get_dispatch. by rewrite H1.
  - intros r Hr. eexists. split; [apply list_elem_of_fmap; exists d; split; [reflexivity|by rewrite Hr]|]. done.
  - unfold get_dispatch. by rewrite H2, Hf.
  - intros r l Hl. apply list_elem_of_fmap in Hl as (d' & -> & Hd'). apply elem_of_list_dispatches in Hd' as (id' & Hl & _).
    rewrite H2 in Hl. destruct (Hm _ _ Hl) as (-> & _). cbn. intros [= ->]. congruence.
Qed.

Lemma dispatch_lifecycle_witness :
  let '(d, m1) := create_dispatch "DA_1" 5 "voice" "r" "" "" ∅ (AgentManager_new ∅) in
  get_dispatch "DA_1" m1 = Some d /\ get_dispatch "DA_1" (delete_dispatch "DA_1" 9 m1).2 = None.
Proof.
  destruct (dispatch_lifecycle "DA_1" 5 9 "voice" "r" "" "" ∅ (AgentManager_new ∅)) as (_ & H1 & _ & _ & _ & H2 & _);
    [apply map_Forall_empty|reflexivity|]. split; [exact H1|exact H2].
Defined.

(** * Authorization *)

Lemma dispatch_call_clean rooms fresh now token call s reply :
  agent_dispatch_service rooms fresh now token call s = reply ->
  match reply with
  | (Ok _, _) => match call with
                 | CreateDispatch body => body_room body cd_room token = true
                 | DeleteDispatch body | ListDispatch body => body_room body dq_query_room token = true
                 | UnknownDispatchMethod _ => False
                 end
  | (Err _, s') => s' = s
  end.
Proof.
  intros <-.
  assert (forall R (body : Result TwirpError R) room (k : R -> Handler DispatchState DispatchReply),
    (forall r e s', k r s = (Err e, s') -> s' = s) ->
    match admin_dispatch token body room k s with (Ok _, _) => body_room body room token = true | (Err _, s') => s' = s end) as Hadmin.
  { intros R body room k Hk. unfold admin_dispatch. destruct body as [r|e]; [|done]. rewrite (bind_lift_ok _ _ r) by done.
    unfold ensure_admin. cbn [body_room]. fold (admin_of token (room r)). destruct (admin_of token (room r)); [|done].
    rewrite (bind_lift_ok _ _ tt) by done. destruct (k r s) as [[a|e] s'] eqn:E; [done|by eapply Hk]. }
  destruct call; cbn [agent_dispatch_service]; [apply Hadmin..|done].
  - intros q e s' E. unfold create_dispatch_call in E.
    destruct (cd_agent_name q =? "")%string; [by injection E|]. destruct (cd_room q =? "")%string; [by injection E|discriminate E].
  - intros q e s' E. unfold delete_dispatch_call, bind, on_manager, delete_dispatch in E.
    destruct (am_dispatches s.1 !! dq_dispatch_id q); cbn in E; [done|]. injection E as _ <-. by destruct s.
  - intros q e s' E. done.
Qed.

(** Dispatches of other rooms can be read and deleted.  The grant is checked for the room the
    request names, the dispatch is looked up by its id alone: the admin of any room can list and
    delete a dispatch of another room, and its jobs are terminated. *)
Theorem dispatch_cross_room rooms fresh now token own id d m ls :
  admin_of token own = true -> id <> "" -> am_dispatches m !! id = Some d -> live d -> ad_room d <> own ->
  agent_dispatch_service rooms fresh now token (ListDispatch (Ok (mkQuery id own))) (m, ls) =
    (Ok (ReplyDispatches [dispatch_to_proto d]), (m, ls)) /\
  exists reply m', agent_dispatch_service rooms fresh now token (DeleteDispatch (Ok (mkQuery id own))) (m, ls) = (Ok reply, (m', ls)) /\
    am_dispatches m' = delete id (am_dispatches m).
Proof.
  intros Ha Hid Hd Hl _. cbn [agent_dispatch_service]. unfold admin_dispatch. rewrite !(bind_lift_ok _ _ (mkQuery id own)) by done.
  unfold ensure_admin. cbn [dq_query_room]. fold (admin_of token own). rewrite Ha, !(bind_lift_ok _ _ tt) by done. split.
  - unfold list_dispatch_call. cbn [dq_dispatch_id]. apply String.eqb_neq in Hid as ->. unfold get_dispatch. cbn [fst]. rewrite Hd. cbn.
    by rewrite decide_True.
  - unfold delete_dispatch_call, bind, on_manager, delete_dispatch. cbn [fst snd dq_dispatch_id]. rewrite Hd. cbn.
    eexists _, _. split; [reflexivity|]. by rewrite terminate_jobs_dispatches.
Qed.

Definition other_room : Manager := (create_dispatch "DA_1" 5 "voice" "private" "" "" ∅ (AgentManager_new ∅)).2.
Lemma dispatch_cross_room_witness : exists reply m',
  agent_dispatch_service (fun _ => None) "DA_2" 9 ApiDemo.admin (DeleteDispatch (Ok (mkQuery "DA_1" "r"))) (other_room, []) = (Ok reply, (m', [])) /\
  am_dispatches m' = delete "DA_1" (am_dispatches other_room).
Proof.
  apply (dispatch_cross_room (fun _ => None) "DA_2" 9 ApiDemo.admin "r" "DA_1"
    (mkAgentDispatch "DA_1" "voice" "private" "" "" ∅ 5 None []) other_room []); try reflexivity; discriminate.
Defined.

(** * Jobs without a dispatch *)

(** A job launched by a token's dispatch carries no dispatch id: it is not recorded, so closing
    its room does not terminate it. *)
Lemma token_jobs_untracked id now l m : ln_dispatch_id l = None -> track_job (room_job id now l) m = m.
Proof. intros H. unfold track_job, room_job. by rewrite H. Qed.
Lemma closing_spares_untracked room m : am_dispatches m = ∅ -> terminate_room_jobs room m = m.
Proof. intros H. unfold terminate_room_jobs, room_jobs. by rewrite H, map_to_list_empty. Qed.

(** * Registry of workers *)

(** A worker is listed under its own agent name, and no list is empty. *)
Definition registry_ok (m : Manager) : Prop :=
  map_Forall (fun name ls => ls <> [] /\ Forall (fun wl => (wk_agent_name <$> am_heap m !! wl) = Some name) ls) (am_workers m).

Lemma register_registry_ok wl w m : registry_ok m -> am_heap m !! wl = None -> registry_ok (register_worker wl w m).
Proof.
  intros Hm Hf.
  assert (forall name ls, Forall (fun wl' => (wk_agent_name <$> am_heap m !! wl') = Some name) ls ->
    Forall (fun wl' => (wk_agent_name <$> (<[wl := w]> (am_heap m)) !! wl') = Some name) ls) as Hkeep.
  { intros name ls. apply Forall_impl. intros l Hl. destruct (decide (wl = l)) as [<-|Hne]; [by rewrite Hf in Hl|by rewrite lookup_insert_ne]. }
  intros name ls. cbn [am_workers register_worker set_workers am_heap set_heap]. intros [[<- <-]|[_ Hl]]%lookup_insert_Some.
  - split; [by destruct (default _ _)|]. apply Forall_app. split; [|by repeat constructor; rewrite lookup_insert_eq].
    apply Hkeep. destruct (am_workers m !! wk_agent_name w) as [ls|] eqn:E; [apply (Hm _ _ E)|constructor].
  - destruct (Hm _ _ Hl) as [H1 H2]. split; [done|by apply Hkeep].
Qed.

Lemma unregister_lookup id m name ls : am_workers (unregister_worker id m) !! name = Some ls <->
  ls <> [] /\ exists l0, am_workers m !! name = Some l0 /\ ls = filter (fun wl => ~ has_worker_id m id wl) l0.
Proof.
  unfold unregister_worker. cbn [am_workers set_workers]. rewrite map_lookup_filter_Some, lookup_fmap, fmap_Some. cbn. naive_solver.
Qed.

(** A worker whose session has ended is not picked any more. *)
Lemma unregistered_gone id m name : Forall (fun wl => ~ has_worker_id m id wl) (workers_for name (unregister_worker id m)).
Proof.
  unfold workers_for. destruct (am_workers (unregister_worker id m) !! name) as [ls|] eqn:E; [|constructor].
  apply unregister_lookup in E as (_ & l0 & _ & ->). apply list.Forall_forall. intros wl Hin. by apply list_elem_of_filter in Hin as [? _].
Qed.
Lemma unregister_registry_ok id m : registry_ok m -> registry_ok (unregister_worker id m).
Proof.
  intros Hm name ls (Hne & l0 & Hl & ->)%unregister_lookup. split; [done|]. destruct (Hm _ _ Hl) as [_ H].
  apply list.Forall_forall. intros wl [_ Hin]%list_elem_of_filter. rewrite list.Forall_forall in H. by apply H.
Qed.

(** Jobs go to live workers of their agent.  Registration and disconnection keep every worker
    listed under its own agent's name; the worker a job is offered to is registered for the job's
    agent, available, and not one whose session has ended; with no such worker the launch fails
    without touching anything. *)
Theorem job_goes_to_own_agent jwt_encode now o idx job m : registry_ok m ->
  match call_step jwt_encode now o (mkCall job (Picking idx)) m with
  | Some (Picked wl, m') => m' = m /\ exists w, am_heap m !! wl = Some w /\ wk_agent_name w = jo_agent_name job /\
      wk_is_available w = true /\ wk_availability w = None
  | Some (Done (Err _), m') => m' = m
  | _ => False
  end /\
  (forall id, registry_ok (unregister_worker id m) /\
     forall wl, pick_worker idx (workers_for (jo_agent_name job) (unregister_worker id m)) (unregister_worker id m) = Some wl ->
       ~ has_worker_id m id wl).
Proof.
  intros Hm.
  assert (forall m0 ws wl, pick_worker idx ws m0 = Some wl -> wl ∈ ws /\ (wk_is_available <$> am_heap m0 !! wl) = Some true) as Hpick.
  { intros m0 ws wl. unfold pick_worker. set (av := filter _ ws). destruct av as [|x av'] eqn:E; [done|]. rewrite <- E.
    intros Hl%list_elem_of_lookup_2. subst av. apply list_elem_of_filter in Hl as [? ?]. done. }
  split.
  - unfold call_step. cbn [ca_pc ca_job]. destruct (pick_worker idx _ m) as [wl|] eqn:Ep; [|done].
    apply Hpick in Ep as [Hin Hav]. destruct (am_heap m !! wl) as [w|] eqn:Ew; [|done]. cbn [mbind option_bind].
    destruct (wk_availability w) as [old|] eqn:Ea; [done|]. split; [done|]. exists w. split_and!; [done| |by injection Hav|done].
    unfold workers_for in Hin. destruct (am_workers m !! jo_agent_name job) as [ls|] eqn:El; [|by apply elem_of_nil in Hin].
    destruct (Hm _ _ El) as [_ H]. rewrite list.Forall_forall in H. specialize (H _ Hin). rewrite Ew in H. by injection H.
  - intros id. split; [by apply unregister_registry_ok|]. intros wl Hp. apply Hpick in Hp as [Hin _].
    pose proof (unregistered_gone id m (jo_agent_name job)) as H. rewrite list.Forall_forall in H. by apply H.
Qed.

Definition one_worker : Manager := register_worker 1%nat (mkWorker "LW_1" "key" "voice" 0 0 0 0 10 true (Some 5%nat) None) (AgentManager_new ∅).
Lemma job_goes_to_own_agent_witness :
  exists w, am_heap one_worker !! 1%nat = Some w /\ wk_agent_name w = "voice" /\ wk_is_available w = true /\ wk_availability w = None.
Proof.
  assert (registry_ok one_worker) as Hok by (apply register_registry_ok; [apply map_Forall_empty|reflexivity]).
  destruct (job_goes_to_own_agent (fun _ _ => Ok "token") 0 7%nat 0%nat
    (mkJob "LJ_1" "" 0 None "" "voice" 0 0 "" ∅) one_worker Hok) as [[_ H] _].
  exact H.
Defined.
