(* ===== verification/Wkt.v ===== *)
(** JSON forms of the protobuf well-known types, [crates/lk-proto/src/wkt_serde.rs]:
    RFC 3339 timestamps over the proleptic Gregorian calendar, decimal durations,
    and the [Any] and [Empty] shapes. *)
From Stdlib Require Import ZArith Lia Ascii String.
From stdpp Require Import base strings list option.
From S2P Require Import Prelude RustStr Auth.

Open Scope string_scope.
Open Scope list_scope.
Open Scope Z_scope.

(** * The calendar *)

(** [i64] arithmetic wraps in release builds. *)
Definition w64 (x : Z) : Z := wrap_s 64 x.

(** [days_from_civil]. *)
Definition days_from_civil (y m d : Z) : Z :=
  let y := if m <=? 2 then w64 (y - 1) else y in
  let era := y / 400 in
  let yoe := y - era * 400 in
  let mp := w64 (m + 9) mod 12 in
  let doy := (153 * mp + 2) / 5 + d - 1 in
  let doe := yoe * 365 + yoe / 4 - yoe / 100 + doy in
  w64 (era * 146097 + doe - 719468).

(** [civil_from_days]: year, month, day. *)
Definition civil_from_days (z : Z) : Z * Z * Z :=
  let z := w64 (z + 719468) in
  let era := z / 146097 in
  let doe := z - era * 146097 in
  let yoe := (doe - doe / 1460 + doe / 36524 - doe / 146096) / 365 in
  let y := yoe + era * 400 in
  let doy := doe - (365 * yoe + yoe / 4 - yoe / 100) in
  let mp := (5 * doy + 2) / 153 in
  let d := doy - (153 * mp + 2) / 5 + 1 in
  let m := if mp <? 10 then mp + 3 else mp - 9 in
  let y := if m <=? 2 then y + 1 else y in
  (y, wrap_u 32 m, wrap_u 32 d).

(** * Timestamps *)

Record Timestamp := mkTimestamp { ts_seconds : Z; ts_nanos : Z }.

(** [format_fraction]: 3, 6 or 9 digits. *)
Definition format_fraction (nanos : Z) : string :=
  let '(digits, unit) :=
    if Z.rem nanos 1000000 =? 0 then (3%nat, 1000000)
    else if Z.rem nanos 1000 =? 0 then (6%nat, 1000)
    else (9%nat, 1) in
  "." +:+ fmt_pad digits (Z.quot nanos unit).

Definition format_timestamp (seconds nanos : Z) : string :=
  let '(year, month, day) := civil_from_days (seconds / 86400) in
  let secs_of_day := seconds mod 86400 in
  let hh := secs_of_day / 3600 in
  let mm := (secs_of_day mod 3600) / 60 in
  let ss := secs_of_day mod 60 in
  (fmt_pad 4 year +:+ "-" +:+ fmt_pad 2 month +:+ "-" +:+ fmt_pad 2 day +:+ "T"
   +:+ fmt_pad 2 hh +:+ ":" +:+ fmt_pad 2 mm +:+ ":" +:+ fmt_pad 2 ss
   +:+ (if nanos =? 0 then "" else format_fraction nanos) +:+ "Z").

(** [while digits.len() < 9 { digits.push('0') }]. *)
Definition zeros (n : nat) : string := Nat.iter n (String "0"%char) "".

Definition parse_fraction (frac : string) : Result string Z :=
  let n := String.length frac in
  if (frac =? "")%string || (9 <? n)%nat then Err "invalid fractional seconds"
  else ok_or (parse_i32 (frac +:+ zeros (9 - n))) "invalid fractional seconds".

(** The first [+] or [-], with what precedes it. *)
Fixpoint find_sign (s : string) : option (string * string) :=
  match s with
  | "" => None
  | String c s' =>
      if Ascii.eqb c "+" || Ascii.eqb c "-" then Some ("", s)
      else '(a, b) ← find_sign s'; Some (String c a, b)
  end.

Definition split_offset (rest : string) : string * option string :=
  match or_else (strip_suffix "Z" rest) (strip_suffix "z" rest) with
  | Some off => (off, Some "Z")
  | None => match find_sign rest with
            | Some (a, b) => (a, Some b)
            | None => (rest, None)
            end
  end.

(** The sign and the magnitude of the offset in seconds. *)
Definition parse_offset (offset : option string) : Result string (Z * Z) :=
  match offset with
  | None => Ok (1, 0)
  | Some off =>
      if (off =? "Z")%string || (off =? "z")%string then Ok (1, 0)
      else
        '(sign, off) ← match off with
                       | String c off' =>
                           if Ascii.eqb c "+" then Ok (1, off')
                           else if Ascii.eqb c "-" then Ok (-1, off')
                           else Err "bad offset"
                       | "" => Err "bad offset"
                       end;
        match split_on ":" off with
        | [a; b] =>
            oh ← ok_or (parse_i64 a) "bad offset";
            om ← ok_or (parse_i64 b) "bad offset";
            Ok (sign, w64 (oh * 3600 + om * 60))
        | _ => Err "bad offset"
        end
  end.

(** [parse_timestamp]; error messages without the quoted input. *)
Definition parse_timestamp (value : string) : Result string Timestamp :=
  '(date_part, rest) ← ok_or (split_once "T" value) "missing 'T'";
  let '(time_part, offset) := split_offset rest in
  match split_on "-" date_part with
  | [ys; ms; ds] =>
      year ← ok_or (parse_i64 ys) "bad year";
      month ← ok_or (parse_i64 ms) "bad month";
      day ← ok_or (parse_i64 ds) "bad day";
      match split_on ":" time_part with
      | [hs; mins; secs] =>
          hh ← ok_or (parse_i64 hs) "bad hour";
          mm ← ok_or (parse_i64 mins) "bad minute";
          '(ss_str, frac_nanos) ← match split_once "." secs with
                                  | Some (s, frac) => n ← parse_fraction frac; Ok (s, n)
                                  | None => Ok (secs, 0)
                                  end;
          ss ← ok_or (parse_i64 ss_str) "bad second";
          '(offset_sign, offset_seconds) ← parse_offset offset;
          let days := days_from_civil year month day in
          Ok (mkTimestamp (w64 (days * 86400 + hh * 3600 + mm * 60 + ss - offset_sign * offset_seconds)) frac_nanos)
      | _ => Err "bad time"
      end
  | _ => Err "bad date"
  end.

(** * Durations *)

Record Duration := mkDuration { du_seconds : Z; du_nanos : Z }.

Definition format_duration (seconds nanos : Z) : string :=
  if nanos =? 0 then fmt_dec seconds +:+ "s"
  else
    let sign := if (seconds <? 0) || ((seconds =? 0) && (nanos <? 0)) then "-" else "" in
    let secs := w64 (Z.abs seconds) in
    let n := Z.abs nanos in
    let frac := if n mod 1000000 =? 0 then fmt_pad 3 (n / 1000000)
                else if n mod 1000 =? 0 then fmt_pad 6 (n / 1000)
                else fmt_pad 9 n in
    sign +:+ fmt_dec secs +:+ "." +:+ frac +:+ "s".

Definition parse_duration (value : string) : Result string Duration :=
  let '(sign, rest) := match strip_prefix "-" value with Some r => (-1, r) | None => (1, value) end in
  rest ← ok_or (strip_suffix "s" rest) "missing 's' suffix";
  '(secs_str, nanos) ← match split_once "." rest with
                       | Some (secs, frac) => n ← parse_fraction frac; Ok (secs, n)
                       | None => Ok (rest, 0)
                       end;
  secs ← ok_or (parse_i64 secs_str) "invalid duration";
  Ok (mkDuration (w64 (sign * secs)) (wrap_s 32 (sign * nanos))).

(** * [Any] and [Empty] *)

(** [Any] keeps only its type url. *)
Definition serialize_any (type_url : string) : Value := VObj [("@type", VStr type_url)].
Definition deserialize_any (v : Value) : Result string string :=
  match v with
  | VObj m => ok_or (assoc "@type" m ≫= as_str) "Any must contain an '@type' field"
  | _ => Err "Any must be a JSON object"
  end.
Definition serialize_empty : Value := VObj [].
Definition deserialize_empty (v : Value) : Result string unit :=
  match v with Null | VObj _ => Ok () | _ => Err "an empty object" end.

Example ts_epoch : format_timestamp 0 0 = "1970-01-01T00:00:00Z". Proof. reflexivity. Qed.
Example ts_frac : format_timestamp 1700000000 500000000 = "2023-11-14T22:13:20.500Z". Proof. reflexivity. Qed.
Example ts_parse : parse_timestamp "2023-11-15T06:13:20.5+08:00" = Ok (mkTimestamp 1700000000 500000000).
Proof. reflexivity. Qed.

(** * The calendar is the Gregorian one *)

(** The reference calendar: leap years, month lengths, the next day. *)
Definition is_leap (y : Z) : bool :=
  (y mod 4 =? 0) && (negb (y mod 100 =? 0) || (y mod 400 =? 0)).
Definition month_len (y m : Z) : Z :=
  if m =? 2 then if is_leap y then 29 else 28
  else if (m =? 4) || (m =? 6) || (m =? 9) || (m =? 11) then 30 else 31.
Definition valid_date (date : Z * Z * Z) : bool :=
  let '(y, m, d) := date in (1 <=? m) && (m <=? 12) && (1 <=? d) && (d <=? month_len y m).
Definition next_day (date : Z * Z * Z) : Z * Z * Z :=
  let '(y, m, d) := date in
  if d <? month_len y m then (y, m, d + 1)
  else if m <? 12 then (y, m + 1, 1) else (y + 1, 1, 1).

(** The day numbers for which no intermediate value leaves [i64]. *)
Definition day_range (z : Z) : Prop := - 2^60 <= z <= 2^60.

(** Days before the year [y] that starts on March 1st, and before day [doe] of
    an era, in closed form. *)
Definition year_start (y : Z) : Z := 365 * y + y / 4 - y / 100 + y / 400.
Definition leap_free (doe : Z) : Z := doe - doe / 1460 + doe / 36524 - doe / 146096.

Lemma leap_free_mono a b : 0 <= a -> a <= b -> b <= 146096 -> leap_free a <= leap_free b.
Proof.
  intros Ha Hab. replace b with (a + Z.of_nat (Z.to_nat (b - a))) by lia.
  induction (Z.to_nat (b - a)) as [|n IH]; intros Hb; [by rewrite Z.add_0_r|].
  etrans; [apply IH; lia|].
  replace (a + Z.of_nat (S n)) with (a + Z.of_nat n + 1) by lia.
  unfold leap_free. generalize dependent (a + Z.of_nat n); intros. div_lia.
Qed.

(** At the boundaries of the 400 years of an era. *)
Lemma leap_free_boundary y : 0 <= y < 400 ->
  365 * y <= leap_free (year_start y) /\ (1 <= y -> leap_free (year_start y - 1) < 365 * y).
Proof.
  set (P y := (365 * y <=? leap_free (year_start y)) &&
              ((y <? 1) || (leap_free (year_start y - 1) <? 365 * y))).
  assert (forallb (fun n => P (Z.of_nat n)) (seq 0 400) = true) as Hall by (vm_compute; reflexivity).
  intros Hy. rewrite forallb_forall in Hall.
  specialize (Hall (Z.to_nat y)). rewrite in_seq, Z2Nat.id in Hall by lia.
  specialize (Hall ltac:(lia)). unfold P in Hall.
  apply andb_true_iff in Hall as [H1%Z.leb_le H2]. split; [done|].
  intros. apply orb_true_iff in H2 as [H2%Z.ltb_lt|H2%Z.ltb_lt]; lia.
Qed.

Lemma year_of_era doe : 0 <= doe <= 146096 ->
  let yoe := leap_free doe / 365 in
  0 <= yoe <= 399 /\ year_start yoe <= doe /\ (yoe < 399 -> doe < year_start (yoe + 1)).
Proof.
  intros Hd yoe.
  assert (0 <= leap_free doe < 146000) as Hf.
  { split; [apply (leap_free_mono 0 doe); lia|].
    eapply Z.le_lt_trans; [apply (leap_free_mono doe 146096); lia|done]. }
  assert (365 * yoe <= leap_free doe < 365 * (yoe + 1)) as Hy by (subst yoe; div_lia).
  assert (0 <= yoe <= 399) as Hb by lia.
  assert (forall y, 0 <= y < 400 -> 0 <= year_start y <= 146096) as Hs
    by (intros; unfold year_start; div_lia).
  split_and!; try lia.
  - destruct (decide (year_start yoe <= doe)) as [|Hn]; [done|]. exfalso.
    destruct (decide (yoe = 0)) as [E|]; [rewrite E in Hn; change (year_start 0) with 0 in Hn; lia|].
    destruct (leap_free_boundary yoe) as [_ H]; [lia|].
    pose proof (Hs yoe ltac:(lia)).
    pose proof (leap_free_mono doe (year_start yoe - 1)). lia.
  - intros ?. destruct (decide (doe < year_start (yoe + 1))) as [|Hn]; [done|]. exfalso.
    destruct (leap_free_boundary (yoe + 1)) as [Hbd _]; [lia|].
    pose proof (Hs (yoe + 1) ltac:(lia)).
    pose proof (leap_free_mono (year_start (yoe + 1)) doe). lia.
Qed.

(** Days of the months before the month [mp] counted from March. *)
Definition month_start (mp : Z) : Z := (153 * mp + 2) / 5.

(** A date in the March-based year: year, month from March, day from zero. *)
Definition march (date : Z * Z * Z) : Z * Z * Z :=
  let '(y, m, d) := date in
  if m <=? 2 then (y - 1, m + 9, d - 1) else (y, m - 3, d - 1).

Definition date_range (date : Z * Z * Z) : Prop :=
  let '(y, m, d) := date in - 2^53 <= y <= 2^53 /\ 1 <= m <= 12 /\ 1 <= d <= 31.

Lemma w64_small x : - 2^63 <= x < 2^63 -> w64 x = x.
Proof. intros; apply wrap_s_small; lia. Qed.

(** [days_from_civil] in closed form. *)
Lemma days_from_civil_closed date : date_range date ->
  let '(y, m, d) := date in
  let '(y', mp, d') := march date in
  days_from_civil y m d = year_start y' + month_start mp + d' - 719468.
Proof.
  destruct date as [[y m] d]. intros (Hy & Hm & Hd). unfold march, days_from_civil.
  assert (w64 (m + 9) mod 12 = if m <=? 2 then m + 9 else m - 3) as ->.
  { rewrite w64_small by lia. case_goal; bool_to_prop; div_lia. }
  case_goal; bool_to_prop; rewrite ?(w64_small (y - 1)) by lia;
    rewrite w64_small; unfold year_start, month_start; div_lia.
Qed.

Lemma year_start_gap a b : a < b -> year_start a + 365 <= year_start b.
Proof. unfold year_start. intros. div_lia. Qed.

Lemma year_start_step y :
  year_start (y + 1) = year_start y + if is_leap (y + 1) then 366 else 365.
Proof. unfold year_start, is_leap. repeat case_goal; bool_to_prop; div_lia. Qed.

(** A March-based date that falls inside its year and its month. *)
Definition march_ok (z y' mp d' : Z) : Prop :=
  year_start y' + month_start mp + d' = z + 719468 /\ z + 719468 < year_start (y' + 1) /\
  0 <= mp <= 11 /\ 0 <= d' <= 30 /\ (mp < 11 -> month_start mp + d' < month_start (mp + 1)) /\
  - 2^52 <= y' <= 2^52.

Lemma month_of_doy doy : 0 <= doy <= 365 ->
  let mp := (5 * doy + 2) / 153 in
  0 <= mp <= 11 /\ 0 <= doy - month_start mp <= 30 /\ (mp < 11 -> doy < month_start (mp + 1)).
Proof. intros Hd mp. subst mp. unfold month_start. div_lia. Qed.

Lemma civil_march z : day_range z ->
  exists y' mp d', march (civil_from_days z) = (y', mp, d') /\ march_ok z y' mp d' /\
    civil_from_days z = (if mp <? 10 then (y', mp + 3, d' + 1) else (y' + 1, mp - 9, d' + 1)).
Proof.
  intros Hz. unfold day_range in Hz. unfold civil_from_days. rewrite w64_small by lia.
  set (z' := z + 719468). set (era := z' / 146097). set (doe := z' - era * 146097).
  assert (0 <= doe <= 146096) as Hdoe by (subst doe era z'; div_lia).
  fold (leap_free doe). destruct (year_of_era doe Hdoe) as (Hy & Hlo & Hhi).
  set (yoe := leap_free doe / 365) in *.
  assert (year_start (yoe + era * 400) = era * 146097 + year_start yoe) as Hys
    by (unfold year_start; div_lia).
  assert (year_start (yoe + era * 400 + 1) = era * 146097 + year_start (yoe + 1)) as Hys1
    by (unfold year_start; div_lia).
  assert (365 * yoe + yoe / 4 - yoe / 100 = year_start yoe) as -> by (unfold year_start; div_lia).
  assert (year_start yoe + 365 <= 146096) as H399 by (unfold year_start; div_lia).
  assert (doe < year_start (yoe + 1)) as Hin.
  { destruct (decide (yoe < 399)); [auto|]. replace yoe with 399 by lia.
    change (doe < 146097). lia. }
  assert (0 <= doe - year_start yoe <= 365) as Hdoy.
  { rewrite year_start_step in Hin. case_hyp Hin; lia. }
  destruct (month_of_doy _ Hdoy) as (Hmp & Hd & Hm). cbv zeta.
  set (mp := (5 * (doe - year_start yoe) + 2) / 153) in *. fold (month_start mp).
  assert (- 2^45 <= era <= 2^45) as Hera by (subst era z'; div_lia).
  assert (march_ok z (yoe + era * 400) mp (doe - year_start yoe - month_start mp)) as Hok.
  { unfold march_ok. rewrite Hys, Hys1. subst doe. split_and!; lia. }
  exists (yoe + era * 400), mp, (doe - year_start yoe - month_start mp).
  rewrite !wrap_u_small by (repeat case_goal; bool_to_prop; lia).
  unfold march.
  destruct (mp <? 10) eqn:E; bool_to_prop; repeat case_goal; bool_to_prop; try lia;
    split_and!; try done; (f_equal; [f_equal|]; lia).
Qed.

(** [days_from_civil] inverts [civil_from_days]. *)
Lemma days_civil z : day_range z ->
  let '(y, m, d) := civil_from_days z in days_from_civil y m d = z.
Proof.
  intros Hz. destruct (civil_march z Hz) as (y' & mp & d' & Hm & (H1 & H2 & H3 & H4 & H5 & H6) & Hc).
  pose proof (days_from_civil_closed (civil_from_days z)) as Hd. rewrite Hm in Hd. rewrite Hc in *.
  destruct (mp <? 10) eqn:E; bool_to_prop; (rewrite Hd; [lia|split_and!; lia]).
Qed.

(** Month lengths, in the March-based year. *)
Lemma month_cases (P : Z -> Prop) :
  P 0 -> P 1 -> P 2 -> P 3 -> P 4 -> P 5 -> P 6 -> P 7 -> P 8 -> P 9 -> P 10 -> P 11 ->
  forall mp, 0 <= mp <= 11 -> P mp.
Proof.
  intros. assert (mp = 0 \/ mp = 1 \/ mp = 2 \/ mp = 3 \/ mp = 4 \/ mp = 5 \/ mp = 6 \/ mp = 7 \/
    mp = 8 \/ mp = 9 \/ mp = 10 \/ mp = 11) as Hc by lia.
  naive_solver.
Qed.

(** The calendar date of a March-based one. *)
Definition unmarch (date : Z * Z * Z) : Z * Z * Z :=
  let '(y', mp, d') := date in
  if mp <? 10 then (y', mp + 3, d' + 1) else (y' + 1, mp - 9, d' + 1).

Lemma march_month_len y' mp d' : 0 <= mp <= 11 ->
  let '(y, m, _) := unmarch (y', mp, d') in
  month_len y m = if mp <? 11 then month_start (mp + 1) - month_start mp
                  else year_start (y' + 1) - year_start y' - month_start 11.
Proof.
  intros Hmp. pattern mp.
  eapply month_cases; [reflexivity..| |exact Hmp].
  change (month_len (y' + 1) 2 = year_start (y' + 1) - year_start y' - 337).
  unfold month_len. change (2 =? 2) with true. rewrite year_start_step. case_goal; lia.
Qed.

Lemma civil_valid z : day_range z -> valid_date (civil_from_days z) = true.
Proof.
  intros Hz. destruct (civil_march z Hz) as (y' & mp & d' & Hm & (H1 & H2 & H3 & H4 & H5 & H6) & ->).
  pose proof (march_month_len y' mp d' H3) as Hlen. unfold unmarch in Hlen. revert Hlen.
  destruct (mp <? 10) eqn:E, (mp <? 11) eqn:E'; bool_to_prop; intros Hlen; unfold valid_date;
    try (assert (mp = 11) by lia; subst mp); try lia;
    repeat (apply andb_true_iff; split); apply Z.leb_le; lia.
Qed.

(** Valid dates and March-based dates. *)
Lemma unmarch_march date : unmarch (march date) = date \/ ~ (1 <= date.1.2 <= 12).
Proof.
  destruct date as [[y m] d]; cbn [fst snd].
  destruct (decide (1 <= m <= 12)); [left|by right]. unfold march.
  destruct (m <=? 2) eqn:E; unfold unmarch; bool_to_prop.
  - destruct (m + 9 <? 10) eqn:E'; bool_to_prop; [lia|]. f_equal; [f_equal|]; lia.
  - destruct (m - 3 <? 10) eqn:E'; bool_to_prop; [|lia]. f_equal; [f_equal|]; lia.
Qed.

Lemma march_valid date : valid_date date = true ->
  let '(y', mp, d') := march date in
  date = unmarch (y', mp, d') /\
  0 <= mp <= 11 /\ 0 <= d' /\ (mp < 11 -> month_start mp + d' < month_start (mp + 1)) /\
  year_start y' + month_start mp + d' < year_start (y' + 1).
Proof.
  destruct (unmarch_march date) as [Hu|Hu]; [|destruct date as [[y m] d]; intros Hv; cbn in Hu;
    unfold valid_date in Hv; bool_to_prop; lia].
  destruct (march date) as [[y' mp] d'] eqn:Hm. intros Hv. split; [done|].
  assert (0 <= mp <= 11) as Hmp.
  { destruct date as [[y m] d]. unfold valid_date in Hv. bool_to_prop.
    unfold march in Hm. case_hyp Hm; bool_to_prop; simplify_eq; lia. }
  pose proof (march_month_len y' mp d' Hmp) as Hlen.
  assert (mp < 11 -> month_start (mp + 1) <= 337) as H337 by (intros; unfold month_start; div_lia).
  rewrite <- Hu in Hv. pose proof (year_start_step y') as Hys.
  unfold unmarch in *. clear Hu Hm. revert Hlen Hv.
  destruct (mp <? 10) eqn:E, (mp <? 11) eqn:E'; bool_to_prop; intros Hlen Hv;
    unfold valid_date in Hv; bool_to_prop;
    try (assert (mp = 11) by lia; subst mp); try lia;
    split_and!; try lia; case_hyp Hys; lia.
Qed.

(** A day number has one March-based date. *)
Lemma march_ok_unique z y1 mp1 d1 y2 mp2 d2 :
  march_ok z y1 mp1 d1 -> march_ok z y2 mp2 d2 -> (y1, mp1, d1) = (y2, mp2, d2).
Proof.
  intros (A1 & A2 & A3 & A4 & A5 & A6) (B1 & B2 & B3 & B4 & B5 & B6).
  assert (forall a b, a + 1 <= b -> year_start (a + 1) <= year_start b) as Hy.
  { intros a b Hab. destruct (decide (a + 1 = b)) as [->|]; [lia|].
    pose proof (year_start_gap (a + 1) b). lia. }
  assert (forall a b, a <= b -> month_start a <= month_start b) as Hm
    by (intros; unfold month_start; div_lia).
  assert (forall a, 0 <= a -> 0 <= month_start a) as Hm0 by (intros; unfold month_start; div_lia).
  pose proof (Hm0 mp1). pose proof (Hm0 mp2).
  assert (y1 = y2) as ->.
  { pose proof (Hy y1 y2). pose proof (Hy y2 y1). lia. }
  assert (mp1 = mp2) as ->.
  { pose proof (Hm (mp1 + 1) mp2). pose proof (Hm (mp2 + 1) mp1). lia. }
  f_equal. lia.
Qed.

(** The next day, in the March-based year. *)
Definition next_march (date : Z * Z * Z) : Z * Z * Z :=
  let '(y', mp, d') := date in
  let '(y, m, d) := unmarch date in
  if d <? month_len y m then (y', mp, d' + 1)
  else if mp <? 11 then (y', mp + 1, 0) else (y' + 1, 0, 0).

Lemma next_day_unmarch y' mp d' : 0 <= mp <= 11 ->
  next_day (unmarch (y', mp, d')) = unmarch (next_march (y', mp, d')).
Proof.
  intros Hmp. unfold next_march.
  destruct (unmarch (y', mp, d')) as [[y m] d] eqn:Hu. unfold next_day.
  unfold unmarch in Hu. destruct (mp <? 10) eqn:E; simplify_eq; bool_to_prop;
    case_goal; bool_to_prop; unfold unmarch; repeat (case_goal; bool_to_prop); try lia;
    f_equal; try f_equal; lia.
Qed.

Lemma march_ok_next z y' mp d' : march_ok z y' mp d' -> z < 2^60 ->
  let '(y2, mp2, d2) := next_march (y', mp, d') in march_ok (z + 1) y2 mp2 d2.
Proof.
  intros (A1 & A2 & A3 & A4 & A5 & A6) Hz. pose proof (march_month_len y' mp d' A3) as Hlen.
  assert (y' < 2^52) as Hy.
  { assert (year_start y' < 2^52 * 365) by (unfold month_start in A1; div_lia).
    unfold year_start in *. div_lia. }
  assert (0 <= mp -> 0 <= month_start mp) as Hm0 by (intros; unfold month_start; div_lia).
  pose proof (year_start_step y') as S1. pose proof (year_start_step (y' + 1)) as S2.
  unfold next_march. destruct (unmarch (y', mp, d')) as [[y m] d] eqn:Hu.
  assert (d = d' + 1) as -> by (unfold unmarch in Hu; case_hyp Hu; by simplify_eq).
  assert (month_start (mp + 1) <= month_start mp + 31 /\ month_start (mp + 1) >= month_start mp + 30 /\
          (mp = 11 -> month_start mp = 337)) as (Hm1 & Hm2 & Hm3).
  { split_and!; [unfold month_start; div_lia..|by intros ->]. }
  assert (mp + 1 <= 11 -> mp < 11 -> 0 < month_start (mp + 1 + 1) - month_start (mp + 1))
    by (intros; unfold month_start; div_lia).
  assert (mp < 11 -> month_start (mp + 1) <= 337) by (intros; unfold month_start; div_lia).
  destruct (d' + 1 <? month_len y m) eqn:E; [|destruct (mp <? 11) eqn:E'];
    revert Hlen; destruct (mp <? 11) eqn:E''; intros Hlen; bool_to_prop; try lia;
    unfold march_ok; repeat (case_hyp S1); repeat (case_hyp S2);
    try (assert (mp = 11) by lia; subst mp); change (month_start 0) with 0;
    change (month_start (0 + 1)) with 31; change (month_start 11) with 337 in *;
    split_and!; lia.
Qed.

(** The calendar dates in range. *)
Lemma civil_next z : - 2^60 <= z < 2^60 -> civil_from_days (z + 1) = next_day (civil_from_days z).
Proof.
  intros Hz.
  destruct (civil_march z) as (y1 & mp1 & d1 & _ & H1 & E1); [unfold day_range; lia|].
  destruct (civil_march (z + 1)) as (y2 & mp2 & d2 & _ & H2 & E2); [unfold day_range; lia|].
  change (civil_from_days z = unmarch (y1, mp1, d1)) in E1.
  change (civil_from_days (z + 1) = unmarch (y2, mp2, d2)) in E2.
  rewrite E1, E2, next_day_unmarch by apply H1. f_equal.
  pose proof (march_ok_next _ _ _ _ H1 ltac:(lia)) as Hn.
  destruct (next_march (y1, mp1, d1)) as [[y3 mp3] d3].
  by eapply march_ok_unique.
Qed.

(** A valid date is the date of its day number. *)
Lemma civil_days y m d : valid_date (y, m, d) = true -> - 2^50 <= y <= 2^50 ->
  civil_from_days (days_from_civil y m d) = (y, m, d).
Proof.
  intros Hv Hy. pose proof (march_valid _ Hv) as Hm.
  pose proof (days_from_civil_closed (y, m, d)) as Hd.
  assert (1 <= m <= 12 /\ 1 <= d <= 31) as Hmd.
  { unfold valid_date, month_len in Hv. bool_to_prop. repeat case_hyp H0; lia. }
  specialize (Hd ltac:(unfold date_range; lia)). cbv beta iota in Hd.
  assert (y - 1 <= (march (y, m, d)).1.1 <= y) as Hy' by (unfold march; case_goal; cbn; lia).
  destruct (march (y, m, d)) as [[y' mp] d'] eqn:E. cbn [fst snd] in Hy'.
  destruct Hm as (Hu & H1 & H2 & H3 & H4).
  assert (0 <= month_start mp <= 337) as Hms by (unfold month_start; div_lia).
  assert (month_start mp + d' <= 365) as Hdoy.
  { rewrite year_start_step in H4. case_hyp H4; lia. }
  destruct (civil_march (days_from_civil y m d)) as (y2 & mp2 & d2 & _ & Hok & Hc).
  { unfold day_range. rewrite Hd. unfold year_start. div_lia. }
  change (civil_from_days (days_from_civil y m d) = unmarch (y2, mp2, d2)) in Hc.
  rewrite Hc, Hu. f_equal. eapply march_ok_unique; [exact Hok|].
  assert (d' <= 30) by (unfold march in E; case_hyp E; simplify_eq; lia).
  unfold march_ok. rewrite Hd. split_and!; lia.
Qed.

(** Years before year zero are the days before -719528. *)
Lemma civil_year_sign z : day_range z ->
  let '(y, m, d) := civil_from_days z in (0 <= y <-> -719528 <= z) /\ y <= 2^53 /\
  1 <= m <= 12 /\ 1 <= d <= 31.
Proof.
  intros Hz. destruct (civil_march z Hz) as (y' & mp & d' & _ & (H1 & H2 & H3 & H4 & H5 & H6) & ->).
  assert (0 <= y' -> 0 <= year_start y') by (unfold year_start; div_lia).
  assert (y' <= -2 -> year_start (y' + 1) <= -366) by (unfold year_start; div_lia).
  assert (y' = -1 -> year_start y' = -366) by (intros ->; reflexivity).
  assert (mp < 10 -> month_start (mp + 1) <= 306) by (unfold month_start; div_lia).
  assert (10 <= mp -> 306 <= month_start mp) by (unfold month_start; div_lia).
  assert (0 <= mp -> 0 <= month_start mp) by (unfold month_start; div_lia).
  destruct (mp <? 10) eqn:E; bool_to_prop; lia.
Qed.

(** * Fractions *)

Lemma ndigits_le w n : (1 <= w)%nat -> 0 <= n < 10 ^ Z.of_nat w -> (ndigits n <= w)%nat.
Proof.
  unfold ndigits. generalize 40%nat. intros f. revert w n.
  induction f as [|f IH]; intros w n Hw Hn; cbn [ndigits_fuel]; [lia|].
  case_goal; bool_to_prop; [lia|]. destruct w as [|[|w]]; [lia|cbn in Hn; lia|].
  apply le_n_S, IH; [lia|]. rewrite Nat2Z.inj_succ, Z.pow_succ_r in Hn by lia.
  split; [apply Z.div_pos; lia|apply Z.div_lt_upper_bound; lia].
Qed.

Lemma fmt_pad_digits w n : (1 <= w)%nat -> 0 <= n < 10 ^ Z.of_nat w -> fmt_pad w n = dec_digits w n.
Proof.
  intros Hw Hn. pose proof (ndigits_le w n Hw Hn). unfold fmt_pad.
  replace (n <? 0) with false by lia. f_equal. lia.
Qed.

Lemma zeros_digits n : str_forallb is_digit (zeros n) = true.
Proof. by induction n. Qed.

Lemma parse_zeros n acc : parse_digits (zeros n) acc = Some (acc * 10 ^ Z.of_nat n).
Proof.
  revert acc. induction n as [|n IH]; intros acc; [cbn; f_equal; lia|].
  change (parse_digits (zeros (S n)) acc) with (parse_digits (zeros n) (acc * 10 + (code "0" - 48))).
  rewrite IH, Nat2Z.inj_succ, Z.pow_succ_r by lia. f_equal. change (code "0") with 48. lia.
Qed.

Lemma parse_fraction_pad w k : (1 <= w <= 9)%nat -> 0 <= k < 10 ^ Z.of_nat w ->
  parse_fraction (fmt_pad w k) = Ok (k * 10 ^ (9 - Z.of_nat w)).
Proof.
  intros Hw Hk. rewrite fmt_pad_digits by lia. unfold parse_fraction.
  assert (String.length (dec_digits w k) = w) as ->
    by (pose proof (dec_digits_len w k); unfold str_len in *; lia).
  destruct (String.eqb_spec (dec_digits w k) "") as [E|_];
    [by apply dec_digits_nonempty in E; [|lia]|].
  replace (9 <? w)%nat with false by (symmetry; apply Nat.ltb_ge; lia). cbn [orb].
  assert (10 ^ 9 = 10 ^ Z.of_nat w * 10 ^ (9 - Z.of_nat w)) as Hp
    by (rewrite <- Z.pow_add_r by lia; f_equal; lia).
  assert (0 < 10 ^ (9 - Z.of_nat w)) by (apply Z.pow_pos_nonneg; lia).
  unfold parse_i32. erewrite parse_int_digits; [reflexivity| | | |].
  - by rewrite str_forallb_app, dec_digits_all, zeros_digits.
  - intros E. apply (f_equal str_len) in E. rewrite str_len_app, dec_digits_len in E.
    unfold str_len in E; cbn in E. lia.
  - rewrite parse_digits_app by apply dec_digits_all. rewrite parse_dec_digits by lia.
    cbn [mbind option_bind]. rewrite parse_zeros. f_equal.
    replace (Z.of_nat (9 - w)) with (9 - Z.of_nat w) by lia. lia.
  - unfold i32_min, i32_max. change (10 ^ 9) with 1000000000 in Hp. nia.
Qed.

(** The 3, 6 or 9 digits of a fraction, shared by the two printers. *)
Definition frac_digits (n : Z) : string :=
  if n mod 1000000 =? 0 then fmt_pad 3 (n / 1000000)
  else if n mod 1000 =? 0 then fmt_pad 6 (n / 1000) else fmt_pad 9 n.

Lemma parse_frac_digits n : 0 <= n < 1000000000 -> parse_fraction (frac_digits n) = Ok n.
Proof.
  intros Hn. unfold frac_digits. repeat case_goal; bool_to_prop;
    (rewrite parse_fraction_pad; [f_equal|lia|]); cbn [Z.of_nat]; div_lia.
Qed.

Lemma frac_digits_free c n : 0 <= n -> is_digit c = false -> free_of c (frac_digits n).
Proof.
  intros Hn Hc. unfold frac_digits. repeat case_goal; apply fmt_pad_free_nonneg; try done; div_lia.
Qed.

Lemma format_fraction_digits n : 0 <= n -> format_fraction n = "." +:+ frac_digits n.
Proof.
  intros Hn. unfold format_fraction, frac_digits. rewrite !Z.rem_mod_nonneg by lia.
  repeat case_goal; simplify_eq; rewrite Z.quot_div_nonneg by lia; try done. by rewrite Z.div_1_r.
Qed.

(** * Round trips *)

(** The text of a timestamp, piece by piece. *)
Lemma split_on_three c a b d :
  free_of c a -> free_of c b -> free_of c d ->
  split_on c (a +:+ String c (b +:+ String c d)) = [a; b; d].
Proof. intros. rewrite !split_on_app by done. by rewrite split_on_free. Qed.

Lemma parse_clock hh mm ss n :
  0 <= hh < 24 -> 0 <= mm < 60 -> 0 <= ss < 60 -> 0 <= n < 1000000000 ->
  let secs := fmt_pad 2 ss +:+ (if n =? 0 then "" else format_fraction n) in
  free_of ":" secs /\ free_of "Z" secs /\
  match split_once "." secs with
  | Some (s, frac) => n ← parse_fraction frac; Ok (s, n)
  | None => Ok (secs, 0)
  end = Ok (E := string) (fmt_pad 2 ss, n).
Proof.
  intros ??? Hn secs. subst secs. destruct (Z.eqb_spec n 0) as [->|Hz].
  - rewrite str_app_nil_r. split_and!; [auto with lk..|].
    by rewrite split_once_None by auto with lk.
  - rewrite format_fraction_digits by lia. cbn [String.append].
    split_and!; try (apply free_of_app; split; [by apply fmt_pad_free_nonneg; [lia|]|];
      apply free_of_cons; split; [done|]; by apply frac_digits_free; [lia|]).
    rewrite split_once_app by (apply fmt_pad_free_nonneg; [lia|done]).
    by rewrite parse_frac_digits by lia.
Qed.

Lemma parse_i64_pad w n : 0 <= n <= 2^62 -> parse_i64 (fmt_pad w n) = Some n.
Proof. intros. unfold parse_i64. apply parse_fmt_pad; unfold i64_min, i64_max; lia. Qed.

(** The offset of a printed time. *)
Lemma split_offset_utc s : free_of "Z" s -> split_offset (s +:+ "Z") = (s, Some "Z").
Proof. intros H. unfold split_offset. by rewrite strip_suffix_char. Qed.

(** A printed date with a negative year has four pieces. *)
Lemma split_negative_date y m d : y < 0 -> 1 <= m -> 1 <= d ->
  exists p, split_on "-" (fmt_pad 4 y +:+ "-" +:+ fmt_pad 2 m +:+ "-" +:+ fmt_pad 2 d) =
            [""; p; fmt_pad 2 m; fmt_pad 2 d].
Proof.
  intros Hy Hm Hd. unfold fmt_pad at 1. replace (y <? 0) with true by lia. cbn [String.append].
  eexists. change (String "-" ?a) with ("" +:+ String "-" a).
  rewrite (split_on_app _ "") by done. rewrite split_on_three; try (by auto with lk).
  - apply fmt_pad_free_nonneg; [lia|done].
  - apply fmt_pad_free_nonneg; [lia|done].
Qed.

(** The local time of day. *)
Lemma time_of_day s :
  let sod := s mod 86400 in
  0 <= sod / 3600 < 24 /\ 0 <= (sod mod 3600) / 60 < 60 /\ 0 <= sod mod 60 < 60 /\
  s / 86400 * 86400 + sod / 3600 * 3600 + (sod mod 3600) / 60 * 60 + sod mod 60 = s.
Proof. intros sod. subst sod. div_lia. Qed.

(** C39: a timestamp survives printing and parsing: for every [i64] number of seconds
    and every nanosecond part, parsing the printed RFC 3339 text gives the timestamp
    back, up to the last representable second; the only instants that do not come back
    are those before year zero, whose text is refused. *)
Theorem timestamp_roundtrip s n :
  i64_min <= s <= i64_max -> 0 <= n < 1000000000 ->
  parse_timestamp (format_timestamp s n) =
    if -62167219200 <=? s then Ok (mkTimestamp s n) else Err "bad date".
Proof.
  intros Hs Hn. unfold i64_min, i64_max in Hs. unfold format_timestamp.
  assert (day_range (s / 86400)) as Hday by (unfold day_range; div_lia).
  pose proof (civil_year_sign _ Hday) as Hyear. pose proof (days_civil _ Hday) as Hdays.
  destruct (civil_from_days (s / 86400)) as [[y m] d]. destruct Hyear as (Hy & Hy' & Hm & Hd).
  destruct (time_of_day s) as (Hhh & Hmm & Hss & Hsum). cbv zeta.
  set (hh := s mod 86400 / 3600) in *. set (mm := s mod 86400 mod 3600 / 60) in *.
  set (ss := s mod 86400 mod 60) in *.
  pose proof (parse_clock hh mm ss n Hhh Hmm Hss Hn) as Hc. cbv zeta in Hc.
  set (frac := if n =? 0 then "" else format_fraction n) in *. destruct Hc as (Hc1 & Hc2 & Hc3).
  set (date := fmt_pad 4 y +:+ "-" +:+ fmt_pad 2 m +:+ "-" +:+ fmt_pad 2 d).
  set (time := fmt_pad 2 hh +:+ String ":" (fmt_pad 2 mm +:+ String ":" (fmt_pad 2 ss +:+ frac))).
  assert (free_of "T" date) as HT.
  { unfold date. rewrite !free_of_app. split_and!; try done; apply fmt_pad_free; done. }
  assert (free_of "Z" time) as HZ.
  { unfold time. rewrite !free_of_app, !free_of_cons, !free_of_app, !free_of_cons.
    split_and!; try done; by apply fmt_pad_free. }
  assert (forall rest, split_once "T" (date +:+ "T" +:+ rest) = Some (date, rest)) as Hsplit
    by (intros; by apply split_once_app).
  unfold parse_timestamp.
  replace (fmt_pad 4 y +:+ _) with (date +:+ "T" +:+ (time +:+ "Z"))
    by (unfold date, time; cbn [String.append]; rewrite !str_app_assoc; cbn [String.append];
        rewrite !str_app_assoc; cbn [String.append]; by rewrite !str_app_assoc).
  rewrite Hsplit. cbn [ok_or mbind Result_bind]. rewrite split_offset_utc by done.
  destruct (Z.leb_spec (-62167219200) s).
  - assert (0 <= y) by (apply Hy; div_lia).
    unfold date. cbn [String.append].
    rewrite split_on_three by (apply fmt_pad_free_nonneg; [lia|done]).
    rewrite !parse_i64_pad by lia. cbn [ok_or mbind Result_bind]. unfold time.
    rewrite split_on_three by first [done|apply fmt_pad_free_nonneg; [lia|done]].
    rewrite !parse_i64_pad by lia. cbn [ok_or mbind Result_bind]. rewrite Hc3.
    cbn [ok_or mbind Result_bind]. rewrite parse_i64_pad by lia.
    cbn [ok_or mbind Result_bind]. change (parse_offset (Some "Z")) with (Ok (E := string) (1, 0)).
    cbn [ok_or mbind Result_bind]. rewrite Hdays. do 2 f_equal. rewrite w64_small; lia.
  - assert (y < 0) by (destruct (Z.lt_ge_cases y 0) as [|Hge]; [done|apply Hy in Hge; div_lia]).
    destruct (split_negative_date y m d) as [p Hp]; [lia..|]. fold date in Hp. by rewrite Hp.
Qed.

Lemma timestamp_roundtrip_witness :
  i64_min <= 1700000000 <= i64_max /\ 0 <= 500000000 < 1000000000 /\
  parse_timestamp (format_timestamp 1700000000 500000000) = Ok (mkTimestamp 1700000000 500000000).
Proof.
  assert (i64_min <= 1700000000 <= i64_max) by done. assert (0 <= 500000000 < 1000000000) by done.
  exact (conj H (conj H0 (timestamp_roundtrip 1700000000 500000000 H H0))).
Defined.

(** The calendar arithmetic is the Gregorian calendar: day 0 is 1970-01-01, every day
    number maps to a valid date, the date of the following day number is the calendar's
    next day (with its leap-year rule), and the two conversions invert each other. *)
Theorem calendar_is_gregorian z y m d :
  - 2^60 <= z < 2^60 -> valid_date (y, m, d) = true -> - 2^50 <= y <= 2^50 ->
  civil_from_days 0 = (1970, 1, 1) /\
  valid_date (civil_from_days z) = true /\
  civil_from_days (z + 1) = next_day (civil_from_days z) /\
  (let '(y', m', d') := civil_from_days z in days_from_civil y' m' d' = z) /\
  civil_from_days (days_from_civil y m d) = (y, m, d).
Proof.
  intros Hz Hv Hy. assert (day_range z) by (unfold day_range; lia).
  split_and!; [done|by apply civil_valid|by apply civil_next|by apply days_civil|by apply civil_days].
Qed.

Lemma calendar_is_gregorian_witness :
  valid_date (2024, 2, 29) = true /\ civil_from_days 19782 = (2024, 2, 29) /\
  civil_from_days (19782 + 1) = next_day (civil_from_days 19782).
Proof.
  split_and!; [done..|].
  refine (proj1 (proj2 (proj2 (calendar_is_gregorian 19782 2024 2 29 _ _ _)))); done.
Defined.

(** A non-negative duration printed without its sign. *)
Lemma strip_prefix_digit s t : str_forallb is_digit s = true -> s <> "" ->
  strip_prefix "-" (s +:+ t) = None.
Proof.
  destruct s as [|c s]; [done|]. intros H _. cbn [str_forallb] in H. apply andb_true_iff in H as [Hc _].
  cbn [String.append strip_prefix]. destruct (Ascii.eqb_spec "-" c) as [<-|]; [done|done].
Qed.

(** What [parse_duration] does after the sign. *)
Definition parse_unsigned (sign : Z) (rest : string) : Result string Duration :=
  rest ← ok_or (strip_suffix "s" rest) "missing 's' suffix";
  '(secs_str, nanos) ← match split_once "." rest with
                       | Some (secs, frac) => n ← parse_fraction frac; Ok (secs, n)
                       | None => Ok (rest, 0)
                       end;
  secs ← ok_or (parse_i64 secs_str) "invalid duration";
  Ok (mkDuration (w64 (sign * secs)) (wrap_s 32 (sign * nanos))).

Lemma parse_unsigned_fmt sign secs n : 0 <= secs <= i64_max -> 0 <= n < 1000000000 ->
  parse_unsigned sign (fmt_dec secs +:+ (if n =? 0 then "" else "." +:+ frac_digits n) +:+ "s") =
  Ok (mkDuration (w64 (sign * secs)) (wrap_s 32 (sign * n))).
Proof.
  intros Hs Hn. unfold parse_unsigned. rewrite <- str_app_assoc.
  assert (forall c, is_digit c = false -> free_of c (fmt_dec secs)) as Hfree
    by (intros; apply fmt_pad_free_nonneg; [lia|done]).
  assert (parse_i64 (fmt_dec secs) = Some secs) as Hp
    by (apply parse_fmt_pad; unfold i64_max, i64_min in *; lia).
  rewrite strip_suffix_char.
  2: { apply free_of_app. split; [by apply Hfree|]. case_goal; [done|].
       apply free_of_cons. split; [done|]. by apply frac_digits_free; [lia|]. }
  cbn [ok_or mbind Result_bind]. destruct (Z.eqb_spec n 0) as [->|].
  - rewrite str_app_nil_r, split_once_None by by apply Hfree. cbn [mbind Result_bind].
    by rewrite Hp.
  - cbn [String.append]. rewrite split_once_app by by apply Hfree.
    rewrite parse_frac_digits by lia. cbn [mbind Result_bind]. by rewrite Hp.
Qed.

Lemma fmt_dec_neg n : n < 0 -> fmt_dec n = "-" +:+ fmt_dec (- n).
Proof.
  intros. unfold fmt_dec, fmt_pad. replace (n <? 0) with true by lia.
  replace (- n <? 0) with false by lia. do 2 f_equal.
Qed.

Lemma format_duration_text s n : - i64_max <= s <= i64_max ->
  (0 <= s /\ 0 <= n \/ s <= 0 /\ n <= 0) ->
  format_duration s n =
    (if (s <? 0) || ((s =? 0) && (n <? 0)) then "-" else "") +:+ fmt_dec (Z.abs s) +:+
    (if Z.abs n =? 0 then "" else "." +:+ frac_digits (Z.abs n)) +:+ "s".
Proof.
  unfold i64_max. intros Hs Hsign. unfold format_duration, frac_digits. rewrite w64_small by lia.
  destruct (Z.eqb_spec n 0) as [->|].
  - cbn [Z.abs Z.eqb String.append]. rewrite andb_false_r, orb_false_r. destruct (Z.ltb_spec s 0).
    + rewrite fmt_dec_neg by done. by rewrite Z.abs_neq by lia.
    + by rewrite Z.abs_eq by lia.
  - destruct (Z.eqb_spec (Z.abs n) 0); [lia|]. by rewrite !str_app_assoc.
Qed.

(** A well-formed duration survives printing and parsing: its sign is written once,
    its fraction with 3, 6 or 9 digits, and parsing restores both parts, whichever sign
    they have. *)
Theorem duration_roundtrip s n :
  - i64_max <= s <= i64_max -> -1000000000 < n < 1000000000 ->
  (0 <= s /\ 0 <= n \/ s <= 0 /\ n <= 0) ->
  parse_duration (format_duration s n) = Ok (mkDuration s n).
Proof.
  intros Hs Hn Hsign. rewrite format_duration_text by done.
  set (body := fmt_dec (Z.abs s) +:+ _).
  assert (strip_prefix "-" body = None) as Hpre.
  { apply strip_prefix_digit; unfold fmt_dec, fmt_pad; replace (Z.abs s <? 0) with false by lia.
    - apply dec_digits_all.
    - apply dec_digits_nonempty. pose proof (ndigits_pos (Z.abs s)). lia. }
  assert (forall sign, parse_unsigned sign body =
    Ok (mkDuration (w64 (sign * Z.abs s)) (wrap_s 32 (sign * Z.abs n)))) as Hbody
    by (intros; apply parse_unsigned_fmt; unfold i64_max in *; lia).
  unfold i64_max in Hs.
  destruct ((s <? 0) || ((s =? 0) && (n <? 0))) eqn:E.
  - assert (s <= 0 /\ n <= 0) by (apply orb_true_iff in E as [?|?]; bool_to_prop; lia).
    transitivity (parse_unsigned (-1) body); [done|].
    rewrite Hbody, w64_small, wrap_s_small by lia. do 2 f_equal; lia.
  - assert (0 <= s /\ 0 <= n) by (apply orb_false_iff in E as [? E]; apply andb_false_iff in E as [?|?];
      bool_to_prop; lia).
    transitivity (parse_unsigned 1 body).
    { unfold parse_duration. change ("" +:+ body) with body. by rewrite Hpre. }
    rewrite Hbody, w64_small, wrap_s_small by lia. do 2 f_equal; lia.
Qed.

Lemma duration_roundtrip_witness :
  format_duration (-3) (-500000000) = "-3.500s" /\
  parse_duration (format_duration (-3) (-500000000)) = Ok (mkDuration (-3) (-500000000)).
Proof. split; [reflexivity|]. apply duration_roundtrip; unfold i64_max; lia. Defined.
