(* ===== verification/SipProto.v ===== *)
(** SIP and egress protobuf messages ([protos/livekit_sip.proto], [protos/livekit_egress.proto],
    [protos/rpc/io.proto]) with the fields the server reads, sets or copies; enums are their
    wire numbers, as the generated Rust types have them. *)
From Stdlib Require Import ZArith Ascii String.
From stdpp Require Import base gmap strings list option.
From S2P Require Import Prelude RustStr Auth Wkt.

Open Scope string_scope.
Open Scope list_scope.
Open Scope Z_scope.

Notation StrMap := (gmap string string).

Record SipMediaConfig := mkMedia {
  md_only_listed_codecs : bool;
  md_codecs : list string;
  md_encryption : option Z;
  md_media_timeout : option Duration;
}.

Record SipInboundTrunkInfo := mkInbound {
  it_sip_trunk_id : string; it_name : string; it_metadata : string;
  it_numbers : list string; it_allowed_addresses : list string; it_allowed_numbers : list string;
  it_auth_username : string; it_auth_password : string; it_auth_realm : string;
  it_headers : StrMap; it_headers_to_attributes : StrMap; it_attributes_to_headers : StrMap;
  it_include_headers : Z;
  it_ringing_timeout : option Duration; it_max_call_duration : option Duration;
  it_krisp_enabled : bool; it_media_encryption : Z; it_media : option SipMediaConfig;
  it_created_at : option Timestamp; it_updated_at : option Timestamp;
}.
Definition inbound_default : SipInboundTrunkInfo :=
  mkInbound "" "" "" [] [] [] "" "" "" ∅ ∅ ∅ 0 None None false 0 None None None.

Record SipOutboundTrunkInfo := mkOutbound {
  ot_sip_trunk_id : string; ot_name : string; ot_metadata : string;
  ot_address : string; ot_destination_country : string; ot_transport : Z;
  ot_numbers : list string;
  ot_auth_username : string; ot_auth_password : string;
  ot_headers : StrMap; ot_headers_to_attributes : StrMap; ot_attributes_to_headers : StrMap;
  ot_include_headers : Z; ot_media_encryption : Z; ot_media : option SipMediaConfig;
  ot_from_host : string;
  ot_created_at : option Timestamp; ot_updated_at : option Timestamp;
}.
Definition outbound_default : SipOutboundTrunkInfo :=
  mkOutbound "" "" "" "" "" 0 [] "" "" ∅ ∅ ∅ 0 0 None "" None None.

(** [SipDispatchRule]'s oneof. *)
Inductive DispatchRule :=
| DispatchRuleDirect (room_name pin : string)
| DispatchRuleIndividual (room_prefix pin : string) (no_randomness : bool)
| DispatchRuleCallee (room_prefix pin : string) (randomize : bool).

(** [sr_rule]: the [rule] message and, inside it, its oneof. *)
Record SipDispatchRuleInfo := mkRule {
  sr_sip_dispatch_rule_id : string;
  sr_rule : option (option DispatchRule);
  sr_trunk_ids : list string;
  sr_hide_phone_number : bool;
  sr_inbound_numbers : list string;
  sr_numbers : list string;
  sr_name : string; sr_metadata : string; sr_attributes : StrMap;
  sr_room_preset : string; sr_room_config : option RoomConfiguration;
  sr_media : option SipMediaConfig; sr_krisp_enabled : bool; sr_media_encryption : Z;
  sr_created_at : option Timestamp; sr_updated_at : option Timestamp;
}.
Definition rule_default : SipDispatchRuleInfo :=
  mkRule "" None [] false [] [] "" "" ∅ "" None None false 0 None None.

(** [rule.rule.as_ref().and_then(|r| r.rule.as_ref())]. *)
Definition rule_of (info : SipDispatchRuleInfo) : option DispatchRule := r ← sr_rule info; r.

(** [eg_rest] stands for the fields the storage and reporting code only passes on. *)
Record EgressInfo := mkEgress {
  eg_egress_id : string; eg_room_name : string; eg_status : Z; eg_rest : string;
}.
Definition egress_default : EgressInfo := mkEgress "" "" 0 "".

Record SipUri := mkUri { uri_user : string; uri_host : string }.

Record SipCall := mkCall {
  ca_lk_call_id : string; ca_source_ip : string;
  ca_address : option SipUri; ca_from : option SipUri; ca_to : option SipUri;
}.

Record GetSipTrunkAuthenticationRequest := mkAuthReq {
  aq_sip_call_id : string; aq_from : string; aq_from_host : string;
  aq_to : string; aq_to_host : string; aq_src_address : string; aq_call : option SipCall;
}.

Record ProviderInfo := mkProvider { pv_id : string; pv_name : string; pv_type : Z }.

Record GetSipTrunkAuthenticationResponse := mkAuthResp {
  ar_username : string; ar_password : string; ar_realm : string; ar_sip_trunk_id : string;
  ar_provider_info : option ProviderInfo;
}.

Record EvaluateSipDispatchRulesRequest := mkEvalReq {
  eq_sip_call_id : string; eq_sip_trunk_id : string;
  eq_calling_number : string; eq_calling_host : string;
  eq_called_number : string; eq_called_host : string; eq_src_address : string;
  eq_pin : string; eq_no_pin : bool; eq_extra_attributes : StrMap; eq_call : option SipCall;
}.

(** [SIPDispatchResult]. *)
Definition ACCEPT : Z := 1.
Definition REQUEST_PIN : Z := 2.
Definition DROP : Z := 4.

Record EvaluateSipDispatchRulesResponse := mkEvalResp {
  er_room_name : string; er_participant_identity : string; er_participant_name : string;
  er_participant_metadata : string; er_participant_attributes : StrMap;
  er_request_pin : bool; er_result : Z;
  er_sip_trunk_id : string; er_sip_dispatch_rule_id : string;
  er_headers : StrMap; er_headers_to_attributes : StrMap; er_attributes_to_headers : StrMap;
  er_include_headers : Z; er_enabled_features : list Z;
  er_ringing_timeout : option Duration; er_max_call_duration : option Duration;
  er_room_preset : string; er_room_config : option RoomConfiguration;
  er_media_encryption : Z; er_media : option SipMediaConfig;
}.
Definition eval_default : EvaluateSipDispatchRulesResponse :=
  mkEvalResp "" "" "" "" ∅ false 0 "" "" ∅ ∅ ∅ 0 [] None None "" None 0 None.
