(* ===== verification/Store.v ===== *)
(** Storage of SIP trunks, dispatch rules and egress state ([crates/lk-server/src/redis_store.rs]).

    The store API is written against a [Backend] of named hashes with its laws; the in-memory
    backend, one flat map with composite keys, is an instance that satisfies them.  The Redis
    backend runs commands of a server and a client library outside the sources: any type with
    the same laws stands for it. *)
From Stdlib Require Import ZArith Lia Ascii String.
From stdpp Require Import base gmap strings list option.
From S2P Require Import Prelude RustStr SipProto.

Open Scope string_scope.
Open Scope list_scope.
Open Scope Z_scope.

Definition KEY_SIP_TRUNK : string := "sip_trunk".
Definition KEY_SIP_INBOUND : string := "sip_inbound_trunk".
Definition KEY_SIP_OUTBOUND : string := "sip_outbound_trunk".
Definition KEY_SIP_DISPATCH : string := "sip_dispatch_rule".
Definition KEY_EGRESS : string := "egress".

(** * The interface of a backend *)

(** Hashes of encoded messages.  Commands can fail with a message; a write also returns the
    state it leaves. *)
Class Backend (B H : Type) := {
  hset : string -> string -> B -> H -> Result string unit * H;
  hget : string -> string -> H -> Result string (option B);
  hdel : string -> string -> H -> Result string unit * H;
  sadd : string -> string -> H -> Result string unit * H;
  hgetall : string -> H -> Result string (list B);
}.

(** [l] lists the values of a partial map, each key once, in some order. *)
Definition lists_view {B} (view : string -> option B) (l : list B) : Prop :=
  exists ids, NoDup ids /\ (forall id, id ∈ ids <-> is_Some (view id)) /\ l ≡ₚ omap view ids.

Lemma lists_view_ext {B} (f g : string -> option B) l :
  (forall id, f id = g id) -> lists_view f l -> lists_view g l.
Proof.
  intros E (ids & Hnd & Hin & Hp). exists ids. split_and!; [done|intros; by rewrite <- E|].
  rewrite Hp. clear Hp Hin Hnd. induction ids as [|i ids IH]; cbn; [done|].
  rewrite E. destruct (g i); [by constructor|done].
Qed.

(** What a backend promises; hash names have no colon.  A failed write may or may not have
    written its own entry and touches no other. *)
Class BackendLaws (B H : Type) `{Backend B H} := {
  hview : H -> string -> string -> option B;
  hget_law key id h r : free_of ":" key -> hget key id h = Ok r -> r = hview h key id;
  hgetall_law key h l : free_of ":" key -> hgetall key h = Ok l -> lists_view (hview h key) l;
  hset_law key id b h h' key' id' : free_of ":" key -> free_of ":" key' ->
    hset key id b h = (Ok (), h') ->
    hview h' key' id' = if decide (key' = key /\ id' = id) then Some b else hview h key' id';
  hset_err_law key id b h e h' key' id' : free_of ":" key -> free_of ":" key' ->
    hset key id b h = (Err e, h') ->
    hview h' key' id' = hview h key' id' \/ key' = key /\ id' = id /\ hview h' key' id' = Some b;
  hdel_law key id h h' key' id' : free_of ":" key -> free_of ":" key' ->
    hdel key id h = (Ok (), h') ->
    hview h' key' id' = if decide (key' = key /\ id' = id) then None else hview h key' id';
  sadd_law key member h r h' key' id' : free_of ":" key' ->
    sadd key member h = (r, h') -> hview h' key' id' = hview h key' id';
}.

(** * The in-memory backend *)

Module Mem.
Section Memory.
Context {B : Type}.

Record MemoryStore := mkMemory { data : gmap string B }.

Definition composite (key id : string) : string := key +:+ ":" +:+ id.

Definition set (key id : string) (bytes : B) (m : MemoryStore) : MemoryStore :=
  mkMemory (<[composite key id := bytes]> (data m)).
Definition get (key id : string) (m : MemoryStore) : option B := data m !! composite key id.
Definition del (key id : string) (m : MemoryStore) : MemoryStore :=
  mkMemory (delete (composite key id) (data m)).
(** The room set is served from the egress hash itself. *)
Definition mem_sadd (key member : string) (m : MemoryStore) : MemoryStore := m.
Definition list (key : string) (m : MemoryStore) : list B :=
  (filter (fun kv => starts_with (key +:+ ":") kv.1 = true) (map_to_list (data m))).*2.

#[global] Instance memory_backend : Backend B MemoryStore := {|
  hset key id b m := (Ok (), set key id b m);
  hget key id m := Ok (get key id m);
  hdel key id m := (Ok (), del key id m);
  sadd key member m := (Ok (), mem_sadd key member m);
  hgetall key m := Ok (list key m);
|}.

(** Composite keys identify hash and id. *)
Lemma composite_inj key id key' id' :
  free_of ":" key -> free_of ":" key' -> composite key id = composite key' id' ->
  key = key' /\ id = id'.
Proof.
  intros Hk Hk' E. pose proof (split_once_app ":" key id Hk) as H1.
  pose proof (split_once_app ":" key' id' Hk') as H2.
  change (key +:+ String ":" id) with (composite key id) in H1. rewrite E in H1.
  change (key' +:+ String ":" id') with (composite key' id') in H2. rewrite H1 in H2. by simplify_eq.
Qed.

Lemma composite_prefix key k :
  starts_with (key +:+ ":") k = true <-> exists id, k = composite key id.
Proof.
  unfold starts_with, composite. split.
  - destruct (strip_prefix _ _) as [id|] eqn:E; [|done]. apply strip_prefix_Some in E.
    exists id. by rewrite <- str_app_assoc.
  - intros [id ->]. by rewrite <- str_app_assoc, strip_prefix_app.
Qed.

(** Listing by prefix lists the hash. *)
Lemma memory_lists key m : lists_view (fun id => get key id m) (list key m).
Proof.
  unfold list, get. set (l := map_to_list (data m)).
  assert (NoDup l.*1) as Hnd by apply NoDup_fst_map_to_list.
  assert (forall id b, data m !! composite key id = Some b <-> (composite key id, b) ∈ l) as Hin
    by (intros; symmetry; apply elem_of_map_to_list).
  exists (omap (fun kv => strip_prefix (key +:+ ":") kv.1) l). split_and!.
  - clear Hin. induction l as [|[k b] l IH]; [constructor|]. cbn in *.
    apply list.NoDup_cons in Hnd as [Hk Hnd]. destruct (strip_prefix (key +:+ ":") k) as [id|] eqn:E; [|auto].
    apply list.NoDup_cons. split; [|auto]. intros ([k' b'] & Hl & E')%list_elem_of_omap.
    apply strip_prefix_Some in E, E'. cbn in E'. subst. apply Hk.
    apply list_elem_of_fmap. by exists (((key +:+ ":") +:+ id), b').
  - intros id. rewrite list_elem_of_omap. split.
    + intros ([k b] & Hl & E). apply strip_prefix_Some in E. cbn in E. subst.
      exists b. apply Hin. unfold composite. by rewrite <- str_app_assoc.
    + intros [b Hb%Hin]. exists (composite key id, b). split; [done|]. cbn.
      unfold composite. by rewrite <- str_app_assoc, strip_prefix_app.
  - assert (forall kv, kv ∈ l -> data m !! kv.1 = Some kv.2) as Hl
      by (intros [k b] ?; by apply elem_of_map_to_list).
    clear Hnd Hin. induction l as [|[k b] l IH]; [done|].
    rewrite filter_cons. cbn [omap list_omap fst].
    destruct (strip_prefix (key +:+ ":") k) as [id|] eqn:E.
    + rewrite decide_True by (cbn; unfold starts_with; by rewrite E). cbn.
      apply strip_prefix_Some in E. pose proof (Hl (k, b) ltac:(left)) as Hk. cbn in Hk.
      unfold composite at 1. rewrite <- str_app_assoc, <- E, Hk. constructor. apply IH.
      intros kv ?. apply Hl. by right.
    + rewrite decide_False by (cbn; unfold starts_with; by rewrite E). apply IH.
      intros kv ?. apply Hl. by right.
Qed.

#[global] Program Instance memory_laws : BackendLaws B MemoryStore := {|
  hview m key id := get key id m;
|}.
Next Obligation. intros key id h r _ [=]. done. Qed.
Next Obligation. intros key h l _ [= <-]. apply memory_lists. Qed.
Next Obligation.
  intros key id b h h' key' id' Hk Hk' [= <-]. unfold get, set. cbn [data]. case_decide as Hd.
  - destruct Hd as [-> ->]. apply lookup_insert_eq.
  - apply lookup_insert_ne. intros E. apply Hd.
    apply composite_inj in E as [-> ->]; done.
Qed.
Next Obligation. intros key id b h e h' key' id' _ _ [=]. Qed.
Next Obligation.
  intros key id h h' key' id' Hk Hk' [= <-]. unfold get, del. cbn [data]. case_decide as Hd.
  - destruct Hd as [-> ->]. apply lookup_delete_eq.
  - apply lookup_delete_ne. intros E. apply Hd.
    apply composite_inj in E as [-> ->]; done.
Qed.
Next Obligation. intros key member h r h' key' id' _ [= <- <-]. done. Qed.
End Memory.
Arguments MemoryStore B : clear implicits.
End Mem.
Notation MemoryStore := Mem.MemoryStore.

(** * The store API *)

(** The protobuf codec of a message type: what is encoded decodes to itself. *)
Class Message (B A : Type) := {
  encode_to_vec : A -> B;
  msg_decode : B -> option A;
  msg_default : A;
  decode_encode a : msg_decode (encode_to_vec a) = Some a;
}.

Section Api.
Context {B H : Type} `{HB : Backend B H}.
Context `{!Message B SipInboundTrunkInfo, !Message B SipOutboundTrunkInfo,
          !Message B SipDispatchRuleInfo, !Message B EgressInfo}.

(** [bytes.map(|b| decode(b).unwrap_or_default())]. *)
Definition load_with {A} `{!Message B A} (r : Result string (option B)) : Result string (option A) :=
  match r with
  | Ok bytes => Ok ((fun b => default msg_default (msg_decode b)) <$> bytes)
  | Err e => Err e
  end.
(** [bytes.iter().filter_map(|b| decode(b).ok()).collect()]. *)
Definition list_with {A} `{!Message B A} (r : Result string (list B)) :
    Result string (list A) :=
  match r with Ok bytes => Ok (omap msg_decode bytes) | Err e => Err e end.

Definition store_sip_inbound_trunk (t : SipInboundTrunkInfo) (h : H) : Result string unit * H :=
  hset KEY_SIP_INBOUND (it_sip_trunk_id t) (encode_to_vec t) h.
Definition load_sip_inbound_trunk (id : string) (h : H) : Result string (option SipInboundTrunkInfo) :=
  load_with (hget KEY_SIP_INBOUND id h).
Definition list_sip_inbound_trunks (h : H) : Result string (list SipInboundTrunkInfo) :=
  list_with (hgetall KEY_SIP_INBOUND h).

Definition store_sip_outbound_trunk (t : SipOutboundTrunkInfo) (h : H) : Result string unit * H :=
  hset KEY_SIP_OUTBOUND (ot_sip_trunk_id t) (encode_to_vec t) h.
Definition load_sip_outbound_trunk (id : string) (h : H) : Result string (option SipOutboundTrunkInfo) :=
  load_with (hget KEY_SIP_OUTBOUND id h).
Definition list_sip_outbound_trunks (h : H) : Result string (list SipOutboundTrunkInfo) :=
  list_with (hgetall KEY_SIP_OUTBOUND h).

(** A command that runs only when the previous one succeeded. *)
Definition and_then (r : Result string unit * H) (k : H -> Result string unit * H) :
    Result string unit * H :=
  match r with (Ok _, h) => k h | (Err e, h) => (Err e, h) end.

Definition delete_sip_trunk (id : string) (h : H) : Result string unit * H :=
  and_then (hdel KEY_SIP_TRUNK id h) (fun h =>
  and_then (hdel KEY_SIP_INBOUND id h) (fun h => hdel KEY_SIP_OUTBOUND id h)).

Definition store_sip_dispatch_rule (rule : SipDispatchRuleInfo) (h : H) : Result string unit * H :=
  hset KEY_SIP_DISPATCH (sr_sip_dispatch_rule_id rule) (encode_to_vec rule) h.
Definition load_sip_dispatch_rule (id : string) (h : H) : Result string (option SipDispatchRuleInfo) :=
  load_with (hget KEY_SIP_DISPATCH id h).
Definition list_sip_dispatch_rules (h : H) : Result string (list SipDispatchRuleInfo) :=
  list_with (hgetall KEY_SIP_DISPATCH h).
Definition delete_sip_dispatch_rule (id : string) (h : H) : Result string unit * H :=
  hdel KEY_SIP_DISPATCH id h.

Definition store_egress (info : EgressInfo) (h : H) : Result string unit * H :=
  and_then (hset KEY_EGRESS (eg_egress_id info) (encode_to_vec info) h) (fun h =>
  if (eg_room_name info =? "")%string then (Ok (), h)
  else sadd (KEY_EGRESS +:+ ":room:" +:+ eg_room_name info) (eg_egress_id info) h).
Definition load_egress (id : string) (h : H) : Result string (option EgressInfo) :=
  load_with (hget KEY_EGRESS id h).
Definition list_egress (h : H) : Result string (list EgressInfo) :=
  list_with (hgetall KEY_EGRESS h).

(** * What the store means *)

Context `{!BackendLaws B H}.

(** Four independent tables. *)
Record Tables := mkTables {
  tb_inbound : string -> option SipInboundTrunkInfo;
  tb_outbound : string -> option SipOutboundTrunkInfo;
  tb_rules : string -> option SipDispatchRuleInfo;
  tb_egress : string -> option EgressInfo;
}.

(** Equality of tables: the same entries. *)
#[global] Instance tables_equiv : Equiv Tables := fun a b =>
  (forall id, tb_inbound a id = tb_inbound b id) /\ (forall id, tb_outbound a id = tb_outbound b id) /\
  (forall id, tb_rules a id = tb_rules b id) /\ (forall id, tb_egress a id = tb_egress b id).
#[global] Instance tables_equivalence : Equivalence (≡@{Tables}).
Proof.
  split.
  - intros a. by split_and!.
  - intros a b (?&?&?&?). split_and!; intros; by symmetry.
  - intros a b c (?&?&?&?) (?&?&?&?). split_and!; intros; etrans; eauto.
Qed.

Definition tables (h : H) : Tables := mkTables
  (fun id => hview h KEY_SIP_INBOUND id ≫= msg_decode) (fun id => hview h KEY_SIP_OUTBOUND id ≫= msg_decode)
  (fun id => hview h KEY_SIP_DISPATCH id ≫= msg_decode) (fun id => hview h KEY_EGRESS id ≫= msg_decode).

(** Every stored value of a hash decodes. *)
Definition decodable (A : Type) `{!Message B A} (key : string) (h : H) : Prop :=
  forall id b, hview h key id = Some b -> is_Some (msg_decode (A := A) b).
Definition store_wf (h : H) : Prop :=
  decodable SipInboundTrunkInfo KEY_SIP_INBOUND h /\ decodable SipOutboundTrunkInfo KEY_SIP_OUTBOUND h /\
  decodable SipDispatchRuleInfo KEY_SIP_DISPATCH h /\ decodable EgressInfo KEY_EGRESS h.

(** The writing operations and their effect on the tables. *)
Inductive Op :=
| StoreInbound (t : SipInboundTrunkInfo)
| StoreOutbound (t : SipOutboundTrunkInfo)
| DeleteTrunk (id : string)
| StoreRule (r : SipDispatchRuleInfo)
| DeleteRule (id : string)
| StoreEgress (e : EgressInfo).

Definition run (op : Op) : H -> Result string unit * H :=
  match op with
  | StoreInbound t => store_sip_inbound_trunk t
  | StoreOutbound t => store_sip_outbound_trunk t
  | DeleteTrunk id => delete_sip_trunk id
  | StoreRule r => store_sip_dispatch_rule r
  | DeleteRule id => delete_sip_dispatch_rule id
  | StoreEgress e => store_egress e
  end.

Definition upd {A} (f : string -> option A) (id : string) (v : option A) : string -> option A :=
  fun i => if decide (i = id) then v else f i.

Definition spec (op : Op) (t : Tables) : Tables :=
  let '(mkTables i o r e) := t in
  match op with
  | StoreInbound x => mkTables (upd i (it_sip_trunk_id x) (Some x)) o r e
  | StoreOutbound x => mkTables i (upd o (ot_sip_trunk_id x) (Some x)) r e
  | DeleteTrunk id => mkTables (upd i id None) (upd o id None) r e
  | StoreRule x => mkTables i o (upd r (sr_sip_dispatch_rule_id x) (Some x)) e
  | DeleteRule id => mkTables i o (upd r id None) e
  | StoreEgress x => mkTables i o r (upd e (eg_egress_id x) (Some x))
  end.

#[global] Instance spec_proper op : Proper ((≡) ==> (≡)) (spec op).
Proof.
  intros [i o r e] [i' o' r' e'] (H1 & H2 & H3 & H4). cbn in *.
  destruct op; split_and!; intros; cbn; unfold upd; try case_decide; auto.
Qed.

(** Writes as updates of single entries of a hash. *)
Definition writes (key id : string) (v : option B) (h h' : H) : Prop :=
  forall key' id', free_of ":" key' ->
    hview h' key' id' = if decide (key' = key /\ id' = id) then v else hview h key' id'.

Lemma hset_writes key id b h h' : free_of ":" key -> hset key id b h = (Ok (), h') ->
  writes key id (Some b) h h'.
Proof. intros Hk E key' id' Hk'. by eapply hset_law. Qed.
Lemma hdel_writes key id h h' : free_of ":" key -> hdel key id h = (Ok (), h') ->
  writes key id None h h'.
Proof. intros Hk E key' id' Hk'. by eapply hdel_law. Qed.

Lemma writes_decodable `{!Message B A} key0 key id v h h' : free_of ":" key0 ->
  writes key id v h h' -> (key0 = key -> forall b, v = Some b -> is_Some (msg_decode (A := A) b)) ->
  decodable A key0 h -> decodable A key0 h'.
Proof.
  intros Hk Hw Hv Hd i b Hb. rewrite Hw in Hb by done. case_decide as E; [|by eapply Hd].
  destruct E as [-> ->]. by apply Hv.
Qed.

Lemma writes_view `{!Message B A} key0 key id v h h' i : writes key id v h h' ->
  free_of ":" key0 ->
  hview h' key0 i ≫= msg_decode (A := A) =
  if decide (key0 = key /\ i = id) then v ≫= msg_decode else hview h key0 i ≫= msg_decode.
Proof. intros Hw Hk. rewrite Hw by done. by case_decide. Qed.

Lemma and_then_ok r k h' : and_then r k = (Ok (), h') ->
  exists h, r = (Ok (), h) /\ k h = (Ok (), h').
Proof. destruct r as [[[]|e] h]; cbn; [|done]. eauto. Qed.

Lemma writes_sadd key id v h h1 h' k m :
  writes key id v h h1 -> sadd k m h1 = (Ok (), h') -> writes key id v h h'.
Proof. intros Hw Hs key' id' Hk'. rewrite (sadd_law _ _ _ _ _ _ _ Hk' Hs). by apply Hw. Qed.

(** Every operation that succeeds is a sequence of writes to distinct hashes. *)
Definition run_writes (op : Op) (h h' : H) : Prop :=
  match op with
  | StoreInbound t => writes KEY_SIP_INBOUND (it_sip_trunk_id t) (Some (encode_to_vec t)) h h'
  | StoreOutbound t => writes KEY_SIP_OUTBOUND (ot_sip_trunk_id t) (Some (encode_to_vec t)) h h'
  | DeleteTrunk id => exists h1 h2, writes KEY_SIP_TRUNK id None h h1 /\
      writes KEY_SIP_INBOUND id None h1 h2 /\ writes KEY_SIP_OUTBOUND id None h2 h'
  | StoreRule r => writes KEY_SIP_DISPATCH (sr_sip_dispatch_rule_id r) (Some (encode_to_vec r)) h h'
  | DeleteRule id => writes KEY_SIP_DISPATCH id None h h'
  | StoreEgress e => writes KEY_EGRESS (eg_egress_id e) (Some (encode_to_vec e)) h h'
  end.

Lemma run_ok_writes op h h' : run op h = (Ok (), h') -> run_writes op h h'.
Proof.
  destruct op; cbn [run run_writes];
    try (by apply hset_writes); try (by apply hdel_writes).
  - unfold delete_sip_trunk. intros (h1 & H1 & (h2 & H2 & H3)%and_then_ok)%and_then_ok.
    exists h1, h2. split_and!; by apply hdel_writes.
  - unfold store_egress. intros (h1 & H1 & H2)%and_then_ok. apply hset_writes in H1; [|done].
    case_hyp H2; [by simplify_eq|by eapply writes_sadd].
Qed.

Lemma writes_wf key id v h h' : writes key id v h h' ->
  (key = KEY_SIP_INBOUND -> forall b, v = Some b -> is_Some (msg_decode (A := SipInboundTrunkInfo) b)) ->
  (key = KEY_SIP_OUTBOUND -> forall b, v = Some b -> is_Some (msg_decode (A := SipOutboundTrunkInfo) b)) ->
  (key = KEY_SIP_DISPATCH -> forall b, v = Some b -> is_Some (msg_decode (A := SipDispatchRuleInfo) b)) ->
  (key = KEY_EGRESS -> forall b, v = Some b -> is_Some (msg_decode (A := EgressInfo) b)) ->
  store_wf h -> store_wf h'.
Proof.
  intros Hw H1 H2 H3 H4 (W1 & W2 & W3 & W4).
  split_and!; (eapply writes_decodable; [done|exact Hw| |done]); naive_solver.
Qed.

Ltac solve_wf :=
  eapply writes_wf; [eassumption|..|done];
  intros; simplify_eq; rewrite ?decode_encode; eauto; discriminate.

Lemma run_wf op h h' : store_wf h -> run op h = (Ok (), h') -> store_wf h'.
Proof.
  intros Hwf Hr%run_ok_writes. destruct op; cbn [run_writes] in Hr; try solve_wf.
  destruct Hr as (h1 & h2 & H1 & H2 & H3).
  assert (store_wf h1) by solve_wf. assert (store_wf h2) by solve_wf. solve_wf.
Qed.

Lemma run_tables op h h' : run op h = (Ok (), h') -> tables h' ≡ spec op (tables h).
Proof.
  intros Hr%run_ok_writes. destruct op; cbn [run_writes] in Hr.
  3: { destruct Hr as (h1 & h2 & H1 & H2 & H3). split_and!; intros i; cbn;
       rewrite (writes_view _ _ _ _ _ _ _ H3), (writes_view _ _ _ _ _ _ _ H2),
         (writes_view _ _ _ _ _ _ _ H1) by done;
       unfold upd; repeat case_decide; naive_solver. }
  all: split_and!; intros i; cbn; rewrite (writes_view _ _ _ _ _ _ _ Hr) by done;
    unfold upd; repeat case_decide; cbn; rewrite ?decode_encode; naive_solver.
Qed.

(** A sequence of operations, stopping at the first error. *)
Fixpoint run_all (ops : list Op) (h : H) : Result string unit * H :=
  match ops with [] => (Ok (), h) | op :: ops' => and_then (run op h) (run_all ops') end.

Lemma run_all_tables ops h h' : store_wf h -> run_all ops h = (Ok (), h') ->
  store_wf h' /\ tables h' ≡ foldl (fun t op => spec op t) (tables h) ops.
Proof.
  assert (forall ops t t', t ≡ t' ->
    foldl (fun t op => spec op t) t ops ≡ foldl (fun t op => spec op t) t' ops) as Hf.
  { induction ops0 as [|op ops0 IH]; intros t t' Ht; cbn; [done|]. apply IH. by rewrite Ht. }
  revert h. induction ops as [|op ops IH]; intros h Hwf E; cbn in *; [by simplify_eq|].
  apply and_then_ok in E as (h1 & H1 & H2). apply IH in H2 as [? H2]; [|by eapply run_wf].
  split; [done|]. rewrite H2. apply Hf. by apply run_tables.
Qed.

(** Reads of a well-formed store. *)
Lemma load_with_view `{!Message B A} key id h r : free_of ":" key -> decodable A key h ->
  load_with (hget key id h) = Ok r -> r = hview h key id ≫= msg_decode.
Proof.
  intros Hk Hd. unfold load_with. destruct (hget key id h) as [o|] eqn:E; [|done].
  apply hget_law in E; [|done]. subst o. intros [= <-].
  destruct (hview h key id) as [b|] eqn:E; [|done]. cbn. by destruct (Hd _ _ E) as [a ->].
Qed.

Lemma list_with_view `{!Message B A} key h l : free_of ":" key ->
  list_with (hgetall key h) = Ok l -> decodable A key h ->
  lists_view (fun id => hview h key id ≫= msg_decode (A := A)) l.
Proof.
  intros Hk. unfold list_with. destruct (hgetall key h) as [bs|] eqn:E; [|done]. intros [= <-] Hd.
  destruct (hgetall_law _ _ _ Hk E) as (ids & Hnd & Hin & Hp). exists ids. split_and!; [done|..].
  - intros id. rewrite Hin. split; intros [b Hb]; [|destruct (hview h key id); [eauto|done]].
    rewrite Hb. cbn. by eapply Hd.
  - rewrite Hp. clear. induction ids as [|id ids IH]; cbn; [done|].
    destruct (hview h key id); cbn; [|done]. destruct (msg_decode b); [by constructor|done].
Qed.

(** C31: the store implements four independent tables: after any sequence of successful
    writes, over any backend that keeps its laws, every trunk, dispatch rule or egress that a
    load or a list returns is the one the sequence leaves in its table (stores replace,
    deletes remove, and nothing written to one table shows in another). *)
Theorem store_refines_tables ops h h' : store_wf h -> run_all ops h = (Ok (), h') ->
  let t := foldl (fun t op => spec op t) (tables h) ops in
  store_wf h' /\
  (forall id r, load_sip_inbound_trunk id h' = Ok r -> r = tb_inbound t id) /\
  (forall id r, load_sip_outbound_trunk id h' = Ok r -> r = tb_outbound t id) /\
  (forall id r, load_sip_dispatch_rule id h' = Ok r -> r = tb_rules t id) /\
  (forall id r, load_egress id h' = Ok r -> r = tb_egress t id) /\
  (forall l, list_sip_inbound_trunks h' = Ok l -> lists_view (tb_inbound t) l) /\
  (forall l, list_sip_outbound_trunks h' = Ok l -> lists_view (tb_outbound t) l) /\
  (forall l, list_sip_dispatch_rules h' = Ok l -> lists_view (tb_rules t) l) /\
  (forall l, list_egress h' = Ok l -> lists_view (tb_egress t) l).
Proof.
  intros Hwf Hr t. destruct (run_all_tables _ _ _ Hwf Hr) as [Hwf' (T1 & T2 & T3 & T4)].
  fold t in T1, T2, T3, T4. destruct Hwf' as (W1 & W2 & W3 & W4). cbn in T1, T2, T3, T4.
  split; [done|]. split_and!; intros.
  - rewrite <- T1. by eapply load_with_view.
  - rewrite <- T2. by eapply load_with_view.
  - rewrite <- T3. by eapply load_with_view.
  - rewrite <- T4. by eapply load_with_view.
  - eapply lists_view_ext; [apply T1|by eapply list_with_view].
  - eapply lists_view_ext; [apply T2|by eapply list_with_view].
  - eapply lists_view_ext; [apply T3|by eapply list_with_view].
  - eapply lists_view_ext; [apply T4|by eapply list_with_view].
Qed.
End Api.
Arguments Tables : clear implicits.

(** * A concrete codec *)

(** Encoded messages as a tagged union, for concrete evaluations. *)
Inductive Encoded :=
| EInbound (t : SipInboundTrunkInfo) | EOutbound (t : SipOutboundTrunkInfo)
| ERule (r : SipDispatchRuleInfo) | EEgress (e : EgressInfo) | EEmpty.

#[global] Instance inbound_codec : Message Encoded SipInboundTrunkInfo := {|
  encode_to_vec := EInbound; msg_decode e := match e with EInbound t => Some t | _ => None end;
  msg_default := inbound_default ;
  decode_encode a := eq_refl |}.
#[global] Instance outbound_codec : Message Encoded SipOutboundTrunkInfo := {|
  encode_to_vec := EOutbound; msg_decode e := match e with EOutbound t => Some t | _ => None end;
  msg_default := outbound_default ;
  decode_encode a := eq_refl |}.
#[global] Instance rule_codec : Message Encoded SipDispatchRuleInfo := {|
  encode_to_vec := ERule; msg_decode e := match e with ERule t => Some t | _ => None end;
  msg_default := rule_default ;
  decode_encode a := eq_refl |}.
#[global] Instance egress_codec : Message Encoded EgressInfo := {|
  encode_to_vec := EEgress; msg_decode e := match e with EEgress t => Some t | _ => None end;
  msg_default := egress_default ;
  decode_encode a := eq_refl |}.

#[global] Instance empty_codec : Message Encoded unit := {|
  encode_to_vec _ := EEmpty; msg_decode e := match e with EEmpty => Some tt | _ => None end;
  msg_default := tt ;
  decode_encode a := match a with tt => eq_refl end |}.

Definition empty_memory : MemoryStore Encoded := Mem.mkMemory ∅.

Lemma empty_memory_wf : store_wf (B := Encoded) empty_memory.
Proof. split_and!; intros id b Hb; unfold hview, Mem.get in Hb; cbn in Hb; by rewrite lookup_empty in Hb. Qed.

Module StoreDemo.
Definition ops : list Op :=
  [StoreEgress (mkEgress "EG_1" "room" 0 ""); StoreEgress (mkEgress "EG_2" "" 0 "");
   StoreEgress (mkEgress "EG_1" "room" 3 "")].
Definition final : MemoryStore Encoded := (run_all (B := Encoded) ops empty_memory).2.
End StoreDemo.

Lemma store_refines_tables_witness :
  run_all (B := Encoded) StoreDemo.ops empty_memory = (Ok (), StoreDemo.final) /\
  load_egress (B := Encoded) "EG_1" StoreDemo.final = Ok (Some (mkEgress "EG_1" "room" 3 "")) /\
  (forall l, list_egress (B := Encoded) StoreDemo.final = Ok l ->
     lists_view (tb_egress (foldl (fun t op => spec op t) (tables (B := Encoded) empty_memory) StoreDemo.ops)) l).
Proof.
  split; [reflexivity|]. split; [vm_compute; reflexivity|].
  apply (store_refines_tables (B := Encoded) StoreDemo.ops empty_memory StoreDemo.final);
    [apply empty_memory_wf|reflexivity].
Defined.
