(* ===== verification/IpAddr.v ===== *)
(** [std::net::IpAddr] and its text parser, as the standard library has it: dotted IPv4
    without leading zeros, and IPv6 groups with [::] and an embedded IPv4 tail. *)
From Stdlib Require Import ZArith Lia Ascii String.
From stdpp Require Import base strings list option.
From S2P Require Import Prelude RustStr.

Open Scope string_scope.
Open Scope list_scope.
Open Scope Z_scope.

Inductive IpAddr :=
| V4 (octets : list Z)
| V6 (segments : list Z).

#[global] Instance IpAddr_eq : EqDecision IpAddr.
Proof. solve_decision. Defined.

(** A parser reads a prefix and returns what is left; [None] reads nothing. *)
Definition Parser (A : Type) : Type := string -> option (A * string).

Definition read_given_char (c : ascii) : Parser unit := fun s =>
  match s with
  | String d s' => if Ascii.eqb d c then Some ((), s') else None
  | "" => None
  end.

(** [read_separator]: the separator before every item but the first. *)
Definition read_separator {A} (sep : ascii) (index : nat) (inner : Parser A) : Parser A := fun s =>
  match index with
  | O => inner s
  | S _ => '(_, s') ← read_given_char sep s; inner s'
  end.

Definition digit_value (radix : Z) (c : ascii) : option Z :=
  let v := if is_digit c then code c - 48
           else if is_lower c then code c - 87
           else if is_upper c then code c - 55
           else radix in
  if v <? radix then Some v else None.

(** The digits of a number: value, count and rest; more than [max_digits] digits or a value
    above [hi] fail. *)
Fixpoint read_digits (radix hi max_digits : Z) (s : string) (acc count : Z) : option (Z * Z * string) :=
  match s with
  | String c s' =>
      match digit_value radix c with
      | Some d =>
          let acc := acc * radix + d in
          if (hi <? acc) || (max_digits <? count + 1) then None
          else read_digits radix hi max_digits s' acc (count + 1)
      | None => Some (acc, count, s)
      end
  | "" => Some (acc, count, s)
  end.

Definition read_number (radix hi max_digits : Z) (allow_zero_prefix : bool) : Parser Z := fun s =>
  let has_leading_zero := starts_with "0" s in
  '(v, count, rest) ← read_digits radix hi max_digits s 0 0;
  if count =? 0 then None
  else if negb allow_zero_prefix && has_leading_zero && (1 <? count) then None
  else Some (v, rest).

Definition read_octet : Parser Z := read_number 10 255 3 false.

Definition read_ipv4_addr : Parser (list Z) := fun s =>
  '(a, s) ← read_separator "." 0 read_octet s;
  '(b, s) ← read_separator "." 1 read_octet s;
  '(c, s) ← read_separator "." 2 read_octet s;
  '(d, s) ← read_separator "." 3 read_octet s;
  Some ([a; b; c; d], s).

(** [read_groups] from group [i], [n] slots left: the groups read, whether they end in an
    IPv4 address, and the rest. *)
Fixpoint read_groups (n i : nat) (s : string) : list Z * bool * string :=
  match n with
  | O => ([], false, s)
  | S n' =>
      let ipv4 := match n' with O => None | S _ => read_separator ":" i read_ipv4_addr s end in
      match ipv4 with
      | Some ([a; b; c; d], s') => ([a * 256 + b; c * 256 + d], true, s')
      | _ =>
          match read_separator ":" i (read_number 16 65535 4 true) s with
          | Some (g, s') => let '(gs, v4, rest) := read_groups n' (S i) s' in (g :: gs, v4, rest)
          | None => ([], false, s)
          end
      end
  end.

Definition read_ipv6_addr : Parser (list Z) := fun s =>
  let '(head, head_ipv4, s1) := read_groups 8 0 s in
  if (length head =? 8)%nat then Some (head, s1)
  else if head_ipv4 then None
  else
    '(_, s2) ← read_given_char ":" s1;
    '(_, s3) ← read_given_char ":" s2;
    let '(tail, _, rest) := read_groups (8 - (length head + 1)) 0 s3 in
    Some (head ++ replicate (8 - length head - length tail) 0 ++ tail, rest).

Definition read_ip_addr : Parser IpAddr := fun s =>
  match read_ipv4_addr s with
  | Some (o, rest) => Some (V4 o, rest)
  | None => '(g, rest) ← read_ipv6_addr s; Some (V6 g, rest)
  end.

(** [s.parse::<IpAddr>().ok()]: the whole text is an address. *)
Definition parse_ip (s : string) : option IpAddr :=
  '(ip, rest) ← read_ip_addr s; if (rest =? "")%string then Some ip else None.

Example parse_v4 : parse_ip "10.1.2.3" = Some (V4 [10; 1; 2; 3]). Proof. reflexivity. Qed.
Example parse_v4_zero : parse_ip "10.01.2.3" = None. Proof. reflexivity. Qed.
Example parse_v6 : parse_ip "2001:db8::1" = Some (V6 [8193; 3512; 0; 0; 0; 0; 0; 1]).
Proof. reflexivity. Qed.
Example parse_v6_mapped : parse_ip "::ffff:1.2.3.4" = Some (V6 [0; 0; 0; 0; 0; 65535; 258; 772]).
Proof. reflexivity. Qed.
Example parse_v6_bracket : parse_ip "[::1]" = None. Proof. reflexivity. Qed.
Example parse_v6_any : parse_ip "::" = Some (V6 [0; 0; 0; 0; 0; 0; 0; 0]). Proof. reflexivity. Qed.
