(* ===== verification/Sip.v ===== *)
(** Inbound SIP calls ([crates/lk-server/src/ioservice.rs]): trunk authentication, dispatch-rule
    matching and evaluation, and the egress reports that drive webhooks.  The handlers read and
    write through the store API, over any backend. *)
From Stdlib Require Import ZArith Lia Ascii String.
From stdpp Require Import base gmap strings list option.
From S2P Require Import Prelude RustStr Proto Wkt SipProto Store IpAddr.

Open Scope string_scope.
Open Scope list_scope.
Open Scope Z_scope.

Definition ATTR_SIP_CALL_ID : string := "sip.callID".
Definition ATTR_SIP_TRUNK_ID : string := "sip.trunkID".
Definition ATTR_SIP_RULE_ID : string := "sip.ruleID".
Definition ATTR_SIP_PHONE_NUMBER : string := "sip.phoneNumber".
Definition ATTR_SIP_HOST_NAME : string := "sip.hostname".
Definition ATTR_SIP_TRUNK_NUMBER : string := "sip.trunkPhoneNumber".
Definition ERR_NO_DISPATCH_MATCHED : string := "no dispatch rules matched the call".

(** * The call *)

Definition sip_uri (user host : string) : SipUri := mkUri user host.

Definition strip_port (addr : string) : string :=
  match rsplit_once ":" addr with
  | Some (host, port) => if str_forallb is_digit port then host else addr
  | None => addr
  end.

Definition sip_call_from_auth (req : GetSipTrunkAuthenticationRequest) : SipCall :=
  match aq_call req with
  | Some call => call
  | None =>
      let to := sip_uri (aq_to req) (aq_to_host req) in
      mkCall (aq_sip_call_id req) (strip_port (aq_src_address req)) (Some to)
             (Some (sip_uri (aq_from req) (aq_from_host req))) (Some to)
  end.

Definition sip_call_from_dispatch (req : EvaluateSipDispatchRulesRequest) : SipCall :=
  match eq_call req with
  | Some call => call
  | None =>
      let to := sip_uri (eq_called_number req) (eq_called_host req) in
      mkCall (eq_sip_call_id req) (strip_port (eq_src_address req)) (Some to)
             (Some (sip_uri (eq_calling_number req) (eq_calling_host req))) (Some to)
  end.

(** [uri.as_ref().map(|u| u.user.clone()).unwrap_or_default()]. *)
Definition user_of (u : option SipUri) : string := default "" (uri_user <$> u).
Definition host_of (u : option SipUri) : string := default "" (uri_host <$> u).

(** * Trunk matching *)

Definition normalize_number (num : string) : string :=
  if (num =? "")%string then ""
  else if negb (str_forallb (fun c => is_digit c || contains_char c "+- ()") num) then num
  else
    let cleaned := str_filter (fun c => negb (contains_char c " -()")) num in
    if starts_with "+" cleaned then cleaned else "+" +:+ cleaned.

Definition match_numbers (num : string) (allowed : list string) : bool :=
  match allowed with
  | [] => true
  | _ =>
      let norm := normalize_number num in
      existsb (fun a => (num =? a)%string || (norm =? normalize_number a)%string) allowed
  end.

(** The characters a mask may not contain: [( ) + * ; ,], blank, tab, newline, return. *)
Definition mask_forbidden : string :=
  "()+*;, " +:+ String (ascii_of_nat 9) (String (ascii_of_nat 10) (String (ascii_of_nat 13) "")).

Definition is_valid_mask (mask : string) : bool :=
  if negb (str_forallb (fun c => negb (contains_char c mask_forbidden)) mask) then false
  else negb (contains "://" mask).

Section Sip.
(** [ipnet]'s parser and membership test, and the hex form of SHA-256. *)
Variable ipnet_contains : string -> IpAddr -> option bool.
Variable sha256_hex : string -> string.

Definition match_addr_mask (ip : IpAddr) (mask : string) : bool :=
  if negb (contains_char "/" mask) then
    match parse_ip mask with Some e => bool_decide (ip = e) | None => false end
  else default false (ipnet_contains mask ip).

Definition match_addr_masks (addr host : string) (masks : list string) : bool :=
  match parse_ip addr with
  | None => true
  | Some ip =>
      match filter (fun m => is_valid_mask m = true) masks with
      | [] => true
      | valid => existsb (fun m => (m =? host)%string || match_addr_mask ip m) valid
      end
  end.

(** The loop over the trunks. *)
Fixpoint match_trunk_loop (call : SipCall) (to called_norm : string)
    (trunks : list SipInboundTrunkInfo) (selected default_trunk : option SipInboundTrunkInfo)
    (default_cnt : nat) : Result string (option SipInboundTrunkInfo) :=
  match trunks with
  | [] =>
      match selected with
      | Some s => Ok (Some s)
      | None => if (1 <? default_cnt)%nat then Err ("Multiple default SIP Trunks matched for " +:+ to)
                else Ok default_trunk
      end
  | tr :: rest =>
      if negb (match_numbers (user_of (ca_from call)) (it_allowed_numbers tr)) then
        match_trunk_loop call to called_norm rest selected default_trunk default_cnt
      else if negb (match_addr_masks (ca_source_ip call) (host_of (ca_from call)) (it_allowed_addresses tr)) then
        match_trunk_loop call to called_norm rest selected default_trunk default_cnt
      else match it_numbers tr with
           | [] => match_trunk_loop call to called_norm rest selected (Some tr) (S default_cnt)
           | nums =>
               if existsb (fun num => (num =? to)%string || (normalize_number num =? called_norm)%string) nums
               then match selected with
                    | Some _ => Err ("Multiple SIP Trunks matched for " +:+ to)
                    | None => match_trunk_loop call to called_norm rest (Some tr) default_trunk default_cnt
                    end
               else match_trunk_loop call to called_norm rest selected default_trunk default_cnt
           end
  end.

Definition match_trunk (trunks : list SipInboundTrunkInfo) (call : SipCall) :
    Result string (option SipInboundTrunkInfo) :=
  let to := user_of (ca_to call) in
  match_trunk_loop call to (normalize_number to) trunks None None 0.

(** * Dispatch rules *)

(** Room and pin of a rule. *)
Definition get_pin_and_room (info : SipDispatchRuleInfo) : Result string (string * string) :=
  match sr_rule info with
  | None => Err "dispatch rule has no rule"
  | Some (Some (DispatchRuleDirect room pin)) => Ok (room, pin)
  | Some (Some (DispatchRuleIndividual prefix pin _)) => Ok (prefix, pin)
  | Some (Some (DispatchRuleCallee prefix pin _)) => Ok (prefix, pin)
  | Some None => Err "unsupported dispatch rule"
  end.

Definition dispatch_rule_priority (info : SipDispatchRuleInfo) : Z :=
  let base := match rule_of info with
              | Some (DispatchRuleDirect _ pin) => Some (if (pin =? "")%string then 100 else 0)
              | Some (DispatchRuleIndividual _ pin _) => Some (if (pin =? "")%string then 101 else 1)
              | Some (DispatchRuleCallee _ pin _) => Some (if (pin =? "")%string then 102 else 2)
              | None => None
              end in
  match base with
  | None => i32_max
  | Some p =>
      let p := match sr_inbound_numbers info with [] => p + 1000 | _ => p end in
      match sr_numbers info with [] => p + 1000 | _ => p end
  end.

(** [get_pin_and_room(r).map(|r| r.0).unwrap_or_default()]. *)
Definition room_of (info : SipDispatchRuleInfo) : string :=
  match get_pin_and_room info with Ok (room, _) => room | Err _ => "" end.

Definition has_higher_priority (r1 r2 : SipDispatchRuleInfo) : bool :=
  let p1 := dispatch_rule_priority r1 in
  let p2 := dispatch_rule_priority r2 in
  if negb (p1 =? p2) then p1 <? p2
  else match String.compare (room_of r1) (room_of r2) with Lt => true | _ => false end.

Definition str_in (x : string) (l : list string) : bool := existsb (String.eqb x) l.

(** The guards of the matching loop: called and calling numbers, then the pin. *)
Definition rule_skipped (req : EvaluateSipDispatchRulesRequest) (info : SipDispatchRuleInfo) : bool :=
  if match sr_inbound_numbers info with [] => false | ns => negb (str_in (eq_calling_number req) ns) end then true
  else if match sr_numbers info with [] => false | ns => negb (str_in (eq_called_number req) ns) end then true
  else match get_pin_and_room info with
       | Err _ => true
       | Ok (_, rule_pin) =>
           if eq_no_pin req then negb (rule_pin =? "")%string
           else negb (eq_pin req =? "")%string &&
                ((rule_pin =? "")%string || negb (eq_pin req =? rule_pin)%string)
       end.

Definition keep_best (best : option SipDispatchRuleInfo) (info : SipDispatchRuleInfo) : option SipDispatchRuleInfo :=
  match best with
  | None => Some info
  | Some b => if has_higher_priority info b then Some info else Some b
  end.

Fixpoint match_rule_loop (trunk : option SipInboundTrunkInfo) (req : EvaluateSipDispatchRulesRequest)
    (rules : list SipDispatchRuleInfo) (specific : option SipDispatchRuleInfo) (specific_cnt : nat)
    (default_rule : option SipDispatchRuleInfo) (default_cnt : nat) :
    Result string (option SipDispatchRuleInfo) :=
  match rules with
  | [] =>
      if (specific_cnt =? 0)%nat && (default_cnt =? 0)%nat then Err ERR_NO_DISPATCH_MATCHED
      else Ok (match specific with Some s => Some s | None => default_rule end)
  | info :: rest =>
      if rule_skipped req info then
        match_rule_loop trunk req rest specific specific_cnt default_rule default_cnt
      else match sr_trunk_ids info with
           | [] => match_rule_loop trunk req rest specific specific_cnt
                     (keep_best default_rule info) (S default_cnt)
           | ids =>
               match trunk with
               | None => match_rule_loop trunk req rest specific specific_cnt default_rule default_cnt
               | Some t =>
                   if negb (str_in (it_sip_trunk_id t) ids)
                   then match_rule_loop trunk req rest specific specific_cnt default_rule default_cnt
                   else match_rule_loop trunk req rest (keep_best specific info) (S specific_cnt)
                          default_rule default_cnt
               end
           end
  end.

Definition match_dispatch_rule (rules : list SipDispatchRuleInfo) (trunk : option SipInboundTrunkInfo)
    (req : EvaluateSipDispatchRulesRequest) : Result string (option SipDispatchRuleInfo) :=
  match_rule_loop trunk req rules None 0 None 0.

(** * Rule evaluation *)

Definition upgrade_media (media : option SipMediaConfig) (encryption : Z) : option SipMediaConfig :=
  m ← media;
  Some (match md_encryption m with
        | None => if negb (encryption =? 0)
                  then mkMedia (md_only_listed_codecs m) (md_codecs m) (Some encryption) (md_media_timeout m)
                  else m
        | Some _ => m
        end).

Definition merge_media (base other : option SipMediaConfig) : option SipMediaConfig :=
  match base, other with
  | None, o => o
  | Some b, None => Some b
  | Some b, Some o => Some (mkMedia
      (if negb (md_only_listed_codecs b) then md_only_listed_codecs o else md_only_listed_codecs b)
      (match md_codecs b with [] => md_codecs o | c => c end)
      (match md_encryption b with None => md_encryption o | e => e end)
      (match md_media_timeout b with None => md_media_timeout o | t => t end))
  end.

(** Display number, identity and name of the caller; [None] is a panic. *)
Definition caller_names (hide : bool) (from_full : string) : option (string * string * string) :=
  if hide then
    d ← slice_to 8 (sha256_hex from_full);
    let n := if str_len from_full <=? 4 then 1 else 4 in
    from ← slice_from (str_len from_full - n) from_full;
    Some (from, "sip_" +:+ d, "Phone " +:+ from)
  else Some (from_full, "sip_" +:+ from_full, "Phone " +:+ from_full).

(** The room a matched rule leads to; [fresh] is the drawn random id. *)
Definition dispatch_room (rule : SipDispatchRuleInfo) (room from to_full fresh : string) : string :=
  match rule_of rule with
  | Some (DispatchRuleIndividual prefix _ no_randomness) =>
      let room := if (prefix =? "")%string then from else prefix +:+ "_" +:+ from in
      if negb no_randomness then room +:+ "_" +:+ fresh else room
  | Some (DispatchRuleCallee prefix _ randomize) =>
      let room := if (prefix =? "")%string then to_full else prefix +:+ "_" +:+ to_full in
      if (randomize : bool) then room +:+ "_" +:+ fresh else room
  | _ => room
  end.

(** The attributes of the participant. *)
Definition dispatch_attributes (rule : SipDispatchRuleInfo) (req : EvaluateSipDispatchRulesRequest)
    (call : SipCall) (trunk_id : string) : StrMap :=
  let attrs := eq_extra_attributes req ∪ sr_attributes rule in
  let attrs := <[ATTR_SIP_CALL_ID := ca_lk_call_id call]> attrs in
  let attrs := <[ATTR_SIP_TRUNK_ID := trunk_id]> attrs in
  if sr_hide_phone_number rule then attrs
  else <[ATTR_SIP_TRUNK_NUMBER := user_of (ca_to call)]>
       (<[ATTR_SIP_HOST_NAME := host_of (ca_from call)]>
       (<[ATTR_SIP_PHONE_NUMBER := user_of (ca_from call)]> attrs)).

Definition KRISP_ENABLED : Z := 1.

(** [None] is a panic. *)
Definition evaluate_dispatch_rule (trunk : option SipInboundTrunkInfo) (rule : SipDispatchRuleInfo)
    (req : EvaluateSipDispatchRulesRequest) (call : SipCall) (trunk_id fresh : string) :
    option (Result string EvaluateSipDispatchRulesResponse) :=
  let sent_pin := eq_pin req in
  let from_full := user_of (ca_from call) in
  let to_full := user_of (ca_to call) in
  let attrs := dispatch_attributes rule req call trunk_id in
  '(from, from_id, from_name) ← caller_names (sr_hide_phone_number rule) from_full;
  let media := merge_media (t ← trunk; upgrade_media (it_media t) (it_media_encryption t))
                           (upgrade_media (sr_media rule) (sr_media_encryption rule)) in
  let enc := default 0 (m ← media; md_encryption m) in
  Some (
    '(room, rule_pin) ← get_pin_and_room rule;
    if negb (rule_pin =? "")%string && (sent_pin =? "")%string then
      Ok (mkEvalResp "" "" "" "" ∅ true REQUEST_PIN trunk_id (sr_sip_dispatch_rule_id rule)
            ∅ ∅ ∅ 0 [] None None "" None enc media)
    else if negb (rule_pin =? "")%string && negb (rule_pin =? sent_pin)%string then
      Err "Incorrect PIN for SIP room"
    else
      let room := dispatch_room rule room from to_full fresh in
      let attrs := <[ATTR_SIP_RULE_ID := sr_sip_dispatch_rule_id rule]> attrs in
      let krisp := match trunk with Some t => it_krisp_enabled t | None => false end || sr_krisp_enabled rule in
      let features := if krisp then [KRISP_ENABLED] else [] in
      Ok (match trunk with
          | Some t => mkEvalResp room from_id from_name (sr_metadata rule) attrs false ACCEPT trunk_id
              (sr_sip_dispatch_rule_id rule) (it_headers t) (it_headers_to_attributes t)
              (it_attributes_to_headers t) (it_include_headers t) features (it_ringing_timeout t)
              (it_max_call_duration t) (sr_room_preset rule) (sr_room_config rule) enc media
          | None => mkEvalResp room from_id from_name (sr_metadata rule) attrs false ACCEPT trunk_id
              (sr_sip_dispatch_rule_id rule) ∅ ∅ ∅ 0 features None None
              (sr_room_preset rule) (sr_room_config rule) enc media
          end)).

(** * The IOInfoSIP handlers *)

Context {B H : Type} `{HB : Backend B H}.
Context `{!Message B SipInboundTrunkInfo, !Message B SipOutboundTrunkInfo,
          !Message B SipDispatchRuleInfo, !Message B EgressInfo,
          !Message B GetSipTrunkAuthenticationRequest, !Message B GetSipTrunkAuthenticationResponse,
          !Message B EvaluateSipDispatchRulesRequest, !Message B EvaluateSipDispatchRulesResponse,
          !Message B unit}.

(** The trunk named by the request when it admits the call, else a match over all trunks. *)
Definition match_trunk_for (trunk_id : string) (call : SipCall) (h : H) :
    Result string (option SipInboundTrunkInfo) :=
  let all := (trunks ← list_sip_inbound_trunks h; match_trunk trunks call) in
  if (trunk_id =? "")%string then all
  else
    loaded ← load_sip_inbound_trunk trunk_id h;
    match loaded with
    | Some trunk =>
        m ← match_trunk [trunk] call;
        match m with Some _ => Ok (Some trunk) | None => all end
    | None => all
    end.

Definition get_sip_trunk_authentication (req : GetSipTrunkAuthenticationRequest) (h : H) :
    Result string GetSipTrunkAuthenticationResponse :=
  let call := sip_call_from_auth req in
  trunk ← match_trunk_for "" call h;
  match trunk with
  | None => Ok (mkAuthResp "" "" "" "" None)
  | Some t => Ok (mkAuthResp (it_auth_username t) (it_auth_password t) (it_auth_realm t)
                    (it_sip_trunk_id t) (Some (mkProvider (it_sip_trunk_id t) (it_name t) 2)))
  end.

Definition drop_response (trunk_id : string) : EvaluateSipDispatchRulesResponse :=
  mkEvalResp "" "" "" "" ∅ false DROP trunk_id "" ∅ ∅ ∅ 0 [] None None "" None 0 None.

(** [None] is a panic. *)
Definition evaluate_sip_dispatch_rules (req : EvaluateSipDispatchRulesRequest) (fresh : string) (h : H) :
    option (Result string EvaluateSipDispatchRulesResponse) :=
  let call := sip_call_from_dispatch req in
  match match_trunk_for (eq_sip_trunk_id req) call h with
  | Err e => Some (Err e)
  | Ok trunk =>
      let trunk_id := default "" (it_sip_trunk_id <$> trunk) in
      match list_sip_dispatch_rules h with
      | Err e => Some (Err e)
      | Ok rules =>
          match match_dispatch_rule rules trunk req with
          | Ok (Some rule) => evaluate_dispatch_rule trunk rule req call trunk_id fresh
          | Ok None => Some (Ok (drop_response trunk_id))
          | Err e => if (e =? ERR_NO_DISPATCH_MATCHED)%string then Some (Ok (drop_response trunk_id))
                     else Some (Err e)
          end
      end
  end.

(** [RpcError]: code and message. *)
Definition internal (m : string) : string * string := ("internal", m).

(** [decode(raw)?]; the text of prost's error is not modelled. *)
Definition decode_req {A} `{!Message B A} (raw : B) : Result (string * string) A :=
  ok_or (msg_decode raw) (internal "failed to decode").

(** [SipIoHandlers::handle]; [None] is a panic. *)
Definition sip_handle (method : string) (raw : B) (fresh : string) (h : H) :
    option (Result (string * string) B) :=
  if (method =? "GetSIPTrunkAuthentication")%string then
    Some (req ← decode_req raw;
          resp ← map_err internal (get_sip_trunk_authentication req h);
          Ok (encode_to_vec resp))
  else if (method =? "EvaluateSIPDispatchRules")%string then
    match decode_req raw with
    | Err e => Some (Err e)
    | Ok req =>
        r ← evaluate_sip_dispatch_rules req fresh h;
        Some (resp ← map_err internal r; Ok (encode_to_vec resp))
    end
  else if (method =? "UpdateSIPCallState")%string || (method =? "RecordCallContext")%string then
    Some (Ok (encode_to_vec ()))
  else Some (Err (internal ("unknown IOInfoSIP method: " +:+ method))).

(** * The egress reports *)

Inductive EgressEvent :=
| egress_started (info : EgressInfo) | egress_updated (info : EgressInfo) | egress_ended (info : EgressInfo).

(** Store, ended ids and the webhooks sent. *)
Record EgressIo := mkEgressIo { io_store : H; io_ended : gset string; io_webhooks : list EgressEvent }.

Definition terminal (status : Z) : bool :=
  (status =? 3) || (status =? 4) || (status =? 5) || (status =? 6).

Definition notify (ev : EgressEvent) (st : EgressIo) : EgressIo :=
  mkEgressIo (io_store st) (io_ended st) (io_webhooks st ++ [ev]).

(** The two methods on a decoded report. *)
Definition create_egress (info : EgressInfo) (st : EgressIo) : Result (string * string) unit * EgressIo :=
  match load_egress (eg_egress_id info) (io_store st) with
  | Ok (Some _) => (Ok (), st)
  | _ =>
      let '(r, h') := store_egress info (io_store st) in
      let st := mkEgressIo h' (io_ended st) (io_webhooks st) in
      match r with
      | Err e => (Err (internal e), st)
      | Ok _ => (Ok (), notify (egress_started info) st)
      end
  end.

Definition update_egress (info : EgressInfo) (st : EgressIo) : Result (string * string) unit * EgressIo :=
  let '(r, h') := store_egress info (io_store st) in
  let st := mkEgressIo h' (io_ended st) (io_webhooks st) in
  match r with
  | Err e => (Err (internal e), st)
  | Ok _ =>
      if terminal (eg_status info) then
        if bool_decide (eg_egress_id info ∈ io_ended st) then (Ok (), st)
        else (Ok (), notify (egress_ended info)
                       (mkEgressIo (io_store st) ({[eg_egress_id info]} ∪ io_ended st) (io_webhooks st)))
      else (Ok (), notify (egress_updated info) st)
  end.

(** [EgressIoHandlers::handle]. *)
Definition egress_handle (method : string) (raw : B) (st : EgressIo) : Result (string * string) B * EgressIo :=
  if (method =? "CreateEgress")%string || (method =? "UpdateEgress")%string then
    match decode_req (A := EgressInfo) raw with
    | Err e => (Err e, st)
    | Ok info =>
        let '(r, st) := if (method =? "CreateEgress")%string then create_egress info st
                        else update_egress info st in
        (match r with Ok _ => Ok (encode_to_vec ()) | Err e => Err e end, st)
    end
  else (Err (internal ("unknown IOInfo method: " +:+ method)), st).
End Sip.

(** * Trunk matching, as a reference function *)

Section TrunkSpec.
Variable ipnet_contains : string -> IpAddr -> option bool.

(** The trunk accepts the calling number and the source address. *)
Definition trunk_admits (call : SipCall) (tr : SipInboundTrunkInfo) : bool :=
  match_numbers (user_of (ca_from call)) (it_allowed_numbers tr) &&
  match_addr_masks ipnet_contains (ca_source_ip call) (host_of (ca_from call)) (it_allowed_addresses tr).

(** The trunk owns the called number; a trunk without numbers is a default one. *)
Definition owns_number (to : string) (tr : SipInboundTrunkInfo) : bool :=
  existsb (fun num => (num =? to)%string || (normalize_number num =? normalize_number to)%string) (it_numbers tr).
Definition is_default_trunk (tr : SipInboundTrunkInfo) : bool :=
  match it_numbers tr with [] => true | _ => false end.

Definition owners (call : SipCall) : list SipInboundTrunkInfo -> list SipInboundTrunkInfo :=
  filter (fun tr => trunk_admits call tr && owns_number (user_of (ca_to call)) tr = true).
Definition defaults (call : SipCall) : list SipInboundTrunkInfo -> list SipInboundTrunkInfo :=
  filter (fun tr => trunk_admits call tr && is_default_trunk tr = true).

(** The only owner of the called number, or the only default trunk; two candidates conflict. *)
Definition reference_trunk (trunks : list SipInboundTrunkInfo) (call : SipCall) :
    Result string (option SipInboundTrunkInfo) :=
  let to := user_of (ca_to call) in
  match owners call trunks, defaults call trunks with
  | [t], _ => Ok (Some t)
  | _ :: _ :: _, _ => Err ("Multiple SIP Trunks matched for " +:+ to)
  | [], [] => Ok None
  | [], [t] => Ok (Some t)
  | [], _ :: _ :: _ => Err ("Multiple default SIP Trunks matched for " +:+ to)
  end.

Lemma owners_cons call tr trunks : owners call (tr :: trunks) =
  if trunk_admits call tr && owns_number (user_of (ca_to call)) tr then tr :: owners call trunks
  else owners call trunks.
Proof. unfold owners. rewrite filter_cons. by case_decide; case_match. Qed.
Lemma defaults_cons call tr trunks : defaults call (tr :: trunks) =
  if trunk_admits call tr && is_default_trunk tr then tr :: defaults call trunks
  else defaults call trunks.
Proof. unfold defaults. rewrite filter_cons. by case_decide; case_match. Qed.

(** The loop with its accumulators. *)
Lemma match_trunk_loop_spec call trunks sel def cnt :
  let to := user_of (ca_to call) in
  match_trunk_loop ipnet_contains call to (normalize_number to) trunks sel def cnt =
  match sel, owners call trunks with
  | Some _, _ :: _ | None, _ :: _ :: _ => Err ("Multiple SIP Trunks matched for " +:+ to)
  | Some s, [] | None, [s] => Ok (Some s)
  | None, [] =>
      if (1 <? cnt + length (defaults call trunks))%nat
      then Err ("Multiple default SIP Trunks matched for " +:+ to)
      else Ok (match list.last (defaults call trunks) with Some t => Some t | None => def end)
  end.
Proof.
  intros to. revert sel def cnt. induction trunks as [|tr trunks IH]; intros sel def cnt.
  { cbn. rewrite Nat.add_0_r. by destruct sel. }
  cbn [match_trunk_loop]. rewrite owners_cons, defaults_cons. unfold trunk_admits.
  destruct (match_numbers _ _); cbn [negb andb]; [|apply IH].
  destruct (match_addr_masks _ _ _ _); cbn [negb andb]; [|apply IH].
  unfold is_default_trunk, owns_number. fold to. destruct (it_numbers tr) as [|num nums].
  - cbn [existsb]. rewrite IH. destruct sel; [done|].
    destruct (owners call trunks) as [|? [|? ?]]; try done.
    replace (S cnt + length (defaults call trunks))%nat
      with (cnt + length (tr :: defaults call trunks))%nat by (cbn; lia).
    destruct (1 <? _)%nat; [done|]. clear IH. destruct (defaults call trunks) as [|d l]; [done|]. change (list.last (tr :: d :: l)) with (list.last (d :: l)). destruct (list.last (d :: l)) eqn:El; [done|]. by apply last_None in El.
  - destruct (existsb _ _); [|apply IH]. destruct sel; [done|]. rewrite IH.
    by destruct (owners call trunks).
Qed.

Lemma match_trunk_reference trunks call : match_trunk ipnet_contains trunks call = reference_trunk trunks call.
Proof.
  unfold match_trunk, reference_trunk. rewrite match_trunk_loop_spec.
  destruct (owners call trunks) as [|? [|? ?]]; try done.
  by destruct (defaults call trunks) as [|? [|? ?]].
Qed.
End TrunkSpec.

(** * The order of dispatch rules *)

Lemma str_compare_trans a b c : String.compare a b = Lt -> String.compare b c = Lt -> String.compare a c = Lt.
Proof.
  revert b c. induction a as [|x a IH]; intros [|y b] [|z c]; cbn; try done.
  unfold Ascii.compare. intros H1 H2.
  destruct (N.compare_spec (N_of_ascii x) (N_of_ascii y)) as [E1|E1|E1]; [| |done];
    destruct (N.compare_spec (N_of_ascii y) (N_of_ascii z)) as [E2|E2|E2]; try done.
  - rewrite E1, E2, N.compare_refl. by eapply IH.
  - rewrite E1. by apply N.compare_lt_iff in E2 as ->.
  - rewrite <- E2. by apply N.compare_lt_iff in E1 as ->.
  - by assert (N_of_ascii x ?= N_of_ascii z = Lt)%N as -> by (apply N.compare_lt_iff; lia).
Qed.

Lemma str_compare_refl a : String.compare a a = Eq.
Proof. induction a as [|x a IH]; cbn; [done|]. unfold Ascii.compare. by rewrite N.compare_refl. Qed.

Lemma higher_irrefl r : has_higher_priority r r = false.
Proof. unfold has_higher_priority. by rewrite Z.eqb_refl, str_compare_refl. Qed.

Lemma higher_trans a b c :
  has_higher_priority a b = true -> has_higher_priority b c = true -> has_higher_priority a c = true.
Proof.
  unfold has_higher_priority.
  destruct (Z.eqb_spec (dispatch_rule_priority a) (dispatch_rule_priority b)) as [E1|E1]; cbn [negb];
    destruct (Z.eqb_spec (dispatch_rule_priority b) (dispatch_rule_priority c)) as [E2|E2]; cbn [negb];
    destruct (Z.eqb_spec (dispatch_rule_priority a) (dispatch_rule_priority c)) as [E3|E3]; cbn [negb];
    try lia.
  destruct (String.compare (room_of a) (room_of b)) eqn:C1; try done.
  destruct (String.compare (room_of b) (room_of c)) eqn:C2; try done.
  by rewrite (str_compare_trans _ _ _ C1 C2).
Qed.

(** The rule kept by the loop: nothing listed has a higher priority. *)
Definition best_of (b : SipDispatchRuleInfo) (l : list SipDispatchRuleInfo) : Prop :=
  b ∈ l /\ forall r, r ∈ l -> has_higher_priority r b = false.

Lemma keep_best_fold l b0 b : foldl keep_best (Some b0) l = Some b ->
  (b = b0 \/ b ∈ l /\ has_higher_priority b b0 = true) /\
  (forall r, r ∈ l -> has_higher_priority r b = false).
Proof.
  revert b0. induction l as [|x l IH]; intros b0 E; cbn in *.
  { simplify_eq. split; [by left|]. intros r Hr. by apply not_elem_of_nil in Hr. }
  destruct (has_higher_priority x b0) eqn:Hx; apply IH in E as [H1 H2].
  - split.
    + right. destruct H1 as [->|[? H1]]; [by split; [left|]|]. split; [by right|].
      by eapply higher_trans.
    + intros r [->|Hr]%elem_of_cons; [|auto]. destruct H1 as [->|[_ H1]]; [apply higher_irrefl|].
      apply not_true_is_false. intros H3. pose proof (higher_trans _ _ _ H3 H1) as H4.
      by rewrite higher_irrefl in H4.
  - split; [naive_solver set_solver|].
    intros r [->|Hr]%elem_of_cons; [|auto]. destruct H1 as [->|[_ H1]]; [done|].
    apply not_true_is_false. intros H3. by rewrite (higher_trans _ _ _ H3 H1) in Hx.
Qed.

Lemma keep_best_some l b0 : is_Some (foldl keep_best (Some b0) l).
Proof.
  revert b0; induction l as [|x l IH]; intros b0; cbn; [eauto|]. destruct (has_higher_priority _ _); apply IH.
Qed.

Lemma keep_best_best l : match foldl keep_best None l with Some b => best_of b l | None => l = [] end.
Proof.
  destruct l as [|x l]; [done|]. cbn [foldl keep_best].
  destruct (keep_best_some l x) as [b Hb]. rewrite Hb. destruct (keep_best_fold _ _ _ Hb) as [H1 H2].
  split; [destruct H1 as [->|[? _]]; [left|by right]|].
  intros r [->|Hr]%elem_of_cons; [|auto]. destruct H1 as [->|[_ H1]]; [apply higher_irrefl|].
  apply not_true_is_false. intros H3. pose proof (higher_trans _ _ _ H3 H1) as H4.
  by rewrite higher_irrefl in H4.
Qed.

(** * Rule matching *)

(** Rules the call may use, bound to its trunk or to no trunk. *)
Definition specific_rule (trunk : option SipInboundTrunkInfo) (req : EvaluateSipDispatchRulesRequest)
    (info : SipDispatchRuleInfo) : bool :=
  negb (rule_skipped req info) &&
  match sr_trunk_ids info, trunk with
  | [], _ | _, None => false
  | ids, Some t => str_in (it_sip_trunk_id t) ids
  end.
Definition default_rule (req : EvaluateSipDispatchRulesRequest) (info : SipDispatchRuleInfo) : bool :=
  negb (rule_skipped req info) && match sr_trunk_ids info with [] => true | _ => false end.

Lemma match_rule_loop_spec trunk req rules sp sc df dc :
  let S := filter (fun r => specific_rule trunk req r = true) rules in
  let D := filter (fun r => default_rule req r = true) rules in
  match_rule_loop trunk req rules sp sc df dc =
  if (sc + length S =? 0)%nat && (dc + length D =? 0)%nat then Err ERR_NO_DISPATCH_MATCHED
  else Ok (match foldl keep_best sp S with Some s => Some s | None => foldl keep_best df D end).
Proof.
  revert sp sc df dc. induction rules as [|info rules IH]; intros sp sc df dc.
  { cbn. by rewrite !Nat.add_0_r. }
  cbn [match_rule_loop]. rewrite !filter_cons.
  assert (default_rule req info = true -> specific_rule trunk req info = false) as Hex.
  { unfold default_rule, specific_rule. destruct (rule_skipped req info), (sr_trunk_ids info); done. }
  destruct (rule_skipped req info) eqn:Hs; [|destruct (sr_trunk_ids info) as [|i ids] eqn:Ht].
  - rewrite (decide_False (P := specific_rule trunk req info = true)) by (unfold specific_rule; by rewrite Hs).
    rewrite decide_False by (unfold default_rule; by rewrite Hs). apply IH.
  - assert (default_rule req info = true) as Hd by (unfold default_rule; by rewrite Hs, Ht).
    rewrite Hex by done. rewrite decide_False by done. rewrite decide_True by done.
    rewrite IH. cbn [length foldl]. by rewrite Nat.add_succ_r.
  - rewrite (decide_False (P := default_rule req info = true)) by (unfold default_rule; by rewrite Hs, Ht).
    assert (specific_rule trunk req info = match trunk with Some t => str_in (it_sip_trunk_id t) (i :: ids) | None => false end)
      as Hsp by (unfold specific_rule; rewrite Hs, Ht; by destruct trunk).
    destruct trunk as [t|]; [|rewrite decide_False by (by rewrite Hsp); apply IH].
    destruct (str_in (it_sip_trunk_id t) (i :: ids)); cbn [negb].
    + rewrite decide_True by done. rewrite IH. cbn [length foldl]. by rewrite Nat.add_succ_r.
    + rewrite decide_False by (by rewrite Hsp). apply IH.
Qed.

(** The outcome of the matching: the best rule of the trunk, else the best unbound rule, else
    none. *)
Lemma match_dispatch_rule_cases trunk req rules :
  match match_dispatch_rule rules trunk req with
  | Ok (Some r) =>
      best_of r (filter (fun r => specific_rule trunk req r = true) rules) \/
      filter (fun r => specific_rule trunk req r = true) rules = [] /\
      best_of r (filter (fun r => default_rule req r = true) rules)
  | Ok None => False
  | Err e => e = ERR_NO_DISPATCH_MATCHED /\
      forall r, r ∈ rules -> specific_rule trunk req r = false /\ default_rule req r = false
  end.
Proof.
  unfold match_dispatch_rule. rewrite match_rule_loop_spec. cbn [Nat.add].
  pose proof (keep_best_best (filter (fun r => specific_rule trunk req r = true) rules)) as HS.
  pose proof (keep_best_best (filter (fun r => default_rule req r = true) rules)) as HD.
  destruct (foldl keep_best None (filter (fun r => specific_rule trunk req r = true) rules)) as [s|].
  { destruct HS as [Hin Hbest]. destruct (filter (fun r => specific_rule trunk req r = true) rules) eqn:E.
    - by apply not_elem_of_nil in Hin.
    - by left. }
  rewrite HS. destruct (foldl keep_best None (filter (fun r => default_rule req r = true) rules)) as [d|].
  { destruct HD as [Hin Hbest]. destruct (filter (fun r => default_rule req r = true) rules) eqn:E.
    - by apply not_elem_of_nil in Hin.
    - cbn. by right. }
  rewrite HD. cbn. split; [done|]. intros r Hr. split; apply not_true_is_false; intros Ht.
  - assert (r ∈ filter (fun r => specific_rule trunk req r = true) rules) as Hf by (by apply list_elem_of_filter).
    rewrite HS in Hf. by apply not_elem_of_nil in Hf.
  - assert (r ∈ filter (fun r => default_rule req r = true) rules) as Hf by (by apply list_elem_of_filter).
    rewrite HD in Hf. by apply not_elem_of_nil in Hf.
Qed.

(** A rule that is not skipped has a pin the request may use. *)
Lemma not_skipped_pin req info : rule_skipped req info = false ->
  exists room pin, get_pin_and_room info = Ok (room, pin) /\
    (eq_no_pin req = true -> pin = "") /\
    (eq_no_pin req = false -> eq_pin req <> "" -> pin = eq_pin req).
Proof.
  unfold rule_skipped. destruct (match sr_inbound_numbers info with [] => _ | _ => _ end); [done|].
  destruct (match sr_numbers info with [] => _ | _ => _ end); [done|].
  destruct (get_pin_and_room info) as [[room pin]|]; [|done]. intros Hs. exists room, pin.
  split; [done|]. destruct (eq_no_pin req).
  - bool_to_prop. done.
  - split; [done|]. intros _ Hne. destruct (String.eqb_spec (eq_pin req) ""); [done|].
    cbn [negb andb] in Hs. apply orb_false_iff in Hs as [_ Hs]. bool_to_prop. by subst.
Qed.

Lemma match_dispatch_rule_not_skipped trunk req rules r :
  match_dispatch_rule rules trunk req = Ok (Some r) -> r ∈ rules /\ rule_skipped req r = false.
Proof.
  intros E. pose proof (match_dispatch_rule_cases trunk req rules) as Hc. rewrite E in Hc.
  destruct Hc as [[Hin _]|[_ [Hin _]]]; apply list_elem_of_filter in Hin as [Hr Hin]; (split; [done|]).
  - unfold specific_rule in Hr. by destruct (rule_skipped req r).
  - unfold default_rule in Hr. by destruct (rule_skipped req r).
Qed.

(** * The dispatch decision *)

(** The rule the call is given. *)
Definition chosen_rule (trunk : option SipInboundTrunkInfo) (req : EvaluateSipDispatchRulesRequest)
    (rules : list SipDispatchRuleInfo) (r : SipDispatchRuleInfo) : Prop :=
  best_of r (filter (fun r => specific_rule trunk req r = true) rules) \/
  filter (fun r => specific_rule trunk req r = true) rules = [] /\
  best_of r (filter (fun r => default_rule req r = true) rules).

(** What the caller gets from rule [r]: a pin prompt that reveals nothing about the room, or
    the room. *)
Definition answers (req : EvaluateSipDispatchRulesRequest) (call : SipCall) (fresh : string)
    (r : SipDispatchRuleInfo) (names : string * string * string)
    (resp : EvaluateSipDispatchRulesResponse) : Prop :=
  let '(from, from_id, from_name) := names in
  exists room pin, get_pin_and_room r = Ok (room, pin) /\
    er_sip_dispatch_rule_id resp = sr_sip_dispatch_rule_id r /\
    if bool_decide (pin <> "" /\ eq_pin req = "")
    then er_result resp = REQUEST_PIN /\ er_room_name resp = "" /\ er_participant_identity resp = "" /\
         er_participant_attributes resp = ∅
    else er_result resp = ACCEPT /\ (pin = "" \/ pin = eq_pin req) /\
         er_room_name resp = dispatch_room r room from (user_of (ca_to call)) fresh /\
         er_participant_identity resp = from_id /\ er_participant_name resp = from_name.

Section Decision.
Variable sha256_hex : string -> string.

Lemma evaluate_answers trunk r req call trunk_id fresh :
  rule_skipped req r = false ->
  match caller_names sha256_hex (sr_hide_phone_number r) (user_of (ca_from call)) with
  | None => evaluate_dispatch_rule sha256_hex trunk r req call trunk_id fresh = None
  | Some names => exists resp,
      evaluate_dispatch_rule sha256_hex trunk r req call trunk_id fresh = Some (Ok resp) /\
      answers req call fresh r names resp
  end.
Proof.
  intros Hs. destruct (not_skipped_pin _ _ Hs) as (room & pin & Hp & Hno & Hyes).
  unfold evaluate_dispatch_rule. destruct (caller_names _ _ _) as [[[from id] name]|]; [|done].
  cbn [mbind option_bind]. rewrite Hp. cbn [mbind Result_bind]. unfold answers.
  destruct (String.eqb_spec pin "") as [->|Hpin]; cbn [negb andb].
  - destruct trunk; eexists; (split; [done|]); exists room, ""; (split; [done|]); (split; [done|]);
      rewrite bool_decide_eq_false_2 by naive_solver; cbn; auto.
  - destruct (String.eqb_spec (eq_pin req) "") as [Hsent|Hsent].
    + eexists. split; [done|]. exists room, pin. split; [done|]. split; [done|].
      rewrite bool_decide_eq_true_2 by done. done.
    + assert (pin = eq_pin req) as Heq.
      { destruct (eq_no_pin req) eqn:E; [by rewrite Hno in Hpin|by apply Hyes]. }
      rewrite <- Heq, String.eqb_refl. cbn [negb].
      destruct trunk; eexists; (split; [done|]); exists room, pin; (split; [done|]); (split; [done|]);
        rewrite bool_decide_eq_false_2 by naive_solver; cbn; auto.
Qed.

(** Slices. *)
Lemma substring_all m s : (String.length s <= m)%nat -> String.substring 0 m s = s.
Proof.
  revert m. induction s as [|c s IH]; intros [|m]; cbn; intros; try done; [lia|]. by rewrite IH by lia.
Qed.

Lemma substring_tail n m s : (n <= String.length s)%nat -> (String.length s <= m)%nat ->
  (exists pre, s = pre +:+ String.substring n m s) /\
  String.length (String.substring n m s) = (String.length s - n)%nat.
Proof.
  revert n. induction s as [|c s IH]; intros [|n] Hn Hm; cbn [String.length] in *.
  - destruct m; split; [by exists ""|done|by exists ""|done].
  - lia.
  - rewrite substring_all by (cbn; lia). split; [by exists ""|cbn; lia].
  - destruct (IH n ltac:(lia) ltac:(lia)) as [[pre Hp] Hl].
    replace (String.substring (S n) m (String c s)) with (String.substring n m s) by by destruct m.
    split; [|lia]. exists (String c pre). cbn. by rewrite <- Hp.
Qed.

Lemma slice_from_suffix i s t : slice_from i s = Some t ->
  0 <= i <= str_len s /\ (exists pre, s = pre +:+ t) /\ str_len t = str_len s - i.
Proof.
  unfold slice_from. case_match; [done|]. bool_to_prop. unfold str_len in *.
  destruct (substring_tail (Z.to_nat i) (String.length s) s) as [Hp Hl]; [lia..|].
  cbv zeta. intros Ht. assert (String.substring (Z.to_nat i) (String.length s) s = t) as Hs.
  { destruct (String.substring _ _ _) eqn:Hs; [by simplify_eq|]. case_match; by simplify_eq. }
  rewrite Hs in Hp, Hl. split_and!; [lia..|done|lia].
Qed.

(** A masked number: its digest in the identity, at most its last four bytes shown. *)
Lemma caller_names_hidden from_full from from_id from_name :
  caller_names sha256_hex true from_full = Some (from, from_id, from_name) ->
  from_id = "sip_" +:+ String.substring 0 8 (sha256_hex from_full) /\
  from_name = "Phone " +:+ from /\ str_len from <= 4 /\ exists pre, from_full = pre +:+ from.
Proof.
  unfold caller_names, slice_to. cbv zeta. destruct (slice_from 8 _); [|done]. cbn [mbind option_bind].
  destruct (slice_from (_ - _) _) as [t|] eqn:E; [|done]. cbn [mbind option_bind]. intros ?; simplify_eq.
  apply slice_from_suffix in E as (H1 & H2 & H3). split_and!; try done. case_match; bool_to_prop; lia.
Qed.

(** The privacy of a hidden caller: the participant identity carries only the first eight
    characters of the number's digest, the display name (and a per-caller room name) at most
    the last four bytes of the number, and none of the number attributes is added. *)
Theorem hidden_caller_masked trunk rule req call trunk_id fresh resp :
  sr_hide_phone_number rule = true ->
  evaluate_dispatch_rule sha256_hex trunk rule req call trunk_id fresh = Some (Ok resp) ->
  er_result resp = ACCEPT ->
  let number := user_of (ca_from call) in
  exists tail pre room,
    number = pre +:+ tail /\ str_len tail <= 4 /\
    er_participant_identity resp = "sip_" +:+ String.substring 0 8 (sha256_hex number) /\
    er_participant_name resp = "Phone " +:+ tail /\
    er_room_name resp = dispatch_room rule room tail (user_of (ca_to call)) fresh /\
    forall k, k ∈ [ATTR_SIP_PHONE_NUMBER; ATTR_SIP_HOST_NAME; ATTR_SIP_TRUNK_NUMBER] ->
      er_participant_attributes resp !! k = (eq_extra_attributes req ∪ sr_attributes rule) !! k.
Proof.
  intros Hh He Hacc number. unfold evaluate_dispatch_rule in He. rewrite Hh in He.
  destruct (caller_names sha256_hex true (user_of (ca_from call))) as [[[from id] name]|] eqn:Hn; [|done].
  destruct (caller_names_hidden _ _ _ _ Hn) as (-> & -> & Hlen & pre & Hpre).
  cbn [mbind option_bind] in He. injection He as He. apply bind_ok in He as ([room pin] & _ & He).
  case_match; [by simplify_eq|]. case_match; [done|]. injection He as <-.
  exists from, pre, room.
  assert (forall k, k ∈ [ATTR_SIP_PHONE_NUMBER; ATTR_SIP_HOST_NAME; ATTR_SIP_TRUNK_NUMBER] ->
    <[ATTR_SIP_RULE_ID := sr_sip_dispatch_rule_id rule]> (dispatch_attributes rule req call trunk_id) !! k =
    (eq_extra_attributes req ∪ sr_attributes rule) !! k) as Hk.
  { intros k Hk. unfold dispatch_attributes. rewrite Hh.
    rewrite !lookup_insert_ne; [done|..]; intros <-; by apply list_elem_of_In in Hk; cbn in Hk; naive_solver. }
  destruct trunk; split_and!; try done.
Qed.

(** A caller without a number crashes the evaluation of a rule that hides numbers: the
    slice of the last digit of an empty string panics. *)
Theorem hidden_empty_caller_panics trunk rule req call trunk_id fresh :
  sr_hide_phone_number rule = true -> user_of (ca_from call) = "" ->
  evaluate_dispatch_rule sha256_hex trunk rule req call trunk_id fresh = None.
Proof.
  intros Hh Hf. unfold evaluate_dispatch_rule. rewrite Hh, Hf.
  unfold caller_names. cbv zeta. by destruct (slice_to 8 (sha256_hex "")).
Qed.

(** A deprecated [media_encryption] setting has no effect when no media configuration is
    present: the response asks for no encryption although trunk and rule require it. *)
Theorem deprecated_encryption_dropped trunk rule req call trunk_id fresh resp :
  it_media trunk = None -> sr_media rule = None ->
  evaluate_dispatch_rule sha256_hex (Some trunk) rule req call trunk_id fresh = Some (Ok resp) ->
  er_media_encryption resp = 0 /\ er_media resp = None.
Proof.
  intros Ht Hr. unfold evaluate_dispatch_rule. rewrite Hr.
  destruct (caller_names _ _ _) as [[[from id] name]|]; [|done]. cbn [mbind option_bind]. rewrite Ht.
  intros He. injection He as He. apply bind_ok in He as ([room pin] & _ & He).
  repeat case_match; by simplify_eq.
Qed.
Variable ipnet_contains : string -> IpAddr -> option bool.
Context {B H : Type} `{HB : Backend B H} `{!Message B SipInboundTrunkInfo, !Message B SipDispatchRuleInfo}.

(** C30: the decision on an inbound call: the caller gets the highest-priority rule bound to
    the matched trunk, else the highest-priority unbound rule, among the rules whose numbers
    and pin fit the request, and the call is dropped when there is none.  A rule with a pin
    answers with a prompt until the pin is sent and leads to its room only for that pin; the
    wrong-pin error of the evaluation is never reached, and the only other outcome is the
    panic of masking the caller's number. *)
Theorem inbound_call_decision req fresh (h : H) trunk rules :
  match_trunk_for ipnet_contains (eq_sip_trunk_id req) (sip_call_from_dispatch req) h = Ok trunk ->
  list_sip_dispatch_rules h = Ok rules ->
  let call := sip_call_from_dispatch req in
  let result := evaluate_sip_dispatch_rules ipnet_contains sha256_hex req fresh h in
  (exists r, chosen_rule trunk req rules r /\
     match caller_names sha256_hex (sr_hide_phone_number r) (user_of (ca_from call)) with
     | None => result = None
     | Some names => exists resp, result = Some (Ok resp) /\ answers req call fresh r names resp
     end) \/
  (forall r, r ∈ rules -> specific_rule trunk req r = false /\ default_rule req r = false) /\
  result = Some (Ok (drop_response (default "" (it_sip_trunk_id <$> trunk)))).
Proof.
  intros Ht Hr call result. subst result. unfold evaluate_sip_dispatch_rules. rewrite Ht, Hr.
  pose proof (match_dispatch_rule_cases trunk req rules) as Hc.
  pose proof (match_dispatch_rule_not_skipped trunk req rules) as Hns.
  destruct (match_dispatch_rule rules trunk req) as [[r|]|e]; [|done|].
  - left. exists r. split; [exact Hc|]. apply evaluate_answers. by apply Hns.
  - right. destruct Hc as [-> Hc]. split; [done|]. by rewrite String.eqb_refl.
Qed.
End Decision.

(** * The source-address filter *)

(** The trunk equality of the matcher with its reference: the call gets the only admitting
    trunk that owns the called number, else the only admitting default trunk; two candidates
    of the winning kind are a conflict, none is no trunk. *)
Theorem trunk_choice ipnet_contains trunks call :
  match_trunk ipnet_contains trunks call = reference_trunk ipnet_contains trunks call.
Proof. apply match_trunk_reference. Qed.

Lemma rsplit_once_app c a b : free_of c b -> rsplit_once c (a +:+ String c b) = Some (a, b).
Proof.
  intros Hb. assert (rsplit_once c b = None) as Hn.
  { induction b as [|x b IH]; [done|]. apply free_of_cons in Hb as [Hx Hb]. cbn. rewrite IH by done.
    by destruct (Ascii.eqb_spec x c). }
  induction a as [|x a IH]; cbn; [|by rewrite IH]. by rewrite Hn, Ascii.eqb_refl.
Qed.

Lemma parse_ip_bracket s : parse_ip (String "[" s) = None.
Proof. reflexivity. Qed.

(** The source-address filter does not apply to IPv6 peers: a bracketed address with its
    port keeps its brackets when the port is stripped, does not parse as an address, and every
    allow-list of the trunk lets it through. *)
Theorem ipv6_source_bypasses_filter ipnet_contains host masks (addr port : string) :
  str_forallb is_digit port = true ->
  match_addr_masks ipnet_contains (strip_port ("[" +:+ addr +:+ "]:" +:+ port)) host masks = true.
Proof.
  intros Hp. assert (strip_port ("[" +:+ addr +:+ "]:" +:+ port) = "[" +:+ addr +:+ "]") as ->.
  { unfold strip_port. replace ("[" +:+ addr +:+ "]:" +:+ port) with (("[" +:+ addr +:+ "]") +:+ String ":" port).
    - rewrite rsplit_once_app by by apply free_of_digits. by rewrite Hp.
    - rewrite !str_app_assoc. done. }
  done.
Qed.

Lemma ipv6_source_bypasses_filter_witness :
  str_forallb is_digit "5060" = true /\
  match_addr_masks (fun _ _ => Some false) (strip_port ("[" +:+ "2001:db8::1" +:+ "]:" +:+ "5060")) ""
    ["10.0.0.0/8"] = true /\
  match_addr_masks (fun _ _ => Some false) (strip_port "203.0.113.5:5060") "" ["10.0.0.0/8"] = false.
Proof.
  split; [reflexivity|]. split; [|reflexivity].
  apply ipv6_source_bypasses_filter. reflexivity.
Defined.

(** * Egress webhooks *)

Section Egress.
Context {B H : Type} `{HB : Backend B H} `{!BackendLaws B H}.
Context `{!Message B EgressInfo, !Message B unit}.
(** The store answers reads (a Redis outage does not happen while the reports are handled). *)
Hypothesis reachable : forall key id (h : H), is_ok (hget key id h) = true.

Definition started_for (id : string) (ev : EgressEvent) : bool :=
  match ev with egress_started i => (eg_egress_id i =? id)%string | _ => false end.
Definition ended_for (id : string) (ev : EgressEvent) : bool :=
  match ev with egress_ended i => (eg_egress_id i =? id)%string | _ => false end.
Definition count_ev (p : EgressEvent -> bool) (l : list EgressEvent) : nat :=
  length (filter (fun ev => p ev = true) l).

(** The reports handled one after the other. *)
Definition handle_all (reqs : list (string * B)) (st : EgressIo) : EgressIo :=
  foldl (fun st '(method, raw) => (egress_handle method raw st).2) st reqs.

Definition known (id : string) (h : H) : Prop := is_Some (hview h KEY_EGRESS id).

(** [started] says the start of [id] is still to be reported once. *)
Definition egress_inv (id : string) (n0 : nat) (st : EgressIo) : Prop :=
  (count_ev (started_for id) (io_webhooks st) <= 1)%nat /\
  ((n0 + count_ev (started_for id) (io_webhooks st))%nat <> 0%nat -> known id (io_store st)) /\
  (n0 <> 0%nat -> count_ev (started_for id) (io_webhooks st) = 0%nat) /\
  (count_ev (ended_for id) (io_webhooks st) <= 1)%nat /\
  (count_ev (ended_for id) (io_webhooks st) <> 0%nat -> id ∈ io_ended st).

Lemma count_ev_snoc p l ev : count_ev p (l ++ [ev]) = (count_ev p l + if p ev then 1 else 0)%nat.
Proof.
  unfold count_ev. rewrite list.filter_app, length_app. f_equal. rewrite filter_cons.
  destruct (p ev); [by rewrite decide_True|by rewrite decide_False].
Qed.

Lemma store_egress_known info h r h' id : store_egress info h = (r, h') -> known id h -> known id h'.
Proof.
  unfold store_egress, known. destruct (hset KEY_EGRESS _ _ h) as [r1 h1] eqn:E1.
  intros E Hk. assert (is_Some (hview h1 KEY_EGRESS id)) as H1.
  { destruct r1 as [[]|e].
    - rewrite (hset_law _ _ _ _ _ _ _ (eq_refl : free_of ":" KEY_EGRESS) (eq_refl : free_of ":" KEY_EGRESS) E1). case_decide; [eauto|done].
    - destruct (hset_err_law _ _ _ _ _ _ KEY_EGRESS id (eq_refl : free_of ":" KEY_EGRESS) (eq_refl : free_of ":" KEY_EGRESS) E1) as [->|(_ & _ & ->)]; eauto. }
  destruct r1; cbn in E; [|by simplify_eq]. case_match; [by simplify_eq|].
  by rewrite (sadd_law _ _ _ _ _ _ _ (eq_refl : free_of ":" KEY_EGRESS) E).
Qed.

Lemma store_egress_stored info h h' : store_egress info h = (Ok (), h') -> known (eg_egress_id info) h'.
Proof.
  unfold store_egress, known. intros (h1 & E1 & E)%and_then_ok.
  assert (is_Some (hview h1 KEY_EGRESS (eg_egress_id info))) as H1.
  { rewrite (hset_law _ _ _ _ _ _ _ (eq_refl : free_of ":" KEY_EGRESS) (eq_refl : free_of ":" KEY_EGRESS) E1). rewrite decide_True by done. eauto. }
  case_match; [by simplify_eq|]. by rewrite (sadd_law _ _ _ _ _ _ _ (eq_refl : free_of ":" KEY_EGRESS) E).
Qed.

Lemma load_egress_known id h :
  match load_egress id h with Ok (Some _) => known id h | _ => ~ known id h end.
Proof.
  unfold load_egress, load_with, known. pose proof (reachable KEY_EGRESS id h) as Hr.
  destruct (hget KEY_EGRESS id h) as [o|] eqn:E; [|done]. apply hget_law in E as ->; [|done].
  destruct (hview h KEY_EGRESS id); cbn; [eauto|by intros []].
Qed.

Lemma create_egress_inv id n0 info st : egress_inv id n0 st -> egress_inv id n0 (create_egress info st).2.
Proof.
  intros (I1 & I2 & I3 & I4 & I5). unfold create_egress.
  pose proof (load_egress_known (eg_egress_id info) (io_store st)) as Hl.
  destruct (load_egress _ _) as [[?|]|?]; [done|..];
    destruct (store_egress info (io_store st)) as [[[]|?] h'] eqn:Es; cbn [snd];
    pose proof (store_egress_known _ _ _ _ id Es) as Hk; unfold egress_inv, notify; cbn [snd io_store io_ended io_webhooks];
    rewrite ?count_ev_snoc; cbn [started_for ended_for]; try (split_and!; auto; fail).
  all: pose proof (store_egress_stored _ _ _ Es) as Hst;
    destruct (String.eqb_spec (eg_egress_id info) id) as [<-|]; rewrite ?Nat.add_0_r; [|split_and!; auto; fail];
    assert (~ (n0 + count_ev (started_for (eg_egress_id info)) (io_webhooks st))%nat <> 0%nat)
      by (intros Hc; by apply Hl, I2);
    split_and!; auto; lia.
Qed.

Lemma update_egress_inv id n0 info st : egress_inv id n0 st -> egress_inv id n0 (update_egress info st).2.
Proof.
  intros (I1 & I2 & I3 & I4 & I5). unfold update_egress.
  destruct (store_egress info (io_store st)) as [[[]|e] h'] eqn:Es;
    pose proof (store_egress_known _ _ _ _ id Es) as Hk; [|split_and!; cbn; auto].
  cbn [io_store io_ended io_webhooks].
  destruct (terminal (eg_status info)); [destruct (bool_decide _) eqn:Hd|]; bool_to_prop;
    unfold egress_inv, notify; cbn [snd io_store io_ended io_webhooks];
    rewrite ?count_ev_snoc; cbn [started_for ended_for]; rewrite ?Nat.add_0_r; try (split_and!; auto; fail).
  destruct (String.eqb_spec (eg_egress_id info) id) as [<-|]; rewrite ?Nat.add_0_r; split_and!; auto.
  - destruct (count_ev (ended_for (eg_egress_id info)) (io_webhooks st)); [lia|].
    exfalso. apply Hd. by apply I5.
  - intros _. apply elem_of_union_l. by apply elem_of_singleton.
  - intros Hc. apply elem_of_union_r. auto.
Qed.

Lemma handle_all_inv id n0 reqs st : egress_inv id n0 st -> egress_inv id n0 (handle_all reqs st).
Proof.
  revert st. induction reqs as [|[method raw] reqs IH]; intros st Hi; [done|]. apply IH.
  unfold egress_handle. destruct ((_ =? _)%string || _); [|done]. destruct (decode_req raw) as [info|]; [|done].
  pose proof (create_egress_inv id n0 info st Hi). pose proof (update_egress_inv id n0 info st Hi).
  destruct (method =? "CreateEgress")%string; [destruct (create_egress info st)|destruct (update_egress info st)];
    done.
Qed.

(** Egress reports produce each lifecycle webhook once: over any sequence of reports,
    retries and restarts included, [egress_started] is sent at most once per egress and never
    for one the durable store already has, and [egress_ended] at most once. *)
Theorem egress_webhooks_once reqs h id :
  let st := handle_all reqs (mkEgressIo h ∅ []) in
  (count_ev (started_for id) (io_webhooks st) <= 1)%nat /\
  (known id h -> count_ev (started_for id) (io_webhooks st) = 0%nat) /\
  (count_ev (ended_for id) (io_webhooks st) <= 1)%nat.
Proof.
  intros st. split_and!.
  - apply (handle_all_inv id 0). split_and!; cbn; auto; lia.
  - intros Hk. apply (handle_all_inv id 1); [split_and!; cbn; auto; lia|done].
  - apply (handle_all_inv id 0). split_and!; cbn; auto; lia.
Qed.
End Egress.

(** * Concrete calls *)

Module SipDemo.
Definition sha (s : string) : string := "0123456789abcdef".
Definition nets (mask : string) (ip : IpAddr) : option bool := Some false.
Definition rule : SipDispatchRuleInfo :=
  mkRule "SR_p" (Some (Some (DispatchRuleDirect "room-p" "1234"))) [] false [] [] "" "" ∅ "" None None false 0 None None.
Definition hidden : SipDispatchRuleInfo :=
  mkRule "SR_h" (Some (Some (DispatchRuleIndividual "sales" "" true))) [] true [] [] "" "" ∅ "" None None false 2 None None.
Definition call : SipCall := mkCall "SC_1" "10.1.2.3" None (Some (mkUri "+15551234" "")) (Some (mkUri "+1999" "")).
Definition anonymous : SipCall := mkCall "SC_1" "10.1.2.3" None None (Some (mkUri "+1999" "")).
Definition req (pin : string) : EvaluateSipDispatchRulesRequest :=
  mkEvalReq "" "" "" "" "" "" "" pin false ∅ (Some call).
Definition store : MemoryStore Encoded := (store_sip_dispatch_rule (B := Encoded) rule empty_memory).2.
Definition encrypted : SipInboundTrunkInfo :=
  mkInbound "ST_1" "" "" [] [] [] "" "" "" ∅ ∅ ∅ 0 None None false 2 None None None.
Definition resp (r : option (Result string EvaluateSipDispatchRulesResponse)) : EvaluateSipDispatchRulesResponse :=
  match r with Some (Ok resp) => resp | _ => eval_default end.
Definition report (status : Z) : Encoded := encode_to_vec (mkEgress "EG_1" "room" status "").
End SipDemo.
Import SipDemo.

Lemma inbound_call_decision_witness :
  list_sip_dispatch_rules (B := Encoded) store = Ok [rule] /\
  ((exists r, chosen_rule None (req "1234") [rule] r /\
     match caller_names sha (sr_hide_phone_number r) "+15551234" with
     | None => False
     | Some names => exists resp,
         evaluate_sip_dispatch_rules (B := Encoded) nets sha (req "1234") "" store = Some (Ok resp) /\
         answers (req "1234") call "" r names resp
     end) \/
   (forall r, r ∈ [rule] -> specific_rule None (req "1234") r = false /\ default_rule (req "1234") r = false) /\
   evaluate_sip_dispatch_rules (B := Encoded) nets sha (req "1234") "" store = Some (Ok (drop_response ""))).
Proof.
  split; [vm_compute; reflexivity|].
  assert (match_trunk_for (B := Encoded) nets "" call store = Ok None) as Ht by (vm_compute; reflexivity).
  assert (list_sip_dispatch_rules (B := Encoded) store = Ok [rule]) as Hr by (vm_compute; reflexivity).
  destruct (inbound_call_decision (B := Encoded) sha nets (req "1234") "" store None [rule] Ht Hr)
    as [(r & H1 & H2)|H]; [left|right; exact H].
  exists r. split; [exact H1|]. unfold caller_names in *. cbn in H2 |- *. by destruct (sr_hide_phone_number r).
Defined.

Lemma hidden_caller_masked_witness :
  let r := evaluate_dispatch_rule sha None hidden (req "") call "" "" in
  r = Some (Ok (resp r)) /\ er_participant_name (resp r) = "Phone 1234" /\
  exists tail pre room, "+15551234" = pre +:+ tail /\ str_len tail <= 4 /\
    er_participant_identity (resp r) = "sip_" +:+ String.substring 0 8 (sha "+15551234") /\
    er_participant_name (resp r) = "Phone " +:+ tail /\
    er_room_name (resp r) = dispatch_room hidden room tail "+1999" "" /\
    forall k, k ∈ [ATTR_SIP_PHONE_NUMBER; ATTR_SIP_HOST_NAME; ATTR_SIP_TRUNK_NUMBER] ->
      er_participant_attributes (resp r) !! k = (eq_extra_attributes (req "") ∪ sr_attributes hidden) !! k.
Proof.
  intros r. split; [vm_compute; reflexivity|]. split; [vm_compute; reflexivity|].
  apply (hidden_caller_masked sha None hidden (req "") call "" "" (resp r));
    [reflexivity|vm_compute; reflexivity|vm_compute; reflexivity].
Defined.

Lemma hidden_empty_caller_panics_witness :
  user_of (ca_from anonymous) = "" /\ evaluate_dispatch_rule sha None hidden (req "") anonymous "" "" = None.
Proof. split; [reflexivity|]. apply hidden_empty_caller_panics; reflexivity. Defined.

Lemma deprecated_encryption_dropped_witness :
  it_media_encryption encrypted = 2 /\ sr_media_encryption hidden = 2 /\
  let r := evaluate_dispatch_rule sha (Some encrypted) hidden (req "") call "ST_1" "" in
  er_media_encryption (resp r) = 0 /\ er_media (resp r) = None.
Proof.
  split; [reflexivity|]. split; [reflexivity|].
  apply (deprecated_encryption_dropped sha encrypted hidden (req "") call "ST_1" "");
    [reflexivity|reflexivity|vm_compute; reflexivity].
Defined.

Lemma egress_webhooks_once_witness :
  let reqs := [("CreateEgress", report 0); ("CreateEgress", report 0); ("UpdateEgress", report 1);
               ("UpdateEgress", report 3); ("UpdateEgress", report 3)] in
  let st := handle_all reqs (mkEgressIo empty_memory ∅ []) in
  length (io_webhooks st) = 3%nat /\
  (count_ev (started_for "EG_1") (io_webhooks st) <= 1)%nat /\
  (count_ev (ended_for "EG_1") (io_webhooks st) <= 1)%nat.
Proof.
  intros reqs st. split; [vm_compute; reflexivity|].
  assert (forall key id (h : MemoryStore Encoded), is_ok (hget (B := Encoded) key id h) = true) as Hr by done.
  destruct (egress_webhooks_once (B := Encoded) Hr reqs empty_memory "EG_1") as (H1 & _ & H2). exact (conj H1 H2).
Defined.
