(* ===== verification/SipService.v ===== *)
(** The [livekit.SIP] administration service ([crates/lk-server/src/services_sip.rs]): creation,
    update, listing and deletion of trunks and dispatch rules over the store, behind the
    [sip.admin] grant.  Outbound calls and transfers leave through the message bus and are not
    part of this file. *)
From Stdlib Require Import ZArith Lia Ascii String.
From stdpp Require Import base gmap strings list option.
From S2P Require Import Prelude RustStr Auth Twirp Wkt SipProto Store Sip.

Open Scope string_scope.
Open Scope list_scope.
Open Scope Z_scope.

(** * Requests *)

Record ListUpdate := mkListUpdate {
  lu_set : list string; lu_add : list string; lu_remove : list string; lu_clear : bool;
}.

Record SipInboundTrunkUpdate := mkInboundUpdate {
  iu_numbers : option ListUpdate; iu_allowed_addresses : option ListUpdate;
  iu_allowed_numbers : option ListUpdate;
  iu_auth_username : option string; iu_auth_password : option string; iu_auth_realm : option string;
  iu_name : option string; iu_metadata : option string; iu_media : option SipMediaConfig;
}.

Record SipOutboundTrunkUpdate := mkOutboundUpdate {
  ou_address : option string; ou_transport : option Z; ou_destination_country : option string;
  ou_from_host : option string; ou_numbers : option ListUpdate;
  ou_auth_username : option string; ou_auth_password : option string;
  ou_name : option string; ou_metadata : option string; ou_media : option SipMediaConfig;
}.

Record SipDispatchRuleUpdate := mkRuleUpdate {
  ru_trunk_ids : option ListUpdate; ru_rule : option (option DispatchRule);
  ru_name : option string; ru_metadata : option string; ru_attributes : StrMap;
  ru_media : option SipMediaConfig;
}.

(** The oneof of an update request. *)
Inductive Action (Info Update : Type) := Replace (i : Info) | Update_ (u : Update).
Arguments Replace {Info Update} i.
Arguments Update_ {Info Update} u.

Record CreateSipDispatchRuleRequest := mkCreateRule {
  cr_dispatch_rule : option SipDispatchRuleInfo;
  cr_rule : option (option DispatchRule); cr_trunk_ids : list string; cr_hide_phone_number : bool;
  cr_inbound_numbers : list string; cr_name : string; cr_metadata : string; cr_attributes : StrMap;
  cr_room_preset : string; cr_room_config : option RoomConfiguration;
}.

(** The bodies of the requests. *)
Inductive SipRequest :=
| CreateSIPInboundTrunk (trunk : option SipInboundTrunkInfo)
| CreateSIPOutboundTrunk (trunk : option SipOutboundTrunkInfo)
| GetSIPInboundTrunk (id : string)
| GetSIPOutboundTrunk (id : string)
| UpdateSIPInboundTrunk (id : string) (action : option (Action SipInboundTrunkInfo SipInboundTrunkUpdate))
| UpdateSIPOutboundTrunk (id : string) (action : option (Action SipOutboundTrunkInfo SipOutboundTrunkUpdate))
| ListSIPInboundTrunk (trunk_ids numbers : list string)
| ListSIPOutboundTrunk (trunk_ids numbers : list string)
| DeleteSIPTrunk (id : string)
| CreateSIPDispatchRule (r : CreateSipDispatchRuleRequest)
| UpdateSIPDispatchRule (id : string) (action : option (Action SipDispatchRuleInfo SipDispatchRuleUpdate))
| ListSIPDispatchRule (dispatch_rule_ids trunk_ids : list string)
| DeleteSIPDispatchRule (id : string).

(** The messages of the responses. *)
Inductive SipReply :=
| RInbound (t : SipInboundTrunkInfo) | ROutbound (t : SipOutboundTrunkInfo)
| RInbounds (l : list SipInboundTrunkInfo) | ROutbounds (l : list SipOutboundTrunkInfo)
| RTrunkId (id : string) | RRule (r : SipDispatchRuleInfo) | RRules (l : list SipDispatchRuleInfo).

(** * List updates *)

Definition apply_list_update (current : list string) (update : ListUpdate) : list string :=
  let current := if lu_clear update then [] else current in
  let current := match lu_set update with [] => current | s => s end in
  let current := foldl (fun cur add => if str_in add cur then cur else cur ++ [add]) current (lu_add update) in
  foldl (fun cur rem => filter (fun v => v <> rem) cur) current (lu_remove update).

(** [if let Some(u) = &update { apply_list_update(&mut field, u) }]. *)
Definition update_list (u : option ListUpdate) (current : list string) : list string :=
  match u with Some u => apply_list_update current u | None => current end.

(** [if update.media.is_some() { field = update.media }]. *)
Definition update_opt {A} (u current : option A) : option A := match u with Some _ => u | None => current end.

(** * Messages with one field replaced *)

Definition set_inbound_ids (id : string) (created updated : option Timestamp) (t : SipInboundTrunkInfo) :=
  mkInbound id (it_name t) (it_metadata t) (it_numbers t) (it_allowed_addresses t) (it_allowed_numbers t)
    (it_auth_username t) (it_auth_password t) (it_auth_realm t) (it_headers t) (it_headers_to_attributes t)
    (it_attributes_to_headers t) (it_include_headers t) (it_ringing_timeout t) (it_max_call_duration t)
    (it_krisp_enabled t) (it_media_encryption t) (it_media t) created updated.

Definition set_outbound_ids (id : string) (created updated : option Timestamp) (t : SipOutboundTrunkInfo) :=
  mkOutbound id (ot_name t) (ot_metadata t) (ot_address t) (ot_destination_country t) (ot_transport t)
    (ot_numbers t) (ot_auth_username t) (ot_auth_password t) (ot_headers t) (ot_headers_to_attributes t)
    (ot_attributes_to_headers t) (ot_include_headers t) (ot_media_encryption t) (ot_media t) (ot_from_host t)
    created updated.

Definition set_rule_ids (id : string) (created updated : option Timestamp) (r : SipDispatchRuleInfo) :=
  mkRule id (sr_rule r) (sr_trunk_ids r) (sr_hide_phone_number r) (sr_inbound_numbers r) (sr_numbers r)
    (sr_name r) (sr_metadata r) (sr_attributes r) (sr_room_preset r) (sr_room_config r) (sr_media r)
    (sr_krisp_enabled r) (sr_media_encryption r) created updated.

(** The [Update] action of each message. *)
Definition update_inbound (u : SipInboundTrunkUpdate) (t : SipInboundTrunkInfo) : SipInboundTrunkInfo :=
  mkInbound (it_sip_trunk_id t) (default (it_name t) (iu_name u)) (default (it_metadata t) (iu_metadata u))
    (update_list (iu_numbers u) (it_numbers t))
    (update_list (iu_allowed_addresses u) (it_allowed_addresses t))
    (update_list (iu_allowed_numbers u) (it_allowed_numbers t))
    (default (it_auth_username t) (iu_auth_username u)) (default (it_auth_password t) (iu_auth_password u))
    (default (it_auth_realm t) (iu_auth_realm u)) (it_headers t) (it_headers_to_attributes t)
    (it_attributes_to_headers t) (it_include_headers t) (it_ringing_timeout t) (it_max_call_duration t)
    (it_krisp_enabled t) (it_media_encryption t) (update_opt (iu_media u) (it_media t))
    (it_created_at t) (it_updated_at t).

Definition update_outbound (u : SipOutboundTrunkUpdate) (t : SipOutboundTrunkInfo) : SipOutboundTrunkInfo :=
  mkOutbound (ot_sip_trunk_id t) (default (ot_name t) (ou_name u)) (default (ot_metadata t) (ou_metadata u))
    (default (ot_address t) (ou_address u)) (default (ot_destination_country t) (ou_destination_country u))
    (default (ot_transport t) (ou_transport u)) (update_list (ou_numbers u) (ot_numbers t))
    (default (ot_auth_username t) (ou_auth_username u)) (default (ot_auth_password t) (ou_auth_password u))
    (ot_headers t) (ot_headers_to_attributes t) (ot_attributes_to_headers t) (ot_include_headers t)
    (ot_media_encryption t) (update_opt (ou_media u) (ot_media t)) (default (ot_from_host t) (ou_from_host u))
    (ot_created_at t) (ot_updated_at t).

Definition update_rule (u : SipDispatchRuleUpdate) (r : SipDispatchRuleInfo) : SipDispatchRuleInfo :=
  mkRule (sr_sip_dispatch_rule_id r) (update_opt (ru_rule u) (sr_rule r))
    (update_list (ru_trunk_ids u) (sr_trunk_ids r)) (sr_hide_phone_number r) (sr_inbound_numbers r) (sr_numbers r)
    (default (sr_name r) (ru_name u)) (default (sr_metadata r) (ru_metadata u))
    (if decide (ru_attributes u = ∅) then sr_attributes r else ru_attributes u)
    (sr_room_preset r) (sr_room_config r) (update_opt (ru_media u) (sr_media r))
    (sr_krisp_enabled r) (sr_media_encryption r) (sr_created_at r) (sr_updated_at r).

Definition dispatch_rule_info (r : CreateSipDispatchRuleRequest) : SipDispatchRuleInfo :=
  match cr_dispatch_rule r with
  | Some info => info
  | None => mkRule "" (cr_rule r) (cr_trunk_ids r) (cr_hide_phone_number r) (cr_inbound_numbers r) []
              (cr_name r) (cr_metadata r) (cr_attributes r) (cr_room_preset r) (cr_room_config r)
              None false 0 None None
  end.

(** * The service *)

Definition ensure_sip_admin (token : VerifiedToken) : Result TwirpError unit :=
  if sip_admin (sip token) then Ok () else Err (unauthenticated, "permissions denied").

Definition trunk_not_found (id : string) : TwirpError := (not_found, "SIP trunk " +:+ id +:+ " not found").
Definition rule_not_found : TwirpError := (not_found, "dispatch rule not found").

Section Service.
Context {B H : Type} `{HB : Backend B H}.
Context `{!Message B SipInboundTrunkInfo, !Message B SipOutboundTrunkInfo,
          !Message B SipDispatchRuleInfo, !Message B EgressInfo}.

Local Notation M := (Handler H).
(** [store.read().await.map_err(twirp_internal)?]. *)
Definition reading {A} (f : H -> Result string A) : M A := fun h =>
  (map_err (fun e => (twirp_internal, e)) (f h), h).
Definition writing (f : H -> Result string unit * H) : M unit := fun h =>
  let '(r, h') := f h in (map_err (fun e => (twirp_internal, e)) r, h').
Local Open Scope twirp_scope.

Definition stamp (now : Z) : option Timestamp := Some (mkTimestamp now 0).

(** [fresh] is the generated id, [now] the clock reading in seconds. *)
Definition create_inbound (fresh : string) (now : Z) (trunk : option SipInboundTrunkInfo) : M SipReply :=
  let trunk := default inbound_default trunk in
  if negb (it_sip_trunk_id trunk =? "")%string then throw (invalid_argument, "trunk ID must be empty")
  else
    let trunk := set_inbound_ids fresh (stamp now) (stamp now) trunk in
    let! _ := writing (store_sip_inbound_trunk trunk) in ret (RInbound trunk).

Definition create_outbound (fresh : string) (now : Z) (trunk : option SipOutboundTrunkInfo) : M SipReply :=
  let trunk := default outbound_default trunk in
  if negb (ot_sip_trunk_id trunk =? "")%string then throw (invalid_argument, "trunk ID must be empty")
  else if (ot_address trunk =? "")%string then throw (invalid_argument, "trunk address is required")
  else
    let trunk := set_outbound_ids fresh (stamp now) (stamp now) trunk in
    let! _ := writing (store_sip_outbound_trunk trunk) in ret (ROutbound trunk).

Definition load_inbound (id : string) : M SipInboundTrunkInfo :=
  let! t := reading (load_sip_inbound_trunk id) in lift (ok_or t (trunk_not_found id)).
Definition load_outbound (id : string) : M SipOutboundTrunkInfo :=
  let! t := reading (load_sip_outbound_trunk id) in lift (ok_or t (trunk_not_found id)).
Definition load_rule (id : string) : M SipDispatchRuleInfo :=
  let! r := reading (load_sip_dispatch_rule id) in lift (ok_or r rule_not_found).

Definition update_sip_inbound_trunk (now : Z) (id : string)
    (action : option (Action SipInboundTrunkInfo SipInboundTrunkUpdate)) : M SipReply :=
  let! trunk := load_inbound id in
  let! trunk := match action with
                | Some (Replace t) => ret (set_inbound_ids id (it_created_at t) (it_updated_at t) t)
                | Some (Update_ u) => ret (update_inbound u trunk)
                | None => throw (invalid_argument, "missing action")
                end in
  let trunk := set_inbound_ids (it_sip_trunk_id trunk) (it_created_at trunk) (stamp now) trunk in
  let! _ := writing (store_sip_inbound_trunk trunk) in ret (RInbound trunk).

Definition update_sip_outbound_trunk (now : Z) (id : string)
    (action : option (Action SipOutboundTrunkInfo SipOutboundTrunkUpdate)) : M SipReply :=
  let! trunk := load_outbound id in
  let! trunk := match action with
                | Some (Replace t) => ret (set_outbound_ids id (ot_created_at t) (ot_updated_at t) t)
                | Some (Update_ u) => ret (update_outbound u trunk)
                | None => throw (invalid_argument, "missing action")
                end in
  let trunk := set_outbound_ids (ot_sip_trunk_id trunk) (ot_created_at trunk) (stamp now) trunk in
  let! _ := writing (store_sip_outbound_trunk trunk) in ret (ROutbound trunk).

(** The filter of the two trunk listings. *)
Definition trunk_listed (trunk_ids numbers : list string) (id : string) (nums : list string) : bool :=
  match trunk_ids with
  | _ :: _ => str_in id trunk_ids
  | [] => match numbers, nums with
          | _ :: _, _ :: _ => existsb (fun n => str_in n numbers) nums
          | _, _ => true
          end
  end.

Definition list_inbound (trunk_ids numbers : list string) : M SipReply :=
  let! all := reading list_sip_inbound_trunks in
  ret (RInbounds (filter (fun t => trunk_listed trunk_ids numbers (it_sip_trunk_id t) (it_numbers t) = true) all)).
Definition list_outbound (trunk_ids numbers : list string) : M SipReply :=
  let! all := reading list_sip_outbound_trunks in
  ret (ROutbounds (filter (fun t => trunk_listed trunk_ids numbers (ot_sip_trunk_id t) (ot_numbers t) = true) all)).

Definition delete_trunk (id : string) : M SipReply :=
  if (id =? "")%string then throw (invalid_argument, "trunk ID is required")
  else let! _ := writing (delete_sip_trunk id) in ret (RTrunkId id).

Definition create_rule (fresh : string) (now : Z) (r : CreateSipDispatchRuleRequest) : M SipReply :=
  let info := dispatch_rule_info r in
  if negb (sr_sip_dispatch_rule_id info =? "")%string then throw (invalid_argument, "dispatch rule ID must be empty")
  else match sr_rule info with
       | None => throw (invalid_argument, "dispatch rule is required")
       | Some _ =>
           let info := set_rule_ids fresh (stamp now) (stamp now) info in
           let! _ := writing (store_sip_dispatch_rule info) in ret (RRule info)
       end.

Definition update_sip_dispatch_rule (now : Z) (id : string)
    (action : option (Action SipDispatchRuleInfo SipDispatchRuleUpdate)) : M SipReply :=
  let! info := load_rule id in
  let! info := match action with
               | Some (Replace r) => ret (set_rule_ids id (sr_created_at r) (sr_updated_at r) r)
               | Some (Update_ u) => ret (update_rule u info)
               | None => throw (invalid_argument, "missing action")
               end in
  let info := set_rule_ids (sr_sip_dispatch_rule_id info) (sr_created_at info) (stamp now) info in
  let! _ := writing (store_sip_dispatch_rule info) in ret (RRule info).

Definition rule_listed (rule_ids trunk_ids : list string) (r : SipDispatchRuleInfo) : bool :=
  trunk_listed rule_ids trunk_ids (sr_sip_dispatch_rule_id r) (sr_trunk_ids r).

Definition list_rules (rule_ids trunk_ids : list string) : M SipReply :=
  let! all := reading list_sip_dispatch_rules in
  ret (RRules (filter (fun r => rule_listed rule_ids trunk_ids r = true) all)).

Definition delete_rule (id : string) : M SipReply :=
  if (id =? "")%string then throw (invalid_argument, "dispatch rule ID is required")
  else
    let! info := load_rule id in
    let! _ := writing (delete_sip_dispatch_rule id) in ret (RRule info).

Definition handle_request (fresh : string) (now : Z) (r : SipRequest) : M SipReply :=
  match r with
  | CreateSIPInboundTrunk t => create_inbound fresh now t
  | CreateSIPOutboundTrunk t => create_outbound fresh now t
  | GetSIPInboundTrunk id => let! t := load_inbound id in ret (RInbound t)
  | GetSIPOutboundTrunk id => let! t := load_outbound id in ret (ROutbound t)
  | UpdateSIPInboundTrunk id a => update_sip_inbound_trunk now id a
  | UpdateSIPOutboundTrunk id a => update_sip_outbound_trunk now id a
  | ListSIPInboundTrunk ids nums => list_inbound ids nums
  | ListSIPOutboundTrunk ids nums => list_outbound ids nums
  | DeleteSIPTrunk id => delete_trunk id
  | CreateSIPDispatchRule r => create_rule fresh now r
  | UpdateSIPDispatchRule id a => update_sip_dispatch_rule now id a
  | ListSIPDispatchRule ids tids => list_rules ids tids
  | DeleteSIPDispatchRule id => delete_rule id
  end.

(** The grant is checked before the body is parsed; [Err] is a body that does not parse. *)
Definition sip_service (token : VerifiedToken) (body : Result TwirpError SipRequest) (fresh : string) (now : Z) :
    M SipReply :=
  let! _ := lift (ensure_sip_admin token) in
  let! r := lift body in
  handle_request fresh now r.

(** * What the service does to the tables *)

Context `{!BackendLaws B H}.

(** Every entry is stored under its own id. *)
Definition keyed (t : Tables) : Prop :=
  (forall id x, tb_inbound t id = Some x -> it_sip_trunk_id x = id) /\
  (forall id x, tb_outbound t id = Some x -> ot_sip_trunk_id x = id) /\
  (forall id x, tb_rules t id = Some x -> sr_sip_dispatch_rule_id x = id).

(** The table writes behind a request and its reply. *)
Definition effect (r : SipRequest) (reply : SipReply) : list Op :=
  match r, reply with
  | (CreateSIPInboundTrunk _ | UpdateSIPInboundTrunk _ _), RInbound t => [StoreInbound t]
  | (CreateSIPOutboundTrunk _ | UpdateSIPOutboundTrunk _ _), ROutbound t => [StoreOutbound t]
  | DeleteSIPTrunk id, _ => [DeleteTrunk id]
  | (CreateSIPDispatchRule _ | UpdateSIPDispatchRule _ _), RRule r => [StoreRule r]
  | DeleteSIPDispatchRule id, _ => [DeleteRule id]
  | _, _ => []
  end.

(** What a successful reply says about the tables before the request. *)
Definition reply_fits (fresh : string) (r : SipRequest) (reply : SipReply) (t : Tables) : Prop :=
  match r, reply with
  | CreateSIPInboundTrunk _, RInbound x => it_sip_trunk_id x = fresh
  | CreateSIPOutboundTrunk _, ROutbound x => ot_sip_trunk_id x = fresh /\ ot_address x <> ""
  | CreateSIPDispatchRule _, RRule x => sr_sip_dispatch_rule_id x = fresh /\ sr_rule x <> None
  | GetSIPInboundTrunk id, RInbound x => tb_inbound t id = Some x
  | GetSIPOutboundTrunk id, ROutbound x => tb_outbound t id = Some x
  | UpdateSIPInboundTrunk id _, RInbound x => it_sip_trunk_id x = id /\ is_Some (tb_inbound t id)
  | UpdateSIPOutboundTrunk id _, ROutbound x => ot_sip_trunk_id x = id /\ is_Some (tb_outbound t id)
  | UpdateSIPDispatchRule id _, RRule x => sr_sip_dispatch_rule_id x = id /\ is_Some (tb_rules t id)
  | ListSIPInboundTrunk ids nums, RInbounds l => exists all, lists_view (tb_inbound t) all /\
      l = filter (fun t => trunk_listed ids nums (it_sip_trunk_id t) (it_numbers t) = true) all
  | ListSIPOutboundTrunk ids nums, ROutbounds l => exists all, lists_view (tb_outbound t) all /\
      l = filter (fun t => trunk_listed ids nums (ot_sip_trunk_id t) (ot_numbers t) = true) all
  | ListSIPDispatchRule ids tids, RRules l => exists all, lists_view (tb_rules t) all /\
      l = filter (fun r => rule_listed ids tids r = true) all
  | DeleteSIPTrunk id, RTrunkId id' => id' = id /\ id <> ""
  | DeleteSIPDispatchRule id, RRule x => tb_rules t id = Some x /\ id <> ""
  | _, _ => False
  end.

Lemma writing_inv f h h' u : writing f h = (Ok u, h') -> f h = (Ok (), h').
Proof. unfold writing. destruct (f h) as [[[]|e] h1]; cbn; naive_solver. Qed.

Lemma reading_inv {A} (f : H -> Result string A) h a h' : reading f h = (Ok a, h') -> f h = Ok a /\ h' = h.
Proof. unfold reading. destruct (f h); cbn; naive_solver. Qed.

Lemma load_inbound_inv id h t h' : store_wf h -> load_inbound id h = (Ok t, h') ->
  h' = h /\ tb_inbound (tables h) id = Some t.
Proof.
  intros (W & _) (o & h1 & [Hl ->]%reading_inv & E)%bind_inv. injection E as E <-.
  split; [done|]. apply ok_or_ok in E as ->. symmetry. by eapply load_with_view.
Qed.
Lemma load_outbound_inv id h t h' : store_wf h -> load_outbound id h = (Ok t, h') ->
  h' = h /\ tb_outbound (tables h) id = Some t.
Proof.
  intros (_ & W & _) (o & h1 & [Hl ->]%reading_inv & E)%bind_inv. injection E as E <-.
  split; [done|]. apply ok_or_ok in E as ->. symmetry. by eapply load_with_view.
Qed.
Lemma load_rule_inv id h t h' : store_wf h -> load_rule id h = (Ok t, h') ->
  h' = h /\ tb_rules (tables h) id = Some t.
Proof.
  intros (_ & _ & W & _) (o & h1 & [Hl ->]%reading_inv & E)%bind_inv. injection E as E <-.
  split; [done|]. apply ok_or_ok in E as ->. symmetry. by eapply load_with_view.
Qed.

(** A handler that ends in one store write [op] and answers [reply]. *)
Lemma write_reply (f : H -> Result string unit * H) op (reply : SipReply) h c h' :
  run op = f -> bind (writing f) (fun _ => ret reply) h = (Ok c, h') ->
  c = reply /\ run op h = (Ok (), h').
Proof.
  intros <- (u & h1 & Hw%writing_inv & E)%bind_inv. unfold ret in E. by simplify_eq.
Qed.

Lemma refine_op op h h' : store_wf h -> run op h = (Ok (), h') ->
  store_wf h' /\ tables h' ≡ spec op (tables h).
Proof. intros. split; [by eapply run_wf|by apply run_tables]. Qed.

(** The three facts of a successful request. *)
Definition refines (fresh : string) (r : SipRequest) (reply : SipReply) (h h' : H) : Prop :=
  store_wf h' /\ tables h' ≡ foldl (fun t op => spec op t) (tables h) (effect r reply) /\
  reply_fits fresh r reply (tables h).

Lemma create_refines fresh now r reply h h' : store_wf h ->
  match r with CreateSIPInboundTrunk _ | CreateSIPOutboundTrunk _ | CreateSIPDispatchRule _ => True | _ => False end ->
  handle_request fresh now r h = (Ok reply, h') -> refines fresh r reply h h'.
Proof.
  intros Hwf Hr E. destruct r; try done; cbn [handle_request] in E.
  - unfold create_inbound in E. cbv zeta in E. case_match; [done|].
    eapply (write_reply _ (StoreInbound _)) in E as [-> E]; [|done].
    by destruct (refine_op _ _ _ Hwf E).
  - unfold create_outbound in E. cbv zeta in E. case_match; [done|]. case_match; [done|].
    eapply (write_reply _ (StoreOutbound _)) in E as [-> E]; [|done]. bool_to_prop.
    by destruct (refine_op _ _ _ Hwf E).
  - unfold create_rule in E. cbv zeta in E. case_match; [done|]. destruct (sr_rule _) eqn:Er; [|done].
    eapply (write_reply _ (StoreRule _)) in E as [-> E]; [|done].
    destruct (refine_op _ _ _ Hwf E). split_and!; try done. cbn. by rewrite Er.
Qed.

Lemma update_refines fresh now r reply h h' : store_wf h -> keyed (tables h) ->
  match r with UpdateSIPInboundTrunk _ _ | UpdateSIPOutboundTrunk _ _ | UpdateSIPDispatchRule _ _ => True | _ => False end ->
  handle_request fresh now r h = (Ok reply, h') -> refines fresh r reply h h'.
Proof.
  intros Hwf (K1 & K2 & K3) Hr E. destruct r; try done; cbn [handle_request] in E.
  - apply bind_inv in E as (t & h1 & Hl & E). apply load_inbound_inv in Hl as [-> Hl]; [|done].
    apply bind_inv in E as (t' & h2 & Ha & E).
    assert (h2 = h /\ it_sip_trunk_id t' = id) as [-> Hid].
    { destruct action as [[]|]; unfold ret in Ha; simplify_eq; (split; [done|]); cbn; eauto. }
    cbv zeta in E. eapply (write_reply _ (StoreInbound _)) in E as [-> E]; [|done].
    destruct (refine_op _ _ _ Hwf E). split_and!; try done; cbn; eauto.
  - apply bind_inv in E as (t & h1 & Hl & E). apply load_outbound_inv in Hl as [-> Hl]; [|done].
    apply bind_inv in E as (t' & h2 & Ha & E).
    assert (h2 = h /\ ot_sip_trunk_id t' = id) as [-> Hid].
    { destruct action as [[]|]; unfold ret in Ha; simplify_eq; (split; [done|]); cbn; eauto. }
    cbv zeta in E. eapply (write_reply _ (StoreOutbound _)) in E as [-> E]; [|done].
    destruct (refine_op _ _ _ Hwf E). split_and!; try done; cbn; eauto.
  - apply bind_inv in E as (t & h1 & Hl & E). apply load_rule_inv in Hl as [-> Hl]; [|done].
    apply bind_inv in E as (t' & h2 & Ha & E).
    assert (h2 = h /\ sr_sip_dispatch_rule_id t' = id) as [-> Hid].
    { destruct action as [[]|]; unfold ret in Ha; simplify_eq; (split; [done|]); cbn; eauto. }
    cbv zeta in E. eapply (write_reply _ (StoreRule _)) in E as [-> E]; [|done].
    destruct (refine_op _ _ _ Hwf E). split_and!; try done; cbn; eauto.
Qed.

Lemma delete_refines fresh now r reply h h' : store_wf h ->
  match r with DeleteSIPTrunk _ | DeleteSIPDispatchRule _ => True | _ => False end ->
  handle_request fresh now r h = (Ok reply, h') -> refines fresh r reply h h'.
Proof.
  intros Hwf Hr E. destruct r; try done; cbn [handle_request] in E.
  - unfold delete_trunk in E. case_match; [done|]. bool_to_prop.
    eapply (write_reply _ (DeleteTrunk _)) in E as [-> E]; [|done].
    by destruct (refine_op _ _ _ Hwf E).
  - unfold delete_rule in E. case_match; [done|]. bool_to_prop.
    apply bind_inv in E as (t & h1 & Hl & E). apply load_rule_inv in Hl as [-> Hl]; [|done].
    eapply (write_reply _ (DeleteRule _)) in E as [-> E]; [|done].
    by destruct (refine_op _ _ _ Hwf E).
Qed.

Lemma read_refines fresh now r reply h h' : store_wf h ->
  match r with GetSIPInboundTrunk _ | GetSIPOutboundTrunk _ | ListSIPInboundTrunk _ _
             | ListSIPOutboundTrunk _ _ | ListSIPDispatchRule _ _ => True | _ => False end ->
  handle_request fresh now r h = (Ok reply, h') -> refines fresh r reply h h'.
Proof.
  intros Hwf Hr E. pose proof Hwf as (W1 & W2 & W3 & _).
  destruct r; try done; cbn [handle_request] in E; apply bind_inv in E as (t & h1 & Hl & E);
    unfold ret in E; simplify_eq.
  - by apply load_inbound_inv in Hl as [-> Hl].
  - by apply load_outbound_inv in Hl as [-> Hl].
  - apply reading_inv in Hl as [Hl ->]. split_and!; try done.
    exists t. split; [by eapply list_with_view|done].
  - apply reading_inv in Hl as [Hl ->]. split_and!; try done.
    exists t. split; [by eapply list_with_view|done].
  - apply reading_inv in Hl as [Hl ->]. split_and!; try done.
    exists t. split; [by eapply list_with_view|done].
Qed.

Lemma request_refines fresh now r reply h h' : store_wf h -> keyed (tables h) ->
  handle_request fresh now r h = (Ok reply, h') -> refines fresh r reply h h'.
Proof.
  intros Hwf Hk E. destruct r;
    first [by eapply create_refines|by eapply update_refines|by eapply delete_refines|by eapply read_refines].
Qed.

#[global] Instance keyed_proper : Proper ((≡) ==> iff) keyed.
Proof.
  intros a b (E1 & E2 & E3 & _). unfold keyed. by setoid_rewrite E1; setoid_rewrite E2; setoid_rewrite E3.
Qed.

Lemma spec_keyed op t : keyed t -> keyed (spec op t).
Proof.
  intros (K1 & K2 & K3). destruct t, op; cbn in *; split_and!; cbn; unfold upd; intros i x;
    try case_decide; intros; simplify_eq; eauto.
Qed.

(** Handlers that keep the state when they refuse a request. *)
Definition quiet {A} (m : M A) : Prop :=
  forall h e h', m h = (Err e, h') -> e.1 <> twirp_internal -> h' = h.

Lemma quiet_keeps {A} (m : M A) : keeps m -> quiet m.
Proof. intros Hk h e h' E _. pose proof (Hk h) as Hh. by rewrite E in Hh. Qed.
Lemma keeps_reading {A} (f : H -> Result string A) : keeps (reading f). Proof. done. Qed.
Lemma quiet_bind {A C} (m : M A) (k : A -> M C) : keeps m -> (forall a, quiet (k a)) -> quiet (bind m k).
Proof.
  intros Hm Hk h e h'. unfold bind. pose proof (Hm h) as E. destruct (m h) as [[a|e'] h1]; cbn in *; subst.
  - apply Hk.
  - by intros [= <- <-].
Qed.
Lemma quiet_writing (f : H -> Result string unit * H) (reply : SipReply) :
  quiet (bind (writing f) (fun _ => ret reply)).
Proof.
  intros h e h'. unfold bind, writing. destruct (f h) as [[[]|e'] h1]; cbn; [done|]. by intros [= <- <-].
Qed.
#[local] Hint Resolve keeps_ret keeps_throw keeps_lift keeps_reading keeps_bind : keeps.
#[local] Hint Resolve quiet_keeps quiet_bind quiet_writing : keeps.

Lemma keeps_load_inbound id : keeps (load_inbound id).
Proof. unfold load_inbound; auto with keeps. Qed.
Lemma keeps_load_outbound id : keeps (load_outbound id).
Proof. unfold load_outbound; auto with keeps. Qed.
Lemma keeps_load_rule id : keeps (load_rule id).
Proof. unfold load_rule; auto with keeps. Qed.
#[local] Hint Resolve keeps_load_inbound keeps_load_outbound keeps_load_rule : keeps.

Lemma request_quiet fresh now r : quiet (handle_request fresh now r).
Proof.
  destruct r; cbn [handle_request];
    unfold create_inbound, create_outbound, create_rule, update_sip_inbound_trunk, update_sip_outbound_trunk,
      update_sip_dispatch_rule, list_inbound, list_outbound, list_rules, delete_trunk, delete_rule; cbv zeta;
    repeat (case_match; try (by auto with keeps)); auto 8 with keeps.
Qed.

(** C32: the administration service refines the tables: a request succeeds only with the
    [sip.admin] grant, its reply describes the entry created, found or changed (a created one
    carries the drawn id, an updated one keeps the requested id), exactly that entry of that
    table changes, entries stay stored under their own id; and a refused request, without
    grant or with invalid arguments, leaves the store as it was. *)
Theorem sip_service_refines token body fresh now h :
  store_wf h -> keyed (tables h) ->
  match sip_service token body fresh now h with
  | (Ok reply, h') =>
      sip_admin (sip token) = true /\ keyed (tables h') /\
      exists r, body = Ok r /\ store_wf h' /\ reply_fits fresh r reply (tables h) /\
        tables h' ≡ foldl (fun t op => spec op t) (tables h) (effect r reply)
  | (Err (code, _), h') =>
      (sip_admin (sip token) = false -> code = unauthenticated) /\
      (code <> twirp_internal -> h' = h)
  end.
Proof.
  intros Hwf Hk. unfold sip_service, ensure_sip_admin.
  destruct (sip_admin (sip token)); [|done]. unfold bind at 1, lift at 1.
  destruct body as [r|e]; [|by destruct e].
  change (bind (lift (Ok r)) (fun r => handle_request fresh now r) h) with (handle_request fresh now r h).
  destruct (handle_request fresh now r h) as [[reply|e] h'] eqn:E.
  - destruct (request_refines _ _ _ _ _ _ Hwf Hk E) as (W & T & F).
    split; [done|]. split; [|by exists r]. rewrite T. clear T.
    generalize (effect r reply). intros ops. revert Hk. generalize (tables h).
    induction ops as [|op ops IH]; intros t Ht; [done|]. apply IH, spec_keyed, Ht.
  - destruct e as [code msg]. split; [done|]. intros Hc. by eapply (request_quiet fresh now r).
Qed.
End Service.

(** * List updates *)

Lemma add_all adds cur x :
  x ∈ foldl (fun cur add => if str_in add cur then cur else cur ++ [add]) cur adds <-> x ∈ cur \/ x ∈ adds.
Proof.
  revert cur. induction adds as [|a adds IH]; intros cur; cbn [foldl]; [set_solver|].
  rewrite IH. assert (str_in a cur = true <-> a ∈ cur) as Ha.
  { unfold str_in. rewrite existsb_exists. setoid_rewrite <- list_elem_of_In. split.
    - intros (y & Hy & E). apply String.eqb_eq in E. by subst.
    - intros Hy. exists a. by rewrite String.eqb_refl. }
  destruct (str_in a cur); [|set_solver]. assert (a ∈ cur) by (by apply Ha). set_solver.
Qed.

Lemma remove_all rems (cur : list string) x :
  x ∈ foldl (fun cur rem => filter (fun v => v <> rem) cur) cur rems <-> x ∈ cur /\ x ∉ rems.
Proof.
  revert cur. induction rems as [|r rems IH]; intros cur; cbn [foldl]; [set_solver|].
  rewrite IH, list_elem_of_filter. set_solver.
Qed.

(** A list update replaces, extends and prunes: the new list holds exactly the base
    elements (the [set] list when given, else nothing when cleared, else the current list) and
    the added ones, without the removed ones. *)
Theorem apply_list_update_spec current u x :
  x ∈ apply_list_update current u <->
  (x ∈ (match lu_set u with [] => if lu_clear u then [] else current | s => s end) \/ x ∈ lu_add u) /\
  x ∉ lu_remove u.
Proof. unfold apply_list_update. cbv zeta. rewrite remove_all, add_all. by destruct (lu_set u), (lu_clear u). Qed.

(** * A concrete run *)

Module ServiceDemo.
Definition admin : VerifiedToken :=
  mkToken "key" "id" "" "" ∅ "" VideoGrant_default (mkSipGrant true false) None "" "" None.
Definition trunk : SipInboundTrunkInfo := set_inbound_ids "ST_1" (Some (mkTimestamp 5 0)) (Some (mkTimestamp 5 0)) inbound_default.
Definition created : MemoryStore Encoded :=
  (sip_service (B := Encoded) admin (Ok (CreateSIPInboundTrunk None)) "ST_1" 5 empty_memory).2.
End ServiceDemo.

Lemma empty_memory_keyed : keyed (tables (B := Encoded) empty_memory).
Proof. split_and!; intros id x Hx; cbn in Hx; unfold Mem.get in Hx; cbn in Hx; by rewrite lookup_empty in Hx. Qed.

Lemma sip_service_refines_witness :
  sip_service (B := Encoded) ServiceDemo.admin (Ok (CreateSIPInboundTrunk None)) "ST_1" 5 empty_memory =
    (Ok (RInbound ServiceDemo.trunk), ServiceDemo.created) /\
  keyed (tables (B := Encoded) ServiceDemo.created) /\
  tables (B := Encoded) ServiceDemo.created ≡
    spec (StoreInbound ServiceDemo.trunk) (tables (B := Encoded) empty_memory).
Proof.
  split; [reflexivity|].
  pose proof (sip_service_refines (B := Encoded) ServiceDemo.admin (Ok (CreateSIPInboundTrunk None)) "ST_1" 5
    empty_memory empty_memory_wf empty_memory_keyed) as Hs.
  change (sip_service (B := Encoded) ServiceDemo.admin (Ok (CreateSIPInboundTrunk None)) "ST_1" 5 empty_memory)
    with (Ok (E := TwirpError) (RInbound ServiceDemo.trunk), ServiceDemo.created) in Hs.
  destruct Hs as (_ & Hk & r & Hr & _ & _ & Ht). injection Hr as <-. exact (conj Hk Ht).
Defined.
