(* ===== verification/Psrpc.v ===== *)
(** The psrpc message-bus protocol ([crates/lk-psrpc/src/lib.rs]): channel names, the in-memory
    bus, and the claim flow between clients and servers.

    The system of clients, server registrations and handler tasks is a transition relation
    [rpc_step]; a step is one turn of one of the source's loops.  A publication reaches a
    chosen subset of the subscribers of its channel, each once: the in-memory bus reaches all
    of them, Redis Pub/Sub may lose some.  (The retry of [RedisBus::publish] can also repeat one,
    which is not modelled here; see [RedisBus].)  Messages are carried decoded, without [sent_at], [affinity] and
    [handling], which nothing here reads.  [new_id] gives fresh ids, and times in nanoseconds
    stay within [i64]. *)
From Stdlib Require Import ZArith Lia Ascii String.
From stdpp Require Import base gmap strings list option.
From S2P Require Import Prelude RustStr.

Open Scope string_scope.
Open Scope list_scope.
Open Scope Z_scope.

(** * Channel names *)

(** A [&str] as its sequence of [char]s (Unicode scalar values). *)
Definition text := list Z.

Definition is_char (c : Z) : bool := ((0 <=? c) && (c <? 55296)) || ((57344 <=? c) && (c <? 1114112)).

(** [c.is_ascii_alphanumeric() || c == '_']. *)
Definition plain (c : Z) : bool :=
  ((48 <=? c) && (c <=? 57)) || ((65 <=? c) && (c <=? 90)) || ((97 <=? c) && (c <=? 122)) || (c =? 95).

Definition hex_char (d : Z) : ascii := ascii_of_nat (Z.to_nat (if d <? 10 then 48 + d else 87 + d)).

(** The last [w] hexadecimal digits, most significant first. *)
Fixpoint hex_digits (w : nat) (n : Z) : string :=
  match w with
  | O => ""
  | S w' => hex_digits w' (n / 16) +:+ String (hex_char (n mod 16)) ""
  end.

(** [format!("{:04x}", c)] and [format!("{:08x}", c)]: a [char] never needs more digits. *)
Definition escape (c : Z) : string :=
  if c <? 65536 then "u+" +:+ hex_digits 4 c else "U+" +:+ hex_digits 8 c.

Fixpoint sanitize (s : text) : string :=
  match s with
  | [] => ""
  | c :: s' => (if plain c then String (ascii_of_nat (Z.to_nat c)) "" else escape c) +:+ sanitize s'
  end.

Definition channel (parts : list text) : string :=
  join "|" (sanitize <$> filter (fun p => p <> []) parts).

(** ASCII literals as texts. *)
Fixpoint lit (s : string) : text := match s with "" => [] | String c s' => code c :: lit s' end.

Definition rpc_channel (service method topic : text) : string := channel [service; method; topic; lit "REQ"].
Definition claim_response_channel (service method topic : text) : string :=
  channel [service; method; topic; lit "RCLAIM"].
Definition response_channel (service client_id : text) : string := channel [service; client_id; lit "RES"].
Definition claim_request_channel (service client_id : text) : string := channel [service; client_id; lit "CLAIM"].

Example channel_ex : rpc_channel (lit "SIPInternal") (lit "TransferSIPParticipant") (lit "SC_a b") =
  "SIPInternal|TransferSIPParticipant|SC_au+0020b|REQ".
Proof. reflexivity. Qed.

(** * Messages *)

Section Protocol.
(** Encoded requests and responses; [empty] is the empty byte sequence. *)
Context {P : Type} (empty : P).

Record Request := mkRequest { rq_id : text; rq_client : text; rq_expiry : Z; rq_raw : P }.
Record Claim := mkClaim { cm_request_id : text; cm_server_id : text }.
Record Response := mkResponse { rs_id : text; rs_server : text; rs_error : string; rs_code : string; rs_raw : P }.

Inductive Msg :=
| MRequest (r : Request) | MClaimRequest (c : Claim) | MClaimResponse (c : Claim) | MResponse (r : Response).

(** [ChannelClosed] cannot occur, since the pending entry keeps the senders alive, and
    [Malformed] is for the typed wrappers; no step yields either. *)
Inductive PsrpcError :=
| Bus (e : string) | Timeout | ChannelClosed | Malformed (e : string) | Rpc (code message : string).

Definition response_payload (resp : Response) : Result PsrpcError P :=
  if negb (rs_error resp =? "")%string then Err (Rpc (rs_code resp) (rs_error resp)) else Ok (rs_raw resp).

(** * State *)

(** One [request_single], in progress or done: the request with its method and topic, the two
    inboxes, whether a server was granted, whether the client's [pending] map has it. *)
Record Call := mkCall {
  ca_request : Request; ca_service : text; ca_method : text; ca_topic : text;
  ca_claims : list Claim; ca_resps : list Response;
  ca_granted : bool; ca_pending : bool; ca_result : option (Result PsrpcError P);
}.

(** A client and its subscription queue. *)
Record Client := mkClient { cl_service : text; cl_queue : list (string * Msg) }.

(** One registered method and topic of a server: its subscription queue and the requests it
    bid for (client, payload, expiry). *)
Record Reg := mkReg {
  rg_server : text; rg_service : text; rg_method : text; rg_topic : text;
  rg_queue : list (string * Msg); rg_pending : gmap text (text * P * Z);
}.
Definition rpc_ch (g : Reg) : string := rpc_channel (rg_service g) (rg_method g) (rg_topic g).
Definition rclaim_ch (g : Reg) : string := claim_response_channel (rg_service g) (rg_method g) (rg_topic g).

(** A granted request whose handler runs. *)
Record Task := mkTask { tk_server : text; tk_service : text; tk_method : text; tk_client : text; tk_id : text; tk_raw : P }.

(** A handler call: server, method, request id, payload. *)
Record Exec := mkExec { ex_server : text; ex_method : text; ex_id : text; ex_raw : P }.

(** Clients by id, calls by request id (the [pending] maps of all clients and the calls that
    left them), registrations, running handlers, the handler calls made so far, the clock. *)
Record Sys := mkSys {
  sy_clients : gmap text Client; sy_calls : gmap text Call; sy_regs : list Reg;
  sy_tasks : list Task; sy_log : list Exec; sy_now : Z;
}.

(** * The bus *)

(** [publish]: the subscribers of the channel get the message, except those [lost] names (by
    their id and, for a registration, its channel). *)
Definition push_reg (lost : text -> string -> bool) (ch : string) (m : Msg) (g : Reg) : Reg :=
  if ((ch =? rpc_ch g)%string || (ch =? rclaim_ch g)%string) && negb (lost (rg_server g) (rpc_ch g))
  then mkReg (rg_server g) (rg_service g) (rg_method g) (rg_topic g) (rg_queue g ++ [(ch, m)]) (rg_pending g)
  else g.
Definition push_client (lost : text -> string -> bool) (ch : string) (m : Msg) (id : text) (c : Client) : Client :=
  if ((ch =? response_channel (cl_service c) id)%string || (ch =? claim_request_channel (cl_service c) id)%string)
     && negb (lost id "")
  then mkClient (cl_service c) (cl_queue c ++ [(ch, m)]) else c.

Definition publish (lost : text -> string -> bool) (ch : string) (m : Msg) (s : Sys) : Sys :=
  mkSys (map_imap (fun id c => Some (push_client lost ch m id c)) (sy_clients s)) (sy_calls s)
        (push_reg lost ch m <$> sy_regs s) (sy_tasks s) (sy_log s) (sy_now s).

(** * The client *)

Definition set_client (id : text) (c : Client) (s : Sys) : Sys :=
  mkSys (<[id := c]> (sy_clients s)) (sy_calls s) (sy_regs s) (sy_tasks s) (sy_log s) (sy_now s).
Definition set_call (id : text) (k : Call) (s : Sys) : Sys :=
  mkSys (sy_clients s) (<[id := k]> (sy_calls s)) (sy_regs s) (sy_tasks s) (sy_log s) (sy_now s).

(** [request_single] up to the publication of the request. *)
Definition start_call (lost : text -> string -> bool) (cid : text) (c : Client) (id method topic : text) (raw : P)
    (timeout : Z) (s : Sys) : Sys :=
  let request := mkRequest id cid (sy_now s + timeout) raw in
  let k := mkCall request (cl_service c) method topic [] [] false true None in
  publish lost (rpc_channel (cl_service c) method topic) (MRequest request) (set_call id k s).

Definition push_claim (cl : Claim) (k : Call) : Call :=
  mkCall (ca_request k) (ca_service k) (ca_method k) (ca_topic k) (ca_claims k ++ [cl]) (ca_resps k)
    (ca_granted k) (ca_pending k) (ca_result k).
Definition push_resp (r : Response) (k : Call) : Call :=
  mkCall (ca_request k) (ca_service k) (ca_method k) (ca_topic k) (ca_claims k) (ca_resps k ++ [r])
    (ca_granted k) (ca_pending k) (ca_result k).

(** Routing to the pending call of client [cid] with a request id. *)
Definition route (cid id : text) (f : Call -> Call) (s : Sys) : Sys :=
  match sy_calls s !! id with
  | Some k => if ca_pending k && bool_decide (rq_client (ca_request k) = cid) then set_call id (f k) s else s
  | None => s
  end.

Definition dispatch (cid : text) (m : Msg) (s : Sys) : Sys :=
  match m with
  | MClaimRequest cl => route cid (cm_request_id cl) (push_claim cl) s
  | MResponse r => route cid (rs_id r) (push_resp r) s
  | _ => s
  end.

(** A call that returns; [request_single] removes it from [pending], except on a timeout. *)
Definition finish (r : Result PsrpcError P) (keep : bool) (k : Call) : Call :=
  mkCall (ca_request k) (ca_service k) (ca_method k) (ca_topic k) (ca_claims k) (ca_resps k)
    (ca_granted k) keep (Some r).
Definition take_claim (claims : list Claim) (k : Call) : Call :=
  mkCall (ca_request k) (ca_service k) (ca_method k) (ca_topic k) claims (ca_resps k)
    true (ca_pending k) (ca_result k).

(** One turn of the loop of [request_single_inner]: a response first, then a claim; only the
    first claim is granted. *)
Definition call_step (lost : text -> string -> bool) (id : text) (k : Call) (s : Sys) : option Sys :=
  match ca_result k, ca_resps k, ca_claims k with
  | Some _, _, _ => None
  | None, r :: _, _ => Some (set_call id (finish (response_payload r) false k) s)
  | None, [], cl :: claims =>
      if ca_granted k then Some (set_call id (take_claim claims k) s)
      else Some (publish lost (claim_response_channel (ca_service k) (ca_method k) (ca_topic k)) (MClaimResponse cl)
                   (set_call id (take_claim claims k) s))
  | None, [], [] => None
  end.

(** * The server *)

Definition set_reg (i : nat) (g : Reg) (s : Sys) : Sys :=
  mkSys (sy_clients s) (sy_calls s) (<[i := g]> (sy_regs s)) (sy_tasks s) (sy_log s) (sy_now s).
Definition with_reg (g : Reg) (q : list (string * Msg)) (p : gmap text (text * P * Z)) : Reg :=
  mkReg (rg_server g) (rg_service g) (rg_method g) (rg_topic g) q p.

(** The spawned handler of a granted request. *)
Definition spawn (g : Reg) (client_id id : text) (raw : P) (s : Sys) : Sys :=
  mkSys (sy_clients s) (sy_calls s) (sy_regs s)
    (sy_tasks s ++ [mkTask (rg_server g) (rg_service g) (rg_method g) client_id id raw])
    (sy_log s ++ [mkExec (rg_server g) (rg_method g) id raw]) (sy_now s).

(** One turn of the loop of [register_topic] on the first queued message. *)
Definition reg_step (lost : text -> string -> bool) (i : nat) (g : Reg) (ch : string) (m : Msg)
    (q : list (string * Msg)) (s : Sys) : Sys :=
  let skip := set_reg i (with_reg g q (rg_pending g)) s in
  if (ch =? rpc_ch g)%string then
    match m with
    | MRequest req =>
        if rq_expiry req <=? sy_now s then skip
        else
          let pending := filter (fun e => e.2.2 > sy_now s) (rg_pending g) in
          let pending := <[rq_id req := (rq_client req, rq_raw req, rq_expiry req)]> pending in
          publish lost (claim_request_channel (rg_service g) (rq_client req))
            (MClaimRequest (mkClaim (rq_id req) (rg_server g)))
            (set_reg i (with_reg g q pending) s)
    | _ => skip
    end
  else if (ch =? rclaim_ch g)%string then
    match m with
    | MClaimResponse grant =>
        if bool_decide (cm_server_id grant <> rg_server g) then skip
        else match rg_pending g !! cm_request_id grant with
             | None => skip
             | Some (client_id, raw, _) =>
                 spawn g client_id (cm_request_id grant) raw
                   (set_reg i (with_reg g q (delete (cm_request_id grant) (rg_pending g))) s)
             end
    | _ => skip
    end
  else skip.

(** The response a handler's result becomes. *)
Definition make_response (id server : text) (r : Result (string * string) P) : Response :=
  match r with
  | Ok bytes => mkResponse id server "" "" bytes
  | Err (code, message) => mkResponse id server message code empty
  end.

(** The spawned task answers. *)
Definition task_step (lost : text -> string -> bool) (i : nat) (t : Task) (r : Result (string * string) P) (s : Sys) : Sys :=
  publish lost (response_channel (tk_service t) (tk_client t)) (MResponse (make_response (tk_id t) (tk_server t) r))
    (mkSys (sy_clients s) (sy_calls s) (sy_regs s) (delete i (sy_tasks s)) (sy_log s) (sy_now s)).

(** * The transition relation *)

(** The results a method may return for a payload. *)
Variable handler : text -> P -> Result (string * string) P -> Prop.

(** Names of services and methods: non-empty texts. *)
Definition name_ok (t : text) : Prop := t <> [] /\ Forall (fun c => is_char c = true) t.
Definition text_ok (t : text) : Prop := Forall (fun c => is_char c = true) t.

Inductive rpc_step : Sys -> Sys -> Prop :=
| step_start s lost cid c id method topic raw timeout :
    sy_clients s !! cid = Some c -> sy_calls s !! id = None -> name_ok method -> text_ok topic ->
    rpc_step s (start_call lost cid c id method topic raw timeout s)
| step_dispatch s cid c ch m q :
    sy_clients s !! cid = Some c -> cl_queue c = (ch, m) :: q ->
    rpc_step s (dispatch cid m (set_client cid (mkClient (cl_service c) q) s))
| step_call s s' lost id k :
    sy_calls s !! id = Some k -> call_step lost id k s = Some s' -> rpc_step s s'
| step_publish_failed s id k e :
    sy_calls s !! id = Some k -> ca_result k = None ->
    rpc_step s (set_call id (finish (Err (Bus e)) false k) s)
| step_timeout s id k :
    sy_calls s !! id = Some k -> ca_result k = None ->
    rpc_step s (set_call id (finish (Err Timeout) true k) s)
| step_reg s lost i g ch m q :
    sy_regs s !! i = Some g -> rg_queue g = (ch, m) :: q ->
    rpc_step s (reg_step lost i g ch m q s)
| step_task s lost i t r :
    sy_tasks s !! i = Some t -> handler (tk_method t) (tk_raw t) r ->
    rpc_step s (task_step lost i t r s)
| step_tick s now :
    rpc_step s (mkSys (sy_clients s) (sy_calls s) (sy_regs s) (sy_tasks s) (sy_log s) now).

(** Clients and registrations before any call.  A server registers a method and topic once. *)
Definition reg_key (g : Reg) : text * string := (rg_server g, rclaim_ch g).
Definition initial (s : Sys) : Prop :=
  sy_calls s = ∅ /\ sy_tasks s = [] /\ sy_log s = [] /\
  (forall cid c, sy_clients s !! cid = Some c -> cl_queue c = [] /\ name_ok (cl_service c)) /\
  (forall g, g ∈ sy_regs s -> rg_queue g = [] /\ rg_pending g = ∅ /\
     name_ok (rg_service g) /\ name_ok (rg_method g) /\ text_ok (rg_topic g)) /\
  NoDup (reg_key <$> sy_regs s).
End Protocol.

(** * Channel names are injective *)

Lemma hex_digits_len w n : str_len (hex_digits w n) = Z.of_nat w.
Proof.
  revert n. induction w as [|w IH]; intros n; [done|]. cbn [hex_digits]. rewrite str_len_app, IH.
  unfold str_len; cbn. lia.
Qed.

Lemma code_ascii n : 0 <= n < 256 -> code (ascii_of_nat (Z.to_nat n)) = n.
Proof. intros. unfold code. rewrite nat_ascii_embedding; lia. Qed.

Lemma hex_char_code d : 0 <= d < 16 -> code (hex_char d) = if d <? 10 then 48 + d else 87 + d.
Proof. intros. unfold hex_char. apply code_ascii. case_match; lia. Qed.

Lemma hex_digits_inj w n n' : 0 <= n < 16 ^ Z.of_nat w -> 0 <= n' < 16 ^ Z.of_nat w ->
  hex_digits w n = hex_digits w n' -> n = n'.
Proof.
  revert n n'. induction w as [|w IH]; intros n n' Hn Hn' E; [cbn in *; lia|].
  rewrite Nat2Z.inj_succ, Z.pow_succ_r in Hn, Hn' by lia. cbn [hex_digits] in E.
  apply str_app_inj in E as [E1 E2]; [|by rewrite !hex_digits_len].
  injection E2 as E2. apply (f_equal code) in E2.
  pose proof (Z.mod_pos_bound n 16 ltac:(lia)). pose proof (Z.mod_pos_bound n' 16 ltac:(lia)).
  rewrite !hex_char_code in E2 by lia. 
  assert (n mod 16 = n' mod 16) by (repeat case_match; lia).
  assert (n / 16 = n' / 16).
  { apply IH; [split; [apply Z.div_pos; lia|apply Z.div_lt_upper_bound; lia]..|done]. }
  rewrite (Z.div_mod n 16), (Z.div_mod n' 16) by lia. congruence.
Qed.

Lemma hex_digits_free c w n : (forall d, 0 <= d < 16 -> hex_char d <> c) -> free_of c (hex_digits w n).
Proof.
  intros Hc. revert n. induction w as [|w IH]; intros n; [done|]. cbn [hex_digits].
  apply free_of_app. split; [apply IH|]. apply free_of_cons. split; [|done].
  apply Hc. apply Z.mod_pos_bound. lia.
Qed.

Lemma plain_code c : plain c = true -> code (ascii_of_nat (Z.to_nat c)) = c.
Proof. unfold plain. intros. apply code_ascii. repeat (apply orb_true_iff in H as [H|H]); bool_to_prop; lia. Qed.

(** What a sanitized text starts with: never a [+]. *)
Lemma sanitize_head s : match sanitize s with "" => s = [] | String a _ => code a <> 43 end.
Proof.
  destruct s as [|c s]; [done|]. cbn [sanitize]. destruct (plain c) eqn:Hc.
  - cbn [String.append]. rewrite plain_code by done. intros ->. by vm_compute in Hc.
  - unfold escape. destruct (c <? 65536); cbn [String.append]; intros E; by vm_compute in E.
Qed.

Lemma sanitize_free s : free_of "|" (sanitize s).
Proof.
  assert (forall d, 0 <= d < 16 -> hex_char d <> "|"%char) as Hh.
  { intros d Hd E. apply (f_equal code) in E. rewrite hex_char_code in E by done.
    change (code "|") with 124 in E. case_match; lia. }
  induction s as [|c s IH]; [done|]. cbn [sanitize]. apply free_of_app. split; [|done].
  destruct (plain c) eqn:Hc.
  - apply free_of_cons. split; [|done]. intros E. apply (f_equal code) in E.
    rewrite plain_code in E by done. change (code "|") with 124 in E. by subst.
  - unfold escape. destruct (c <? 65536); apply free_of_app; (split; [done|by apply hex_digits_free]).
Qed.

Lemma sanitize_inj s s' : text_ok s -> text_ok s' -> sanitize s = sanitize s' -> s = s'.
Proof.
  revert s'. induction s as [|c s IH]; intros s' Hs Hs' E.
  { pose proof (sanitize_head s') as H. by rewrite <- E in H. }
  destruct s' as [|c' s']; [pose proof (sanitize_head (c :: s)) as H; by rewrite E in H|].
  apply list.Forall_cons in Hs as [Hc Hs], Hs' as [Hc' Hs']. cbn [sanitize] in E.
  assert (forall x t, plain x = true -> forall a b, 
    String (ascii_of_nat (Z.to_nat x)) "" +:+ sanitize t = String a (String "+" b) -> False) as Hplus.
  { intros x t _ a b Ex. injection Ex as _ Ex. pose proof (sanitize_head t) as H. by rewrite Ex in H. }
  destruct (plain c) eqn:Pc, (plain c') eqn:Pc'.
  - injection E as E1 E2. apply (f_equal code) in E1. rewrite !plain_code in E1 by done. subst. f_equal. auto.
  - exfalso. unfold escape in E. destruct (c' <? 65536); cbn [String.append] in E; by eapply (Hplus c s).
  - exfalso. symmetry in E. unfold escape in E. destruct (c <? 65536); cbn [String.append] in E; by eapply (Hplus c' s').
  - unfold is_char in Hc, Hc'.
    assert (0 <= c < 16 ^ 8 /\ 0 <= c' < 16 ^ 8) as [B B'].
    { split; [apply orb_true_iff in Hc as [?|?]|apply orb_true_iff in Hc' as [?|?]]; bool_to_prop; lia. }
    unfold escape in E. destruct (c <? 65536) eqn:L, (c' <? 65536) eqn:L'; try done;
      (apply str_app_inj in E as [E1 E2]; [|by rewrite !str_len_app, !hex_digits_len]);
      (apply str_app_inj in E1 as [_ E1]; [|done]); apply hex_digits_inj in E1; bool_to_prop; try lia;
      subst; f_equal; auto.
Qed.

Lemma split_join l : l <> [] -> Forall (free_of "|") l -> split_on "|" (join "|" l) = l.
Proof.
  induction l as [|x l IH]; [done|]. intros _ [Hx Hl]%list.Forall_cons.
  destruct l as [|y l]; [by apply split_on_free|].
  change (join "|" (x :: y :: l)) with (x +:+ String "|" (join "|" (y :: l))).
  rewrite split_on_app by done. f_equal. by apply IH.
Qed.

Lemma channel_inj parts parts' : Forall text_ok parts -> Forall text_ok parts' ->
  channel parts = channel parts' -> filter (fun p => p <> []) parts = filter (fun p => p <> []) parts'.
Proof.
  intros Hp Hp' E. unfold channel in E.
  set (l := filter (fun p => p <> []) parts) in *. set (l' := filter (fun p => p <> []) parts') in *.
  assert (forall l0 : list text, Forall (free_of "|") (sanitize <$> l0)) as Hf.
  { intros l0. apply Forall_fmap, Forall_true. intros. apply sanitize_free. }
  assert (forall x (l0 : list text), (forall t, t ∈ x :: l0 -> t <> []) ->
    join "|" (sanitize <$> x :: l0) <> "") as Hne.
  { intros x l0 Hx Ej. pose proof (sanitize_head x) as Hh.
    assert (x <> []) by (apply Hx; left). destruct (sanitize x) eqn:Es; [done|].
    destruct l0; cbn in Ej; rewrite Es in Ej; done. }
  assert (forall t, t ∈ l -> t <> [] /\ text_ok t) as Hl.
  { intros t [? Ht]%list_elem_of_filter. split; [done|]. by eapply list.Forall_forall in Hp. }
  assert (forall t, t ∈ l' -> t <> [] /\ text_ok t) as Hl'.
  { intros t [? Ht]%list_elem_of_filter. split; [done|]. by eapply list.Forall_forall in Hp'. }
  assert (sanitize <$> l = sanitize <$> l') as Es.
  { destruct l as [|x l]; destruct l' as [|x' l']; [done|..].
    - exfalso. eapply Hne; [|symmetry; exact E]. intros; by apply Hl'.
    - exfalso. eapply Hne; [|exact E]. intros; by apply Hl.
    - apply (f_equal (split_on "|")) in E. rewrite !split_join in E; try done; apply Hf. }
  clear E Hp Hp'. revert Es Hl Hl'. clear Hf Hne. generalize l'. induction l as [|x l0 IH]; intros [|x' l1] E H1 H2;
    try done. cbn in E. injection E as E1 E2. f_equal.
  - apply sanitize_inj; [apply H1; left|apply H2; left|done].
  - apply IH; [done|intros; apply H1; by right|intros; apply H2; by right].
Qed.

Lemma name_text_ok t : name_ok t -> text_ok t. Proof. by intros [_ ?]. Qed.

Lemma channel4_inj s m t s' m' t' suffix :
  name_ok s -> name_ok m -> text_ok t -> name_ok s' -> name_ok m' -> text_ok t' -> name_ok suffix ->
  channel [s; m; t; suffix] = channel [s'; m'; t'; suffix] -> s = s' /\ m = m' /\ t = t'.
Proof.
  intros Hs Hm Ht Hs' Hm' Ht' Hx E. apply channel_inj in E;
    [|repeat (constructor; [by auto using name_text_ok|]); constructor..].
  destruct Hs as [Hs _], Hm as [Hm _], Hs' as [Hs' _], Hm' as [Hm' _], Hx as [Hx _].
  rewrite !filter_cons, !filter_nil in E.
  rewrite !(decide_True (P := s <> [])), !(decide_True (P := m <> [])), !(decide_True (P := s' <> [])),
    !(decide_True (P := m' <> [])), !(decide_True (P := suffix <> [])) in E by done.
  repeat case_decide; simplify_eq; split_and!; try done.
Qed.

Lemma lit_ok s : Forall (fun c => is_char c = true) (lit s).
Proof.
  induction s as [|c s IH]; constructor; [|done]. unfold is_char, code.
  pose proof (nat_ascii_bounded c). lia.
Qed.

Lemma rpc_channel_inj s m t s' m' t' :
  name_ok s -> name_ok m -> text_ok t -> name_ok s' -> name_ok m' -> text_ok t' ->
  rpc_channel s m t = rpc_channel s' m' t' -> s = s' /\ m = m' /\ t = t'.
Proof.
  intros. apply (channel4_inj s m t s' m' t' (lit "REQ")); try done. split; [done|apply lit_ok].
Qed.

(** * One grant, one execution *)

Section Once.
Context {P : Type} (empty : P) (handler : text -> P -> Result (string * string) P -> Prop).
Notation Sys := (@Sys P).
Notation Reg := (@Reg P).
Notation Msg := (@Msg P).

(** A queued grant the registration will act on, for request [id]. *)
Definition effective (id : text) (g : Reg) (e : string * Msg) : bool :=
  match e.2 with
  | MClaimResponse cl => (e.1 =? rclaim_ch g)%string && bool_decide (cm_request_id cl = id) &&
                         bool_decide (cm_server_id cl = rg_server g)
  | _ => false
  end.
Definition grants (id : text) (g : Reg) : nat := length (filter (fun e => effective id g e = true) (rg_queue g)).
Definition total_grants (id : text) (regs : list Reg) : nat := sum_list_with (grants id) regs.
Definition execs (id : text) (log : list (@Exec P)) : nat := length (filter (fun e => ex_id e = id) log).

Lemma effective_ext id g g' e : rg_server g' = rg_server g -> rclaim_ch g' = rclaim_ch g ->
  effective id g' e = effective id g e.
Proof. intros H1 H2. unfold effective. by rewrite H1, H2. Qed.

Lemma grants_push id g g' ch m : rg_server g' = rg_server g -> rclaim_ch g' = rclaim_ch g ->
  rg_queue g' = rg_queue g ++ [(ch, m)] ->
  grants id g' = (grants id g + if effective id g (ch, m) then 1 else 0)%nat.
Proof.
  intros H1 H2 Hq. unfold grants. rewrite Hq, list.filter_app, length_app.
  rewrite (list_filter_iff _ (fun e => effective id g e = true)) by (intros e; by rewrite (effective_ext id g)).
  rewrite (list_filter_iff _ (fun e => effective id g e = true) [_]) by (intros e; by rewrite (effective_ext id g)).
  rewrite filter_cons, filter_nil. f_equal.
  destruct (effective id g (ch, m)); [by rewrite decide_True|by rewrite decide_False].
Qed.

Lemma push_reg_static lost ch (m : Msg) (g : Reg) :
  rg_server (push_reg lost ch m g) = rg_server g /\ rpc_ch (push_reg lost ch m g) = rpc_ch g /\
  rclaim_ch (push_reg lost ch m g) = rclaim_ch g /\ rg_pending (push_reg lost ch m g) = rg_pending g.
Proof. unfold push_reg. by case_match. Qed.

Lemma grants_push_reg id lost ch m g :
  (grants id (push_reg lost ch m g) <= grants id g + if effective id g (ch, m) then 1 else 0)%nat.
Proof. unfold push_reg. case_match; [|lia]. by rewrite (grants_push id g _ ch m). Qed.

Lemma reg_keys_push lost ch (m : Msg) (regs : list Reg) : reg_key <$> (push_reg lost ch m <$> regs) = reg_key <$> regs.
Proof.
  induction regs as [|g regs IH]; cbn; [done|]. f_equal; [|done].
  destruct (push_reg_static lost ch m g) as (H1 & _ & H2 & _). unfold reg_key. by rewrite H1, H2.
Qed.

(** A message that is not a grant for [id] adds no grant for it. *)
Lemma total_push_other id lost ch (m : Msg) (regs : list Reg) : (forall g, effective id g (ch, m) = false) ->
  (total_grants id (push_reg lost ch m <$> regs) <= total_grants id regs)%nat.
Proof.
  intros Hm. induction regs as [|g regs IH]; cbn in *; [done|].
  pose proof (grants_push_reg id lost ch m g) as Hg. rewrite Hm in Hg. unfold total_grants in *. lia.
Qed.

(** A grant reaches one registration that acts on it. *)
Lemma total_push_grant id lost ch (m : Msg) (regs : list Reg) : NoDup (reg_key <$> regs) ->
  (total_grants id (push_reg lost ch m <$> regs) <= total_grants id regs + 1)%nat.
Proof.
  induction regs as [|g regs IH]; intros Hnd; cbn in *; [lia|].
  apply list.NoDup_cons in Hnd as [Hni Hnd]. pose proof (grants_push_reg id lost ch m g) as Hg.
  destruct (effective id g (ch, m)) eqn:Heff; [|specialize (IH Hnd); unfold total_grants in *; lia].
  enough (total_grants id (push_reg lost ch m <$> regs) <= total_grants id regs)%nat by (unfold total_grants in *; lia).
  clear IH Hg Hnd. induction regs as [|g' regs IH]; cbn in *; [done|].
  apply not_elem_of_cons in Hni as [Hk Hni]. specialize (IH Hni).
  pose proof (grants_push_reg id lost ch m g') as Hg.
  assert (effective id g' (ch, m) = false) as E.
  { apply not_true_is_false. intros E. unfold effective in E, Heff. cbn [fst snd] in E, Heff. destruct m; try done.
    bool_to_prop. apply Hk. unfold reg_key. congruence. }
  rewrite E in Hg. unfold total_grants in *. lia.
Qed.

Local Ltac sys_cbn := cbn [publish set_call set_reg set_client spawn sy_clients sy_calls sy_regs sy_tasks sy_log sy_now].

Record rpc_inv (s : Sys) : Prop := {
  inv_keys : NoDup (reg_key <$> sy_regs s);
  inv_once id : (execs id (sy_log s) + total_grants id (sy_regs s) <= 1)%nat;
  inv_granted id : (1 <= execs id (sy_log s) + total_grants id (sy_regs s))%nat ->
    exists k, sy_calls s !! id = Some k /\ ca_granted k = true;
  inv_claims id k cl : sy_calls s !! id = Some k -> cl ∈ ca_claims k -> cm_request_id cl = id;
}.

Lemma initial_inv (s : Sys) : initial s -> rpc_inv s.
Proof.
  intros (Hc & Ht & Hl & _ & Hr & Hk).
  assert (forall id, execs id (sy_log s) + total_grants id (sy_regs s) = 0)%nat as H0.
  { intros id. rewrite Hl. cbn. clear Hk. induction (sy_regs s) as [|g regs IH]; [done|].
    cbn. unfold total_grants in IH. rewrite IH by (intros; apply Hr; by right).
    destruct (Hr g) as [Hq _]; [left|]. unfold grants. by rewrite Hq. }
  split; [done|intros id; rewrite H0; lia|intros id; rewrite H0; lia|].
  intros id k cl Hk'. by rewrite Hc, lookup_empty in Hk'.
Qed.

(** Steps that leave registrations and log alone and keep grants and claims. *)
Lemma inv_calls_step (s s' : Sys) : rpc_inv s -> sy_regs s' = sy_regs s -> sy_log s' = sy_log s ->
  (forall id k, sy_calls s !! id = Some k -> exists k', sy_calls s' !! id = Some k' /\
     (ca_granted k = true -> ca_granted k' = true)) ->
  (forall id k' cl, sy_calls s' !! id = Some k' -> cl ∈ ca_claims k' -> cm_request_id cl = id) ->
  rpc_inv s'.
Proof.
  intros [I1 I2 I3 I4] Hr Hl Hk Hc. split; rewrite ?Hr, ?Hl; [done|done| |done].
  intros id. intros (k & E & Hg)%I3. destruct (Hk _ _ E) as (k' & E' & Hg'). eauto.
Qed.

Lemma inv_publish lost ch m (s : Sys) : rpc_inv s -> (forall id g, effective id g (ch, m) = false) ->
  rpc_inv (publish lost ch m s).
Proof.
  intros [I1 I2 I3 I4] Hm. split; sys_cbn.
  - by rewrite reg_keys_push.
  - intros id. pose proof (total_push_other id lost ch m (sy_regs s) (Hm id)). specialize (I2 id). lia.
  - intros id Hge. apply I3. pose proof (total_push_other id lost ch m (sy_regs s) (Hm id)). lia.
  - done.
Qed.

Lemma inv_set_call id k k0 (s : Sys) : rpc_inv s -> (sy_calls s !! id = Some k0 -> ca_granted k0 = true -> ca_granted k = true) ->
  (forall cl, cl ∈ ca_claims k -> cm_request_id cl = id) -> sy_calls s !! id = Some k0 \/ sy_calls s !! id = None ->
  rpc_inv (set_call id k s).
Proof.
  intros Hi Hg Hc Hk. apply (inv_calls_step s); try done; sys_cbn.
  - intros id' k' Hk'. destruct (decide (id = id')) as [<-|Hne].
    + rewrite lookup_insert_eq. exists k. split; [done|]. destruct Hk as [Hk|Hk]; rewrite Hk in Hk'; [|done].
      injection Hk' as <-. auto.
    + rewrite lookup_insert_ne by done. eauto.
  - intros id' k' cl. destruct (decide (id = id')) as [<-|Hne].
    + rewrite lookup_insert_eq. intros [= <-]. apply Hc.
    + rewrite lookup_insert_ne by done. apply (inv_claims _ Hi).
Qed.

Lemma inv_set_client cid c (s : Sys) : rpc_inv s -> rpc_inv (set_client cid c s).
Proof. intros Hi. apply (inv_calls_step s); try done; [eauto|apply (inv_claims _ Hi)]. Qed.

(** Consuming the first message of a registration. *)
Lemma grants_pop id g ch m q p : rg_queue g = (ch, m) :: q ->
  grants id g = ((if effective id g (ch, m) then 1 else 0) + grants id (with_reg g q p))%nat.
Proof.
  intros Hq. unfold grants. rewrite Hq, filter_cons. cbn [rg_queue with_reg].
  assert (filter (fun e => effective id (with_reg g q p) e = true) q = filter (fun e => effective id g e = true) q) as ->.
  { apply list_filter_iff. intros e. by rewrite (effective_ext id g (with_reg g q p)). }
  destruct (effective id g (ch, m)); [by rewrite decide_True|by rewrite decide_False].
Qed.

Lemma total_insert id regs i g g' : regs !! i = Some g ->
  (total_grants id (<[i := g']> regs) + grants id g = total_grants id regs + grants id g')%nat.
Proof.
  unfold total_grants. generalize (grants id) as f. intros f. revert i.
  induction regs as [|x regs IH]; intros [|i] E; [done|done|..].
  - injection E as ->. cbn. lia.
  - specialize (IH i E). change (<[S i := g']> (x :: regs)) with (x :: <[i := g']> regs).
    cbn [sum_list_with]. lia.
Qed.

Lemma reg_keys_insert (regs : list Reg) i g g' : regs !! i = Some g -> reg_key g' = reg_key g ->
  reg_key <$> <[i := g']> regs = reg_key <$> regs.
Proof. intros E Hk. rewrite list_fmap_insert, Hk. apply list_insert_id. by rewrite list_lookup_fmap, E. Qed.

Lemma inv_pop (s : Sys) i g ch m q p : rpc_inv s -> sy_regs s !! i = Some g -> rg_queue g = (ch, m) :: q ->
  rpc_inv (set_reg i (with_reg g q p) s).
Proof.
  intros [I1 I2 I3 I4] Hg Hq.
  assert (forall id, total_grants id (<[i := with_reg g q p]> (sy_regs s)) <= total_grants id (sy_regs s))%nat as Ht.
  { intros id. pose proof (total_insert id (sy_regs s) i g (with_reg g q p) Hg).
    pose proof (grants_pop id g ch m q p Hq). lia. }
  split; sys_cbn.
  - by rewrite (reg_keys_insert _ _ g).
  - intros id. specialize (I2 id). specialize (Ht id). lia.
  - intros id Hge. apply I3. specialize (Ht id). lia.
  - done.
Qed.

Lemma inv_exec (s : Sys) i g ch cl q p client raw : rpc_inv s -> sy_regs s !! i = Some g ->
  rg_queue g = (ch, MClaimResponse cl) :: q -> ch = rclaim_ch g -> cm_server_id cl = rg_server g ->
  rpc_inv (spawn g client (cm_request_id cl) raw (set_reg i (with_reg g q p) s)).
Proof.
  intros [I1 I2 I3 I4] Hg Hq Hch Hsv.
  assert (forall id, execs id (sy_log s ++ [mkExec (rg_server g) (rg_method g) (cm_request_id cl) raw]) +
    total_grants id (<[i := with_reg g q p]> (sy_regs s)) = execs id (sy_log s) + total_grants id (sy_regs s))%nat as Ht.
  { intros id. pose proof (total_insert id (sy_regs s) i g (with_reg g q p) Hg).
    pose proof (grants_pop id g ch _ q p Hq) as Hp. unfold effective in Hp. cbn [fst snd] in Hp.
    rewrite Hch, String.eqb_refl in Hp. rewrite (bool_decide_eq_true_2 (cm_server_id cl = _)) in Hp by done.
    unfold execs. rewrite list.filter_app, length_app, filter_cons, filter_nil. cbn [ex_id].
    destruct (decide (cm_request_id cl = id)) as [Hid|Hid];
      [rewrite bool_decide_eq_true_2 in Hp by done|rewrite bool_decide_eq_false_2 in Hp by done];
      cbn [andb length] in *; lia. }
  split; sys_cbn.
  - by rewrite (reg_keys_insert _ _ g).
  - intros id. rewrite Ht. apply I2.
  - intros id. rewrite Ht. apply I3.
  - done.
Qed.

Lemma inv_grant (s : Sys) lost id k cl claims ch : rpc_inv s -> sy_calls s !! id = Some k -> ca_granted k = false ->
  ca_claims k = cl :: claims ->
  rpc_inv (publish lost ch (MClaimResponse cl) (set_call id (take_claim claims k) s)).
Proof.
  intros [I1 I2 I3 I4] Hk Hg Hc.
  assert (cm_request_id cl = id) as Hid by (apply (I4 id k); [done|rewrite Hc; left]).
  assert (forall id', id' <> id ->
    total_grants id' (push_reg lost ch (MClaimResponse cl) <$> sy_regs s) <= total_grants id' (sy_regs s))%nat as Hother.
  { intros id' Hne. apply total_push_other. intros g. unfold effective. cbn [fst snd].
    rewrite (bool_decide_eq_false_2 (cm_request_id cl = id')) by congruence.
    by rewrite andb_false_r. }
  assert (execs id (sy_log s) + total_grants id (sy_regs s) = 0)%nat as H0.
  { destruct (execs id (sy_log s) + total_grants id (sy_regs s))%nat eqn:E; [done|].
    destruct (I3 id) as (k' & Hk' & Hg'); [lia|]. rewrite Hk in Hk'. simplify_eq. congruence. }
  pose proof (total_push_grant id lost ch (MClaimResponse cl) (sy_regs s) I1) as Hnew.
  split; sys_cbn.
  - by rewrite reg_keys_push.
  - intros id'. destruct (decide (id' = id)) as [->|Hne]; [lia|].
    specialize (I2 id'). specialize (Hother id' Hne). lia.
  - intros id' Hge. destruct (decide (id' = id)) as [->|Hne].
    + rewrite lookup_insert_eq. by eexists.
    + rewrite lookup_insert_ne by done. apply I3. specialize (Hother id' Hne). lia.
  - intros id' k' cl'. destruct (decide (id' = id)) as [->|Hne].
    + rewrite lookup_insert_eq. intros [= <-] Hin. apply (I4 id k); [done|]. rewrite Hc. by right.
    + rewrite lookup_insert_ne by done. apply I4.
Qed.

Lemma inv_route (s : Sys) cid id f : rpc_inv s ->
  (forall k, ca_granted (f k) = ca_granted k) ->
  (forall k cl, cl ∈ ca_claims (f k) -> cl ∈ ca_claims k \/ cm_request_id cl = id) ->
  rpc_inv (route cid id f s).
Proof.
  intros Hi Hg Hc. unfold route. destruct (sy_calls s !! id) as [k|] eqn:Hk; [|done]. case_match; [|done].
  apply (inv_set_call id _ k); auto; [by rewrite Hg|]. intros cl [Hin|?]%Hc; [|done].
  by apply (inv_claims _ Hi id k).
Qed.

Lemma rpc_step_inv (s s' : Sys) : rpc_inv s -> rpc_step empty handler s s' -> rpc_inv s'.
Proof.
  intros Hi Hs. destruct Hs as [s lost cid c id method topic raw timeout Hc Hf Hm Ht|s cid c ch m q Hc Hq
    |s s' lost id k Hk Hs|s id k e Hk Hr|s id k Hk Hr|s lost i g ch m q Hg Hq|s lost i t r Ht Hh|s now].
  - apply inv_publish; [|done].
    eapply (inv_set_call id); [done|..|by right]; [by rewrite Hf|]. cbn. intros cl Hin. by apply not_elem_of_nil in Hin.
  - apply (inv_set_client cid (mkClient (cl_service c) q)) in Hi. destruct m; try done; cbn [dispatch].
    + apply inv_route; [done|done|]. cbn. intros k cl [?|Hin]%elem_of_app; [by left|right].
      by apply list_elem_of_singleton in Hin as ->.
    + apply inv_route; [done|done|]. by left.
  - unfold call_step in Hs. destruct (ca_result k); [done|]. destruct (ca_resps k); [destruct (ca_claims k) as [|cl claims] eqn:Ec|]; [done| |].
    + destruct (ca_granted k) eqn:Hg; injection Hs as <-; [|by apply inv_grant].
      apply (inv_set_call id _ k); auto. cbn. intros cl' Hin. apply (inv_claims _ Hi id k); [done|]. rewrite Ec. by right.
    + injection Hs as <-. apply (inv_set_call id _ k); auto. cbn. intros cl. by apply (inv_claims _ Hi id k).
  - apply (inv_set_call id _ k); auto. cbn. intros cl. by apply (inv_claims _ Hi id k).
  - apply (inv_set_call id _ k); auto. cbn. intros cl. by apply (inv_claims _ Hi id k).
  - unfold reg_step. cbv zeta. assert (forall p, rpc_inv (set_reg i (with_reg g q p) s)) as Hpop by (intros; by eapply inv_pop).
    repeat case_match; auto; bool_to_prop.
    + by apply inv_publish.
    + eapply inv_exec; try done. by destruct (decide (cm_server_id c = rg_server g)).
  - apply inv_publish; [|done]. apply (inv_calls_step s); try done; [eauto|apply (inv_claims _ Hi)].
  - apply (inv_calls_step s); try done; [eauto|apply (inv_claims _ Hi)].
Qed.
End Once.

(** * Results come from handlers *)

Section Genuine.
Context {P : Type} (empty : P) (handler : text -> P -> Result (string * string) P -> Prop).
Notation Sys := (@Sys P).

(** A request [id] for [method] with payload [raw] was made. *)
Definition origin (s : Sys) (id method : text) (raw : P) : Prop :=
  exists k, sy_calls s !! id = Some k /\ ca_method k = method /\ rq_raw (ca_request k) = raw.

(** A request message and the channel its call sent it to. *)
Definition request_ok (s : Sys) (ch : string) (r : Request) : Prop :=
  exists k, sy_calls s !! rq_id r = Some k /\ ca_request k = r /\
    ch = rpc_channel (ca_service k) (ca_method k) (ca_topic k) /\
    name_ok (ca_service k) /\ name_ok (ca_method k) /\ text_ok (ca_topic k).

(** A response that a handler call of the log produced. *)
Definition genuine (s : Sys) (r : Response) : Prop :=
  exists e hres, e ∈ sy_log s /\ handler (ex_method e) (ex_raw e) hres /\
    r = make_response empty (ex_id e) (ex_server e) hres.

Definition reg_ok (s : Sys) (g : Reg) : Prop :=
  name_ok (rg_service g) /\ name_ok (rg_method g) /\ text_ok (rg_topic g) /\
  (forall ch r, (ch, MRequest r) ∈ rg_queue g -> request_ok s ch r) /\
  (forall id cl raw e, rg_pending g !! id = Some (cl, raw, e) -> origin s id (rg_method g) raw).
Definition client_ok (s : Sys) (c : Client) : Prop :=
  name_ok (cl_service c) /\ forall ch r, (ch, MResponse r) ∈ cl_queue c -> genuine s r.
Definition result_ok (s : Sys) (id : text) (res : Result PsrpcError P) : Prop :=
  res = Err Timeout \/ (exists e, res = Err (Bus e)) \/
  exists r, genuine s r /\ rs_id r = id /\ res = response_payload r.
Definition call_ok (s : Sys) (id : text) (k : Call) : Prop :=
  (forall r, r ∈ ca_resps k -> genuine s r /\ rs_id r = id) /\
  (forall res, ca_result k = Some res -> result_ok s id res).
Definition task_ok (s : Sys) (t : Task) : Prop :=
  mkExec (tk_server t) (tk_method t) (tk_id t) (tk_raw t) ∈ sy_log s.
Definition exec_ok (s : Sys) (e : Exec) : Prop := origin s (ex_id e) (ex_method e) (ex_raw e).

Record sys_ok (s : Sys) : Prop := {
  ok_regs g : g ∈ sy_regs s -> reg_ok s g;
  ok_clients cid c : sy_clients s !! cid = Some c -> client_ok s c;
  ok_calls id k : sy_calls s !! id = Some k -> call_ok s id k;
  ok_tasks t : t ∈ sy_tasks s -> task_ok s t;
  ok_log e : e ∈ sy_log s -> exec_ok s e;
}.

(** Calls keep their request, the log grows. *)
Definition same_call (k k' : @Call P) : Prop :=
  ca_request k' = ca_request k /\ ca_service k' = ca_service k /\ ca_method k' = ca_method k /\ ca_topic k' = ca_topic k.
Definition ext (s s' : Sys) : Prop :=
  (forall id k, sy_calls s !! id = Some k -> exists k', sy_calls s' !! id = Some k' /\ same_call k k') /\
  (forall e, e ∈ sy_log s -> e ∈ sy_log s').

Lemma origin_ext s s' id m raw : ext s s' -> origin s id m raw -> origin s' id m raw.
Proof.
  intros [Hc _] (k & Hk & H1 & H2). destruct (Hc _ _ Hk) as (k' & Hk' & E1 & _ & E3 & _).
  exists k'. by rewrite E1, E3.
Qed.
Lemma request_ext s s' ch r : ext s s' -> request_ok s ch r -> request_ok s' ch r.
Proof.
  intros [Hc _] (k & Hk & H1 & H2 & H3 & H4 & H5). destruct (Hc _ _ Hk) as (k' & Hk' & E1 & E2 & E3 & E4).
  exists k'. by rewrite E1, E2, E3, E4.
Qed.
Lemma genuine_ext s s' r : ext s s' -> genuine s r -> genuine s' r.
Proof. intros [_ Hl] (e & hres & He & Hh & ->). exists e, hres. auto. Qed.
Lemma reg_ext s s' g : ext s s' -> reg_ok s g -> reg_ok s' g.
Proof. intros He (H1 & H2 & H3 & H4 & H5). split_and!; eauto using request_ext, origin_ext. Qed.
Lemma client_ext s s' c : ext s s' -> client_ok s c -> client_ok s' c.
Proof. intros He (H1 & H2). split; eauto using genuine_ext. Qed.
Lemma call_ext s s' id k : ext s s' -> call_ok s id k -> call_ok s' id k.
Proof.
  intros He (H1 & H2). split; [intros r Hr; destruct (H1 r Hr); eauto using genuine_ext|].
  intros res [->|[[e ->]|(r & Hg & ?)]]%H2; [by left|right; left; eauto|].
  right; right. exists r. split; [by eapply genuine_ext|done].
Qed.
Lemma task_ext s s' t : ext s s' -> task_ok s t -> task_ok s' t.
Proof. intros [_ Hl]. apply Hl. Qed.
Lemma exec_ext s s' e : ext s s' -> exec_ok s e -> exec_ok s' e.
Proof. apply origin_ext. Qed.

Lemma same_call_refl k : same_call k k. Proof. done. Qed.
Lemma ext_of s s' : (forall id k, sy_calls s !! id = Some k -> exists k', sy_calls s' !! id = Some k' /\ same_call k k') ->
  (forall e, e ∈ sy_log s -> e ∈ sy_log s') -> ext s s'.
Proof. done. Qed.
Lemma ext_id s s' : sy_calls s' = sy_calls s -> sy_log s' = sy_log s -> ext s s'.
Proof. intros E1 E2. split; rewrite ?E1, ?E2; [|done]. intros id k Hk. exists k. by split; [|apply same_call_refl]. Qed.

(** What changed in a step, against what is kept. *)
Lemma sys_ok_ext s s' : sys_ok s -> ext s s' ->
  (forall g, g ∈ sy_regs s' -> g ∈ sy_regs s \/ reg_ok s' g) ->
  (forall cid c, sy_clients s' !! cid = Some c -> sy_clients s !! cid = Some c \/ client_ok s' c) ->
  (forall id k, sy_calls s' !! id = Some k -> sy_calls s !! id = Some k \/ call_ok s' id k) ->
  (forall t, t ∈ sy_tasks s' -> t ∈ sy_tasks s \/ task_ok s' t) ->
  (forall e, e ∈ sy_log s' -> e ∈ sy_log s \/ exec_ok s' e) -> sys_ok s'.
Proof.
  intros [O1 O2 O3 O4 O5] He H1 H2 H3 H4 H5. split.
  - intros g [?|?]%H1; eauto using reg_ext.
  - intros cid c [?|?]%H2; eauto using client_ext.
  - intros id k [?|?]%H3; eauto using call_ext.
  - intros t [?|?]%H4; eauto using task_ext.
  - intros e [?|?]%H5; eauto using exec_ext.
Qed.

Lemma sys_ok_publish lost ch m s : sys_ok s -> (forall r, m = MRequest r -> request_ok s ch r) ->
  (forall r, m = MResponse r -> genuine s r) -> sys_ok (publish lost ch m s).
Proof.
  intros Hok Hreq Hresp. assert (ext s (publish lost ch m s)) as He by by apply ext_id.
  apply (sys_ok_ext s); cbn; auto.
  - intros g (g0 & -> & Hg)%list_elem_of_fmap. unfold push_reg. case_match; [right|by left].
    destruct (ok_regs _ Hok g0 Hg) as (N1 & N2 & N3 & N4 & N5). split_and!; try done; cbn.
    intros ch' r [Hin|Hin]%elem_of_app; [eauto using request_ext|].
    apply list_elem_of_singleton in Hin. simplify_eq. eauto using request_ext.
  - intros cid c. rewrite map_lookup_imap. destruct (sy_clients s !! cid) as [c0|] eqn:Hc; cbn; [|done].
    intros [= <-]. unfold push_client. case_match; [right|by left].
    destruct (ok_clients _ Hok cid c0 Hc) as [N1 N2]. split; [done|]. cbn.
    intros ch' r [Hin|Hin]%elem_of_app; [eauto using genuine_ext|].
    apply list_elem_of_singleton in Hin. simplify_eq. eauto using genuine_ext.
Qed.

Lemma sys_ok_set_call id k s : sys_ok s -> (forall k0, sy_calls s !! id = Some k0 -> same_call k0 k) ->
  call_ok s id k -> sys_ok (set_call id k s).
Proof.
  intros Hok Hsame Hk. assert (ext s (set_call id k s)) as He.
  { split; [|done]. cbn. intros id' k' Hk'. destruct (decide (id = id')) as [<-|].
    - rewrite lookup_insert_eq. eauto.
    - rewrite lookup_insert_ne by done. exists k'. by split; [|apply same_call_refl]. }
  apply (sys_ok_ext s); cbn; auto.
  intros id' k' Hk'. destruct (decide (id = id')) as [<-|].
  - rewrite lookup_insert_eq in Hk'. injection Hk' as <-. right. by eapply call_ext.
  - rewrite lookup_insert_ne in Hk' by done. by left.
Qed.

Lemma sys_ok_set_reg i g s : sys_ok s -> reg_ok s g -> sys_ok (set_reg i g s).
Proof.
  intros Hok Hg. assert (ext s (set_reg i g s)) as He by by apply ext_id.
  apply (sys_ok_ext s); cbn; auto.
  intros g' Hin. apply list_elem_of_lookup in Hin as (j & Hj).
  destruct (decide (i = j)) as [<-|Hne].
  - destruct (decide (i < length (sy_regs s))%nat).
    + rewrite list_lookup_insert_eq in Hj by done. injection Hj as <-. right. by eapply reg_ext.
    + rewrite list_insert_ge in Hj by lia. left. by eapply list_elem_of_lookup_2.
  - rewrite list_lookup_insert_ne in Hj by done. left. by eapply list_elem_of_lookup_2.
Qed.

Lemma sys_ok_set_client cid c s : sys_ok s -> client_ok s c -> sys_ok (set_client cid c s).
Proof.
  intros Hok Hc. assert (ext s (set_client cid c s)) as He by by apply ext_id.
  apply (sys_ok_ext s); cbn; auto. intros cid' c'. destruct (decide (cid = cid')) as [<-|].
  - rewrite lookup_insert_eq. intros [= <-]. right. by eapply client_ext.
  - rewrite lookup_insert_ne by done. by left.
Qed.

Lemma sys_ok_route cid id f s : sys_ok s -> (forall k, same_call k (f k)) ->
  (forall k, sy_calls s !! id = Some k -> call_ok s id (f k)) -> sys_ok (route cid id f s).
Proof.
  intros Hok Hs Hf. unfold route. destruct (sy_calls s !! id) as [k|] eqn:Hk; [|done]. case_match; [|done].
  apply sys_ok_set_call; auto. intros k0 Hk0. rewrite Hk in Hk0. by simplify_eq.
Qed.

Lemma sys_ok_initial s : initial s -> sys_ok s.
Proof.
  intros (Hc & Ht & Hl & Hcl & Hr & _). split; rewrite ?Ht, ?Hl.
  - intros g Hg. destruct (Hr g Hg) as (E1 & E2 & N1 & N2 & N3). split_and!; try done; rewrite ?E1, ?E2.
    + intros ch r Hin. by apply not_elem_of_nil in Hin.
    + intros id cl raw e. by rewrite lookup_empty.
  - intros cid c Hin. destruct (Hcl cid c Hin) as [E N]. split; [done|]. rewrite E. intros ch r Hi. by apply not_elem_of_nil in Hi.
  - intros id k. by rewrite Hc, lookup_empty.
  - intros t Hi. by apply not_elem_of_nil in Hi.
  - intros e Hi. by apply not_elem_of_nil in Hi.
Qed.

(** Taking a message off a registration's queue. *)
Lemma reg_ok_pop s g ch m q p : reg_ok s g -> rg_queue g = (ch, m) :: q ->
  (forall id cl raw e, p !! id = Some (cl, raw, e) -> origin s id (rg_method g) raw) -> reg_ok s (with_reg g q p).
Proof.
  intros (N1 & N2 & N3 & N4 & N5) Hq Hp. split_and!; try done; cbn. intros ch' r Hin. apply N4. rewrite Hq. by right.
Qed.

(** A request taken from the queue is for the registration's method: channel names tell
    methods apart. *)
Lemma bid_origin s g ch r q : reg_ok s g -> rg_queue g = (ch, MRequest r) :: q -> ch = rpc_ch g ->
  origin s (rq_id r) (rg_method g) (rq_raw r).
Proof.
  intros (N1 & N2 & N3 & N4 & _) Hq Hch. destruct (N4 ch r) as (k & Hk & Hr & Hc & K1 & K2 & K3); [rewrite Hq; left|].
  rewrite Hch in Hc. unfold rpc_ch in Hc. apply rpc_channel_inj in Hc as (_ & Hm & _); try done.
  exists k. split_and!; [done|by rewrite Hm|by rewrite Hr].
Qed.

Lemma sys_ok_reg_step lost i g ch m q s : sys_ok s -> sy_regs s !! i = Some g -> rg_queue g = (ch, m) :: q ->
  sys_ok (reg_step lost i g ch m q s).
Proof.
  intros Hok Hg Hq. assert (reg_ok s g) as Hr by (apply (ok_regs _ Hok); by eapply list_elem_of_lookup_2).
  pose proof Hr as (N1 & N2 & N3 & N4 & N5).
  assert (sys_ok (set_reg i (with_reg g q (rg_pending g)) s)) as Hskip by (apply sys_ok_set_reg; [done|by eapply reg_ok_pop]).
  unfold reg_step. cbv zeta. destruct (String.eqb_spec ch (rpc_ch g)) as [Hch|_].
  - destruct m as [r| | |]; try done. case_match; [done|].
    apply sys_ok_publish; [|done|done]. apply sys_ok_set_reg; [done|]. eapply reg_ok_pop; [done|done|].
    intros id cl raw e. destruct (decide (id = rq_id r)) as [->|Hne].
    + rewrite lookup_insert_eq. intros [= <- <- <-]. by eapply bid_origin.
    + rewrite lookup_insert_ne by done. intros [? _]%map_lookup_filter_Some. eauto.
  - destruct (ch =? rclaim_ch g)%string; [|done]. destruct m as [| |cl|]; try done. case_match; [done|].
    destruct (rg_pending g !! cm_request_id cl) as [[[client raw] exp]|] eqn:Hp; [|done].
    assert (origin s (cm_request_id cl) (rg_method g) raw) as Ho by eauto.
    assert (sys_ok (set_reg i (with_reg g q (delete (cm_request_id cl) (rg_pending g))) s)) as Hok'.
    { apply sys_ok_set_reg; [done|]. eapply reg_ok_pop; [done|done|]. intros id cl' raw' e'.
      intros [_ ?]%lookup_delete_Some. eauto. }
    eapply sys_ok_ext; [exact Hok'|..]; cbn; auto.
    + split; cbn; [intros id k Hk; exists k; by split; [|apply same_call_refl]|]. intros e He. apply elem_of_app. by left.
    + intros t [?|Hin]%elem_of_app; [by left|]. apply list_elem_of_singleton in Hin as ->. right.
      unfold task_ok; cbn. apply elem_of_app. right. by apply list_elem_of_singleton.
    + intros e [?|Hin]%elem_of_app; [by left|]. apply list_elem_of_singleton in Hin as ->. right. exact Ho.
Qed.

Lemma sys_ok_call_step lost id k s s' : sys_ok s -> sy_calls s !! id = Some k -> call_step lost id k s = Some s' -> sys_ok s'.
Proof.
  intros Hok Hk Hs. destruct (ok_calls _ Hok id k Hk) as [R1 R2].
  assert (forall k0, sy_calls s !! id = Some k0 -> k0 = k) as Heq by (intros k0 Hk0; congruence).
  unfold call_step in Hs. destruct (ca_result k) eqn:Hres; [done|].
  destruct (ca_resps k) as [|r rs] eqn:Hr; [destruct (ca_claims k); [done|]|].
  - assert (sys_ok (set_call id (take_claim l k) s)) as Hset.
    { apply sys_ok_set_call; [done|by intros k0 ->%Heq|]. split; cbn; [by rewrite Hr|by rewrite Hres]. }
    case_match; injection Hs as <-; [done|]. by apply sys_ok_publish.
  - injection Hs as <-. apply sys_ok_set_call; [done|by intros k0 ->%Heq|]. split; cbn; [by rewrite Hr|].
    intros res [= <-]. right; right. exists r. destruct (R1 r) as [? ?]; [left|]. done.
Qed.

Lemma sys_ok_step s s' : sys_ok s -> rpc_step empty handler s s' -> sys_ok s'.
Proof.
  intros Hok Hs. destruct Hs as [s lost cid c id method topic raw timeout Hc Hf Hm Ht|s cid c ch m q Hc Hq
    |s s' lost id k Hk Hs|s id k e Hk Hr|s id k Hk Hr|s lost i g ch m q Hg Hq|s lost i t r Ht Hh|s now].
  - destruct (ok_clients _ Hok cid c Hc) as [Hn _]. apply sys_ok_publish; [| |done].
    + apply sys_ok_set_call; [done|by rewrite Hf|]. split; cbn; [intros r Hin; by apply not_elem_of_nil in Hin|done].
    + intros r [= <-]. eexists. cbn. rewrite lookup_insert_eq. done.
  - destruct (ok_clients _ Hok cid c Hc) as [Hn Hresp].
    assert (sys_ok (set_client cid (mkClient (cl_service c) q) s)) as Hok'.
    { apply sys_ok_set_client; [done|]. split; [done|]. cbn. intros ch' r Hin. apply (Hresp ch'). rewrite Hq. by right. }
    destruct m as [|cl| |r]; try done; cbn [dispatch]; apply sys_ok_route; try done; intros k Hk;
      destruct (ok_calls _ Hok' _ k Hk) as [R1 R2]; split; cbn; try done.
    intros r' [?|Hin]%elem_of_app; [auto|]. apply list_elem_of_singleton in Hin as ->. split; [|done].
    eapply genuine_ext; [by apply ext_id|]. apply (Hresp ch). rewrite Hq. left.
  - by eapply sys_ok_call_step.
  - destruct (ok_calls _ Hok id k Hk) as [R1 R2]. apply sys_ok_set_call; [done|intros k0 Hk0; by rewrite Hk in Hk0; simplify_eq|].
    split; cbn; [done|]. intros res [= <-]. right; left. eauto.
  - destruct (ok_calls _ Hok id k Hk) as [R1 R2]. apply sys_ok_set_call; [done|intros k0 Hk0; by rewrite Hk in Hk0; simplify_eq|].
    split; cbn; [done|]. intros res [= <-]. by left.
  - by apply sys_ok_reg_step.
  - assert (task_ok s t) as Htask by (apply (ok_tasks _ Hok); by eapply list_elem_of_lookup_2).
    assert (sys_ok (mkSys (sy_clients s) (sy_calls s) (sy_regs s) (delete i (sy_tasks s)) (sy_log s) (sy_now s))) as Hok'.
    { eapply sys_ok_ext; [exact Hok|by apply ext_id|..]; cbn; auto. intros t' Hin. left.
      by eapply list_elem_of_delete_inv. }
    apply sys_ok_publish; [done|done|]. intros r' [= <-]. by exists (mkExec (tk_server t) (tk_method t) (tk_id t) (tk_raw t)), r.
  - eapply sys_ok_ext; [exact Hok|by apply ext_id|..]; cbn; auto.
Qed.
End Genuine.

(** * Channels of different kinds differ *)

Lemma channel_suffix parts parts' x x' : Forall text_ok parts -> Forall text_ok parts' -> name_ok x -> name_ok x' ->
  channel (parts ++ [x]) = channel (parts' ++ [x']) -> x = x'.
Proof.
  intros Hp Hp' Hx Hx' E. apply channel_inj in E;
    [|apply Forall_app; split; [done|repeat constructor; by apply name_text_ok]..].
  destruct Hx as [Hx _], Hx' as [Hx' _]. rewrite !list.filter_app, !filter_cons, !filter_nil in E.
  rewrite (decide_True (P := x <> [])), (decide_True (P := x' <> [])) in E by done.
  by apply app_inj_tail in E as [_ ->].
Qed.

(** The four kinds of channels. *)
Inductive Kind := KReq | KRclaim | KRes | KClaim.
#[export] Instance Kind_eq_dec : EqDecision Kind.
Proof. solve_decision. Defined.
Definition suffix (k : Kind) : text :=
  match k with KReq => lit "REQ" | KRclaim => lit "RCLAIM" | KRes => lit "RES" | KClaim => lit "CLAIM" end.

(** The channel of a kind, on a method and topic or on a client. *)
Definition channel_of (k : Kind) (service a topic : text) : string :=
  match k with
  | KReq => rpc_channel service a topic
  | KRclaim => claim_response_channel service a topic
  | KRes => response_channel service a
  | KClaim => claim_request_channel service a
  end.

Lemma suffix_ok k : name_ok (suffix k).
Proof. split; [by destruct k|]. destruct k; apply lit_ok. Qed.

Lemma channel_of_parts k s a t : channel_of k s a t =
  channel ((match k with KReq | KRclaim => [s; a; t] | _ => [s; a] end) ++ [suffix k]).
Proof. by destruct k. Qed.

Lemma channel_of_kind k k' s a t s' a' t' : text_ok s -> text_ok a -> text_ok t -> text_ok s' -> text_ok a' -> text_ok t' ->
  channel_of k s a t = channel_of k' s' a' t' -> k = k'.
Proof.
  intros. assert (suffix k = suffix k') as E; [|by destruct k, k'].
  rewrite !channel_of_parts in *. eapply channel_suffix; [| | | |eassumption]; [| |apply suffix_ok..].
  - destruct k; repeat (constructor; [done|]); constructor.
  - destruct k'; repeat (constructor; [done|]); constructor.
Qed.
Lemma channel3_inj s a s' a' x : name_ok s -> name_ok a -> name_ok s' -> name_ok a' -> name_ok x ->
  channel [s; a; x] = channel [s'; a'; x] -> s = s' /\ a = a'.
Proof.
  intros Hs Ha Hs' Ha' Hx E. apply channel_inj in E;
    [|repeat (constructor; [by auto using name_text_ok|]); constructor..].
  destruct Hs as [Hs _], Ha as [Ha _], Hs' as [Hs' _], Ha' as [Ha' _], Hx as [Hx _].
  rewrite !filter_cons, !filter_nil in E.
  rewrite !(decide_True (P := s <> [])), !(decide_True (P := a <> [])), !(decide_True (P := s' <> [])),
    !(decide_True (P := a' <> [])), !(decide_True (P := x <> [])) in E by done.
  by simplify_eq.
Qed.

(** Channel names never collide.  Two channels of the protocol with the same name have the
    same kind (request, grant, response, claim), the same service, the same method or client,
    and, for the kinds that have one, the same topic, whatever characters the names hold. *)
Theorem channels_injective k k' s a t s' a' t' :
  name_ok s -> name_ok a -> text_ok t -> name_ok s' -> name_ok a' -> text_ok t' ->
  channel_of k s a t = channel_of k' s' a' t' ->
  k = k' /\ s = s' /\ a = a' /\ (k = KReq \/ k = KRclaim -> t = t').
Proof.
  intros Hs Ha Ht Hs' Ha' Ht' E. pose proof E as Hk. apply channel_of_kind in Hk; auto using name_text_ok. subst k'.
  split; [done|]. pose proof (suffix_ok k) as Hx. destruct k; cbn [channel_of] in E.
  1,2: apply channel4_inj in E as (-> & -> & ->); done.
  1,2: apply channel3_inj in E as [-> ->]; try done; split_and!; try done; by intros [|].
Qed.

Lemma channels_injective_witness :
  channel_of KReq (lit "IO") (lit "a|b") [] = channel_of KReq (lit "IO") (lit "a|b") [] /\ KReq = KReq.
Proof.
  split; [reflexivity|].
  refine (proj1 (channels_injective KReq KReq (lit "IO") (lit "a|b") [] (lit "IO") (lit "a|b") [] _ _ _ _ _ _ eq_refl));
    repeat (split || constructor); done.
Defined.

(** A handler error with an empty message reaches the caller as a success. *)
Lemma empty_error_is_success {P} (empty : P) id server code :
  response_payload (make_response empty id server (Err (code, ""))) = Ok empty.
Proof. reflexivity. Qed.

(** * Correctness of calls *)

Section Runs.
Context {P : Type} (empty : P) (handler : text -> P -> Result (string * string) P -> Prop).
Notation Sys := (@Sys P).
Notation step := (rpc_step empty handler).

(** C27: At most one execution.  However many servers bid, whatever messages are lost and
    whatever the interleaving, the handlers are called at most once for each request. *)
Theorem rpc_at_most_once (s0 s : Sys) id : initial s0 -> reach step s0 s -> (execs id (sy_log s) <= 1)%nat.
Proof.
  intros H0 Hr. assert (rpc_inv s) as Hi.
  { revert s Hr. apply reach_invariant; [by apply initial_inv|intros; by eapply rpc_step_inv]. }
  pose proof (inv_once _ Hi id). lia.
Qed.

Lemma reach_sys_ok (s0 s : Sys) : initial s0 -> reach step s0 s -> sys_ok empty handler s.
Proof.
  intros H0 Hr. revert s Hr. apply reach_invariant; [by apply sys_ok_initial|intros; by eapply sys_ok_step].
Qed.

End Runs.

(** * A call on a lossless bus *)

Lemma map_imap_one {A} (f : text -> A -> A) i x :
  map_imap (fun i x => Some (f i x)) ({[i := x]} : gmap text A) = {[i := f i x]}.
Proof.
  apply map_eq. intros j. rewrite map_lookup_imap. destruct (decide (i = j)) as [<-|Hne].
  - by rewrite !lookup_singleton_eq.
  - by rewrite !lookup_singleton_ne.
Qed.

Section Answered.
Context {P : Type} (empty : P) (handler : text -> P -> Result (string * string) P -> Prop).
Context (service method topic cid srv id : text) (raw : P) (now timeout : Z) (res : Result (string * string) P).
Hypothesis (Hservice : name_ok service) (Hmethod : name_ok method) (Htopic : text_ok topic) (Hcid : name_ok cid).
Hypothesis (Hin_time : 0 < timeout) (Hres : handler method raw res).
Notation step := (rpc_step empty handler).

Definition no_loss : text -> string -> bool := fun _ _ => false.

(** One client, one server with one registration. *)
Definition duo (cq : list (string * Msg)) (calls : gmap text Call) (rq : list (string * Msg))
    (pending : gmap text (text * P * Z)) (tasks : list Task) (log : list Exec) : @Sys P :=
  mkSys {[cid := mkClient service cq]} calls [mkReg srv service method topic rq pending] tasks log now.

Definition quiet : Sys := duo [] ∅ [] ∅ [] [].

Let ch_req := rpc_channel service method topic.
Let ch_rclaim := claim_response_channel service method topic.
Let ch_res := response_channel service cid.
Let ch_claim := claim_request_channel service cid.
Let req := mkRequest id cid (now + timeout) raw.
Let call claims resps granted result := mkCall req service method topic claims resps granted true result.
Let cl := mkClaim id srv.
Let resp := make_response empty id srv res.

Lemma channels_differ : ch_req <> ch_rclaim /\ ch_req <> ch_res /\ ch_req <> ch_claim /\ ch_rclaim <> ch_res /\
  ch_rclaim <> ch_claim /\ ch_res <> ch_claim.
Proof.
  pose proof (name_text_ok _ Hservice) as T1. pose proof (name_text_ok _ Hmethod) as T2. pose proof (name_text_ok _ Hcid) as T3.
  assert (forall k k' a a', text_ok a -> text_ok a' -> k <> k' ->
    channel_of k service a topic <> channel_of k' service a' topic) as Hd.
  { intros k k' a a' Ha Ha' Hne E. apply Hne. by eapply channel_of_kind in E. }
  split_and!.
  - by apply (Hd KReq KRclaim method method).
  - by apply (Hd KReq KRes method cid).
  - by apply (Hd KReq KClaim method cid).
  - by apply (Hd KRclaim KRes method cid).
  - by apply (Hd KRclaim KClaim method cid).
  - by apply (Hd KRes KClaim cid cid).
Qed.

Lemma publish_duo ch m cq calls rq p tasks log :
  publish no_loss ch m (duo cq calls rq p tasks log) =
  duo (if ((ch =? ch_res)%string || (ch =? ch_claim)%string) then cq ++ [(ch, m)] else cq) calls
      (if ((ch =? ch_req)%string || (ch =? ch_rclaim)%string) then rq ++ [(ch, m)] else rq) p tasks log.
Proof.
  unfold publish, duo. cbn [sy_clients sy_calls sy_regs sy_tasks sy_log sy_now]. f_equal.
  - rewrite map_imap_one. f_equal. unfold push_client. cbn. rewrite andb_true_r.
    fold ch_res ch_claim. by destruct (_ || _).
  - cbn. unfold push_reg, rpc_ch, rclaim_ch. cbn. rewrite andb_true_r. fold ch_req ch_rclaim. by destruct (_ || _).
Qed.

Lemma publish_to_server ch m cq calls rq p tasks log : ch = ch_req \/ ch = ch_rclaim ->
  publish no_loss ch m (duo cq calls rq p tasks log) = duo cq calls (rq ++ [(ch, m)]) p tasks log.
Proof.
  destruct channels_differ as (D1 & D2 & D3 & D4 & D5 & D6). intros Hch. rewrite publish_duo.
  destruct (String.eqb_spec ch ch_res), (String.eqb_spec ch ch_claim), (String.eqb_spec ch ch_req),
    (String.eqb_spec ch ch_rclaim); cbn; destruct Hch; congruence.
Qed.
Lemma publish_to_client ch m cq calls rq p tasks log : ch = ch_res \/ ch = ch_claim ->
  publish no_loss ch m (duo cq calls rq p tasks log) = duo (cq ++ [(ch, m)]) calls rq p tasks log.
Proof.
  destruct channels_differ as (D1 & D2 & D3 & D4 & D5 & D6). intros Hch. rewrite publish_duo.
  destruct (String.eqb_spec ch ch_res), (String.eqb_spec ch ch_claim), (String.eqb_spec ch ch_req),
    (String.eqb_spec ch ch_rclaim); cbn; destruct Hch; congruence.
Qed.

(** The steps of a call. *)
Lemma run_start : step quiet (duo [] {[id := call [] [] false None]} [(ch_req, MRequest req)] ∅ [] []).
Proof.
  assert (start_call no_loss cid (mkClient service []) id method topic raw timeout quiet =
    duo [] {[id := call [] [] false None]} [(ch_req, MRequest req)] ∅ [] []) as <-.
  { unfold start_call. cbv zeta. cbn [cl_service]. fold ch_req. apply publish_to_server. by left. }
  apply step_start; try done. cbn. apply lookup_singleton_eq.
Qed.

Lemma run_bid calls log :
  step (duo [] calls [(ch_req, MRequest req)] ∅ [] log)
       (duo [(ch_claim, MClaimRequest cl)] calls [] {[id := (cid, raw, now + timeout)]} [] log).
Proof.
  set (s := duo [] calls [(ch_req, MRequest req)] ∅ [] log).
  set (g := mkReg srv service method topic [(ch_req, MRequest req)] ∅).
  assert (reg_step no_loss 0 g ch_req (MRequest req) [] s =
    duo [(ch_claim, MClaimRequest cl)] calls [] {[id := (cid, raw, now + timeout)]} [] log) as <-;
    [|by apply step_reg].
  unfold reg_step. cbv zeta. change (rpc_ch g) with ch_req. rewrite String.eqb_refl.
  change (rq_expiry req <=? sy_now s) with (now + timeout <=? now). rewrite (proj2 (Z.leb_gt _ _)) by lia.
  change (rg_pending g) with (∅ : gmap text (text * P * Z)). rewrite map_filter_empty.
  apply (publish_to_client ch_claim (MClaimRequest cl) [] calls []). by right.
Qed.

Lemma run_claim rq p log :
  step (duo [(ch_claim, MClaimRequest cl)] {[id := call [] [] false None]} rq p [] log)
       (duo [] {[id := call [cl] [] false None]} rq p [] log).
Proof.
  set (s := duo [(ch_claim, MClaimRequest cl)] {[id := call [] [] false None]} rq p [] log).
  assert (dispatch cid (MClaimRequest cl) (set_client cid (mkClient service []) s) =
    duo [] {[id := call [cl] [] false None]} rq p [] log) as <-;
    [|by apply (step_dispatch _ _ s cid (mkClient service [(ch_claim, MClaimRequest cl)]) ch_claim); [apply lookup_singleton_eq|]].
  cbn [dispatch]. unfold route, set_client, set_call. cbn. rewrite lookup_singleton_eq. cbn.
  rewrite bool_decide_true by done. unfold duo. by rewrite !insert_singleton_eq.
Qed.

Lemma run_grant p log :
  step (duo [] {[id := call [cl] [] false None]} [] p [] log)
       (duo [] {[id := call [] [] true None]} [(ch_rclaim, MClaimResponse cl)] p [] log).
Proof.
  eapply (step_call _ _ _ _ no_loss id); [apply lookup_singleton_eq|]. unfold call_step. cbn [ca_result ca_resps ca_claims ca_granted call].
  f_equal. cbn [ca_service ca_method ca_topic call]. fold ch_rclaim.
  assert (set_call id (take_claim [] (call [cl] [] false None)) (duo [] {[id := call [cl] [] false None]} [] p [] log) =
    duo [] {[id := call [] [] true None]} [] p [] log) as ->.
  { unfold set_call, duo. cbn. by rewrite insert_singleton_eq. }
  apply publish_to_server. by right.
Qed.

Lemma run_exec calls e :
  step (duo [] calls [(ch_rclaim, MClaimResponse cl)] {[id := (cid, raw, e)]} [] [])
       (duo [] calls [] ∅ [mkTask srv service method cid id raw] [mkExec srv method id raw]).
Proof.
  destruct channels_differ as (D1 & _).
  set (s := duo [] calls [(ch_rclaim, MClaimResponse cl)] {[id := (cid, raw, e)]} [] []).
  set (g := mkReg srv service method topic [(ch_rclaim, MClaimResponse cl)] {[id := (cid, raw, e)]}).
  assert (reg_step no_loss 0 g ch_rclaim (MClaimResponse cl) [] s =
    duo [] calls [] ∅ [mkTask srv service method cid id raw] [mkExec srv method id raw]) as <-;
    [|by apply step_reg].
  unfold reg_step. cbv zeta. change (rpc_ch g) with ch_req. change (rclaim_ch g) with ch_rclaim.
  rewrite (proj2 (String.eqb_neq _ _)) by congruence. rewrite String.eqb_refl.
  rewrite bool_decide_false by (intros Hn; by apply Hn).
  change (rg_pending g) with ({[id := (cid, raw, e)]} : gmap text (text * P * Z)). change (cm_request_id cl) with id.
  by rewrite lookup_singleton_eq, delete_singleton_eq.
Qed.

Lemma run_respond calls p log :
  step (duo [] calls [] p [mkTask srv service method cid id raw] log) (duo [(ch_res, MResponse resp)] calls [] p [] log).
Proof.
  set (t := mkTask srv service method cid id raw).
  assert (task_step empty no_loss 0 t res (duo [] calls [] p [t] log) = duo [(ch_res, MResponse resp)] calls [] p [] log) as <-;
    [|by apply step_task].
  apply (publish_to_client ch_res (MResponse resp) [] calls []). by left.
Qed.

Lemma run_response rq p tasks log :
  step (duo [(ch_res, MResponse resp)] {[id := call [] [] true None]} rq p tasks log)
       (duo [] {[id := call [] [resp] true None]} rq p tasks log).
Proof.
  set (s := duo [(ch_res, MResponse resp)] {[id := call [] [] true None]} rq p tasks log).
  assert (rs_id resp = id) as Hid by (unfold resp; by destruct res as [|[]]).
  assert (dispatch cid (MResponse resp) (set_client cid (mkClient service []) s) =
    duo [] {[id := call [] [resp] true None]} rq p tasks log) as <-;
    [|by apply (step_dispatch _ _ s cid (mkClient service [(ch_res, MResponse resp)]) ch_res); [apply lookup_singleton_eq|]].
  cbn [dispatch]. rewrite Hid. unfold route, set_client, set_call. cbn. rewrite lookup_singleton_eq. cbn.
  rewrite bool_decide_true by done. unfold duo. by rewrite !insert_singleton_eq.
Qed.

Lemma run_return rq p tasks log :
  step (duo [] {[id := call [] [resp] true None]} rq p tasks log)
       (duo [] {[id := finish (response_payload resp) false (call [] [resp] true None)]} rq p tasks log).
Proof.
  eapply (step_call _ _ _ _ no_loss id); [apply lookup_singleton_eq|]. unfold call_step. cbn [ca_result ca_resps ca_claims call].
  f_equal. unfold set_call, duo. cbn. by rewrite insert_singleton_eq.
Qed.

Definition answered : Call := finish (response_payload resp) false (call [] [resp] true None).

Lemma answered_run : reach step quiet (duo [] {[id := answered]} [] ∅ [] [mkExec srv method id raw]).
Proof.
  eapply reach_step; [|apply run_return]. eapply reach_step; [|apply run_response].
  eapply reach_step; [|apply run_respond]. eapply reach_step; [|apply run_exec].
  eapply reach_step; [|apply run_grant]. eapply reach_step; [|apply run_claim].
  eapply reach_step; [|apply run_bid]. eapply reach_step; [|apply run_start]. apply reach_init.
Qed.

End Answered.

(** * Witnesses *)

(** A method that echoes its payload, on a payload of numbers. *)
Definition echo (m : text) (raw : Z) (r : Result (string * string) Z) : Prop := r = Ok raw.
Definition demo : @Sys Z := quiet (lit "IOInfo") (lit "CreateEgress") [] (lit "CLI_1") (lit "SRV_1") 100.
Definition demo_call : @Call Z :=
  answered 0 (lit "IOInfo") (lit "CreateEgress") [] (lit "CLI_1") (lit "SRV_1") (lit "REQ_1") 7 100 30 (Ok 7).
Definition demo_end : @Sys Z := duo (lit "IOInfo") (lit "CreateEgress") [] (lit "CLI_1") (lit "SRV_1") 100
  [] {[lit "REQ_1" := demo_call]} [] ∅ [] [mkExec (lit "SRV_1") (lit "CreateEgress") (lit "REQ_1") 7].

Lemma name_ok_lit s : lit s <> [] -> name_ok (lit s).
Proof. intros. split; [done|apply lit_ok]. Qed.

Lemma demo_initial : initial demo.
Proof.
  split_and!; try done.
  - intros cid c Hc. unfold demo, quiet, duo in Hc. cbn [sy_clients] in Hc.
    apply lookup_singleton_Some in Hc as [<- <-]. split; [done|by apply (name_ok_lit "IOInfo")].
  - intros g Hg. unfold demo, quiet, duo in Hg. cbn [sy_regs] in Hg. apply list_elem_of_singleton in Hg as ->.
    split_and!; [done|done|by apply (name_ok_lit "IOInfo")|by apply (name_ok_lit "CreateEgress")|constructor].
  - apply NoDup_singleton.
Qed.

Lemma demo_reach : reach (rpc_step 0 echo) demo demo_end.
Proof. apply answered_run; try (by apply name_ok_lit); [constructor|lia|reflexivity]. Qed.

Lemma rpc_at_most_once_witness : (execs (lit "REQ_1") (sy_log demo_end) <= 1)%nat /\
  execs (lit "REQ_1") (sy_log demo_end) = 1%nat.
Proof.
  split; [exact (rpc_at_most_once 0 echo demo demo_end (lit "REQ_1") demo_initial demo_reach)|vm_compute; reflexivity].
Defined.


