(* ===== verification/Protobuf.v ===== *)
(** The protobuf wire format, as far as the messages of the bus use it: varints, length-delimited
    and fixed-width fields, proto3 defaults, unknown fields; and UTF-8.  It shows that the laws
    [PsrpcWire] asks of the encoding hold for the field numbers of [protos/internal.proto].

    Groups, which proto3 does not have, are not read. *)
From Stdlib Require Import ZArith Lia Ascii String.
From stdpp Require Import base strings list option.
From S2P Require Import Prelude RustStr Turn Psrpc.

Open Scope string_scope.
Open Scope list_scope.
Open Scope Z_scope.

Notation bytes := (list Z).

(** What a type of messages promises: an encoding, and that decoding undoes it for the messages
    [ok] describes. *)
Class Message (A : Type) := { encode : A -> bytes; decode : bytes -> option A; msg_ok : A -> Prop }.
Class MessageLaws (A : Type) `{Message A} : Prop := decode_encode : forall a : A, msg_ok a -> decode (encode a) = Some a.

(** * Varints *)

Fixpoint varint_enc (fuel : nat) (n : Z) : bytes :=
  match fuel with
  | O => []
  | S f => if n <? 128 then [n] else (n mod 128 + 128) :: varint_enc f (n / 128)
  end.
(** Ten bytes hold 64 bits, the last of them one bit. *)
Definition varint (n : Z) : bytes := varint_enc 10 n.

Fixpoint varint_dec (fuel : nat) (l : bytes) : option (Z * bytes) :=
  match fuel, l with
  | S f, b :: l =>
      if b <? 128 then (if (f =? 0)%nat && (1 <? b) then None else Some (b, l))
      else '(n, l) ← varint_dec f l; Some (b - 128 + 128 * n, l)
  | _, _ => None
  end.

Lemma varint_dec_cons f b l : varint_dec (S f) (b :: l) =
  if b <? 128 then (if (f =? 0)%nat && (1 <? b) then None else Some (b, l))
  else '(n, l) ← varint_dec f l; Some (b - 128 + 128 * n, l).
Proof. done. Qed.

Lemma varint_roundtrip f : forall n l, (0 < f)%nat -> 0 <= n < 2 * 128 ^ (Z.of_nat f - 1) ->
  varint_dec f (varint_enc f n ++ l) = Some (n, l).
Proof.
  induction f as [|f IH]; intros n l Hf Hn; [lia|]. cbn [varint_enc]. destruct (Z.ltb_spec n 128).
  - cbn [app varint_dec]. replace (n <? 128) with true by lia. destruct f as [|f]; [|done].
    cbn in Hn. cbn [Nat.eqb andb]. by replace (1 <? n) with false by lia.
  - destruct f as [|f]; [cbn in Hn; lia|]. pose proof (Z.mod_pos_bound n 128 ltac:(lia)).
    rewrite <- app_comm_cons, varint_dec_cons. replace (n mod 128 + 128 <? 128) with false by lia.
    rewrite IH; [cbn [mbind option_bind]; do 2 f_equal; pose proof (Z.div_mod n 128); lia|lia|].
    replace (Z.of_nat (S (S f)) - 1) with (Z.succ (Z.of_nat (S f) - 1)) in Hn by lia. rewrite Z.pow_succ_r in Hn by lia.
    split; [apply Z.div_pos; lia|apply Z.div_lt_upper_bound; lia].
Qed.
Lemma varint_dec_enc n l : 0 <= n < 2 ^ 64 -> varint_dec 10 (varint n ++ l) = Some (n, l).
Proof. intros H. apply varint_roundtrip; [lia|]. change (2 * 128 ^ (Z.of_nat 10 - 1)) with (2 ^ 64). done. Qed.

Lemma varint_nonempty n : exists b l, varint n = b :: l.
Proof. unfold varint. cbn [varint_enc]. destruct (n <? 128); eauto. Qed.

(** * Fields *)

Inductive WVal := WVarint (n : Z) | WI64 (n : Z) | WLen (b : bytes) | WI32 (n : Z).
Definition field : Type := Z * WVal.

Fixpoint le_enc (w : nat) (n : Z) : bytes := match w with O => [] | S w => n mod 256 :: le_enc w (n / 256) end.
Fixpoint le_dec (w : nat) (l : bytes) : option (Z * bytes) :=
  match w, l with
  | O, _ => Some (0, l)
  | S w, b :: l => '(n, l) ← le_dec w l; Some (b + 256 * n, l)
  | _, _ => None
  end.
Lemma le_roundtrip w : forall n l, 0 <= n < 256 ^ Z.of_nat w -> le_dec w (le_enc w n ++ l) = Some (n, l).
Proof.
  induction w as [|w IH]; intros n l Hn; [cbn in Hn; cbn; do 2 f_equal; lia|]. cbn [le_enc app le_dec].
  rewrite Nat2Z.inj_succ, Z.pow_succ_r in Hn by lia.
  rewrite IH by (split; [apply Z.div_pos; lia|apply Z.div_lt_upper_bound; lia]). cbn [mbind option_bind].
  do 2 f_equal. pose proof (Z.div_mod n 256). lia.
Qed.

Definition wire_type (v : WVal) : Z := match v with WVarint _ => 0 | WI64 _ => 1 | WLen _ => 2 | WI32 _ => 5 end.
Definition encode_val (v : WVal) : bytes :=
  match v with
  | WVarint n => varint n
  | WI64 n => le_enc 8 n
  | WLen b => varint (Z.of_nat (length b)) ++ b
  | WI32 n => le_enc 4 n
  end.
Definition encode_field (f : field) : bytes := varint (f.1 * 8 + wire_type f.2) ++ encode_val f.2.
Definition encode_fields (fs : list field) : bytes := concat (encode_field <$> fs).

Definition decode_val (wt : Z) (l : bytes) : option (WVal * bytes) :=
  if wt =? 0 then '(n, l) ← varint_dec 10 l; Some (WVarint n, l)
  else if wt =? 1 then '(n, l) ← le_dec 8 l; Some (WI64 n, l)
  else if wt =? 2 then
    '(n, l) ← varint_dec 10 l;
    if Z.of_nat (length l) <? n then None else Some (WLen (take (Z.to_nat n) l), drop (Z.to_nat n) l)
  else if wt =? 5 then '(n, l) ← le_dec 4 l; Some (WI32 n, l)
  else None.

(** [fuel] is at least the number of fields, so the length of the input is enough. *)
Fixpoint decode_fields (fuel : nat) (l : bytes) : option (list field) :=
  match l, fuel with
  | [], _ => Some []
  | _, O => None
  | _, S fuel =>
      '(tag, l) ← varint_dec 10 l;
      if (u32_max <? tag) || (tag / 8 =? 0) then None
      else '(v, l) ← decode_val (tag mod 8) l; fs ← decode_fields fuel l; Some ((tag / 8, v) :: fs)
  end.

Definition val_ok (v : WVal) : Prop :=
  match v with
  | WVarint n | WI64 n => 0 <= n < 2 ^ 64
  | WLen b => Z.of_nat (length b) < 2 ^ 64
  | WI32 n => 0 <= n < 2 ^ 32
  end.
Definition field_ok (f : field) : Prop := 0 < f.1 < 2 ^ 29 /\ val_ok f.2.

Lemma decode_val_enc v l : val_ok v -> decode_val (wire_type v) (encode_val v ++ l) = Some (v, l).
Proof.
  destruct v as [n|n|b|n]; cbn [val_ok]; intros H; unfold decode_val; cbn [wire_type encode_val Z.eqb Pos.eqb].
  - by rewrite varint_dec_enc.
  - rewrite le_roundtrip; [done|]. by change (256 ^ Z.of_nat 8) with (2 ^ 64).
  - rewrite <- app_assoc, varint_dec_enc by lia. cbn [mbind option_bind]. rewrite length_app.
    destruct (Z.ltb_spec (Z.of_nat (length b + length l)) (Z.of_nat (length b))); [lia|].
    by rewrite Nat2Z.id, take_app_length, drop_app_length.
  - rewrite le_roundtrip; [done|]. by change (256 ^ Z.of_nat 4) with (2 ^ 32).
Qed.

Lemma decode_fields_cons fuel f fs : field_ok f ->
  decode_fields (S fuel) (encode_field f ++ encode_fields fs) = (l ← decode_fields fuel (encode_fields fs); Some (f :: l)).
Proof.
  destruct f as [num v]. intros [Hn Hv]. cbn [fst snd] in *. unfold encode_field. cbn [fst snd].
  assert (0 <= wire_type v < 8) as Hw by (destruct v; cbn; lia).
  assert (forall l, decode_fields (S fuel) (varint (num * 8 + wire_type v) ++ l) =
    '(v, l) ← decode_val (wire_type v) l; fs ← decode_fields fuel l; Some ((num, v) :: fs)) as Hh.
  { intros l. destruct (varint_nonempty (num * 8 + wire_type v)) as (b & bs & Eb).
    pose proof (varint_dec_enc (num * 8 + wire_type v) l ltac:(lia)) as Hd. rewrite Eb in Hd |- *. cbn [app] in Hd |- *.
    cbn [decode_fields]. rewrite Hd. cbn [mbind option_bind].
    replace ((num * 8 + wire_type v) / 8) with num by (rewrite Z.div_add_l, Z.div_small by lia; lia).
    replace ((num * 8 + wire_type v) mod 8) with (wire_type v) by (rewrite Z.add_comm, Z_mod_plus_full, Z.mod_small by lia; lia).
    destruct (Z.ltb_spec u32_max (num * 8 + wire_type v)); [unfold u32_max in *; lia|].
    destruct (Z.eqb_spec num 0); [lia|]. done. }
  rewrite <- app_assoc, Hh, decode_val_enc by done. done.
Qed.

(** Fields are read back as they were written. *)
Lemma decode_fields_enc fs fuel : Forall field_ok fs -> (length fs <= fuel)%nat -> decode_fields fuel (encode_fields fs) = Some fs.
Proof.
  intros H. revert fuel. induction H as [|f fs Hf _ IH]; intros fuel Hl; [by destruct fuel|].
  destruct fuel as [|fuel]; [cbn in Hl; lia|]. change (encode_fields (f :: fs)) with (encode_field f ++ encode_fields fs).
  rewrite (decode_fields_cons fuel f fs Hf), IH by (cbn in Hl; lia). done.
Qed.

Lemma encode_fields_length fs : (length fs <= length (encode_fields fs))%nat.
Proof.
  induction fs as [|f fs IH]; [done|]. unfold encode_fields in *. cbn [fmap list_fmap concat length]. rewrite length_app.
  unfold encode_field at 1. destruct (varint_nonempty (f.1 * 8 + wire_type f.2)) as (b & l & ->). cbn [app length]. lia.
Qed.

Definition read_fields (l : bytes) : option (list field) := decode_fields (length l) l.
Lemma read_fields_enc fs : Forall field_ok fs -> read_fields (encode_fields fs) = Some fs.
Proof. intros H. apply decode_fields_enc; [done|apply encode_fields_length]. Qed.

(** * Values of fields *)

(** All values of a field; a scalar field takes the last. *)
Definition get (num : Z) (fs : list field) : list WVal := (filter (fun f => f.1 = num) fs).*2.

Definition get_len (num : Z) (fs : list field) : option bytes :=
  vs ← mapM (fun v => match v with WLen b => Some b | _ => None end) (get num fs); Some (foldl (fun _ v => v) [] vs).
Definition get_varint (num : Z) (fs : list field) : option Z :=
  vs ← mapM (fun v => match v with WVarint n => Some n | _ => None end) (get num fs); Some (foldl (fun _ v => v) 0 vs).
Definition get_i32 (num : Z) (fs : list field) : option Z :=
  vs ← mapM (fun v => match v with WI32 n => Some n | _ => None end) (get num fs); Some (foldl (fun _ v => v) 0 vs).

(** A scalar of its default value is not written. *)
Definition put_len (num : Z) (b : bytes) : list field := match b with [] => [] | _ => [(num, WLen b)] end.
Definition put_varint (num n : Z) : list field := if n =? 0 then [] else [(num, WVarint n)].
Definition put_i32 (num n : Z) : list field := if n =? 0 then [] else [(num, WI32 n)].

(** Fields of another number do not matter. *)
Definition without (num : Z) (fs : list field) : Prop := Forall (fun f => f.1 <> num) fs.

Lemma without_app num a b : without num a -> without num b -> without num (a ++ b).
Proof. intros. by apply list.Forall_app. Qed.
Lemma without_put_len num k b : k <> num -> without num (put_len k b).
Proof. intros. destruct b; [constructor|]. by apply list.Forall_singleton. Qed.
Lemma without_put_varint num k n : k <> num -> without num (put_varint k n).
Proof. intros. unfold put_varint. destruct (n =? 0); [constructor|]. by apply list.Forall_singleton. Qed.
Lemma without_put_i32 num k n : k <> num -> without num (put_i32 k n).
Proof. intros. unfold put_i32. destruct (n =? 0); [constructor|]. by apply list.Forall_singleton. Qed.
Lemma without_nil num : without num [].
Proof. constructor. Qed.

Lemma get_without num fs : without num fs -> get num fs = [].
Proof. intros H. unfold get. induction H as [|f fs Hf _ IH]; [done|]. by rewrite filter_cons_False. Qed.
Lemma get_app num a b : get num (a ++ b) = get num a ++ get num b.
Proof. unfold get. by rewrite list.filter_app, fmap_app. Qed.
(** Fields of other numbers around a field do not matter to a reader of it. *)
Class Reader {A} (rd : Z -> list field -> option A) : Prop := reader_get : forall num fs fs', get num fs = get num fs' -> rd num fs = rd num fs'.
#[export] Instance get_len_reader : Reader get_len.
Proof. intros num fs fs' E. unfold get_len. by rewrite E. Qed.
#[export] Instance get_varint_reader : Reader get_varint.
Proof. intros num fs fs' E. unfold get_varint. by rewrite E. Qed.
#[export] Instance get_i32_reader : Reader get_i32.
Proof. intros num fs fs' E. unfold get_i32. by rewrite E. Qed.

Lemma read_left {A} (rd : Z -> list field -> option A) `{!Reader rd} num a b : without num b -> rd num (a ++ b) = rd num a.
Proof. intros Hb. apply reader_get. by rewrite get_app, (get_without _ b Hb), app_nil_r. Qed.
Lemma read_right {A} (rd : Z -> list field -> option A) `{!Reader rd} num a b : without num a -> rd num (a ++ b) = rd num b.
Proof. intros Ha. apply reader_get. by rewrite get_app, (get_without _ a Ha). Qed.

Lemma get_len_same num b : get_len num (put_len num b) = Some b.
Proof. unfold get_len, get, put_len. destruct b as [|x b]; [done|]. by rewrite filter_cons_True. Qed.
Lemma get_varint_same num n : get_varint num (put_varint num n) = Some n.
Proof. unfold get_varint, get, put_varint. destruct (Z.eqb_spec n 0) as [->|]; [done|]. by rewrite filter_cons_True. Qed.
Lemma get_i32_same num n : get_i32 num (put_i32 num n) = Some n.
Proof. unfold get_i32, get, put_i32. destruct (Z.eqb_spec n 0) as [->|]; [done|]. by rewrite filter_cons_True. Qed.

Lemma put_len_ok num b : 0 < num < 2 ^ 29 -> Z.of_nat (length b) < 2 ^ 64 -> Forall field_ok (put_len num b).
Proof. intros. destruct b; [constructor|]. by apply list.Forall_singleton. Qed.
Lemma put_varint_ok num n : 0 < num < 2 ^ 29 -> 0 <= n < 2 ^ 64 -> Forall field_ok (put_varint num n).
Proof. intros. unfold put_varint. destruct (n =? 0); [constructor|]. by apply list.Forall_singleton. Qed.
Lemma put_i32_ok num n : 0 < num < 2 ^ 29 -> 0 <= n < 2 ^ 32 -> Forall field_ok (put_i32 num n).
Proof. intros. unfold put_i32. destruct (n =? 0); [constructor|]. by apply list.Forall_singleton. Qed.

Create HintDb fields.
#[export] Hint Resolve without_app without_put_len without_put_varint without_put_i32 without_nil : fields.
#[export] Hint Extern 1 (_ <> _ :> Z) => lia : fields.

(** Reading a field of a message that was just written. *)
Ltac get_field :=
  repeat first
    [ rewrite get_len_same | rewrite get_varint_same | rewrite get_i32_same
    | rewrite (read_right get_len) by (solve [eauto 20 with fields]) | rewrite (read_left get_len) by (solve [eauto 20 with fields])
    | rewrite (read_right get_varint) by (solve [eauto 20 with fields]) | rewrite (read_left get_varint) by (solve [eauto 20 with fields])
    | rewrite (read_right get_i32) by (solve [eauto 20 with fields]) | rewrite (read_left get_i32) by (solve [eauto 20 with fields]) ].

(** * UTF-8 *)

Definition utf8_char (c : Z) : bytes :=
  if c <? 128 then [c]
  else if c <? 2048 then [192 + c / 64; 128 + c mod 64]
  else if c <? 65536 then [224 + c / 4096; 128 + (c / 64) mod 64; 128 + c mod 64]
  else [240 + c / 262144; 128 + (c / 4096) mod 64; 128 + (c / 64) mod 64; 128 + c mod 64].
Definition utf8 (t : text) : bytes := concat (utf8_char <$> t).

Fixpoint utf8_dec (l : bytes) : option text :=
  match l with
  | [] => Some []
  | b0 :: t =>
      if b0 <? 128 then cons b0 <$> utf8_dec t
      else match t with
           | [] => None
           | b1 :: t1 =>
               if lead2 b0 b1 then cons ((b0 - 192) * 64 + (b1 - 128)) <$> utf8_dec t1
               else match t1 with
                    | [] => None
                    | b2 :: t2 =>
                        if lead3 b0 b1 b2 then cons ((b0 - 224) * 4096 + (b1 - 128) * 64 + (b2 - 128)) <$> utf8_dec t2
                        else match t2 with
                             | [] => None
                             | b3 :: t3 =>
                                 if lead4 b0 b1 b2 b3
                                 then cons ((b0 - 240) * 262144 + (b1 - 128) * 4096 + (b2 - 128) * 64 + (b3 - 128)) <$> utf8_dec t3
                                 else None
                             end
                    end
           end
  end.

Lemma utf8_dec_char c l : is_char c = true -> utf8_dec (utf8_char c ++ l) = cons c <$> utf8_dec l.
Proof.
  unfold is_char. intros H. assert (0 <= c < 1114112 /\ ~ (55296 <= c < 57344)) as [Hr Hs] by (apply orb_true_iff in H as [H|H]; bool_to_prop; lia). clear H.
  unfold utf8_char. destruct (Z.ltb_spec c 128) as [|H1]; [cbn [app utf8_dec]; by replace (c <? 128) with true by lia|].
  pose proof (Z.mod_pos_bound c 64 ltac:(lia)) as M0. pose proof (Z.div_mod c 64 ltac:(lia)) as D0.
  destruct (Z.ltb_spec c 2048) as [|H2].
  { cbn [app utf8_dec]. assert (2 <= c / 64 < 32) by (split; [apply Z.div_le_lower_bound; lia|apply Z.div_lt_upper_bound; lia]).
    replace (192 + c / 64 <? 128) with false by lia.
    assert (lead2 (192 + c / 64) (128 + c mod 64) = true) as -> by (unfold lead2, cont; bool_to_prop; lia).
    do 2 f_equal. lia. }
  set (d := c / 64) in *. pose proof (Z.mod_pos_bound d 64 ltac:(lia)) as M1. pose proof (Z.div_mod d 64 ltac:(lia)) as D1.
  destruct (Z.ltb_spec c 65536) as [|H3].
  { replace (c / 4096) with (d / 64) by (unfold d; rewrite Z.div_div by lia; done). cbn [app utf8_dec].
    assert (0 <= d / 64 < 16) by (split; [apply Z.div_pos; lia|apply Z.div_lt_upper_bound; lia]).
    replace (224 + d / 64 <? 128) with false by lia.
    assert (lead2 (224 + d / 64) (128 + d mod 64) = false) as -> by (unfold lead2, cont; lia).
    assert (lead3 (224 + d / 64) (128 + d mod 64) (128 + c mod 64) = true) as -> by (unfold lead3, cont; lia).
    do 2 f_equal. lia. }
  set (e := d / 64) in *. pose proof (Z.mod_pos_bound e 64 ltac:(lia)) as M2. pose proof (Z.div_mod e 64 ltac:(lia)) as D2.
  replace (c / 4096) with e by (unfold e, d; rewrite Z.div_div by lia; done).
  replace (c / 262144) with (e / 64) by (unfold e, d; rewrite !Z.div_div by lia; done). cbn [app utf8_dec].
  assert (0 <= e / 64 < 5) by (split; [apply Z.div_pos; lia|apply Z.div_lt_upper_bound; lia]).
  replace (240 + e / 64 <? 128) with false by lia.
  assert (lead2 (240 + e / 64) (128 + e mod 64) = false) as -> by (unfold lead2, cont; lia).
  assert (lead3 (240 + e / 64) (128 + e mod 64) (128 + d mod 64) = false) as -> by (unfold lead3, cont; lia).
  assert (lead4 (240 + e / 64) (128 + e mod 64) (128 + d mod 64) (128 + c mod 64) = true) as -> by (unfold lead4, cont; lia).
  do 2 f_equal. lia.
Qed.

(** Text is read back from its UTF-8. *)
Lemma utf8_roundtrip t : text_ok t -> utf8_dec (utf8 t) = Some t.
Proof.
  induction 1 as [|c t Hc _ IH]; [done|]. unfold utf8 in *. cbn [fmap list_fmap concat]. rewrite utf8_dec_char by done. by rewrite IH.
Qed.
