(* ===== verification/PsrpcWire.v ===== *)
(** The messages of the bus as bytes, [crates/lk-psrpc/src/lib.rs] and [protos/internal.proto]: the
    envelope, what clients and servers publish, and how their loops read payloads.

    The handlers on bytes work with any encoding that can be undone ([BusCodec]); they do on bytes
    what the handlers of [Psrpc] do on messages.  The protobuf wire format is such an encoding. *)
From Stdlib Require Import ZArith Lia Ascii String.
From stdpp Require Import base gmap strings list option.
From S2P Require Import Prelude RustStr Turn Psrpc Protobuf.

Open Scope string_scope.
Open Scope list_scope.
Open Scope Z_scope.

(** * The messages of [internal.proto] *)

(** As far as they are set: the fields left at their default are not listed. *)
Record IMsg := mkIMsg { im_type_url : text; im_value : bytes; im_channel : text }.
Record IRequest := mkIRequest { ir_request_id : text; ir_client_id : text; ir_sent_at : Z; ir_expiry : Z; ir_raw_request : bytes }.
Record IResponse := mkIResponse {
  is_request_id : text; is_server_id : text; is_sent_at : Z; is_error : string; is_code : string; is_raw_response : bytes
}.
(** [affinity] by the bits of its [f32]. *)
Record IClaimRequest := mkIClaimRequest { iq_request_id : text; iq_server_id : text; iq_affinity : Z; iq_handling : bool }.
Record IClaimResponse := mkIClaimResponse { ip_request_id : text; ip_server_id : text }.

(** What the bus asks of the encoding. *)
Class BusCodec := {
  bc_msg :: Message IMsg; bc_request :: Message IRequest; bc_response :: Message IResponse;
  bc_claim_request :: Message IClaimRequest; bc_claim_response :: Message IClaimResponse;
}.
Class BusCodecLaws `{BusCodec} : Prop := {
  bl_msg :: MessageLaws IMsg; bl_request :: MessageLaws IRequest; bl_response :: MessageLaws IResponse;
  bl_claim_request :: MessageLaws IClaimRequest; bl_claim_response :: MessageLaws IClaimResponse;
}.

(** * Payloads *)

Section Payloads.
Context `{BusCodec}.

Definition envelope {A} `{Message A} (type_name : string) (msg : A) : bytes :=
  encode (mkIMsg (lit ("type.googleapis.com/" +:+ type_name)) (encode msg) []).

(** [1.0f32]. *)
Definition AFFINITY : Z := 1065353216.

(** What is published for a message, at a time. *)
Definition payload_of (now : Z) (m : Msg) : bytes :=
  match m with
  | MRequest r => envelope "internal.Request" (mkIRequest (rq_id r) (rq_client r) now (rq_expiry r) (rq_raw r))
  | MClaimRequest c => envelope "internal.ClaimRequest" (mkIClaimRequest (cm_request_id c) (cm_server_id c) AFFINITY false)
  | MClaimResponse c => envelope "internal.ClaimResponse" (mkIClaimResponse (cm_request_id c) (cm_server_id c))
  | MResponse r => envelope "internal.Response" (mkIResponse (rs_id r) (rs_server r) now (rs_error r) (rs_code r) (rs_raw r))
  end.

(** [ends_with]. *)
Definition text_ends_with (suffix s : text) : bool := bool_decide (drop (length s - length suffix) s = suffix).

Definition claim_of (c : IClaimRequest) : Claim := mkClaim (iq_request_id c) (iq_server_id c).
Definition response_of (r : IResponse) : Response :=
  mkResponse (is_request_id r) (is_server_id r) (is_error r) (is_code r) (is_raw_response r).

(** [dispatch]. *)
Definition dispatch_bytes (cid : text) (payload : bytes) (s : Sys) : Sys :=
  match (decode payload : option IMsg) with
  | None => s
  | Some env =>
      if text_ends_with (lit "internal.ClaimRequest") (im_type_url env) then
        match (decode (im_value env) : option IClaimRequest) with
        | None => s
        | Some c => route cid (iq_request_id c) (push_claim (claim_of c)) s
        end
      else if text_ends_with (lit "internal.Response") (im_type_url env) then
        match (decode (im_value env) : option IResponse) with
        | None => s
        | Some r => route cid (is_request_id r) (push_resp (response_of r)) s
        end
      else s
  end.

(** One turn of the loop of [register_topic]. *)
Definition reg_bytes (lost : text -> string -> bool) (i : nat) (g : Reg) (ch : string) (payload : bytes)
    (q : list (string * Msg)) (s : Sys) : Sys :=
  let skip := set_reg i (with_reg g q (rg_pending g)) s in
  match (decode payload : option IMsg) with
  | None => skip
  | Some env =>
      if (ch =? rpc_ch g)%string then
        match (decode (im_value env) : option IRequest) with
        | None => skip
        | Some req =>
            if ir_expiry req <=? sy_now s then skip
            else
              let pending := filter (fun e => e.2.2 > sy_now s) (rg_pending g) in
              let pending := <[ir_request_id req := (ir_client_id req, ir_raw_request req, ir_expiry req)]> pending in
              publish lost (claim_request_channel (rg_service g) (ir_client_id req))
                (MClaimRequest (mkClaim (ir_request_id req) (rg_server g))) (set_reg i (with_reg g q pending) s)
        end
      else if (ch =? rclaim_ch g)%string then
        match (decode (im_value env) : option IClaimResponse) with
        | None => skip
        | Some grant =>
            if bool_decide (ip_server_id grant <> rg_server g) then skip
            else match rg_pending g !! ip_request_id grant with
                 | None => skip
                 | Some (client_id, raw, _) =>
                     spawn g client_id (ip_request_id grant) raw
                       (set_reg i (with_reg g q (delete (ip_request_id grant) (rg_pending g))) s)
                 end
        end
      else skip
  end.
End Payloads.

(** [new_id]: the letters and digits drawn. *)
Definition ALPHABET : string := "abcdefghijklmnopqrstuvwxyzABCDEFGHIJKLMNOPQRSTUVWXYZ0123456789".
Definition letters : list Z := lit ALPHABET.
Definition new_id (prefix : string) (draws : list nat) : text :=
  lit prefix ++ ((fun i => default 0 (letters !! i)) <$> draws).

(** [RpcError], a code and a message. *)
Definition RpcError : Type := string * string.
Definition rpc_invalid_argument (message : string) : RpcError := ("invalid_argument", message).
Definition rpc_not_found (message : string) : RpcError := ("not_found", message).
Definition rpc_already_exists (message : string) : RpcError := ("already_exists", message).
Definition rpc_unavailable (message : string) : RpcError := ("unavailable", message).
Definition rpc_internal (message : string) : RpcError := ("internal", message).

(** * Each channel carries one kind of message *)

Section Typing.
Context {P : Type} (empty : P) (handler : text -> P -> Result (string * string) P -> Prop).
Notation Sys := (@Sys P).
Notation Msg := (@Msg P).
Notation Call := (@Call P).
Notation Task := (@Task P).
Notation Reg := (@Reg P).
Notation Client := (@Client P).

Definition msg_kind (m : Msg) : Kind :=
  match m with MRequest _ => KReq | MClaimRequest _ => KClaim | MClaimResponse _ => KRclaim | MResponse _ => KRes end.

(** The clients requests name are clients' ids. *)
Definition names_ok (m : Msg) : Prop := match m with MRequest r => text_ok (rq_client r) | _ => True end.
Definition entry_ok (e : string * Msg) : Prop :=
  names_ok e.2 /\ exists s a t, text_ok s /\ text_ok a /\ text_ok t /\ e.1 = channel_of (msg_kind e.2) s a t.

Definition tclient (cid : text) (c : Client) : Prop := text_ok cid /\ text_ok (cl_service c) /\ Forall entry_ok (cl_queue c).
Definition treg (g : Reg) : Prop :=
  (text_ok (rg_service g) /\ text_ok (rg_method g) /\ text_ok (rg_topic g)) /\ Forall entry_ok (rg_queue g) /\
  map_Forall (fun _ v => text_ok v.1.1) (rg_pending g).
Definition tcall (k : Call) : Prop := text_ok (ca_service k) /\ text_ok (ca_method k) /\ text_ok (ca_topic k).
Definition ttask (t : Task) : Prop := text_ok (tk_service t) /\ text_ok (tk_client t).

Record typed (s : Sys) : Prop := {
  ty_clients : map_Forall tclient (sy_clients s);
  ty_calls : map_Forall (fun _ k => tcall k) (sy_calls s);
  ty_regs : Forall treg (sy_regs s);
  ty_tasks : Forall ttask (sy_tasks s);
}.

Lemma push_client_typed lost ch m cid c : entry_ok (ch, m) -> tclient cid c -> tclient cid (push_client lost ch m cid c).
Proof.
  intros He (H1 & H2 & H3). unfold push_client. case_match; [|done]. split_and!; [done|done|]. cbn.
  apply list.Forall_app. split; [done|by apply list.Forall_singleton].
Qed.
Lemma push_reg_typed lost ch m g : entry_ok (ch, m) -> treg g -> treg (push_reg lost ch m g).
Proof.
  intros He (H1 & H2 & H3). unfold push_reg. case_match; [|done]. split_and!; try done; try apply H1. cbn.
  apply list.Forall_app. split; [done|by apply list.Forall_singleton].
Qed.
Lemma publish_typed lost ch m s : entry_ok (ch, m) -> typed s -> typed (publish lost ch m s).
Proof.
  intros He [H1 H2 H3 H4]. split; [|exact H2| |exact H4]; cbn [publish sy_clients sy_regs].
  - intros cid c Hc. rewrite map_lookup_imap in Hc. destruct (sy_clients s !! cid) as [c0|] eqn:E; [|done].
    injection Hc as <-. apply push_client_typed; [done|by apply H1].
  - apply list.Forall_fmap. eapply list.Forall_impl; [exact H3|]. intros g. by apply push_reg_typed.
Qed.
Lemma set_call_typed id k s : tcall k -> typed s -> typed (set_call id k s).
Proof. intros Hk [H1 H2 H3 H4]. split; try done. by apply map_Forall_insert_2. Qed.
Lemma set_client_typed cid c s : tclient cid c -> typed s -> typed (set_client cid c s).
Proof. intros Hc [H1 H2 H3 H4]. split; try done. by apply map_Forall_insert_2. Qed.
Lemma set_reg_typed i g s : treg g -> typed s -> typed (set_reg i g s).
Proof. intros Hg [H1 H2 H3 H4]. split; try done. by apply Forall_insert. Qed.
Lemma route_typed cid id f s : (forall k, tcall k -> tcall (f k)) -> typed s -> typed (route cid id f s).
Proof.
  intros Hf Ht. unfold route. destruct (sy_calls s !! id) as [k|] eqn:E; [|done]. case_match; [|done].
  apply set_call_typed; [|done]. apply Hf. by eapply (ty_calls s Ht).
Qed.
#[local] Hint Resolve publish_typed set_call_typed set_client_typed set_reg_typed : core.

Lemma reg_step_typed lost i g ch m q s : typed s -> sy_regs s !! i = Some g -> rg_queue g = (ch, m) :: q -> typed (reg_step lost i g ch m q s).
Proof.
  intros Ht Hg Hq. assert (treg g) as (Hn & Hqs & Hp) by (pose proof (ty_regs s Ht) as H; rewrite list.Forall_lookup in H; by eapply H).
  rewrite Hq in Hqs. apply list.Forall_cons in Hqs as [[Hm He] Hqs].
  assert (forall p, map_Forall (fun _ v => text_ok v.1.1) p -> treg (with_reg g q p)) as Hw by (intros p Hp'; split; [exact Hn|split; [exact Hqs|exact Hp']]).
  unfold reg_step. repeat case_match; auto.
  - apply publish_typed; [|apply set_reg_typed; [|done]].
    + split; [done|]. exists (rg_service g), (rq_client r), []. by split_and!; [apply Hn|exact Hm|constructor|].
    + apply Hw. apply map_Forall_insert_2; [exact Hm|]. intros id v [Hv _]%map_lookup_filter_Some. exact (Hp _ _ Hv).
  - subst. assert (typed (set_reg i (with_reg g q (delete (cm_request_id c) (rg_pending g))) s)) as Hs.
    { apply set_reg_typed; [|done]. apply Hw. by apply map_Forall_delete. }
    destruct Hs as [S1 S2 S3 S4]. split; try done. cbn. apply list.Forall_app. split; [done|]. apply list.Forall_singleton.
    split; [apply Hn|]. match goal with H : rg_pending g !! _ = Some _ |- _ => exact (Hp _ _ H) end.
Qed.

Lemma rpc_step_typed s s' : typed s -> rpc_step empty handler s s' -> typed s'.
Proof.
  intros Ht Hs. destruct Hs as [s lost cid c id method topic raw timeout Hc _ Hm Htp|s cid c ch m q Hc Hq|s s' lost id k Hk Hs
    |s id k e Hk Hr|s id k Hk Hr|s lost i g ch m q Hg Hq|s lost i t r Ht' _|s now].
  - destruct (ty_clients s Ht cid c Hc) as (H1 & H2 & _). unfold start_call.
    apply publish_typed; [|by apply set_call_typed; [split_and!; [done|apply Hm|done]|]].
    split; [done|]. exists (cl_service c), method, topic. split_and!; [done|apply Hm|done|done].
  - destruct (ty_clients s Ht cid c Hc) as (H1 & H2 & H3). rewrite Hq in H3. apply list.Forall_cons in H3 as [_ H3].
    assert (typed (set_client cid (mkClient (cl_service c) q) s)) as Hs by (apply set_client_typed; [by split_and!|done]).
    destruct m; cbn [dispatch]; [done|..|done|]; by apply route_typed.
  - pose proof (ty_calls s Ht id k Hk) as Hkt. pose proof Hkt as (K1 & K2 & K3). unfold call_step in Hs.
    destruct (ca_result k); [done|]. destruct (ca_resps k).
    + destruct (ca_claims k) as [|cl claims]; [done|]. destruct (ca_granted k); injection Hs as <-; [by apply set_call_typed|].
      apply publish_typed; [|by apply set_call_typed]. split; [done|]. by exists (ca_service k), (ca_method k), (ca_topic k).
    + injection Hs as <-. by apply set_call_typed.
  - apply set_call_typed; [|done]. exact (ty_calls s Ht id k Hk).
  - apply set_call_typed; [|done]. exact (ty_calls s Ht id k Hk).
  - by apply reg_step_typed.
  - pose proof (ty_tasks s Ht) as Hts. rewrite list.Forall_lookup in Hts. destruct (Hts i t Ht') as [T1 T2]. unfold task_step. apply publish_typed.
    + split; [done|]. exists (tk_service t), (tk_client t), []. by split_and!; [..|constructor|].
    + destruct Ht as [H1 H2 H3 H4]. split; try done. by apply Forall_delete.
  - by destruct Ht.
Qed.

(** Before any call, with ids made of characters. *)
Lemma initial_typed s : initial s -> (forall cid, is_Some (sy_clients s !! cid) -> text_ok cid) -> typed s.
Proof.
  intros (Hc & Ht & _ & Hcl & Hr & _) Hid. split.
  - intros cid c E. destruct (Hcl cid c E) as [Hq Hn]. split_and!; [by apply Hid|apply Hn|]. by rewrite Hq.
  - by rewrite Hc.
  - apply list.Forall_forall. intros g Hg. destruct (Hr g Hg) as (Hq & Hp & H1 & H2 & H3). split_and!; [apply H1|apply H2|done|by rewrite Hq|by rewrite Hp].
  - by rewrite Ht.
Qed.

Lemma reach_typed s0 s : initial s0 -> (forall cid, is_Some (sy_clients s0 !! cid) -> text_ok cid) ->
  reach (rpc_step empty handler) s0 s -> typed s.
Proof. intros H0 Hid. apply reach_invariant; [by apply initial_typed|intros; by eapply rpc_step_typed]. Qed.
End Typing.

(** * The loops read what was published *)

Section Refinement.
Context `{BusCodecLaws}.

(** Messages the encoding can carry. *)
Definition sent_ok {A} `{Message A} (type_name : string) (msg : A) : Prop :=
  msg_ok msg /\ msg_ok (mkIMsg (lit ("type.googleapis.com/" +:+ type_name)) (encode msg) []).
Definition payload_ok (now : Z) (m : Msg) : Prop :=
  match m with
  | MRequest r => sent_ok "internal.Request" (mkIRequest (rq_id r) (rq_client r) now (rq_expiry r) (rq_raw r))
  | MClaimRequest c => sent_ok "internal.ClaimRequest" (mkIClaimRequest (cm_request_id c) (cm_server_id c) AFFINITY false)
  | MClaimResponse c => sent_ok "internal.ClaimResponse" (mkIClaimResponse (cm_request_id c) (cm_server_id c))
  | MResponse r => sent_ok "internal.Response" (mkIResponse (rs_id r) (rs_server r) now (rs_error r) (rs_code r) (rs_raw r))
  end.

Lemma decode_envelope {A} `{MessageLaws A} name (msg : A) : sent_ok name msg ->
  decode (envelope name msg) = Some (mkIMsg (lit ("type.googleapis.com/" +:+ name)) (encode msg) []) /\ decode (encode msg) = Some msg.
Proof. intros [? ?]. split; by apply decode_encode. Qed.

(** A client's loop, on any message. *)
Lemma dispatch_bytes_spec cid now m s : payload_ok now m -> dispatch_bytes cid (payload_of now m) s = dispatch cid m s.
Proof.
  intros Hok. unfold dispatch_bytes. destruct m as [r|c|c|r]; cbn [payload_of payload_ok] in *;
    destruct (decode_envelope _ _ Hok) as [-> Hd]; cbn [im_type_url im_value].
  all: repeat match goal with |- context [text_ends_with ?a ?b] =>
         let v := eval vm_compute in (text_ends_with a b) in replace (text_ends_with a b) with v by (vm_compute; reflexivity) end.
  - done.
  - rewrite Hd. by destruct c.
  - done.
  - rewrite Hd. by destruct r.
Qed.

(** A server's loop, on the kind of message its channel carries. *)
Lemma reg_bytes_spec lost i g ch now m q s : payload_ok now m ->
  (ch = rpc_ch g -> msg_kind m = KReq) -> (ch <> rpc_ch g -> ch = rclaim_ch g -> msg_kind m = KRclaim) ->
  reg_bytes lost i g ch (payload_of now m) q s = reg_step lost i g ch m q s.
Proof.
  intros Hok H1 H2. unfold reg_bytes, reg_step. destruct (String.eqb_spec ch (rpc_ch g)) as [E1|E1].
  - destruct m as [r|c|c|r]; try (specialize (H1 E1); done). cbn [payload_of payload_ok] in *.
    destruct (decode_envelope _ _ Hok) as [-> Hd]. cbn [im_value]. by rewrite Hd.
  - destruct (String.eqb_spec ch (rclaim_ch g)) as [E2|E2].
    + destruct m as [r|c|c|r]; try (specialize (H2 E1 E2); done). cbn [payload_of payload_ok] in *.
      destruct (decode_envelope _ _ Hok) as [-> Hd]. cbn [im_value]. by rewrite Hd.
    + by destruct (decode (payload_of now m)).
Qed.

(** The wire refines the protocol.  With any encoding that can be undone, in every state the
    system of clients and servers reaches: a turn of a client's loop on the bytes of the first
    message of its queue does what the protocol does with the message, and so does a turn of a
    server's loop, which goes by the channel and not by the type the envelope names; a payload
    that does not decode is skipped by both. *)
Theorem wire_refines_protocol (handler : text -> bytes -> Result (string * string) bytes -> Prop) s0 s :
  initial s0 -> (forall cid, is_Some (sy_clients s0 !! cid) -> text_ok cid) -> reach (rpc_step [] handler) s0 s ->
  (forall cid now m, payload_ok now m -> dispatch_bytes cid (payload_of now m) s = dispatch cid m s) /\
  (forall i g ch m q lost now, sy_regs s !! i = Some g -> rg_queue g = (ch, m) :: q -> payload_ok now m ->
     reg_bytes lost i g ch (payload_of now m) q s = reg_step lost i g ch m q s) /\
  (forall payload, (decode payload : option IMsg) = None ->
     (forall cid, dispatch_bytes cid payload s = s) /\
     (forall lost i g ch q, reg_bytes lost i g ch payload q s = set_reg i (with_reg g q (rg_pending g)) s)).
Proof.
  intros Hini Hid Hr. pose proof (reach_typed [] handler s0 s Hini Hid Hr) as Ht. split_and!.
  - intros cid now m Hok. by apply dispatch_bytes_spec.
  - intros i g ch m q lost now Hg Hq Hok. pose proof (ty_regs s Ht) as Hrs. rewrite list.Forall_lookup in Hrs.
    destruct (Hrs i g Hg) as ((N1 & N2 & N3) & He & _). rewrite Hq in He. apply list.Forall_cons in He as [(_ & s1 & a1 & t1 & T1 & T2 & T3 & Ech) _].
    cbn [fst snd] in Ech. apply reg_bytes_spec; [done|..].
    + intros ->. change (rpc_ch g) with (channel_of KReq (rg_service g) (rg_method g) (rg_topic g)) in Ech. by apply channel_of_kind in Ech.
    + intros _ ->. change (rclaim_ch g) with (channel_of KRclaim (rg_service g) (rg_method g) (rg_topic g)) in Ech. by apply channel_of_kind in Ech.
  - intros payload Hp. split; intros; unfold dispatch_bytes, reg_bytes; by rewrite Hp.
Qed.

(** A handler's error reaches the caller: what a client reads from the bytes of the response is the
    error's code and message, unless the message is empty. *)
Theorem rpc_error_on_wire now id server (e : RpcError) :
  payload_ok now (MResponse (make_response [] id server (Err e))) -> e.2 <> "" ->
  exists env r, (decode (payload_of now (MResponse (make_response [] id server (Err e)))) : option IMsg) = Some env /\
    (decode (im_value env) : option IResponse) = Some r /\ is_request_id r = id /\
    response_payload (response_of r) = Err (Rpc e.1 e.2).
Proof.
  intros Hok He. destruct e as [c msg]. cbn [payload_of payload_ok make_response] in *.
  destruct (decode_envelope _ _ Hok) as [-> Hd]. do 2 eexists. split; [done|]. split; [exact Hd|]. split; [done|].
  unfold response_payload. cbn. apply String.eqb_neq in He. cbn in He. by rewrite He.
Qed.
End Refinement.

(** * The protobuf encoding *)

(** With the field numbers of [internal.proto]. *)
Definition str_ok (t : text) : Prop := text_ok t /\ Z.of_nat (length (utf8 t)) < 2 ^ 64.
Definition string_ok (s : string) : Prop := utf8_valid (as_bytes s) = true /\ Z.of_nat (length (as_bytes s)) < 2 ^ 64.
Definition len_ok (b : bytes) : Prop := Z.of_nat (length b) < 2 ^ 64.
Definition i64_ok (n : Z) : Prop := i64_min <= n <= i64_max.

Definition put_text (num : Z) (t : text) : list field := put_len num (utf8 t).
Definition put_int64 (num n : Z) : list field := put_varint num (wrap_u 64 n).
Definition read_text (num : Z) (fs : list field) : option text := b ← get_len num fs; utf8_dec b.
Definition read_string (num : Z) (fs : list field) : option string := b ← get_len num fs; from_utf8 b.
Definition read_int64 (num : Z) (fs : list field) : option Z := n ← get_varint num fs; Some (wrap_s 64 n).

#[global] Instance pb_msg : Message IMsg := {|
  encode m := encode_fields (put_text 1 (im_type_url m) ++ put_len 2 (im_value m) ++ put_text 3 (im_channel m));
  decode l := fs ← read_fields l; url ← read_text 1 fs; value ← get_len 2 fs; channel ← read_text 3 fs; Some (mkIMsg url value channel);
  msg_ok m := str_ok (im_type_url m) /\ len_ok (im_value m) /\ str_ok (im_channel m) |}.
#[global] Instance pb_request : Message IRequest := {|
  encode r := encode_fields (put_text 1 (ir_request_id r) ++ put_text 2 (ir_client_id r) ++ put_int64 3 (ir_sent_at r) ++
                put_int64 4 (ir_expiry r) ++ put_len 8 (ir_raw_request r));
  decode l := fs ← read_fields l; id ← read_text 1 fs; client ← read_text 2 fs; sent ← read_int64 3 fs; expiry ← read_int64 4 fs;
              raw ← get_len 8 fs; Some (mkIRequest id client sent expiry raw);
  msg_ok r := str_ok (ir_request_id r) /\ str_ok (ir_client_id r) /\ i64_ok (ir_sent_at r) /\ i64_ok (ir_expiry r) /\ len_ok (ir_raw_request r) |}.
#[global] Instance pb_response : Message IResponse := {|
  encode r := encode_fields (put_text 1 (is_request_id r) ++ put_text 2 (is_server_id r) ++ put_int64 3 (is_sent_at r) ++
                put_len 5 (as_bytes (is_error r)) ++ put_len 6 (as_bytes (is_code r)) ++ put_len 7 (is_raw_response r));
  decode l := fs ← read_fields l; id ← read_text 1 fs; server ← read_text 2 fs; sent ← read_int64 3 fs; error ← read_string 5 fs;
              code ← read_string 6 fs; raw ← get_len 7 fs; Some (mkIResponse id server sent error code raw);
  msg_ok r := str_ok (is_request_id r) /\ str_ok (is_server_id r) /\ i64_ok (is_sent_at r) /\ string_ok (is_error r) /\ string_ok (is_code r) /\
              len_ok (is_raw_response r) |}.
#[global] Instance pb_claim_request : Message IClaimRequest := {|
  encode c := encode_fields (put_text 1 (iq_request_id c) ++ put_text 2 (iq_server_id c) ++ put_i32 3 (iq_affinity c) ++
                put_varint 4 (if iq_handling c then 1 else 0));
  decode l := fs ← read_fields l; id ← read_text 1 fs; server ← read_text 2 fs; affinity ← get_i32 3 fs; h ← get_varint 4 fs;
              Some (mkIClaimRequest id server affinity (negb (h =? 0)));
  msg_ok c := str_ok (iq_request_id c) /\ str_ok (iq_server_id c) /\ 0 <= iq_affinity c < 2 ^ 32 |}.
#[global] Instance pb_claim_response : Message IClaimResponse := {|
  encode c := encode_fields (put_text 1 (ip_request_id c) ++ put_text 2 (ip_server_id c));
  decode l := fs ← read_fields l; id ← read_text 1 fs; server ← read_text 2 fs; Some (mkIClaimResponse id server);
  msg_ok c := str_ok (ip_request_id c) /\ str_ok (ip_server_id c) |}.

Lemma wrap_s_u64 n : i64_ok n -> wrap_s 64 (wrap_u 64 n) = n.
Proof.
  unfold i64_ok, i64_min, i64_max, wrap_s, wrap_u. intros Hn. rewrite Zplus_mod_idemp_l, Z.mod_small by lia. lia.
Qed.

(** The fields of a message are well formed, and each is read back. *)
Ltac pb_ok := repeat (apply list.Forall_app; split); unfold put_text, put_int64; first [apply put_len_ok|apply put_varint_ok|apply put_i32_ok];
  try lia; try (apply wrap_u_bound; lia); try (by destruct_and?).
Ltac pb_roundtrip :=
  cbn [decode encode pb_msg pb_request pb_response pb_claim_request pb_claim_response im_type_url im_value im_channel
    ir_request_id ir_client_id ir_sent_at ir_expiry ir_raw_request is_request_id is_server_id is_sent_at is_error is_code is_raw_response
    iq_request_id iq_server_id iq_affinity iq_handling ip_request_id ip_server_id];
  rewrite read_fields_enc by pb_ok; cbn [mbind option_bind];
  unfold read_text, read_string, read_int64, put_text, put_int64; get_field; cbn [mbind option_bind].

#[global] Instance pb_msg_laws : MessageLaws IMsg.
Proof.
  intros [url value ch] ([U1 U2] & V & [C1 C2]). cbn in U1, U2, V, C1, C2. unfold len_ok in *. pb_roundtrip.
  rewrite (utf8_roundtrip url U1). cbn. by rewrite (utf8_roundtrip ch C1).
Qed.
#[global] Instance pb_request_laws : MessageLaws IRequest.
Proof.
  intros [id client sent expiry raw] ([U1 U2] & [C1 C2] & S & E & V). cbn in U1, U2, C1, C2, S, E, V. unfold len_ok in *. pb_roundtrip.
  rewrite (utf8_roundtrip id U1). cbn [mbind option_bind]. rewrite (utf8_roundtrip client C1). cbn [mbind option_bind].
  by rewrite !wrap_s_u64.
Qed.
#[global] Instance pb_response_laws : MessageLaws IResponse.
Proof.
  intros [id server sent error co raw] ([U1 U2] & [C1 C2] & S & [E1 E2] & [D1 D2] & V). cbn in U1, U2, C1, C2, S, E1, E2, D1, D2, V.
  unfold len_ok in *. pb_roundtrip.
  rewrite (utf8_roundtrip id U1). cbn [mbind option_bind]. rewrite (utf8_roundtrip server C1). cbn [mbind option_bind].
  rewrite wrap_s_u64 by done. unfold from_utf8. by rewrite E1, D1, !of_as_bytes.
Qed.
#[global] Instance pb_claim_request_laws : MessageLaws IClaimRequest.
Proof.
  intros [id server aff h] ([U1 U2] & [C1 C2] & A). cbn in U1, U2, C1, C2, A.
  assert (0 <= (if h then 1 else 0) < 2 ^ 64) by (destruct h; lia). pb_roundtrip.
  rewrite (utf8_roundtrip id U1). cbn [mbind option_bind]. rewrite (utf8_roundtrip server C1). by destruct h.
Qed.
#[global] Instance pb_claim_response_laws : MessageLaws IClaimResponse.
Proof.
  intros [id server] ([U1 U2] & [C1 C2]). cbn in U1, U2, C1, C2. pb_roundtrip.
  rewrite (utf8_roundtrip id U1). cbn [mbind option_bind]. by rewrite (utf8_roundtrip server C1).
Qed.

#[global] Instance pb_codec : BusCodec := {}.
#[global] Instance pb_codec_laws : BusCodecLaws.
Proof. constructor; apply _. Qed.

(** The bytes of a grant, as they are on the wire. *)
Example grant_bytes : encode (mkIClaimResponse (lit "REQ_1") (lit "SRV_2")) = [10; 5; 82; 69; 81; 95; 49; 18; 5; 83; 82; 86; 95; 50].
Proof. reflexivity. Qed.

(** * Ids *)

Lemma alphabet_plain i : (i < 62)%nat -> plain (default 0 (letters !! i)) = true.
Proof.
  intros Hi. assert (forallb (fun i => plain (default 0 (letters !! i))) (seq 0 62) = true) as Ha by (vm_compute; reflexivity).
  rewrite forallb_forall in Ha. apply Ha, in_seq. lia.
Qed.
Lemma alphabet_inj i j : (i < 62)%nat -> (j < 62)%nat -> default 0 (letters !! i) = default 0 (letters !! j) -> i = j.
Proof.
  intros Hi Hj E. assert (length letters = 62%nat) as Hl by reflexivity.
  destruct (lookup_lt_is_Some_2 letters i) as [x Ex]; [lia|]. destruct (lookup_lt_is_Some_2 letters j) as [y Ey]; [lia|].
  rewrite Ex, Ey in E. cbn in E. subst y. assert (NoDup letters) as Hn by (apply (bool_decide_unpack _); vm_compute; reflexivity).
  by eapply NoDup_lookup.
Qed.

(** Ids of clients, servers and requests.  They are made of characters that channel names keep as
    they are, and different draws give different ids, so that clients of a service with different
    draws listen on different channels. *)
Theorem new_id_channels service draws draws' :
  name_ok service -> Forall (fun i => (i < 62)%nat) draws -> Forall (fun i => (i < 62)%nat) draws' ->
  Forall (fun c => plain c = true) (new_id "CLI_" draws) /\
  (response_channel service (new_id "CLI_" draws) = response_channel service (new_id "CLI_" draws') -> draws = draws').
Proof.
  assert (forall d, Forall (fun i => (i < 62)%nat) d -> Forall (fun c => plain c = true) (new_id "CLI_" d)) as Hp.
  { intros d Hd. apply list.Forall_app. split; [by repeat constructor|]. apply list.Forall_fmap.
    eapply list.Forall_impl; [exact Hd|]. intros i. apply alphabet_plain. }
  assert (forall d, Forall (fun i => (i < 62)%nat) d -> name_ok (new_id "CLI_" d)) as Hn.
  { intros d Hd. split; [done|]. eapply list.Forall_impl; [apply Hp, Hd|]. intros c Hc. unfold plain in Hc. unfold is_char. lia. }
  intros Hs Hd Hd'. split; [by apply Hp|]. intros E.
  apply (channel3_inj _ _ _ _ (suffix KRes)) in E as [_ E]; auto using suffix_ok. unfold new_id in E. apply app_inv_head in E.
  clear Hp Hn Hs. revert draws' Hd' E. induction Hd as [|i l Hi _ IH]; intros [|j l'] Hd' E; try done.
  apply list.Forall_cons in Hd' as [Hj Hd']. cbn [fmap list_fmap] in E. injection E as E1 E2.
  apply alphabet_inj in E1 as ->; [|done..]. f_equal. by apply IH.
Qed.

(** * Setting up clients and servers *)

Section Setup.
Context {P : Type}.
(** What the bus answers to a subscription. *)
Variable subscribe : list string -> Result string unit.

(** [PsrpcClient::new_with_timeout] with [spawn_listener]. *)
Definition client_channels (service id : text) : list string := [response_channel service id; claim_request_channel service id].
Definition client_new (service : text) (draws : list nat) (s : @Sys P) : Result string (text * @Sys P) :=
  let id := new_id "CLI_" draws in
  _ ← subscribe (client_channels service id); Ok (id, set_client id (mkClient service []) s).

(** [PsrpcServer::new], [register_topic] and [register]. *)
Definition server_new (draws : list nat) : text := new_id "SRV_" draws.
Definition register_topic (server service method topic : text) (s : @Sys P) : Result string (@Sys P) :=
  _ ← subscribe [rpc_channel service method topic; claim_response_channel service method topic];
  Ok (mkSys (sy_clients s) (sy_calls s) (sy_regs s ++ [mkReg server service method topic [] ∅]) (sy_tasks s) (sy_log s) (sy_now s)).
Definition register (server service method : text) (s : @Sys P) : Result string (@Sys P) := register_topic server service method [] s.

Inductive setup (now : Z) : @Sys P -> Prop :=
| su_none : setup now (mkSys ∅ ∅ [] [] [] now)
| su_client s s' id service draws : setup now s -> name_ok service -> Forall (fun i => (i < 62)%nat) draws ->
    client_new service draws s = Ok (id, s') -> setup now s'
| su_register s s' server service method topic : setup now s -> name_ok service -> name_ok method -> text_ok topic ->
    register_topic server service method topic s = Ok s' -> setup now s'.

(** A system set up by these calls is one the protocol starts from, when no server registers a
    method and topic twice. *)
Theorem setup_initial now s : setup now s -> NoDup (reg_key <$> sy_regs s) ->
  initial s /\ (forall cid, is_Some (sy_clients s !! cid) -> text_ok cid).
Proof.
  intros Hs Hn. enough (sy_calls s = ∅ /\ sy_tasks s = [] /\ sy_log s = [] /\
    map_Forall (fun cid c => text_ok cid /\ cl_queue c = [] /\ name_ok (cl_service c)) (sy_clients s) /\
    Forall (fun g => rg_queue g = [] /\ rg_pending g = ∅ /\ name_ok (rg_service g) /\ name_ok (rg_method g) /\ text_ok (rg_topic g)) (sy_regs s))
    as (H1 & H2 & H3 & H4 & H5).
  { split; [|intros cid [c Hc]; by apply (H4 cid c)]. split_and!; [done..| | |done].
    - intros cid c Hc. destruct (H4 cid c Hc) as (_ & ? & ?). done.
    - intros g Hg. rewrite list.Forall_forall in H5. by apply H5. }
  clear Hn. induction Hs as [|s s' id service draws _ IH Hn Hd E|s s' server service method topic _ IH Hn Hm Ht E]; [done|..];
    destruct IH as (H1 & H2 & H3 & H4 & H5).
  - apply bind_ok in E as ([] & _ & [= <- <-]). split_and!; try done. apply map_Forall_insert_2; [|done]. split; [|done].
    apply list.Forall_app. split; [by repeat constructor|]. apply list.Forall_fmap. eapply list.Forall_impl; [exact Hd|].
    intros i Hi. pose proof (alphabet_plain i Hi) as Hp. change (is_char (default 0 (letters !! i)) = true).
    revert Hp. generalize (default 0 (letters !! i)). intros c Hp. unfold plain in Hp. unfold is_char. lia.
  - apply bind_ok in E as ([] & _ & [= <-]). split_and!; try done. cbn. apply list.Forall_app. split; [done|]. by apply list.Forall_singleton.
Qed.
End Setup.
