(* ===== verification/Wav.v ===== *)
(** The PCM WAV writer of the recorder ([crates/lk-egress/src/wav.rs]) on a file with a cursor,
    and a reader of WAV files as its specification. *)
From Stdlib Require Import ZArith Lia Ascii String.
From stdpp Require Import base gmap strings list option.
From S2P Require Import Prelude RustStr.

Open Scope string_scope.
Open Scope list_scope.
Open Scope Z_scope.

(** * Files *)

(** A file open for writing: its bytes, the cursor, and the outcomes of the next operations
    ([Some e] fails with [e]; none left means success).  [BufWriter] only delays the writes,
    and [flush] and [seek] push them out. *)
Record File := mkFile { f_bytes : list Z; f_pos : nat; f_faults : list (option string) }.

Definition write_at (pos : nat) (bytes contents : list Z) : list Z :=
  take pos contents ++ bytes ++ drop (pos + length bytes) contents.

(** One I/O operation: it fails with the next fault, or has its effect. *)
Definition io (f : File) (k : File -> File) : Result string File :=
  match f_faults f with
  | Some e :: _ => Err e
  | None :: faults => Ok (k (mkFile (f_bytes f) (f_pos f) faults))
  | [] => Ok (k f)
  end.

Definition write_all (bytes : list Z) (f : File) : Result string File :=
  io f (fun f => mkFile (write_at (f_pos f) bytes (f_bytes f)) (f_pos f + length bytes) (f_faults f)).
Definition seek_start (pos : nat) (f : File) : Result string File :=
  io f (fun f => mkFile (f_bytes f) pos (f_faults f)).
Definition flush (f : File) : Result string File := io f id.

(** [File::create]: truncates. *)
Definition open_new (faults : list (option string)) : Result string File := io (mkFile [] 0 faults) id.

(** * The writer *)

(** [x.to_le_bytes()] of a [w]-byte integer. *)
Fixpoint le_bytes (w : nat) (x : Z) : list Z :=
  match w with O => [] | S w' => x mod 256 :: le_bytes w' (x / 256) end.

Definition u16_le (x : Z) : list Z := le_bytes 2 (wrap_u 16 x).
Definition u32_le (x : Z) : list Z := le_bytes 4 (wrap_u 32 x).
Definition i16_le (x : Z) : list Z := le_bytes 2 (wrap_u 16 x).

Fixpoint ascii_bytes (s : string) : list Z :=
  match s with "" => [] | String c s' => code c :: ascii_bytes s' end.

Record WavWriter := mkWav {
  wv_writer : File; wv_channels : Z; wv_sample_rate : Z; wv_data_bytes : Z;
}.

Definition PCM_FMT : Z := 1.

Definition create (path : string) (channels sample_rate : Z) (faults : list (option string)) : Result string WavWriter :=
  file ← map_err (fun e => "open " +:+ path +:+ ": " +:+ e) (open_new faults);
  writer ← map_err (fun e => "wav header: " +:+ e) (write_all (repeat 0 44) file);
  Ok (mkWav writer channels sample_rate 0).

Definition write_pcm (pcm : list Z) (w : WavWriter) : Result string WavWriter :=
  let bytes := pcm ≫= i16_le in
  writer ← map_err (fun e => "wav write: " +:+ e) (write_all bytes (wv_writer w));
  Ok (mkWav writer (wv_channels w) (wv_sample_rate w) (wv_data_bytes w + Z.of_nat (length bytes))).

(** The header [finish] writes; [channels * 2] is a [u16], [sample_rate * block_align] a
    [u32], and the two sizes are cut to [u32]. *)
Definition header (w : WavWriter) : list Z :=
  let block_align := wrap_u 16 (wv_channels w * 2) in
  let byte_rate := wrap_u 32 (wv_sample_rate w * block_align) in
  let total := 36 + wv_data_bytes w in
  ascii_bytes "RIFF" ++ u32_le total ++ ascii_bytes "WAVE" ++ ascii_bytes "fmt " ++ u32_le 16 ++
  u16_le PCM_FMT ++ u16_le (wv_channels w) ++ u32_le (wv_sample_rate w) ++ u32_le byte_rate ++
  u16_le block_align ++ u16_le 16 ++ ascii_bytes "data" ++ u32_le (wv_data_bytes w).

Definition finish (w : WavWriter) : Result string WavWriter :=
  f ← map_err (fun e => "wav flush: " +:+ e) (flush (wv_writer w));
  f ← map_err (fun e => "wav seek: " +:+ e) (seek_start 0 f);
  f ← map_err (fun e => "wav header: " +:+ e) (write_all (header w) f);
  f ← map_err (fun e => "wav flush: " +:+ e) (flush f);
  Ok (mkWav f (wv_channels w) (wv_sample_rate w) (wv_data_bytes w)).

(** A whole recording: [create], the chunks, [finish]. *)
Fixpoint write_chunks (chunks : list (list Z)) (w : WavWriter) : Result string WavWriter :=
  match chunks with
  | [] => Ok w
  | c :: cs => w ← write_pcm c w; write_chunks cs w
  end.
Definition wav_file (path : string) (channels sample_rate : Z) (chunks : list (list Z))
    (faults : list (option string)) : Result string (list Z) :=
  w ← create path channels sample_rate faults;
  w ← write_chunks chunks w;
  w ← finish w;
  Ok (f_bytes (wv_writer w)).

(** * A reader, as specification *)

Fixpoint of_le (l : list Z) : Z := match l with [] => 0 | b :: l' => b + 256 * of_le l' end.

Fixpoint samples_of (bytes : list Z) : option (list Z) :=
  match bytes with
  | [] => Some []
  | [_] => None
  | a :: b :: rest => l ← samples_of rest; Some (wrap_s 16 (of_le [a; b]) :: l)
  end.

Record Wave := mkWave { we_channels : Z; we_rate : Z; we_samples : list Z }.

Definition field (bytes : list Z) (i n : nat) : list Z := take n (drop i bytes).

(** Reads a canonical PCM file: the chunk ids, the sizes against the file, the format fields
    against each other, then the samples. *)
Definition read_wav (bytes : list Z) : option Wave :=
  let channels := of_le (field bytes 22 2) in
  let rate := of_le (field bytes 24 4) in
  let n := of_le (field bytes 40 4) in
  if bool_decide (field bytes 0 4 = ascii_bytes "RIFF") && bool_decide (of_le (field bytes 4 4) = Z.of_nat (length bytes) - 8) &&
     bool_decide (field bytes 8 4 = ascii_bytes "WAVE") && bool_decide (field bytes 12 4 = ascii_bytes "fmt ") &&
     bool_decide (of_le (field bytes 16 4) = 16) && bool_decide (of_le (field bytes 20 2) = 1) &&
     bool_decide (of_le (field bytes 28 4) = rate * channels * 2) && bool_decide (of_le (field bytes 32 2) = channels * 2) &&
     bool_decide (of_le (field bytes 34 2) = 16) && bool_decide (field bytes 36 4 = ascii_bytes "data") &&
     bool_decide (n = Z.of_nat (length bytes) - 44)
  then l ← samples_of (drop 44 bytes); Some (mkWave channels rate l)
  else None.

(** * Lemmas *)

Lemma le_bytes_length w x : length (le_bytes w x) = w.
Proof. revert x. induction w; intros; cbn; auto. Qed.

Lemma of_le_bytes w x : 0 <= x < 256 ^ Z.of_nat w -> of_le (le_bytes w x) = x.
Proof.
  revert x. induction w as [|w IH]; intros x Hx; cbn [le_bytes of_le]; [cbn in Hx; lia|].
  rewrite Nat2Z.inj_succ, Z.pow_succ_r in Hx by lia.
  rewrite IH; [|split; [apply Z.div_pos; lia|apply Z.div_lt_upper_bound; lia]].
  rewrite (Z.div_mod x 256) at 3 by lia. lia.
Qed.

Lemma i16_le_shape x : i16_le x = [wrap_u 16 x mod 256; wrap_u 16 x / 256 mod 256].
Proof. done. Qed.

Lemma wrap_s_u x : - 32768 <= x < 32768 -> wrap_s 16 (wrap_u 16 x) = x.
Proof.
  intros H. unfold wrap_s, wrap_u. change (2 ^ 16) with 65536. change (2 ^ (16 - 1)) with 32768. div_lia.
Qed.

Definition in_i16 (x : Z) : Prop := - 32768 <= x < 32768.

Lemma samples_of_pcm l : Forall in_i16 l -> samples_of (l ≫= i16_le) = Some l.
Proof.
  induction 1 as [|x l Hx _ IH]; [done|]. rewrite bind_cons, i16_le_shape. cbn [app samples_of].
  rewrite IH. cbn. do 2 f_equal.
  change [wrap_u 16 x mod 256; wrap_u 16 x / 256 mod 256] with (le_bytes 2 (wrap_u 16 x)).
  rewrite <- (wrap_s_u x Hx) at 3. f_equal. apply (of_le_bytes 2). apply (wrap_u_bound 16 x). lia.
Qed.

Lemma pcm_length l : length (l ≫= i16_le) = (2 * length l)%nat.
Proof. induction l as [|x l IH]; [done|]. rewrite bind_cons, length_app, IH. cbn. lia. Qed.

Lemma write_at_end bytes contents : write_at (length contents) bytes contents = contents ++ bytes.
Proof. unfold write_at. rewrite take_ge, drop_ge, app_nil_r by lia. done. Qed.

Lemma header_length w : length (header w) = 44%nat.
Proof. unfold header, u32_le, u16_le. cbv zeta. rewrite !length_app, !le_bytes_length. reflexivity. Qed.

(** A writer whose file holds the placeholder and the samples so far. *)
Definition holds (w : WavWriter) (pcm : list Z) : Prop :=
  f_bytes (wv_writer w) = repeat 0 44 ++ (pcm ≫= i16_le) /\
  f_pos (wv_writer w) = length (f_bytes (wv_writer w)) /\ f_faults (wv_writer w) = [] /\
  wv_data_bytes w = Z.of_nat (length (pcm ≫= i16_le)).

Lemma write_pcm_holds c w pcm : holds w pcm -> exists w', write_pcm c w = Ok w' /\ holds w' (pcm ++ c) /\
  wv_channels w' = wv_channels w /\ wv_sample_rate w' = wv_sample_rate w.
Proof.
  intros (Hb & Hp & Hf & Hd). unfold write_pcm, write_all, io. rewrite Hf. cbn. eexists; split; [done|].
  split; [|done]. unfold holds. cbn [wv_writer wv_data_bytes f_bytes f_pos f_faults]. rewrite Hp, write_at_end, Hb, Hd, bind_app.
  rewrite !length_app. split_and!; [by rewrite app_assoc|lia|done|lia].
Qed.

Lemma write_chunks_holds cs w pcm : holds w pcm -> exists w', write_chunks cs w = Ok w' /\ holds w' (pcm ++ mjoin cs) /\
  wv_channels w' = wv_channels w /\ wv_sample_rate w' = wv_sample_rate w.
Proof.
  revert w pcm. induction cs as [|c cs IH]; intros w pcm H; cbn [write_chunks mjoin list_join].
  - exists w. by rewrite app_nil_r.
  - destruct (write_pcm_holds c w pcm H) as (w1 & -> & H1 & E1 & E2). cbn.
    destruct (IH w1 _ H1) as (w2 & -> & H2 & E3 & E4). exists w2. rewrite <- app_assoc in H2. by rewrite E3, E4.
Qed.

Lemma finish_holds w pcm : holds w pcm -> exists w', finish w = Ok w' /\
  f_bytes (wv_writer w') = header w ++ (pcm ≫= i16_le).
Proof.
  intros (Hb & Hp & Hf & Hd). unfold finish. pose proof (header_length w) as Hl.
  generalize dependent (header w). intros h Hl.
  unfold flush, seek_start, write_all, io. rewrite Hf. cbn [Result_bind mbind map_err id f_faults f_bytes f_pos].
  rewrite Hf. cbn [Result_bind mbind map_err id f_faults f_bytes f_pos]. eexists; split; [done|].
  cbn [wv_writer f_bytes]. unfold write_at. rewrite Hb, Hl, take_0, app_nil_l. f_equal.
Qed.

(** The file a fault-free recording leaves. *)
Lemma wav_file_bytes path ch rate cs : exists w, wv_channels w = ch /\ wv_sample_rate w = rate /\
  wv_data_bytes w = Z.of_nat (2 * length (mjoin cs)) /\
  wav_file path ch rate cs [] = Ok (header w ++ (mjoin cs ≫= i16_le)).
Proof.
  unfold wav_file. assert (exists w0, create path ch rate [] = Ok w0 /\ holds w0 [] /\ wv_channels w0 = ch /\ wv_sample_rate w0 = rate)
    as (w0 & -> & H0 & Hc & Hr) by (eexists; split; [reflexivity|done]). cbn [Result_bind mbind].
  destruct (write_chunks_holds cs w0 [] H0) as (w1 & -> & H1 & Hc1 & Hr1). cbn [Result_bind mbind].
  destruct (finish_holds w1 _ H1) as (w2 & -> & Hw2). cbn [Result_bind mbind]. exists w1.
  destruct H1 as (_ & _ & _ & Hd). rewrite pcm_length in Hd. rewrite Hw2. by split_and!; try congruence.
Qed.

Lemma of_u32_le x : 0 <= x < 2 ^ 32 -> of_le (u32_le x) = x.
Proof. intros. unfold u32_le. rewrite wrap_u_small by done. by apply (of_le_bytes 4). Qed.
Lemma of_u16_le x : 0 <= x < 2 ^ 16 -> of_le (u16_le x) = x.
Proof. intros. unfold u16_le. rewrite wrap_u_small by done. by apply (of_le_bytes 2). Qed.

(** The fields of the header. *)
Lemma header_fields w rest : let b := header w ++ rest in
  field b 0 4 = ascii_bytes "RIFF" /\ field b 4 4 = u32_le (36 + wv_data_bytes w) /\
  field b 8 4 = ascii_bytes "WAVE" /\ field b 12 4 = ascii_bytes "fmt " /\ field b 16 4 = u32_le 16 /\
  field b 20 2 = u16_le 1 /\ field b 22 2 = u16_le (wv_channels w) /\ field b 24 4 = u32_le (wv_sample_rate w) /\
  field b 28 4 = u32_le (wrap_u 32 (wv_sample_rate w * wrap_u 16 (wv_channels w * 2))) /\
  field b 32 2 = u16_le (wrap_u 16 (wv_channels w * 2)) /\ field b 34 2 = u16_le 16 /\
  field b 36 4 = ascii_bytes "data" /\ field b 40 4 = u32_le (wv_data_bytes w) /\ drop 44 b = rest.
Proof. split_and!; reflexivity. Qed.

(** A file with the header of a writer and its samples reads back. *)
Lemma read_wav_header w channels rate pcm : wv_channels w = channels -> wv_sample_rate w = rate ->
  wv_data_bytes w = Z.of_nat (2 * length pcm) ->
  0 < channels -> 0 <= rate -> channels * 2 < 2 ^ 16 -> rate * (channels * 2) < 2 ^ 32 ->
  Forall in_i16 pcm -> Z.of_nat (2 * length pcm) < 2 ^ 32 - 36 ->
  read_wav (header w ++ (pcm ≫= i16_le)) = Some (mkWave channels rate pcm).
Proof.
  intros Ec Er Ed Hc Hr Hc2 Hr2 Hs Hn. set (rest := pcm ≫= i16_le).
  destruct (header_fields w rest) as (F1 & F2 & F3 & F4 & F5 & F6 & F7 & F8 & F9 & F10 & F11 & F12 & F13 & F14).
  unfold read_wav. rewrite F1, F2, F3, F4, F5, F6, F7, F8, F9, F10, F11, F12, F13, F14, Ec, Er, Ed.
  rewrite length_app, header_length. assert (length rest = 2 * length pcm)%nat as -> by apply pcm_length.
  assert (rate < 2 ^ 32) by nia.
  rewrite !(wrap_u_small 16 (channels * 2)) by lia. rewrite (wrap_u_small 32 (rate * (channels * 2))) by nia.
  rewrite (of_u32_le (36 + _)), (of_u32_le 16), (of_u16_le 1), (of_u16_le channels), (of_u32_le rate),
    (of_u32_le (rate * _)), (of_u16_le (channels * 2)), (of_u16_le 16), (of_u32_le (Z.of_nat _)) by nia.
  rewrite !bool_decide_true by (done || lia). cbn [andb]. unfold rest. by rewrite samples_of_pcm.
Qed.

(** WAV round trip.  Without I/O faults a recording of [i16] samples in any chunks, with a
    format whose byte rate fits 32 bits and less than 2^32 - 36 bytes of data, leaves a file
    that a reader accepts, with the format given to [create] and exactly the samples
    written. *)
Theorem wav_roundtrip path channels rate chunks :
  0 < channels -> 0 <= rate -> channels * 2 < 2 ^ 16 -> rate * (channels * 2) < 2 ^ 32 ->
  Forall in_i16 (mjoin chunks) -> Z.of_nat (2 * length (mjoin chunks)) < 2 ^ 32 - 36 ->
  exists bytes, wav_file path channels rate chunks [] = Ok bytes /\
    read_wav bytes = Some (mkWave channels rate (mjoin chunks)).
Proof.
  intros Hc Hr Hc2 Hr2 Hs Hn. destruct (wav_file_bytes path channels rate chunks) as (w & Ec & Er & Ed & ->).
  eexists; split; [done|]. by apply read_wav_header.
Qed.

Lemma wav_roundtrip_witness : exists bytes, wav_file "/out/EG_1.wav" 1 48000 [[1; -2]; [300]] [] = Ok bytes /\
  read_wav bytes = Some (mkWave 1 48000 [1; -2; 300]).
Proof.
  apply (wav_roundtrip "/out/EG_1.wav" 1 48000 [[1; -2]; [300]]); try (vm_compute; reflexivity); try lia.
  repeat constructor; unfold in_i16; lia.
Defined.

(** An I/O error ends the recording with that error: no later operation runs. *)
Lemma create_open_fault path ch rate e faults :
  create path ch rate (Some e :: faults) = Err ("open " +:+ path +:+ ": " +:+ e).
Proof. reflexivity. Qed.

(** Beyond 4 GiB the sizes in the header wrap: the reader then rejects the file. *)
Lemma wav_sizes_wrap w : wv_data_bytes w = 2 ^ 32 -> of_le (field (header w) 40 4) = 0.
Proof. intros H. rewrite <- (app_nil_r (header w)). destruct (header_fields w []) as (_&_&_&_&_&_&_&_&_&_&_&_&->&_). by rewrite H. Qed.
