(* ===== verification/Recorder.v ===== *)
(** The recorder's audio pipeline: mixing of decoded frames and the recording loop
    ([crates/lk-egress/src/audio.rs], [recorder.rs]). *)
From Stdlib Require Import ZArith Lia Ascii String.
From stdpp Require Import base gmap strings list option numbers.
From S2P Require Import Prelude RustStr Wav.

Open Scope string_scope.
Open Scope list_scope.
Open Scope Z_scope.

Definition i16_min : Z := -32768.
Definition i16_max : Z := 32767.

Definition sum_Z {A} (f : A -> Z) (l : list A) : Z := foldr (fun x acc => f x + acc) 0 l.

(** [q.get(i).copied().unwrap_or(0)]. *)
Definition sample (q : list Z) (i : nat) : Z := default 0 (q !! i).

(** * Mixing whole frames *)

(** [mix_frames]: the sum is an [i32], whose overflow wraps, and is averaged. *)
Definition mix_slot (frames : list (list Z)) (count : Z) (i : nat) : Z :=
  let sum := foldl (fun sum f => wrap_s 32 (sum + sample f i)) 0 frames in
  clamp i16_min i16_max (Z.quot sum count).

Definition mix_frames (frames : list (list Z)) : list Z :=
  match frames with
  | [] => []
  | _ =>
      let len := max_list (length <$> frames) in
      if (len =? 0)%nat then []
      else
        let count := wrap_s 32 (Z.max (Z.of_nat (length frames)) 1) in
        mix_slot frames count <$> seq 0 len
  end.

(** * The mixer *)

Definition FRAME_SAMPLES : nat := 960.
Definition SAMPLE_RATE : Z := 48000.

Inductive OutputFormat := FmtWav | FmtMp3.
#[export] Instance OutputFormat_eq_dec : EqDecision OutputFormat.
Proof. solve_decision. Defined.

(** Queued samples and the time of the last packet (nanoseconds), per track. *)
Record Mixer := mkMixer { mx_tracks : gmap string (list Z); mx_last_packet : gmap string Z }.
Definition Mixer_new : Mixer := mkMixer ∅ ∅.

Definition SILENT_TRACK_TIMEOUT : Z := 5 * 10 ^ 9.

Definition push (now : Z) (cid : string) (pcm : list Z) (m : Mixer) : Mixer :=
  mkMixer (<[cid := default [] (mx_tracks m !! cid) ++ pcm]> (mx_tracks m)) (<[cid := now]> (mx_last_packet m)).

(** [now.duration_since(t)] is 0 when [t] is later. *)
Definition is_stale (now t : Z) : Prop := Z.max 0 (now - t) > SILENT_TRACK_TIMEOUT.
#[export] Instance is_stale_dec now t : Decision (is_stale now t).
Proof. unfold is_stale. apply _. Defined.

Definition prune_stale (now : Z) (m : Mixer) : list string * Mixer :=
  let stale := (map_to_list (filter (fun kt => is_stale now kt.2) (mx_last_packet m))).*1 in
  (stale, mkMixer (foldr delete (mx_tracks m) stale) (foldr delete (mx_last_packet m) stale)).

Definition queues (m : Mixer) : list (list Z) := (map_to_list (mx_tracks m)).*2.

Definition available (m : Mixer) : nat := max_list (length <$> queues m).

Definition pop_front (q : list Z) : Z * list Z := match q with [] => (0, []) | s :: q' => (s, q') end.

(** One track added to the frame. *)
Fixpoint mix_in (count : Z) (frame q : list Z) : list Z * list Z :=
  match frame with
  | [] => ([], q)
  | slot :: frame' =>
      let '(s, q1) := pop_front q in
      let '(rest, q2) := mix_in count frame' q1 in
      (clamp i16_min i16_max (slot + Z.quot s count) :: rest, q2)
  end.

(** [for q in self.tracks.values_mut()], visiting the tracks in [order]. *)
Fixpoint read_tracks (count : Z) (order : list string) (frame : list Z) (tracks : gmap string (list Z)) :
    list Z * gmap string (list Z) :=
  match order with
  | [] => (frame, tracks)
  | cid :: order' =>
      match tracks !! cid with
      | Some q =>
          let '(frame', q') := mix_in count frame q in
          read_tracks count order' frame' (<[cid := q']> tracks)
      | None => read_tracks count order' frame tracks
      end
  end.

Definition track_count (m : Mixer) : Z := wrap_s 32 (Z.max (Z.of_nat (size (mx_tracks m))) 1).

Definition read_frame (order : list string) (len : nat) (m : Mixer) : list Z * Mixer :=
  let '(frame, tracks) := read_tracks (track_count m) order (replicate len 0) (mx_tracks m) in
  (frame, mkMixer tracks (mx_last_packet m)).

(** * The recording loop *)

(** [append_bytes]: opens the file in append mode and writes. *)
Definition append_bytes (path : string) (bytes : list Z) (f : File) : Result string File :=
  f ← map_err (fun e => "open " +:+ path +:+ ": " +:+ e) (io f id);
  map_err (fun e => "write " +:+ path +:+ ": " +:+ e)
    (write_all bytes (mkFile (f_bytes f) (length (f_bytes f)) (f_faults f))).

Section Recording.
(** The Opus decoder and the MP3 encoder are libraries: states and their operations. *)
Context {Decoder Encoder Payload : Type}.
Context (decoder_new : Decoder) (decode : Decoder -> Payload -> Result string (list Z) * Decoder).
Context (encoder_new : Z -> Result string Encoder) (encode : Encoder -> list Z -> Result string (list Z) * Encoder)
        (encoder_flush : Encoder -> Result string (list Z)).
(** The order in which a hash map's iterator visits the tracks. *)
Context (iter : gmap string (list Z) -> list string).

Record AudioPacket := mkPacket { pk_track_cid : string; pk_payload : Payload; pk_received : Z }.

Record Recording := mkRecording {
  rc_mixer : Mixer; rc_decoders : gmap string Decoder;
  rc_wav : option WavWriter; rc_mp3 : option Encoder; rc_file : File; rc_frames : Z;
}.

(** A mixed frame written to the output. *)
Definition write_frame (path : string) (frame : list Z) (r : Recording) : Result string Recording :=
  wav ← match rc_wav r with
        | Some w => w' ← write_pcm frame w; Ok (Some w')
        | None => Ok None
        end;
  '(mp3, file) ← match rc_mp3 r with
        | Some e =>
            let '(res, e') := encode e frame in
            out ← map_err (fun e => "mp3 encode: " +:+ e) res;
            if bool_decide (out = []) then Ok (Some e', rc_file r)
            else file ← append_bytes path out (rc_file r); Ok (Some e', file)
        | None => Ok (None, rc_file r)
        end;
  Ok (mkRecording (rc_mixer r) (rc_decoders r) wav mp3 file (rc_frames r + 1)).

(** The [while] loop that drains fixed-size frames. *)
Fixpoint drain (fuel : nat) (path : string) (r : Recording) : Result string Recording :=
  match fuel with
  | O => Ok r
  | S fuel' =>
      if (FRAME_SAMPLES <=? available (rc_mixer r))%nat then
        let '(frame, m) := read_frame (iter (mx_tracks (rc_mixer r))) FRAME_SAMPLES (rc_mixer r) in
        r ← write_frame path frame (mkRecording m (rc_decoders r) (rc_wav r) (rc_mp3 r) (rc_file r) (rc_frames r));
        drain fuel' path r
      else Ok r
  end.

(** One packet of the loop of [run_recording]. *)
Definition on_packet (path : string) (p : AudioPacket) (r : Recording) : Result string Recording :=
  let decoder := default decoder_new (rc_decoders r !! pk_track_cid p) in
  let '(res, decoder') := decode decoder (pk_payload p) in
  let decoders := <[pk_track_cid p := decoder']> (rc_decoders r) in
  match res with
  | Err _ => Ok (mkRecording (rc_mixer r) decoders (rc_wav r) (rc_mp3 r) (rc_file r) (rc_frames r))
  | Ok pcm =>
      let m := push (pk_received p) (pk_track_cid p) pcm (rc_mixer r) in
      let '(stale, m) := prune_stale (pk_received p) m in
      let r := mkRecording m (foldr delete decoders stale) (rc_wav r) (rc_mp3 r) (rc_file r) (rc_frames r) in
      drain (available m) path r
  end.

Fixpoint on_packets (path : string) (ps : list AudioPacket) (r : Recording) : Result string Recording :=
  match ps with
  | [] => Ok r
  | p :: ps' => r ← on_packet path p r; on_packets path ps' r
  end.

(** Before the loop. *)
Definition start (path : string) (format : OutputFormat) (mp3_bitrate : Z) (faults : list (option string)) :
    Result string Recording :=
  wav ← (if bool_decide (format = FmtWav) then w ← create path 1 SAMPLE_RATE faults; Ok (Some w) else Ok None);
  mp3 ← (if bool_decide (format = FmtMp3) then e ← encoder_new mp3_bitrate; Ok (Some e) else Ok None);
  Ok (mkRecording Mixer_new ∅ wav mp3 (mkFile [] 0 faults) 0).

(** After the loop: the WAV header, or the encoder's tail. *)
Definition stop (path : string) (r : Recording) : Result string Recording :=
  wav ← match rc_wav r with Some w => w' ← finish w; Ok (Some w') | None => Ok None end;
  file ← match rc_mp3 r with
         | Some e =>
             tail ← map_err (fun e => "mp3 flush: " +:+ e) (encoder_flush e);
             if bool_decide (tail = []) then Ok (rc_file r) else append_bytes path tail (rc_file r)
         | None => Ok (rc_file r)
         end;
  Ok (mkRecording (rc_mixer r) (rc_decoders r) wav (rc_mp3 r) file (rc_frames r)).

(** [run_recording] on the packets received until the stream ends or the recording is
    cancelled: the bytes of the output file and the number of frames. *)
Definition run_recording (path : string) (format : OutputFormat) (mp3_bitrate : Z) (ps : list AudioPacket)
    (faults : list (option string)) : Result string (list Z * Z) :=
  r ← start path format mp3_bitrate faults;
  r ← on_packets path ps r;
  r ← stop path r;
  Ok (match rc_wav r with Some w => f_bytes (wv_writer w) | None => f_bytes (rc_file r) end, rc_frames r).
End Recording.

(** * The mixed frame *)

Section MixLemmas.

Lemma sum_Z_perm {A} (f : A -> Z) l l' : l ≡ₚ l' -> sum_Z f l = sum_Z f l'.
Proof. unfold sum_Z. induction 1; cbn; lia. Qed.

Lemma sample_drop q n i : sample (drop n q) i = sample q (n + i).
Proof. unfold sample. by rewrite lookup_drop. Qed.

Lemma mix_in_spec c frame q :
  mix_in c frame q = (imap (fun i s => clamp i16_min i16_max (s + Z.quot (sample q i) c)) frame, drop (length frame) q).
Proof.
  revert q. induction frame as [|s frame IH]; intros q; [done|]. cbn [mix_in].
  destruct q as [|x q]; cbn [pop_front]; rewrite IH; [by rewrite !drop_nil|done].
Qed.

Lemma imap_seq {A B} (f : nat -> A -> B) (g : nat -> A) n : imap f (g <$> seq 0 n) = (fun i => f i (g i)) <$> seq 0 n.
Proof.
  apply list_eq. intros i. rewrite list_lookup_imap, !list_lookup_fmap. destruct (seq 0 n !! i) as [j|] eqn:E; [|done].
  apply lookup_seq in E as [-> _]. done.
Qed.

(** A share of one track, and the room several shares take. *)
Lemma share_bounds c x : 0 < c -> in_i16 x -> - (32768 ÷ c) <= x ÷ c <= 32767 ÷ c.
Proof.
  intros Hc Hx. unfold in_i16 in Hx. split.
  - rewrite <- Z.quot_opp_l by lia. apply Z.quot_le_mono; lia.
  - apply Z.quot_le_mono; lia.
Qed.

Lemma shares_fit c n : 0 < c -> 0 <= n <= c -> 0 <= n * (32768 ÷ c) <= 32768 /\ 0 <= n * (32767 ÷ c) <= 32767.
Proof.
  intros Hc Hn. assert (forall k, 0 <= k -> 0 <= n * (k ÷ c) <= k) as H; [|split; apply H; lia].
  intros k Hk. pose proof (Z.quot_pos k c Hk Hc). pose proof (Z.mul_quot_le k c Hk ltac:(lia)). nia.
Qed.

Definition sample_in (tracks : gmap string (list Z)) (cid : string) (i : nat) : Z := sample (default [] (tracks !! cid)) i.

Definition samples_ok (tracks : gmap string (list Z)) : Prop := map_Forall (fun _ q => Forall in_i16 q) tracks.

Lemma sample_ok q i : Forall in_i16 q -> in_i16 (sample q i).
Proof.
  intros Hq. unfold sample. destruct (q !! i) as [x|] eqn:E; cbn; [|unfold in_i16; lia].
  by eapply Forall_lookup in Hq.
Qed.

Lemma read_tracks_spec c order tracks (g : nat -> Z) len n :
  0 < c -> 0 <= n -> n + Z.of_nat (length order) <= c -> NoDup order -> (forall cid, cid ∈ order -> is_Some (tracks !! cid)) ->
  samples_ok tracks -> (forall i, - (n * (32768 ÷ c)) <= g i <= n * (32767 ÷ c)) ->
  exists tracks', read_tracks c order (g <$> seq 0 len) tracks =
    ((fun i => g i + sum_Z (fun cid => sample_in tracks cid i ÷ c) order) <$> seq 0 len, tracks') /\
  (forall k, tracks' !! k = if decide (k ∈ order) then drop len <$> tracks !! k else tracks !! k).
Proof.
  revert tracks g n. induction order as [|cid order IH]; intros tracks g n Hc Hn Hlen Hnd Hin Hok Hg; cbn [read_tracks].
  { exists tracks. split.
    - f_equal. apply list_fmap_ext. intros. cbn. lia.
    - intros k. by rewrite decide_False by apply not_elem_of_nil. }
  destruct (Hin cid) as [q Hq]; [left|]. rewrite Hq, mix_in_spec, imap_seq, length_fmap, length_seq.
  apply list.NoDup_cons in Hnd as [Hni Hnd]. cbn [length] in Hlen.
  assert (forall i, in_i16 (sample q i)) as Hs by (intros; apply sample_ok; by eapply Hok).
  set (g' i := clamp i16_min i16_max (g i + sample q i ÷ c)).
  assert (forall i, g' i = g i + sample q i ÷ c /\ - ((n + 1) * (32768 ÷ c)) <= g' i <= (n + 1) * (32767 ÷ c)) as Hg'.
  { intros i. pose proof (share_bounds c _ Hc (Hs i)). specialize (Hg i).
    pose proof (shares_fit c (n + 1) Hc ltac:(lia)) as [? ?]. unfold g'. rewrite clamp_id; unfold i16_min, i16_max; nia. }
  destruct (IH (<[cid := drop len q]> tracks) g' (n + 1)) as (tracks' & E & Ht); try done; try lia.
  - intros k Hk. rewrite lookup_insert_ne by (by intros ->). apply Hin. by right.
  - apply map_Forall_insert_2; [|done]. apply Forall_drop. by eapply Hok.
  - intros i. apply Hg'.
  - exists tracks'. split.
    + rewrite E. f_equal. apply list_fmap_ext. intros i j _. destruct (Hg' j) as [-> _]. cbn [sum_Z foldr].
      unfold sample_in at 2. rewrite Hq. cbn [default]. fold (sum_Z (fun cid0 => sample_in tracks cid0 j ÷ c) order).
      enough (sum_Z (fun cid0 => sample_in (<[cid:=drop len q]> tracks) cid0 j ÷ c) order =
        sum_Z (fun cid0 => sample_in tracks cid0 j ÷ c) order) as -> by (cbn; lia).
      clear -Hni. unfold sum_Z. induction order as [|k order IH]; [done|]. cbn. apply not_elem_of_cons in Hni as [? ?].
      rewrite IH by done. unfold sample_in at 1. by rewrite lookup_insert_ne.
    + intros k. rewrite Ht. destruct (decide (k = cid)) as [->|Hne].
      * rewrite (decide_False (P := cid ∈ order)), (decide_True (P := cid ∈ cid :: order)) by (done || left).
        by rewrite lookup_insert_eq, Hq.
      * rewrite lookup_insert_ne by done. destruct (decide (k ∈ order)).
        -- by rewrite (decide_True (P := k ∈ cid :: order)) by by right.
        -- rewrite (decide_False (P := k ∈ cid :: order)); [done|]. intros [?|?]%elem_of_cons; done.
Qed.
End MixLemmas.

(** What a frame should hold: in every slot the sum of the tracks' samples, each divided by
    the number of tracks, missing samples being silence. *)
Definition mixed (m : Mixer) (len : nat) : list Z :=
  (fun i => sum_Z (fun q => sample q i ÷ track_count m) (queues m)) <$> seq 0 len.

Definition keys (tracks : gmap string (list Z)) : list string := (map_to_list tracks).*1.

Lemma keys_NoDup tracks : NoDup (keys tracks).
Proof. apply NoDup_fst_map_to_list. Qed.
Lemma elem_of_keys tracks k : k ∈ keys tracks <-> is_Some (tracks !! k).
Proof.
  unfold keys. rewrite list_elem_of_fmap. split.
  - intros ([k' q] & -> & H%elem_of_map_to_list). by exists q.
  - intros [q Hq]. exists (k, q). by rewrite elem_of_map_to_list.
Qed.
Lemma keys_length tracks : length (keys tracks) = size tracks.
Proof. unfold keys. by rewrite length_fmap, length_map_to_list. Qed.

Lemma sum_keys tracks i c : sum_Z (fun cid => sample_in tracks cid i ÷ c) (keys tracks) =
  sum_Z (fun q => sample q i ÷ c) (map_to_list tracks).*2.
Proof.
  unfold keys. assert (forall kq, kq ∈ map_to_list tracks -> tracks !! kq.1 = Some kq.2) as H.
  { intros [k q]. by rewrite elem_of_map_to_list. }
  unfold sum_Z. induction (map_to_list tracks) as [|[k q] l IH]; [done|]. cbn.
  rewrite IH by (intros; apply H; by right). f_equal. unfold sample_in.
  pose proof (H (k, q) ltac:(left)) as Hk. cbn in Hk. by rewrite Hk.
Qed.

Lemma track_count_pos m : Z.of_nat (size (mx_tracks m)) < 2 ^ 31 ->
  0 < track_count m /\ Z.of_nat (size (mx_tracks m)) <= track_count m.
Proof. intros H. unfold track_count. rewrite wrap_s_small by lia. lia. Qed.

Lemma queues_length m : length (queues m) = size (mx_tracks m).
Proof. unfold queues. by rewrite length_fmap, length_map_to_list. Qed.

Lemma mixed_ok m len : samples_ok (mx_tracks m) -> Z.of_nat (size (mx_tracks m)) < 2 ^ 31 -> Forall in_i16 (mixed m len).
Proof.
  intros Hok Hsize. apply track_count_pos in Hsize as [Hc Hle]. unfold mixed. apply Forall_fmap, Forall_true. intros i. cbn.
  assert (forall q, q ∈ queues m -> Forall in_i16 q) as Hq.
  { intros q ([k q'] & -> & H%elem_of_map_to_list)%list_elem_of_fmap. by eapply Hok. }
  assert (forall l, (forall q, q ∈ l -> Forall in_i16 q) ->
    - (Z.of_nat (length l) * (32768 ÷ track_count m)) <= sum_Z (fun q => sample q i ÷ track_count m) l
      <= Z.of_nat (length l) * (32767 ÷ track_count m)) as Hb.
  { induction l as [|q l IH]; intros Hl; [cbn; lia|]. specialize (IH ltac:(intros; apply Hl; by right)).
    pose proof (share_bounds _ _ Hc (sample_ok q i (Hl q ltac:(left)))). cbn [length sum_Z foldr] in *.
    change (foldr _ 0 l) with (sum_Z (fun q => sample q i ÷ track_count m) l). lia. }
  specialize (Hb _ Hq). rewrite queues_length in Hb.
  assert (0 <= Z.of_nat (size (mx_tracks m)) <= track_count m) as Hn by (split; [apply Nat2Z.is_nonneg|done]).
  pose proof (shares_fit _ _ Hc Hn). unfold in_i16. lia.
Qed.

Lemma read_frame_eq m order len : samples_ok (mx_tracks m) -> Z.of_nat (size (mx_tracks m)) < 2 ^ 31 ->
  order ≡ₚ keys (mx_tracks m) ->
  read_frame order len m = (mixed m len, mkMixer (drop len <$> mx_tracks m) (mx_last_packet m)).
Proof.
  intros Hok Hsize Hperm. destruct (track_count_pos m Hsize) as [Hc Hle]. unfold read_frame.
  assert (replicate len 0 = (fun _ => 0) <$> seq 0 len) as ->.
  { symmetry. rewrite (const_fmap _ _ 0) by done. by rewrite length_seq. }
  destruct (read_tracks_spec (track_count m) order (mx_tracks m) (fun _ => 0) len 0) as (tracks' & -> & Ht); try done; try lia.
  - rewrite Hperm, keys_length. lia.
  - rewrite Hperm. apply keys_NoDup.
  - intros cid. by rewrite Hperm, elem_of_keys.
  - f_equal.
    + unfold mixed. apply list_fmap_ext. intros i j _. cbn.
      rewrite (sum_Z_perm _ _ _ Hperm), sum_keys. done.
    + f_equal. apply map_eq. intros k. rewrite Ht, lookup_fmap. case_decide as Hk; [done|].
      destruct (mx_tracks m !! k) eqn:E; [|done]. destruct Hk. rewrite Hperm, elem_of_keys. by eexists.
Qed.

(** C26: Mixing never clips and does not depend on the iteration order.  For 16-bit samples,
    whatever order the hash map visits the tracks in, a frame holds in every slot the sum of
    the tracks' samples divided by their number, in the [i16] range without the clamp ever
    acting, and every queue loses exactly the frame's length. *)
Theorem mixer_frame_spec m order len : samples_ok (mx_tracks m) -> Z.of_nat (size (mx_tracks m)) < 2 ^ 31 ->
  order ≡ₚ keys (mx_tracks m) ->
  read_frame order len m = (mixed m len, mkMixer (drop len <$> mx_tracks m) (mx_last_packet m)) /\
  Forall in_i16 (mixed m len).
Proof. intros. split; [by apply read_frame_eq|by apply mixed_ok]. Qed.

Definition demo_mixer : Mixer := push 0 "t2" [50; 100; -300] (push 0 "t1" [100; 200] Mixer_new).
Lemma mixer_frame_spec_witness :
  read_frame ["t2"; "t1"] 2 demo_mixer = (mixed demo_mixer 2, mkMixer (drop 2 <$> mx_tracks demo_mixer) (mx_last_packet demo_mixer)) /\
  Forall in_i16 (mixed demo_mixer 2) /\ mixed demo_mixer 2 = [75; 150].
Proof.
  apply and_assoc. split; [|vm_compute; reflexivity]. apply (mixer_frame_spec demo_mixer ["t2"; "t1"] 2).
  - apply map_Forall_insert_2; [|apply map_Forall_insert_2; [|apply map_Forall_empty]];
      repeat constructor; unfold in_i16; lia.
  - vm_compute. reflexivity.
  - apply (bool_decide_unpack _). vm_compute. exact I.
Defined.

(** * Draining *)

Definition dropped (n : nat) (m : Mixer) : Mixer := mkMixer (drop n <$> mx_tracks m) (mx_last_packet m).
Definition frames_of (k : nat) (m : Mixer) : list (list Z) :=
  (fun j => mixed (dropped (FRAME_SAMPLES * j) m) FRAME_SAMPLES) <$> seq 0 k.

Lemma dropped_0 m : dropped 0 m = m.
Proof.
  destruct m as [t l]. unfold dropped. cbn [mx_tracks mx_last_packet]. f_equal. rewrite <- (map_fmap_id t) at 2.
  by apply map_fmap_ext.
Qed.
Lemma dropped_dropped a b m : dropped a (dropped b m) = dropped (b + a) m.
Proof.
  unfold dropped. cbn [mx_tracks mx_last_packet]. f_equal. rewrite <- map_fmap_compose. apply map_fmap_ext. intros. cbn. apply drop_drop.
Qed.
Lemma queues_dropped n m : queues (dropped n m) = drop n <$> queues m.
Proof. unfold queues, dropped. cbn [mx_tracks]. rewrite map_to_list_fmap, <- !list_fmap_compose. apply list_fmap_ext. by intros ? []. Qed.

Lemma max_list_sub l n : max_list ((fun x => (x - n)%nat) <$> l) = (max_list l - n)%nat.
Proof. induction l as [|x l IH]; cbn; [done|]. rewrite IH. lia. Qed.
Lemma available_dropped n m : available (dropped n m) = (available m - n)%nat.
Proof.
  unfold available. rewrite queues_dropped, <- max_list_sub. f_equal. rewrite <- !list_fmap_compose.
  apply list_fmap_ext. intros. apply length_drop.
Qed.
Lemma available_le m k q : mx_tracks m !! k = Some q -> (length q <= available m)%nat.
Proof.
  intros H. apply max_list_elem_of_le. apply list_elem_of_fmap. exists q. split; [done|].
  apply list_elem_of_fmap. exists (k, q). by rewrite elem_of_map_to_list.
Qed.
Lemma samples_ok_dropped n m : samples_ok (mx_tracks m) -> samples_ok (mx_tracks (dropped n m)).
Proof.
  intros H k q. cbn. rewrite lookup_fmap. intros (q' & Hq & ->)%fmap_Some. apply Forall_drop. by eapply H.
Qed.
Lemma size_dropped n m : size (mx_tracks (dropped n m)) = size (mx_tracks m).
Proof. apply map_size_fmap. Qed.
Lemma frames_of_S k m : frames_of (S k) m = mixed m FRAME_SAMPLES :: frames_of k (dropped FRAME_SAMPLES m).
Proof.
  unfold frames_of. cbn [seq fmap list_fmap]. rewrite Nat.mul_0_r, dropped_0. f_equal.
  rewrite <- (fmap_S_seq 0 k), <- list_fmap_compose. apply list_fmap_ext. intros i j _. unfold compose. rewrite dropped_dropped.
  do 2 f_equal. apply Nat.mul_succ_r || lia.
Qed.

Section RecordingProofs.
Context {Decoder Encoder Payload : Type}.
Context (decoder_new : Decoder) (decode : Decoder -> Payload -> Result string (list Z) * Decoder).
Context (encoder_new : Z -> Result string Encoder) (encode : Encoder -> list Z -> Result string (list Z) * Encoder)
        (encoder_flush : Encoder -> Result string (list Z)).
Context (iter : gmap string (list Z) -> list string).
(** An iterator visits every entry once; decoded samples are 16-bit. *)
Hypothesis iter_perm : forall tracks, iter tracks ≡ₚ keys tracks.
Hypothesis decode_i16 : forall d p pcm d', decode d p = (Ok pcm, d') -> Forall in_i16 pcm.
Notation Recording := (@Recording Decoder Encoder).
Notation drain := (@drain Decoder Encoder encode iter).
Notation on_packet := (on_packet decoder_new decode encode iter).
Notation on_packets := (on_packets decoder_new decode encode iter).
Notation run_recording := (run_recording decoder_new decode encoder_new encode encoder_flush iter).

(** A WAV recording without faults that has written [pcm]. *)
Definition recorded (r : Recording) (pcm : list Z) : Prop :=
  rc_mp3 r = None /\ exists w, rc_wav r = Some w /\ holds w pcm /\ wv_channels w = 1 /\ wv_sample_rate w = SAMPLE_RATE.

Lemma write_frame_recorded path frame r pcm : recorded r pcm -> exists r', write_frame encode path frame r = Ok r' /\
  recorded r' (pcm ++ frame) /\ rc_mixer r' = rc_mixer r /\ rc_decoders r' = rc_decoders r /\ rc_frames r' = rc_frames r + 1.
Proof.
  intros (Hm & w & Hw & Hh & Hc & Hr). unfold write_frame. rewrite Hw, Hm.
  destruct (write_pcm_holds frame w pcm Hh) as (w' & -> & Hh' & Hc' & Hr'). cbn. eexists; split; [done|].
  split; [|done]. split; [done|]. exists w'. by rewrite Hc', Hr'.
Qed.

Lemma drain_frames fuel path r pcm : recorded r pcm -> samples_ok (mx_tracks (rc_mixer r)) ->
  Z.of_nat (size (mx_tracks (rc_mixer r))) < 2 ^ 31 -> (available (rc_mixer r) <= fuel)%nat ->
  let k := (available (rc_mixer r) / FRAME_SAMPLES)%nat in
  exists r', drain fuel path r = Ok r' /\ recorded r' (pcm ++ mjoin (frames_of k (rc_mixer r))) /\
    rc_mixer r' = dropped (FRAME_SAMPLES * k) (rc_mixer r) /\ rc_decoders r' = rc_decoders r /\
    rc_frames r' = rc_frames r + Z.of_nat k.
Proof.
  revert r pcm. induction fuel as [|fuel IH]; intros r pcm Hr Hok Hsize Hfuel k.
  - assert (k = 0%nat) as Hk0 by (unfold k; by apply Nat.div_small; unfold FRAME_SAMPLES; lia). rewrite Hk0.
    exists r. cbn. rewrite app_nil_r, dropped_0. split_and!; try done. lia.
  - cbn [Recorder.drain]. destruct (Nat.leb_spec FRAME_SAMPLES (available (rc_mixer r))) as [Hle|Hlt].
    + rewrite read_frame_eq by auto.
      set (r1 := mkRecording _ _ _ _ _ _). assert (recorded r1 pcm) as Hr1 by done.
      destruct (write_frame_recorded path (mixed (rc_mixer r) FRAME_SAMPLES) r1 pcm Hr1) as (r2 & -> & Hr2 & Em & Ed & Ef).
      cbn [mbind Result_bind]. change (rc_mixer r1) with (dropped FRAME_SAMPLES (rc_mixer r)) in Em.
      destruct (IH r2 _ Hr2) as (r' & -> & H' & Em' & Ed' & Ef').
      * rewrite Em. by apply samples_ok_dropped.
      * by rewrite Em, size_dropped.
      * rewrite Em, available_dropped. unfold FRAME_SAMPLES in *. lia.
      * rewrite Em, available_dropped in H', Em', Ef'.
        assert (k = S ((available (rc_mixer r) - FRAME_SAMPLES) / FRAME_SAMPLES))%nat as Hk.
        { unfold k. replace (available (rc_mixer r)) with ((available (rc_mixer r) - FRAME_SAMPLES) + 1 * FRAME_SAMPLES)%nat at 1 by lia.
          rewrite Nat.div_add by done. lia. }
        rewrite Hk, frames_of_S. exists r'. cbn [mjoin list_join]. rewrite app_assoc.
        split_and!; [done|done| |by rewrite Ed', Ed|rewrite Ef', Ef; cbn [rc_frames r1]; lia].
        rewrite Em', dropped_dropped. f_equal. lia.
    + assert (k = 0%nat) as -> by (unfold k; by apply Nat.div_small).
      exists r. cbn. rewrite app_nil_r, dropped_0. split_and!; try done. lia.
Qed.

Lemma foldr_delete_subseteq {A} (m : gmap string A) l : foldr delete m l ⊆ m.
Proof. induction l as [|x l IH]; cbn; [done|]. etrans; [apply delete_subseteq|done]. Qed.

Lemma samples_ok_subseteq t t' : t' ⊆ t -> samples_ok t -> samples_ok t'.
Proof. intros Hs H k q Hq. eapply H. by eapply lookup_weaken. Qed.

Lemma samples_ok_push now cid pcm m : samples_ok (mx_tracks m) -> Forall in_i16 pcm -> samples_ok (mx_tracks (push now cid pcm m)).
Proof.
  intros H Hp. apply map_Forall_insert_2; [|done]. apply Forall_app. split; [|done].
  destruct (mx_tracks m !! cid) eqn:E; cbn; [by eapply H|constructor].
Qed.

Lemma size_push now cid pcm m : (size (mx_tracks (push now cid pcm m)) <= S (size (mx_tracks m)))%nat.
Proof. cbn [push mx_tracks]. rewrite map_size_insert. destruct (mx_tracks m !! cid); cbn; lia. Qed.

Lemma mjoin_length_const {A} (l : list (list A)) n : Forall (fun x => length x = n) l -> length (mjoin l) = (n * length l)%nat.
Proof.
  induction 1 as [|x l Hx _ IH]; [cbn; lia|]. change (mjoin (x :: l)) with (x ++ mjoin l).
  rewrite length_app, Hx, IH. cbn [length]. lia.
Qed.

Lemma frames_of_spec k m : samples_ok (mx_tracks m) -> Z.of_nat (size (mx_tracks m)) < 2 ^ 31 ->
  Forall in_i16 (mjoin (frames_of k m)) /\ length (mjoin (frames_of k m)) = (FRAME_SAMPLES * k)%nat.
Proof.
  intros Hok Hsize. split.
  - unfold frames_of. induction (seq 0 k) as [|j l IH]; cbn [fmap list_fmap mjoin list_join]; [constructor|].
    apply Forall_app. split; [|done]. apply mixed_ok; [by apply samples_ok_dropped|by rewrite size_dropped].
  - assert (Forall (fun x => length x = FRAME_SAMPLES) (frames_of k m)) as HF.
    { apply Forall_fmap, Forall_true. intros j. unfold compose, mixed. by rewrite length_fmap, length_seq. }
    rewrite (mjoin_length_const _ _ HF). unfold frames_of. by rewrite length_fmap, length_seq.
Qed.

Record rec_inv (n : nat) (r : Recording) : Prop := {
  inv_pcm : exists pcm, recorded r pcm /\ Forall in_i16 pcm /\ Z.of_nat (length pcm) = Z.of_nat FRAME_SAMPLES * rc_frames r;
  inv_samples : samples_ok (mx_tracks (rc_mixer r));
  inv_size : (size (mx_tracks (rc_mixer r)) <= n)%nat;
  inv_drained : (available (rc_mixer r) < FRAME_SAMPLES)%nat;
}.

Lemma available_mod m : (available (dropped (FRAME_SAMPLES * (available m / FRAME_SAMPLES)) m) < FRAME_SAMPLES)%nat.
Proof.
  rewrite available_dropped. pose proof (Nat.div_mod (available m) FRAME_SAMPLES ltac:(done)).
  pose proof (Nat.mod_upper_bound (available m) FRAME_SAMPLES ltac:(done)). lia.
Qed.

Lemma on_packet_inv path p n r : rec_inv n r -> Z.of_nat (S n) < 2 ^ 31 ->
  exists r', on_packet path p r = Ok r' /\ rec_inv (S n) r'.
Proof.
  intros [(pcm & Hr & Hpcm & Hlen) Hs Hsz Hd] Hn. unfold Recorder.on_packet.
  destruct (decode _ _) as [[pcm'|e] d'] eqn:Edec; [|eexists; split; [done|]; split; [by exists pcm|done|cbn; lia|done]].
  apply decode_i16 in Edec.
  set (m1 := push _ _ _ _). assert (samples_ok (mx_tracks m1)) as Hs1 by by apply samples_ok_push.
  assert (size (mx_tracks m1) <= S n)%nat as Hsz1.
  { unfold m1. pose proof (size_push (pk_received p) (pk_track_cid p) pcm' (rc_mixer r)). lia. }
  unfold prune_stale. cbv zeta. set (stale := (map_to_list _).*1). set (m2 := mkMixer _ _).
  assert (mx_tracks m2 ⊆ mx_tracks m1) as Hsub by apply foldr_delete_subseteq.
  assert (samples_ok (mx_tracks m2)) as Hs2 by by eapply samples_ok_subseteq.
  assert (size (mx_tracks m2) <= S n)%nat as Hsz2 by (pose proof (map_subseteq_size _ _ Hsub); lia).
  set (r1 := mkRecording _ _ _ _ _ _).
  destruct (drain_frames (available m2) path r1 pcm) as (r' & -> & Hr' & Em & Ed & Ef); try done;
    [change (rc_mixer r1) with m2; lia|].
  cbn [rc_mixer r1] in *. destruct (frames_of_spec (available m2 / FRAME_SAMPLES) m2) as [F1 F2]; [done|lia|].
  exists r'. split; [done|]. split.
  - eexists. split; [exact Hr'|]. split; [by apply Forall_app|]. rewrite length_app, F2, Ef. cbn [rc_frames r1]. lia.
  - rewrite Em. by apply samples_ok_dropped.
  - by rewrite Em, size_dropped.
  - rewrite Em. apply available_mod.
Qed.

Lemma on_packets_inv path ps n r : rec_inv n r -> Z.of_nat (n + length ps) < 2 ^ 31 ->
  exists r', on_packets path ps r = Ok r' /\ rec_inv (n + length ps) r'.
Proof.
  revert n r. induction ps as [|p ps IH]; intros n r Hr Hn; cbn [Recorder.on_packets length] in *.
  - exists r. by rewrite Nat.add_0_r.
  - destruct (on_packet_inv path p n r Hr) as (r1 & -> & Hr1); [lia|]. cbn [mbind Result_bind].
    rewrite Nat.add_succ_r, <- Nat.add_succ_l in *. by apply IH.
Qed.

Lemma start_recorded path b : exists r : Recording, start encoder_new path FmtWav b [] = Ok r /\ recorded r [] /\
  rc_mixer r = Mixer_new /\ rc_decoders r = ∅ /\ rc_frames r = 0.
Proof. eexists. split; [reflexivity|]. split; [|done]. split; [done|]. by eexists. Qed.

Lemma recorded_inv r : recorded r [] -> rc_mixer r = Mixer_new -> rc_frames r = 0 -> rec_inv 0 r.
Proof.
  intros Hr Em Ef. split; rewrite ?Em.
  - exists []. rewrite Ef. by split_and!.
  - apply map_Forall_empty.
  - cbn. by rewrite map_size_empty.
  - cbn. unfold available, queues. cbn. rewrite map_to_list_empty. cbn. unfold FRAME_SAMPLES. lia.
Qed.

(** The finished file of a recording in state [recorded]. *)
Lemma stop_recorded path r pcm : recorded r pcm -> Forall in_i16 pcm -> Z.of_nat (2 * length pcm) < 2 ^ 32 - 36 ->
  exists r' w, stop encoder_flush path r = Ok r' /\ rc_wav r' = Some w /\ rc_frames r' = rc_frames r /\
    read_wav (f_bytes (wv_writer w)) = Some (mkWave 1 SAMPLE_RATE pcm).
Proof.
  intros (Hm & w & Hw & Hh & Hc & Hr) Hok Hlen. unfold stop. rewrite Hw, Hm.
  destruct (finish_holds w pcm Hh) as (w' & -> & Hb). cbn [mbind Result_bind]. eexists _, w'. split; [done|]. split_and!; try done.
  rewrite Hb. destruct Hh as (_ & _ & _ & Hd). rewrite pcm_length in Hd.
  by apply read_wav_header.
Qed.

(** Recordings are complete and bounded.  Whatever packets arrive (for any tracks, decodable
    or not), a WAV recording without I/O faults runs to its end: after the last packet every
    track has less than one frame queued, the file is one a WAV reader accepts, mono at
    48 kHz, with exactly 960 samples for each frame counted. *)
Theorem recording_complete path b ps : Z.of_nat (length ps) < 2 ^ 31 ->
  exists r0 r, start encoder_new path FmtWav b [] = Ok r0 /\ on_packets path ps r0 = Ok r /\
    map_Forall (fun _ q => (length q < FRAME_SAMPLES)%nat) (mx_tracks (rc_mixer r)) /\
    (1920 * rc_frames r < 2 ^ 32 - 36 -> exists bytes samples,
      run_recording path FmtWav b ps [] = Ok (bytes, rc_frames r) /\
      read_wav bytes = Some (mkWave 1 SAMPLE_RATE samples) /\ Z.of_nat (length samples) = 960 * rc_frames r).
Proof.
  intros Hlen. destruct (start_recorded path b) as (r0 & E0 & Hr0 & Em & Ed & Ef).
  destruct (on_packets_inv path ps 0 r0) as (r & E & [(pcm & Hr & Hpcm & Hl) _ _ Hd]); [by apply recorded_inv|done|].
  exists r0, r. split_and!; [done|done| |].
  - intros k q Hq. pose proof (available_le _ _ _ Hq). lia.
  - intros Hsize. change (Z.of_nat FRAME_SAMPLES) with 960 in Hl.
    destruct (stop_recorded path r pcm Hr Hpcm) as (r' & w & Es & Ew & Ef' & Hread); [lia|].
    exists (f_bytes (wv_writer w)), pcm. unfold Recorder.run_recording. rewrite E0. cbn [mbind Result_bind].
    rewrite E. cbn [mbind Result_bind]. rewrite Es. cbn [mbind Result_bind]. by rewrite Ew, Ef'.
Qed.

(** The samples one decoder produces from a sequence of packets. *)
Fixpoint decode_all (d : Decoder) (ps : list (@AudioPacket Payload)) : list Z :=
  match ps with
  | [] => []
  | p :: ps' => let '(res, d') := decode d (pk_payload p) in
                match res with Ok pcm => pcm ++ decode_all d' ps' | Err _ => decode_all d' ps' end
  end.

(** One track only: its queue continues what was written. *)
Definition solo (cid : string) (r : Recording) (pcm q : list Z) : Prop :=
  recorded r pcm /\ Forall in_i16 (pcm ++ q) /\ Z.of_nat (length pcm) = Z.of_nat FRAME_SAMPLES * rc_frames r /\
  (length q < FRAME_SAMPLES)%nat /\
  ((mx_tracks (rc_mixer r) = ∅ /\ mx_last_packet (rc_mixer r) = ∅ /\ q = []) \/
   exists t, rc_mixer r = mkMixer {[cid := q]} {[cid := t]}).

Lemma solo_push now cid r pcm q x : solo cid r pcm q ->
  push now cid x (rc_mixer r) = mkMixer {[cid := q ++ x]} {[cid := now]}.
Proof.
  intros (_ & _ & _ & _ & [(E1 & E2 & ->)|(t & ->)]); unfold push.
  - by rewrite E1, E2, lookup_empty.
  - cbn. by rewrite lookup_singleton_eq, !insert_singleton_eq.
Qed.

Lemma solo_prune now cid q : prune_stale now (mkMixer {[cid := q]} {[cid := now]}) = ([], mkMixer {[cid := q]} {[cid := now]}).
Proof.
  unfold prune_stale. cbn [mx_last_packet]. rewrite map_filter_singleton_False; [by rewrite map_to_list_empty|].
  cbn. unfold is_stale, SILENT_TRACK_TIMEOUT. lia.
Qed.

Lemma mixed_solo cid q t len : (len <= length q)%nat -> mixed (mkMixer {[cid := q]} {[cid := t]}) len = take len q.
Proof.
  intros Hl. unfold mixed, queues, track_count. cbn [mx_tracks]. rewrite map_to_list_singleton, map_size_singleton.
  apply list_eq. intros i. rewrite list_lookup_fmap. destruct (decide (i < len)%nat) as [Hi|Hi].
  - rewrite lookup_seq_lt, lookup_take_lt by done. cbn. destruct (lookup_lt_is_Some_2 q i) as [x Hx]; [lia|].
    unfold sample. rewrite Hx. cbn. f_equal. change (wrap_s 32 _) with 1. rewrite Z.quot_1_r. lia.
  - rewrite lookup_seq_ge, lookup_take_ge by lia. done.
Qed.

Lemma dropped_solo cid q t n : dropped n (mkMixer {[cid := q]} {[cid := t]}) = mkMixer {[cid := drop n q]} {[cid := t]}.
Proof. unfold dropped. cbn. by rewrite map_fmap_singleton. Qed.

Lemma available_solo cid q t : available (mkMixer {[cid := q]} {[cid := t]}) = length q.
Proof. unfold available, queues. cbn [mx_tracks]. rewrite map_to_list_singleton. cbn. lia. Qed.

Lemma frames_solo cid q t k : (FRAME_SAMPLES * k <= length q)%nat ->
  mjoin (frames_of k (mkMixer {[cid := q]} {[cid := t]})) = take (FRAME_SAMPLES * k) q.
Proof.
  revert q. induction k as [|k IH]; intros q Hk; [by rewrite Nat.mul_0_r|].
  rewrite frames_of_S, dropped_solo, mixed_solo by lia.
  change (mjoin (?x :: ?l)) with (x ++ mjoin l). rewrite IH by (rewrite length_drop; lia).
  rewrite take_take_drop. f_equal. lia.
Qed.

Lemma solo_packet path cid r pcm q p : solo cid r pcm q -> pk_track_cid p = cid ->
  let '(res, d') := decode (default decoder_new (rc_decoders r !! cid)) (pk_payload p) in
  exists r' pcm' q', on_packet path p r = Ok r' /\ solo cid r' pcm' q' /\
    pcm' ++ q' = pcm ++ q ++ match res with Ok x => x | Err _ => [] end /\
    default decoder_new (rc_decoders r' !! cid) = d'.
Proof.
  intros Hsolo Hcid. pose proof Hsolo as (Hr & Hok & Hl & Hq & Hm). unfold Recorder.on_packet. rewrite Hcid.
  destruct (decode _ _) as [[x|e] d'] eqn:Edec.
  - apply decode_i16 in Edec. rewrite (solo_push _ cid r pcm q x Hsolo), solo_prune. cbv zeta iota beta.
    set (m := mkMixer _ _). set (r1 := mkRecording _ _ _ _ _ _).
    apply Forall_app in Hok as [Hok1 Hok2].
    assert (samples_ok (mx_tracks m)) as Hs.
    { apply map_Forall_singleton, Forall_app. done. }
    destruct (drain_frames (available m) path r1 pcm) as (r' & -> & Hr' & Em & Ed & Ef); try done;
      [change (rc_mixer r1) with m; unfold m; cbn [mx_tracks]; by rewrite map_size_singleton|].
    change (rc_mixer r1) with m in Hr', Em, Ef. assert (available m = length (q ++ x)) as Ea by apply available_solo.
    rewrite Ea in Hr', Em, Ef. unfold m in Hr', Em. rewrite dropped_solo in Em.
    set (k := (length (q ++ x) / FRAME_SAMPLES)%nat) in *.
    assert (FRAME_SAMPLES * k <= length (q ++ x))%nat as Hk by (apply Nat.Div0.mul_div_le).
    rewrite frames_solo in Hr' by done.
    exists r', (pcm ++ take (FRAME_SAMPLES * k) (q ++ x)), (drop (FRAME_SAMPLES * k) (q ++ x)). split; [done|]. split; [|split].
    + split; [done|]. rewrite <- app_assoc, take_drop. split; [by apply Forall_app; split; [|apply Forall_app]|].
      rewrite length_app, length_take_le, Ef by done. cbn [rc_frames r1]. split; [lia|]. split; [|right; by eexists].
      rewrite length_drop. pose proof (Nat.div_mod (length (q ++ x)) FRAME_SAMPLES ltac:(done)).
      pose proof (Nat.mod_upper_bound (length (q ++ x)) FRAME_SAMPLES ltac:(done)). unfold k. lia.
    + by rewrite <- app_assoc, take_drop.
    + rewrite Ed. cbn [rc_decoders r1 foldr]. by rewrite lookup_insert_eq.
  - eexists _, pcm, q. split; [done|]. split; [done|]. split; [by rewrite app_nil_r|]. cbn. by rewrite lookup_insert_eq.
Qed.

Lemma solo_packets path cid ps r pcm q : solo cid r pcm q -> Forall (fun p => pk_track_cid p = cid) ps ->
  exists r' pcm' q', on_packets path ps r = Ok r' /\ solo cid r' pcm' q' /\
    pcm' ++ q' = pcm ++ q ++ decode_all (default decoder_new (rc_decoders r !! cid)) ps.
Proof.
  revert r pcm q. induction ps as [|p ps IH]; intros r pcm q Hs Hps; cbn [Recorder.on_packets decode_all].
  - exists r, pcm, q. by rewrite app_nil_r.
  - apply list.Forall_cons in Hps as [Hp Hps]. pose proof (solo_packet path cid r pcm q p Hs Hp) as H.
    destruct (decode _ _) as [res d'] eqn:Edec. destruct H as (r1 & pcm1 & q1 & -> & Hs1 & E1 & Ed). cbn [mbind Result_bind].
    destruct (IH r1 pcm1 q1 Hs1 Hps) as (r2 & pcm2 & q2 & E & Hs2 & E2). exists r2, pcm2, q2. split; [done|]. split; [done|].
    rewrite E2, Ed, app_assoc, E1, <- !app_assoc. by destruct res.
Qed.

(** One speaker is recorded verbatim.  When all packets belong to one track, the finished
    WAV file holds exactly the decoded samples, in order and unaltered, up to the last whole
    20 ms frame; the samples after it are lost. *)
Theorem solo_recording_verbatim path b cid ps : Forall (fun p => pk_track_cid p = cid) ps ->
  let total := decode_all decoder_new ps in
  let k := (length total / FRAME_SAMPLES)%nat in
  1920 * Z.of_nat k < 2 ^ 32 - 36 ->
  exists bytes, run_recording path FmtWav b ps [] = Ok (bytes, Z.of_nat k) /\
    read_wav bytes = Some (mkWave 1 SAMPLE_RATE (take (FRAME_SAMPLES * k) total)).
Proof.
  intros Hps total k Hsize. destruct (start_recorded path b) as (r0 & E0 & Hr0 & Em & Ed & Ef).
  assert (solo cid r0 [] []) as H0.
  { split; [done|]. split; [constructor|]. rewrite Ef. split; [done|]. split; [unfold FRAME_SAMPLES; cbn; lia|left]. by rewrite Em. }
  destruct (solo_packets path cid ps r0 [] [] H0 Hps) as (r & pcm & q & E & (Hr & Hok & Hl & Hq & _) & Et).
  rewrite Ed, lookup_empty in Et. cbn [app default] in Et. fold total in Et.
  assert (rc_frames r = Z.of_nat k /\ length pcm = (FRAME_SAMPLES * k)%nat) as [Ek Elen].
  { assert (length total = length pcm + length q)%nat as El by (rewrite <- Et; apply length_app).
    assert (length pcm = FRAME_SAMPLES * Z.to_nat (rc_frames r))%nat as E1 by (unfold FRAME_SAMPLES in *; lia).
    assert (k = Z.to_nat (rc_frames r)) as ->; [|unfold FRAME_SAMPLES in *; lia].
    unfold k. rewrite El, E1. rewrite Nat.mul_comm, Nat.div_add_l, Nat.div_small by done. lia. }
  apply Forall_app in Hok as [Hok _].
  destruct (stop_recorded path r pcm Hr Hok) as (r' & w & Es & Ew & Ef' & Hread); [unfold FRAME_SAMPLES in *; lia|].
  exists (f_bytes (wv_writer w)). unfold Recorder.run_recording. rewrite E0. cbn [mbind Result_bind].
  rewrite E. cbn [mbind Result_bind]. rewrite Es. cbn [mbind Result_bind]. rewrite Ew, Ef', Ek. split; [done|].
  rewrite Hread, <- Et, <- Elen. by rewrite take_app_length.
Qed.
End RecordingProofs.

(** * Witnesses *)

(** A codec that passes samples through, cut to 16 bits. *)
Definition pass (d : unit) (p : list Z) : Result string (list Z) * unit := (Ok (wrap_s 16 <$> p), ()).
Definition no_encoder (b : Z) : Result string unit := Err "no encoder".
Definition no_encode (e : unit) (frame : list Z) : Result string (list Z) * unit := (Ok [], ()).
Definition no_tail (e : unit) : Result string (list Z) := Ok [].

Lemma pass_i16 d p pcm d' : pass d p = (Ok pcm, d') -> Forall in_i16 pcm.
Proof.
  intros [= <- _]. apply Forall_fmap, Forall_true. intros x. unfold compose, in_i16, wrap_s.
  change (2 ^ 16) with 65536. change (2 ^ (16 - 1)) with 32768. pose proof (Z.mod_pos_bound (x + 32768) 65536). lia.
Qed.

Definition two_speakers : list (@AudioPacket (list Z)) :=
  [mkPacket "t1" (repeat 100 1000) 0; mkPacket "t2" (repeat (-50) 960) 10; mkPacket "t1" (repeat 7 20) 20].

Lemma recording_complete_witness : exists r0 r : @Recording unit unit,
  start no_encoder "/out/EG_1.wav" FmtWav 64 [] = Ok r0 /\
  on_packets () pass no_encode keys "/out/EG_1.wav" two_speakers r0 = Ok r /\
  map_Forall (fun _ q => (length q < FRAME_SAMPLES)%nat) (mx_tracks (rc_mixer r)) /\
  (1920 * rc_frames r < 2 ^ 32 - 36 -> exists bytes samples,
     run_recording () pass no_encoder no_encode no_tail keys "/out/EG_1.wav" FmtWav 64 two_speakers [] = Ok (bytes, rc_frames r) /\
     read_wav bytes = Some (mkWave 1 SAMPLE_RATE samples) /\ Z.of_nat (length samples) = 960 * rc_frames r).
Proof.
  apply (recording_complete () pass no_encoder no_encode no_tail keys (fun _ => reflexivity _) pass_i16
    "/out/EG_1.wav" 64 two_speakers).
  vm_compute. reflexivity.
Defined.

Lemma solo_recording_verbatim_witness : exists bytes,
  run_recording () pass no_encoder no_encode no_tail keys "/out/EG_1.wav" FmtWav 64
    [mkPacket "t1" (repeat 100 500) 0; mkPacket "t1" (repeat (-3) 500) 20] [] = Ok (bytes, 1) /\
  read_wav bytes = Some (mkWave 1 SAMPLE_RATE (repeat 100 500 ++ repeat (-3) 460)).
Proof.
  apply (solo_recording_verbatim () pass no_encoder no_encode no_tail keys (fun _ => reflexivity _) pass_i16
    "/out/EG_1.wav" 64 "t1" [mkPacket "t1" (repeat 100 500) 0; mkPacket "t1" (repeat (-3) 500) 20]).
  - repeat constructor.
  - vm_compute. reflexivity.
Defined.

(** * Mixing whole frames *)

Lemma mix_slot_sum frames i acc : Forall (Forall in_i16) frames ->
  Z.abs acc + 32768 * Z.of_nat (length frames) < 2 ^ 31 ->
  foldl (fun sum f => wrap_s 32 (sum + sample f i)) acc frames = acc + sum_Z (fun f => sample f i) frames /\
  - (32768 * Z.of_nat (length frames)) <= sum_Z (fun f => sample f i) frames <= 32767 * Z.of_nat (length frames).
Proof.
  intros Hf. revert acc. induction Hf as [|f frames Hx _ IH]; intros acc Hb; cbn [foldl sum_Z foldr length] in *; [lia|].
  pose proof (sample_ok f i Hx) as Hs. unfold in_i16 in Hs. rewrite wrap_s_small by lia.
  destruct (IH (acc + sample f i)) as [-> ?]; [lia|]. fold (sum_Z (fun f => sample f i) frames). lia.
Qed.

(** [mix_frames] averages: with fewer than 2^16 frames the 32-bit sum never wraps, the clamp
    never acts, and slot [i] is the truncated mean of the [i]-th samples. *)
Lemma mix_frames_average frames : frames <> [] -> Forall (Forall in_i16) frames -> Z.of_nat (length frames) < 2 ^ 16 ->
  mix_frames frames = (fun i => Z.quot (sum_Z (fun f => sample f i) frames) (Z.of_nat (length frames))) <$>
    seq 0 (max_list (length <$> frames)).
Proof.
  intros Hne Hf Hlen. assert (0 < Z.of_nat (length frames)) as Hpos by (destruct frames; [done|cbn; lia]).
  unfold mix_frames. destruct frames as [|f0 fs]; [done|]. set (frames := f0 :: fs) in *.
  rewrite Z.max_l, wrap_s_small by lia.
  assert (forall n, (mix_slot frames (Z.of_nat (length frames)) <$> seq 0 n) =
    ((fun i => Z.quot (sum_Z (fun f => sample f i) frames) (Z.of_nat (length frames))) <$> seq 0 n)) as H.
  { intros n. apply list_fmap_ext. intros ? i _. unfold mix_slot.
    destruct (mix_slot_sum frames i 0 Hf) as [-> Hb]; [cbn [Z.abs]; lia|]. rewrite Z.add_0_l. apply clamp_id.
    set (c := Z.of_nat (length frames)) in *. set (t := sum_Z _ _) in *.
    assert (- (32768 * c) ÷ c <= t ÷ c <= (32767 * c) ÷ c) as Hq by (split; apply Z.quot_le_mono; lia).
    rewrite Z.quot_opp_l, !Z.quot_mul in Hq by lia. unfold i16_min, i16_max. lia. }
  rewrite H. by destruct (Nat.eqb_spec (max_list (length <$> frames)) 0) as [->|].
Qed.
