(* ===== verification/EgressProto.v ===== *)
(** The recording requests and reports ([protos/livekit_egress.proto],
    [protos/rpc/egress.proto]).  Fields that the recorder only copies are gathered in one
    [_rest] field of a message; enums are their wire numbers. *)
From Stdlib Require Import ZArith Ascii String.
From stdpp Require Import base gmap strings list option.
From S2P Require Import Prelude RustStr SipProto.

Open Scope string_scope.
Open Scope list_scope.
Open Scope Z_scope.

Record ProxyConfig := mkProxy { px_url : string; px_username : string; px_password : string }.

Record S3Upload := mkS3 {
  s3_access_key : string; s3_secret : string; s3_session_token : string;
  s3_assume_role_arn : string; s3_assume_role_external_id : string;
  s3_region : string; s3_endpoint : string; s3_bucket : string; s3_force_path_style : bool;
  s3_metadata : StrMap; s3_tagging : string; s3_content_disposition : string; s3_proxy : option ProxyConfig;
}.
Record GcpUpload := mkGcp { gc_credentials : string; gc_bucket : string; gc_proxy : option ProxyConfig }.
Record AzureBlobUpload := mkAzure { az_account_name : string; az_account_key : string; az_container_name : string }.
Record AliOssUpload := mkAli {
  al_access_key : string; al_secret : string; al_region : string; al_endpoint : string; al_bucket : string;
}.

(** The oneof with the same four alternatives in [StorageConfig], [EncodedFileOutput],
    [DirectFileOutput], [SegmentedFileOutput] and [ImageOutput]. *)
Inductive Upload := UpS3 (u : S3Upload) | UpGcp (u : GcpUpload) | UpAzure (u : AzureBlobUpload) | UpAliOss (u : AliOssUpload).

Record StorageConfig := mkStorage { st_provider : option Upload }.

Record EncodedFileOutput := mkEncodedFile { ef_file_type : Z; ef_filepath : string; ef_rest : string; ef_output : option Upload }.
Record DirectFileOutput := mkDirectFile { df_filepath : string; df_rest : string; df_output : option Upload }.
Record SegmentedFileOutput := mkSegments { sf_rest : string; sf_output : option Upload }.
Record ImageOutput := mkImages { im_rest : string; im_output : option Upload }.
Record StreamOutput := mkStream { sm_protocol : Z; sm_urls : list string }.
Record FileOutput := mkFileOutput { fo_file_type : Z; fo_filepath : string; fo_rest : string }.

(** [EncodedFileType::Mp3]. *)
Definition MP3 : Z := 3.

Inductive OutputConfig := CfgFile (f : FileOutput) | CfgStream (s : StreamOutput)
  | CfgSegments (s : SegmentedFileOutput) | CfgImages (i : ImageOutput).
Record Output := mkOutput { ou_config : option OutputConfig; ou_storage : option StorageConfig }.

(** The deprecated [output] oneof of room-composite, web and track-composite requests. *)
Inductive V1Output := V1File (f : EncodedFileOutput) | V1Stream (s : StreamOutput) | V1Segments (s : SegmentedFileOutput).
Inductive V1Options := Preset (p : Z) | Advanced (audio_bitrate : Z) (rest : string).

(** The repeated outputs the V1 requests share. *)
Record V1Outputs := mkOutputs {
  vo_file_outputs : list EncodedFileOutput; vo_stream_outputs : list StreamOutput;
  vo_segment_outputs : list SegmentedFileOutput; vo_image_outputs : list ImageOutput;
}.

Record RoomCompositeEgressRequest := mkRoomComposite {
  rc_room_name : string; rc_rest : string; rc_output : option V1Output; rc_options : option V1Options; rc_outputs : V1Outputs;
}.
Record WebEgressRequest := mkWeb {
  we_url : string; we_rest : string; we_output : option V1Output; we_options : option V1Options; we_outputs : V1Outputs;
}.
Record ParticipantEgressRequest := mkParticipantEgress {
  pe_room_name : string; pe_identity : string; pe_rest : string; pe_options : option V1Options; pe_outputs : V1Outputs;
}.
Record TrackCompositeEgressRequest := mkTrackComposite {
  tc_room_name : string; tc_rest : string; tc_output : option V1Output; tc_options : option V1Options; tc_outputs : V1Outputs;
}.
Inductive TrackOutput := TrackFile (f : DirectFileOutput) | WebsocketUrl (url : string).
Record TrackEgressRequest := mkTrackEgress {
  te_room_name : string; te_track_id : string; te_rest : string; te_output : option TrackOutput;
}.
(** [livekit.StartEgressRequest], the unified request. *)
Record UnifiedEgressRequest := mkUnified {
  ue_room_name : string; ue_rest : string; ue_outputs : list Output; ue_storage : option StorageConfig;
}.

(** The request oneof of [rpc.StartEgressRequest] and of [EgressInfo]. *)
Inductive EgressRequest :=
| ReqEgress (r : UnifiedEgressRequest) | ReqReplay (rest : string)
| ReqRoomComposite (r : RoomCompositeEgressRequest) | ReqWeb (r : WebEgressRequest)
| ReqParticipant (r : ParticipantEgressRequest) | ReqTrackComposite (r : TrackCompositeEgressRequest)
| ReqTrack (r : TrackEgressRequest).

(** [rpc.StartEgressRequest]. *)
Record StartEgressRequest := mkStart { sq_egress_id : string; sq_room_id : string; sq_request : option EgressRequest }.

Record FileInfo := mkFileInfo {
  fi_filename : string; fi_started_at : Z; fi_ended_at : Z; fi_duration : Z; fi_size : Z; fi_location : string;
}.

(** [EgressStatus] and [EgressSourceType]. *)
Definition EGRESS_STARTING : Z := 0.
Definition EGRESS_ACTIVE : Z := 1.
Definition EGRESS_COMPLETE : Z := 3.
Definition EGRESS_FAILED : Z := 4.
Definition SOURCE_SDK : Z := 1.

(** The report of a recording, with the fields the recorder sets. *)
Record Report := mkReport {
  rp_egress_id : string; rp_room_id : string; rp_room_name : string; rp_status : Z;
  rp_started_at : Z; rp_ended_at : Z; rp_updated_at : Z; rp_error : string;
  rp_request : option EgressRequest; rp_result : option FileInfo; rp_file_results : list FileInfo; rp_source_type : Z;
}.
