(* ===== verification/Redact.v ===== *)
(** Redaction of secrets in the request that reports echo ([crates/lk-egress/src/redact.rs]).
    [None] is a panic of the code. *)
From Stdlib Require Import ZArith Lia Ascii String.
From stdpp Require Import base gmap strings list option.
From S2P Require Import Prelude RustStr EgressProto.

Open Scope string_scope.
Open Scope list_scope.
Open Scope Z_scope.

Definition redact (s placeholder : string) : string := if (s =? "")%string then "" else placeholder.

(** * Stream keys *)

(** The first of [i = 3, 2, 1] with [id.len() >= 3 * i]. *)
Definition shown (id : string) : Z :=
  if 9 <=? str_len id then 3 else if 6 <=? str_len id then 2 else if 3 <=? str_len id then 1 else 0.

Definition redact_identifier (id : string) : option string :=
  let i := shown id in
  if i =? 0 then Some "{...}"
  else
    prefix ← slice_to i id;
    suffix ← slice_from (str_len id - i) id;
    Some ("{" +:+ prefix +:+ "..." +:+ suffix +:+ "}").

Definition redact_stream_key (url : string) : option (string * bool) :=
  match (match strip_prefix "rtmp://" url with Some r => Some r | None => strip_prefix "rtmps://" url end) with
  | None => Some (url, false)
  | Some rest =>
      match split_on "/" rest with
      | host :: app :: key :: parts =>
          redacted ← redact_identifier key;
          let out := "rtmp://" +:+ host +:+ "/" +:+ app +:+ "/" +:+ redacted in
          Some (match parts with tail :: _ => out +:+ "/" +:+ tail | [] => out end, true)
      | _ => Some (url, false)
      end
  end.

Example redact_youtube : redact_stream_key "rtmp://a.rtmp.youtube.com/live2/abc123def456" =
  Some ("rtmp://a.rtmp.youtube.com/live2/{abc...456}", true).
Proof. reflexivity. Qed.

(** * Upload credentials *)

Definition redact_s3 (s3 : S3Upload) : S3Upload :=
  mkS3 (redact (s3_access_key s3) "{access_key}") (redact (s3_secret s3) "{secret}")
    (redact (s3_session_token s3) "{session_token}") (s3_assume_role_arn s3)
    (redact (s3_assume_role_external_id s3) "{external_id}")
    (s3_region s3) (s3_endpoint s3) (s3_bucket s3) (s3_force_path_style s3)
    (s3_metadata s3) (s3_tagging s3) (s3_content_disposition s3) (s3_proxy s3).
Definition redact_gcp (g : GcpUpload) : GcpUpload :=
  mkGcp (redact (gc_credentials g) "{credentials}") (gc_bucket g) (gc_proxy g).
Definition redact_azure (a : AzureBlobUpload) : AzureBlobUpload :=
  mkAzure (redact (az_account_name a) "{account_name}") (redact (az_account_key a) "{account_key}") (az_container_name a).
Definition redact_alioss (a : AliOssUpload) : AliOssUpload :=
  mkAli (redact (al_access_key a) "{access_key}") (redact (al_secret a) "{secret}") (al_region a) (al_endpoint a) (al_bucket a).

Definition redact_upload (u : Upload) : Upload :=
  match u with
  | UpS3 s3 => UpS3 (redact_s3 s3)
  | UpGcp g => UpGcp (redact_gcp g)
  | UpAzure a => UpAzure (redact_azure a)
  | UpAliOss a => UpAliOss (redact_alioss a)
  end.

Definition redact_storage (s : option StorageConfig) : option StorageConfig :=
  (fun s => mkStorage (redact_upload <$> st_provider s)) <$> s.

(** * Outputs *)

Definition redact_stream (s : StreamOutput) : option StreamOutput :=
  urls ← mapM (fun url => '(redacted, _) ← redact_stream_key url; Some redacted) (sm_urls s);
  Some (mkStream (sm_protocol s) urls).

Definition redact_encoded_output (f : EncodedFileOutput) : EncodedFileOutput :=
  mkEncodedFile (ef_file_type f) (ef_filepath f) (ef_rest f) (redact_upload <$> ef_output f).
Definition redact_direct_output (f : DirectFileOutput) : DirectFileOutput :=
  mkDirectFile (df_filepath f) (df_rest f) (redact_upload <$> df_output f).
Definition redact_segments (s : SegmentedFileOutput) : SegmentedFileOutput :=
  mkSegments (sf_rest s) (redact_upload <$> sf_output s).
Definition redact_images (i : ImageOutput) : ImageOutput := mkImages (im_rest i) (redact_upload <$> im_output i).

Definition redact_output (o : Output) : option Output :=
  config ← match ou_config o with
           | Some (CfgStream s) => s ← redact_stream s; Some (Some (CfgStream s))
           | c => Some c
           end;
  Some (mkOutput config (redact_storage (ou_storage o))).

(** * Requests *)

(** The trait [EncodedOutput]: the repeated outputs, and the deprecated [output] oneof as far
    as the implementation gives access to it. *)
Class EncodedOutput (T : Type) := {
  outputs : T -> V1Outputs;
  with_outputs : V1Outputs -> T -> T;
  deprecated : T -> option V1Output;
  with_deprecated : option V1Output -> T -> T;
}.

(** [impl_encoded!]: no access to the oneof. *)
#[export] Instance Web_encoded : EncodedOutput WebEgressRequest := {
  outputs := we_outputs;
  with_outputs o r := mkWeb (we_url r) (we_rest r) (we_output r) (we_options r) o;
  deprecated _ := None;
  with_deprecated _ r := r;
}.
#[export] Instance Participant_encoded : EncodedOutput ParticipantEgressRequest := {
  outputs := pe_outputs;
  with_outputs o r := mkParticipantEgress (pe_room_name r) (pe_identity r) (pe_rest r) (pe_options r) o;
  deprecated _ := None;
  with_deprecated _ r := r;
}.
#[export] Instance TrackComposite_encoded : EncodedOutput TrackCompositeEgressRequest := {
  outputs := tc_outputs;
  with_outputs o r := mkTrackComposite (tc_room_name r) (tc_rest r) (tc_output r) (tc_options r) o;
  deprecated _ := None;
  with_deprecated _ r := r;
}.
#[export] Instance RoomComposite_encoded : EncodedOutput RoomCompositeEgressRequest := {
  outputs := rc_outputs;
  with_outputs o r := mkRoomComposite (rc_room_name r) (rc_rest r) (rc_output r) (rc_options r) o;
  deprecated := rc_output;
  with_deprecated o r := mkRoomComposite (rc_room_name r) (rc_rest r) o (rc_options r) (rc_outputs r);
}.

Definition redact_outputs (o : V1Outputs) : option V1Outputs :=
  streams ← mapM redact_stream (vo_stream_outputs o);
  Some (mkOutputs (redact_encoded_output <$> vo_file_outputs o) streams
          (redact_segments <$> vo_segment_outputs o) (redact_images <$> vo_image_outputs o)).
Definition redact_v1 (o : V1Output) : option V1Output :=
  match o with
  | V1File f => Some (V1File (redact_encoded_output f))
  | V1Stream s => s ← redact_stream s; Some (V1Stream s)
  | V1Segments s => Some (V1Segments (redact_segments s))
  end.

Definition redact_encoded {T} `{EncodedOutput T} (req : T) : option T :=
  o ← redact_outputs (outputs req);
  let req := with_outputs o req in
  match deprecated req with
  | Some d => d ← redact_v1 d; Some (with_deprecated (Some d) req)
  | None => Some req
  end.

Definition redact_start (req : UnifiedEgressRequest) : option UnifiedEgressRequest :=
  os ← mapM redact_output (ue_outputs req);
  Some (mkUnified (ue_room_name req) (ue_rest req) os (redact_storage (ue_storage req))).

Definition redact_direct (req : TrackEgressRequest) : TrackEgressRequest :=
  mkTrackEgress (te_room_name req) (te_track_id req) (te_rest req)
    (match te_output req with Some (TrackFile f) => Some (TrackFile (redact_direct_output f)) | o => o end).

Definition redact_room_composite (req : RoomCompositeEgressRequest) : option RoomCompositeEgressRequest := redact_encoded req.

(** [request_info] of [server.rs]: the request as reports echo it; [Some None] for the requests
    the recorder does not take. *)
Definition request_info (req : StartEgressRequest) : option (option EgressRequest) :=
  match sq_request req with
  | Some (ReqRoomComposite r) => r ← redact_room_composite r; Some (Some (ReqRoomComposite r))
  | Some (ReqTrack r) => Some (Some (ReqTrack (redact_direct r)))
  | Some (ReqParticipant r) => r ← redact_encoded r; Some (Some (ReqParticipant r))
  | Some (ReqTrackComposite r) => r ← redact_encoded r; Some (Some (ReqTrackComposite r))
  | Some (ReqEgress r) => r ← redact_start r; Some (Some (ReqEgress r))
  | _ => Some None
  end.

(** * Requests that differ in credentials only *)

(** Two credentials, present or absent alike. *)
Definition same_presence (a b : string) : Prop := a = "" <-> b = "".

(** Uploads that agree but for their credentials. *)
Inductive same_public : Upload -> Upload -> Prop :=
| same_s3 ak ak' sk sk' tok tok' arn ext ext' region endpoint bucket style meta tagging disp proxy :
    same_presence ak ak' -> same_presence sk sk' -> same_presence tok tok' -> same_presence ext ext' ->
    same_public (UpS3 (mkS3 ak sk tok arn ext region endpoint bucket style meta tagging disp proxy))
                (UpS3 (mkS3 ak' sk' tok' arn ext' region endpoint bucket style meta tagging disp proxy))
| same_gcp cred cred' bucket proxy : same_presence cred cred' ->
    same_public (UpGcp (mkGcp cred bucket proxy)) (UpGcp (mkGcp cred' bucket proxy))
| same_azure name name' key key' container : same_presence name name' -> same_presence key key' ->
    same_public (UpAzure (mkAzure name key container)) (UpAzure (mkAzure name' key' container))
| same_alioss ak ak' sk sk' region endpoint bucket : same_presence ak ak' -> same_presence sk sk' ->
    same_public (UpAliOss (mkAli ak sk region endpoint bucket)) (UpAliOss (mkAli ak' sk' region endpoint bucket)).

Definition same_uploads : option Upload -> option Upload -> Prop := option_Forall2 same_public.
Definition same_storage : option StorageConfig -> option StorageConfig -> Prop :=
  option_Forall2 (fun s s' => same_uploads (st_provider s) (st_provider s')).

Inductive same_file : EncodedFileOutput -> EncodedFileOutput -> Prop :=
| same_file_ t p r u u' : same_uploads u u' -> same_file (mkEncodedFile t p r u) (mkEncodedFile t p r u').
Inductive same_direct : DirectFileOutput -> DirectFileOutput -> Prop :=
| same_direct_ p r u u' : same_uploads u u' -> same_direct (mkDirectFile p r u) (mkDirectFile p r u').
Inductive same_segments : SegmentedFileOutput -> SegmentedFileOutput -> Prop :=
| same_segments_ r u u' : same_uploads u u' -> same_segments (mkSegments r u) (mkSegments r u').
Inductive same_images : ImageOutput -> ImageOutput -> Prop :=
| same_images_ r u u' : same_uploads u u' -> same_images (mkImages r u) (mkImages r u').
Inductive same_output : Output -> Output -> Prop :=
| same_output_ c s s' : same_storage s s' -> same_output (mkOutput c s) (mkOutput c s').
Inductive same_v1 : V1Output -> V1Output -> Prop :=
| same_v1_file f f' : same_file f f' -> same_v1 (V1File f) (V1File f')
| same_v1_stream s : same_v1 (V1Stream s) (V1Stream s)
| same_v1_segments s s' : same_segments s s' -> same_v1 (V1Segments s) (V1Segments s').
Inductive same_outputs : V1Outputs -> V1Outputs -> Prop :=
| same_outputs_ fs fs' ss gs gs' imgs imgs' : Forall2 same_file fs fs' -> Forall2 same_segments gs gs' -> Forall2 same_images imgs imgs' ->
    same_outputs (mkOutputs fs ss gs imgs) (mkOutputs fs' ss gs' imgs').

(** Requests that agree but for the credentials of their uploads.  The deprecated output of a
    track-composite request has to be the same in both. *)
Inductive same_request : EgressRequest -> EgressRequest -> Prop :=
| same_unified n rest os os' s s' : Forall2 same_output os os' -> same_storage s s' ->
    same_request (ReqEgress (mkUnified n rest os s)) (ReqEgress (mkUnified n rest os' s'))
| same_room_composite n rest o o' opt os os' : option_Forall2 same_v1 o o' -> same_outputs os os' ->
    same_request (ReqRoomComposite (mkRoomComposite n rest o opt os)) (ReqRoomComposite (mkRoomComposite n rest o' opt os'))
| same_participant n i rest opt os os' : same_outputs os os' ->
    same_request (ReqParticipant (mkParticipantEgress n i rest opt os)) (ReqParticipant (mkParticipantEgress n i rest opt os'))
| same_track_composite n rest o opt os os' : same_outputs os os' ->
    same_request (ReqTrackComposite (mkTrackComposite n rest o opt os)) (ReqTrackComposite (mkTrackComposite n rest o opt os'))
| same_track n i rest f f' : same_direct f f' ->
    same_request (ReqTrack (mkTrackEgress n i rest (Some (TrackFile f)))) (ReqTrack (mkTrackEgress n i rest (Some (TrackFile f')))).

Lemma redact_same a b ph : same_presence a b -> redact a ph = redact b ph.
Proof.
  unfold same_presence, redact. intros H.
  destruct (String.eqb_spec a ""), (String.eqb_spec b ""); naive_solver.
Qed.

Lemma redact_upload_same u u' : same_public u u' -> redact_upload u = redact_upload u'.
Proof.
  intros []; cbn; unfold redact_s3, redact_gcp, redact_azure, redact_alioss; cbn;
    repeat match goal with H : same_presence ?a ?b |- _ => rewrite (redact_same a b _ H); clear H end; done.
Qed.

Lemma redact_uploads_same u u' : same_uploads u u' -> redact_upload <$> u = redact_upload <$> u'.
Proof. intros []; cbn; [|done]. f_equal. by apply redact_upload_same. Qed.

Lemma redact_storage_same s s' : same_storage s s' -> redact_storage s = redact_storage s'.
Proof. intros [? ? H|]; cbn; [|done]. do 2 f_equal. by apply redact_uploads_same. Qed.

Lemma redact_fmap_same {A} (R : A -> A -> Prop) (f : A -> A) l l' : (forall x y, R x y -> f x = f y) ->
  Forall2 R l l' -> f <$> l = f <$> l'.
Proof. intros H. induction 1; cbn; f_equal; auto. Qed.
Lemma redact_mapM_same {A B} (R : A -> A -> Prop) (f : A -> option B) l l' : (forall x y, R x y -> f x = f y) ->
  Forall2 R l l' -> mapM f l = mapM f l'.
Proof. intros H. induction 1 as [|x y l l' Hxy _ IH]; cbn; [done|]. by rewrite (H x y Hxy), IH. Qed.

Lemma redact_file_same f f' : same_file f f' -> redact_encoded_output f = redact_encoded_output f'.
Proof. intros [????? H]. unfold redact_encoded_output. cbn. f_equal. by apply redact_uploads_same. Qed.
Lemma redact_segments_same f f' : same_segments f f' -> redact_segments f = redact_segments f'.
Proof. intros [??? H]. unfold redact_segments. cbn. f_equal. by apply redact_uploads_same. Qed.
Lemma redact_images_same f f' : same_images f f' -> redact_images f = redact_images f'.
Proof. intros [??? H]. unfold redact_images. cbn. f_equal. by apply redact_uploads_same. Qed.
Lemma redact_direct_same f f' : same_direct f f' -> redact_direct_output f = redact_direct_output f'.
Proof. intros [???? H]. unfold redact_direct_output. cbn. f_equal. by apply redact_uploads_same. Qed.
Lemma redact_output_same o o' : same_output o o' -> redact_output o = redact_output o'.
Proof. intros [??? H]. unfold redact_output. cbn [ou_config ou_storage]. by rewrite (redact_storage_same _ _ H). Qed.
Lemma redact_v1_same o o' : same_v1 o o' -> redact_v1 o = redact_v1 o'.
Proof. intros [?? H| |?? H]; cbn; [by rewrite (redact_file_same _ _ H)|done|by rewrite (redact_segments_same _ _ H)]. Qed.
Lemma redact_outputs_same o o' : same_outputs o o' -> redact_outputs o = redact_outputs o'.
Proof.
  intros [??????? H1 H2 H3]. unfold redact_outputs. cbn [vo_file_outputs vo_stream_outputs vo_segment_outputs vo_image_outputs].
  by rewrite (redact_fmap_same _ _ _ _ redact_file_same H1), (redact_fmap_same _ _ _ _ redact_segments_same H2),
    (redact_fmap_same _ _ _ _ redact_images_same H3).
Qed.


Definition demo_s3 (key secret : string) : Upload :=
  UpS3 (mkS3 key secret "" "" "" "ap-south-1" "" "recordings" false ∅ "" "" None).
Definition demo_room (key secret : string) : EgressRequest :=
  ReqRoomComposite (mkRoomComposite "support" "" (Some (V1File (mkEncodedFile 3 "call" "" (Some (demo_s3 key secret)))))
    None (mkOutputs [mkEncodedFile 0 "copy" "" (Some (demo_s3 key secret))] [] [] [])).

Lemma demo_s3_same a b a' b' : same_presence a a' -> same_presence b b' -> same_public (demo_s3 a b) (demo_s3 a' b').
Proof. intros. by constructor. Qed.


(** The deprecated output of a track-composite request is echoed with its credentials: the
    recorder takes the upload destination from it, but the redaction of these requests does
    not look at it.  The same holds for the uploads of segment and image outputs of unified
    requests. *)
Theorem redaction_leaks_deprecated_outputs id room n rest o opt storage u :
  request_info (mkStart id room (Some (ReqTrackComposite (mkTrackComposite n rest o opt (mkOutputs [] [] [] []))))) =
    Some (Some (ReqTrackComposite (mkTrackComposite n rest o opt (mkOutputs [] [] [] [])))) /\
  redact_start (mkUnified n rest [mkOutput (Some (CfgSegments (mkSegments rest (Some u)))) storage] None) =
    Some (mkUnified n rest [mkOutput (Some (CfgSegments (mkSegments rest (Some u)))) (redact_storage storage)] None).
Proof. done. Qed.

(** * Stream keys *)

(** The proxy password of an upload is not redacted; an S3 upload with a proxy is only refused
    as the destination of the recording, not as a further output. *)
Lemma proxy_password_kept s3 : s3_proxy (redact_s3 s3) = s3_proxy s3.
Proof. done. Qed.

(** [rtmps] URLs are echoed as [rtmp], and path segments after the fourth are dropped. *)
Lemma redact_stream_key_rewrites :
  redact_stream_key "rtmps://h/app/abcdefghi/x/y" = Some ("rtmp://h/app/{abc...ghi}/x", true).
Proof. reflexivity. Qed.

(** An SRT URL is echoed as it is. *)
Lemma srt_not_redacted : redact_stream_key "srt://h:9000?streamid=abcdef" = Some ("srt://h:9000?streamid=abcdef", false).
Proof. reflexivity. Qed.

(** A key whose third byte lies inside a character makes the redaction panic. *)
Definition accented_key : string := "a" +:+ String (ascii_of_nat 195) (String (ascii_of_nat 169) "") +:+ "bcdefgh".
Lemma redact_accented_key_panics : redact_stream_key ("rtmp://h/app/" +:+ String (ascii_of_nat 97) accented_key) = None.
Proof. reflexivity. Qed.
