(* ===== verification/Egress.v ===== *)
(** Where a recording goes: destinations, storage keys and upload URLs
    ([crates/lk-egress/src/server.rs], [config.rs], [upload.rs]). *)
From Stdlib Require Import ZArith Lia Ascii String.
From stdpp Require Import base gmap strings list option.
From S2P Require Import Prelude RustStr SipProto EgressProto Recorder.

Open Scope string_scope.
Open Scope list_scope.
Open Scope Z_scope.

(** * Configuration *)

Record S3Config := mkS3Config {
  cs_access_key : string; cs_secret : string; cs_session_token : string;
  cs_region : string; cs_endpoint : string; cs_bucket : string; cs_force_path_style : bool;
  cs_metadata : StrMap; cs_tagging : string; cs_content_disposition : string;
  cs_assume_role_arn : string; cs_assume_role_external_id : string; cs_proxy : option ProxyConfig;
}.
Record GcpConfig := mkGcpConfig {
  cg_credentials : string; cg_bucket : string; cg_metadata : StrMap; cg_tagging : string; cg_content_disposition : string;
}.
Record AzureConfig := mkAzureConfig {
  cz_account_name : string; cz_account_key : string; cz_container_name : string;
  cz_metadata : StrMap; cz_tagging : string; cz_content_disposition : string;
}.
Record AliOssConfig := mkAliConfig {
  ca_access_key : string; ca_secret : string; ca_region : string; ca_endpoint : string; ca_bucket : string;
}.

(** The settings that shape a recording; connection and logging settings are not used here.
    [ec_fits n] is the outcome of the floating-point admission test for [n] active
    recordings, [(n + 1.0) * cost <= capacity]. *)
Record EgressConfig := mkConfig {
  ec_output_dir : string; ec_mp3_bitrate : Z;
  ec_log_level : string; ec_logging_level : string;
  ec_s3 : option S3Config; ec_gcp : option GcpConfig; ec_azure : option AzureConfig; ec_alioss : option AliOssConfig;
  ec_fits : nat -> bool;
  ec_s3_assume_role_key : string; ec_s3_assume_role_secret : string;
  ec_s3_assume_role_arn : string; ec_s3_assume_role_external_id : string;
}.
Definition EgressConfig_default (fits : nat -> bool) : EgressConfig :=
  mkConfig "/out" 64 "" "info" None None None None fits "" "" "" "".

Definition effective_log_level (conf : EgressConfig) : string :=
  if negb (ec_log_level conf =? "")%string then ec_log_level conf else ec_logging_level conf.

Definition admitted (conf : EgressConfig) (active_count : nat) : bool := ec_fits conf active_count.

(** * Destinations *)

Record S3Target := mkS3Target {
  ts_access_key : string; ts_secret : string; ts_session_token : string;
  ts_region : string; ts_endpoint : string; ts_bucket : string; ts_force_path_style : bool;
  ts_metadata : StrMap; ts_tagging : string; ts_content_disposition : string;
  ts_assume_role_arn : string; ts_assume_role_external_id : string;
}.
Record GcpTarget := mkGcpTarget {
  tg_credentials : string; tg_bucket : string; tg_metadata : StrMap; tg_tagging : string; tg_content_disposition : string;
}.
Record AzureTarget := mkAzureTarget {
  ta_account_name : string; ta_account_key : string; ta_container_name : string;
  ta_metadata : StrMap; ta_tagging : string; ta_content_disposition : string;
}.
Inductive Destination := Local | DestS3 (t : S3Target) | DestGcp (t : GcpTarget) | DestAzure (t : AzureTarget).

Definition or_default (a b : string) : string := if (a =? "")%string then b else a.

Definition unsupported_alioss : string := "aliOSS upload is not supported on the voice-only recorder".
Definition s3_proxy_error : string := "s3 proxy is not supported on the voice-only recorder".
Definition gcp_proxy_error : string := "gcp proxy is not supported on the voice-only recorder".

Definition s3_destination (s3 : S3Upload) (conf : EgressConfig) : Result string Destination :=
  if bool_decide (is_Some (s3_proxy s3)) then Err s3_proxy_error
  else
    let assume_role_arn := or_default (s3_assume_role_arn s3) (ec_s3_assume_role_arn conf) in
    let assume_role_external_id := or_default (s3_assume_role_external_id s3) (ec_s3_assume_role_external_id conf) in
    let '(access_key, secret) :=
      if negb (assume_role_arn =? "")%string && (s3_access_key s3 =? "")%string
      then (ec_s3_assume_role_key conf, ec_s3_assume_role_secret conf)
      else (s3_access_key s3, s3_secret s3) in
    Ok (DestS3 (mkS3Target access_key secret (s3_session_token s3) (s3_region s3) (s3_endpoint s3) (s3_bucket s3)
      (s3_force_path_style s3) (s3_metadata s3) (s3_tagging s3) (s3_content_disposition s3)
      assume_role_arn assume_role_external_id)).

Definition gcp_destination (g : GcpUpload) : Result string Destination :=
  if bool_decide (is_Some (gc_proxy g)) then Err gcp_proxy_error
  else Ok (DestGcp (mkGcpTarget (gc_credentials g) (gc_bucket g) ∅ "" "")).

Definition azure_destination (a : AzureBlobUpload) : Destination :=
  DestAzure (mkAzureTarget (az_account_name a) (az_account_key a) (az_container_name a) ∅ "" "").

Definition conf_default (conf : EgressConfig) : Result string Destination :=
  match ec_s3 conf with
  | Some c =>
      if bool_decide (is_Some (cs_proxy c)) then Err s3_proxy_error
      else
        let assume_role_arn := or_default (cs_assume_role_arn c) (ec_s3_assume_role_arn conf) in
        let assume_role_external_id := or_default (cs_assume_role_external_id c) (ec_s3_assume_role_external_id conf) in
        let '(access_key, secret) :=
          if negb (assume_role_arn =? "")%string && (cs_access_key c =? "")%string
          then (ec_s3_assume_role_key conf, ec_s3_assume_role_secret conf)
          else (cs_access_key c, cs_secret c) in
        Ok (DestS3 (mkS3Target access_key secret (cs_session_token c) (cs_region c) (cs_endpoint c) (cs_bucket c)
          (cs_force_path_style c) (cs_metadata c) (cs_tagging c) (cs_content_disposition c)
          assume_role_arn assume_role_external_id))
  | None =>
      match ec_gcp conf with
      | Some g => Ok (DestGcp (mkGcpTarget (cg_credentials g) (cg_bucket g) (cg_metadata g) (cg_tagging g) (cg_content_disposition g)))
      | None =>
          match ec_azure conf with
          | Some a => Ok (DestAzure (mkAzureTarget (cz_account_name a) (cz_account_key a) (cz_container_name a)
                            (cz_metadata a) (cz_tagging a) (cz_content_disposition a)))
          | None => if bool_decide (is_Some (ec_alioss conf)) then Err unsupported_alioss else Ok Local
          end
      end
  end.

(** The match that [encoded_spec], [direct_destination] and [storage_destination] share. *)
Definition upload_destination (u : option Upload) (conf : EgressConfig) : Result string Destination :=
  match u with
  | Some (UpS3 s3) => s3_destination s3 conf
  | Some (UpGcp g) => gcp_destination g
  | Some (UpAzure a) => Ok (azure_destination a)
  | Some (UpAliOss _) => Err unsupported_alioss
  | None => conf_default conf
  end.

Definition encoded_format (file_type : Z) : OutputFormat := if file_type =? MP3 then FmtMp3 else FmtWav.

Definition encoded_spec (f : EncodedFileOutput) (conf : EgressConfig) : Result string (OutputFormat * Destination * string) :=
  let format := encoded_format (ef_file_type f) in
  destination ← upload_destination (ef_output f) conf;
  Ok (format, destination, ef_filepath f).

Definition direct_destination (f : DirectFileOutput) (conf : EgressConfig) : Result string Destination :=
  upload_destination (df_output f) conf.

Definition storage_destination (s : StorageConfig) (conf : EgressConfig) : Result string Destination :=
  upload_destination (st_provider s) conf.

(** * The recording a request asks for *)

Record RecSpec := mkSpec {
  sp_room : string; sp_format : OutputFormat; sp_destination : Destination; sp_filepath : string; sp_bitrate : Z;
}.

Definition default_spec (conf : EgressConfig) : Result string (OutputFormat * Destination * string) :=
  d ← conf_default conf; Ok (FmtWav, d, "").

(** The deprecated [output] file, or the first of [file_outputs]. *)
Definition v1_file (output : option V1Output) (file_outputs : list EncodedFileOutput) : option EncodedFileOutput :=
  match output with Some (V1File f) => Some f | _ => head file_outputs end.

Definition file_spec (file : option EncodedFileOutput) (conf : EgressConfig) : Result string (OutputFormat * Destination * string) :=
  match file with Some f => encoded_spec f conf | None => default_spec conf end.

Definition unsupported_request : string := "web/replay egress is not supported on the voice-only recorder".

Definition rec_spec (req : StartEgressRequest) (conf : EgressConfig) : Result string RecSpec :=
  match sq_request req with
  | Some (ReqRoomComposite r) =>
      '(format, destination, filepath) ← file_spec (v1_file (rc_output r) (vo_file_outputs (rc_outputs r))) conf;
      Ok (mkSpec (rc_room_name r) format destination filepath
            (match rc_options r with Some (Advanced audio_bitrate _) => audio_bitrate | _ => 0 end))
  | Some (ReqTrack r) =>
      match te_output r with
      | Some (TrackFile f) =>
          destination ← direct_destination f conf;
          Ok (mkSpec (te_room_name r) FmtWav destination (df_filepath f) 0)
      | _ =>
          '(format, destination, filepath) ← default_spec conf;
          Ok (mkSpec (te_room_name r) format destination filepath 0)
      end
  | Some (ReqParticipant r) =>
      '(format, destination, filepath) ← file_spec (head (vo_file_outputs (pe_outputs r))) conf;
      Ok (mkSpec (pe_room_name r) format destination filepath 0)
  | Some (ReqTrackComposite r) =>
      '(format, destination, filepath) ← file_spec (v1_file (tc_output r) (vo_file_outputs (tc_outputs r))) conf;
      Ok (mkSpec (tc_room_name r) format destination filepath 0)
  | Some (ReqEgress r) =>
      '(format, destination, filepath) ←
        match head (ue_outputs r) with
        | Some o =>
            destination ← match ou_storage o with Some s => storage_destination s conf | None => conf_default conf end;
            Ok (match ou_config o with
                | Some (CfgFile f) => (encoded_format (fo_file_type f), destination, fo_filepath f)
                | _ => (FmtWav, destination, "")
                end)
        | None => default_spec conf
        end;
      Ok (mkSpec (ue_room_name r) format destination filepath 0)
  | _ => Err unsupported_request
  end.

(** The storage key. *)
Definition storage_key (filepath egress_id ext : string) : string :=
  let suffix := "." +:+ ext in
  if (filepath =? "")%string then egress_id +:+ "." +:+ ext
  else if ends_with suffix filepath then filepath
  else filepath +:+ "." +:+ ext.

Definition ext_of (format : OutputFormat) : string := if bool_decide (format = FmtMp3) then "mp3" else "wav".

(** * Upload *)

Definition content_type_for (key : string) : option string :=
  if ends_with ".mp3" key then Some "audio/mpeg"
  else if ends_with ".wav" key then Some "audio/wav"
  else None.

(** Collected into a map: of equal keys the last one stays. *)
Definition parse_tag (part : string) : option (string * string) :=
  let '(k, v) := match split_once "=" part with Some kv => kv | None => (part, "") end in
  let k := trim k in
  let v := trim v in
  if (k =? "")%string then None else Some (k, v).
Definition parse_tagging (tagging : string) : StrMap :=
  foldl (fun m part => match parse_tag part with Some (k, v) => <[k := v]> m | None => m end) ∅ (split_on "&" tagging).

Fixpoint trim_end_matches (c : ascii) (s : string) : string :=
  match s with
  | "" => ""
  | String x s' =>
      match trim_end_matches c s' with
      | "" => if (x =? c)%char then "" else String x ""
      | t => String x t
      end
  end.

Definition object_url (s3 : S3Target) (key : string) : string :=
  if negb (ts_endpoint s3 =? "")%string then trim_end_matches "/" (ts_endpoint s3) +:+ "/" +:+ ts_bucket s3 +:+ "/" +:+ key
  else if ts_force_path_style s3 then "https://s3." +:+ ts_region s3 +:+ ".amazonaws.com/" +:+ ts_bucket s3 +:+ "/" +:+ key
  else "https://" +:+ ts_bucket s3 +:+ ".s3." +:+ ts_region s3 +:+ ".amazonaws.com/" +:+ key.

Record PutOptions := mkPut { po_tags : StrMap; po_metadata : StrMap; po_content_disposition : option string; po_content_type : option string }.
Definition put_options (metadata : StrMap) (tagging content_disposition : string) (content_type : option string) : PutOptions :=
  mkPut (parse_tagging tagging) metadata
    (if (content_disposition =? "")%string then None else Some content_disposition) content_type.

Section Upload.
(** Building an object store for a target and writing one object to it, and the temporary
    credentials of an assumed role (access key, secret, session token), are library and
    network calls. *)
Inductive Store :=
| StoreS3 (bucket access_key secret region : string) (token endpoint : option string) (virtual_hosted : bool)
| StoreGcp (bucket credentials : string)
| StoreAzure (account access_key container : string).
Context (build : Store -> Result string unit).
Context (put : Store -> string -> list Z -> PutOptions -> Result string unit).
Context (assume_role : string -> string -> string -> string -> string -> string -> Result string (string * string * string)).
Context (read_file : string -> Result string (list Z)).

Definition put_s3 (s3 : S3Target) (key : string) (bytes : list Z) : Result string string :=
  '(access_key, secret, session_token) ←
    (if negb (ts_assume_role_arn s3 =? "")%string
     then assume_role (ts_access_key s3) (ts_secret s3) (ts_session_token s3) (ts_region s3)
            (ts_assume_role_arn s3) (ts_assume_role_external_id s3)
     else Ok (ts_access_key s3, ts_secret s3, ts_session_token s3));
  let region := if (ts_region s3 =? "")%string || (ts_region s3 =? "auto")%string then "auto" else ts_region s3 in
  let token := if (session_token =? "")%string then None else Some session_token in
  let store :=
    if negb (ts_endpoint s3 =? "")%string
    then StoreS3 (ts_bucket s3) access_key secret region token (Some (ts_endpoint s3)) false
    else StoreS3 (ts_bucket s3) access_key secret region token None (negb (ts_force_path_style s3)) in
  _ ← map_err (fun e => "s3 config: " +:+ e) (build store);
  _ ← map_err (fun e => "s3 upload " +:+ key +:+ ": " +:+ e)
        (put store key bytes (put_options (ts_metadata s3) (ts_tagging s3) (ts_content_disposition s3) (content_type_for key)));
  Ok (object_url s3 key).

Definition put_gcp (g : GcpTarget) (key : string) (bytes : list Z) : Result string string :=
  let store := StoreGcp (tg_bucket g) (tg_credentials g) in
  _ ← map_err (fun e => "gcp config: " +:+ e) (build store);
  _ ← map_err (fun e => "gcp upload " +:+ key +:+ ": " +:+ e)
        (put store key bytes (put_options (tg_metadata g) (tg_tagging g) (tg_content_disposition g) (content_type_for key)));
  Ok ("https://storage.googleapis.com/" +:+ tg_bucket g +:+ "/" +:+ key).

Definition put_azure (a : AzureTarget) (key : string) (bytes : list Z) : Result string string :=
  let store := StoreAzure (ta_account_name a) (ta_account_key a) (ta_container_name a) in
  _ ← map_err (fun e => "azure config: " +:+ e) (build store);
  _ ← map_err (fun e => "azure upload " +:+ key +:+ ": " +:+ e)
        (put store key bytes (put_options (ta_metadata a) (ta_tagging a) (ta_content_disposition a) (content_type_for key)));
  Ok ("https://" +:+ ta_account_name a +:+ ".blob.core.windows.net/" +:+ ta_container_name a +:+ "/" +:+ key).

Definition upload (local_path key : string) (dest : Destination) : Result string (string * Z) :=
  stat ← map_err (fun e => "stat " +:+ local_path +:+ ": " +:+ e) (read_file local_path);
  let size := Z.of_nat (length stat) in
  match dest with
  | Local => Ok (local_path, size)
  | DestS3 s3 => bytes ← read_file local_path; location ← put_s3 s3 key bytes; Ok (location, size)
  | DestGcp g => bytes ← read_file local_path; location ← put_gcp g key bytes; Ok (location, size)
  | DestAzure a => bytes ← read_file local_path; location ← put_azure a key bytes; Ok (location, size)
  end.
End Upload.

(** * Properties *)

Lemma ends_with_app a suf : ends_with suf (a +:+ suf) = true.
Proof.
  unfold ends_with. assert (exists p, strip_suffix suf (a +:+ suf) = Some p) as [p ->]; [|done].
  induction a as [|x a [p IH]].
  - exists "". destruct suf; cbn [strip_suffix String.append]; by rewrite String.eqb_refl.
  - cbn [String.append strip_suffix]. rewrite IH. destruct (suf =? _)%string; by eexists.
Qed.

Lemma ends_with_inv suf s : ends_with suf s = true -> exists p, s = p +:+ suf.
Proof.
  unfold ends_with. intros H. destruct (strip_suffix suf s) as [p|] eqn:E; [|done]. clear H. exists p. revert p E.
  induction s as [|x s IH]; intros p; cbn [strip_suffix].
  - destruct (String.eqb_spec suf "") as [->|]; [by intros [= <-]|done].
  - destruct (String.eqb_spec suf (String x s)) as [->|]; [by intros [= <-]|].
    intros (p' & E & ->)%fmap_Some. cbn. f_equal. auto.
Qed.

Lemma str_app_inj_r (p q a b : string) : String.length a = String.length b -> p +:+ a = q +:+ b -> a = b.
Proof.
  intros Hl E. apply str_app_inj in E as [_ ?]; [done|]. apply (f_equal str_len) in E. rewrite !str_len_app in E.
  unfold str_len in *. lia.
Qed.

Lemma ends_with_unique a b s : String.length a = String.length b -> ends_with a s = true -> ends_with b s = true -> a = b.
Proof. intros Hl [p Hp]%ends_with_inv [q Hq]%ends_with_inv. rewrite Hp in Hq. by eapply str_app_inj_r. Qed.

(** The key keeps the requested path and ends in the extension of the format. *)
Lemma storage_key_suffix filepath id ext : ends_with ("." +:+ ext) (storage_key filepath id ext) = true.
Proof.
  unfold storage_key. cbv zeta. destruct (filepath =? "")%string; [apply ends_with_app|].
  destruct (ends_with ("." +:+ ext) filepath) eqn:E; [done|apply ends_with_app].
Qed.

(** Uploads carry the right type.  Whatever the requested path, the object a recording is
    stored under ends in the extension of its format, is tagged with that format's MIME type,
    and does not change when it is used as a requested path again. *)
Theorem storage_key_typed filepath id format :
  let key := storage_key filepath id (ext_of format) in
  content_type_for key = Some (if bool_decide (format = FmtMp3) then "audio/mpeg" else "audio/wav") /\
  (exists base, key = base +:+ "." +:+ ext_of format) /\
  storage_key key id (ext_of format) = key.
Proof.
  intros key. pose proof (storage_key_suffix filepath id (ext_of format)) as Hs. fold key in Hs. split_and!.
  - unfold content_type_for. clearbody key. destruct format.
    + change (ends_with ".wav" key = true) in Hs. rewrite Hs, bool_decide_false by done.
      destruct (ends_with ".mp3" key) eqn:E; [|done]. exfalso.
      by assert (".mp3" = ".wav") by (by eapply ends_with_unique).
    + change (ends_with ".mp3" key = true) in Hs. by rewrite Hs.
  - by apply ends_with_inv in Hs.
  - unfold storage_key at 1. cbv zeta. rewrite Hs. destruct (String.eqb_spec key ""); [|done].
    exfalso. apply ends_with_inv in Hs as [p Hp]. rewrite Hp in e. by destruct p.
Qed.

(** Where a recording goes.  An upload given with the output decides; without one the
    container's configuration does, in the order S3, GCS, Azure, local disk.  Configured
    credentials are only used for an assumed role with a request that has no access key, and
    AliOSS and proxies are refused. *)
Theorem destination_choice conf u :
  match upload_destination u conf with
  | Ok (DestS3 t) =>
      (exists s3, u = Some (UpS3 s3) /\ s3_proxy s3 = None /\ ts_bucket t = s3_bucket s3 /\
         ((ts_access_key t = s3_access_key s3 /\ ts_secret t = s3_secret s3) \/
          (s3_access_key s3 = "" /\ ts_assume_role_arn t <> "" /\ ts_access_key t = ec_s3_assume_role_key conf /\
           ts_secret t = ec_s3_assume_role_secret conf))) \/
      (u = None /\ exists c, ec_s3 conf = Some c /\ cs_proxy c = None /\ ts_bucket t = cs_bucket c)
  | Ok (DestGcp t) => (exists g, u = Some (UpGcp g) /\ gc_proxy g = None /\ tg_bucket t = gc_bucket g) \/
      (u = None /\ ec_s3 conf = None /\ exists g, ec_gcp conf = Some g /\ tg_bucket t = cg_bucket g)
  | Ok (DestAzure t) => (exists a, u = Some (UpAzure a) /\ ta_container_name t = az_container_name a) \/
      (u = None /\ ec_s3 conf = None /\ ec_gcp conf = None /\ exists a, ec_azure conf = Some a /\ ta_container_name t = cz_container_name a)
  | Ok Local => u = None /\ ec_s3 conf = None /\ ec_gcp conf = None /\ ec_azure conf = None /\ ec_alioss conf = None
  | Err e =>
      (e = unsupported_alioss /\ ((exists a, u = Some (UpAliOss a)) \/ (u = None /\ is_Some (ec_alioss conf)))) \/
      (e = s3_proxy_error /\ ((exists s3, u = Some (UpS3 s3) /\ is_Some (s3_proxy s3)) \/
                              (u = None /\ exists c, ec_s3 conf = Some c /\ is_Some (cs_proxy c)))) \/
      (e = gcp_proxy_error /\ exists g, u = Some (UpGcp g) /\ is_Some (gc_proxy g))
  end.
Proof.
  destruct u as [[s3|g|a|a]|]; cbn [upload_destination].
  - unfold s3_destination. case_bool_decide as Hp; [right; left; eauto|]. cbv zeta.
    apply eq_None_not_Some in Hp. set (arn := or_default _ _).
    destruct (arn =? "")%string eqn:Ea; cbn [negb andb]; [left; exists s3; eauto 10|].
    destruct (s3_access_key s3 =? "")%string eqn:Ek; cbn; left; exists s3; bool_to_prop; eauto 10.
  - unfold gcp_destination. case_bool_decide as Hp; [right; right; eauto|]. apply eq_None_not_Some in Hp. left; eauto.
  - left; eauto.
  - left; eauto.
  - unfold conf_default. destruct (ec_s3 conf) as [c|] eqn:E1.
    { case_bool_decide as Hp; [right; left; eauto 10|]. apply eq_None_not_Some in Hp. cbv zeta.
      destruct (negb _ && _); right; eauto 10. }
    destruct (ec_gcp conf) as [g|] eqn:E2; [right; eauto 10|]. destruct (ec_azure conf) as [a|] eqn:E3; [right; eauto 10|].
    case_bool_decide as Hp; [left; eauto|]. apply eq_None_not_Some in Hp. done.
Qed.

(** A unified request's own storage is ignored: only the storage of its first output and
    the container's default are looked at. *)
Theorem request_storage_ignored id room n rest os s conf :
  rec_spec (mkStart id room (Some (ReqEgress (mkUnified n rest os s)))) conf =
  rec_spec (mkStart id room (Some (ReqEgress (mkUnified n rest os None)))) conf.
Proof. done. Qed.
