(* ===== verification/EgressServer.v ===== *)
(** The recorder's services ([crates/lk-egress/src/server.rs], [recorder.rs]): admission of
    recordings, the life of a recording job with its reports, and the stop handler, as a
    transition system over the shared tables. *)
From Stdlib Require Import ZArith Lia Ascii String.
From stdpp Require Import base gmap strings list option.
From S2P Require Import Prelude RustStr EgressProto Recorder Redact Egress.

Open Scope string_scope.
Open Scope list_scope.
Open Scope Z_scope.

(** * Reports *)

Definition starting_info (id room_id room : string) (now : Z) (request : EgressRequest) : Report :=
  mkReport id room_id room EGRESS_STARTING now 0 now "" (Some request) None [] SOURCE_SDK.
Definition active_info (id room_id room : string) (now : Z) (request : EgressRequest) : Report :=
  mkReport id room_id room EGRESS_ACTIVE now 0 now "" (Some request) None [] SOURCE_SDK.
Definition failed_info (id room_id room : string) (now : Z) (request : EgressRequest) (e : string) : Report :=
  mkReport id room_id room EGRESS_FAILED now now now e (Some request) None [] SOURCE_SDK.

(** [duration] is [(frames * 20) as i64] of a [u64] product. *)
Definition finished_info (id room_id room filename location : string) (request : EgressRequest) (frames size now : Z) : Report :=
  let file := mkFileInfo filename now now (wrap_s 64 (wrap_u 64 (frames * 20))) (wrap_s 64 size) location in
  mkReport id room_id room EGRESS_COMPLETE now now now "" (Some request) (Some file) [file] SOURCE_SDK.

(** * Start of a recording *)

Definition RpcError := (string * string)%type.
Definition invalid_argument (m : string) : RpcError := ("invalid_argument", m).
Definition not_found (m : string) : RpcError := ("not_found", m).
Definition unavailable (m : string) : RpcError := ("unavailable", m).

(** The checks of [StartEgress] before its first await; the outer [None] is a panic in the
    redaction. *)
Definition start_check (conf : EgressConfig) (req : StartEgressRequest) (active_count : nat) :
    option (Result RpcError (RecSpec * EgressRequest)) :=
  if (sq_egress_id req =? "")%string then Some (Err (invalid_argument "egress_id is required"))
  else match rec_spec req conf with
  | Err e => Some (Err (invalid_argument e))
  | Ok spec =>
      if (sp_room spec =? "")%string then Some (Err (invalid_argument "room_name is required"))
      else
        info ← request_info req;
        match info with
        | None => Some (Err (invalid_argument "unsupported egress request"))
        | Some request =>
            if negb (admitted conf active_count)
            then Some (Err (unavailable ("egress node at capacity (" +:+ fmt_dec (Z.of_nat active_count) +:+
                                         " active, cpu_cost admission)")))
            else Some (Ok (spec, request))
        end
  end.

(** * State *)

(** Where a job is: its start handler waits for the report of the new recording, or for the
    subscription of its stop topic; then the spawned task connects, waits for the report that
    it is active, records, uploads the finished file, and waits for its last report. *)
Inductive Phase :=
| Starting (info : Report) | Registering | Connecting | Activating (info : Report) | RecordingAudio
| Uploading (frames size : Z) | Ending (info : Report).

Record Job := mkJob { jb_id : string; jb_room_id : string; jb_spec : RecSpec; jb_request : EgressRequest; jb_phase : Phase }.
Definition with_phase (ph : Phase) (j : Job) : Job := mkJob (jb_id j) (jb_room_id j) (jb_spec j) (jb_request j) ph.

(** The calls to the server's [IOInfo] service. *)
Inductive Sent := SentCreate (r : Report) | SentUpdate (r : Report).
Definition sent_report (m : Sent) : Report := match m with SentCreate r => r | SentUpdate r => r end.

(** The tables shared by handlers and jobs, the jobs, and the reports sent so far. *)
Record EgressState := mkES {
  es_active : gset string; es_stops : gmap string bool; es_infos : gmap string Report; es_stop_tasks : gset string;
  es_jobs : list Job; es_sent : list Sent;
}.
Definition es_init : EgressState := mkES ∅ ∅ ∅ ∅ [] [].

Definition send (m : Sent) (s : EgressState) : EgressState :=
  mkES (es_active s) (es_stops s) (es_infos s) (es_stop_tasks s) (es_jobs s) (es_sent s ++ [m]).
Definition set_jobs (jobs : list Job) (s : EgressState) : EgressState :=
  mkES (es_active s) (es_stops s) (es_infos s) (es_stop_tasks s) jobs (es_sent s).
Definition set_info (r : Report) (s : EgressState) : EgressState :=
  mkES (es_active s) (es_stops s) (<[rp_egress_id r := r]> (es_infos s)) (es_stop_tasks s) (es_jobs s) (es_sent s).

(** [StartEgress] up to the report. *)
Definition begin_start (req : StartEgressRequest) (spec : RecSpec) (request : EgressRequest) (now : Z) (s : EgressState) : EgressState :=
  let starting := starting_info (sq_egress_id req) (sq_room_id req) (sp_room spec) now request in
  send (SentCreate starting)
    (set_jobs (es_jobs s ++ [mkJob (sq_egress_id req) (sq_room_id req) spec request (Starting starting)]) s).

(** From the answer to the report to the subscription of the stop topic. *)
Definition commit_start (j : Job) (info : Report) (s : EgressState) : EgressState :=
  let s := set_info info s in
  mkES ({[jb_id j]} ∪ es_active s) (<[jb_id j := false]> (es_stops s)) (es_infos s) (es_stop_tasks s) (es_jobs s) (es_sent s).

(** The stop topic is subscribed; the task is spawned. *)
Definition registered (j : Job) (s : EgressState) : EgressState :=
  mkES (es_active s) (es_stops s) (es_infos s) ({[jb_id j]} ∪ es_stop_tasks s) (es_jobs s) (es_sent s).

(** The end of the task: the last report is recorded, the slot and the stop topic are freed. *)
Definition finish_job (j : Job) (info : Report) (s : EgressState) : EgressState :=
  let s := set_info info s in
  mkES (es_active s ∖ {[jb_id j]}) (es_stops s) (es_infos s) (es_stop_tasks s ∖ {[jb_id j]}) (es_jobs s) (es_sent s).

(** * Handlers *)

Definition stop_handle (egress_id : string) (s : EgressState) : Result RpcError Report * EgressState :=
  let s := if bool_decide (is_Some (es_stops s !! egress_id))
           then mkES (es_active s) (<[egress_id := true]> (es_stops s)) (es_infos s) (es_stop_tasks s) (es_jobs s) (es_sent s)
           else s in
  (ok_or (es_infos s !! egress_id) (not_found ("egress " +:+ egress_id +:+ " not found")), s).

Definition list_active (s : EgressState) : list string := elements (es_active s).

Definition bitrate (conf : EgressConfig) (spec : RecSpec) : Z :=
  if 0 <? sp_bitrate spec then sp_bitrate spec else ec_mp3_bitrate conf.
Definition local_path (conf : EgressConfig) (j : Job) : string :=
  ec_output_dir conf +:+ "/" +:+ jb_id j +:+ "." +:+ ext_of (sp_format (jb_spec j)).

(** * Transitions *)

(** One step of a job's task ([run_one] and the failure report around it): the new phase and
    what it sends.  The outcomes of connecting, recording and uploading are arbitrary. *)
Inductive job_step : Job -> Phase -> option Sent -> Prop :=
| job_connected j now :
    jb_phase j = Connecting ->
    let info := active_info (jb_id j) (jb_room_id j) (sp_room (jb_spec j)) now (jb_request j) in
    job_step j (Activating info) (Some (SentUpdate info))
| job_recorded j frames size :
    jb_phase j = RecordingAudio -> job_step j (Uploading frames size) None
| job_uploaded j frames size location now :
    jb_phase j = Uploading frames size ->
    let key := storage_key (sp_filepath (jb_spec j)) (jb_id j) (ext_of (sp_format (jb_spec j))) in
    let info := finished_info (jb_id j) (jb_room_id j) (sp_room (jb_spec j)) key location (jb_request j) frames size now in
    job_step j (Ending info) (Some (SentUpdate info))
| job_failed j now e :
    jb_phase j = Connecting \/ jb_phase j = RecordingAudio \/ (exists frames size, jb_phase j = Uploading frames size) ->
    let info := failed_info (jb_id j) (jb_room_id j) (sp_room (jb_spec j)) now (jb_request j) e in
    job_step j (Ending info) (Some (SentUpdate info)).

Inductive egress_step (conf : EgressConfig) : EgressState -> EgressState -> Prop :=
| step_start s req spec request now :
    start_check conf req (size (es_active s)) = Some (Ok (spec, request)) ->
    egress_step conf s (begin_start req spec request now s)
| step_created s l1 j l2 info :
    es_jobs s = l1 ++ j :: l2 -> jb_phase j = Starting info ->
    egress_step conf s (commit_start j info (set_jobs (l1 ++ with_phase Registering j :: l2) s))
| step_registered s l1 j l2 :
    es_jobs s = l1 ++ j :: l2 -> jb_phase j = Registering ->
    egress_step conf s (registered j (set_jobs (l1 ++ with_phase Connecting j :: l2) s))
| step_register_failed s l1 j l2 :
    es_jobs s = l1 ++ j :: l2 -> jb_phase j = Registering ->
    egress_step conf s (set_jobs (l1 ++ l2) s)
| step_job s l1 j l2 ph m :
    es_jobs s = l1 ++ j :: l2 -> job_step j ph (Some m) ->
    egress_step conf s (send m (set_jobs (l1 ++ with_phase ph j :: l2) s))
| step_job_silent s l1 j l2 ph :
    es_jobs s = l1 ++ j :: l2 -> job_step j ph None ->
    egress_step conf s (set_jobs (l1 ++ with_phase ph j :: l2) s)
| step_activated s l1 j l2 info :
    es_jobs s = l1 ++ j :: l2 -> jb_phase j = Activating info ->
    egress_step conf s (set_info info (set_jobs (l1 ++ with_phase RecordingAudio j :: l2) s))
| step_finished s l1 j l2 info :
    es_jobs s = l1 ++ j :: l2 -> jb_phase j = Ending info ->
    egress_step conf s (finish_job j info (set_jobs (l1 ++ l2) s))
| step_stop s id :
    egress_step conf s (stop_handle id s).2.

(** * The reports of a recording *)

(** The recordings reported as new, and the statuses reported for one recording, in order. *)
Definition created (s : EgressState) : list string :=
  omap (fun m => match m with SentCreate r => Some (rp_egress_id r) | SentUpdate _ => None end) (es_sent s).
Definition statuses (x : string) (sent : list Sent) : list Z :=
  rp_status <$> filter (fun r => rp_egress_id r = x) (sent_report <$> sent).

Definition finals : list (list Z) :=
  [[EGRESS_STARTING; EGRESS_FAILED]; [EGRESS_STARTING; EGRESS_ACTIVE; EGRESS_COMPLETE]; [EGRESS_STARTING; EGRESS_ACTIVE; EGRESS_FAILED]].

(** What has been reported in each phase, and whether the recording holds a slot. *)
Definition phase_ok (x : string) (ph : Phase) (log : list Z) (active : Prop) : Prop :=
  match ph with
  | Starting i => log = [EGRESS_STARTING] /\ ~ active /\ rp_egress_id i = x
  | Registering | Connecting => log = [EGRESS_STARTING] /\ active
  | Activating i => log = [EGRESS_STARTING; EGRESS_ACTIVE] /\ active /\ rp_egress_id i = x
  | RecordingAudio | Uploading _ _ => log = [EGRESS_STARTING; EGRESS_ACTIVE] /\ active
  | Ending i => log ∈ finals /\ active /\ rp_egress_id i = x
  end.

Definition jobs_of (x : string) (jobs : list Job) : list Job := filter (fun j => jb_id j = x) jobs.

(** The life of the recording [x]: not started, running, stuck without its stop topic, or
    ended and released. *)
Definition id_ok (s : EgressState) (x : string) : Prop :=
  let log := statuses x (es_sent s) in
  match jobs_of x (es_jobs s) with
  | [] => (x ∉ created s /\ log = [] /\ x ∉ es_active s) \/
          (x ∈ created s /\ log = [EGRESS_STARTING] /\ x ∈ es_active s) \/
          (x ∈ created s /\ log ∈ finals /\ x ∉ es_active s)
  | [j] => x ∈ created s /\ phase_ok x (jb_phase j) log (x ∈ es_active s)
  | _ => False
  end.

Lemma statuses_app x l m : statuses x (l ++ [m]) =
  statuses x l ++ (if decide (rp_egress_id (sent_report m) = x) then [rp_status (sent_report m)] else []).
Proof.
  unfold statuses. rewrite fmap_app, list.filter_app, fmap_app. f_equal. cbn [fmap list_fmap].
  rewrite filter_cons, filter_nil. by case_decide.
Qed.

Lemma created_app l m : omap (fun m => match m with SentCreate r => Some (rp_egress_id r) | SentUpdate _ => None end) (l ++ [m]) =
  omap (fun m => match m with SentCreate r => Some (rp_egress_id r) | SentUpdate _ => None end) l ++
  match m with SentCreate r => [rp_egress_id r] | SentUpdate _ => [] end.
Proof. rewrite omap_app. by destruct m. Qed.

(** Replacing or removing one job. *)
Lemma jobs_of_other x l1 j l2 : jb_id j <> x -> jobs_of x (l1 ++ j :: l2) = jobs_of x (l1 ++ l2).
Proof. intros. unfold jobs_of. by rewrite !list.filter_app, filter_cons_False. Qed.
Lemma jobs_of_with x ph l1 j l2 : jb_id j <> x -> jobs_of x (l1 ++ with_phase ph j :: l2) = jobs_of x (l1 ++ j :: l2).
Proof. intros. by rewrite !jobs_of_other. Qed.
Lemma jobs_of_self l1 j l2 : jobs_of (jb_id j) (l1 ++ j :: l2) = jobs_of (jb_id j) l1 ++ j :: jobs_of (jb_id j) l2.
Proof. unfold jobs_of. by rewrite list.filter_app, filter_cons_True. Qed.

Lemma id_ok_single s l1 j l2 : id_ok s (jb_id j) -> es_jobs s = l1 ++ j :: l2 ->
  jobs_of (jb_id j) l1 = [] /\ jobs_of (jb_id j) l2 = [] /\ jb_id j ∈ created s /\
  phase_ok (jb_id j) (jb_phase j) (statuses (jb_id j) (es_sent s)) (jb_id j ∈ es_active s).
Proof.
  unfold id_ok. intros H E. rewrite E, jobs_of_self in H.
  destruct (jobs_of (jb_id j) l1) as [|j1 [|j2 l]], (jobs_of (jb_id j) l2); cbn in H; try done; destruct H as [? ?]; done.
Qed.

(** A job moves on: only its own recording is concerned. *)
Lemma id_ok_move s s' l1 j l2 ph : (forall x, id_ok s x) -> es_jobs s = l1 ++ j :: l2 ->
  es_jobs s' = l1 ++ with_phase ph j :: l2 -> created s' = created s ->
  (forall x, x <> jb_id j -> statuses x (es_sent s') = statuses x (es_sent s) /\ (x ∈ es_active s' <-> x ∈ es_active s)) ->
  phase_ok (jb_id j) ph (statuses (jb_id j) (es_sent s')) (jb_id j ∈ es_active s') ->
  forall x, id_ok s' x.
Proof.
  intros Hok Ej Ej' Ec Hother Hph x. specialize (Hok x) as Hx. destruct (decide (jb_id j = x)) as [<-|Hne].
  - destruct (id_ok_single s l1 j l2 Hx Ej) as (E1 & E2 & Hc & _). unfold id_ok. rewrite Ej'.
    change (jb_id j) with (jb_id (with_phase ph j)) at 1. rewrite jobs_of_self. cbn [with_phase jb_id]. rewrite E1, E2.
    cbn. by rewrite Ec.
  - unfold id_ok in *. rewrite Ej', jobs_of_with by done. rewrite Ej in Hx. destruct (Hother x) as [-> Ha]; [done|].
    rewrite Ec. destruct (jobs_of x _) as [|j' [|]]; [|destruct Hx as [? Hp]; split; [done|]; clear -Hp Ha|done].
    + destruct Hx as [(?&?&?)|[(?&?&?)|(?&?&?)]]; [left|right; left|right; right]; rewrite Ha; done.
    + destruct (jb_phase j'); cbn in *; by rewrite Ha.
Qed.

(** A job ends or is dropped. *)
Lemma id_ok_drop s s' l1 j l2 : (forall x, id_ok s x) -> es_jobs s = l1 ++ j :: l2 ->
  es_jobs s' = l1 ++ l2 -> es_sent s' = es_sent s ->
  (forall x, x <> jb_id j -> (x ∈ es_active s' <-> x ∈ es_active s)) ->
  (statuses (jb_id j) (es_sent s) = [EGRESS_STARTING] /\ jb_id j ∈ es_active s') \/
  (statuses (jb_id j) (es_sent s) ∈ finals /\ jb_id j ∉ es_active s') ->
  forall x, id_ok s' x.
Proof.
  intros Hok Ej Ej' Es Hother Hend x. specialize (Hok x) as Hx. assert (created s' = created s) as Ec by (unfold created; by rewrite Es).
  destruct (decide (jb_id j = x)) as [<-|Hne].
  - destruct (id_ok_single s l1 j l2 Hx Ej) as (E1 & E2 & Hc & _). unfold id_ok. rewrite Ej', Es, Ec.
    unfold jobs_of in *. rewrite list.filter_app, E1, E2. cbn. tauto.
  - unfold id_ok in *. rewrite Ej', <- (jobs_of_other x l1 j l2) by done. rewrite Ej in Hx. rewrite Es, Ec. specialize (Hother x ltac:(done)).
    destruct (jobs_of x _) as [|j' [|]]; [|destruct Hx as [? Hp]; split; [done|]; clear -Hp Hother|done].
    + destruct Hx as [(?&?&?)|[(?&?&?)|(?&?&?)]]; [left|right; left|right; right]; rewrite Hother; done.
    + destruct (jb_phase j'); cbn in *; by rewrite Hother.
Qed.

Lemma created_send s m : created (send m s) = created s ++ match m with SentCreate r => [rp_egress_id r] | SentUpdate _ => [] end.
Proof. apply created_app. Qed.

Lemma created_mono conf s s' : egress_step conf s s' -> exists l, created s' = created s ++ l.
Proof.
  destruct 1; try (exists []; rewrite app_nil_r; reflexivity).
  - unfold begin_start. rewrite created_send. eexists. done.
  - rewrite created_send. by eexists.
  - unfold stop_handle. exists []. rewrite app_nil_r. by case_bool_decide.
Qed.

Lemma id_ok_start conf s req spec request now : (forall x, id_ok s x) ->
  NoDup (created (begin_start req spec request now s)) ->
  start_check conf req (size (es_active s)) = Some (Ok (spec, request)) ->
  forall x, id_ok (begin_start req spec request now s) x.
Proof.
  intros Hok Hnd _ x. unfold begin_start in *. cbv zeta in *.
  set (info := starting_info _ _ _ _ _) in *. set (j := mkJob _ _ _ _ _) in *.
  rewrite created_send in Hnd. apply list.NoDup_app in Hnd as (_ & Hnew & _).
  assert (sq_egress_id req ∉ created s) as Hn.
  { intros Hin. apply (Hnew _ Hin). left. }
  unfold id_ok. rewrite created_send. cbn [send set_jobs es_jobs es_sent es_active]. rewrite statuses_app. cbn [sent_report].
  change (rp_egress_id info) with (sq_egress_id req). change (created (set_jobs _ s)) with (created s).
  unfold jobs_of. rewrite list.filter_app, filter_cons, filter_nil. change (jb_id j) with (sq_egress_id req).
  specialize (Hok x). unfold id_ok in Hok. fold (jobs_of x (es_jobs s)).
  destruct (decide (sq_egress_id req = x)) as [<-|Hne].
  - assert (jobs_of (sq_egress_id req) (es_jobs s) = [] /\ statuses (sq_egress_id req) (es_sent s) = [] /\ sq_egress_id req ∉ es_active s)
      as (-> & -> & Ha).
    { destruct (jobs_of _ _) as [|? [|]]; [|by destruct Hok|done].
      destruct Hok as [(?&?&?)|[(?&?&?)|(?&?&?)]]; done. }
    cbn. split; [|done]. apply elem_of_app. right. left.
  - rewrite !app_nil_r. assert (x ∈ created s ++ [sq_egress_id req] <-> x ∈ created s) as Hc.
    { rewrite elem_of_app, list_elem_of_singleton. naive_solver. }
    destruct (jobs_of x (es_jobs s)) as [|? [|]]; [|split; [apply Hc|]; by destruct Hok|done].
    destruct Hok as [(?&?&?)|[(?&?&?)|(?&?&?)]]; [left|right; left|right; right]; rewrite Hc; done.
Qed.

Lemma id_ok_job s l1 j l2 ph m : (forall x, id_ok s x) -> es_jobs s = l1 ++ j :: l2 -> job_step j ph m ->
  match m with
  | Some m => forall x, id_ok (send m (set_jobs (l1 ++ with_phase ph j :: l2) s)) x
  | None => forall x, id_ok (set_jobs (l1 ++ with_phase ph j :: l2) s) x
  end.
Proof.
  intros Hok Ej Hs. destruct (id_ok_single s l1 j l2 (Hok _) Ej) as (_ & _ & _ & Hph).
  assert (forall m ph', rp_egress_id (sent_report m) = jb_id j -> (exists r, m = SentUpdate r) ->
    phase_ok (jb_id j) ph' (statuses (jb_id j) (es_sent s) ++ [rp_status (sent_report m)]) (jb_id j ∈ es_active s) ->
    forall x, id_ok (send m (set_jobs (l1 ++ with_phase ph' j :: l2) s)) x) as Hsend.
  { intros m' ph' Hid [r ->] Hp. eapply (id_ok_move s); [done|exact Ej|done|by rewrite created_send, app_nil_r|..];
      cbn [send set_jobs es_sent es_active]; rewrite ?statuses_app.
    - intros x Hx. rewrite statuses_app. rewrite decide_False by congruence. by rewrite app_nil_r.
    - by rewrite decide_True. }
  inversion Hs as [j' now Hp|j' fr sz Hp|j' fr sz loc now Hp key|j' now e Hp]; subst.
  - rewrite Hp in Hph. destruct Hph as [Hl Ha]. apply Hsend; [done|by eexists|]. rewrite Hl. by cbn.
  - rewrite Hp in Hph. eapply (id_ok_move s); [done|exact Ej|done|done|done|exact Hph].
  - rewrite Hp in Hph. destruct Hph as [Hl Ha]. apply Hsend; [done|by eexists|]. rewrite Hl. cbn. split; [|done].
    unfold finals. right. left.
  - apply Hsend; [done|by eexists|]. destruct Hp as [Hp|[Hp|(fr & sz & Hp)]]; rewrite Hp in Hph; destruct Hph as [Hl Ha];
      rewrite Hl; cbn; (split; [|done]); unfold finals; [left|right; right; left..].
Qed.

Lemma id_ok_step conf s s' : (forall x, id_ok s x) -> egress_step conf s s' -> NoDup (created s') -> forall x, id_ok s' x.
Proof.
  intros Hok Hs. destruct Hs as [s req spec request now Hc|s l1 j l2 info Ej Hp|s l1 j l2 Ej Hp|s l1 j l2 Ej Hp|s l1 j l2 ph m Ej Hj
    |s l1 j l2 ph Ej Hj|s l1 j l2 info Ej Hp|s l1 j l2 info Ej Hp|s id]; intros Hnd.
  - by eapply id_ok_start.
  - destruct (id_ok_single s l1 j l2 (Hok _) Ej) as (_ & _ & _ & Hph). rewrite Hp in Hph. destruct Hph as (Hl & _ & _).
    eapply (id_ok_move s); [done|exact Ej|done|done|..]; cbn.
    + intros x Hx. split; [done|]. rewrite elem_of_union, elem_of_singleton. naive_solver.
    + split; [done|]. set_solver.
  - destruct (id_ok_single s l1 j l2 (Hok _) Ej) as (_ & _ & _ & Hph). rewrite Hp in Hph.
    eapply (id_ok_move s); [done|exact Ej|done|done|done|exact Hph].
  - destruct (id_ok_single s l1 j l2 (Hok _) Ej) as (_ & _ & _ & Hph). rewrite Hp in Hph.
    eapply (id_ok_drop s); [done|exact Ej|done|done|done|left; exact Hph].
  - by apply (id_ok_job s l1 j l2 ph (Some m)).
  - by apply (id_ok_job s l1 j l2 ph None).
  - destruct (id_ok_single s l1 j l2 (Hok _) Ej) as (_ & _ & _ & Hph). rewrite Hp in Hph. destruct Hph as (Hl & Ha & _).
    eapply (id_ok_move s); [done|exact Ej|done|done|done|by split].
  - destruct (id_ok_single s l1 j l2 (Hok _) Ej) as (_ & _ & _ & Hph). rewrite Hp in Hph. destruct Hph as (Hl & Ha & _).
    eapply (id_ok_drop s); [done|exact Ej|done|done|..]; cbn.
    + intros x Hx. rewrite elem_of_difference, elem_of_singleton. naive_solver.
    + right. split; [done|]. set_solver.
  - intros x. specialize (Hok x). unfold stop_handle, id_ok, created in *. by case_bool_decide.
Qed.

Lemma reach_id_ok conf s : reach (egress_step conf) es_init s -> NoDup (created s) -> forall x, id_ok s x.
Proof.
  induction 1 as [|s s' Hr IH Hs]; intros Hnd.
  - intros x. left. split_and!; [apply not_elem_of_nil|done|apply not_elem_of_empty].
  - eapply id_ok_step; [|exact Hs|done]. apply IH. destruct (created_mono _ _ _ Hs) as [l E]. rewrite E in Hnd.
    by apply list.NoDup_app in Hnd as (? & _).
Qed.

(** C24: Reports of a recording.  As long as ids are not reused, in every reachable state of the
    recorder the reports sent for a recording are, in order: the start, then possibly that it
    is active, then at most one terminal report (complete only after active).  There is at most
    one job per recording, and once its job has sent the terminal report and is gone, it no
    longer counts against the capacity. *)
Theorem egress_report_order conf s x : reach (egress_step conf) es_init s -> NoDup (created s) ->
  statuses x (es_sent s) ∈ [] :: [EGRESS_STARTING] :: [EGRESS_STARTING; EGRESS_ACTIVE] :: finals /\
  (length (jobs_of x (es_jobs s)) <= 1)%nat /\
  (jobs_of x (es_jobs s) = [] -> statuses x (es_sent s) ∈ finals -> x ∉ es_active s).
Proof.
  intros Hr Hnd. pose proof (reach_id_ok conf s Hr Hnd x) as Hx. unfold id_ok in Hx.
  assert (forall l, l ∈ finals -> l ∈ [] :: [EGRESS_STARTING] :: [EGRESS_STARTING; EGRESS_ACTIVE] :: finals) as Hf
    by (intros; by do 3 right).
  destruct (jobs_of x (es_jobs s)) as [|j [|]]; [| |done]; cbn [length].
  - destruct Hx as [(_&->&?)|[(_&->&?)|(_&?&?)]]; (split; [|split; [lia|]]); auto; [left|right; left|].
    intros _ Hin. exfalso. unfold finals in Hin. repeat (apply elem_of_cons in Hin as [Hin|Hin]; [done|]). by apply not_elem_of_nil in Hin.
  - destruct Hx as [_ Hp]. split; [|split; [lia|done]].
    destruct (jb_phase j); cbn in Hp; destruct Hp as [Hl _]; rewrite ?Hl; auto; first [right; left|right; right; left].
Qed.


(** A failed subscription loses a slot for good.  When the stop topic of a new recording
    cannot be subscribed, the start fails after the recording has been counted as active; on a
    node with room for one recording no request is ever admitted again. *)
Theorem failed_start_leaks_slot conf req spec request :
  start_check conf req 0 = Some (Ok (spec, request)) -> ec_fits conf 1 = false ->
  exists s, reach (egress_step conf) es_init s /\ es_jobs s = [] /\ es_active s = {[sq_egress_id req]} /\
    forall s', reach (egress_step conf) s s' -> es_jobs s' = [] /\ es_active s' = {[sq_egress_id req]} /\
      forall req' r, start_check conf req' (size (es_active s')) <> Some (Ok r).
Proof.
  intros Hc Hfit. pose (now := 0). set (id := sq_egress_id req). set (j := mkJob id (sq_room_id req) spec request).
  set (i0 := starting_info id (sq_room_id req) (sp_room spec) now request).
  set (s1 := begin_start req spec request now es_init).
  set (s2 := commit_start (j (Starting i0)) i0 (set_jobs [j Registering] s1)).
  assert (forall s, es_active s = {[id]} -> forall req' r, start_check conf req' (size (es_active s)) <> Some (Ok r)) as Hno.
  { intros s -> req' r. rewrite size_singleton. unfold start_check. destruct (sq_egress_id req' =? "")%string; [done|].
    destruct (rec_spec req' conf) as [sp|]; [|done]. destruct (sp_room sp =? "")%string; [done|].
    destruct (request_info req') as [[?|]|]; cbn; try done. unfold admitted. by rewrite Hfit. }
  assert (forall s', reach (egress_step conf) (set_jobs [] s2) s' -> es_jobs s' = [] /\ es_active s' = {[id]}) as Hstuck.
  { apply reach_invariant; [split; [done|]; cbn; set_solver|]. intros s s' [Ej Ea] Hs.
    destruct Hs as [s req' sp rq n Hck|s l1 j' l2 info Ej'|s l1 j' l2 Ej'|s l1 j' l2 Ej'|s l1 j' l2 ph m Ej'|s l1 j' l2 ph Ej'
      |s l1 j' l2 info Ej'|s l1 j' l2 info Ej'|s id']; try (rewrite Ej in Ej'; by destruct l1).
    - by apply Hno in Hck.
    - unfold stop_handle. by case_bool_decide. }
  exists (set_jobs [] s2). split; [|split; [done|split; [cbn; set_solver|]]].
  - apply (reach_step _ _ s2); [|by apply (step_register_failed conf s2 [] (j Registering) [])].
    apply (reach_step _ _ s1); [|by apply (step_created conf s1 [] (j (Starting i0)) [] i0)].
    apply (reach_step _ _ es_init); [apply reach_init|]. by apply (step_start conf es_init req spec request now).
  - intros s' Hr. destruct (Hstuck s' Hr) as [E1 E2]. split_and!; [done|done|by apply Hno].
Qed.

(** Admission can be overrun.  Two start requests that are both checked before either is
    counted are both admitted, on a node with room for one recording. *)
Theorem admission_race conf req1 req2 spec1 spec2 request1 request2 :
  start_check conf req1 0 = Some (Ok (spec1, request1)) -> start_check conf req2 0 = Some (Ok (spec2, request2)) ->
  sq_egress_id req1 <> sq_egress_id req2 ->
  exists s, reach (egress_step conf) es_init s /\ es_active s = {[sq_egress_id req1; sq_egress_id req2]} /\
    size (es_active s) = 2%nat.
Proof.
  intros H1 H2 Hne. pose (now := 0). set (id1 := sq_egress_id req1) in *. set (id2 := sq_egress_id req2) in *.
  set (j1 := mkJob id1 (sq_room_id req1) spec1 request1). set (j2 := mkJob id2 (sq_room_id req2) spec2 request2).
  set (i1 := starting_info id1 (sq_room_id req1) (sp_room spec1) now request1).
  set (i2 := starting_info id2 (sq_room_id req2) (sp_room spec2) now request2).
  set (s1 := begin_start req1 spec1 request1 now es_init). set (s2 := begin_start req2 spec2 request2 now s1).
  set (s3 := commit_start (j1 (Starting i1)) i1 (set_jobs [j1 Registering; j2 (Starting i2)] s2)).
  set (s4 := commit_start (j2 (Starting i2)) i2 (set_jobs [j1 Registering; j2 Registering] s3)).
  assert (es_active s4 = {[id1; id2]}) as Ea by (cbn; set_solver).
  exists s4. split; [|split; [done|]].
  - apply (reach_step _ _ s3); [|by apply (step_created conf s3 [j1 Registering] (j2 (Starting i2)) [] i2)].
    apply (reach_step _ _ s2); [|by apply (step_created conf s2 [] (j1 (Starting i1)) [j2 (Starting i2)] i1)].
    apply (reach_step _ _ s1); [|by apply (step_start conf s1 req2 spec2 request2 now)].
    apply (reach_step _ _ es_init); [apply reach_init|]. by apply (step_start conf es_init req1 spec1 request1 now).
  - rewrite Ea, size_union by set_solver. by rewrite !size_singleton.
Qed.

(** * Witnesses *)

Definition demo_conf : EgressConfig := EgressConfig_default (fun n => (n <? 1)%nat).
Definition demo_req (id : string) : StartEgressRequest :=
  mkStart id "RM_1" (Some (ReqTrack (mkTrackEgress "support" "TR_1" "" None))).
Definition demo_spec : RecSpec := mkSpec "support" FmtWav Local "" 0.
Definition demo_request : EgressRequest := ReqTrack (mkTrackEgress "support" "TR_1" "" None).


Definition demo_started : EgressState := begin_start (demo_req "EG_1") demo_spec demo_request 7 es_init.
Lemma egress_report_order_witness :
  statuses "EG_1" (es_sent demo_started) ∈ [] :: [EGRESS_STARTING] :: [EGRESS_STARTING; EGRESS_ACTIVE] :: finals /\
  (length (jobs_of "EG_1" (es_jobs demo_started)) <= 1)%nat /\
  (jobs_of "EG_1" (es_jobs demo_started) = [] -> statuses "EG_1" (es_sent demo_started) ∈ finals -> "EG_1" ∉ es_active demo_started).
Proof.
  apply (egress_report_order demo_conf demo_started "EG_1").
  - apply (reach_step _ _ es_init); [apply reach_init|].
    exact (step_start demo_conf es_init (demo_req "EG_1") demo_spec demo_request 7 eq_refl).
  - vm_compute. apply NoDup_singleton.
Defined.

Lemma failed_start_leaks_slot_witness : exists s, reach (egress_step demo_conf) es_init s /\ es_jobs s = [] /\
  es_active s = {["EG_1"]} /\
  forall s', reach (egress_step demo_conf) s s' -> es_jobs s' = [] /\ es_active s' = {["EG_1"]} /\
    forall req' r, start_check demo_conf req' (size (es_active s')) <> Some (Ok r).
Proof. exact (failed_start_leaks_slot demo_conf (demo_req "EG_1") demo_spec demo_request eq_refl eq_refl). Defined.

Lemma admission_race_witness : exists s, reach (egress_step demo_conf) es_init s /\ es_active s = {["EG_1"; "EG_2"]} /\
  size (es_active s) = 2%nat.
Proof.
  refine (admission_race demo_conf (demo_req "EG_1") (demo_req "EG_2") demo_spec demo_spec demo_request demo_request
    eq_refl eq_refl _). discriminate.
Defined.
