(* ===== verification/Cluster.v ===== *)
(** Clustering ([crates/lk-server/src/cluster.rs]): the in-memory cluster bus, room routing as
    the interleaving of its bus operations, and the signaling relay between nodes. *)
From Stdlib Require Import ZArith Lia Ascii String.
From stdpp Require Import base gmap strings list option.
From S2P Require Import Prelude RustStr.

Open Scope string_scope.
Open Scope list_scope.
Open Scope Z_scope.

(** * Keys *)

Definition node_key (node_id : string) : string := "lk:node:" +:+ node_id.
Definition rooms_key : string := "lk:rooms".
Definition relay_ctrl (node_id : string) : string := "lk:relay:" +:+ node_id +:+ ":ctrl".
Definition relay_in (session_id : string) : string := "lk:relay:" +:+ session_id +:+ ":in".
Definition relay_out (session_id : string) : string := "lk:relay:" +:+ session_id +:+ ":out".

(** * The in-memory bus *)

Definition Fields := list (string * string).

Record MemInner := mkMem {
  mi_kv : gmap string string;
  mi_hashes : gmap string (gmap string string);
  mi_streams : gmap string (list (Z * Fields));
  mi_next_id : gmap string Z;
}.
Definition MemInner_default : MemInner := mkMem ∅ ∅ ∅ ∅.

Definition set_with_ttl (key value : string) (b : MemInner) : MemInner :=
  mkMem (<[key := value]> (mi_kv b)) (mi_hashes b) (mi_streams b) (mi_next_id b).
Definition get (key : string) (b : MemInner) : option string := mi_kv b !! key.
Definition hset (hash field value : string) (b : MemInner) : MemInner :=
  mkMem (mi_kv b) (<[hash := <[field := value]> (default ∅ (mi_hashes b !! hash))]> (mi_hashes b)) (mi_streams b) (mi_next_id b).
Definition hsetnx (hash field value : string) (b : MemInner) : bool * MemInner :=
  let h := default ∅ (mi_hashes b !! hash) in
  if bool_decide (is_Some (h !! field))
  then (false, mkMem (mi_kv b) (<[hash := h]> (mi_hashes b)) (mi_streams b) (mi_next_id b))
  else (true, mkMem (mi_kv b) (<[hash := <[field := value]> h]> (mi_hashes b)) (mi_streams b) (mi_next_id b)).
Definition hget (hash field : string) (b : MemInner) : option string := h ← mi_hashes b !! hash; h !! field.
Definition hdel (hash field : string) (b : MemInner) : MemInner :=
  match mi_hashes b !! hash with
  | Some h => mkMem (mi_kv b) (<[hash := delete field h]> (mi_hashes b)) (mi_streams b) (mi_next_id b)
  | None => b
  end.
(** Only the key-value table: streams are not deleted. *)
Definition del (key : string) (b : MemInner) : MemInner :=
  mkMem (delete key (mi_kv b)) (mi_hashes b) (mi_streams b) (mi_next_id b).
Definition bus_keys (pattern : string) (b : MemInner) : list string :=
  let prefix := (fix trim (s : string) : string :=
    match s with
    | "" => ""
    | String x s' => match trim s' with "" => if (x =? "*")%char then "" else String x "" | t => String x t end
    end) pattern in
  filter (fun k => starts_with prefix k = true) (map_to_list (mi_kv b)).*1.

(** [next]: the [u64] counter of a stream. *)
Definition next (stream : string) (b : MemInner) : Z * MemInner :=
  let n := default 0 (mi_next_id b !! stream) + 1 in
  (n, mkMem (mi_kv b) (mi_hashes b) (mi_streams b) (<[stream := n]> (mi_next_id b))).
Definition xadd (stream : string) (fields : Fields) (b : MemInner) : MemInner :=
  let '(id, b) := next stream b in
  mkMem (mi_kv b) (mi_hashes b) (<[stream := default [] (mi_streams b !! stream) ++ [(id, fields)]]> (mi_streams b)) (mi_next_id b).

(** [last_id] as a number: ["$"] and what does not parse are 0. *)
Definition parse_last (last_id : string) : Z :=
  if (last_id =? "$")%string then 0 else default 0 (parse_int 0 (2 ^ 64 - 1) last_id).

(** One poll of [xread_block]: the queue is emptied, entries up to [last_id] are dropped. *)
Definition xread_poll (stream last_id : string) (b : MemInner) : list (string * Fields) * MemInner :=
  match mi_streams b !! stream with
  | None => ([], b)
  | Some q =>
      (omap (fun '(id, fields) => if parse_last last_id <? id then Some (fmt_dec id, fields) else None) q,
       mkMem (mi_kv b) (mi_hashes b) (<[stream := []]> (mi_streams b)) (mi_next_id b))
  end.

(** * Room routing *)

Inductive Routing := RLocal | RRemote (node : string).
#[export] Instance Routing_eq_dec : EqDecision Routing.
Proof. solve_decision. Defined.

(** The registry of rooms and the nodes whose heartbeat key exists. *)
Record Registry := mkRegistry { rg_rooms : gmap string string; rg_alive : gset string }.

(** Where a call of [route_room] is: at the [n]-th turn's [hget], at the check of the owner it
    read, at the claim, at the two operations after the loop, or done. *)
Inductive RoutePc :=
| AtOwner (n : nat) | AtAlive (n : nat) (owner : string) | AtClaim (n : nat)
| AtLastOwner | AtLastAlive (owner : string) | Routed (r : Routing).
#[export] Instance RoutePc_eq_dec : EqDecision RoutePc.
Proof. solve_decision. Defined.

Record Router := mkRouter { ro_node : string; ro_enabled : bool; ro_room : string; ro_pc : RoutePc }.

Definition ROUTE_ATTEMPTS : nat := 8.
Definition after_turn (n : nat) : RoutePc := if (S n <? ROUTE_ATTEMPTS)%nat then AtOwner (S n) else AtLastOwner.

(** One bus operation of [route_room].  [ok] tells whether it succeeds; a failed [hget] reads
    as no owner, a failed liveness check as dead, a failed claim as not claimed. *)
Definition route_step (ok : bool) (g : Registry) (r : Router) : RoutePc * Registry :=
  let owner := if ok then rg_rooms g !! ro_room r else None in
  match ro_pc r with
  | AtOwner n =>
      if negb (ro_enabled r) then (Routed RLocal, g)
      else match owner with
           | Some o => if (o =? ro_node r)%string then (Routed RLocal, g) else (AtAlive n o, g)
           | None => (AtClaim n, g)
           end
  | AtAlive n o => if ok && bool_decide (o ∈ rg_alive g) then (Routed (RRemote o), g) else (AtClaim n, g)
  | AtClaim n =>
      if ok && bool_decide (rg_rooms g !! ro_room r = None)
      then (Routed RLocal, mkRegistry (<[ro_room r := ro_node r]> (rg_rooms g)) (rg_alive g))
      else (after_turn n, g)
  | AtLastOwner =>
      match owner with
      | Some o => if (o =? ro_node r)%string then (Routed RLocal, g) else (AtLastAlive o, g)
      | None => (Routed RLocal, g)
      end
  | AtLastAlive o => (if ok && bool_decide (o ∈ rg_alive g) then Routed (RRemote o) else Routed RLocal, g)
  | Routed _ => (ro_pc r, g)
  end.

Definition start_route (node room : string) (enabled : bool) : Router := mkRouter node enabled room (AtOwner 0).
Definition with_pc (pc : RoutePc) (r : Router) : Router := mkRouter (ro_node r) (ro_enabled r) (ro_room r) pc.

(** [release_room] in its two operations. *)
Definition release_room (node room : string) (enabled : bool) (g : Registry) : Registry :=
  if negb enabled then g
  else if bool_decide (rg_rooms g !! room = Some node) then mkRegistry (delete room (rg_rooms g)) (rg_alive g)
  else g.

(** [start_heartbeat], [deregister] and the expiry of a heartbeat, on the registry. *)
Definition heartbeat (node : string) (enabled : bool) (g : Registry) : Registry :=
  if enabled then mkRegistry (rg_rooms g) ({[node]} ∪ rg_alive g) else g.
Definition deregister (node : string) (enabled : bool) (g : Registry) : Registry :=
  if enabled then mkRegistry (rg_rooms g) (rg_alive g ∖ {[node]}) else g.

(** Nodes routing concurrently: one of them performs its next bus operation. *)
Inductive routing_step : Registry * list Router -> Registry * list Router -> Prop :=
| routing_op ok g g' rs i r pc : rs !! i = Some r -> route_step ok g r = (pc, g') ->
    routing_step (g, rs) (g', <[i := with_pc pc r]> rs).
(** The same on a bus without failures. *)
Inductive routing_step_ok : Registry * list Router -> Registry * list Router -> Prop :=
| routing_op_ok g g' rs i r pc : rs !! i = Some r -> route_step true g r = (pc, g') ->
    routing_step_ok (g, rs) (g', <[i := with_pc pc r]> rs).

(** One call on its own: at most 26 operations. *)
Fixpoint route_run (fuel : nat) (g : Registry) (r : Router) : option Routing * Registry :=
  match ro_pc r, fuel with
  | Routed res, _ => (Some res, g)
  | _, O => (None, g)
  | _, S fuel' => let '(pc, g') := route_step true g r in route_run fuel' g' (with_pc pc r)
  end.
Definition route_room (node room : string) (enabled : bool) (g : Registry) : option Routing * Registry :=
  route_run 26 g (start_route node room enabled).

(** ** Agreement *)

(** The node a finished call routes to. *)
Definition host (r : Router) : option string :=
  match ro_pc r with Routed RLocal => Some (ro_node r) | Routed (RRemote o) => Some o | _ => None end.

(** Calls that have just begun, on live nodes; owned rooms belong to live nodes. *)
Definition routing_init (g : Registry) (rs : list Router) : Prop :=
  (forall r, r ∈ rs -> ro_pc r = AtOwner 0 /\ ro_enabled r = true /\ ro_node r ∈ rg_alive g) /\
  (forall room o, rg_rooms g !! room = Some o -> o ∈ rg_alive g).

Definition router_ok (g : Registry) (r : Router) : Prop :=
  ro_enabled r = true /\ ro_node r ∈ rg_alive g /\
  match ro_pc r with
  | AtOwner _ | AtClaim _ => True
  | AtAlive _ o | AtLastAlive o => rg_rooms g !! ro_room r = Some o
  | AtLastOwner => is_Some (rg_rooms g !! ro_room r)
  | Routed RLocal => rg_rooms g !! ro_room r = Some (ro_node r)
  | Routed (RRemote o) => rg_rooms g !! ro_room r = Some o
  end.
Definition routing_ok (st : Registry * list Router) : Prop :=
  (forall r, r ∈ st.2 -> router_ok st.1 r) /\ (forall room o, rg_rooms st.1 !! room = Some o -> o ∈ rg_alive st.1).

(** Registries that only gain owners. *)
Definition grows (g g' : Registry) : Prop := rg_alive g' = rg_alive g /\ rg_rooms g ⊆ rg_rooms g'.

Lemma router_ok_grows g g' r : grows g g' -> router_ok g r -> router_ok g' r.
Proof.
  intros [Ha Hs] (He & Hn & Hp). unfold router_ok. rewrite Ha. split; [done|]. split; [done|].
  destruct (ro_pc r) as [| | | | |[|]]; try done; try (by eapply lookup_weaken).
  destruct Hp as [o Ho]. exists o. by eapply lookup_weaken.
Qed.

Lemma route_step_ok g r pc g' : router_ok g r -> (forall room o, rg_rooms g !! room = Some o -> o ∈ rg_alive g) ->
  route_step true g r = (pc, g') ->
  grows g g' /\ router_ok g' (with_pc pc r) /\ (forall room o, rg_rooms g' !! room = Some o -> o ∈ rg_alive g').
Proof.
  intros (He & Hn & Hp) Hown Hs. unfold route_step in Hs.
  assert (grows g g) as Hg by done. unfold router_ok.
  destruct (ro_pc r) as [n|n o|n| |o|res] eqn:Epc; rewrite ?He in Hs; cbn [negb andb] in Hs.
  - destruct (rg_rooms g !! ro_room r) as [o|] eqn:Eo; [destruct (String.eqb_spec o (ro_node r)) as [->|]|];
      injection Hs as <- <-; cbn [with_pc ro_enabled ro_node ro_room ro_pc]; auto.
  - rewrite bool_decide_true in Hs by (by eapply Hown). injection Hs as <- <-. cbn. split_and!; auto.
  - case_bool_decide as Ec.
    + injection Hs as <- <-. cbn. rewrite lookup_insert_eq. split_and!; auto.
      * split; [done|]. cbn. by apply insert_subseteq.
      * intros room o. destruct (decide (ro_room r = room)) as [<-|]; [rewrite lookup_insert_eq; by intros [= <-]|].
        rewrite lookup_insert_ne by done. apply Hown.
    + injection Hs as <- <-. cbn [with_pc ro_enabled ro_node ro_room ro_pc]. split_and!; auto.
      unfold after_turn. destruct (_ <? _)%nat; [done|].
      destruct (rg_rooms g !! ro_room r); [by eexists|done].
  - destruct Hp as [o Ho]. rewrite Ho in Hs. destruct (String.eqb_spec o (ro_node r)) as [->|]; injection Hs as <- <-; cbn; split_and!; auto.
  - rewrite bool_decide_true in Hs by (by eapply Hown). injection Hs as <- <-. cbn. split_and!; auto.
  - injection Hs as <- <-. cbn [with_pc ro_enabled ro_node ro_room ro_pc]. split_and!; auto.
Qed.

Lemma routing_ok_step st st' : routing_ok st -> routing_step_ok st st' -> routing_ok st'.
Proof.
  intros [Hr Ho] Hs. destruct Hs as [g g' rs i r pc Hi Hstep]. cbn in *.
  destruct (route_step_ok g r pc g') as (Hg & Hok & Hown); [apply Hr; by eapply list_elem_of_lookup_2|done|done|].
  split; [|done]. cbn. intros r' Hin. apply list_elem_of_lookup in Hin as [k Hk].
  destruct (decide (i = k)) as [<-|Hne].
  - rewrite list_lookup_insert_eq in Hk by (by eapply lookup_lt_Some). by injection Hk as <-.
  - rewrite list_lookup_insert_ne in Hk by done. eapply router_ok_grows; [done|]. apply Hr. by eapply list_elem_of_lookup_2.
Qed.

(** C21: One node per room.  However the bus operations of any number of concurrent routing
    calls interleave, on a bus without failures and with live nodes, all calls that return for
    a room name the same node, and it is the owner recorded in the registry. *)
Theorem routing_agreement g0 rs0 g rs r : routing_init g0 rs0 -> reach routing_step_ok (g0, rs0) (g, rs) ->
  r ∈ rs -> forall h, host r = Some h ->
  rg_rooms g !! ro_room r = Some h /\
  forall r' h', r' ∈ rs -> ro_room r' = ro_room r -> host r' = Some h' -> h' = h.
Proof.
  intros [Hi Ho] Hr. assert (routing_ok (g, rs)) as [Hok _].
  { revert Hr. generalize (g, rs). apply reach_invariant; [|intros; by eapply routing_ok_step].
    split; [|done]. cbn. intros r' Hin. destruct (Hi r' Hin) as (Ep & Ee & Ea). unfold router_ok. by rewrite Ep. }
  assert (forall r h, r ∈ rs -> host r = Some h -> rg_rooms g !! ro_room r = Some h) as Hhost.
  { intros r' h Hin Hh. destruct (Hok r' Hin) as (_ & _ & Hp). cbn in Hp. unfold host in Hh.
    destruct (ro_pc r') as [| | | | |[|]]; try done; by simplify_eq. }
  intros Hin h Hh. split; [by apply Hhost|]. intros r' h' Hin' Er Hh'.
  apply Hhost in Hh, Hh'; [|done..]. rewrite Er in Hh'. congruence.
Qed.

Definition two_nodes : Registry := mkRegistry ∅ {["A"; "B"]}.
Definition two_routers : list Router := [start_route "A" "r1" true; start_route "B" "r1" true].
Definition two_routed : Registry * list Router :=
  (mkRegistry {["r1" := "B"]} {["A"; "B"]}, [mkRouter "A" true "r1" (Routed (RRemote "B")); mkRouter "B" true "r1" (Routed RLocal)]).

Lemma two_routers_run : reach routing_step_ok (two_nodes, two_routers) two_routed.
Proof.
  set (a pc := mkRouter "A" true "r1" pc). set (b pc := mkRouter "B" true "r1" pc).
  set (g1 := mkRegistry {["r1" := "B"]} {["A"; "B"]}).
  apply (reach_step _ _ (g1, [a (AtAlive 1 "B"); b (Routed RLocal)]));
    [|by apply (routing_op_ok g1 g1 [a (AtAlive 1 "B"); b (Routed RLocal)] 0 (a (AtAlive 1 "B")))].
  apply (reach_step _ _ (g1, [a (AtOwner 1); b (Routed RLocal)]));
    [|by apply (routing_op_ok g1 g1 [a (AtOwner 1); b (Routed RLocal)] 0 (a (AtOwner 1)))].
  apply (reach_step _ _ (g1, [a (AtClaim 0); b (Routed RLocal)]));
    [|by apply (routing_op_ok g1 g1 [a (AtClaim 0); b (Routed RLocal)] 0 (a (AtClaim 0)))].
  apply (reach_step _ _ (two_nodes, [a (AtClaim 0); b (AtClaim 0)]));
    [|by apply (routing_op_ok two_nodes g1 [a (AtClaim 0); b (AtClaim 0)] 1 (b (AtClaim 0)))].
  apply (reach_step _ _ (two_nodes, [a (AtClaim 0); b (AtOwner 0)]));
    [|by apply (routing_op_ok two_nodes two_nodes [a (AtClaim 0); b (AtOwner 0)] 1 (b (AtOwner 0)))].
  apply (reach_step _ _ (two_nodes, two_routers)); [apply reach_init|].
  by apply (routing_op_ok two_nodes two_nodes two_routers 0 (a (AtOwner 0))).
Qed.

Lemma routing_agreement_witness :
  rg_rooms two_routed.1 !! "r1" = Some "B" /\
  forall r' h', r' ∈ two_routed.2 -> ro_room r' = "r1" -> host r' = Some h' -> h' = "B".
Proof.
  refine (routing_agreement two_nodes two_routers two_routed.1 two_routed.2 (mkRouter "B" true "r1" (Routed RLocal)) _ two_routers_run _ "B" eq_refl).
  - split.
    + intros r Hin. unfold two_routers in Hin.
      apply elem_of_cons in Hin as [->|Hin]; [|apply list_elem_of_singleton in Hin as ->]; (split; [reflexivity|]; split; [reflexivity|]);
        apply (bool_decide_unpack _); vm_compute; exact I.
    + intros room o H. discriminate H.
  - right. left.
Defined.

(** ** Termination, and dead owners *)

Definition ops_left (pc : RoutePc) : nat :=
  match pc with
  | AtOwner n => 3 * (ROUTE_ATTEMPTS - n) + 2
  | AtAlive n _ => 3 * (ROUTE_ATTEMPTS - n) + 1
  | AtClaim n => 3 * (ROUTE_ATTEMPTS - n)
  | AtLastOwner => 2
  | AtLastAlive _ => 1
  | Routed _ => 0
  end.
Definition turn_ok (pc : RoutePc) : Prop :=
  match pc with AtOwner n | AtAlive n _ | AtClaim n => (n < ROUTE_ATTEMPTS)%nat | _ => True end.

Lemma route_step_progress ok g r : turn_ok (ro_pc r) -> let pc := (route_step ok g r).1 in
  turn_ok pc /\ (ops_left pc < ops_left (ro_pc r) \/ exists res, ro_pc r = Routed res)%nat.
Proof.
  intros Ht. assert (forall n, (n < ROUTE_ATTEMPTS)%nat ->
    turn_ok (after_turn n) /\ (ops_left (after_turn n) < 3 * (ROUTE_ATTEMPTS - n))%nat) as Hturn.
  { intros n Hn. unfold after_turn, ROUTE_ATTEMPTS in *. destruct (Nat.ltb_spec (S n) 8); cbn [turn_ok ops_left];
      unfold ROUTE_ATTEMPTS; split; try done; lia. }
  unfold route_step. cbv zeta.
  destruct (ro_pc r) as [n|n o|n| |o|res]; cbn [turn_ok] in Ht; [..|split; [done|right; by eexists]].
  all: repeat match goal with |- context [if ?c then _ else _] => destruct c
              | |- context [match rg_rooms ?g0 !! ?k with _ => _ end] => destruct (rg_rooms g0 !! k) end;
    cbn [fst turn_ok ops_left]; try (split; [done|left; unfold ROUTE_ATTEMPTS in *; lia]).
  all: destruct (Hturn n Ht); split; [done|left; lia].
Qed.

Lemma route_run_total fuel g r : turn_ok (ro_pc r) -> (ops_left (ro_pc r) <= fuel)%nat -> exists res, (route_run fuel g r).1 = Some res.
Proof.
  revert g r. induction fuel as [|fuel IH]; intros g r Ht Hf; cbn [route_run].
  - destruct (ro_pc r) eqn:E; cbn in Hf, Ht; unfold ROUTE_ATTEMPTS in *; try lia. by eexists.
  - pose proof (route_step_progress true g r Ht) as [Ht' Hp]. destruct (route_step true g r) as [pc g'] eqn:Es. cbn in Ht', Hp.
    destruct (ro_pc r) eqn:E; try (apply IH; cbn; [done|]; destruct Hp as [Hp|[res ?]]; [lia|done]). by eexists.
Qed.

(** A call among other nodes: before its [i]-th operation the registry is whatever the others
    left, and the operation succeeds or fails. *)
Fixpoint route_under (env : nat -> bool * Registry) (n : nat) (r : Router) : Router :=
  match n with
  | O => r
  | S n' => let '(ok, g) := env O in route_under (fun i => env (S i)) n' (with_pc (route_step ok g r).1 r)
  end.

Lemma route_under_done env n r : turn_ok (ro_pc r) -> (ops_left (ro_pc r) <= n)%nat ->
  exists res, ro_pc (route_under env n r) = Routed res.
Proof.
  revert env r. induction n as [|n IH]; intros env r Ht Hn; cbn [route_under].
  - destruct (ro_pc r) eqn:E; cbn in Hn, Ht; unfold ROUTE_ATTEMPTS in *; try lia. by eexists.
  - destruct (env 0%nat) as [ok g]. pose proof (route_step_progress ok g r Ht) as [Ht' Hp].
    apply IH; cbn [with_pc ro_pc]; [done|]. destruct Hp as [Hp|[res Hr]]; [lia|].
    unfold route_step. rewrite Hr. cbn. lia.
Qed.

(** C35: Routing returns.  Every call of [route_room] returns after at most 26 bus operations,
    also when operations fail and other nodes change the registry between any two of them. *)
Theorem route_room_terminates node room enabled :
  (forall g, exists res, (route_room node room enabled g).1 = Some res) /\
  (forall env, exists res, ro_pc (route_under env 26 (start_route node room enabled)) = Routed res).
Proof.
  split; [intros g; apply route_run_total|intros env; apply route_under_done]; cbn; unfold ROUTE_ATTEMPTS; lia.
Qed.

Lemma route_run_step fuel g r pc g' : (forall res, ro_pc r <> Routed res) -> route_step true g r = (pc, g') ->
  route_run (S fuel) g r = route_run fuel g' (with_pc pc r).
Proof. intros Hn Hs. cbn [route_run]. rewrite Hs. destruct (ro_pc r) as [| | | | |res]; try done. by destruct (Hn res). Qed.

(** A turn with a dead owner changes nothing. *)
Lemma dead_turn fuel g node room o n : rg_rooms g !! room = Some o -> o ∉ rg_alive g -> o <> node ->
  route_run (3 + fuel) g (mkRouter node true room (AtOwner n)) = route_run fuel g (mkRouter node true room (after_turn n)).
Proof.
  intros Ho Hd Hne. change (3 + fuel)%nat with (S (S (S fuel))).
  rewrite (route_run_step _ _ _ (AtAlive n o) g); [|done|].
  2: { unfold route_step. cbn [ro_pc ro_enabled ro_room ro_node negb]. by rewrite Ho, (proj2 (String.eqb_neq _ _)). }
  rewrite (route_run_step _ _ _ (AtClaim n) g); [|done|].
  2: { unfold route_step. cbn [with_pc ro_pc andb]. by rewrite bool_decide_false. }
  rewrite (route_run_step _ _ _ (after_turn n) g); [done|done|].
  unfold route_step. cbn [with_pc ro_pc andb ro_room]. by rewrite Ho.
Qed.

(** A dead owner is never replaced.  The claim uses [HSETNX], which fails while the dead
    node's entry is there: every live node that routes to the room then hosts it itself, and
    the registry keeps naming the dead node, so the room is split. *)
Theorem dead_owner_splits_room g room o node1 node2 : rg_rooms g !! room = Some o -> o ∉ rg_alive g ->
  o <> node1 -> o <> node2 -> node1 <> node2 ->
  route_room node1 room true g = (Some RLocal, g) /\ route_room node2 room true g = (Some RLocal, g).
Proof.
  intros Ho Hd H1 H2 _. assert (forall node, o <> node -> route_room node room true g = (Some RLocal, g)) as H; [|by auto].
  intros node Hne. unfold route_room, start_route. change 26%nat with (3 + (3 + (3 + (3 + (3 + (3 + (3 + (3 + 2))))))))%nat.
  do 8 (rewrite (dead_turn _ g node room o) by done; unfold after_turn at 1; cbn [Nat.ltb Nat.leb ROUTE_ATTEMPTS]).
  rewrite (route_run_step _ _ _ (AtLastAlive o) g); [|done|].
  2: { unfold route_step. cbn [ro_pc ro_room ro_node]. by rewrite Ho, (proj2 (String.eqb_neq _ _)). }
  rewrite (route_run_step _ _ _ (Routed RLocal) g); [done|done|].
  unfold route_step. cbn [with_pc ro_pc andb]. by rewrite bool_decide_false.
Qed.

Lemma dead_owner_splits_room_witness :
  route_room "A" "r1" true (mkRegistry {["r1" := "X"]} {["A"; "B"]}) = (Some RLocal, mkRegistry {["r1" := "X"]} {["A"; "B"]}) /\
  route_room "B" "r1" true (mkRegistry {["r1" := "X"]} {["A"; "B"]}) = (Some RLocal, mkRegistry {["r1" := "X"]} {["A"; "B"]}).
Proof.
  apply (dead_owner_splits_room (mkRegistry {["r1" := "X"]} {["A"; "B"]}) "r1" "X" "A" "B"); try discriminate; reflexivity.
Defined.
