(* ===== verification/Relay.v ===== *)
(** The signaling relay between nodes ([crates/lk-server/src/cluster.rs]): the transport of a
    remote session over two streams of the cluster bus, and its refinement of a queue. *)
From Stdlib Require Import ZArith Lia Ascii String.
From stdpp Require Import base gmap strings list option.
From S2P Require Import Prelude RustStr Cluster.

Open Scope string_scope.
Open Scope list_scope.
Open Scope Z_scope.

(** [fields.into_iter().collect()]: of equal names the last one stays. *)
Definition fields_map (f : Fields) : gmap string string := foldl (fun m kv => <[kv.1 := kv.2]> m) ∅ f.

Definition close_fields : Fields := [("kind", "close")].

Section Relay.
(** Signal requests and responses, in base64-coded protobuf. *)
Context {Req Resp : Type}.
Context (encode_req : Req -> string) (decode_req : string -> option Req).
Context (encode_resp : Resp -> string) (decode_resp : string -> option Resp).

Definition request_fields (req : Req) : Fields := [("kind", "request"); ("data", encode_req req)].
Definition response_fields (resp : Resp) : Fields := [("kind", "response"); ("data", encode_resp resp)].

(** * The hosting node *)

Record RelayIoReader := mkReader { rr_session_id : string; rr_last_id : string; rr_pending : list Req }.

Definition relay_reader (session_id : string) : RelayIoReader := mkReader session_id "$" [].

(** One entry of a batch: the reader, and whether a close was seen. *)
Definition on_entry (st : RelayIoReader * bool) (e : string * Fields) : RelayIoReader * bool :=
  let '(r, got_close) := st in
  let fields := fields_map e.2 in
  let r := mkReader (rr_session_id r) e.1 (rr_pending r) in
  match fields !! "kind" with
  | Some kind =>
      if (kind =? "close")%string then (r, true)
      else if (kind =? "request")%string then
        match fields !! "data" ≫= decode_req with
        | Some req => (mkReader (rr_session_id r) (rr_last_id r) (rr_pending r ++ [req]), got_close)
        | None => (r, got_close)
        end
      else (r, got_close)
  | None => (r, got_close)
  end.

(** What a turn of [next_request] yields: a request, the end of the session, or another turn. *)
Inductive Next := Got (req : Req) | Ended | Again.

(** A turn on the entries [xread_block] returned; [None] is a timeout or an error. *)
Definition on_read (entries : option (list (string * Fields))) (r : RelayIoReader) : Next * RelayIoReader :=
  match entries with
  | None => (Ended, r)
  | Some entries =>
      let '(r, got_close) := foldl on_entry (r, false) entries in
      if got_close then (Ended, r)
      else match rr_pending r with
           | req :: pending => (Got req, mkReader (rr_session_id r) (rr_last_id r) pending)
           | [] => (Again, r)
           end
  end.

(** [next_request] up to its first poll of the in-memory bus that finds entries; [Again] when
    it found none. *)
Definition next_request (b : MemInner) (r : RelayIoReader) : Next * (MemInner * RelayIoReader) :=
  match rr_pending r with
  | req :: pending => (Got req, (b, mkReader (rr_session_id r) (rr_last_id r) pending))
  | [] =>
      let '(entries, b) := xread_poll (relay_in (rr_session_id r)) (rr_last_id r) b in
      match entries with
      | [] => (Again, (b, r))
      | _ => let '(res, r) := on_read (Some entries) r in (res, (b, r))
      end
  end.

(** [RelayIoWriter]. *)
Definition writer_send (session_id : string) (resp : Resp) (b : MemInner) : MemInner :=
  xadd (relay_out session_id) (response_fields resp) b.
Definition writer_close (session_id : string) (b : MemInner) : MemInner := xadd (relay_out session_id) close_fields b.

(** * The node of the client *)

(** The start message. *)
Definition start_fields (session_id token params : string) : Fields :=
  [("kind", "start"); ("session_id", session_id); ("token", token); ("params", params)].
Definition relay_start (target session_id token params : string) (b : MemInner) : MemInner :=
  xadd (relay_ctrl target) (start_fields session_id token params) b.

(** The in-pump sends a request, and finally a close. *)
Definition pump_request (session_id : string) (req : Req) (b : MemInner) : MemInner :=
  xadd (relay_in session_id) (request_fields req) b.
Definition pump_close (session_id : string) (b : MemInner) : MemInner := xadd (relay_in session_id) close_fields b.

(** What the client's websocket yields: a frame that decodes to a request or does not, a ping or
    pong, a close, or nothing within the read timeout (or an error). *)
Inductive WsFrame := WsData (req : option Req) | WsPingPong | WsClose | WsGone.

(** The in-pump, until the first frame that ends it. *)
Fixpoint in_pump (session_id : string) (frames : list WsFrame) (b : MemInner) : MemInner :=
  match frames with
  | WsData (Some req) :: fs => in_pump session_id fs (pump_request session_id req b)
  | WsPingPong :: fs => in_pump session_id fs b
  | _ => b
  end.

(** [run_relay_client] on the bus. *)
Definition run_relay_client (target session_id token params : string) (frames : list WsFrame) (b : MemInner) : MemInner :=
  let b := relay_start target session_id token params b in
  let b := in_pump session_id frames b in
  let b := pump_close session_id b in
  del (relay_out session_id) (del (relay_in session_id) b).

(** What the out-consumer sends to the websocket for a batch of entries, and whether the
    session is closed; entries after a close are not looked at. *)
Inductive Frame := FrameResponse (resp : Resp) | FrameClose.
Fixpoint out_entries (entries : list (string * Fields)) : list Frame * bool :=
  match entries with
  | [] => ([], false)
  | e :: es =>
      let fields := fields_map e.2 in
      match fields !! "kind" with
      | Some kind =>
          if (kind =? "close")%string then ([FrameClose], true)
          else if (kind =? "response")%string then
            match decode_resp (default "" (fields !! "data")) with
            | Some resp => let '(frames, closed) := out_entries es in (FrameResponse resp :: frames, closed)
            | None => out_entries es
            end
          else out_entries es
      | None => out_entries es
      end
  end.

(** * The control stream *)

(** The sessions [run_relay_consumer] starts for a batch: session id, token and parameters;
    missing ones are empty or default. *)
Definition start_of (fields : Fields) : option (string * string * option string) :=
  let m := fields_map fields in
  match m !! "kind" with
  | Some kind => if (kind =? "start")%string
                 then Some (default "" (m !! "session_id"), default "" (m !! "token"), m !! "params") else None
  | None => None
  end.
Definition consume_ctrl (entries : list (string * Fields)) : list (string * string * option string) :=
  omap (fun e => start_of e.2) entries.

(** [run_remote_session]: an invalid token closes the session. *)
Definition run_remote_session {E T} (verify : string -> Result E T) (session_id token : string) (b : MemInner) : option T * MemInner :=
  match verify token with
  | Ok t => (Some t, b)
  | Err _ => (None, writer_close session_id b)
  end.
End Relay.

(** * Refinement of a queue *)

Section Fifo.
Context {Req : Type} (encode_req : Req -> string) (decode_req : string -> option Req).
(** Decoding inverts encoding. *)
Hypothesis decode_encode : forall r, decode_req (encode_req r) = Some r.
Variable session_id : string.

(** What happens on the request stream of a session before its end. *)
Inductive Op := Pump (req : Req) | Take.

Definition run_op (st : MemInner * @RelayIoReader Req) (op : Op) : option (@Next Req) * (MemInner * RelayIoReader) :=
  match op with
  | Pump req => (None, (pump_request encode_req session_id req st.1, st.2))
  | Take => let '(res, st) := next_request decode_req st.1 st.2 in (Some res, st)
  end.
Fixpoint run_ops (st : MemInner * RelayIoReader) (ops : list Op) : list (@Next Req) :=
  match ops with
  | [] => []
  | op :: ops' => let '(res, st) := run_op st op in
                  match res with Some r => r :: run_ops st ops' | None => run_ops st ops' end
  end.

(** The queue: requests come out in the order they went in. *)
Fixpoint queue_ops (q : list Req) (ops : list Op) : list (@Next Req) :=
  match ops with
  | [] => []
  | Pump req :: ops' => queue_ops (q ++ [req]) ops'
  | Take :: ops' => match q with [] => Again :: queue_ops [] ops' | r :: q' => Got r :: queue_ops q' ops' end
  end.

(** Entries numbered from [n + 1]. *)
Fixpoint numbered (n : Z) (l : list Req) : list (Z * Fields) :=
  match l with [] => [] | r :: l' => (n + 1, request_fields encode_req r) :: numbered (n + 1) l' end.

(** The reader holds the first requests, the stream the rest, with the ids that lead to the
    last one given, [m]. *)
Definition relay_ok (st : MemInner * RelayIoReader) (m : Z) (q : list Req) : Prop :=
  exists n queued, q = rr_pending st.2 ++ queued /\ rr_session_id st.2 = session_id /\
    default [] (mi_streams st.1 !! relay_in session_id) = numbered n queued /\
    default 0 (mi_next_id st.1 !! relay_in session_id) = m /\ m = n + Z.of_nat (length queued) /\
    0 <= n /\ parse_last (rr_last_id st.2) <= n.

Lemma numbered_app n l r : numbered n (l ++ [r]) = numbered n l ++ [(n + Z.of_nat (length l) + 1, request_fields encode_req r)].
Proof.
  revert n. induction l as [|x l IH]; intros n; cbn [app numbered length].
  - by replace (n + Z.of_nat 0) with n by lia.
  - rewrite IH. f_equal. f_equal. f_equal. f_equal. lia.
Qed.

Lemma parse_last_fmt id : 0 <= id < 2 ^ 64 -> parse_last (fmt_dec id) = id.
Proof.
  intros H. unfold parse_last. destruct (String.eqb_spec (fmt_dec id) "$") as [E|_].
  - exfalso. pose proof (fmt_pad_free_nonneg "$" 0 id ltac:(lia) eq_refl) as Hf. unfold fmt_dec in E. by rewrite E in Hf.
  - unfold fmt_dec. rewrite parse_fmt_pad by lia. done.
Qed.

Lemma request_map r : fields_map (request_fields encode_req r) !! "kind" = Some "request" /\
  fields_map (request_fields encode_req r) !! "data" = Some (encode_req r).
Proof. done. Qed.

(** A batch of requests: all are taken, in order. *)
Lemma on_entries_numbered last n l (r : @RelayIoReader Req) : last <= n -> 0 <= n -> n + Z.of_nat (length l) < 2 ^ 64 ->
  let entries := omap (fun '(id, fields) => if last <? id then Some (fmt_dec id, fields) else None) (numbered n l) in
  length entries = length l /\
  exists last', foldl (on_entry decode_req) (r, false) entries = (mkReader (rr_session_id r) last' (rr_pending r ++ l), false) /\
    (l <> [] -> last' = fmt_dec (n + Z.of_nat (length l))).
Proof.
  revert n r. induction l as [|x l IH]; intros n r Hl Hn Hb.
  - split; [done|]. exists (rr_last_id r). split; [|done]. rewrite app_nil_r. by destruct r.
  - cbn [numbered omap list_omap length] in *. rewrite (proj2 (Z.ltb_lt _ _)) by lia. cbn zeta.
    destruct (IH (n + 1) (mkReader (rr_session_id r) (fmt_dec (n + 1)) (rr_pending r ++ [x]))) as [Hlen (last' & Hf & Hlast)]; [lia..|].
    split; [cbn [length]; f_equal; exact Hlen|]. exists last'. cbn [foldl]. 
    assert (on_entry decode_req (r, false) (fmt_dec (n + 1), request_fields encode_req x) =
      (mkReader (rr_session_id r) (fmt_dec (n + 1)) (rr_pending r ++ [x]), false)) as ->.
    { unfold on_entry. cbn [fst snd]. destruct (request_map x) as [-> ->]. cbn. by rewrite decode_encode. }
    cbn [rr_session_id rr_pending] in Hf. rewrite <- app_assoc in Hf. split; [exact Hf|]. intros _.
    destruct l as [|y l]; [|rewrite (Hlast ltac:(done)); f_equal; cbn [length]; lia].
    cbn in Hf. by injection Hf as <-.
Qed.

Lemma relay_pump st m q req : relay_ok st m q -> relay_ok (pump_request encode_req session_id req st.1, st.2) (m + 1) (q ++ [req]).
Proof.
  intros (n & queued & -> & Hs & Hq & Hn & Hm & H0 & Hl). exists n, (queued ++ [req]). cbn [fst snd].
  split; [by rewrite app_assoc|]. split; [done|]. unfold pump_request, xadd, next. cbv zeta.
  cbn [mi_streams mi_next_id]. rewrite !lookup_insert_eq. cbn [default from_option id].
  split_and!; [|lia|rewrite length_app; cbn [length]; lia|done|done]. rewrite Hq, numbered_app, Hn, Hm. done.
Qed.

Lemma relay_take st m q : relay_ok st m q -> m < 2 ^ 64 ->
  exists st', next_request decode_req st.1 st.2 = (match q with [] => Again | r :: _ => Got r end, st') /\ relay_ok st' m (tail q).
Proof.
  intros (n & queued & -> & Hs & Hq & Hn & Hm & H0 & Hl) Hb. destruct st as [b [sid last pending]].
  cbn [fst snd rr_pending rr_session_id rr_last_id] in *. subst sid.
  unfold next_request. cbn [rr_pending rr_session_id rr_last_id]. destruct pending as [|p pending].
  - unfold xread_poll. destruct (mi_streams b !! relay_in session_id) as [l|] eqn:El.
    + change (l = numbered n queued) in Hq. subst l.
      destruct (on_entries_numbered (parse_last last) n queued (mkReader session_id last [])) as [Hlen (last' & Hf & Hlast)]; [done|done|lia|].
      destruct queued as [|x queued].
      * eexists. split; [reflexivity|]. exists n, []. cbn. rewrite lookup_insert_eq. done.
      * cbv zeta in Hlen, Hf. destruct (omap _ _) as [|e es] eqn:Ee; [cbn in Hlen; lia|].
        unfold on_read. rewrite Hf. cbn [rr_pending app rr_session_id rr_last_id].
        eexists. split; [done|]. exists m, []. cbn [fst snd rr_pending rr_session_id rr_last_id mi_streams mi_next_id].
        rewrite lookup_insert_eq, app_nil_r. split_and!; [done|done|done|done|cbn; lia|lia|].
        rewrite (Hlast ltac:(done)), <- Hm, parse_last_fmt; lia.
    + destruct queued as [|x queued]; [|done]. eexists. split; [reflexivity|]. exists n, [].
      cbn [fst snd rr_pending rr_session_id rr_last_id]. rewrite El. by split_and!.
  - eexists. split; [done|]. exists n, queued. done.
Qed.

Lemma run_ops_queue ops st m q : relay_ok st m q -> m + Z.of_nat (length ops) < 2 ^ 64 -> run_ops st ops = queue_ops q ops.
Proof.
  revert st m q. induction ops as [|[req|] ops IH]; intros st m q Hok Hb; cbn [run_ops queue_ops run_op length] in *; [done|..].
  - apply (IH _ (m + 1)); [by apply relay_pump|lia].
  - destruct (relay_take st m q Hok) as (st' & -> & Hok'); [lia|].
    rewrite (IH st' m (tail q)); [by destruct q|done|lia].
Qed.

(** C23: The relay is a queue.  For every interleaving of requests a client's node relays and
    reads by the hosting node, on the in-memory bus, the reads yield exactly the requests in
    the order they were sent, each once, none lost; a read before anything was sent waits.
    (Fewer than 2^64 operations, the range of the stream ids.) *)
Theorem relay_refines_queue b ops : mi_streams b !! relay_in session_id = None -> mi_next_id b !! relay_in session_id = None ->
  Z.of_nat (length ops) < 2 ^ 64 -> run_ops (b, relay_reader session_id) ops = queue_ops [] ops.
Proof.
  intros H1 H2 Hb. apply (run_ops_queue ops _ 0); [|lia]. exists 0, [].
  cbn [fst snd rr_pending rr_session_id rr_last_id relay_reader]. rewrite H1, H2. by split_and!.
Qed.

(** A close overtakes requests.  When the close of a session arrives in the same batch as
    requests sent before it, reading ends at once and these requests are never handed to the
    session. *)
Theorem close_drops_requests reqs (r : @RelayIoReader Req) last : Z.of_nat (length reqs) < 2 ^ 64 - 1 ->
  (on_read decode_req (Some (omap (fun '(id, fields) => if 0 <? id then Some (fmt_dec id, fields) else None) (numbered 0 reqs) ++ [(last, close_fields)])) r).1 = Ended.
Proof.
  intros Hb. unfold on_read. rewrite foldl_app.
  destruct (on_entries_numbered 0 0 reqs r) as [_ (last' & -> & _)]; [lia..|]. done.
Qed.
End Fifo.

Lemma relay_refines_queue_witness :
  run_ops (fun s => s) Some "c1" (MemInner_default, relay_reader "c1") [Pump "join"; Take; Pump "mute"; Pump "leave"; Take; Take; Take] =
  [Got "join"; Got "mute"; Got "leave"; Again].
Proof.
  refine (relay_refines_queue (fun s => s) Some (fun _ => eq_refl) "c1" MemInner_default
    [Pump "join"; Take; Pump "mute"; Pump "leave"; Take; Take; Take] eq_refl eq_refl _). reflexivity.
Defined.

Lemma close_drops_requests_witness :
  (on_read Some (Some (omap (fun '(id, fields) => if 0 <? id then Some (fmt_dec id, fields) else None)
     (numbered (fun s => s) 0 ["mute"; "leave"]) ++ [("3", close_fields)])) (relay_reader "c1")).1 = Ended.
Proof.
  refine (close_drops_requests (fun s => s) Some (fun _ => eq_refl) ["mute"; "leave"] (relay_reader "c1") "3" _).
  reflexivity.
Defined.

(** An idle session on the in-memory bus ends with the first read that times out. *)
Lemma idle_relay_ends {Req} decode (r : @RelayIoReader Req) : (on_read decode None r).1 = Ended.
Proof. done. Qed.
