(* ===== verification/RedisRelay.v ===== *)
(** The relay of a signaling session over Redis, [crates/lk-server/src/cluster.rs]: the reader of
    [Relay] on a stream that is read with [XREAD BLOCK], where [$] stands for the last entry at the
    time of the call, and what it delivers. *)
From Stdlib Require Import ZArith Lia Ascii String.
From stdpp Require Import base gmap strings list option pretty.
From S2P Require Import Prelude RustStr Cluster Relay.

Open Scope string_scope.
Open Scope list_scope.

(** What Redis promises about a stream: [xread n stream last] is what a blocking read returns that
    was called with [n] entries in the stream and returned with those of [stream]. *)
Class RedisStreams := {
  id_of : nat -> string;
  xread : nat -> list Fields -> string -> list (string * Fields);
}.
Definition listed `{RedisStreams} (k : nat) (l : list Fields) : list (string * Fields) := imap (fun i f => (id_of (k + i), f)) l.
Class RedisLaws `{RedisStreams} : Prop := {
  id_dollar k : id_of k <> "$";
  xread_dollar n stream : xread n stream "$" = listed n (drop n stream);
  xread_after n stream k : (k < length stream)%nat -> xread n stream (id_of k) = listed (S k) (drop (S k) stream);
}.

Section Reading.
Context `{RedisLaws} {Req : Type} (encode_req : Req -> string) (decode_req : string -> option Req).
Hypothesis decode_encode : forall r, decode_req (encode_req r) = Some r.
Variable session_id : string.

(** A turn of the reader: the requests relayed since its last read, and those relayed while it
    blocks, none if it times out. *)
Definition Turn : Type := list Req * list Req.

(** What the session is handed: after a read, all it found, one by one, before the next read. *)
Fixpoint redis_run (turns : list Turn) (stream : list Req) (r : @RelayIoReader Req) : list Req :=
  match turns with
  | [] => []
  | (before, during) :: turns =>
      let called := stream ++ before in
      let returned := called ++ during in
      let r := (foldl (on_entry decode_req) (r, false) (xread (length called) (request_fields encode_req <$> returned) (rr_last_id r))).1 in
      rr_pending r ++ redis_run turns returned (mkReader (rr_session_id r) (rr_last_id r) [])
  end.

Definition relayed (turns : list Turn) : list Req := turns ≫= (fun t => t.1 ++ t.2).
(** How many requests were relayed before the call of the first read that found any. *)
Fixpoint missed (turns : list Turn) : nat :=
  match turns with
  | [] => 0
  | (before, []) :: turns => length before + missed turns
  | (before, _) :: _ => length before
  end.

Lemma listed_cons k f l : listed k (f :: l) = (id_of k, f) :: listed (S k) l.
Proof using Type.
  unfold listed. cbn [imap]. f_equal; [by rewrite Nat.add_0_r|]. apply imap_ext. intros i x _. cbn. by rewrite Nat.add_succ_r.
Qed.

(** A batch of requests is taken in order, and the reader is left at its last entry. *)
Lemma read_batch l : forall k (r : @RelayIoReader Req),
  foldl (on_entry decode_req) (r, false) (listed k (request_fields encode_req <$> l)) =
  (mkReader (rr_session_id r) (if decide (l = []) then rr_last_id r else id_of (k + length l - 1)) (rr_pending r ++ l), false).
Proof using decode_encode.
  induction l as [|x l IH]; intros k r; [cbn; rewrite app_nil_r; by destruct r|].
  rewrite fmap_cons, listed_cons. cbn [foldl].
  assert (on_entry decode_req (r, false) (id_of k, request_fields encode_req x) = (mkReader (rr_session_id r) (id_of k) (rr_pending r ++ [x]), false)) as ->.
  { unfold on_entry. cbn [fst snd]. change (fields_map (request_fields encode_req x) !! "kind") with (Some "request").
    change (fields_map (request_fields encode_req x) !! "data") with (Some (encode_req x)). cbn. by rewrite decode_encode. }
  rewrite IH. cbn [rr_session_id rr_last_id rr_pending]. rewrite <- app_assoc. do 2 f_equal.
  destruct (decide (x :: l = [])); [done|]. destruct (decide (l = [])) as [->|Hne]; cbn [length].
  - f_equal. lia.
  - f_equal. destruct l; [done|cbn [length]; lia].
Qed.

(** Once the reader stands at an entry it misses nothing. *)
Lemma redis_run_after turns : forall stream k sid, length stream = S k ->
  redis_run turns stream (mkReader sid (id_of k) []) = relayed turns.
Proof using Type*.
  induction turns as [|[before during] turns IH]; intros stream k sid Hk; [done|]. cbn [redis_run rr_last_id].
  rewrite xread_after by (rewrite length_fmap, !length_app; lia).
  rewrite <- fmap_drop. replace (drop (S k) ((stream ++ before) ++ during)) with (before ++ during)
    by (rewrite <- app_assoc, <- Hk; by rewrite drop_app_length).
  rewrite read_batch. cbn [fst rr_pending rr_session_id rr_last_id app]. unfold relayed. cbn [mbind list_bind fst snd]. f_equal.
  destruct (decide (before ++ during = [])) as [E|E].
  - apply app_eq_nil in E as [-> ->]. rewrite !app_nil_r. by apply IH.
  - rewrite <- app_assoc. replace (S k + length (before ++ during) - 1)%nat with (k + length (before ++ during))%nat by lia.
    apply IH. rewrite length_app. lia.
Qed.

Lemma redis_run_dollar turns : forall stream sid,
  redis_run turns stream (mkReader sid "$" []) = drop (missed turns) (relayed turns).
Proof using Type*.
  induction turns as [|[before during] turns IH]; intros stream sid; [done|]. cbn [redis_run rr_last_id missed].
  rewrite xread_dollar, <- fmap_drop, drop_app_length, read_batch. cbn [fst rr_pending rr_session_id rr_last_id app].
  unfold relayed. cbn [mbind list_bind fst snd]. fold (relayed turns). destruct during as [|x during].
  - cbn [app decide decide_rel]. destruct (decide ([] = [])); [|done]. rewrite IH, app_nil_r. by rewrite drop_app_add.
  - destruct (decide (x :: during = [])); [done|]. rewrite redis_run_after by (rewrite !length_app; cbn [length]; lia).
    by rewrite <- app_assoc, drop_app_length.
Qed.

(** What a relayed session gets over Redis: exactly the requests relayed after the call of its first
    read that found something, each once and in order; every request relayed before that call is
    lost, those between two reads that timed out included. *)
Theorem redis_relay_delivers turns :
  redis_run turns [] (relay_reader session_id) = drop (missed turns) (relayed turns).
Proof using Type*. apply redis_run_dollar. Qed.
End Reading.

(** * A stream as Redis has it *)

Definition redis_id (k : nat) : string := pretty k +:+ "-0".
Definition redis_xread (n : nat) (stream : list Fields) (last : string) : list (string * Fields) :=
  let from := if (last =? "$")%string then Some n else S <$> (list_find (fun k => redis_id k = last) (seq 0 (length stream)) ≫= (fun p => Some p.2)) in
  match from with Some k => imap (fun i f => (redis_id (k + i), f)) (drop k stream) | None => [] end.
#[global] Instance redis_streams : RedisStreams := {| id_of := redis_id; xread := redis_xread |}.


Lemma redis_id_inj j k : redis_id j = redis_id k -> j = k.
Proof.
  unfold redis_id. intros E. apply (inj (pretty (A := nat))). revert E. generalize (pretty j) (pretty k). intros a b.
  revert b. induction a as [|x a IH]; intros [|y b] E; cbn in E; try done.
  - destruct b as [|z [|]]; cbn in E; injection E as <- E; try done; by destruct b.
  - destruct a as [|z [|]]; cbn in E; injection E as -> E; try done; by destruct a.
  - injection E as -> E. f_equal. by apply IH.
Qed.

#[global] Instance redis_laws : RedisLaws.
Proof.
  split.
  - intros k E. assert (String.length (redis_id k) = 1%nat) as Hl by (by cbn in E; rewrite E).
    unfold redis_id in Hl. revert Hl. generalize (pretty k). intros s. destruct s as [|c [|c' s]]; cbn; lia.
  - intros n stream. done.
  - intros n stream k Hk. cbn [xread redis_streams id_of]. unfold redis_xread.
    destruct (String.eqb_spec (redis_id k) "$") as [E|_].
    { exfalso. assert (String.length (redis_id k) = 1%nat) as Hl by (by rewrite E). unfold redis_id in Hl. revert Hl.
      generalize (pretty k). intros s. destruct s as [|c [|c' s]]; cbn; lia. }
    assert (list_find (fun j => redis_id j = redis_id k) (seq 0 (length stream)) = Some (k, k)) as ->; [|done].
    apply list_find_Some. split_and!; [by apply lookup_seq|done|]. intros j y Hj Hlt E. apply redis_id_inj in E. apply lookup_seq in Hj. lia.
Qed.

Example first_requests_lost :
  redis_run (fun s => s) Some [(["offer"; "mute"], ["trickle"]); (["leave"], [])] [] (relay_reader "c1") = ["trickle"; "leave"].
Proof. reflexivity. Qed.
