(* ===== verification/RelayOut.v ===== *)
(** The way back of the relay, [crates/lk-server/src/cluster.rs]: the hosting node writes responses to
    a stream ([RelayIoWriter]) and the node of the client forwards them to its websocket (the
    out-consumer of [run_relay_client]), on the in-memory bus. *)
From Stdlib Require Import ZArith Lia Ascii String.
From stdpp Require Import base gmap strings list option.
From S2P Require Import Prelude RustStr Cluster Relay.

Open Scope string_scope.
Open Scope list_scope.
Open Scope Z_scope.

Section Out.
Context {Resp : Type} (encode_resp : Resp -> string) (decode_resp : string -> option Resp).
Hypothesis decode_encode : forall r, decode_resp (encode_resp r) = Some r.
Variable session_id : string.

(** The out-consumer: the id it reads from, and whether it has returned. *)
Record OutConsumer := mkOut { oc_last_id : string; oc_returned : bool }.
Definition out_start : OutConsumer := mkOut "0" false.

(** A turn: a poll of the stream; its ids move on, its frames go to the websocket, which accepts
    them, and a close ends it. *)
Definition out_poll (b : MemInner) (c : OutConsumer) : list (@Frame Resp) * (MemInner * OutConsumer) :=
  if oc_returned c then ([], (b, c))
  else
    let '(entries, b) := xread_poll (relay_out session_id) (oc_last_id c) b in
    let '(frames, closed) := out_entries decode_resp entries in
    (frames, (b, mkOut (foldl (fun _ e => e.1) (oc_last_id c) entries) closed)).

(** What happens on the response stream. *)
Inductive OutOp := Put (resp : Resp) | PutClose | Poll.
Definition out_op (st : MemInner * OutConsumer) (op : OutOp) : list Frame * (MemInner * OutConsumer) :=
  match op with
  | Put resp => ([], (writer_send encode_resp session_id resp st.1, st.2))
  | PutClose => ([], (writer_close session_id st.1, st.2))
  | Poll => out_poll st.1 st.2
  end.
Fixpoint run_out (st : MemInner * OutConsumer) (ops : list OutOp) : list Frame :=
  match ops with [] => [] | op :: ops => let '(fs, st) := out_op st op in fs ++ run_out st ops end.

(** ** The specification: a queue of responses and closes *)

Fixpoint until_close (q : list Frame) : list (@Frame Resp) * bool :=
  match q with
  | [] => ([], false)
  | FrameClose :: _ => ([FrameClose], true)
  | f :: q => let '(l, c) := until_close q in (f :: l, c)
  end.
Fixpoint queue_out (q : list Frame) (returned : bool) (ops : list OutOp) : list (@Frame Resp) :=
  match ops with
  | [] => []
  | Put resp :: ops => queue_out (q ++ [FrameResponse resp]) returned ops
  | PutClose :: ops => queue_out (q ++ [FrameClose]) returned ops
  | Poll :: ops =>
      if returned then queue_out q true ops
      else let '(l, c) := until_close q in l ++ queue_out [] c ops
  end.

(** ** Refinement *)

Definition frame_fields (f : @Frame Resp) : Fields := match f with FrameResponse r => response_fields encode_resp r | FrameClose => close_fields end.

Fixpoint stamped (n : Z) (l : list (@Frame Resp)) : list (Z * Fields) :=
  match l with [] => [] | f :: l => (n + 1, frame_fields f) :: stamped (n + 1) l end.

Lemma stamped_app n l f : stamped n (l ++ [f]) = stamped n l ++ [(n + Z.of_nat (length l) + 1, frame_fields f)].
Proof using Type.
  revert n. induction l as [|x l IH]; intros n; cbn [app stamped length].
  - by replace (n + Z.of_nat 0) with n by lia.
  - rewrite IH. do 4 f_equal. lia.
Qed.

(** All queued entries are returned, with the id of the last. *)
Lemma poll_stamped last n l : last <= n -> 0 <= n ->
  let entries := omap (fun '(id, fields) => if last <? id then Some (fmt_dec id, fields) else None) (stamped n l) in
  out_entries decode_resp entries = until_close l /\
  forall d, foldl (fun _ e => e.1) d entries = if decide (l = []) then d else fmt_dec (n + Z.of_nat (length l)).
Proof using decode_encode.
  revert n. induction l as [|x l IH]; intros n Hl Hn; [done|].
  cbn [stamped omap list_omap]. rewrite (proj2 (Z.ltb_lt _ _)) by lia. cbn zeta.
  destruct (IH (n + 1)) as [H1 H2]; [lia..|]. split.
  - cbn [out_entries fst snd until_close]. destruct x as [r|]; cbn [frame_fields]; [|reflexivity].
    change (fields_map (response_fields encode_resp r) !! "kind") with (Some "response").
    change (fields_map (response_fields encode_resp r) !! "data") with (Some (encode_resp r)). cbn [String.eqb Ascii.eqb Bool.eqb default from_option id].
    rewrite decode_encode. cbv zeta in H1. by rewrite H1.
  - intros d. cbn [foldl]. cbv zeta in H2. rewrite H2. destruct (decide (x :: l = [])); [done|].
    destruct (decide (l = [])) as [->|]; cbn [length fst]; f_equal; lia.
Qed.

Definition out_ok (st : MemInner * OutConsumer) (q : list Frame) (m : Z) : Prop :=
  exists n, default [] (mi_streams st.1 !! relay_out session_id) = stamped n q /\
    default 0 (mi_next_id st.1 !! relay_out session_id) = m /\ m = n + Z.of_nat (length q) /\ 0 <= n /\
    (oc_returned st.2 = false -> parse_last (oc_last_id st.2) <= n).

Lemma out_put st q m f : out_ok st q m -> out_ok (xadd (relay_out session_id) (frame_fields f) st.1, st.2) (q ++ [f]) (m + 1).
Proof using Type.
  intros (n & Hq & Hm & Hn & H0 & Hl). exists n. cbn [fst snd]. unfold xadd, next. cbv zeta.
  cbn [mi_streams mi_next_id]. rewrite !lookup_insert_eq. cbn [default from_option id].
  split_and!; [|lia|rewrite length_app; cbn [length]; lia|done|done]. rewrite Hq, stamped_app, Hm, Hn. done.
Qed.

Lemma out_poll_ok st q m : out_ok st q m -> m < 2 ^ 64 -> oc_returned st.2 = false ->
  exists st', out_poll st.1 st.2 = ((until_close q).1, st') /\ out_ok st' [] m /\ oc_returned st'.2 = (until_close q).2.
Proof using decode_encode.
  intros (n & Hq & Hm & Hn & H0 & Hl) Hb Hr. destruct st as [b [last ret]]. cbn [fst snd oc_returned oc_last_id] in *. subst ret.
  specialize (Hl eq_refl). unfold out_poll. cbn [oc_returned oc_last_id]. unfold xread_poll.
  destruct (mi_streams b !! relay_out session_id) as [l|] eqn:El.
  - change (l = stamped n q) in Hq. subst l. destruct (poll_stamped (parse_last last) n q Hl H0) as [H1 H2]. cbv zeta in H1, H2.
    rewrite H1, H2. destruct (until_close q) as [fs c]. eexists. split; [done|]. split; [|done]. exists m.
    cbn [fst snd mi_streams mi_next_id oc_returned oc_last_id]. rewrite lookup_insert_eq. split_and!; [done|done|cbn; lia|lia|].
    intros _. destruct (decide (q = [])) as [->|]; [cbn in Hn; lia|]. rewrite <- Hn, parse_last_fmt; lia.
  - destruct q as [|f q]; [|done]. cbn [out_entries until_close fst snd foldl]. eexists. split; [done|]. split; [|done]. exists m.
    cbn [fst snd oc_returned oc_last_id]. rewrite El. cbn [length] in Hn. split_and!; [done|done|cbn; lia|lia|]. intros _. lia.
Qed.

Lemma run_out_queue ops : forall st q m, out_ok st q m -> m + Z.of_nat (length ops) < 2 ^ 64 ->
  run_out st ops = queue_out q (oc_returned st.2) ops.
Proof using decode_encode.
  induction ops as [|[resp| |] ops IH]; intros st q m Hok Hb; cbn [run_out queue_out out_op length] in *; [done|..].
  - cbn [app]. rewrite (IH _ (q ++ [FrameResponse resp]) (m + 1)); [done|by apply (out_put st q m (FrameResponse resp))|lia].
  - cbn [app]. rewrite (IH _ (q ++ [FrameClose]) (m + 1)); [done|by apply (out_put st q m FrameClose)|lia].
  - destruct (oc_returned st.2) eqn:Er.
    + unfold out_poll. rewrite Er. cbn [app]. rewrite (IH _ q m) by (try lia; by destruct st). cbn [snd]. by rewrite Er.
    + destruct (out_poll_ok st q m Hok) as (st' & -> & Hok' & Hc); [lia|done|]. destruct (until_close q) as [fs c]. cbn [fst snd] in *.
      f_equal. rewrite (IH st' [] m Hok') by lia. by rewrite Hc.
Qed.

(** Responses come back in order.  For every interleaving of what the hosting node writes and of the
    reads of the client's node, on the in-memory bus, the websocket gets exactly the responses
    written before the reads, in order and each once, whether they were written before or after
    reading began; a close is passed on once and nothing after it. *)
Theorem relay_responses_in_order b ops : mi_streams b !! relay_out session_id = None -> mi_next_id b !! relay_out session_id = None ->
  Z.of_nat (length ops) < 2 ^ 64 -> run_out (b, out_start) ops = queue_out [] false ops.
Proof using decode_encode.
  intros H1 H2 Hb. apply (run_out_queue ops (b, out_start) [] 0); [|lia]. exists 0. cbn [fst snd out_start oc_returned oc_last_id].
  rewrite H1, H2. by split_and!.
Qed.
End Out.

Example out_run :
  run_out (fun s => s) Some "c1" (MemInner_default, out_start) [Put "join"; Poll; Put "update"; Put "leave"; PutClose; Put "late"; Poll; Poll] =
  [FrameResponse "join"; FrameResponse "update"; FrameResponse "leave"; FrameClose].
Proof. reflexivity. Qed.
