(* ===== verification/Http.v ===== *)
(** The HTTP surface, [crates/lk-server/src/http.rs]: authentication, the routing of Twirp calls
    to the services, and the admission of signaling connections.  The services, the room store
    and token verification are those of the other files; message codecs, base64 and gzip are
    parameters, and so are the SIP and egress services, whose methods are in [SipService] and
    [SipCalls]. *)
From Stdlib Require Import ZArith Lia Ascii String.
From stdpp Require Import base gmap strings list option.
From S2P Require Import Prelude RustStr Core Track Auth Twirp Config Proto Participant Room Signal RoomService Agent AgentService Cluster.

Open Scope string_scope.
Open Scope list_scope.
Open Scope Z_scope.

(** * Requests *)

(** Headers that are present and readable as text. *)
Record HttpRequest := mkHttp {
  hq_authorization : option string; hq_content_type : option string; hq_query : gmap string string; hq_body : list Z;
}.

(** [trim_start_matches(p)]: the prefix as often as it is there. *)
Fixpoint trim_start_matches_fuel (fuel : nat) (p s : string) : string :=
  match fuel with
  | O => s
  | S fuel => match strip_prefix p s with Some s' => trim_start_matches_fuel fuel p s' | None => s end
  end.
Definition trim_start_matches (p s : string) : string := trim_start_matches_fuel (String.length s) p s.

(** * Authentication *)

Definition auth_error (e : AuthError) : TwirpError :=
  match e with
  | MissingAuthorization => (unauthenticated, "missing authorization")
  | InvalidAuthorization => (unauthenticated, "invalid authorization")
  | InvalidApiKey => (unauthenticated, "invalid api key")
  | InvalidToken msg => (unauthenticated, msg)
  end.

(** The token a request presents: the trimmed header, when it is not blank, or the parameter;
    without its [Bearer] prefix. *)
Definition presented_token (authorization : option string) (params : gmap string string) : option string :=
  let header := authorization ≫= (fun v => if (trim v =? "")%string then None else Some (trim v)) in
  (fun token => match bearer_token (Some token) with Ok t => t | Err _ => token end) <$> or_else header (params !! "access_token").

(** The token a relayed session is started with. *)
Definition raw_token (authorization : option string) (params : gmap string string) : string :=
  match authorization with
  | Some v => trim_start_matches "Bearer " (trim v)
  | None => default "" (params !! "access_token")
  end.

Section Http.
(** [server.keys.verify]. *)
Context (verify : string -> Result AuthError VerifiedToken).

Definition authenticate (authorization : option string) (params : gmap string string) : Result TwirpError VerifiedToken :=
  match presented_token authorization params with
  | None => Err (unauthenticated, "missing authorization")
  | Some token => map_err auth_error (verify token)
  end.

(** * Twirp *)

(** The messages with their generated codecs. *)
Context `{!WireMessage CreateRoomRequest, !WireMessage (list string), !WireMessage string, !WireMessage RoomParticipantIdentity,
          !WireMessage MuteRoomTrackRequest, !WireMessage UpdateParticipantRequest, !WireMessage UpdateSubscriptionsRequest,
          !WireMessage SendDataRequest, !WireMessage (string * string), !WireMessage CreateAgentDispatchRequest, !WireMessage DispatchQuery,
          !WireMessage RoomInfo, !WireMessage (list RoomInfo), !WireMessage (list ParticipantInfo), !WireMessage ParticipantInfo,
          !WireMessage TrackInfo, !WireMessage unit, !WireMessage DispatchInfo, !WireMessage (list DispatchInfo)}.

(** The method names of [livekit.RoomService]. *)
Definition room_call (method : string) (body : list Z) (format : WireFormat) : RoomCall :=
  if (method =? "CreateRoom")%string then CreateRoom (parse_body body format)
  else if (method =? "ListRooms")%string then ListRooms (parse_body body format)
  else if (method =? "DeleteRoom")%string then DeleteRoom (parse_body body format)
  else if (method =? "ListParticipants")%string then ListParticipants (parse_body body format)
  else if (method =? "GetParticipant")%string then GetParticipant (parse_body body format)
  else if (method =? "RemoveParticipant")%string then RemoveParticipant (parse_body body format)
  else if (method =? "MutePublishedTrack")%string then MutePublishedTrack (parse_body body format)
  else if (method =? "UpdateParticipant")%string then UpdateParticipant (parse_body body format)
  else if (method =? "UpdateSubscriptions")%string then UpdateSubscriptions (parse_body body format)
  else if (method =? "SendData")%string then SendData (parse_body body format)
  else if (method =? "UpdateRoomMetadata")%string then UpdateRoomMetadata (parse_body body format)
  else if existsb (String.eqb method) ["ForwardParticipant"; "MoveParticipant"; "PerformRpc"] then UnsupportedMethod
  else UnknownMethod method.

Definition write_room_reply (format : WireFormat) (r : RoomReply) : Result TwirpError (list Z) :=
  match r with
  | ReplyRoom r => write_body r format
  | ReplyRooms l => write_body l format
  | ReplyParticipants l => write_body l format
  | ReplyParticipant p => write_body p format
  | ReplyTrack t => write_body t format
  | ReplyEmpty => write_body tt format
  end.

Definition dispatch_call (method : string) (body : list Z) (format : WireFormat) : DispatchCall :=
  if (method =? "CreateDispatch")%string then CreateDispatch (parse_body body format)
  else if (method =? "DeleteDispatch")%string then DeleteDispatch (parse_body body format)
  else if (method =? "ListDispatch")%string then ListDispatch (parse_body body format)
  else UnknownDispatchMethod method.

Definition write_dispatch_reply (format : WireFormat) (r : DispatchReply) : Result TwirpError (list Z) :=
  match r with ReplyDispatch d => write_body d format | ReplyDispatches l => write_body l format end.

(** The state behind the services; that of SIP and egress is [X]. *)
Context {X : Type}.
Record ServerState := mkServer { sv_api : Api; sv_agents : DispatchState; sv_other : X }.
Context (sip_service egress_service : string -> VerifiedToken -> list Z -> WireFormat -> Handler X (list Z)).
(** A SIP or egress call, on its part of the state. *)
Definition on_other (h : Handler X (list Z)) : Handler ServerState (list Z) := fun st =>
  let '(r, x) := h (sv_other st) in (r, mkServer (sv_api st) (sv_agents st) x).

(** What a call draws: the location and id of a new room, the id of a new dispatch, the clock. *)
Record CallDraws := mkCallDraws { dw_room : loc; dw_room_sid : string; dw_dispatch : string; dw_now : Z }.

Definition dispatch_twirp (lim : LimitConfig) (limits : option (Z * Z * Z)) (dw : CallDraws) (service method : string)
    (token : VerifiedToken) (body : list Z) (format : WireFormat) : Handler ServerState (list Z) := fun st =>
  if (service =? "livekit.RoomService")%string then
    let '(r, api) := room_service lim limits (dw_room dw) (dw_room_sid dw) token (room_call method body format) (sv_api st) in
    (match r with Ok reply => write_room_reply format reply | Err e => Err e end, mkServer api (sv_agents st) (sv_other st))
  else if (service =? "livekit.AgentDispatchService")%string then
    let rooms name := (fun rl => room_info rl (sv_api st).1) <$> get_room name (sv_api st).1 in
    let '(r, agents) := agent_dispatch_service rooms (dw_dispatch dw) (dw_now dw) token (dispatch_call method body format) (sv_agents st) in
    (match r with Ok reply => write_dispatch_reply format reply | Err e => Err e end, mkServer (sv_api st) agents (sv_other st))
  else if (service =? "livekit.SIP")%string then on_other (sip_service method token body format) st
  else if (service =? "livekit.Egress")%string then on_other (egress_service method token body format) st
  else (Err (not_found, "service not found: " +:+ service), st).

Definition twirp_handler (lim : LimitConfig) (limits : option (Z * Z * Z)) (dw : CallDraws) (service method : string)
    (req : HttpRequest) (st : ServerState) : Response * ServerState :=
  match format_from (hq_content_type req) with
  | Err e => (into_response e, st)
  | Ok format =>
      match authenticate (hq_authorization req) (hq_query req) with
      | Err e => (into_response e, st)
      | Ok token =>
          let '(r, st) := dispatch_twirp lim limits dw service method token (hq_body req) format st in
          (match r with Ok bytes => mkResponse 200 (content_type_of format) (BytesBody bytes) | Err e => into_response e end, st)
      end
  end.

(** * Signaling connections *)

(** A flag parameter. *)
Definition flag (params : gmap string string) (name : string) (absent : bool) : bool :=
  match params !! name with Some v => (v =? "1")%string || (v =? "true")%string | None => absent end.

(** [join_request] of [/rtc/v1]; the offer and the sync state are not part of the session model. *)
Record JoinRequest := mkJoinRequest {
  jr_reconnect : bool; jr_participant_sid : string; jr_metadata : string; jr_attributes : gmap string string;
  jr_add_track_requests : list AddTrackRequest; jr_auto_subscribe : option bool;
}.
(** A [WrappedJoinRequest]: whether it is compressed with gzip, and its payload. *)
Record WrappedJoinRequest := mkWrapped { wj_gzip : bool; wj_payload : list Z }.

Context (b64_decode : string -> option (list Z)) (decode_wrapped : list Z -> option WrappedJoinRequest)
        (gunzip : nat -> list Z -> option (list Z)) (decode_join : list Z -> option JoinRequest).

Definition server_limit : nat := Z.to_nat (2 * 1024 * 1024).

(** [gunzip n bytes] reads at most [n] bytes of the decompressed payload. *)
Definition join_payload (w : WrappedJoinRequest) : Result TwirpError (list Z) :=
  if wj_gzip w then
    out ← ok_or (gunzip (S server_limit) (wj_payload w)) (invalid_argument, "failed to decompress join request");
    if (server_limit <? length out)%nat then Err (invalid_argument, "join request too large") else Ok out
  else Ok (wj_payload w).

Definition build_session_params (params : gmap string string) (is_v1 : bool) : Result TwirpError SessionParams :=
  let session := mkParams (flag params "reconnect" false) (default "" (params !! "sid")) (flag params "auto_subscribe" true)
                   (flag params "publish" true) "" ∅ [] in
  if is_v1 then
    wrapped_b64 ← ok_or (params !! "join_request") (invalid_argument, "missing join_request");
    bytes ← ok_or (b64_decode wrapped_b64) (invalid_argument, "invalid join_request encoding");
    wrapped ← ok_or (decode_wrapped bytes) (invalid_argument, "invalid wrapped join request");
    payload ← join_payload wrapped;
    join ← ok_or (decode_join payload) (invalid_argument, "invalid join request");
    Ok (mkParams (jr_reconnect join) (jr_participant_sid join) (default (sp_auto_subscribe session) (jr_auto_subscribe join))
          (sp_publish session) (jr_metadata join) (jr_attributes join) (jr_add_track_requests join))
  else Ok session.

(** Is the room full, as [rtc_ws_impl] counts. *)
Definition room_is_full (w : World) (r : Room) : bool :=
  if r_max_participants r =? 0 then false else r_max_participants r <=? Z.of_nat (count_non_dependent w r).

Definition room_full_response : Response := mkResponse 500 "text/plain" (TextBody "room has exceeded its max participants").

(** [rtc_ws_impl] up to the upgrade: form parameters only fill in for missing query ones. *)
Definition rtc_admit (req : HttpRequest) (form : gmap string string) (is_v1 : bool) (w : World) :
    Result Response (VerifiedToken * SessionParams * string) :=
  let params := hq_query req ∪ form in
  token ← map_err into_response (authenticate (hq_authorization req) params);
  _ ← guard_err (negb (room_join (video token))) (into_response (unauthenticated, "no permissions to access the room"));
  _ ← guard_err (vg_room (video token) =? "")%string (into_response (invalid_argument, "room is required"));
  _ ← guard_err (tk_identity token =? "")%string (into_response (invalid_argument, "identity is required"));
  _ ← guard_err (match get_room (vg_room (video token)) w ≫= (fun rl => w_rooms w !! rl) with
                 | Some r => room_is_full w r
                 | None => false
                 end) room_full_response;
  session ← map_err into_response (build_session_params params is_v1);
  Ok (token, session, raw_token (hq_authorization req) params).

(** [run_rtc_session]: what the connection becomes. *)
Inductive RtcSession :=
| LocalSession (token : VerifiedToken) (params : SessionParams) (kind : ParticipantKind)
| RelayedSession (raw : string) (params : SessionParams) (target : string).
Definition run_rtc_session (routing : Routing) (token : VerifiedToken) (raw : string) (params : SessionParams) : RtcSession :=
  match routing with
  | RLocal => LocalSession token params (participant_kind_from_token token)
  | RRemote node => RelayedSession raw params node
  end.

(** * Other routes *)

Definition agent_admit (req : HttpRequest) : Result Response VerifiedToken :=
  token ← map_err into_response (authenticate (hq_authorization req) (hq_query req));
  _ ← guard_err (negb (vg_agent (video token))) (into_response (unauthenticated, "no permissions to access the room"));
  Ok token.

Definition validate_rtc (req : HttpRequest) : Response :=
  match authenticate (hq_authorization req) (hq_query req) with
  | Ok token => if room_join (video token) then mkResponse 200 "text/plain; charset=utf-8" (TextBody "success")
                else into_response (unauthenticated, "no permissions to access the room")
  | Err e => into_response e
  end.

(** * Who may do what *)

Lemma error_status e : rs_status (into_response e) <> 200.
Proof. by destruct e as [[] ?]. Qed.

Lemma authenticate_ok authorization params token :
  authenticate authorization params = Ok token <-> exists raw, presented_token authorization params = Some raw /\ verify raw = Ok token.
Proof.
  unfold authenticate. destruct (presented_token _ _) as [raw|]; [|split; [done|by intros (raw & ? & _)]].
  rewrite map_err_ok. split; [by exists raw|]. by intros (raw' & [= <-] & H).
Qed.

(** The grant a call of a service needs; those of SIP and egress are checked by their services. *)
Definition call_allowed (service method : string) (token : VerifiedToken) (body : list Z) (format : WireFormat) : Prop :=
  if (service =? "livekit.RoomService")%string then authorized token (room_call method body format) = true
  else if (service =? "livekit.AgentDispatchService")%string then
    match dispatch_call method body format with
    | CreateDispatch b => body_room b cd_room token = true
    | DeleteDispatch b | ListDispatch b => body_room b dq_query_room token = true
    | UnknownDispatchMethod _ => False
    end
  else service = "livekit.SIP" \/ service = "livekit.Egress".

Lemma dispatch_twirp_allowed lim limits dw service method token body format st r st' :
  dispatch_twirp lim limits dw service method token body format st = (r, st') ->
  call_allowed service method token body format \/ (st' = st /\ exists e, r = Err e).
Proof.
  unfold dispatch_twirp, call_allowed. destruct (service =? "livekit.RoomService")%string.
  - pose proof (room_service_guard lim limits (dw_room dw) (dw_room_sid dw) token (room_call method body format) (sv_api st)) as G.
    destruct (room_service _ _ _ _ _ _ _) as [[reply|e] api]; intros [= <- <-]; [by left|]. right. subst api. by destruct st; eauto.
  - destruct (service =? "livekit.AgentDispatchService")%string.
    + cbv zeta. destruct (agent_dispatch_service _ _ _ _ _ _) as [r0 agents] eqn:E. apply dispatch_call_clean in E.
      destruct r0 as [reply|e]; intros [= <- <-]; [by left|]. right. subst agents. by destruct st; eauto.
    + destruct (String.eqb_spec service "livekit.SIP"); [by auto|]. destruct (String.eqb_spec service "livekit.Egress"); [by auto|].
      intros [= <- <-]. by eauto.
Qed.

Lemma twirp_effect lim limits dw service method req st resp st' :
  twirp_handler lim limits dw service method req st = (resp, st') -> st' <> st \/ rs_status resp = 200 ->
  exists format raw token, format_from (hq_content_type req) = Ok format /\
    presented_token (hq_authorization req) (hq_query req) = Some raw /\ verify raw = Ok token /\
    call_allowed service method token (hq_body req) format.
Proof.
  unfold twirp_handler. destruct (format_from _) as [format|e]; [|intros [= <- <-] [|H]; [done|by apply error_status in H]].
  destruct (authenticate _ _) as [token|e] eqn:Ha; [|intros [= <- <-] [|H]; [done|by apply error_status in H]].
  apply authenticate_ok in Ha as (raw & Hraw & Hv). destruct (dispatch_twirp _ _ _ _ _ _ _ _ _) as [r st1] eqn:Hd.
  intros [= <- <-] Hch. exists format, raw, token. split_and!; [done..|].
  destruct (dispatch_twirp_allowed _ _ _ _ _ _ _ _ _ _ _ Hd) as [?|(-> & e & ->)]; [done|].
  destruct Hch as [|H]; [done|by apply error_status in H].
Qed.


(** What [rtc_ws_impl] has checked. *)
Lemma rtc_admit_inv req form is_v1 w token session raw :
  rtc_admit req form is_v1 w = Ok (token, session, raw) ->
  authenticate (hq_authorization req) (hq_query req ∪ form) = Ok token /\ room_join (video token) = true /\
  vg_room (video token) <> "" /\ tk_identity token <> "" /\
  (forall rl r, get_room (vg_room (video token)) w = Some rl -> w_rooms w !! rl = Some r -> is_full w r = false) /\
  build_session_params (hq_query req ∪ form) is_v1 = Ok session /\ raw = raw_token (hq_authorization req) (hq_query req ∪ form).
Proof.
  unfold rtc_admit. cbv zeta. set (params := hq_query req ∪ form). intros H.
  destruct (authenticate _ _) as [t|]; [|done]. cbn [map_err mbind Result_bind] in H.
  destruct (room_join (video t)) eqn:Hj; [|done]. cbn in H.
  destruct (String.eqb_spec (vg_room (video t)) ""); [done|]. cbn in H.
  destruct (String.eqb_spec (tk_identity t) ""); [done|]. cbn in H.
  destruct (match get_room _ w ≫= _ with Some r => _ | None => _ end) eqn:Hfull; [done|]. cbn in H.
  destruct (build_session_params params is_v1) as [sp|]; [|done]. cbn in H. injection H as <- <- <-.
  split_and!; try done. intros rl r Hrl Hr. rewrite Hrl in Hfull. cbn in Hfull. rewrite Hr in Hfull. exact Hfull.
Qed.


(** A full room turns its own participants away.  A client whose session would be resumed,
    because its participant is still in the room, is refused before the upgrade when the
    room is at its capacity: the check counts the participant that reconnects. *)
Theorem full_room_refuses_reconnect req form is_v1 w token params w1 rl pl r :
  authenticate (hq_authorization req) (hq_query req ∪ form) = Ok token ->
  check_join token params = Ok (vg_room (video token)) ->
  resume_room_participant token params w = (w1, Some (rl, pl)) ->
  w_rooms w !! rl = Some r -> is_full w r = true ->
  rtc_admit req form is_v1 w = Err room_full_response.
Proof.
  intros Ha Hck Hres Hr Hfull. unfold rtc_admit. cbv zeta. rewrite Ha. cbn [map_err mbind Result_bind].
  unfold check_join in Hck. destruct (room_join (video token)); [|done]. cbn [negb] in Hck |- *.
  destruct (tk_identity token =? "")%string; [done|]. destruct (vg_room (video token) =? "")%string; [done|].
  assert (get_room (vg_room (video token)) w = Some rl) as ->.
  { unfold resume_room_participant in Hres. destruct (get_room _ w) as [l|]; cbn [mbind option_bind] in Hres; [|done].
    repeat case_match; simplify_option_eq; congruence. }
  cbn [mbind option_bind]. rewrite Hr. unfold room_is_full. unfold is_full in Hfull. by rewrite Hfull.
Qed.
End Http.

(** A blank header is ignored when the request is authenticated, and is what is relayed. *)
Lemma blank_header_relays_nothing h params : trim h = "" ->
  presented_token (Some h) params = presented_token None params /\ raw_token (Some h) params = "".
Proof. intros E. unfold presented_token, raw_token. cbn [mbind option_bind]. by rewrite E. Qed.

(** The headers [cors_middleware] sets, for a preflight request or another one. *)
Definition cors_headers (options : bool) (origin : option string) : list (string * string) :=
  let allow := match origin with Some o => [("access-control-allow-origin", o)] | None => [] end in
  if options then allow ++ [("access-control-allow-methods", "POST, GET, OPTIONS"); ("access-control-allow-headers", "authorization, content-type")]
  else match origin with Some _ => allow ++ [("access-control-allow-headers", "authorization, content-type")] | None => [] end.

(** * Witnesses *)

Module DemoCodecs.
(** Codecs of which only that of [DeleteRoom] reads its body. *)
#[export] Instance write_only {T} : WireMessage T | 10 :=
  {| from_json := fun _ => Err "unreadable"; to_json := fun _ => Ok []; from_protobuf := fun _ => Err "unreadable"; to_protobuf := fun _ => Ok [] |}.
Definition bytes_name (b : list Z) : string := string_of_list_ascii (map (fun c => ascii_of_nat (Z.to_nat c)) b).
#[export] Instance name_codec : WireMessage string | 0 :=
  {| from_json := fun b => Ok (bytes_name b); to_json := fun _ => Ok []; from_protobuf := fun b => Ok (bytes_name b); to_protobuf := fun _ => Ok [] |}.
End DemoCodecs.
Import DemoCodecs.

Module HttpDemo.
Definition verify (raw : string) : Result AuthError VerifiedToken :=
  if (raw =? "tk")%string then Ok ApiDemo.admin
  else if (raw =? "alice")%string then Ok (DemoSignal.token "alice" "" [])
  else if (raw =? "bob")%string then Ok (DemoSignal.token "bob" "" []) else Err (InvalidToken "invalid token").
Definition no_service (method : string) (token : VerifiedToken) (body : list Z) (format : WireFormat) : Handler unit (list Z) :=
  throw (not_found, method).
Definition handler := twirp_handler verify no_service no_service LimitConfig_default (Some (300, 20, 0)) (mkCallDraws 70%nat "RM_70" "AD_1" 5000000).
Definition server : ServerState := mkServer (DemoSignal.s1, []) (AgentManager_new ∅, []) tt.
(** [DeleteRoom] for the room [r]. *)
Definition delete : HttpRequest := mkHttp (Some "Bearer tk") (Some "application/json") ∅ [114].
Definition deleted := handler "livekit.RoomService" "DeleteRoom" delete server.
(** A signaling connection with the token in its query. *)
Definition connect (raw : string) : HttpRequest := mkHttp None None {["access_token" := raw]} [].
Definition enter (raw : string) := rtc_admit verify (fun _ => None) (fun _ => None) (fun _ _ => None) (fun _ => None) (connect raw) ∅ false.
Definition session : SessionParams := mkParams false "" true true "" ∅ [].
End HttpDemo.



Lemma full_room_refuses_reconnect_witness : HttpDemo.enter "alice" DemoSignal.s1 = Err room_full_response.
Proof.
  destruct (w_rooms DemoSignal.s1 !! 10%nat) as [r|] eqn:Hr; [|vm_compute in Hr; discriminate].
  apply (full_room_refuses_reconnect HttpDemo.verify (fun _ => None) (fun _ => None) (fun _ _ => None) (fun _ => None)
    (HttpDemo.connect "alice") ∅ false DemoSignal.s1 (DemoSignal.token "alice" "" []) HttpDemo.session
    (resume_room_participant (DemoSignal.token "alice" "" []) HttpDemo.session DemoSignal.s1).1 10%nat 11%nat r).
  - vm_compute. reflexivity.
  - vm_compute. reflexivity.
  - vm_compute. reflexivity.
  - exact Hr.
  - vm_compute in Hr. injection Hr as <-. vm_compute. reflexivity.
Defined.
