(* ===== verification/Router.v ===== *)
(** The router of the server, [crates/lk-server/src/http.rs]: which handler serves a request, the
    limit on bodies and the CORS middleware around all of them, over the handlers of [Http].

    A request has its path as decoded segments.  What the web framework does with a path or method
    that is not served, and with a body over the limit, is its documented behaviour. *)
From Stdlib Require Import ZArith Lia Ascii String.
From stdpp Require Import base gmap strings list option.
From S2P Require Import Prelude RustStr Core Track Auth Twirp Config Proto Participant Room Signal RoomService Agent AgentService Cluster Http.

Open Scope string_scope.
Open Scope list_scope.
Open Scope Z_scope.

Inductive HttpMethod := GET | HEAD | POST | OPTIONS | OtherMethod.
#[global] Instance HttpMethod_eq_dec : EqDecision HttpMethod.
Proof. solve_decision. Defined.

(** * The routes *)

Inductive Endpoint := EHealth | EValidate | ETwirp (service method : string) | ERtc (is_v1 : bool) | EAgent.

(** [Router::new().route(...)]: a segment in braces takes any non-empty one. *)
Definition endpoint_of (path : list string) : option Endpoint :=
  if bool_decide (path = [""]) then Some EHealth
  else if bool_decide (path = ["rtc"; "validate"] \/ path = ["rtc"; "v1"; "validate"]) then Some EValidate
  else if bool_decide (path = ["rtc"]) then Some (ERtc false)
  else if bool_decide (path = ["rtc"; "v1"]) then Some (ERtc true)
  else if bool_decide (path = ["agent"]) then Some EAgent
  else match path with
       | [t; service; method] =>
           if (t =? "twirp")%string && negb (service =? "")%string && negb (method =? "")%string then Some (ETwirp service method) else None
       | _ => None
       end.

Lemma endpoint_inv path e : endpoint_of path = Some e ->
  match e with
  | EHealth => path = [""]
  | EValidate => path = ["rtc"; "validate"] \/ path = ["rtc"; "v1"; "validate"]
  | ETwirp service method => path = ["twirp"; service; method] /\ service <> "" /\ method <> ""
  | ERtc is_v1 => path = if is_v1 then ["rtc"; "v1"] else ["rtc"]
  | EAgent => path = ["agent"]
  end.
Proof.
  unfold endpoint_of. do 5 (case_bool_decide; [by intros [= <-]|]). destruct path as [|t [|service [|method []]]]; try done.
  destruct (String.eqb_spec t "twirp") as [->|]; [|done]. destruct (String.eqb_spec service ""); [done|].
  destruct (String.eqb_spec method ""); [done|]. by intros [= <-].
Qed.

(** A route of [get] serves HEAD too. *)
Definition serves (e : Endpoint) (m : HttpMethod) : bool :=
  match e, m with
  | ETwirp _ _, POST => true
  | ETwirp _ _, _ => false
  | _, (GET | HEAD) => true
  | _, _ => false
  end.

Definition body_limit (lim : LimitConfig) : Z := Z.max (lm_max_api_request_body_size lim) 4096.

(** The transport's limits on the frames of a socket. *)
Definition RTC_MAX_MESSAGE_SIZE : Z := 64 * 1024 * 1024.

(** [wq_upgrade] is what the upgrade extractor makes of the headers: a rejection, or a socket to come. *)
Record WebRequest := mkWeb {
  wq_method : HttpMethod; wq_path : list string; wq_origin : option string; wq_upgrade : Result Response unit; wq_http : HttpRequest
}.

(** The framework's answers for a path or a method that is not served and for a body over the
    limit. *)
Record Framework := mkFramework { fw_not_found : Response; fw_not_allowed : Response; fw_too_large : Response }.

(** How a request ends: an answer with the headers of the middleware, or a socket with its frame
    limit and what it was opened for. *)
Inductive Outcome :=
| Answer (r : Response) (cors : list (string * string))
| RtcSocket (max_message : Z) (token : VerifiedToken) (session : SessionParams) (raw : string)
| AgentSocket (max_message : Z) (token : VerifiedToken).

Section Router.
Context (verify : string -> Result AuthError VerifiedToken).
Context `{!WireMessage CreateRoomRequest, !WireMessage (list string), !WireMessage string, !WireMessage RoomParticipantIdentity,
          !WireMessage MuteRoomTrackRequest, !WireMessage UpdateParticipantRequest, !WireMessage UpdateSubscriptionsRequest,
          !WireMessage SendDataRequest, !WireMessage (string * string), !WireMessage CreateAgentDispatchRequest, !WireMessage DispatchQuery,
          !WireMessage RoomInfo, !WireMessage (list RoomInfo), !WireMessage (list ParticipantInfo), !WireMessage ParticipantInfo,
          !WireMessage TrackInfo, !WireMessage unit, !WireMessage DispatchInfo, !WireMessage (list DispatchInfo)}.
Context {X : Type} (sip_service egress_service : string -> VerifiedToken -> list Z -> WireFormat -> Handler X (list Z)).
Context (b64_decode : string -> option (list Z)) (decode_wrapped : list Z -> option WrappedJoinRequest)
        (gunzip : nat -> list Z -> option (list Z)) (decode_join : list Z -> option JoinRequest).
Context (fw : Framework).

(** A handler: its extractors, then its body.  A [Form] of a GET request is its query. *)
Definition run_endpoint (lim : LimitConfig) (limits : option (Z * Z * Z)) (dw : CallDraws) (e : Endpoint) (req : WebRequest)
    (st : @ServerState X) : Outcome * @ServerState X :=
  let answer r := Answer r (cors_headers false (wq_origin req)) in
  let http := wq_http req in
  match e with
  | EHealth => (answer (mkResponse 200 "text/plain; charset=utf-8" (TextBody "OK")), st)
  | EValidate => (answer (validate_rtc verify http), st)
  | ETwirp service method =>
      if body_limit lim <? Z.of_nat (length (hq_body http)) then (answer (fw_too_large fw), st)
      else let '(r, st) := twirp_handler verify sip_service egress_service lim limits dw service method http st in (answer r, st)
  | ERtc is_v1 =>
      match wq_upgrade req with
      | Err r => (answer r, st)
      | Ok _ =>
          match rtc_admit verify b64_decode decode_wrapped gunzip decode_join http (hq_query http) is_v1 (sv_api st).1 with
          | Err r => (answer r, st)
          | Ok (token, session, raw) => (RtcSocket RTC_MAX_MESSAGE_SIZE token session raw, st)
          end
      end
  | EAgent =>
      match wq_upgrade req with
      | Err r => (answer r, st)
      | Ok _ =>
          match agent_admit verify http with
          | Err r => (answer r, st)
          | Ok token => (AgentSocket (lm_agent_signal_message_size_limit lim) token, st)
          end
      end
  end.

(** [router]: the middleware is around every route and around the answers for no route. *)
Definition serve (lim : LimitConfig) (limits : option (Z * Z * Z)) (dw : CallDraws) (req : WebRequest) (st : @ServerState X) :
    Outcome * @ServerState X :=
  if bool_decide (wq_method req = OPTIONS) then (Answer (mkResponse 204 "" (TextBody "")) (cors_headers true (wq_origin req)), st)
  else
    match endpoint_of (wq_path req) with
    | None => (Answer (fw_not_found fw) (cors_headers false (wq_origin req)), st)
    | Some e =>
        if serves e (wq_method req) then run_endpoint lim limits dw e req st
        else (Answer (fw_not_allowed fw) (cors_headers false (wq_origin req)), st)
    end.

(** The router lets through only what is authenticated.  A request that changes anything is a POST
    to a method of a service, with a body within the limit and a token that verifies and whose
    grants allow the call; a signaling socket is opened only on [/rtc] and [/rtc/v1] for a
    verified token with the join grant, a room and an identity, a worker's only on [/agent] for a
    verified token with the agent grant; sockets and every other request change nothing before
    the upgrade. *)
Theorem router_guarded lim limits dw req st out st' :
  serve lim limits dw req st = (out, st') ->
  (st' <> st -> wq_method req = POST /\ exists service method, wq_path req = ["twirp"; service; method] /\
     Z.of_nat (length (hq_body (wq_http req))) <= body_limit lim /\
     exists format raw token, presented_token (hq_authorization (wq_http req)) (hq_query (wq_http req)) = Some raw /\
       verify raw = Ok token /\ call_allowed service method token (hq_body (wq_http req)) format) /\
  (forall n token session raw, out = RtcSocket n token session raw ->
     (wq_path req = ["rtc"] \/ wq_path req = ["rtc"; "v1"]) /\ (exists raw', verify raw' = Ok token) /\
     room_join (video token) = true /\ vg_room (video token) <> "" /\ tk_identity token <> "") /\
  (forall n token, out = AgentSocket n token ->
     wq_path req = ["agent"] /\ (exists raw, verify raw = Ok token) /\ vg_agent (video token) = true).
Proof.
  unfold serve. intros H. case_bool_decide; [injection H as <- <-; by split_and!|].
  destruct (endpoint_of (wq_path req)) as [e|] eqn:Ee; [|injection H as <- <-; by split_and!].
  destruct (serves e (wq_method req)) eqn:Es; [|injection H as <- <-; by split_and!].
  apply endpoint_inv in Ee. destruct e as [| |service method|v1|]; cbn [run_endpoint] in H.
  - injection H as <- <-. by split_and!.
  - injection H as <- <-. by split_and!.
  - destruct Ee as (Ep & _). destruct (wq_method req) eqn:Em; try done.
    destruct (Z.ltb_spec (body_limit lim) (Z.of_nat (length (hq_body (wq_http req))))); [injection H as <- <-; by split_and!|].
    destruct (twirp_handler _ _ _ _ _ _ _ _ _ _) as [r st1] eqn:Ht. injection H as <- <-. split_and!; [|done|done].
    intros Hne. split; [done|]. exists service, method. split; [done|]. split; [done|].
    destruct (twirp_effect verify sip_service egress_service lim limits dw service method _ st r st1 Ht (or_introl Hne))
      as (format & raw & token & _ & F1 & F2 & F3). by exists format, raw, token.
  - destruct (wq_upgrade req) as [u|r]; [|injection H as <- <-; by split_and!].
    destruct (rtc_admit _ _ _ _ _ _ _ _ _) as [[[token session] raw]|r] eqn:Ea; injection H as <- <-; [|by split_and!].
    split_and!; [done| |done]. intros n tk se ra [= <- <- <- <-]. apply rtc_admit_inv in Ea as (A1 & A2 & A3 & A4 & _).
    apply authenticate_ok in A1 as (raw' & _ & Hv). split; [destruct v1; auto|]. split_and!; eauto.
  - destruct (wq_upgrade req) as [u|r]; [|injection H as <- <-; by split_and!].
    destruct (agent_admit verify (wq_http req)) as [token|r] eqn:Ea; injection H as <- <-; [|by split_and!].
    split_and!; [done|done|]. intros n tk [= <- <-]. unfold agent_admit in Ea.
    apply bind_ok in Ea as (tk & A1 & (u' & A2 & [= ->])%bind_ok). apply map_err_ok, authenticate_ok in A1 as (raw & _ & Hv).
    split_and!; eauto. destruct (vg_agent (video token)); [done|by cbn in A2].
Qed.
End Router.
