(* ===== verification/Webhook.v ===== *)
(** The webhook notifier, [crates/lk-server/src/webhook.rs]: the signing secret, the events, and
    the delivery of one event to each URL with its retries.  The HMAC and the JSON of an event
    are parameters, and so are the outcomes of the HTTP requests. *)
From Stdlib Require Import ZArith Lia Ascii String.
From stdpp Require Import base gmap strings list option.
From S2P Require Import Prelude RustStr Core Track Auth Config Proto Participant Room Agent EgressProto.

Open Scope string_scope.
Open Scope list_scope.
Open Scope Z_scope.

(** * The notifier *)

(** [Inner], without the HTTP client; a notifier is disabled when there is none. *)
Record Inner := mkInner { in_urls : list string; in_secret : string }.
Record WebhookNotifier := mkNotifier { inner : option Inner }.

Definition disabled : WebhookNotifier := mkNotifier None.
Definition is_enabled (n : WebhookNotifier) : bool := bool_decide (is_Some (inner n)).

Definition from_config (config : Config) (keys : gmap string string) : WebhookNotifier :=
  let wh := cf_webhook config in
  match wh_urls wh with
  | [] => disabled
  | urls => mkNotifier (Some (mkInner urls (default (wh_api_key wh) (get_secret keys (wh_api_key wh)))))
  end.

(** * Events *)

Record WebhookEvent := mkWebhookEvent {
  ev_event : string; ev_room : option RoomInfo; ev_participant : option ParticipantInfo; ev_egress_info : option Report;
  ev_track : option TrackInfo; ev_job : option Job; ev_id : string; ev_created_at : Z;
}.

(** The id and the clock an event draws. *)
Section Events.
Context (id : string) (now : Z).
Definition room_event (name : string) (room : RoomInfo) : WebhookEvent := mkWebhookEvent name (Some room) None None None None id now.
Definition room_started : RoomInfo -> WebhookEvent := room_event "room_started".
Definition room_finished : RoomInfo -> WebhookEvent := room_event "room_finished".
Definition participant_event (name : string) (room : RoomInfo) (p : ParticipantInfo) : WebhookEvent :=
  mkWebhookEvent name (Some room) (Some p) None None None id now.
Definition participant_joined := participant_event "participant_joined".
Definition participant_left := participant_event "participant_left".
Definition track_event (name : string) (room : RoomInfo) (p : ParticipantInfo) (t : TrackInfo) : WebhookEvent :=
  mkWebhookEvent name (Some room) (Some p) None (Some t) None id now.
Definition track_published := track_event "track_published".
Definition track_unpublished := track_event "track_unpublished".
Definition job_event (name : string) (job : Job) : WebhookEvent := mkWebhookEvent name (jo_room job) None None None (Some job) id now.
Definition agent_job_started := job_event "agent_job_started".
Definition agent_job_ended := job_event "agent_job_ended".
(** A room with only the sid and the name of the recording's; an absent version is written [mkTV 0 0]. *)
Definition egress_room (info : Report) : RoomInfo :=
  mkRoomInfo (rp_room_id info) (rp_room_name info) 0 0 0 0 0 "" 0 0 false (mkTV 0 0).
Definition egress_event (name : string) (info : Report) : WebhookEvent :=
  mkWebhookEvent name (Some (egress_room info)) None (Some info) None None id now.
Definition egress_started := egress_event "egress_started".
Definition egress_updated := egress_event "egress_updated".
Definition egress_ended := egress_event "egress_ended".
End Events.

(** * Signing *)

(** [format!("{b:02x}")]. *)
Definition hex_digit (d : Z) : ascii := ascii_of_nat (Z.to_nat (if d <? 10 then 48 + d else 87 + d)).
Definition hex_byte (b : Z) : string := String (hex_digit (Z.shiftr b 4)) (String (hex_digit (Z.land b 15)) "").
Definition hex (bytes : list Z) : string := foldr (fun b s => hex_byte b +:+ s) "" bytes.

(** Reading it back. *)
Definition unhex_digit (c : ascii) : Z := let n := Z.of_nat (nat_of_ascii c) in if n <? 58 then n - 48 else n - 87.
Fixpoint unhex (s : string) : list Z :=
  match s with
  | String a (String b s) => (16 * unhex_digit a + unhex_digit b) :: unhex s
  | _ => []
  end.

(** * Delivery *)

(** [reqwest::send]: an answer with its status, whatever it is, or an error. *)
Inductive Outcome := Answered (status : Z) | Failed.
Definition post_once (o : Outcome) : bool := match o with Answered _ => true | Failed => false end.

Definition delays : list Z := [250; 500; 1000; 2000; 4000].
(** [timeout] of the client, in milliseconds. *)
Definition client_timeout : Z := 5000.

(** The delivery task: the outcomes of the attempts and what they take, in milliseconds, are
    [env].  The start and the outcome of each attempt made, whether it was delivered, and when
    the task ends; [ds] are the delays left. *)
Fixpoint deliver (env : nat -> Outcome * Z) (i : nat) (ds : list Z) (t : Z) : list (Z * Outcome) * bool * Z :=
  match ds with
  | [] => ([], false, t)
  | d :: rest =>
      let '(o, took) := env i in
      if post_once o then ([(t, o)], true, t + took)
      else
        let pause := match rest with [] => 0 | _ => d end in
        let '(attempts, ok, e) := deliver env (S i) rest (t + took + pause) in ((t, o) :: attempts, ok, e)
  end.

Section Sending.
Context (hmac : string -> list Z -> list Z) (to_vec : WebhookEvent -> option (list Z)).

Definition sign (secret : string) (body : list Z) : string := hex (hmac secret body).

(** A delivery task: URL, signature header and body of its requests. *)
Record Delivery := mkDelivery { dl_url : string; dl_signature : string; dl_body : list Z }.

Definition send_event (n : WebhookNotifier) (event : WebhookEvent) : list Delivery :=
  match inner n with
  | None => []
  | Some i => let body := default [] (to_vec event) in
              (fun url => mkDelivery url (sign (in_secret i) body) body) <$> in_urls i
  end.
End Sending.

(** * Properties *)

Lemma hex_roundtrip bytes : Forall (fun b => 0 <= b < 256) bytes -> unhex (hex bytes) = bytes.
Proof.
  assert (forall d, 0 <= d < 16 -> unhex_digit (hex_digit d) = d) as Hd.
  { intros d H. assert (d = 0 \/ d = 1 \/ d = 2 \/ d = 3 \/ d = 4 \/ d = 5 \/ d = 6 \/ d = 7 \/ d = 8 \/ d = 9 \/ d = 10 \/ d = 11 \/ d = 12
      \/ d = 13 \/ d = 14 \/ d = 15) by lia. destruct_or!; subst d; reflexivity. }
  induction 1 as [|b bytes Hb _ IH]; [done|].
  change (hex (b :: bytes)) with (String (hex_digit (Z.shiftr b 4)) (String (hex_digit (Z.land b 15)) (hex bytes))). cbn [unhex].
  change 15 with (Z.ones 4). rewrite Z.land_ones, Z.shiftr_div_pow2 by lia. change (2 ^ 4) with 16.
  pose proof (Z.div_mod b 16). pose proof (Z.mod_pos_bound b 16).
  assert (0 <= b / 16 < 16) by (split; [apply Z.div_pos|apply Z.div_lt_upper_bound]; lia).
  rewrite !Hd, IH by lia. f_equal. lia.
Qed.

(** One delivery, over any list of delays. *)
Lemma deliver_spec env ds : forall i t attempts ok e,
  deliver env i ds t = (attempts, ok, e) ->
  exists n, (n <= length ds)%nat /\ attempts.*2 = (fun k => (env k).1) <$> seq i n /\
    (forall k, (S k < n)%nat -> post_once (env (i + k)%nat).1 = false) /\
    (if ok then exists m, n = S m /\ post_once (env (i + m)%nat).1 = true
     else n = length ds /\ forall k, (k < n)%nat -> post_once (env (i + k)%nat).1 = false).
Proof.
  induction ds as [|d ds IH]; intros i t attempts ok e; cbn [deliver].
  { intros [= <- <- <-]. exists 0%nat. split_and!; try done; intros; lia. }
  destruct (env i) as [o took] eqn:Ei. destruct (post_once o) eqn:Ho.
  { intros [= <- <- <-]. exists 1%nat. cbn. rewrite Ei. split_and!; [lia|done|intros; lia|].
    exists 0%nat. by rewrite Nat.add_0_r, Ei. }
  cbv zeta. destruct (deliver env (S i) ds _) as [[a ok'] e'] eqn:Hd. intros [= <- <- <-].
  destruct (IH _ _ _ _ _ Hd) as (n & Hn & Ha & Hfail & Hok). exists (S n). cbn [length fmap list_fmap seq]. rewrite Ei.
  assert (forall k, (k < S n)%nat -> ((k = 0)%nat \/ post_once (env (S i + (k - 1))%nat).1 = false) -> post_once (env (i + k)%nat).1 = false) as Hall.
  { intros [|k] _ [Hz|H]; try lia; [by rewrite Nat.add_0_r, Ei..|]. by replace (i + S k)%nat with (S i + (S k - 1))%nat by lia. }
  split_and!; [lia|by f_equal| |].
  - intros k Hk. apply Hall; [lia|]. destruct k as [|k]; [by left|]. right. apply Hfail. lia.
  - destruct ok'.
    + destruct Hok as (m & -> & Hm). exists (S m). split; [done|]. by replace (i + S m)%nat with (S i + m)%nat by lia.
    + destruct Hok as [-> Hk]. split; [done|]. intros k Hlt. apply Hall; [lia|]. destruct k as [|k]; [by left|]. right. apply Hk. lia.
Qed.

(** The delays that are slept are all but the last. *)
Definition pauses (ds : list Z) : Z := foldr Z.add 0 (removelast ds).

Lemma deliver_time env limit ds : (forall k, 0 <= (env k).2 <= limit) -> Forall (fun d => 0 <= d) ds -> forall i t attempts ok e,
  deliver env i ds t = (attempts, ok, e) -> t <= e <= t + limit * Z.of_nat (length ds) + pauses ds.
Proof.
  intros Hl Hds. induction Hds as [|d ds Hd Hds IH]; intros i t attempts ok e; cbn [deliver].
  { intros [= <- <- <-]. cbn. lia. }
  pose proof (Hl i) as Hi. destruct (env i) as [o took]. cbn [snd] in Hi.
  assert (0 <= pauses ds /\ pauses (d :: ds) = match ds with [] => 0 | _ => d + pauses ds end) as [Hp ->].
  { split; [|by destruct ds]. clear -Hds. unfold pauses. induction Hds as [|x [|y l] ?? IH]; [done..|].
    change (removelast (x :: y :: l)) with (x :: removelast (y :: l)). cbn [foldr]. lia. }
  assert (0 <= limit * Z.of_nat (length ds)) by nia. cbn [length]. rewrite Nat2Z.inj_succ, Z.mul_succ_r.
  destruct (post_once o); [intros [= <- <- <-]; destruct ds; lia|].
  cbv zeta. destruct (deliver env (S i) ds _) as [[a ok'] e'] eqn:E. intros [= <- <- <-]. apply IH in E.
  destruct ds; [change (pauses []) with 0 in E|]; lia.
Qed.

(** What a webhook delivery does.  It makes at most five attempts and stops at the first one
    that is answered, whatever the answer: it counts as delivered exactly when one of the
    first five attempts is answered.  With the client's five-second timeout it is over within
    28.75 seconds. *)
Theorem delivery_attempts env t attempts ok e :
  (forall k, 0 <= (env k).2 <= client_timeout) -> deliver env 0 delays t = (attempts, ok, e) ->
  (length attempts <= 5)%nat /\ attempts.*2 = (fun k => (env k).1) <$> seq 0 (length attempts) /\
  (forall k, (S k < length attempts)%nat -> (env k).1 = Failed) /\
  (ok = true <-> exists k status, (k < 5)%nat /\ (env k).1 = Answered status) /\
  t <= e <= t + 28750.
Proof.
  intros Hl Hd. pose proof (deliver_time env client_timeout delays Hl ltac:(repeat constructor; lia) _ _ _ _ _ Hd) as Ht.
  destruct (deliver_spec _ _ _ _ _ _ _ Hd) as (n & Hn & Ha & Hf & Hok). change (length delays) with 5%nat in *.
  assert (length attempts = n) as Hlen by (rewrite <- (length_fmap snd attempts), Ha, length_fmap; apply length_seq).
  rewrite Hlen. assert (forall o, post_once o = false -> o = Failed) as Hfailed by (by intros []).
  split_and!; [done|done|by intros k Hk; apply Hfailed, Hf| |apply Ht|].
  2: { change (pauses delays) with 3750 in Ht. unfold client_timeout in Ht. lia. }
  destruct ok; split; try done.
  - intros _. destruct Hok as (m & -> & Hm). cbn in Hm. destruct (env m).1 as [s|] eqn:Em; [|done]. exists m, s. split; [lia|done].
  - intros (k & s & Hk & E). destruct Hok as [-> Hk']. specialize (Hk' k Hk). cbn in Hk'. by rewrite E in Hk'.
Qed.

(** What is sent, and under which secret. *)
Lemma send_event_signed hmac to_vec config keys event d :
  d ∈ send_event hmac to_vec (from_config config keys) event ->
  dl_url d ∈ wh_urls (cf_webhook config) /\ dl_body d = default [] (to_vec event) /\
  dl_signature d = hex (hmac (default (wh_api_key (cf_webhook config)) (keys !! wh_api_key (cf_webhook config))) (dl_body d)).
Proof.
  unfold send_event, from_config. destruct (wh_urls (cf_webhook config)) as [|u us] eqn:Hu; [by intros ?%not_elem_of_nil|].
  cbn [inner]. intros (url & -> & Hin)%list_elem_of_fmap. done.
Qed.

(** Two events sent one after the other may arrive the other way round: the tasks are
    independent, and the first attempt of the first event failed. *)
Definition retried (k : nat) : Outcome * Z := if (k =? 0)%nat then (Failed, 10) else (Answered 200, 10).
Definition prompt (k : nat) : Outcome * Z := (Answered 200, 10).
Lemma webhooks_may_swap :
  let started := deliver retried 0 delays 0 in let joined := deliver prompt 0 delays 1 in
  started.1.2 = true /\ joined.1.2 = true /\ joined.2 < started.2.
Proof. by vm_compute. Qed.

Lemma delivery_attempts_witness : (length (deliver retried 0 delays 0).1.1 <= 5)%nat.
Proof.
  apply (delivery_attempts retried 0 (deliver retried 0 delays 0).1.1 true 270); [|reflexivity].
  intros [|k]; cbn; unfold client_timeout; lia.
Defined.
