(* ===== verification/SipCalls.v ===== *)
(** Outbound SIP calls, transfers and the egress API, [crates/lk-server/src/services_sip.rs]: the
    calls of the [livekit.SIP] and [livekit.Egress] services that go out over the message bus.
    The answers of the SIP gateway and of the recorder are arguments; the requests sent are
    recorded. *)
From Stdlib Require Import ZArith Lia Ascii String.
From stdpp Require Import base gmap strings list option.
From S2P Require Import Prelude RustStr Psrpc Core Track Auth Twirp Config Proto Participant Room Signal RoomService Wkt SipProto Store Sip SipService EgressProto.

Open Scope string_scope.
Open Scope list_scope.
Open Scope Z_scope.
Local Open Scope twirp_scope.

(** * Messages *)

(** [SipOutboundConfig]. *)
Record SipOutboundConfig := mkOutConfig {
  oc_hostname : string; oc_destination_country : string; oc_transport : Z; oc_auth_username : string; oc_auth_password : string;
  oc_headers_to_attributes : StrMap; oc_attributes_to_headers : StrMap; oc_from_host : string;
}.
(** [cs_rest] are the fields that are only copied: the request URI and the From and To headers, the
    timeouts, the display name and the destination. *)
Record CreateSipParticipantRequest := mkCreateSip {
  cs_sip_trunk_id : string; cs_trunk : option SipOutboundConfig; cs_sip_call_to : string; cs_sip_number : string;
  cs_room_name : string; cs_participant_identity : string; cs_participant_name : string; cs_participant_metadata : string;
  cs_participant_attributes : StrMap; cs_dtmf : string; cs_play_ringtone : bool; cs_play_dialtone : bool;
  cs_hide_phone_number : bool; cs_headers : StrMap; cs_include_headers : Z; cs_krisp_enabled : bool;
  cs_media_encryption : Z; cs_media : option SipMediaConfig; cs_wait_until_answered : bool; cs_rest : string;
}.
Record InternalCreateSipParticipantRequest := mkInternalCreate {
  ic_sip_call_id : string; ic_sip_trunk_id : string; ic_address : string; ic_hostname : string; ic_destination_country : string;
  ic_transport : Z; ic_number : string; ic_call_to : string; ic_username : string; ic_password : string; ic_room_name : string;
  ic_participant_identity : string; ic_participant_name : string; ic_participant_metadata : string;
  ic_participant_attributes : StrMap; ic_dtmf : string; ic_play_dialtone : bool; ic_headers : StrMap;
  ic_headers_to_attributes : StrMap; ic_attributes_to_headers : StrMap; ic_include_headers : Z; ic_enabled_features : list Z;
  ic_media_encryption : Z; ic_media : option SipMediaConfig; ic_wait_until_answered : bool; ic_rest : string;
}.
Record InternalCreateSipParticipantResponse := mkCreatedSip { cp_participant_id : string; cp_participant_identity : string; cp_sip_call_id : string }.
Record SipParticipantInfo := mkSipParticipant {
  sp_info_participant_id : string; sp_info_participant_identity : string; sp_info_room_name : string; sp_info_sip_call_id : string;
}.
Record TransferSipParticipantRequest := mkTransfer {
  ts_participant_identity : string; ts_room_name : string; ts_transfer_to : string; ts_play_dialtone : bool; ts_headers : StrMap;
  ts_ringing_timeout : option Duration;
}.
Record InternalTransferSipParticipantRequest := mkInternalTransfer {
  it_call_id : string; it_transfer_to : string; it_play_dialtone : bool; it_transfer_headers : StrMap; it_transfer_timeout : option Duration;
}.
Record ListEgressRequest := mkListEgress { le_room_name : string; le_egress_id : string; le_active : bool }.

(** * Grants and errors *)

Definition ensure_sip_call (token : VerifiedToken) : Result TwirpError unit :=
  if sip_call (sip token) then Ok tt else Err denied.
Definition ensure_record (token : VerifiedToken) : Result TwirpError unit :=
  if room_record (video token) then Ok tt else Err denied.

Definition psrpc_to_twirp (e : PsrpcError) : TwirpError :=
  match e with
  | Timeout => (deadline_exceeded, "request timed out")
  | Rpc code message =>
      (if (code =? "invalid_argument")%string then invalid_argument
       else if (code =? "not_found")%string then not_found
       else if (code =? "already_exists")%string then already_exists
       else if (code =? "permission_denied")%string then permission_denied
       else if (code =? "unauthenticated")%string then unauthenticated
       else if (code =? "unavailable")%string then unavailable
       else if (code =? "resource_exhausted")%string then resource_exhausted
       else if (code =? "unimplemented")%string then unimplemented
       else if (code =? "deadline_exceeded")%string then deadline_exceeded
       else if (code =? "canceled")%string then deadline_exceeded
       else twirp_internal, message)
  | Bus e => (twirp_internal, "psrpc bus: " +:+ e)
  | ChannelClosed => (twirp_internal, "response channel closed")
  | Malformed e => (twirp_internal, "malformed response: " +:+ e)
  end.

(** * The outbound request *)

Definition KRISP_ENABLED : Z := 1.

(** Where the call goes, from the stored trunk, or from the configuration in the request. *)
Record TrunkParams := mkTrunkParams {
  tp_hostname : string; tp_from_host : string; tp_headers : StrMap; tp_include_headers : Z; tp_transport : Z;
  tp_destination_country : string; tp_auth_user : string; tp_auth_pass : string; tp_hdr_to_attr : StrMap; tp_attr_to_hdr : StrMap;
  tp_media : option SipMediaConfig;
}.
Definition trunk_params (trunk : option SipOutboundTrunkInfo) (config : option SipOutboundConfig) : TrunkParams :=
  match trunk, config with
  | Some t, _ => mkTrunkParams (ot_address t) (ot_from_host t) (ot_headers t) (ot_include_headers t) (ot_transport t)
                   (ot_destination_country t) (ot_auth_username t) (ot_auth_password t) (ot_headers_to_attributes t)
                   (ot_attributes_to_headers t) (upgrade_media (ot_media t) (ot_media_encryption t))
  | None, Some c => mkTrunkParams (oc_hostname c) (oc_from_host c) ∅ 0 (oc_transport c) (oc_destination_country c)
                      (oc_auth_username c) (oc_auth_password c) (oc_headers_to_attributes c) (oc_attributes_to_headers c) None
  | None, None => mkTrunkParams "" "" ∅ 0 0 "" "" "" ∅ ∅ None
  end.

(** The number to call from; [idx] is drawn at random. *)
Definition outbound_number (idx : nat) (trunk : option SipOutboundTrunkInfo) (sip_number hostname : string) : Result TwirpError string :=
  number ← (if (sip_number =? "")%string then
              let numbers := match trunk with Some t => ot_numbers t | None => [] end in
              ok_or (numbers !! (idx mod length numbers)%nat) (failed_precondition, "no numbers on outbound trunk")
            else Ok sip_number);
  Ok (if ends_with "twilio.com" hostname && negb (starts_with "+" number) then "+" +:+ number else number).

(** [ATTR_SIP_CALL_ID]. *)
Definition CALL_ID_KEY : string := "sip.callID".
Definition call_attributes (r : CreateSipParticipantRequest) (call_id trunk_id hostname number : string) : StrMap :=
  let attrs := <["sip.trunkID" := trunk_id]> (<[CALL_ID_KEY := call_id]> (cs_participant_attributes r)) in
  if cs_hide_phone_number r then attrs
  else <["sip.trunkPhoneNumber" := number]> (<["sip.hostname" := hostname]> (<["sip.phoneNumber" := cs_sip_call_to r]> attrs)).

(** [build_internal_create_participant] once the trunk is loaded. *)
Definition build_internal (trunk : option SipOutboundTrunkInfo) (idx : nat) (call_id : string) (r : CreateSipParticipantRequest) :
    Result TwirpError InternalCreateSipParticipantRequest :=
  let tp := trunk_params trunk (cs_trunk r) in
  number ← outbound_number idx trunk (cs_sip_number r) (tp_hostname tp);
  let trunk_id := if (cs_sip_trunk_id r =? "")%string
                  then match trunk with Some t => ot_sip_trunk_id t | None => "" end else cs_sip_trunk_id r in
  let media := merge_media (tp_media tp) (upgrade_media (cs_media r) (cs_media_encryption r)) in
  Ok (mkInternalCreate call_id trunk_id (tp_hostname tp) (tp_from_host tp) (tp_destination_country tp) (tp_transport tp) number
        (cs_sip_call_to r) (tp_auth_user tp) (tp_auth_pass tp) (cs_room_name r)
        (if (cs_participant_identity r =? "")%string then "sip_" +:+ cs_sip_call_to r else cs_participant_identity r)
        (cs_participant_name r) (cs_participant_metadata r) (call_attributes r call_id trunk_id (tp_hostname tp) number)
        (cs_dtmf r) (cs_play_ringtone r || cs_play_dialtone r) (cs_headers r ∪ tp_headers tp) (tp_hdr_to_attr tp) (tp_attr_to_hdr tp)
        (if cs_include_headers r =? 0 then tp_include_headers tp else cs_include_headers r)
        (if cs_krisp_enabled r then [KRISP_ENABLED] else []) (default 0 (m ← media; md_encryption m)) media
        (cs_wait_until_answered r) (cs_rest r)).

(** * Handlers *)

(** What went out over the bus. *)
Inductive SentRpc :=
| SentCreate (r : InternalCreateSipParticipantRequest) (timeout : Z)
| SentTransfer (topic : string) (r : InternalTransferSipParticipantRequest)
| SentStart (r : StartEgressRequest) (room_name : string)
| SentStop (topic : string).

Section Outbound.
Context {B H : Type} `{HB : Backend B H}.
Context `{!Message B SipInboundTrunkInfo, !Message B SipOutboundTrunkInfo, !Message B SipDispatchRuleInfo, !Message B EgressInfo}.

Record Outside := mkOutside { ot_world : World; ot_store : H; ot_sent : list SentRpc }.

Definition on_store {A} (m : Handler H A) : Handler Outside A := fun s =>
  let '(r, h) := m (ot_store s) in (r, mkOutside (ot_world s) h (ot_sent s)).
Definition on_world {A} (f : World -> World * A) : Handler Outside A := fun s =>
  let '(w, a) := f (ot_world s) in (Ok a, mkOutside w (ot_store s) (ot_sent s)).
Definition send_rpc (msg : SentRpc) : Handler Outside unit := fun s => (Ok tt, mkOutside (ot_world s) (ot_store s) (ot_sent s ++ [msg])).
(** What the rest of the server does while a handler waits for an answer. *)
Definition meanwhile (env : Outside -> Outside) : Handler Outside unit := fun s => (Ok tt, env s).

(** [server.sip_client()] and [server.egress_client()]: the error when there is no bus. *)
Context (client : Result string unit).
Definition bus_client : Handler Outside unit := lift (map_err (pair failed_precondition) client).

(** The timeouts of the bus client, in seconds. *)
Definition DEFAULT_TIMEOUT : Z := 30.
Definition ANSWER_TIMEOUT : Z := 80.

(** [CreateSIPParticipant] once the trunk is loaded; [idx] and [call_id] are drawn. *)
Definition dial (idx : nat) (call_id : string) (answer : Result PsrpcError InternalCreateSipParticipantResponse)
    (r : CreateSipParticipantRequest) (trunk : option SipOutboundTrunkInfo) : Handler Outside SipParticipantInfo :=
  let! ireq := lift (build_internal trunk idx call_id r) in
  let! _ := bus_client in
  let! _ := send_rpc (SentCreate ireq (if cs_wait_until_answered r then ANSWER_TIMEOUT else DEFAULT_TIMEOUT)) in
  let! resp := lift (map_err psrpc_to_twirp answer) in
  ret (mkSipParticipant (cp_participant_id resp) (cp_participant_identity resp) (cs_room_name r) (cp_sip_call_id resp)).

(** [rl] and [sid] are those of a new room. *)
Definition create_sip_participant (limits : option (Z * Z * Z)) (rl : loc) (sid : string) (idx : nat) (call_id : string)
    (answer : Result PsrpcError InternalCreateSipParticipantResponse) (token : VerifiedToken)
    (body : Result TwirpError CreateSipParticipantRequest) : Handler Outside SipParticipantInfo :=
  let! _ := lift (ensure_sip_call token) in
  let! r := lift body in
  if (cs_sip_call_to r =? "")%string then throw (invalid_argument, "sip_call_to is required")
  else if (cs_room_name r =? "")%string then throw (invalid_argument, "room_name is required")
  else
    let! _ := on_world (get_or_create_room (cs_room_name r) rl sid limits) in
    let! trunk := if (cs_sip_trunk_id r =? "")%string then ret None
                  else let! t := on_store (load_outbound (cs_sip_trunk_id r)) in ret (Some t) in
    dial idx call_id answer r trunk.

(** The participant with an identity in a named room, as [TransferSIPParticipant] looks it up. *)
Definition sip_participant (room identity : string) (w : World) : Result TwirpError Participant :=
  rl ← ok_or (get_room room w) (not_found, "requested room does not exist");
  ok_or (r ← w_rooms w !! rl; pl ← get_participant_by_identity w identity r; w_parts w !! pl) (not_found, "participant does not exist").

Definition transfer_sip_participant (answer : Result PsrpcError unit) (token : VerifiedToken)
    (body : Result TwirpError TransferSipParticipantRequest) : Handler Outside unit :=
  let! r := lift body in
  if (ts_room_name r =? "")%string then throw (invalid_argument, "Missing room name")
  else if (ts_participant_identity r =? "")%string then throw (invalid_argument, "Missing participant identity")
  else
    let! _ := lift (ensure_sip_call token) in
    let! _ := lift (ensure_admin token (ts_room_name r)) in
    if (ts_transfer_to r =? "")%string then throw (invalid_argument, "Missing transferTo")
    else
      let! found := on_world (fun w => (w, sip_participant (ts_room_name r) (ts_participant_identity r) w)) in
      let! p := lift found in
      let! call := lift (ok_or (p_attributes p !! CALL_ID_KEY) (invalid_argument, "no SIP session associated with participant")) in
      let! _ := bus_client in
      let! _ := send_rpc (SentTransfer call (mkInternalTransfer call (ts_transfer_to r) (ts_play_dialtone r) (ts_headers r) (ts_ringing_timeout r))) in
      lift (map_err psrpc_to_twirp answer).

(** * Egress *)

Definition running (status : Z) : bool := (status =? EGRESS_STARTING) || (status =? EGRESS_ACTIVE).

(** [start_egress], while [env] happens before the recorder's answer is read. *)
Definition start_egress (egress_id room_name : string) (request : EgressRequest) (env : Outside -> Outside)
    (answer : Result PsrpcError EgressInfo) : Handler Outside EgressInfo :=
  let! room_id := if (room_name =? "")%string then ret ""
                  else let! sid := on_world (fun w => (w, rl ← get_room room_name w; r_sid <$> w_rooms w !! rl)) in
                       lift (ok_or sid (not_found, "requested room does not exist")) in
  let! _ := bus_client in
  let! _ := send_rpc (SentStart (mkStart egress_id room_id (Some request)) room_name) in
  let! _ := meanwhile env in
  lift (map_err psrpc_to_twirp answer).

(** The start methods with their bodies. *)
Inductive StartCall :=
| StartRoomComposite (r : RoomCompositeEgressRequest) | StartUnified (r : UnifiedEgressRequest) | StartTrack (r : TrackEgressRequest)
| StartTrackComposite (r : TrackCompositeEgressRequest) | StartParticipant (r : ParticipantEgressRequest).
Definition start_room (c : StartCall) : string :=
  match c with
  | StartRoomComposite r => rc_room_name r | StartUnified r => ue_room_name r | StartTrack _ => ""
  | StartTrackComposite r => tc_room_name r | StartParticipant r => pe_room_name r
  end.
Definition start_request (c : StartCall) : EgressRequest :=
  match c with
  | StartRoomComposite r => ReqRoomComposite r | StartUnified r => ReqEgress r | StartTrack r => ReqTrack r
  | StartTrackComposite r => ReqTrackComposite r | StartParticipant r => ReqParticipant r
  end.

Definition start_call (egress_id : string) (env : Outside -> Outside) (answer : Result PsrpcError EgressInfo) (token : VerifiedToken)
    (body : Result TwirpError StartCall) : Handler Outside EgressInfo :=
  let! _ := lift (ensure_record token) in
  let! c := lift body in
  let! _ := lift (match c with
                  | StartRoomComposite r => guard_err (rc_room_name r =? "")%string (invalid_argument, "room_name is required")
                  | _ => Ok tt
                  end) in
  let! info := start_egress egress_id (start_room c) (start_request c) env answer in
  let! _ := on_store (writing (store_egress info)) in
  ret info.

Definition egress_listed (r : ListEgressRequest) (e : EgressInfo) : bool :=
  (if negb (le_egress_id r =? "")%string then (eg_egress_id e =? le_egress_id r)%string
   else if negb (le_room_name r =? "")%string then (eg_room_name e =? le_room_name r)%string else true)
  && (negb (le_active r) || running (eg_status e)).
Definition list_egress_call (token : VerifiedToken) (body : Result TwirpError ListEgressRequest) : Handler Outside (list EgressInfo) :=
  let! _ := lift (ensure_record token) in
  let! r := lift body in
  let! all := on_store (reading list_egress) in
  ret (filter (fun e => egress_listed r e = true) all).

(** The [Debug] name of a status, or its number. *)
Definition status_name (status : Z) : string :=
  default (fmt_dec status) (["EgressStarting"; "EgressActive"; "EgressEnding"; "EgressComplete"; "EgressFailed"; "EgressAborted";
    "EgressLimitReached"] !! Z.to_nat (if status <? 0 then 99 else status)).

Definition stop_call (env : Outside -> Outside) (answer : Result PsrpcError EgressInfo) (token : VerifiedToken)
    (body : Result TwirpError string) : Handler Outside EgressInfo :=
  let! _ := lift (ensure_record token) in
  let! id := lift body in
  if (id =? "")%string then throw (invalid_argument, "egress_id is required")
  else
    let! stored := on_store (reading (load_egress id)) in
    let! _ := lift (match stored with
                    | Some info => guard_err (negb (running (eg_status info)))
                                     (failed_precondition, "egress with status " +:+ status_name (eg_status info) +:+ " cannot be stopped")
                    | None => Err (not_found, "egress does not exist")
                    end) in
    let! _ := bus_client in
    let! _ := send_rpc (SentStop id) in
    let! _ := meanwhile env in
    let! info := lift (map_err psrpc_to_twirp answer) in
    let! _ := on_store (writing (store_egress info)) in
    ret info.
End Outbound.

(** * The outbound request *)

(** What is dialled.  The request to the gateway carries the drawn call id, also as an
    attribute, with the trunk; the number called from is the one requested or one of the
    trunk's, with a [+] for Twilio; headers of the request win over the trunk's; with hidden
    numbers no attribute beyond the two ids is added. *)
Theorem outbound_call_request trunk idx call_id r ireq : build_internal trunk idx call_id r = Ok ireq ->
  ic_sip_call_id ireq = call_id /\ ic_call_to ireq = cs_sip_call_to r /\ ic_room_name ireq = cs_room_name r /\
  ic_participant_attributes ireq !! CALL_ID_KEY = Some call_id /\
  ic_participant_attributes ireq !! "sip.trunkID" = Some (ic_sip_trunk_id ireq) /\
  (cs_hide_phone_number r = true -> forall k, k <> CALL_ID_KEY -> k <> "sip.trunkID" ->
     ic_participant_attributes ireq !! k = cs_participant_attributes r !! k) /\
  (exists n, (if (cs_sip_number r =? "")%string then exists t, trunk = Some t /\ n ∈ ot_numbers t else n = cs_sip_number r) /\
     (ic_number ireq = n \/ (ends_with "twilio.com" (ic_address ireq) = true /\ ic_number ireq = "+" +:+ n))) /\
  (forall k, ic_headers ireq !! k = or_else (cs_headers r !! k) (match trunk with Some t => ot_headers t !! k | None => None end)).
Proof.
  unfold build_internal. cbv zeta. destruct (outbound_number _ _ _ _) as [number|] eqn:Hn; [|done]. cbn. intros [= <-]. cbn.
  split_and!; try done.
  - unfold call_attributes. cbv zeta. case_match; rewrite ?lookup_insert_ne by done; apply lookup_insert_eq.
  - unfold call_attributes. cbv zeta. case_match; rewrite ?lookup_insert_ne by done; apply lookup_insert_eq.
  - intros Hh k H1 H2. unfold call_attributes. rewrite Hh. by rewrite !lookup_insert_ne.
  - unfold outbound_number in Hn. destruct (cs_sip_number r =? "")%string.
    + destruct trunk as [t|]; [|done]. destruct (ot_numbers t !! _) as [n|] eqn:En; [|done]. cbn in Hn. injection Hn as <-.
      exists n. split; [exists t; split; [done|by eapply list_elem_of_lookup_2]|].
      destruct (ends_with _ _) eqn:Et, (starts_with _ _); cbn; auto.
    + cbn in Hn. injection Hn as <-. exists (cs_sip_number r). split; [done|]. destruct (ends_with _ _) eqn:Et, (starts_with _ _); cbn; auto.
  - intros k. rewrite lookup_union. destruct trunk as [t|]; cbn; [by destruct (cs_headers r !! k), (ot_headers t !! k)|].
    destruct (cs_trunk r); cbn; rewrite lookup_empty; by destruct (cs_headers r !! k).
Qed.

(** A hidden number shows in the identity: without an identity of its own the participant is
    named after the number called, hidden or not. *)
Lemma hidden_number_in_identity trunk idx call_id r ireq : build_internal trunk idx call_id r = Ok ireq ->
  cs_participant_identity r = "" -> ic_participant_identity ireq = "sip_" +:+ cs_sip_call_to r.
Proof.
  intros E Hi. unfold build_internal in E. destruct (outbound_number _ _ _ _) as [number|]; [|done]. cbn in E. injection E as <-. cbn.
  by rewrite Hi.
Qed.

(** * What leaves the server *)

Lemma get_or_create_listed name rl0 sid limits w w1 rl :
  get_or_create_room name rl0 sid limits w = (w1, rl) -> get_room name w1 = Some rl.
Proof.
  unfold get_or_create_room, get_room. destruct (w_table w !! name) as [l|] eqn:El; intros [= <- <-]; [done|].
  cbn [w_table emit set_table set_rooms]. apply lookup_insert_eq.
Qed.

Section Guarded.
Context {B H : Type} `{HB : Backend B H}.
Context `{!Message B SipInboundTrunkInfo, !Message B SipOutboundTrunkInfo, !Message B SipDispatchRuleInfo, !Message B EgressInfo}.
Context (client : Result string unit).

Lemma bind_on_world {A C} (f : World -> World * A) (k : A -> Handler (Outside (H := H)) C) w a (s : Outside (H := H)) :
  f (ot_world s) = (w, a) -> bind (on_world f) k s = k a (mkOutside w (ot_store s) (ot_sent s)).
Proof. intros E. unfold bind, on_world. by rewrite E. Qed.
Lemma bind_on_store {A C} (m : Handler H A) (k : A -> Handler (Outside (H := H)) C) r h (s : Outside (H := H)) :
  m (ot_store s) = (r, h) -> bind (on_store m) k s =
    match r with Ok a => k a (mkOutside (ot_world s) h (ot_sent s)) | Err e => (Err e, mkOutside (ot_world s) h (ot_sent s)) end.
Proof. intros E. unfold bind, on_store. rewrite E. by destruct r. Qed.
Lemma load_outbound_eq id (h : H) : load_outbound id h =
  (match load_sip_outbound_trunk id h with Ok o => ok_or o (trunk_not_found id) | Err e => Err (twirp_internal, e) end, h).
Proof. unfold load_outbound, reading, bind. by destruct (load_sip_outbound_trunk id h). Qed.

(** The trunk a call goes through. *)
Definition trunk_for (q : CreateSipParticipantRequest) (h : H) (trunk : option SipOutboundTrunkInfo) : Prop :=
  if (cs_sip_trunk_id q =? "")%string then trunk = None
  else exists t, trunk = Some t /\ load_sip_outbound_trunk (cs_sip_trunk_id q) h = Ok (Some t).

Lemma dial_sends idx call_id answer q trunk (s : Outside (H := H)) :
  let s' := (dial client idx call_id answer q trunk s).2 in
  ot_store s' = ot_store s /\ ot_world s' = ot_world s /\
  (ot_sent s' = ot_sent s \/ exists ireq timeout, build_internal trunk idx call_id q = Ok ireq /\ ot_sent s' = ot_sent s ++ [SentCreate ireq timeout]).
Proof.
  cbv zeta. unfold dial. destruct (build_internal trunk idx call_id q) as [ireq|e]; [|by split_and!; [..|left]].
  rewrite (bind_lift_ok _ _ ireq) by done. unfold bus_client. destruct client as [[]|e]; [|by split_and!; [..|left]].
  destruct answer as [resp|e]; (split_and!; [done..|right]); by eexists ireq, _.
Qed.

Lemma create_sends limits rl sid idx call_id answer token body (s : Outside (H := H)) :
  let s' := (create_sip_participant client limits rl sid idx call_id answer token body s).2 in
  ot_store s' = ot_store s /\
  (ot_sent s' = ot_sent s \/
   exists q trunk ireq timeout, body = Ok q /\ sip_call (sip token) = true /\ trunk_for q (ot_store s) trunk /\
     build_internal trunk idx call_id q = Ok ireq /\ is_Some (get_room (cs_room_name q) (ot_world s')) /\
     ot_sent s' = ot_sent s ++ [SentCreate ireq timeout]).
Proof.
  cbv zeta. unfold create_sip_participant, ensure_sip_call. destruct (sip_call (sip token)); [|by split; [|left]].
  rewrite (bind_lift_ok _ _ tt) by done. destruct body as [q|e]; [|by split; [|left]]. rewrite (bind_lift_ok _ _ q) by done.
  destruct (cs_sip_call_to q =? "")%string; [by split; [|left]|]. destruct (cs_room_name q =? "")%string; [by split; [|left]|].
  destruct (get_or_create_room (cs_room_name q) rl sid limits (ot_world s)) as [w1 rl1] eqn:Hg. rewrite (bind_on_world _ _ _ _ _ Hg).
  apply get_or_create_listed in Hg. set (s1 := mkOutside w1 (ot_store s) (ot_sent s)).
  assert (forall trunk, trunk_for q (ot_store s) trunk -> let s' := (dial client idx call_id answer q trunk s1).2 in
    ot_store s' = ot_store s /\ (ot_sent s' = ot_sent s \/
      exists q0 trunk0 ireq timeout, Ok (E := TwirpError) q = Ok q0 /\ true = true /\ trunk_for q0 (ot_store s) trunk0 /\
        build_internal trunk0 idx call_id q0 = Ok ireq /\ is_Some (get_room (cs_room_name q0) (ot_world s')) /\
        ot_sent s' = ot_sent s ++ [SentCreate ireq timeout])) as Hdial.
  { intros trunk Ht. cbv zeta. destruct (dial_sends idx call_id answer q trunk s1) as (E1 & E2 & E3). split; [done|].
    destruct E3 as [E3|(ireq & timeout & Eb & E3)]; [by left|right]. exists q, trunk, ireq, timeout. by rewrite E2. }
  unfold trunk_for in Hdial at 1. destruct (cs_sip_trunk_id q =? "")%string eqn:Hid; [rewrite bind_ret; exact (Hdial None eq_refl)|].
  pose proof (load_outbound_eq (cs_sip_trunk_id q) (ot_store s1)) as El. cbn [ot_store s1] in El.
  rewrite bind_assoc, (bind_on_store _ _ _ _ s1 El).
  destruct (load_sip_outbound_trunk (cs_sip_trunk_id q) (ot_store s)) as [[t|]|e] eqn:El'; cbn [ok_or]; [|by split; [|left]..].
  apply (Hdial (Some t)). by exists t.
Qed.

Lemma transfer_sends answer' token body' (s : Outside (H := H)) :
  let s' := (transfer_sip_participant client answer' token body' s).2 in
  ot_store s' = ot_store s /\ ot_world s' = ot_world s /\
  (ot_sent s' = ot_sent s \/
   exists q p call ireq, body' = Ok q /\ sip_call (sip token) = true /\ admin_of token (ts_room_name q) = true /\
     sip_participant (ts_room_name q) (ts_participant_identity q) (ot_world s) = Ok p /\
     p_attributes p !! CALL_ID_KEY = Some call /\ it_call_id ireq = call /\ it_transfer_to ireq = ts_transfer_to q /\
     ot_sent s' = ot_sent s ++ [SentTransfer call ireq]).
Proof.
  cbv zeta. unfold transfer_sip_participant, ensure_sip_call, ensure_admin. destruct body' as [q|e]; [|by split_and!; [..|left]].
  rewrite (bind_lift_ok _ _ q) by done. destruct (ts_room_name q =? "")%string; [by split_and!; [..|left]|].
  destruct (ts_participant_identity q =? "")%string; [by split_and!; [..|left]|].
  destruct (sip_call (sip token)); [|by split_and!; [..|left]]. rewrite (bind_lift_ok _ _ tt) by done.
  fold (admin_of token (ts_room_name q)). destruct (admin_of token (ts_room_name q)) eqn:Hadm; [|by split_and!; [..|left]].
  rewrite (bind_lift_ok _ _ tt) by done. destruct (ts_transfer_to q =? "")%string; [by split_and!; [..|left]|].
  erewrite bind_on_world by reflexivity. destruct s as [w h sent]. cbn [ot_world ot_store ot_sent].
  destruct (sip_participant _ _ w) as [p|e] eqn:Hp; [|by split_and!; [..|left]].
  rewrite (bind_lift_ok _ _ p) by done. destruct (p_attributes p !! CALL_ID_KEY) as [call|] eqn:Hc; [|by split_and!; [..|left]].
  rewrite (bind_lift_ok _ _ call) by done. unfold bus_client. destruct client as [[]|e]; [|by split_and!; [..|left]].
  destruct answer' as [[]|e]; (split_and!; [done..|right]); 
    by exists q, p, call, (mkInternalTransfer call (ts_transfer_to q) (ts_play_dialtone q) (ts_headers q) (ts_ringing_timeout q)).
Qed.

(** C34: SIP requests leave only for granted callers.  [CreateSIPParticipant] sends at most one
    request, for a token with the call grant, built from the stored trunk it names, and its
    room is there by then; [TransferSIPParticipant] sends at most one request, for a token
    with the call grant and the admin grant of the room, for the call of a participant of
    that very room; both leave the store alone, and a transfer changes no room. *)
Theorem sip_requests_guarded limits rl sid idx call_id answer answer' token body body' (s : Outside (H := H)) :
  (let s' := (create_sip_participant client limits rl sid idx call_id answer token body s).2 in
   ot_store s' = ot_store s /\
   (ot_sent s' = ot_sent s \/
    exists q trunk ireq timeout, body = Ok q /\ sip_call (sip token) = true /\ trunk_for q (ot_store s) trunk /\
      build_internal trunk idx call_id q = Ok ireq /\ is_Some (get_room (cs_room_name q) (ot_world s')) /\
      ot_sent s' = ot_sent s ++ [SentCreate ireq timeout])) /\
  (let s' := (transfer_sip_participant client answer' token body' s).2 in
   ot_store s' = ot_store s /\ ot_world s' = ot_world s /\
   (ot_sent s' = ot_sent s \/
    exists q p call ireq, body' = Ok q /\ sip_call (sip token) = true /\ admin_of token (ts_room_name q) = true /\
      sip_participant (ts_room_name q) (ts_participant_identity q) (ot_world s) = Ok p /\
      p_attributes p !! CALL_ID_KEY = Some call /\ it_call_id ireq = call /\ it_transfer_to ireq = ts_transfer_to q /\
      ot_sent s' = ot_sent s ++ [SentTransfer call ireq])).
Proof. split; [apply create_sends|apply transfer_sends]. Qed.

(** A failed call leaves its room behind: the room is made before the trunk is looked up. *)
Lemma failed_call_leaves_room limits rl sid idx call_id answer token q (s : Outside (H := H)) :
  sip_call (sip token) = true -> cs_sip_call_to q <> "" -> cs_room_name q <> "" -> cs_sip_trunk_id q <> "" ->
  load_sip_outbound_trunk (cs_sip_trunk_id q) (ot_store s) = Ok None ->
  let '(r, s') := create_sip_participant client limits rl sid idx call_id answer token (Ok q) s in
  r = Err (trunk_not_found (cs_sip_trunk_id q)) /\ ot_sent s' = ot_sent s /\ is_Some (get_room (cs_room_name q) (ot_world s')).
Proof.
  intros Hc H1 H2 H3 Hl. unfold create_sip_participant, ensure_sip_call. rewrite Hc, (bind_lift_ok _ _ tt), (bind_lift_ok _ _ q) by done.
  apply String.eqb_neq in H1 as ->, H2 as ->, H3 as ->.
  destruct (get_or_create_room (cs_room_name q) rl sid limits (ot_world s)) as [w1 rl1] eqn:Hg. rewrite (bind_on_world _ _ _ _ _ Hg).
  apply get_or_create_listed in Hg. pose proof (load_outbound_eq (cs_sip_trunk_id q) (ot_store s)) as El. rewrite Hl in El.
  rewrite bind_assoc, (bind_on_store _ _ _ _ (mkOutside w1 (ot_store s) (ot_sent s)) El). cbn. by rewrite Hg.
Qed.

(** * The egress API *)

(** A stop that cannot succeed sends nothing and changes nothing. *)
Lemma stop_only_running env answer token id (s : Outside (H := H)) :
  (forall info, load_egress id (ot_store s) = Ok (Some info) -> running (eg_status info) = false) ->
  exists e, stop_call client env answer token (Ok id) s = (Err e, s).
Proof.
  intros Hr. unfold stop_call, ensure_record. destruct (room_record (video token)); [|by eexists].
  rewrite (bind_lift_ok _ _ tt), (bind_lift_ok _ _ id) by done. destruct (id =? "")%string; [by eexists|].
  assert (reading (load_egress id) (ot_store s) = (map_err (fun e => (twirp_internal, e)) (load_egress id (ot_store s)), ot_store s)) as El by done.
  rewrite (bind_on_store _ _ _ _ _ El). destruct s as [w h sent]. cbn [ot_world ot_store ot_sent] in *.
  destruct (load_egress id h) as [[info|]|e]; cbn [map_err]; [|by eexists..]. rewrite (Hr info eq_refl). by eexists.
Qed.

Context `{!BackendLaws B H}.

(** The recorder's answer overwrites its reports.  Whatever happened while the server waited
    for the answer to a start request (the recorder reporting that the recording is active,
    or over), the answer is stored last: the recording is then stored, and listed as running,
    with the status of the answer. *)
Theorem start_answer_overwrites egress_id env info token c (s s' : Outside (H := H)) reply :
  start_call client egress_id env (Ok info) token (Ok c) s = (Ok reply, s') ->
  reply = info /\ tb_egress (tables (ot_store s')) (eg_egress_id info) = Some info /\
  (running (eg_status info) = true -> forall all, store_wf (ot_store s') -> list_egress (ot_store s') = Ok all ->
   info ∈ filter (fun e => egress_listed (mkListEgress "" (eg_egress_id info) true) e = true) all).
Proof.
  unfold start_call. intros (u & s1 & _ & (c1 & s2 & _ & (u2 & s3 & _ & (i & s4 & Hs & (u3 & s5 & Hw & Hr)%bind_inv)%bind_inv)%bind_inv)%bind_inv)%bind_inv.
  assert (i = info) as ->.
  { unfold start_egress in Hs. repeat apply bind_inv in Hs as (? & ? & _ & Hs). by injection Hs. }
  injection Hr as <- <-. unfold on_store in Hw. destruct (writing (store_egress info) (ot_store s4)) as [r h] eqn:E.
  injection Hw as -> <-. cbn [ot_store]. apply writing_inv in E. pose proof (run_tables (StoreEgress info) _ _ E) as (_ & _ & _ & Ht).
  assert (tb_egress (tables h) (eg_egress_id info) = Some info) as Hst.
  { rewrite Ht. cbn. unfold upd. by rewrite decide_True. }
  split_and!; [done..|]. intros Hrun all (_ & _ & _ & Hd) Hall. apply list_elem_of_filter. split.
  { unfold egress_listed. cbn [le_egress_id le_room_name le_active]. rewrite Hrun, String.eqb_refl. by destruct (negb _). }
  destruct (list_with_view KEY_EGRESS h all eq_refl Hall Hd) as (ids & _ & Hin & Hp). rewrite Hp. apply list_elem_of_omap.
  exists (eg_egress_id info). split; [apply Hin; cbn in Hst; rewrite Hst; by eauto|exact Hst].
Qed.
End Guarded.

(** * A recording that is over before its start is answered *)

Module EgressDemo.
Definition recorder : VerifiedToken :=
  mkToken "devkey" "rec" "" "" ∅ "" (mkVideoGrant false false true false false "" None None None [] None false false false None "")
    (mkSipGrant false false) None "" "" None.
Definition started : EgressInfo := mkEgress "EG_1" "r" EGRESS_STARTING "".
Definition ended : EgressInfo := mkEgress "EG_1" "r" EGRESS_COMPLETE "".
(** The recorder reports the end. *)
Definition report (h : MemoryStore Encoded) : EgressIo (H := MemoryStore Encoded) := (update_egress (B := Encoded) ended (mkEgressIo h ∅ [])).2.
Definition env (s : Outside (H := MemoryStore Encoded)) : Outside := mkOutside (ot_world s) (io_store (report (ot_store s))) (ot_sent s).
Definition track : StartCall := StartTrack (mkTrackEgress "r" "TR_1" "" None).
Definition before : Outside (H := MemoryStore Encoded) := mkOutside (empty_world 5000000) empty_memory [].
Definition after := start_call (B := Encoded) (Ok tt) "EG_1" env (Ok started) recorder (Ok track) before.
End EgressDemo.

(** The end was announced, and the recording is stored as starting. *)
Lemma start_answer_overwrites_witness : io_webhooks (EgressDemo.report empty_memory) = [egress_ended EgressDemo.ended] /\
  tb_egress (tables (B := Encoded) (ot_store EgressDemo.after.2)) "EG_1" = Some EgressDemo.started.
Proof.
  split; [reflexivity|].
  apply (start_answer_overwrites (B := Encoded) (Ok tt) "EG_1" EgressDemo.env EgressDemo.started EgressDemo.recorder EgressDemo.track
    EgressDemo.before EgressDemo.after.2 EgressDemo.started). vm_compute. reflexivity.
Defined.
