(* ===== verification/F64.v ===== *)
(** Rust's [f64]: IEEE 754 binary64 with round to nearest even, as the executable
    specification of the standard library computes it (53 bits of precision, exponents
    below 1024).  The operations are those the media statistics use. *)
From Stdlib Require Import ZArith Lia SpecFloat.
From stdpp Require Import base option.
From S2P Require Import Prelude.

Open Scope Z_scope.

Definition f64 := spec_float.

#[global] Instance f64_eq_dec : EqDecision f64.
Proof. intros x y. unfold Decision, f64. repeat decide equality. Defined.

(** [n as f64]. *)
Definition f64_of_Z (n : Z) : f64 := binary_normalize 53 1024 n 0 false.

Definition f64_add : f64 -> f64 -> f64 := SFadd 53 1024.
Definition f64_sub : f64 -> f64 -> f64 := SFsub 53 1024.
Definition f64_mul : f64 -> f64 -> f64 := SFmul 53 1024.
Definition f64_div : f64 -> f64 -> f64 := SFdiv 53 1024.
Definition f64_abs : f64 -> f64 := SFabs.
Definition f64_lt : f64 -> f64 -> bool := SFltb.
Definition f64_le : f64 -> f64 -> bool := SFleb.
Definition f64_ge (x y : f64) : bool := f64_le y x.
Definition f64_gt (x y : f64) : bool := f64_lt y x.

Definition is_nan (x : f64) : bool := match x with S754_nan => true | _ => false end.

(** [x.max(y)]: the other operand when one is not a number. *)
Definition f64_max (x y : f64) : f64 := if is_nan x then y else if f64_lt x y then y else x.

(** [x.clamp(lo, hi)] for [lo <= hi]. *)
Definition f64_clamp (lo hi x : f64) : f64 :=
  let x := if f64_lt x lo then lo else x in
  if f64_gt x hi then hi else x.

Declare Scope f64_scope.
Delimit Scope f64_scope with f64.
Bind Scope f64_scope with f64.
Infix "+" := f64_add : f64_scope.
Infix "-" := f64_sub : f64_scope.
Infix "*" := f64_mul : f64_scope.
Infix "/" := f64_div : f64_scope.
Coercion f64_of_Z : Z >-> f64.

(** * Comparisons *)

Lemma SFcompare_swap x y : SFcompare y x = CompOpp <$> SFcompare x y.
Proof.
  destruct x as [[]|[]| |[] m e], y as [[]|[]| |[] m' e']; cbn; try done;
    rewrite (Z.compare_antisym e e'); destruct (e ?= e'); cbn; try done;
    change (Pos.compare_cont Eq m' m) with (Pos.compare m' m);
    change (Pos.compare_cont Eq m m') with (Pos.compare m m');
    rewrite (Pos.compare_antisym m m'); destruct (Pos.compare m m'); done.
Qed.

Lemma SFcompare_nan x y : SFcompare x y = None <-> is_nan x || is_nan y = true.
Proof. destruct x as [[]|[]| |[] m e], y as [[]|[]| |[] m' e']; cbn; naive_solver. Qed.

(** Comparisons are total on numbers. *)
Lemma f64_not_lt x y : is_nan x = false -> is_nan y = false -> f64_lt x y = false -> f64_le y x = true.
Proof.
  intros Hx Hy. unfold f64_lt, f64_le, SFltb, SFleb. rewrite (SFcompare_swap x y).
  destruct (SFcompare x y) as [c|] eqn:E; [by destruct c|].
  apply SFcompare_nan in E. by rewrite Hx, Hy in E.
Qed.

Lemma f64_lt_le x y : f64_lt x y = true -> f64_le x y = true.
Proof. unfold f64_lt, f64_le, SFltb, SFleb. by destruct (SFcompare x y) as [[]|]. Qed.

Lemma f64_lt_nan x y : f64_lt x y = true -> is_nan x = false /\ is_nan y = false.
Proof.
  unfold f64_lt, SFltb. destruct (SFcompare x y) as [c|] eqn:E; [|done]. intros _.
  assert (SFcompare x y <> None) as H by congruence. rewrite SFcompare_nan in H.
  by destruct (is_nan x), (is_nan y).
Qed.

(** A clamped number lies between the bounds. *)
Lemma f64_clamp_range lo hi x :
  is_nan x = false -> is_nan hi = false -> f64_le lo hi = true -> f64_le lo lo = true -> f64_le hi hi = true ->
  let y := f64_clamp lo hi x in f64_le lo y = true /\ f64_le y hi = true.
Proof.
  intros Hx Hh Hlh Hll Hhh. unfold f64_clamp, f64_gt.
  assert (is_nan lo = false) as Hl.
  { unfold f64_le, SFleb in Hll. by destruct lo. }
  destruct (f64_lt x lo) eqn:E1.
  - by destruct (f64_lt hi lo).
  - destruct (f64_lt hi x) eqn:E2; [done|]. split; by apply f64_not_lt.
Qed.

Lemma f64_clamp_cases lo hi x :
  f64_clamp lo hi x = lo \/ f64_clamp lo hi x = hi \/ f64_clamp lo hi x = x.
Proof. unfold f64_clamp. repeat case_match; auto. Qed.

(** * Integers and scaling by a power of two *)

(** [x.floor() as usize]: truncation towards zero, saturating; not-a-number gives 0. *)
Definition f64_floor_usize (x : f64) : Z :=
  match x with
  | S754_finite false m e => Z.min (if 0 <=? e then Z.shiftl (Zpos m) e else Z.shiftr (Zpos m) (- e)) (2 ^ 64 - 1)
  | S754_infinity false => 2 ^ 64 - 1
  | _ => 0
  end.

Lemma digits2_bounds p : 2 ^ (Zpos (digits2_pos p) - 1) <= Zpos p < 2 ^ Zpos (digits2_pos p).
Proof.
  induction p as [p IH|p IH|]; [..|done]; cbn [digits2_pos]; rewrite Pos2Z.inj_succ;
    replace (Z.succ (Zpos (digits2_pos p)) - 1) with (Z.succ (Zpos (digits2_pos p) - 1)) by lia;
    rewrite !Z.pow_succ_r by lia; lia.
Qed.

Lemma digits2_small p k : Zpos p < 2 ^ k -> 0 <= k -> Zpos (digits2_pos p) <= k.
Proof.
  intros H Hk. destruct (digits2_bounds p) as [Hl _]. assert (2 ^ (Zpos (digits2_pos p) - 1) < 2 ^ k) as Hlt by lia.
  apply Z.pow_lt_mono_r_iff in Hlt; lia.
Qed.

Lemma digits2_iter p d : Zpos (digits2_pos (Pos.iter xO p d)) = Zpos (digits2_pos p) + Zpos d.
Proof.
  revert p. induction d as [|d IH] using Pos.peano_ind; intros p; [cbn; lia|].
  rewrite Pos.iter_succ. cbn [digits2_pos]. rewrite Pos2Z.inj_succ, IH. lia.
Qed.

Lemma iter_xO_shift p d : Zpos (Pos.iter xO p d) = Zpos p * 2 ^ Zpos d.
Proof.
  induction d as [|d IH] using Pos.peano_ind; [cbn; lia|].
  rewrite Pos.iter_succ, Pos2Z.inj_succ, Z.pow_succ_r by lia. rewrite Pos2Z.inj_xO, IH. lia.
Qed.

(** A 53-bit mantissa is not rounded. *)
Lemma round_exact s m e : Zpos (digits2_pos m) = 53 -> -1074 <= e <= 971 ->
  binary_round_aux 53 1024 s (Zpos m) e loc_Exact = S754_finite s m e.
Proof.
  intros Hd He. unfold binary_round_aux, shr_fexp. cbn [shr_record_of_loc Zdigits2]. unfold fexp, SpecFloat.emin. rewrite Hd.
  replace (Z.max (53 + e - 53) (3 - 1024 - 53) - e) with 0 by lia. cbn [shr shr_m loc_of_shr_record round_nearest_even Zdigits2]. rewrite Hd.
  replace (Z.max (53 + e - 53) (3 - 1024 - 53) - e) with 0 by lia. cbn [shr shr_m].
  destruct (Z.leb_spec e (1024 - 53)); [done|lia].
Qed.

(** An integer of at most 53 bits is represented exactly. *)
Lemma f64_of_Z_exact n : 0 < n < 2 ^ 53 ->
  exists m e, f64_of_Z n = S754_finite false m e /\ Zpos (digits2_pos m) = 53 /\ -52 <= e <= 0 /\ Zpos m = n * 2 ^ (- e).
Proof.
  intros [H0 H1]. destruct n as [|p|p]; try lia. pose proof (digits2_small p 53 H1 ltac:(lia)) as Hd.
  unfold f64_of_Z, binary_normalize, binary_round, shl_align, fexp, SpecFloat.emin.
  replace (Z.max (Zpos (digits2_pos p) + 0 - 53) (3 - 1024 - 53) - 0) with (Zpos (digits2_pos p) - 53) by lia.
  replace (Z.max (Zpos (digits2_pos p) + 0 - 53) (3 - 1024 - 53)) with (Zpos (digits2_pos p) - 53) by lia.
  destruct (Zpos (digits2_pos p) - 53) as [|d|d] eqn:E; [|lia|].
  - exists p, 0. rewrite round_exact by lia. split_and!; [done|lia|lia|lia|]. cbn. lia.
  - exists (Pos.iter xO p d), (Zneg d). pose proof (digits2_iter p d). rewrite round_exact by lia.
    split_and!; [done|lia|lia|lia|]. rewrite iter_xO_shift. by replace (- Zneg d) with (Zpos d) by lia.
Qed.

(** Halving [k] times is exact, and its integer part is the quotient. *)
Lemma f64_scale n k : 0 < n < 2 ^ 53 -> 0 <= k <= 53 ->
  f64_floor_usize (f64_mul (f64_of_Z n) (S754_finite false 4503599627370496 (-52 - k))) = n / 2 ^ k.
Proof.
  intros Hn Hk. destruct (f64_of_Z_exact n Hn) as (m & e & -> & Hd & He & Hm).
  assert (f64_mul (S754_finite false m e) (S754_finite false 4503599627370496 (-52 - k)) = S754_finite false m (e - k)) as ->.
  { unfold f64_mul, SFmul. cbn [xorb]. unfold binary_round_aux, shr_fexp. cbn [shr_record_of_loc].
    change (Zpos (m * 4503599627370496)) with (Zpos m * 2 ^ 52).
    assert (Zpos m * 2 ^ 52 = Zpos (Pos.iter xO m 52)) as -> by (by rewrite iter_xO_shift).
    cbn [Zdigits2]. rewrite digits2_iter, Hd. unfold fexp, SpecFloat.emin.
    replace (Z.max (53 + 52 + (e + (-52 - k)) - 53) (3 - 1024 - 53) - (e + (-52 - k))) with 52 by lia.
    cbn -[Z.max Z.leb Z.sub Z.add Zdigits2]. cbn [Zdigits2]. rewrite Hd.
    replace (Z.max (53 + (e + (-52 - k) + 52) - 53) (3 - 1024 - 53) - (e + (-52 - k) + 52)) with 0 by lia.
    cbn [shr shr_m]. replace (e + (-52 - k) + 52) with (e - k) by lia.
    destruct (Z.leb_spec (e - k) (1024 - 53)); [done|lia]. }
  unfold f64_floor_usize.
  assert ((if 0 <=? e - k then Z.shiftl (Zpos m) (e - k) else Z.shiftr (Zpos m) (- (e - k))) = n / 2 ^ k) as ->.
  { destruct (Z.leb_spec 0 (e - k)).
    - assert (e = 0 /\ k = 0) as [-> ->] by lia. change (0 - 0) with 0. rewrite Z.shiftl_0_r, Hm. by rewrite Z.div_1_r, Z.mul_1_r.
    - rewrite Z.shiftr_div_pow2 by lia. rewrite Hm. replace (- (e - k)) with (- e + k) by lia.
      rewrite Z.pow_add_r, (Z.mul_comm (2 ^ (- e))) by lia.
      apply Z.div_mul_cancel_r; apply Z.pow_nonzero; lia. }
  rewrite Z.min_l; [done|]. transitivity n; [|lia]. apply Z.div_le_upper_bound; [lia|].
  assert (1 <= 2 ^ k) by (apply (Z.pow_le_mono_r 2 0 k); lia). nia.
Qed.
