(* ===== verification/Metrics.v ===== *)
(** Metrics, [crates/lk-server/src/metrics.rs]: the table of collectors with their names,
    labels and buckets, the start-up that registers and primes them, and the store of series
    the rest of the server updates.

    The [prometheus] crate is external: registration is a parameter with its documented rules,
    and a series is the sum of what was added to it or the list of what was observed.  An
    access with the wrong number of labels panics in the crate; the store records that. *)
From Stdlib Require Import ZArith Lia Ascii String.
From stdpp Require Import base gmap strings list option.
From S2P Require Import Prelude RustStr F64.

Open Scope string_scope.
Open Scope list_scope.
Open Scope Z_scope.

(** * The collectors *)

(** The public fields of [Metrics]. *)
Inductive Metric :=
| room_total | room_duration
| participant_total | participant_join | connection_total
| session_join_latency | session_start_time | session_duration
| track_published | track_subscribed | track_publish_counter | track_subscribe_counter
| quality_rating | quality_score
| packet_total | packet_bytes | nack_total | pli_total | fir_total
| packet_loss_percent | packet_loss_total | packet_out_of_order_percent | packet_out_of_order_total
| jitter_us | rtt_ms
| forward_latency | forward_jitter | forward_latency_ns.

#[global] Instance Metric_eq_dec : EqDecision Metric.
Proof. solve_decision. Defined.

(** In the order of [register_all]. *)
Definition all_metrics : list Metric :=
  [room_total; room_duration; participant_total; participant_join; connection_total;
   session_join_latency; session_start_time; session_duration; track_published; track_subscribed;
   track_publish_counter; track_subscribe_counter; quality_rating; quality_score; packet_total;
   packet_bytes; nack_total; pli_total; fir_total; packet_loss_percent; packet_loss_total;
   packet_out_of_order_percent; packet_out_of_order_total; jitter_us; rtt_ms; forward_latency;
   forward_jitter; forward_latency_ns].

Definition metric_index (m : Metric) : nat :=
  match m with
  | room_total => 0 | room_duration => 1 | participant_total => 2 | participant_join => 3
  | connection_total => 4 | session_join_latency => 5 | session_start_time => 6 | session_duration => 7
  | track_published => 8 | track_subscribed => 9 | track_publish_counter => 10
  | track_subscribe_counter => 11 | quality_rating => 12 | quality_score => 13 | packet_total => 14
  | packet_bytes => 15 | nack_total => 16 | pli_total => 17 | fir_total => 18
  | packet_loss_percent => 19 | packet_loss_total => 20 | packet_out_of_order_percent => 21
  | packet_out_of_order_total => 22 | jitter_us => 23 | rtt_ms => 24 | forward_latency => 25
  | forward_jitter => 26 | forward_latency_ns => 27
  end.

Lemma all_metrics_index m : all_metrics !! metric_index m = Some m.
Proof. by destruct m. Qed.
Lemma elem_of_all_metrics m : m ∈ all_metrics.
Proof. exact (list_elem_of_lookup_2 _ _ _ (all_metrics_index m)). Qed.

#[global] Instance Metric_countable : Countable Metric :=
  inj_countable metric_index (fun i => all_metrics !! i) all_metrics_index.

Inductive Collector := IntGauge | IntGaugeVec | IntCounterVec | Histogram | HistogramVec | Gauge.

(** What a collector is created with; [const_labels] are the node's. *)
Record Desc := mkDesc {
  de_kind : Collector;
  de_name : string;
  de_help : string;
  de_labels : list string;
  de_buckets : list f64;
  de_const_labels : gmap string string
}.

Definition node_labels (node_id node_type : string) : gmap string string :=
  <["node_type" := node_type]> (<["node_id" := node_id]> ∅).

Section Collectors.
Context (nl : gmap string string).

Definition hist_vec (name help : string) (buckets : list f64) (labels : list string) : Desc :=
  mkDesc HistogramVec name help labels buckets nl.
Definition counter_vec (name help : string) (labels : list string) : Desc :=
  mkDesc IntCounterVec name help labels [] nl.
Definition gauge_vec (name help : string) (labels : list string) : Desc :=
  mkDesc IntGaugeVec name help labels [] nl.
Definition gauge (name help : string) : Desc := mkDesc IntGauge name help [] [] nl.
(** [Histogram::with_opts] and [Gauge::with_opts] with the node's labels. *)
Definition histogram (name help : string) (buckets : list f64) : Desc := mkDesc Histogram name help [] buckets nl.
Definition float_gauge (name help : string) : Desc := mkDesc Gauge name help [] [] nl.
End Collectors.

(** Literals with decimals: [n] tenths or hundredths. *)
Definition tenths (n : Z) : f64 := (n / 10)%f64.
Definition hundredths (n : Z) : f64 := (n / 100)%f64.

Definition stream_labels : list string := ["direction"; "source"; "type"; "country"].
Definition percent_buckets : list f64 :=
  [tenths 0; tenths 1; tenths 3; tenths 5; tenths 7; tenths 10; tenths 50; tenths 100; tenths 400; tenths 1000].

Section Table.
(** [prometheus::exponential_buckets]. *)
Context (exponential_buckets : f64 -> f64 -> nat -> list f64).

Definition describe (nl : gmap string string) (m : Metric) : Desc :=
  match m with
  | room_total => gauge nl "livekit_room_total" "Number of active rooms."
  | room_duration =>
      histogram nl "livekit_room_duration_seconds" "Room lifetime in seconds."
        (f64_of_Z <$> [5; 10; 60; 300; 600; 1800; 3600; 7200; 18000; 36000])
  | participant_total => gauge nl "livekit_participant_total" "Number of active participants."
  | participant_join =>
      counter_vec nl "livekit_participant_join_total" "Total participants that connected to the signal channel."
        ["state"; "warp"]
  | connection_total =>
      gauge_vec nl "livekit_connection_total" "Current number of signal connections by direction." ["kind"]
  | session_join_latency =>
      hist_vec nl "livekit_session_join_latency_ms" "Time (ms) from signal connect to session established."
        (exponential_buckets 10 2 11) ["protocol_version"]
  | session_start_time =>
      hist_vec nl "livekit_session_start_time_ms" "Time (ms) from signal connect to first track published."
        (exponential_buckets 100 2 7) ["protocol_version"; "warp"]
  | session_duration =>
      hist_vec nl "livekit_session_duration_ms" "Participant session duration (ms)."
        (exponential_buckets 100 2 15) ["protocol_version"]
  | track_published => gauge_vec nl "livekit_track_published_total" "Number of currently published tracks." ["kind"]
  | track_subscribed => gauge_vec nl "livekit_track_subscribed_total" "Number of currently subscribed tracks." ["kind"]
  | track_publish_counter =>
      counter_vec nl "livekit_track_publish_counter_total" "Number of track publish attempts by kind and state."
        ["kind"; "state"]
  | track_subscribe_counter =>
      counter_vec nl "livekit_track_subscribe_counter_total" "Number of track subscribe attempts by state."
        ["state"; "error"]
  | quality_rating =>
      histogram nl "livekit_quality_rating" "Connection quality rating." (f64_of_Z <$> [0; 1; 2])
  | quality_score =>
      histogram nl "livekit_quality_score" "Connection quality score (0-5)."
        (hundredths <$> [100; 200; 250; 300; 325; 350; 375; 400; 425; 450])
  | packet_total =>
      counter_vec nl "livekit_packet_total" "Total RTP packets forwarded by direction and transmission type."
        ["direction"; "transmission"]
  | packet_bytes =>
      counter_vec nl "livekit_packet_bytes" "Total RTP bytes forwarded by direction and transmission type."
        ["direction"; "transmission"]
  | nack_total => counter_vec nl "livekit_nack_total" "Total RTCP NACKs received by direction." ["direction"; "country"]
  | pli_total => counter_vec nl "livekit_pli_total" "Total RTCP PLIs received by direction." ["direction"; "country"]
  | fir_total => counter_vec nl "livekit_fir_total" "Total RTCP FIRs received by direction." ["direction"; "country"]
  | packet_loss_percent =>
      hist_vec nl "livekit_packet_loss_percent" "Packet loss percentage by stream." percent_buckets stream_labels
  | packet_loss_total => counter_vec nl "livekit_packet_loss_total" "Total packets lost by stream." stream_labels
  | packet_out_of_order_percent =>
      hist_vec nl "livekit_packet_out_of_order_percent" "Out-of-order packet percentage by stream."
        percent_buckets stream_labels
  | packet_out_of_order_total =>
      counter_vec nl "livekit_packet_out_of_order_total" "Total out-of-order packets by stream." stream_labels
  | jitter_us =>
      hist_vec nl "livekit_jitter_us" "Interarrival jitter in microseconds by stream."
        (f64_of_Z <$> [1000; 10000; 30000; 50000; 70000; 100000; 300000; 600000; 1000000]) stream_labels
  | rtt_ms =>
      hist_vec nl "livekit_rtt_ms" "Round-trip time in milliseconds by stream."
        (f64_of_Z <$> [50; 100; 150; 200; 250; 500; 750; 1000; 5000; 10000]) stream_labels
  | forward_latency => float_gauge nl "livekit_forward_latency" "Long-term average forwarding latency (ns)."
  | forward_jitter => float_gauge nl "livekit_forward_jitter" "Long-term forwarding jitter, stddev (ns)."
  | forward_latency_ns =>
      histogram nl "livekit_forward_latency_ns" "Per-packet forwarding latency (ns)."
        (f64_of_Z <$> [50000; 100000; 250000; 500000; 1000000; 2000000; 3000000; 5000000; 10000000; 20000000])
  end.
End Table.

(** The number of labels of a collector. *)
Definition arity (m : Metric) : nat := length (de_labels (describe (fun _ _ _ => []) ∅ m)).

(** * The store of series *)

Notation series := (Metric * list string)%type.

(** Integer series, observed values of histograms, float gauges, and whether an access
    panicked. *)
Record Metrics := mkMetrics {
  mt_int : gmap series Z;
  mt_obs : gmap series (list f64);
  mt_float : gmap Metric f64;
  mt_panicked : bool
}.

Definition is_histogram (m : Metric) : bool :=
  match de_kind (describe (fun _ _ _ => []) ∅ m) with Histogram | HistogramVec => true | _ => false end.

(** [m.with_label_values(labels)]: the series exists from then on. *)
Definition with_label_values (m : Metric) (labels : list string) (s : Metrics) : Metrics :=
  if negb (length labels =? arity m)%nat then mkMetrics (mt_int s) (mt_obs s) (mt_float s) true
  else if is_histogram m
  then mkMetrics (mt_int s) (<[(m, labels) := default [] (mt_obs s !! (m, labels))]> (mt_obs s))
         (mt_float s) (mt_panicked s)
  else mkMetrics (<[(m, labels) := default 0 (mt_int s !! (m, labels))]> (mt_int s)) (mt_obs s)
         (mt_float s) (mt_panicked s).

Definition int_value (m : Metric) (labels : list string) (s : Metrics) : Z := default 0 (mt_int s !! (m, labels)).
Definition observations (m : Metric) (labels : list string) (s : Metrics) : list f64 :=
  default [] (mt_obs s !! (m, labels)).

(** [inc_by], [inc], [dec] on a series. *)
Definition inc_by (m : Metric) (labels : list string) (n : Z) (s : Metrics) : Metrics :=
  let s := with_label_values m labels s in
  mkMetrics (alter (fun v => v + n) (m, labels) (mt_int s)) (mt_obs s) (mt_float s) (mt_panicked s).
Definition inc (m : Metric) (labels : list string) : Metrics -> Metrics := inc_by m labels 1.
Definition dec (m : Metric) (labels : list string) : Metrics -> Metrics := inc_by m labels (-1).

Definition observe (m : Metric) (labels : list string) (x : f64) (s : Metrics) : Metrics :=
  let s := with_label_values m labels s in
  mkMetrics (mt_int s) (alter (fun l => l ++ [x]) (m, labels) (mt_obs s)) (mt_float s) (mt_panicked s).

Definition set_float (m : Metric) (x : f64) (s : Metrics) : Metrics :=
  mkMetrics (mt_int s) (mt_obs s) (<[m := x]> (mt_float s)) (mt_panicked s).

(** ** Start-up *)

(** The accesses of [prime], in order. *)
Definition prime_series : list series :=
  [(participant_join, ["signal_connected"; ""]); (participant_join, ["signal_failed"; ""]);
   (participant_join, ["signal_validation_failed"; ""]); (participant_join, ["signal_upgrade_failed"; ""]);
   (connection_total, ["incoming"]); (connection_total, ["outgoing"]);
   (track_published, ["audio"]); (track_subscribed, ["audio"]);
   (track_publish_counter, ["audio"; "started"]); (track_publish_counter, ["audio"; "ended"]);
   (track_subscribe_counter, ["started"; ""]); (track_subscribe_counter, ["ended"; ""]);
   (session_join_latency, ["0"]); (session_start_time, ["0"; "false"]); (session_duration, ["0"]);
   (packet_total, ["incoming"; "initial"]); (packet_total, ["outgoing"; "initial"]);
   (packet_bytes, ["incoming"; "initial"]); (packet_bytes, ["outgoing"; "initial"])]
  ++ (["incoming"; "outgoing"] ≫= fun d =>
        [(nack_total, [d; ""]); (pli_total, [d; ""]); (fir_total, [d; ""])]
        ++ ([["incoming"; "audio"; "audio"; ""]; ["outgoing"; "audio"; "audio"; ""]] ≫= fun labels =>
              [(packet_loss_percent, labels); (packet_loss_total, labels);
               (packet_out_of_order_percent, labels); (packet_out_of_order_total, labels);
               (jitter_us, labels); (rtt_ms, labels)])).

Definition prime (s : Metrics) : Metrics := foldl (fun s ml => with_label_values ml.1 ml.2 s) s prime_series.

Section Startup.
(** The registry of the crate; creating a collector or registering it may fail. *)
Context {Registry : Type} (registry_new : Registry)
        (create : Desc -> Result string unit)
        (register : Desc -> Registry -> Result string Registry)
        (exponential_buckets : f64 -> f64 -> nat -> list f64).

(** [register_all]; an [expect] that fails panics. *)
Definition register_all (nl : gmap string string) (r : Registry) : Result string Registry :=
  foldl (fun acc m => r ← acc; register (describe exponential_buckets nl m) r) (Ok r) all_metrics.

(** [Metrics::new]: collectors are created, registered and primed; [Err] is a panic. *)
Definition Metrics_new (node_id node_type : string) : Result string (Registry * Metrics) :=
  let nl := node_labels node_id node_type in
  _ ← foldl (fun acc m => _ ← acc; create (describe exponential_buckets nl m)) (Ok ()) all_metrics;
  r ← register_all nl registry_new;
  Ok (r, prime (mkMetrics ∅ ∅ ∅ false)).
End Startup.

(** * The store is well formed *)

(** No access has panicked, every series has the labels of its collector, histograms and
    numbers are kept apart, and counters never went below zero. *)
Definition is_counter (m : Metric) : bool :=
  match de_kind (describe (fun _ _ _ => []) ∅ m) with IntCounterVec => true | _ => false end.

Record metrics_wf (s : Metrics) : Prop := {
  mw_panic : mt_panicked s = false;
  mw_int : forall m l v, mt_int s !! (m, l) = Some v ->
    length l = arity m /\ is_histogram m = false /\ (is_counter m = true -> 0 <= v);
  mw_obs : forall m l v, mt_obs s !! (m, l) = Some v -> length l = arity m /\ is_histogram m = true
}.

Lemma with_label_values_wf m l s :
  metrics_wf s -> length l = arity m -> metrics_wf (with_label_values m l s).
Proof.
  intros [Hp Hi Ho] Hl. unfold with_label_values. rewrite Hl, Nat.eqb_refl. cbn [negb].
  destruct (is_histogram m) eqn:Eh; (split; cbn [mt_panicked mt_int mt_obs]; [done| |]); try done.
  - intros m' l' v [[[= <- <-] _]|[_ H]]%lookup_insert_Some; [done|by eapply Ho].
  - intros m' l' v [[[= <- <-] <-]|[_ H]]%lookup_insert_Some; [|by eapply Hi].
    split_and!; [done|done|]. destruct (mt_int s !! (m, l)) as [v|] eqn:E; cbn; [|done]. by apply (Hi m l v E).
Qed.

Lemma inc_by_wf m l n s :
  metrics_wf s -> length l = arity m -> (is_counter m = true -> 0 <= n) -> metrics_wf (inc_by m l n s).
Proof.
  intros Hs Hl Hn. destruct (with_label_values_wf m l s Hs Hl) as [Hp Hi Ho].
  split; cbn [inc_by mt_panicked mt_int mt_obs]; [done| |done].
  intros m' l' v [([= <- <-] & v' & H & ->)|[_ H]]%lookup_alter_Some; [|by eapply Hi].
  destruct (Hi _ _ _ H) as (? & ? & Hc). split_and!; [done|done|]. intros E.
  specialize (Hn E). specialize (Hc E). lia.
Qed.

Lemma observe_wf m l x s : metrics_wf s -> length l = arity m -> metrics_wf (observe m l x s).
Proof.
  intros Hs Hl. destruct (with_label_values_wf m l s Hs Hl) as [Hp Hi Ho].
  split; cbn [observe mt_panicked mt_int mt_obs]; [done|done|].
  intros m' l' v [([= <- <-] & v' & H & ->)|[_ H]]%lookup_alter_Some; by eapply Ho.
Qed.

Lemma set_float_wf m x s : metrics_wf s -> metrics_wf (set_float m x s).
Proof. by intros [Hp Hi Ho]. Qed.

#[export] Hint Resolve with_label_values_wf inc_by_wf observe_wf set_float_wf : lk.

(** What an update does to the value read back. *)
Lemma inc_by_value m l n s m' l' :
  is_histogram m = false -> length l = arity m ->
  int_value m' l' (inc_by m l n s) = int_value m' l' s + (if decide ((m, l) = (m', l')) then n else 0).
Proof.
  intros Eh Hl. unfold int_value, inc_by, with_label_values. rewrite Hl, Nat.eqb_refl, Eh. cbn [negb mt_int].
  destruct (decide ((m, l) = (m', l'))) as [[= <- <-]|Hne].
  - by rewrite lookup_alter_eq, lookup_insert_eq.
  - rewrite lookup_alter_ne, lookup_insert_ne by done. lia.
Qed.

Lemma observe_int m l x s m' l' :
  length l = arity m -> is_histogram m = true -> int_value m' l' (observe m l x s) = int_value m' l' s.
Proof. intros Hl Eh. unfold int_value, observe, with_label_values. by rewrite Hl, Nat.eqb_refl, Eh. Qed.

Lemma prime_arity : Forall (fun ml : series => length ml.2 = arity ml.1) prime_series.
Proof. repeat constructor. Qed.

Lemma prime_wf s : metrics_wf s -> metrics_wf (prime s).
Proof.
  unfold prime. generalize prime_arity. generalize prime_series as l. intros l. revert s.
  induction l as [|[m la] l IH]; intros s Ha Hs; [done|].
  apply list.Forall_cons in Ha as [Hl Ha]. cbn [foldl fst snd]. apply IH; [done|]. auto with lk.
Qed.

(** * Start-up does not panic *)

Definition first_char (c : ascii) : bool := is_lower c || is_upper c || Ascii.eqb c "_".
Definition valid_label (s : string) : bool :=
  match s with
  | String c s' => first_char c && forallb (fun c => first_char c || is_digit c) (list_ascii_of_string s')
  | "" => false
  end.
(** Strictly increasing. *)
Fixpoint increasing (l : list f64) : bool :=
  match l with
  | x :: (y :: _) as l' => f64_lt x y && increasing l'
  | _ => true
  end.

(** The documented requirements on a collector: the syntax of names and labels, a help text,
    distinct labels, and for a histogram increasing buckets and no label [le]. *)
Definition desc_valid (d : Desc) : bool :=
  valid_label (de_name d) && negb (de_help d =? "")%string && forallb valid_label (de_labels d)
  && bool_decide (NoDup (de_labels d))
  && forallb (fun l => bool_decide (de_const_labels d !! l = None)) (de_labels d)
  && match de_kind d with
     | Histogram | HistogramVec =>
         increasing (de_buckets d) && negb (existsb (fun l => (l =? "le")%string) (de_labels d))
     | _ => true
     end.

(** Upper bounds from [start], each [factor] times the one before. *)
Fixpoint exponential (start factor : f64) (count : nat) : list f64 :=
  match count with
  | O => []
  | S n => start :: exponential (start * factor)%f64 factor n
  end.

Lemma describe_exponential eb nl m :
  (forall s f n, eb s f n = exponential s f n) -> describe eb nl m = describe exponential nl m.
Proof. intros H. destruct m; cbn [describe]; by rewrite ?H. Qed.

Lemma all_desc_valid id ty m : desc_valid (describe exponential (node_labels id ty) m) = true.
Proof. destruct m; vm_compute; reflexivity. Qed.

Definition metric_name (m : Metric) : string := de_name (describe (fun _ _ _ => []) ∅ m).
Lemma metric_names_distinct : NoDup (metric_name <$> all_metrics).
Proof. apply (bool_decide_unpack _). vm_compute. reflexivity. Qed.

Section NoPanic.
Context {Registry : Type} (registry_new : Registry) (names : Registry -> list string)
        (create : Desc -> Result string unit)
        (register : Desc -> Registry -> Result string Registry)
        (exponential_buckets : f64 -> f64 -> nat -> list f64).

(** Documented: a valid collector is created; one whose name is not taken is registered; the
    exponential buckets are what their description says. *)
Record PrometheusLaws : Prop := {
  pl_empty : names registry_new = [];
  pl_create : forall d, desc_valid d = true -> create d = Ok ();
  pl_register : forall d r, de_name d ∉ names r ->
    exists r', register d r = Ok r' /\ names r' = names r ++ [de_name d];
  pl_buckets : forall s f n, exponential_buckets s f n = exponential s f n
}.

Context (laws : PrometheusLaws).

Lemma create_all nl :
  (forall m, desc_valid (describe exponential nl m) = true) -> forall l,
  foldl (fun acc m => _ ← acc; create (describe exponential_buckets nl m)) (Ok ()) l = Ok ().
Proof.
  intros Hv l. induction l as [|m l IH]; [done|]. cbn [foldl mbind Result_bind].
  rewrite (describe_exponential _ _ _ (pl_buckets laws)), (pl_create laws) by apply Hv. exact IH.
Qed.

Lemma describe_name nl m : de_name (describe exponential_buckets nl m) = metric_name m.
Proof. by destruct m. Qed.

Lemma register_list nl l : forall r,
  NoDup (names r ++ (metric_name <$> l)) ->
  exists r', foldl (fun acc m => r ← acc; register (describe exponential_buckets nl m) r) (Ok r) l = Ok r' /\
             names r' = names r ++ (metric_name <$> l).
Proof.
  induction l as [|m l IH]; intros r Hd; [exists r; by rewrite app_nil_r|].
  cbn [foldl mbind Result_bind]. rewrite fmap_cons in Hd |- *.
  destruct (pl_register laws (describe exponential_buckets nl m) r) as (r1 & E & En).
  - rewrite describe_name. intros Hin. apply list.NoDup_app in Hd as (_ & Hd & _). apply (Hd _ Hin). left.
  - rewrite E, describe_name in *. destruct (IH r1) as (r2 & E2 & En2).
    + by rewrite En, <- app_assoc.
    + exists r2. split; [exact E2|]. by rewrite En2, En, <- app_assoc.
Qed.

Lemma Metrics_new_lemma id ty :
  exists r s, Metrics_new registry_new create register exponential_buckets id ty = Ok (r, s) /\
    names r = metric_name <$> all_metrics /\ metrics_wf s.
Proof.
  unfold Metrics_new, register_all. rewrite create_all by apply all_desc_valid. cbn [mbind Result_bind].
  destruct (register_list (node_labels id ty) all_metrics registry_new) as (r & E & En).
  { rewrite (pl_empty laws). apply metric_names_distinct. }
  rewrite E. cbn [mbind Result_bind]. eexists r, _. split; [done|]. split.
  - by rewrite En, (pl_empty laws).
  - apply prime_wf. split; [done| |]; intros m l v; cbn [mt_int mt_obs]; by rewrite lookup_empty.
Qed.
End NoPanic.

(** Metrics start-up.  With a registry that accepts valid, distinctly named collectors (and
    refuses nothing else), building the metrics never panics: the names, labels and
    buckets of all 28 collectors are valid, their names differ, every primed series has the
    labels of its collector; the registry then holds exactly the table's names and the store is
    well formed. *)
Theorem metrics_new_ok {Registry} (registry_new : Registry) names create register eb id ty :
  PrometheusLaws registry_new names create register eb ->
  exists r s, Metrics_new registry_new create register eb id ty = Ok (r, s) /\
    names r = metric_name <$> all_metrics /\ metrics_wf s.
Proof. intros laws. by apply Metrics_new_lemma. Qed.

(** A registry as a list of names. *)
Module ListRegistry.
Definition create (d : Desc) : Result string unit := if desc_valid d then Ok () else Err "invalid descriptor".
Definition register (d : Desc) (r : list string) : Result string (list string) :=
  if bool_decide (de_name d ∈ r) then Err "duplicate collector" else Ok (r ++ [de_name d]).
Lemma laws : PrometheusLaws [] id create register exponential.
Proof.
  split; [done| |intros d r Hd|done].
  - intros d Hd. unfold create. by rewrite Hd.
  - exists (r ++ [de_name d]). unfold register. by rewrite bool_decide_false.
Qed.
End ListRegistry.

Lemma metrics_new_ok_witness :
  exists r s, Metrics_new [] ListRegistry.create ListRegistry.register exponential "local" "SERVER" = Ok (r, s) /\
    r = metric_name <$> all_metrics /\ metrics_wf s.
Proof. exact (metrics_new_ok [] (fun r => r) _ _ _ "local" "SERVER" ListRegistry.laws). Defined.
