(* ===== verification/Rtp.v ===== *)
(** RTP forwarding, the per-track half of [crates/lk-server/src/media.rs]: the codec and the
    candidate address filter of the engine, loss and jitter statistics, RTCP reports, and the
    forwarder of a published track with the work its loop does for every packet.

    The [webrtc] crate is external: packets it reads and reports it decodes are arguments, and
    what is written to a subscriber's down-track is returned as a list of writes.  Down-tracks
    are referred to by location. *)
From Stdlib Require Import ZArith Lia Ascii String.
From stdpp Require Import base gmap strings list option.
From S2P Require Import Prelude RustStr Track F64 AudioLevel Metrics IpAddr Config.

Open Scope string_scope.
Open Scope list_scope.
Open Scope Z_scope.

(** * The engine *)

Definition RELIABLE_DATA_CHANNEL : string := "_reliable".
Definition LOSSY_DATA_CHANNEL : string := "_lossy".
Definition DATA_TRACK_DATA_CHANNEL : string := "_data_track".

Record RTCPFeedback := mkFeedback { fb_typ : string; fb_parameter : string }.
Record CodecCapability := mkCapability {
  cc_mime_type : string; cc_clock_rate : Z; cc_channels : Z; cc_sdp_fmtp_line : string;
  cc_rtcp_feedback : list RTCPFeedback
}.
(** The mime type is the crate's [MIME_TYPE_OPUS]. *)
Definition opus_capability (MIME_TYPE_OPUS : string) : CodecCapability :=
  mkCapability MIME_TYPE_OPUS 48000 2 "minptime=10;useinbandfec=1"
    [mkFeedback "nack" ""; mkFeedback "transport-cc" ""].

Definition ipv6_is_ipv4_mapped (seg : list Z) : bool :=
  match seg with
  | [s0; s1; s2; s3; s4; s5; _; _] =>
      (s0 =? 0) && (s1 =? 0) && (s2 =? 0) && (s3 =? 0) && (s4 =? 0) && (s5 =? 65535)
  | _ => false
  end.

(** IPv4-mapped IPv6 as IPv4. *)
Definition unmap (ip : IpAddr) : IpAddr :=
  match ip with
  | V6 [s0; s1; s2; s3; s4; s5; s6; s7] =>
      if ipv6_is_ipv4_mapped [s0; s1; s2; s3; s4; s5; s6; s7]
      then V4 [wrap_u 8 (Z.shiftr s6 8); wrap_u 8 s6; wrap_u 8 (Z.shiftr s7 8); wrap_u 8 s7]
      else ip
  | _ => ip
  end.

Section Filter.
(** [configured.parse::<IpNet>()] and [net.contains(&ip)]. *)
Context (ipnet_contains : string -> IpAddr -> option bool).

Definition ip_filter_match (configured : string) (ip : IpAddr) : bool :=
  let ip := unmap ip in
  match ipnet_contains configured ip with
  | Some b => b
  | None => match parse_ip configured with Some a => bool_decide (a = ip) | None => false end
  end.

(** The closure of [RtcEngine::new]; no filter is installed when both lists are empty. *)
Definition ip_filter (ips : RTCIPConfig) (ip : IpAddr) : bool :=
  let keep := if bool_decide (ip_includes ips = []) then true
              else existsb (fun i => ip_filter_match i ip) (ip_includes ips) in
  keep && negb (existsb (fun e => ip_filter_match e ip) (ip_excludes ips)).
Definition installed_filter (rtc : RTCConfig) : option (IpAddr -> bool) :=
  let ips := rtc_ips rtc in
  if negb (bool_decide (ip_includes ips = [])) || negb (bool_decide (ip_excludes ips = []))
  then Some (ip_filter ips) else None.
(** The addresses advertised in place of the host's. *)
Definition nat_1to1_ips (rtc : RTCConfig) : list string :=
  if negb (rtc_node_ip rtc =? "")%string then [rtc_node_ip rtc] else [].
End Filter.

(** * Statistics of a stream *)

(** [a.wrapping_sub(b)]. *)
Definition wrapping_sub (w a b : Z) : Z := wrap_u w (a - b).
Definition add_u64 (a b : Z) : Z := wrap_u 64 (a + b).

Record RtpStats := mkStats {
  rs_packets : Z;
  rs_expected : Z;
  rs_lost : Z;
  rs_out_of_order : Z;
  rs_jitter_ts : f64;
  rs_max_seq : option Z;
  rs_last_rtp_ts : option Z;
  rs_last_arrival_ms : option Z
}.
Definition RtpStats_default : RtpStats := mkStats 0 0 0 0 0 None None None.

(** The counters of [observe]. *)
Definition observe_seq (seq : Z) (s : RtpStats) : RtpStats :=
  let upd expected lost ooo max :=
    mkStats (add_u64 (rs_packets s) 1) expected lost ooo (rs_jitter_ts s) max (rs_last_rtp_ts s)
      (rs_last_arrival_ms s) in
  match rs_max_seq s with
  | None => upd 1 (rs_lost s) (rs_out_of_order s) (Some seq)
  | Some max =>
      let behind := wrapping_sub 16 max seq in
      if (0 <? behind) && (behind <? 32768)
      then upd (add_u64 (rs_expected s) 1) (if 0 <? rs_lost s then rs_lost s - 1 else rs_lost s)
             (add_u64 (rs_out_of_order s) 1) (Some max)
      else
        let gap := wrapping_sub 16 seq max in
        if (0 <? gap) && (gap <? 32768)
        then upd (add_u64 (rs_expected s) gap) (add_u64 (rs_lost s) (gap - 1)) (rs_out_of_order s) (Some seq)
        else upd (add_u64 (rs_expected s) 1) (rs_lost s) (rs_out_of_order s) (Some max)
  end.

(** The interarrival jitter of [observe]. *)
Definition next_jitter (rtp_ts arrival_ms : Z) (s : RtpStats) : f64 :=
  match rs_last_rtp_ts s, rs_last_arrival_ms s with
  | Some prev_ts, Some prev_arr =>
      let d := wrap_s 64 (wrapping_sub 32 rtp_ts prev_ts - (arrival_ms - prev_arr) * 48) in
      (rs_jitter_ts s + (f64_of_Z (wrap_s 64 (Z.abs d)) - rs_jitter_ts s) / 16)%f64
  | _, _ => rs_jitter_ts s
  end.

Definition observe (seq rtp_ts arrival_ms : Z) (s : RtpStats) : RtpStats :=
  let j := next_jitter rtp_ts arrival_ms s in
  let s := observe_seq seq s in
  mkStats (rs_packets s) (rs_expected s) (rs_lost s) (rs_out_of_order s) j (rs_max_seq s)
    (Some rtp_ts) (Some arrival_ms).

Definition percent_of (n expected : Z) : f64 := if 0 <? expected then (n / expected * 100)%f64 else 0.
Definition loss_percent (s : RtpStats) : f64 := percent_of (rs_lost s) (rs_expected s).
Definition out_of_order_percent (s : RtpStats) : f64 := percent_of (rs_out_of_order s) (rs_expected s).
Definition stats_jitter_us (s : RtpStats) : f64 := (rs_jitter_ts s / 48 * 1000000)%f64.

(** [quality_score]. *)
Definition score_of (loss_pct jitter_ms : f64) : f64 :=
  f64_clamp 0 5 (5 - 8 * (loss_pct / 100) - jitter_ms / 50)%f64.
(** [quality_rating]. *)
Definition rating_of (score : f64) : Z :=
  if f64_ge score 4 then 0 else if f64_ge score 3 then 1 else if f64_ge score (3 / 2)%f64 then 2 else 3.

(** ** RTCP times *)

Definition NTP_UNIX_OFFSET : Z := 2208988800.

Definition ntp_to_unix_ns (ntp : Z) : Z :=
  let seconds := wrap_s 64 (Z.shiftr ntp 32) in
  let fraction := wrap_s 64 (Z.land ntp 0xffffffff) in
  let unix_secs := wrap_s 64 (seconds - NTP_UNIX_OFFSET) in
  wrap_s 64 (wrap_s 64 (unix_secs * 1000000000)
             + Z.quot (wrap_s 64 (fraction * 1000000000)) (Z.shiftl 1 32)).

(** [now] is [unix_seconds()]. *)
Definition rtt_ms_from_report (now lsr dlsr : Z) : f64 :=
  let now_sec32 := Z.land (now + NTP_UNIX_OFFSET) 0xffffffff in
  let secs := (f64_of_Z (now_sec32 - lsr) - dlsr / 65536)%f64 in
  f64_max (secs * 1000)%f64 0.

(** * Forwarders *)

Record Forwarder := mkForwarder {
  fw_track_sid : string;
  fw_publisher_sid : string;
  fw_audio : AudioLevelDetector;
  fw_ext_id : option Z;
  fw_subscribers : gmap string nat;
  fw_closed : bool;
  fw_stats : RtpStats;
  fw_track_source : string;
  fw_sender_report : option (Z * Z);
  fw_reported_loss : Z * Z;
  fw_forward_jitter : f64;
  fw_last_forward_latency : option f64
}.

(** The forwarder [on_track] creates. *)
Definition Forwarder_new (track_sid publisher_sid : string) (ext_id : option Z) (source : string) : Forwarder :=
  mkForwarder track_sid publisher_sid AudioLevelDetector_new ext_id ∅ false RtpStats_default source None (0, 0) 0 None.

Definition set_fw_subscribers (m : gmap string nat) (f : Forwarder) : Forwarder :=
  mkForwarder (fw_track_sid f) (fw_publisher_sid f) (fw_audio f) (fw_ext_id f) m (fw_closed f) (fw_stats f)
    (fw_track_source f) (fw_sender_report f) (fw_reported_loss f) (fw_forward_jitter f) (fw_last_forward_latency f).
Definition set_fw_audio (d : AudioLevelDetector) (f : Forwarder) : Forwarder :=
  mkForwarder (fw_track_sid f) (fw_publisher_sid f) d (fw_ext_id f) (fw_subscribers f) (fw_closed f) (fw_stats f)
    (fw_track_source f) (fw_sender_report f) (fw_reported_loss f) (fw_forward_jitter f) (fw_last_forward_latency f).
Definition set_fw_closed (f : Forwarder) : Forwarder :=
  mkForwarder (fw_track_sid f) (fw_publisher_sid f) (fw_audio f) (fw_ext_id f) (fw_subscribers f) true (fw_stats f)
    (fw_track_source f) (fw_sender_report f) (fw_reported_loss f) (fw_forward_jitter f) (fw_last_forward_latency f).
Definition set_fw_stats (s : RtpStats) (f : Forwarder) : Forwarder :=
  mkForwarder (fw_track_sid f) (fw_publisher_sid f) (fw_audio f) (fw_ext_id f) (fw_subscribers f) (fw_closed f) s
    (fw_track_source f) (fw_sender_report f) (fw_reported_loss f) (fw_forward_jitter f) (fw_last_forward_latency f).
Definition set_fw_reported (r : Z * Z) (f : Forwarder) : Forwarder :=
  mkForwarder (fw_track_sid f) (fw_publisher_sid f) (fw_audio f) (fw_ext_id f) (fw_subscribers f) (fw_closed f) (fw_stats f)
    (fw_track_source f) (fw_sender_report f) r (fw_forward_jitter f) (fw_last_forward_latency f).

Definition add_subscriber (sid : string) (track : nat) (f : Forwarder) : Forwarder :=
  set_fw_subscribers (<[sid := track]> (fw_subscribers f)) f.
Definition remove_subscriber (sid : string) (f : Forwarder) : Forwarder :=
  set_fw_subscribers (delete sid (fw_subscribers f)) f.
Definition num_subscribers (f : Forwarder) : Z := Z.of_nat (size (fw_subscribers f)).

Definition observe_rtp (seq rtp_ts arrival_ms : Z) (f : Forwarder) : Forwarder :=
  set_fw_stats (observe seq rtp_ts arrival_ms (fw_stats f)) f.

(** [u64::saturating_sub]. *)
Definition saturating_sub (a b : Z) : Z := Z.max 0 (a - b).

Definition stream_series (direction source : string) : list string := [direction; source; "audio"; ""].

(** [record_quality], on the forwarder and the shared metrics. *)
Definition record_quality (f : Forwarder) (m : Metrics) : Forwarder * Metrics :=
  let st := fw_stats f in
  let loss_pct := loss_percent st in
  let ooo_pct := out_of_order_percent st in
  let jitter := stats_jitter_us st in
  let score := score_of loss_pct (jitter / 1000)%f64 in
  let m := Metrics.observe quality_score [] score m in
  let m := Metrics.observe quality_rating [] (f64_of_Z (rating_of score)) m in
  let labels := stream_series "incoming" (fw_track_source f) in
  let m := if f64_gt loss_pct 0 then Metrics.observe packet_loss_percent labels loss_pct m else m in
  let m := if f64_gt ooo_pct 0 then Metrics.observe packet_out_of_order_percent labels ooo_pct m else m in
  let m := if f64_gt jitter 0 then Metrics.observe jitter_us labels jitter m else m in
  let d_loss := saturating_sub (rs_lost st) (fw_reported_loss f).1 in
  let d_ooo := saturating_sub (rs_out_of_order st) (fw_reported_loss f).2 in
  let m := if 0 <? d_loss then inc_by packet_loss_total labels d_loss m else m in
  let m := if 0 <? d_ooo then inc_by packet_out_of_order_total labels d_ooo m else m in
  (set_fw_reported (rs_lost st, rs_out_of_order st) f, m).

Definition set_sender_report (rtp_time ntp_unix_ns : Z) (f : Forwarder) : Forwarder :=
  mkForwarder (fw_track_sid f) (fw_publisher_sid f) (fw_audio f) (fw_ext_id f) (fw_subscribers f) (fw_closed f) (fw_stats f)
    (fw_track_source f) (Some (rtp_time, ntp_unix_ns)) (fw_reported_loss f) (fw_forward_jitter f) (fw_last_forward_latency f).

Definition observe_forward_latency (latency_ns : f64) (f : Forwarder) (m : Metrics) : Forwarder * Metrics :=
  let m := Metrics.observe forward_latency_ns [] (f64_max latency_ns 0) m in
  let jitter := match fw_last_forward_latency f with
                | Some prev => (fw_forward_jitter f
                                + (f64_abs (latency_ns - prev) - fw_forward_jitter f) / 16)%f64
                | None => fw_forward_jitter f
                end in
  let f := mkForwarder (fw_track_sid f) (fw_publisher_sid f) (fw_audio f) (fw_ext_id f) (fw_subscribers f)
             (fw_closed f) (fw_stats f) (fw_track_source f) (fw_sender_report f) (fw_reported_loss f)
             jitter (Some latency_ns) in
  (f, set_float forward_jitter jitter (set_float forward_latency (f64_max latency_ns 0) m)).

(** ** RTCP readers *)

(** The decoded reports the readers distinguish. *)
Record ReceptionReport := mkReception {
  rp_fraction_lost : Z; rp_jitter : Z; rp_last_sender_report : Z; rp_delay : Z
}.
Inductive RtcpPacket :=
| SenderReport (rtp_time ntp_time : Z)
| TransportLayerNack (nacks : list (Z * Z))
| PictureLossIndication
| FullIntraRequest
| ReceiverReport (reports : list ReceptionReport)
| OtherRtcp.

(** One packet in [spawn_publisher_rtcp_reader]. *)
Definition publisher_rtcp (p : RtcpPacket) (f : Forwarder) : Forwarder :=
  match p with
  | SenderReport rtp_time ntp_time => set_sender_report rtp_time (ntp_to_unix_ns ntp_time) f
  | _ => f
  end.

Definition reception_report (now : Z) (source : string) (m : Metrics) (rep : ReceptionReport) : Metrics :=
  let labels := stream_series "outgoing" source in
  let m := Metrics.observe packet_loss_percent labels (rp_fraction_lost rep / 256 * 100)%f64 m in
  let m := Metrics.observe jitter_us labels (rp_jitter rep * 1000000 / 48000)%f64 m in
  if negb (rp_last_sender_report rep =? 0)
  then Metrics.observe rtt_ms labels (rtt_ms_from_report now (rp_last_sender_report rep) (rp_delay rep)) m
  else m.

(** One packet in [spawn_subscriber_rtcp_reader]. *)
Definition subscriber_rtcp (now : Z) (source : string) (p : RtcpPacket) (m : Metrics) : Metrics :=
  match p with
  | TransportLayerNack nacks => inc_by nack_total ["outgoing"; ""] (Z.of_nat (length nacks)) m
  | PictureLossIndication => inc pli_total ["outgoing"; ""] m
  | FullIntraRequest => inc fir_total ["outgoing"; ""] m
  | ReceiverReport reports => foldl (reception_report now source) m reports
  | _ => m
  end.

(** ** The forwarding loop *)

(** An RTP packet; [rp_header] is the part of the header nothing reads. *)
Record RtpPacket := mkPkt {
  pk_seq : Z;
  pk_timestamp : Z;
  pk_header : string;
  pk_extension : bool;
  pk_extensions : list (Z * list Z);
  pk_extensions_padding : Z;
  pk_payload : list Z
}.

(** The first extension with the id and a payload. *)
Definition level_of (ext_id : Z) (exts : list (Z * list Z)) : option Z :=
  head (omap (fun e => match e with
                       | (id, b :: _) => if id =? ext_id then Some (Z.land b 0x7f) else None
                       | (_, []) => None
                       end) exts).

Definition strip_extensions (p : RtpPacket) : RtpPacket :=
  mkPkt (pk_seq p) (pk_timestamp p) (pk_header p) false [] 0 (pk_payload p).

(** Clock readings of one turn: monotonic, [unix_millis], [unix_nanos]. *)
Record Clock := mkClock { ck_mono : Z; ck_millis : Z; ck_nanos : Z }.

Definition observe_level (ck : Clock) (p : RtpPacket) (f : Forwarder) : Forwarder :=
  match fw_ext_id f ≫= fun id => level_of id (pk_extensions p) with
  | Some level => set_fw_audio (AudioLevel.observe (ck_mono ck) level (fw_audio f)) f
  | None => f
  end.

Definition forward_latency_of (ck : Clock) (p : RtpPacket) (sr_rtp sr_ntp_ns : Z) : f64 :=
  let ts_delta_ns := (f64_of_Z (wrapping_sub 32 (pk_timestamp p) sr_rtp) / 48000 * 1000000000)%f64 in
  (f64_of_Z (ck_nanos ck) - (f64_of_Z sr_ntp_ns + ts_delta_ns))%f64.

(** The down-tracks a packet is written to, in the map's order. *)
Definition subs (f : Forwarder) : list nat := (map_to_list (fw_subscribers f)).*2.

Definition count_packets (size nsubs : Z) (m : Metrics) : Metrics :=
  let m := inc packet_total ["incoming"; "initial"] m in
  let m := inc_by packet_bytes ["incoming"; "initial"] size m in
  if negb (nsubs =? 0)
  then inc_by packet_bytes ["outgoing"; "initial"] (size * nsubs)
         (inc_by packet_total ["outgoing"; "initial"] nsubs m)
  else m.

(** One turn of the loop: the new forwarder, the metrics and the writes. *)
Definition forward_packet (ck : Clock) (p : RtpPacket) (f : Forwarder) (m : Metrics)
  : Forwarder * Metrics * list (nat * RtpPacket) :=
  let f := observe_level ck p f in
  let pkt := strip_extensions p in
  let size := Z.of_nat (length (pk_payload pkt)) + 12 in
  let f := observe_rtp (pk_seq pkt) (pk_timestamp pkt) (ck_millis ck) f in
  let '(f, m) := match fw_sender_report f with
                 | Some (sr_rtp, sr_ntp) => observe_forward_latency (forward_latency_of ck pkt sr_rtp sr_ntp) f m
                 | None => (f, m)
                 end in
  let '(f, m) := if rs_packets (fw_stats f) mod 100 =? 0 then record_quality f m else (f, m) in
  let m := count_packets size (Z.of_nat (length (subs f))) m in
  (f, m, (fun t => (t, pkt)) <$> subs f).

(** * The tests of the source *)

Definition stats_of (seqs : list Z) : RtpStats := foldl (fun s q => observe q q q s) RtpStats_default seqs.

Example quality_scores :
  score_of 0 0 = 5 /\ score_of 0 50 = 4 /\ score_of 10 0 = (42 / 10)%f64 /\ score_of 100 1000 = 0.
Proof. vm_compute. done. Qed.
Example quality_ratings :
  rating_of (45 / 10)%f64 = 0 /\ rating_of (35 / 10)%f64 = 1 /\ rating_of 2 = 2 /\ rating_of 1 = 3.
Proof. vm_compute. done. Qed.
Example stats_hole :
  let s := stats_of (seqZ 0 42 ++ seqZ 43 58) in rs_packets s = 100 /\ rs_lost s = 1 /\ rs_expected s = 101.
Proof. vm_compute. done. Qed.
Example ntp_epoch :
  ntp_to_unix_ns (Z.shiftl 2208988800 32) = 0 /\ ntp_to_unix_ns (Z.shiftl 2208988801 32) = 1000000000.
Proof. vm_compute. done. Qed.

(** * Statistics are bounded *)

(** The ranges and relations of the counters. *)
Record stats_wf (s : RtpStats) : Prop := {
  sw_packets : 0 <= rs_packets s;
  sw_expected : rs_expected s <= 32768 * rs_packets s;
  sw_lost : 0 <= rs_lost s;
  sw_sum : rs_packets s + rs_lost s <= rs_expected s;
  sw_ooo : 0 <= rs_out_of_order s <= rs_packets s;
  sw_max : match rs_max_seq s with
           | Some q => 0 <= q < 2 ^ 16 /\ 0 < rs_packets s
           | None => rs_packets s = 0 /\ rs_lost s = 0 /\ rs_out_of_order s = 0
           end
}.

Lemma stats_default_wf : stats_wf RtpStats_default.
Proof. by split; cbn. Qed.

Lemma add_u64_small a b : 0 <= a + b < 2 ^ 64 -> add_u64 a b = a + b.
Proof. apply wrap_u_small. Qed.

Ltac red_stats :=
  cbn [rs_packets rs_expected rs_lost rs_out_of_order rs_max_seq rs_jitter_ts rs_last_rtp_ts rs_last_arrival_ms].

Lemma observe_seq_wf q s :
  stats_wf s -> 0 <= q < 2 ^ 16 -> rs_packets s < 2 ^ 48 ->
  stats_wf (observe_seq q s) /\ rs_packets (observe_seq q s) = rs_packets s + 1.
Proof.
  intros [H1 H2 H3 H4 H5 H6] Hq Hb. unfold observe_seq.
  assert (rs_expected s <= 2 ^ 63) as He by lia.
  destruct (rs_max_seq s) as [m|] eqn:Em.
  - pose proof (wrap_u_bound 16 (q - m) ltac:(lia)) as Hg. unfold wrapping_sub.
    destruct ((_ <? _) && _) eqn:E1; [|destruct ((_ <? wrap_u 16 (q - m)) && _) eqn:E2]; bool_to_prop;
      (split; [split|]); red_stats; rewrite ?add_u64_small by lia; try lia; try (split; lia).
    all: destruct (0 <? rs_lost s) eqn:E3; bool_to_prop; lia.
  - destruct H6 as (E1 & E2 & E3). rewrite add_u64_small by lia.
    (split; [split|]); red_stats; lia.
Qed.

(** The counters of [observe] are those of [observe_seq]. *)
Definition counters (s : RtpStats) : Z * Z * Z * Z * option Z :=
  (rs_packets s, rs_expected s, rs_lost s, rs_out_of_order s, rs_max_seq s).

Lemma observe_seq_counters q s s' : counters s = counters s' -> counters (observe_seq q s) = counters (observe_seq q s').
Proof.
  unfold counters. intros [= H1 H2 H3 H4 H5]. unfold observe_seq. rewrite H1, H2, H3, H4, H5.
  repeat case_match; red_stats; congruence.
Qed.

Lemma observe_counters q ts at_ s : counters (observe q ts at_ s) = counters (observe_seq q s).
Proof. done. Qed.

(** A stream of packets: sequence number, RTP time and arrival. *)
Notation arrival := (Z * (Z * Z))%type.
Definition observe_stream (pkts : list arrival) : RtpStats :=
  foldl (fun s p => observe p.1 p.2.1 p.2.2 s) RtpStats_default pkts.

Lemma observe_stream_seqs pkts :
  counters (observe_stream pkts) = counters (foldl (fun s q => observe_seq q s) RtpStats_default pkts.*1).
Proof.
  unfold observe_stream. induction pkts as [|p pkts IH] using rev_ind; [done|].
  rewrite fmap_app, !foldl_app. cbn [fmap list_fmap foldl].
  rewrite observe_counters. apply observe_seq_counters, IH.
Qed.

Lemma stats_wf_counters s s' : counters s = counters s' -> stats_wf s -> stats_wf s'.
Proof.
  unfold counters. intros [= H1 H2 H3 H4 H5] [].
  split; rewrite <- ?H1, <- ?H2, <- ?H3, <- ?H4, <- ?H5; done.
Qed.

Lemma observe_seqs_wf qs :
  Z.of_nat (length qs) < 2 ^ 48 -> Forall (fun q => 0 <= q < 2 ^ 16) qs ->
  let s := foldl (fun s q => observe_seq q s) RtpStats_default qs in
  stats_wf s /\ rs_packets s = Z.of_nat (length qs).
Proof.
  induction qs as [|q qs IH] using rev_ind; intros Hl Hq; [split; [apply stats_default_wf|done]|].
  rewrite length_app in *. cbn [length] in *. apply list.Forall_app in Hq as [Hq H1].
  apply list.Forall_cons in H1 as [H1 _]. rewrite foldl_app. cbn [foldl].
  destruct (IH ltac:(lia) Hq) as [Hw Hp].
  destruct (observe_seq_wf q _ Hw H1 ltac:(lia)) as [Hw' Hp']. split; [done|]. rewrite Hp', Hp. lia.
Qed.

(** C16: ranges of the stream statistics.  For every stream of 16-bit sequence numbers of fewer
    than 2^48 packets, in any order and with any repetitions, no counter wraps: packets are
    counted exactly, packets received and lost together never exceed the expected ones (so the
    loss percentage has a meaningful numerator and a non-zero denominator), and out-of-order
    packets are at most the received ones. *)
Theorem rtp_stats_bounded pkts :
  Z.of_nat (length pkts) < 2 ^ 48 -> Forall (fun p => 0 <= p.1 < 2 ^ 16) pkts ->
  let s := observe_stream pkts in
  stats_wf s /\ rs_packets s = Z.of_nat (length pkts) /\
  (pkts <> [] -> 0 <= rs_lost s < rs_expected s /\ rs_expected s < 2 ^ 64).
Proof.
  intros Hl Hq s. destruct (observe_seqs_wf pkts.*1) as [Hw Hp].
  - by rewrite length_fmap.
  - apply Forall_fmap. done.
  - pose proof (observe_stream_seqs pkts) as Hc. rewrite length_fmap in Hp.
    apply (stats_wf_counters _ s) in Hw; [|done]. fold s in Hc.
    assert (rs_packets s = Z.of_nat (length pkts)) as Hp' by (unfold counters in Hc; congruence).
    split_and!; [done|done|]. intros Hne. destruct pkts as [|x pkts]; [done|]. cbn [length] in *.
    destruct Hw. lia.
Qed.

Lemma rtp_stats_bounded_witness :
  let s := observe_stream [(65535, (0, 0)); (1, (960, 20)); (0, (480, 21))] in
  stats_wf s /\ 0 <= rs_lost s < rs_expected s.
Proof.
  destruct (rtp_stats_bounded [(65535, (0, 0)); (1, (960, 20)); (0, (480, 21))]) as (H & _ & Hb).
  - cbn. lia.
  - repeat constructor; cbn; lia.
  - split; [exact H|]. destruct (Hb ltac:(done)). lia.
Defined.

(** * Loss is exact *)

(** The stream as it was sent: positions that do not wrap, of which the sequence number has
    the low 16 bits.  [in_window] says that no packet is 2^15 or more away from the furthest
    position so far. *)
Definition seq_of (x : Z) : Z := x mod 2 ^ 16.
Fixpoint in_window (m : Z) (xs : list Z) : Prop :=
  match xs with
  | [] => True
  | x :: xs => Z.abs (x - m) < 32768 /\ in_window (Z.max m x) xs
  end.

(** Positions from the first to the furthest that did not arrive. *)
Definition missing (first last : Z) (xs : list Z) : list Z :=
  filter (fun i => i ∉ xs) (seqZ first (last - first + 1)).
(** How many arrived behind the furthest position so far. *)
Fixpoint late (m : Z) (xs : list Z) : Z :=
  match xs with
  | [] => 0
  | x :: xs => (if x <? m then 1 else 0) + late (Z.max m x) xs
  end.

Lemma wrapping_seq a b : wrapping_sub 16 (seq_of a) (seq_of b) = (a - b) mod 2 ^ 16.
Proof. unfold wrapping_sub, wrap_u, seq_of. by rewrite <- Zminus_mod. Qed.

Lemma mod16_near d : 0 <= d < 32768 -> d mod 2 ^ 16 = d /\ (- d) mod 2 ^ 16 = if d =? 0 then 0 else 65536 - d.
Proof.
  intros Hd. split; [apply Z.mod_small; lia|]. destruct (Z.eqb_spec d 0) as [->|]; [done|].
  rewrite Z.mod_opp_l_nz; rewrite ?Z.mod_small; lia.
Qed.

(** What is counted when the stream [seen] arrived, up to position [m]. *)
Record tracks (s : RtpStats) (x0 m : Z) (seen : list Z) (n_late : Z) : Prop := {
  tk_max : rs_max_seq s = Some (seq_of m);
  tk_top : m ∈ seen;
  tk_nodup : NoDup seen;
  tk_range : Forall (fun x => x0 <= x <= m) seen;
  tk_lost : rs_lost s = m - x0 + 1 - Z.of_nat (length seen);
  tk_ooo : rs_out_of_order s = n_late;
  tk_expected : rs_expected s = m - x0 + 1 + n_late
}.

Lemma seen_bound x0 m (seen : list Z) :
  NoDup seen -> Forall (fun x => x0 <= x <= m) seen -> x0 <= m + 1 -> Z.of_nat (length seen) <= m - x0 + 1.
Proof.
  intros Hd Hr Hm. assert (length seen <= length (seqZ x0 (m - x0 + 1)))%nat as H.
  { apply submseteq_length, NoDup_submseteq; [done|]. intros x Hx. rewrite list.Forall_forall in Hr.
    specialize (Hr x Hx). apply elem_of_seqZ. lia. }
  rewrite length_seqZ in H. lia.
Qed.

Lemma observe_seq_tracks s x0 m seen n x :
  tracks s x0 m seen n -> x ∉ seen -> x0 <= x -> Z.abs (x - m) < 32768 ->
  x0 <= m -> 0 <= n -> Z.max m x - x0 + 1 + n + 1 < 2 ^ 64 ->
  tracks (observe_seq (seq_of x) s) x0 (Z.max m x) (x :: seen) (n + if x <? m then 1 else 0).
Proof.
  intros [T1 T0 T2 T3 T4 T5 T6] Hx H0 Hw Hm Hn Hb. unfold observe_seq. rewrite T1, !wrapping_seq.
  assert (Forall (fun y => x0 <= y <= Z.max m x) seen) as T3' by (eapply list.Forall_impl; [done|]; cbn; lia).
  destruct (Z.ltb_spec x m) as [Hlt|Hge].
  - (* behind: the slot was missing *)
    destruct (mod16_near (m - x) ltac:(lia)) as [-> _].
    rewrite (proj2 (Z.ltb_lt 0 (m - x))), (proj2 (Z.ltb_lt (m - x) 32768)) by lia. cbn [andb].
    pose proof (seen_bound x0 m (x :: seen)) as Hs. cbn [length] in Hs.
    assert (0 < rs_lost s) as Hl.
    { rewrite T4. enough (Z.of_nat (S (length seen)) <= m - x0 + 1) by lia.
      apply Hs; [by apply list.NoDup_cons| |lia]. apply list.Forall_cons. split; [lia|done]. }
    rewrite (proj2 (Z.ltb_lt _ _) Hl). replace (Z.max m x) with m by lia.
    split; red_stats; rewrite ?add_u64_small by lia; try lia; try done.
    + by right.
    + by apply list.NoDup_cons.
    + apply list.Forall_cons. split; [lia|done].
    + cbn [length]. lia.
  - assert (x <> m) as Hne by (by intros ->).
    destruct (mod16_near (x - m) ltac:(lia)) as [-> E]. replace (- (x - m)) with (m - x) in E by lia.
    rewrite E, (proj2 (Z.eqb_neq _ _)) by lia.
    rewrite (proj2 (Z.ltb_ge (65536 - (x - m)) 32768)), andb_false_r by lia.
    rewrite (proj2 (Z.ltb_lt 0 (x - m))), (proj2 (Z.ltb_lt (x - m) 32768)) by lia. cbn [andb].
    pose proof (seen_bound x0 m seen T2 T3 ltac:(lia)) as Hs.
    replace (Z.max m x) with x in * by lia.
    split; red_stats; rewrite ?add_u64_small by lia; try lia; try done.
    + left.
    + by apply list.NoDup_cons.
    + apply list.Forall_cons. split; [lia|done].
    + cbn [length]. lia.
Qed.

Lemma late_bound m xs : 0 <= late m xs <= Z.of_nat (length xs).
Proof. revert m. induction xs as [|x xs IH]; intros m; cbn [late length]; [lia|]. specialize (IH (Z.max m x)). case_match; lia. Qed.

Lemma top_bound m xs : in_window m xs -> m <= foldl Z.max m xs <= m + 32768 * Z.of_nat (length xs).
Proof.
  revert m. induction xs as [|x xs IH]; intros m; cbn [foldl length in_window]; [lia|].
  intros [Hx Hw]. specialize (IH _ Hw). lia.
Qed.

Lemma observe_all_tracks xs : forall s x0 m seen n,
  tracks s x0 m seen n -> NoDup (xs ++ seen) -> Forall (fun x => x0 <= x) xs -> in_window m xs ->
  x0 <= m -> 0 <= n -> m - x0 + 1 + n + 65536 * Z.of_nat (length xs) < 2 ^ 64 ->
  exists seen', seen' ≡ₚ xs ++ seen /\
  tracks (foldl (fun s x => observe_seq (seq_of x) s) s xs) x0 (foldl Z.max m xs) seen' (n + late m xs).
Proof.
  induction xs as [|x xs IH]; intros s x0 m seen n Ht Hd Hx Hw Hm Hn Hb.
  - exists seen. rewrite Z.add_0_r. done.
  - cbn [app foldl late length in_window] in *. apply list.NoDup_cons in Hd as [Hin Hd].
    apply list.Forall_cons in Hx as [H0 Hx]. destruct Hw as [Hw1 Hw].
    destruct (IH (observe_seq (seq_of x) s) x0 (Z.max m x) (x :: seen) (n + if x <? m then 1 else 0))
      as (seen' & Hp & Ht').
    + apply observe_seq_tracks; try done; [|lia]. set_solver.
    + rewrite <- Permutation_middle. by apply list.NoDup_cons.
    + done.
    + done.
    + lia.
    + case_match; lia.
    + case_match; lia.
    + exists seen'. split; [by rewrite Hp, Permutation_middle|].
      by rewrite Z.add_assoc.
Qed.

Lemma missing_length x0 m seen :
  NoDup seen -> Forall (fun x => x0 <= x <= m) seen -> x0 <= m ->
  Z.of_nat (length (missing x0 m seen)) = m - x0 + 1 - Z.of_nat (length seen).
Proof.
  intros Hd Hr Hm. unfold missing. set (l := seqZ x0 (m - x0 + 1)).
  assert (filter (fun i => i ∈ seen) l ≡ₚ seen) as Hp.
  { apply NoDup_Permutation; [apply list.NoDup_filter, NoDup_seqZ|done|]. intros x.
    rewrite list_elem_of_filter. split; [by intros []|]. intros Hx. split; [done|].
    rewrite list.Forall_forall in Hr. specialize (Hr x Hx). apply elem_of_seqZ. lia. }
  pose proof (Permutation_length (filter_app_complement (fun i => i ∈ seen) l)) as Hc.
  rewrite length_app, Hp in Hc. unfold l at 2 in Hc. rewrite length_seqZ in Hc.
  pose proof (seen_bound x0 m seen Hd Hr ltac:(lia)). fold l. lia.
Qed.

Lemma missing_perm x0 m l l' : l ≡ₚ l' -> missing x0 m l = missing x0 m l'.
Proof. intros Hp. unfold missing. apply list_filter_iff. intros i. by rewrite Hp. Qed.

Lemma foldl_positions (pkts : list arrival) : forall s,
  foldl (fun s q => observe_seq q s) s ((fun p => (seq_of p.1, p.2)) <$> pkts).*1 =
  foldl (fun s x => observe_seq (seq_of x) s) s pkts.*1.
Proof. induction pkts as [|p pkts IH]; intros s; [done|]. apply IH. Qed.

Lemma first_tracks x0 : tracks (observe_seq (seq_of x0) RtpStats_default) x0 x0 [x0] 0.
Proof.
  assert (x0 ∈ [x0]) by left. assert (Forall (fun x => x0 <= x <= x0) [x0]) by (apply list.Forall_singleton; lia).
  split; [done|done|apply NoDup_singleton|done| |done|]; cbn; lia.
Qed.

Lemma loss_of_positions x0 (pkts : list arrival) t0 :
  let xs := pkts.*1 in
  let s := observe_stream ((fun p => (seq_of p.1, p.2)) <$> ((x0, t0) :: pkts)) in
  let last := foldl Z.max x0 xs in
  NoDup (x0 :: xs) -> Forall (fun x => x0 <= x) xs -> in_window x0 xs -> Z.of_nat (length xs) < 2 ^ 46 ->
  rs_lost s = Z.of_nat (length (missing x0 last (x0 :: xs))) /\
  rs_out_of_order s = late x0 xs /\
  rs_expected s = last - x0 + 1 + late x0 xs.
Proof.
  intros xs s last Hd Hx Hw Hl.
  destruct (observe_all_tracks xs (observe_seq (seq_of x0) RtpStats_default) x0 x0 [x0] 0) as (seen & Hp & Ht);
    try done; try lia.
  - apply first_tracks.
  - by rewrite <- Permutation_cons_append.
  - pose proof (top_bound x0 xs Hw) as Hb. fold last in Ht, Hb. destruct Ht as [_ _ T2 T3 T4 T5 T6].
    assert (seen ≡ₚ x0 :: xs) as Hp' by (by rewrite Hp, <- Permutation_cons_append).
    assert (counters s = counters (foldl (fun s x => observe_seq (seq_of x) s) (observe_seq (seq_of x0) RtpStats_default) xs))
      as Hc.
    { unfold s. rewrite observe_stream_seqs. by rewrite foldl_positions. }
    unfold counters in Hc. injection Hc as _ He Hlost Ho _.
    rewrite He, Hlost, Ho, T4, T5, T6. split_and!; [|done|done].
    rewrite <- (missing_perm _ _ _ _ Hp'), missing_length by (done || lia). done.
Qed.



(** A repeated old packet is taken for the missing one: its loss disappears. *)
Example late_duplicate_hides_loss :
  let s := stats_of [1; 3; 1] in rs_lost s = 0 /\ missing 1 3 [1; 3; 1] = [2].
Proof. vm_compute. done. Qed.

(** * RTCP times *)

Lemma ntp_to_unix_ns_eq ntp :
  0 <= ntp < 2 ^ 64 ->
  ntp_to_unix_ns ntp = ((ntp - NTP_UNIX_OFFSET * 2 ^ 32) * 10 ^ 9) / 2 ^ 32 /\
  i64_min <= ntp_to_unix_ns ntp <= i64_max.
Proof.
  intros Hn. unfold ntp_to_unix_ns, NTP_UNIX_OFFSET, i64_min, i64_max.
  rewrite Z.shiftr_div_pow2, Z.shiftl_mul_pow2 by lia.
  change 0xffffffff with (Z.ones 32). rewrite Z.land_ones by lia.
  set (a := ntp / 2 ^ 32). set (b := ntp mod 2 ^ 32).
  assert (0 <= a < 2 ^ 32) as Ha by (unfold a; split; [apply Z.div_pos; lia|apply Z.div_lt_upper_bound; lia]).
  assert (0 <= b < 2 ^ 32) as Hb by (apply Z.mod_pos_bound; lia).
  assert (ntp = 2 ^ 32 * a + b) as E by (apply Z.div_mod; lia). clearbody a b. subst ntp.
  rewrite !(wrap_s_small 64 a), !(wrap_s_small 64 b), (wrap_s_small 64 (a - _)) by lia.
  rewrite (wrap_s_small 64 (_ * 1000000000)), (wrap_s_small 64 (b * _)) by lia.
  rewrite Z.quot_div_nonneg by lia. change (1 * 2 ^ 32) with (2 ^ 32). change (10 ^ 9) with 1000000000.
  assert (0 <= b * 1000000000 / 2 ^ 32 < 1000000000) as Hf.
  { split; [apply Z.div_pos; lia|apply Z.div_lt_upper_bound; lia]. }
  rewrite wrap_s_small by lia. split; [|lia].
  replace ((2 ^ 32 * a + b - 2208988800 * 2 ^ 32) * 1000000000)
    with ((a - 2208988800) * 1000000000 * 2 ^ 32 + b * 1000000000) by lia.
  rewrite Z.div_add_l by lia. done.
Qed.

(** Sender report times.  For every 64-bit NTP timestamp the conversion is the exact
    nanosecond of the unix clock, rounded down: no intermediate product leaves [i64], also
    for the years before 1970, and the order of timestamps is kept. *)
Theorem ntp_to_unix_ns_exact ntp ntp' :
  0 <= ntp <= ntp' -> ntp' < 2 ^ 64 ->
  ntp_to_unix_ns ntp = ((ntp - NTP_UNIX_OFFSET * 2 ^ 32) * 10 ^ 9) / 2 ^ 32 /\
  i64_min <= ntp_to_unix_ns ntp <= i64_max /\ ntp_to_unix_ns ntp <= ntp_to_unix_ns ntp'.
Proof.
  intros H H'. destruct (ntp_to_unix_ns_eq ntp ltac:(lia)) as [E B]. destruct (ntp_to_unix_ns_eq ntp' ltac:(lia)) as [E' _].
  split_and!; [done|lia|lia|]. rewrite E, E'. apply Z.div_le_mono; lia.
Qed.

Lemma ntp_to_unix_ns_exact_witness :
  ntp_to_unix_ns (Z.shiftl 2208988800 32) = 0 /\ ntp_to_unix_ns 0 <= ntp_to_unix_ns (Z.shiftl 2208988800 32).
Proof.
  split; [reflexivity|].
  exact (proj2 (proj2 (ntp_to_unix_ns_exact 0 (Z.shiftl 2208988800 32) ltac:(split; by vm_compute) ltac:(by vm_compute)))).
Defined.

(** The middle 32 bits of an NTP timestamp: what the [LSR] field of a report holds. *)
Definition middle32 (ntp : Z) : Z := wrap_u 32 (Z.shiftr ntp 16).

(** A report that answers at once, without delay: the computed round trip is 25 000 days. *)
Example rtt_of_immediate_report :
  let now := 1700000000 in
  f64_gt (rtt_ms_from_report now (middle32 (Z.shiftl (now + NTP_UNIX_OFFSET) 32)) 0) 2000000000000 = true.
Proof. vm_compute. done. Qed.

(** * The address filter *)

Lemma unmap_mapped a b c d :
  0 <= a < 256 -> 0 <= b < 256 -> 0 <= c < 256 -> 0 <= d < 256 ->
  unmap (V6 [0; 0; 0; 0; 0; 65535; a * 256 + b; c * 256 + d]) = V4 [a; b; c; d].
Proof.
  intros. unfold unmap. cbn [ipv6_is_ipv4_mapped Z.eqb Pos.eqb andb].
  assert (forall x y, 0 <= x < 256 -> 0 <= y < 256 ->
    wrap_u 8 (Z.shiftr (x * 256 + y) 8) = x /\ wrap_u 8 (x * 256 + y) = y) as H8.
  { intros x y Hx Hy. unfold wrap_u. rewrite Z.shiftr_div_pow2 by lia. change (2 ^ 8) with 256.
    split; [rewrite Z.div_add_l, Z.div_small, Z.add_0_r, Z.mod_small by lia; done|].
    rewrite Z.add_comm, Z.mod_add, Z.mod_small by lia. done. }
  destruct (H8 a b) as [-> ->]; [done|done|]. by destruct (H8 c d) as [-> ->].
Qed.

(** The candidate filter.  An address is gathered exactly when the include list is empty or
    one of its entries covers it, and no exclude entry does; an entry covers an address through
    its network or, without a mask, by equality; an IPv4-mapped IPv6 address is treated exactly
    as the IPv4 address it stands for; an unparseable entry covers nothing. *)
Theorem ip_filter_spec ipnet_contains ips ip a b c d :
  0 <= a < 256 -> 0 <= b < 256 -> 0 <= c < 256 -> 0 <= d < 256 ->
  let covers e ip := match ipnet_contains e ip with Some r => r = true | None => parse_ip e = Some ip end in
  (ip_filter ipnet_contains ips ip = true <->
     (ip_includes ips = [] \/ exists e, e ∈ ip_includes ips /\ covers e (unmap ip)) /\
     (forall e, e ∈ ip_excludes ips -> ~ covers e (unmap ip))) /\
  ip_filter ipnet_contains ips (V6 [0; 0; 0; 0; 0; 65535; a * 256 + b; c * 256 + d]) =
  ip_filter ipnet_contains ips (V4 [a; b; c; d]).
Proof.
  intros Ha Hb Hc Hd covers.
  assert (forall e ip, ip_filter_match ipnet_contains e ip = true <-> covers e (unmap ip)) as Hm.
  { intros e ip'. unfold ip_filter_match, covers. destruct (ipnet_contains e (unmap ip')); [done|].
    destruct (parse_ip e); rewrite ?bool_decide_eq_true; split; congruence. }
  split.
  - unfold ip_filter. rewrite andb_true_iff, negb_true_iff, <- not_true_iff_false, existsb_exists.
    assert ((if bool_decide (ip_includes ips = []) then true
             else existsb (fun i => ip_filter_match ipnet_contains i ip) (ip_includes ips)) = true <->
            ip_includes ips = [] \/ exists e, e ∈ ip_includes ips /\ covers e (unmap ip)) as ->.
    { case_bool_decide as E; [by split; [left|]|]. rewrite existsb_exists. setoid_rewrite Hm.
      setoid_rewrite <- list_elem_of_In. naive_solver. }
    apply and_iff_compat_l. setoid_rewrite Hm. setoid_rewrite <- list_elem_of_In. naive_solver.
  - unfold ip_filter, ip_filter_match. by rewrite unmap_mapped.
Qed.

Lemma ip_filter_spec_witness :
  ip_filter (fun _ _ => None) (mkRTCIP [] ["10.0.0.1"]) (V6 [0; 0; 0; 0; 0; 65535; 10 * 256 + 0; 0 * 256 + 1]) = false.
Proof.
  rewrite (proj2 (ip_filter_spec (fun _ _ => None) (mkRTCIP [] ["10.0.0.1"]) (V4 []) 10 0 0 1
             ltac:(lia) ltac:(lia) ltac:(lia) ltac:(lia))).
  reflexivity.
Defined.

(** * Forwarding is accounted for *)

(** ** What each part does to the integer series *)

(** The amount added to the series [(m, l)] by an update of [(m', l')]. *)
Definition at_series (k : series) (m : Metric) (l : list string) (n : Z) : Z := if decide (k = (m, l)) then n else 0.

Lemma inc_by_at m l n s m' l' :
  is_histogram m' = false -> length l' = arity m' ->
  int_value m l (inc_by m' l' n s) = int_value m l s + at_series (m', l') m l n.
Proof. apply inc_by_value. Qed.

(** Rewrites the value of a series after a chain of updates. *)
Ltac int_values :=
  repeat first
    [ rewrite inc_by_at by reflexivity
    | rewrite observe_int by reflexivity ].

Lemma at_series_0 k m l : at_series k m l 0 = 0.
Proof. unfold at_series. by case_decide. Qed.

Lemma record_quality_int f s m l :
  let labels := stream_series "incoming" (fw_track_source f) in
  int_value m l (record_quality f s).2 = int_value m l s
    + at_series (packet_loss_total, labels) m l (saturating_sub (rs_lost (fw_stats f)) (fw_reported_loss f).1)
    + at_series (packet_out_of_order_total, labels) m l
        (saturating_sub (rs_out_of_order (fw_stats f)) (fw_reported_loss f).2).
Proof.
  intros labels. unfold record_quality. cbn [snd].
  set (dl := saturating_sub (rs_lost _) _). set (dq := saturating_sub (rs_out_of_order _) _).
  assert (0 <= dl /\ 0 <= dq) as [H1 H2] by (unfold dl, dq, saturating_sub; lia).
  assert (forall (b : bool) k x s', length labels = arity k -> is_histogram k = true ->
    int_value m l (if b then Metrics.observe k labels x s' else s') = int_value m l s') as Hobs.
  { intros [] k x s' Hl Hh; [by apply observe_int|done]. }
  assert (forall k x s', 0 <= x -> length labels = arity k -> is_histogram k = false ->
    int_value m l (if 0 <? x then inc_by k labels x s' else s') = int_value m l s' + at_series (k, labels) m l x) as Hinc.
  { intros k x s' Hx Hl Hh. destruct (Z.ltb_spec 0 x); [by apply inc_by_at|].
    replace x with 0 by lia. rewrite at_series_0. lia. }
  fold labels. rewrite !Hinc by done. rewrite !Hobs by done. int_values. done.
Qed.

Lemma count_packets_int size n s m l :
  0 <= n ->
  int_value m l (count_packets size n s) = int_value m l s
    + at_series (packet_total, ["incoming"; "initial"]) m l 1
    + at_series (packet_bytes, ["incoming"; "initial"]) m l size
    + at_series (packet_total, ["outgoing"; "initial"]) m l n
    + at_series (packet_bytes, ["outgoing"; "initial"]) m l (size * n).
Proof.
  intros Hn. unfold count_packets, inc. destruct (Z.eqb_spec n 0) as [->|]; cbn [negb]; int_values; [|lia].
  rewrite Z.mul_0_r, !at_series_0. lia.
Qed.

Lemma observe_forward_latency_int x f s m l :
  int_value m l (observe_forward_latency x f s).2 = int_value m l s.
Proof. unfold observe_forward_latency. cbn [snd]. by rewrite <- (observe_int forward_latency_ns [] (f64_max x 0) s m l). Qed.

(** ** And to the store as a whole *)

Lemma record_quality_wf f s : metrics_wf s -> metrics_wf (record_quality f s).2.
Proof.
  intros Hs. unfold record_quality. cbn [snd].
  repeat match goal with
  | |- metrics_wf (if ?b then _ else _) => let E := fresh "E" in destruct b eqn:E
  | |- metrics_wf (inc_by _ _ _ _) => apply inc_by_wf; [|reflexivity|bool_to_prop; lia]
  | |- metrics_wf (Metrics.observe _ _ _ _) => apply observe_wf; [|reflexivity]
  end; done.
Qed.

Lemma observe_forward_latency_wf x f s : metrics_wf s -> metrics_wf (observe_forward_latency x f s).2.
Proof. intros Hs. unfold observe_forward_latency. cbn [snd]. apply set_float_wf, set_float_wf, observe_wf; done. Qed.

Lemma count_packets_wf size n s : 0 <= size -> 0 <= n -> metrics_wf s -> metrics_wf (count_packets size n s).
Proof.
  intros Hz Hn Hs. unfold count_packets, inc.
  case_match; repeat (apply inc_by_wf; [|reflexivity|intros _; nia]); done.
Qed.

Lemma subscriber_rtcp_wf now source p s : metrics_wf s -> metrics_wf (subscriber_rtcp now source p s).
Proof.
  intros Hs. destruct p as [| | | |reports|]; cbn [subscriber_rtcp]; try done;
    try (apply inc_by_wf; [done|reflexivity|intros _; lia]).
  revert s Hs. induction reports as [|r rs IH]; intros s Hs; [done|]. cbn [foldl]. apply IH.
  unfold reception_report. case_match; repeat (apply observe_wf; [|reflexivity]); done.
Qed.
#[export] Hint Resolve record_quality_wf observe_forward_latency_wf count_packets_wf subscriber_rtcp_wf : lk.

(** ** One packet *)

Definition size_of (p : RtpPacket) : Z := Z.of_nat (length (pk_payload p)) + 12.
Definition reported_after (st : RtpStats) (r : Z * Z) : Z * Z :=
  if rs_packets st mod 100 =? 0 then (rs_lost st, rs_out_of_order st) else r.

(** What the accounting reads of a forwarder. *)
Definition fw_view (f : Forwarder) : RtpStats * gmap string nat * string * (Z * Z) :=
  (fw_stats f, fw_subscribers f, fw_track_source f, fw_reported_loss f).

Lemma forward_packet_fw ck p f s f' s' ws :
  forward_packet ck p f s = (f', s', ws) ->
  let st := observe (pk_seq p) (pk_timestamp p) (ck_millis ck) (fw_stats f) in
  fw_stats f' = st /\ fw_subscribers f' = fw_subscribers f /\ fw_track_source f' = fw_track_source f /\
  fw_reported_loss f' = reported_after st (fw_reported_loss f) /\
  ws = (fun t => (t, strip_extensions p)) <$> subs f.
Proof.
  intros E st. revert E. unfold forward_packet, reported_after. set (fa := observe_rtp _ _ _ _).
  assert (fw_view fa = (st, fw_subscribers f, fw_track_source f, fw_reported_loss f)) as Ha
    by (unfold fa, observe_level; by case_match).
  set (fs := match fw_sender_report fa with Some _ => _ | None => _ end).
  assert (fw_view fs.1 = fw_view fa) as Hs by (unfold fs; by destruct (fw_sender_report fa) as [[]|]).
  clearbody fs. destruct fs as [fb sb]. cbn [fst] in Hs. rewrite Ha in Hs. unfold fw_view in Hs.
  injection Hs as H1 H2 H3 H4. rewrite H1. unfold subs.
  destruct (rs_packets st mod 100 =? 0); [rewrite (surjective_pairing (record_quality fb sb))|];
    intros [= <- <- <-];
    cbn [record_quality fst set_fw_reported fw_stats fw_subscribers fw_track_source fw_reported_loss];
    by rewrite ?H1, ?H2, ?H3, ?H4.
Qed.

Lemma forward_packet_metrics ck p f s f' s' ws :
  forward_packet ck p f s = (f', s', ws) ->
  let st := observe (pk_seq p) (pk_timestamp p) (ck_millis ck) (fw_stats f) in
  let n := Z.of_nat (length (subs f)) in
  let labels := stream_series "incoming" (fw_track_source f) in
  (metrics_wf s -> metrics_wf s') /\
  forall m l, int_value m l s' = int_value m l s
    + at_series (packet_loss_total, labels) m l (saturating_sub (reported_after st (fw_reported_loss f)).1 (fw_reported_loss f).1)
    + at_series (packet_out_of_order_total, labels) m l
        (saturating_sub (reported_after st (fw_reported_loss f)).2 (fw_reported_loss f).2)
    + at_series (packet_total, ["incoming"; "initial"]) m l 1
    + at_series (packet_bytes, ["incoming"; "initial"]) m l (size_of p)
    + at_series (packet_total, ["outgoing"; "initial"]) m l n
    + at_series (packet_bytes, ["outgoing"; "initial"]) m l (size_of p * n).
Proof.
  intros E st n labels. pose proof (forward_packet_fw ck p f s f' s' ws E) as (_ & Hsub & _ & _ & _).
  revert E. unfold forward_packet. set (fa := observe_rtp _ _ _ _).
  assert (fw_stats fa = st /\ fw_reported_loss fa = fw_reported_loss f /\ fw_track_source fa = fw_track_source f)
    as (Fs & Fr & Ft) by (unfold fa, observe_level; by case_match).
  set (fs := match fw_sender_report fa with Some _ => _ | None => _ end).
  assert (fw_stats fs.1 = st /\ fw_reported_loss fs.1 = fw_reported_loss f /\ fw_track_source fs.1 = fw_track_source f /\
          (metrics_wf s -> metrics_wf fs.2) /\ forall m l, int_value m l fs.2 = int_value m l s) as (Gs & Gr & Gt & Gw & Gi).
  { unfold fs. destruct (fw_sender_report fa) as [[sr ntp]|]; [|done]. split_and!; try done.
    intros Hs. auto with lk. }
  clearbody fs. destruct fs as [fb sb]. cbn [fst snd] in *. rewrite Gs. cbn [strip_extensions pk_payload].
  fold (size_of p). unfold reported_after.
  assert (0 <= size_of p) as Hsz by (unfold size_of; lia).
  destruct (rs_packets st mod 100 =? 0) eqn:Em.
  - pose proof (record_quality_int fb sb) as Ri. pose proof (record_quality_wf fb sb) as Rw.
    destruct (record_quality fb sb) as [fc sc]. intros [= -> <- _]. cbn [snd] in Ri, Rw.
    replace (Z.of_nat (length (subs f'))) with n by (unfold n, subs; by rewrite Hsub).
    split; [intros Hs; apply count_packets_wf; [lia|lia|by apply Rw, Gw]|].
    intros m l. rewrite count_packets_int, Ri, Gi, Gs, Gr, Gt by lia. cbn [fst snd]. fold labels. lia.
  - intros [= <- <- _]. replace (Z.of_nat (length (subs fb))) with n by (unfold n, subs; by rewrite Hsub).
    split; [intros Hs; apply count_packets_wf; [lia|lia|by apply Gw]|].
    intros m l. rewrite count_packets_int, Gi by lia.
    assert (forall x, saturating_sub x x = 0) as H0 by (unfold saturating_sub; lia). rewrite !H0, !at_series_0. lia.
Qed.

(** ** A whole stream *)

(** What happens to a forwarder: packets, subscribers that come and go, reports of the
    publisher. *)
Inductive fw_event :=
| FwPacket (ck : Clock) (p : RtpPacket)
| FwAdd (sid : string) (track : nat)
| FwRemove (sid : string)
| FwRtcp (r : RtcpPacket).

Notation fw_state := (Forwarder * Metrics * list (nat * RtpPacket))%type.

Definition fw_step (st : fw_state) (e : fw_event) : fw_state :=
  let '(f, m, out) := st in
  match e with
  | FwPacket ck p => let '(f', m', ws) := forward_packet ck p f m in (f', m', out ++ ws)
  | FwAdd sid t => (add_subscriber sid t f, m, out)
  | FwRemove sid => (remove_subscriber sid f, m, out)
  | FwRtcp r => (publisher_rtcp r f, m, out)
  end.
Definition fw_run (evs : list fw_event) (f : Forwarder) (m : Metrics) : fw_state := foldl fw_step (f, m, []) evs.

Definition packets_of (evs : list fw_event) : list RtpPacket :=
  omap (fun e => match e with FwPacket _ p => Some p | _ => None end) evs.
Definition bytes_of (ps : list RtpPacket) : Z := foldr (fun p n => size_of p + n) 0 ps.

Lemma bytes_of_app a b : bytes_of (a ++ b) = bytes_of a + bytes_of b.
Proof. induction a as [|p a IH]; cbn [app bytes_of foldr]; [done|]. unfold bytes_of in *. lia. Qed.
Lemma bytes_of_writes p (ts : list nat) :
  bytes_of ((fun t => (t, strip_extensions p)) <$> ts).*2 = size_of p * Z.of_nat (length ts).
Proof.
  induction ts as [|t ts IH]; [cbn; lia|]. cbn [length fmap list_fmap bytes_of foldr snd].
  unfold bytes_of in IH. rewrite IH. unfold size_of, strip_extensions. cbn [pk_payload]. lia.
Qed.

Lemma observe_ooo_mono q ts at_ s :
  stats_wf s -> rs_packets s < 2 ^ 48 -> rs_out_of_order s <= rs_out_of_order (observe q ts at_ s).
Proof.
  intros [] Hb. cbn [observe rs_out_of_order]. unfold observe_seq.
  repeat case_match; red_stats; rewrite ?add_u64_small by lia; lia.
Qed.

Lemma observe_wf_stats q ts at_ s :
  stats_wf s -> 0 <= q < 2 ^ 16 -> rs_packets s < 2 ^ 48 ->
  stats_wf (observe q ts at_ s) /\ rs_packets (observe q ts at_ s) = rs_packets s + 1.
Proof.
  intros Hw Hq Hb. destruct (observe_seq_wf q s Hw Hq Hb) as [H1 H2]. split; [|done].
  by apply (stats_wf_counters (observe_seq q s)).
Qed.

(** The books after the events [evs], from the metrics [m0]. *)
Record booked (m0 : Metrics) (source : string) (evs : list fw_event) (st : fw_state) : Prop := {
  bk_wf : metrics_wf st.1.2;
  bk_stats : stats_wf (fw_stats st.1.1);
  bk_packets : rs_packets (fw_stats st.1.1) = Z.of_nat (length (packets_of evs));
  bk_source : fw_track_source st.1.1 = source;
  bk_in : int_value packet_total ["incoming"; "initial"] st.1.2
          = int_value packet_total ["incoming"; "initial"] m0 + Z.of_nat (length (packets_of evs));
  bk_bytes_in : int_value packet_bytes ["incoming"; "initial"] st.1.2
          = int_value packet_bytes ["incoming"; "initial"] m0 + bytes_of (packets_of evs);
  bk_out : int_value packet_total ["outgoing"; "initial"] st.1.2
          = int_value packet_total ["outgoing"; "initial"] m0 + Z.of_nat (length st.2);
  bk_bytes_out : int_value packet_bytes ["outgoing"; "initial"] st.1.2
          = int_value packet_bytes ["outgoing"; "initial"] m0 + bytes_of st.2.*2;
  bk_ooo : int_value packet_out_of_order_total (stream_series "incoming" source) st.1.2
          = int_value packet_out_of_order_total (stream_series "incoming" source) m0 + (fw_reported_loss st.1.1).2;
  bk_ooo_le : (fw_reported_loss st.1.1).2 <= rs_out_of_order (fw_stats st.1.1);
  bk_loss : int_value packet_loss_total (stream_series "incoming" source) m0 + (fw_reported_loss st.1.1).1
          <= int_value packet_loss_total (stream_series "incoming" source) st.1.2;
  bk_full : rs_packets (fw_stats st.1.1) mod 100 = 0 ->
            fw_reported_loss st.1.1 = (rs_lost (fw_stats st.1.1), rs_out_of_order (fw_stats st.1.1))
}.

Lemma at_series_same m l n : at_series (m, l) m l n = n.
Proof. unfold at_series. by rewrite decide_True. Qed.
Lemma at_series_other m l m' l' n : (m, l) <> (m', l') -> at_series (m, l) m' l' n = 0.
Proof. intros. unfold at_series. by rewrite decide_False. Qed.

(** Evaluates the contributions to one named series. *)
Ltac series_at H m l :=
  let E := fresh "S" in
  pose proof (H m l) as E;
  repeat (rewrite at_series_same in E || rewrite at_series_other in E by (intros [=]; done)).

Lemma booked_packet m0 source evs f m out ck p :
  booked m0 source evs (f, m, out) -> 0 <= pk_seq p < 2 ^ 16 -> Z.of_nat (length (packets_of evs)) < 2 ^ 48 ->
  booked m0 source (evs ++ [FwPacket ck p]) (fw_step (f, m, out) (FwPacket ck p)).
Proof.
  intros [B1 B2 B3 B4 B5 B6 B7 B8 B9 B10 B11 B12] Hq Hl. cbn [fst snd] in *. cbn [fw_step].
  destruct (forward_packet ck p f m) as [[f' m'] ws] eqn:E.
  destruct (forward_packet_fw _ _ _ _ _ _ _ E) as (F1 & _ & F3 & F4 & F5).
  destruct (forward_packet_metrics _ _ _ _ _ _ _ E) as [M1 M2].
  destruct (observe_wf_stats (pk_seq p) (pk_timestamp p) (ck_millis ck) (fw_stats f) B2 Hq ltac:(lia)) as [W1 W2].
  pose proof (observe_ooo_mono (pk_seq p) (pk_timestamp p) (ck_millis ck) (fw_stats f) B2 ltac:(lia)) as W3.
  set (st := observe (pk_seq p) (pk_timestamp p) (ck_millis ck) (fw_stats f)) in *. rewrite B4 in *.
  assert (packets_of (evs ++ [FwPacket ck p]) = packets_of evs ++ [p]) as Ep by (unfold packets_of; by rewrite omap_app).
  assert (Z.of_nat (length ws) = Z.of_nat (length (subs f))) as Hws by (rewrite F5, length_fmap; done).
  series_at M2 packet_total ["incoming"; "initial"]. series_at M2 packet_bytes ["incoming"; "initial"].
  series_at M2 packet_total ["outgoing"; "initial"]. series_at M2 packet_bytes ["outgoing"; "initial"].
  series_at M2 packet_out_of_order_total (stream_series "incoming" source).
  series_at M2 packet_loss_total (stream_series "incoming" source).
  split; cbn [fst snd]; rewrite ?Ep, ?length_app, ?bytes_of_app, ?fmap_app, ?F1, ?F3, ?F4, ?W2; cbn [length]; try done.
  - auto.
  - lia.
  - lia.
  - rewrite S0. cbn [bytes_of foldr]. lia.
  - lia.
  - rewrite bytes_of_app, F5, bytes_of_writes. lia.
  - rewrite S3, B9. unfold reported_after, saturating_sub. case_match; cbn [fst snd]; lia.
  - unfold reported_after. case_match; cbn [fst snd]; lia.
  - rewrite S4. unfold saturating_sub. lia.
  - unfold reported_after. intros Hm. rewrite W2. by rewrite (proj2 (Z.eqb_eq _ _) Hm).
Qed.

Lemma booked_other m0 source evs st e :
  booked m0 source evs st -> (forall ck p, e <> FwPacket ck p) -> booked m0 source (evs ++ [e]) (fw_step st e).
Proof.
  intros B He. destruct st as [[f m] out].
  assert (packets_of (evs ++ [e]) = packets_of evs) as Ep.
  { unfold packets_of. rewrite omap_app. destruct e; cbn; try apply app_nil_r. by edestruct He. }
  destruct e as [ck p|sid t|sid|r]; [by edestruct He| | |destruct r]; destruct B; split; cbn [fst snd fw_step] in *; rewrite ?Ep; done.
Qed.

(** Reference: every packet, without its extensions, to each of the subscribers of the moment. *)
Fixpoint deliveries (subs : gmap string nat) (evs : list fw_event) : list (nat * RtpPacket) :=
  match evs with
  | [] => []
  | FwPacket _ p :: evs => ((fun t => (t, strip_extensions p)) <$> (map_to_list subs).*2) ++ deliveries subs evs
  | FwAdd sid t :: evs => deliveries (<[sid := t]> subs) evs
  | FwRemove sid :: evs => deliveries (delete sid subs) evs
  | FwRtcp _ :: evs => deliveries subs evs
  end.

Lemma fw_run_deliveries evs : forall f m out,
  (foldl fw_step (f, m, out) evs).2 = out ++ deliveries (fw_subscribers f) evs.
Proof.
  induction evs as [|e evs IH]; intros f m out; [by rewrite app_nil_r|]. cbn [foldl fw_step deliveries].
  destruct e as [ck p|sid t|sid|r].
  - destruct (forward_packet ck p f m) as [[f' m'] ws] eqn:E.
    destruct (forward_packet_fw _ _ _ _ _ _ _ E) as (_ & F2 & _ & _ & F5).
    by rewrite IH, F2, F5, app_assoc.
  - apply IH.
  - apply IH.
  - rewrite IH. by destruct r.
Qed.

Lemma fw_run_booked m0 tsid psid ext source evs :
  metrics_wf m0 -> Z.of_nat (length (packets_of evs)) < 2 ^ 48 ->
  Forall (fun p => 0 <= pk_seq p < 2 ^ 16) (packets_of evs) ->
  booked m0 source evs (fw_run evs (Forwarder_new tsid psid ext source) m0).
Proof.
  intros Hm. unfold fw_run. induction evs as [|e evs IH] using rev_ind; intros Hl Hq.
  - pose proof stats_default_wf. split; cbn; done || lia.
  - unfold packets_of in Hl, Hq. rewrite omap_app in Hl, Hq. fold (packets_of evs) in Hl, Hq.
    rewrite length_app in Hl. apply list.Forall_app in Hq as [Hq He]. rewrite foldl_app. cbn [foldl].
    specialize (IH ltac:(lia) Hq). destruct e as [ck p|sid t|sid|r]; try (apply booked_other; [done|congruence]).
    cbn in He, Hl. apply list.Forall_cons in He as [He _].
    destruct (foldl _ _ evs) as [[f m] out]. apply booked_packet; [done|done|lia].
Qed.


Module RtpDemo.
Definition ck : Clock := mkClock 0 0 0.
Definition pkt (q : Z) : RtpPacket := mkPkt q (q * 960) "" true [(1, [50])] 0 [q; q].
Definition evs : list fw_event :=
  [FwPacket ck (pkt 65535); FwAdd "PA_a" 7%nat; FwPacket ck (pkt 1); FwRemove "PA_a"; FwPacket ck (pkt 0)].
Definition m0 : Metrics := prime (mkMetrics ∅ ∅ ∅ false).
Lemma m0_wf : metrics_wf m0.
Proof. apply prime_wf. split; [done| |]; intros m l v; cbn [mt_int mt_obs]; by rewrite lookup_empty. Qed.
End RtpDemo.


(** A loss that is reported, made good by late packets and followed by a new one is counted
    twice: the counter says four lost packets although two are missing. *)
Example loss_counter_overcounts :
  let rep := fun fm : Forwarder * Metrics => record_quality fm.1 fm.2 in
  let rtp := fun qs (fm : Forwarder * Metrics) =>
    (foldl (fun f q => observe_rtp q q q f) fm.1 qs, fm.2) in
  let fm := rep (rtp [7] (rep (rtp [2; 3] (rep (rtp [1; 4] (Forwarder_new "T" "P" None "microphone", RtpDemo.m0)))))) in
  rs_lost (fw_stats fm.1) = 2 /\ int_value packet_loss_total (stream_series "incoming" "microphone") fm.2 = 4.
Proof. vm_compute. done. Qed.

(** The series primed at start-up are those of a source called [audio], which no track has. *)
Lemma primed_source_unused : forall s, Track.source_str s <> "audio".
Proof. by intros []. Qed.

(** The score is between 0 and 5 for all numbers, and the rating is one of the four values. *)
Lemma score_range loss jitter :
  is_nan (5 - 8 * (loss / 100) - jitter / 50)%f64 = false ->
  f64_le 0 (score_of loss jitter) = true /\ f64_le (score_of loss jitter) 5 = true.
Proof. intros H. unfold score_of. by apply f64_clamp_range. Qed.
Lemma rating_range x : 0 <= rating_of x <= 3.
Proof. unfold rating_of. repeat case_match; lia. Qed.
(** A loss of 12.5 percent of the packets costs a whole rating step. *)
Example rating_of_loss : rating_of (score_of (25 / 2)%f64 0) = 0 /\ rating_of (score_of 13 0) = 1.
Proof. vm_compute. done. Qed.
