(* ===== verification/Media.v ===== *)
(** The media plane of participants, [crates/lk-server/src/media.rs]: peer connections and their
    callbacks, subscriptions, candidates, data channels, negotiation and teardown, over the
    [World] of rooms and participants.

    The [webrtc] crate is external.  Its objects (connections, channels, down-tracks, senders)
    are referred to by location, every call on them is recorded, and what a call answers is an
    argument of the operation, so that every outcome is covered.  Functions that suspend are
    modelled as wholes here; [Negotiation.v] has the interleavings of offers, answers and early
    candidates.  Tasks the source spawns are recorded. *)
From Stdlib Require Import ZArith Lia Ascii String.
From stdpp Require Import base gmap strings list option.
From S2P Require Import Prelude RustStr Core Track Auth Proto Participant Room Signal F64 AudioLevel Metrics Rtp.

Open Scope string_scope.
Open Scope list_scope.
Open Scope Z_scope.

(** * State *)

(** [lk::SignalTarget]. *)
Definition Publisher : Z := 0.
Definition Subscriber : Z := 1.

Record ParticipantMedia := mkPM {
  pm_publisher : option loc;
  pm_subscriber : option loc;
  pm_forwarders : gmap string loc;
  pm_subscriber_tracks : gmap string loc;
  pm_subscriber_senders : gmap string loc;
  pm_publisher_mids : gmap string string;
  pm_publisher_audio_level_ext : option Z;
  pm_reliable : option loc;
  pm_lossy : option loc;
  pm_pending_candidates : gmap Z (list string);
  pm_answer_pending : bool;
  pm_needs_negotiation : bool;
  pm_subscriber_offer_seq : Z
}.
Definition ParticipantMedia_default : ParticipantMedia :=
  mkPM None None ∅ ∅ ∅ ∅ None None None ∅ false false 0.

(** Calls on the objects of the crate. *)
Inductive RtcCall :=
| CNewPc (pc : loc)
| CAddTransceiver (pc : loc)
| CCreateChannel (pc : loc) (label : string) (ordered : bool) (max_retransmits : option Z)
| CAddIce (pc : loc) (init : string)
| CSetRemote (pc : loc) (type sdp : string)
| CCreateAnswer (pc : loc)
| CCreateOffer (pc : loc)
| CSetLocal (pc : loc) (sdp : string)
| CNewDownTrack (track : loc) (id stream : string)
| CAddTrack (pc track : loc)
| CRemoveTrack (pc sender : loc)
| CChannelSend (channel : loc) (packet : DataPacket)
| CWriteRtp (track : loc) (packet : RtpPacket)
| CClose (pc : loc).

Record MWorld := mkMW {
  mw_world : World;
  mw_media : gmap loc ParticipantMedia;
  mw_forwarders : gmap loc Forwarder;
  mw_metrics : Metrics;
  mw_calls : list RtcCall;
  mw_spawned : list (loc * bool)
}.

(** ** Updates *)

Definition set_mworld (x : World) (w : MWorld) : MWorld :=
  mkMW x (mw_media w) (mw_forwarders w) (mw_metrics w) (mw_calls w) (mw_spawned w).
Definition set_media (pl : loc) (m : ParticipantMedia) (w : MWorld) : MWorld :=
  mkMW (mw_world w) (<[pl := m]> (mw_media w)) (mw_forwarders w) (mw_metrics w) (mw_calls w) (mw_spawned w).
Definition set_forwarders (fs : gmap loc Forwarder) (w : MWorld) : MWorld :=
  mkMW (mw_world w) (mw_media w) fs (mw_metrics w) (mw_calls w) (mw_spawned w).
Definition upd_metrics (f : Metrics -> Metrics) (w : MWorld) : MWorld :=
  mkMW (mw_world w) (mw_media w) (mw_forwarders w) (f (mw_metrics w)) (mw_calls w) (mw_spawned w).
Definition call (c : RtcCall) (w : MWorld) : MWorld :=
  mkMW (mw_world w) (mw_media w) (mw_forwarders w) (mw_metrics w) (mw_calls w ++ [c]) (mw_spawned w).
Definition spawn_negotiation (pl : loc) (force : bool) (w : MWorld) : MWorld :=
  mkMW (mw_world w) (mw_media w) (mw_forwarders w) (mw_metrics w) (mw_calls w) (mw_spawned w ++ [(pl, force)]).

(** [participant.media.lock()]: every participant has its media state from the start. *)
Definition media_of (w : MWorld) (pl : loc) : ParticipantMedia := default ParticipantMedia_default (mw_media w !! pl).
Definition upd_media (pl : loc) (f : ParticipantMedia -> ParticipantMedia) (w : MWorld) : MWorld :=
  set_media pl (f (media_of w pl)) w.

Definition set_pm_publisher (v : option loc) (m : ParticipantMedia) : ParticipantMedia :=
  mkPM v (pm_subscriber m) (pm_forwarders m) (pm_subscriber_tracks m) (pm_subscriber_senders m) (pm_publisher_mids m)
    (pm_publisher_audio_level_ext m) (pm_reliable m) (pm_lossy m) (pm_pending_candidates m) (pm_answer_pending m)
    (pm_needs_negotiation m) (pm_subscriber_offer_seq m).
Definition set_pm_subscriber (v reliable lossy : option loc) (m : ParticipantMedia) : ParticipantMedia :=
  mkPM (pm_publisher m) v (pm_forwarders m) (pm_subscriber_tracks m) (pm_subscriber_senders m) (pm_publisher_mids m)
    (pm_publisher_audio_level_ext m) reliable lossy (pm_pending_candidates m) (pm_answer_pending m)
    (pm_needs_negotiation m) (pm_subscriber_offer_seq m).
Definition set_pm_forwarders (v : gmap string loc) (m : ParticipantMedia) : ParticipantMedia :=
  mkPM (pm_publisher m) (pm_subscriber m) v (pm_subscriber_tracks m) (pm_subscriber_senders m) (pm_publisher_mids m)
    (pm_publisher_audio_level_ext m) (pm_reliable m) (pm_lossy m) (pm_pending_candidates m) (pm_answer_pending m)
    (pm_needs_negotiation m) (pm_subscriber_offer_seq m).
Definition set_pm_subscriptions (ts ss : gmap string loc) (m : ParticipantMedia) : ParticipantMedia :=
  mkPM (pm_publisher m) (pm_subscriber m) (pm_forwarders m) ts ss (pm_publisher_mids m)
    (pm_publisher_audio_level_ext m) (pm_reliable m) (pm_lossy m) (pm_pending_candidates m) (pm_answer_pending m)
    (pm_needs_negotiation m) (pm_subscriber_offer_seq m).
Definition set_pm_offer (mids : gmap string string) (ext : option Z) (m : ParticipantMedia) : ParticipantMedia :=
  mkPM (pm_publisher m) (pm_subscriber m) (pm_forwarders m) (pm_subscriber_tracks m) (pm_subscriber_senders m) mids
    ext (pm_reliable m) (pm_lossy m) (pm_pending_candidates m) (pm_answer_pending m)
    (pm_needs_negotiation m) (pm_subscriber_offer_seq m).
Definition set_pm_pending (v : gmap Z (list string)) (m : ParticipantMedia) : ParticipantMedia :=
  mkPM (pm_publisher m) (pm_subscriber m) (pm_forwarders m) (pm_subscriber_tracks m) (pm_subscriber_senders m)
    (pm_publisher_mids m) (pm_publisher_audio_level_ext m) (pm_reliable m) (pm_lossy m) v (pm_answer_pending m)
    (pm_needs_negotiation m) (pm_subscriber_offer_seq m).
Definition set_pm_flags (answer_pending needs : bool) (seq : Z) (m : ParticipantMedia) : ParticipantMedia :=
  mkPM (pm_publisher m) (pm_subscriber m) (pm_forwarders m) (pm_subscriber_tracks m) (pm_subscriber_senders m)
    (pm_publisher_mids m) (pm_publisher_audio_level_ext m) (pm_reliable m) (pm_lossy m) (pm_pending_candidates m)
    answer_pending needs seq.

(** ** Fallible operations *)

(** State and error: an operation that fails keeps what it did before. *)
Definition M (A : Type) : Type := MWorld -> Result string A * MWorld.
Definition mret {A} (a : A) : M A := fun w => (Ok a, w).
Definition merr {A} (e : string) : M A := fun w => (Err e, w).
Definition media_bind {A B} (m : M A) (k : A -> M B) : M B := fun w =>
  match m w with (Ok a, w') => k a w' | (Err e, w') => (Err e, w') end.
Definition mlift {A} (r : Result string A) : M A := fun w => (r, w).
Definition mdo (f : MWorld -> MWorld) : M unit := fun w => (Ok (), f w).
Definition mget {A} (f : MWorld -> A) : M A := fun w => (Ok (f w), w).

Declare Scope media_scope.
Delimit Scope media_scope with media.
Notation "'let!' x := m 'in' k" := (media_bind m (fun x => k)) (at level 200, x pattern, k at level 200) : media_scope.
Notation "m ;; k" := (media_bind m (fun _ => k)) (at level 100, k at level 200, right associativity) : media_scope.
Open Scope media_scope.

(** [participant.room().and_then(|r| r.context())]: the context lives as long as the server. *)
Definition has_context (w : MWorld) (pl : loc) : bool :=
  match room_of (mw_world w) pl with Some _ => true | None => false end.
Definition require_context (pl : loc) (e : string) : M unit := fun w => (if has_context w pl then Ok () else Err e, w).

(** * Candidates *)

(** [pending_candidates.remove(&target).unwrap_or_default()]. *)
Definition take_pending (target : Z) (m : ParticipantMedia) : ParticipantMedia * list string :=
  (set_pm_pending (delete target (pm_pending_candidates m)) m, default [] (pm_pending_candidates m !! target)).
(** [pending_candidates.entry(target).or_default().push(init)]. *)
Definition push_pending (target : Z) (init : string) (m : ParticipantMedia) : ParticipantMedia :=
  set_pm_pending (<[target := default [] (pm_pending_candidates m !! target) ++ [init]]> (pm_pending_candidates m)) m.

Definition pc_for (target : Z) (m : ParticipantMedia) : option loc :=
  if target =? 0 then pm_publisher m else pm_subscriber m.

(** [add_ice_candidate]: [parsed] is the decoded candidate, [outcome] the answer of the
    connection. *)
Definition add_ice_candidate (pl : loc) (candidate : string) (target : Z) (parsed : option string)
  (outcome : Result string unit) : M unit :=
  let! pc := mget (fun w => pc_for target (media_of w pl)) in
  let! init := mlift (ok_or parsed ("invalid ice candidate json: " +:+ candidate)) in
  match pc with
  | None => mdo (upd_media pl (push_pending target init))
  | Some pc => mdo (call (CAddIce pc init));; mlift (map_err (fun e => "add ice candidate: " +:+ e) outcome)
  end.

Definition flush_candidates (pc : loc) (inits : list string) (w : MWorld) : MWorld :=
  foldl (fun w i => call (CAddIce pc i) w) w inits.

(** [on_ice_candidate]: a gathered candidate is trickled to the client; [json] is its encoding
    and is missing at the end of gathering or when it does not encode. *)
Definition on_local_candidate (pl : loc) (target : Z) (json : option string) (w : MWorld) : MWorld :=
  match json with
  | Some json => set_mworld (send pl (RTrickle json target false) (mw_world w)).1 w
  | None => w
  end.

(** * Peer connections *)

(** What creating the subscriber connection and its channels answers. *)
Record SetupDraws := mkSetup {
  dw_pc : Result string loc; dw_reliable : Result string loc; dw_lossy : Result string loc;
  dw_data_track : Result string loc
}.

Definition take_pending_m (pl : loc) (target : Z) : M (list string) := fun w =>
  let '(m, l) := take_pending target (media_of w pl) in (Ok l, set_media pl m w).

(** [RtcEngine::create_pc]. *)
Definition create_pc (r : Result string loc) : M loc :=
  let! pc := mlift (map_err (fun e => "create peer connection: " +:+ e) r) in
  mdo (call (CNewPc pc));; mret pc.

Definition setup_subscriber (pl : loc) (d : SetupDraws) : M unit :=
  require_context pl "participant has no room context";;
  let! m := mget (fun w => media_of w pl) in
  match pm_subscriber m with
  | Some _ => mret ()
  | None =>
      let! pending := take_pending_m pl Subscriber in
      let! pc := (fun w => let '(r, w) := create_pc (dw_pc d) w in
                           (map_err (fun e => "subscriber pc: " +:+ e) r, w)) in
      mdo (call (CCreateChannel pc RELIABLE_DATA_CHANNEL true None));;
      let! reliable := mlift (map_err (fun e => "create reliable data channel: " +:+ e) (dw_reliable d)) in
      mdo (call (CCreateChannel pc LOSSY_DATA_CHANNEL false (Some 0)));;
      let! lossy := mlift (map_err (fun e => "create lossy data channel: " +:+ e) (dw_lossy d)) in
      mdo (call (CCreateChannel pc DATA_TRACK_DATA_CHANNEL false (Some 0)));;
      let! _ := mlift (map_err (fun e => "create data-track channel: " +:+ e) (dw_data_track d)) in
      mdo (upd_media pl (set_pm_subscriber (Some pc) (Some reliable) (Some lossy)));;
      mdo (flush_candidates pc pending)
  end.

Record PublisherDraws := mkPublisher { dp_pc : Result string loc; dp_transceiver : Result string unit }.

Definition ensure_publisher (pl : loc) (d : PublisherDraws) : M loc :=
  require_context pl "participant has no room context";;
  let! m := mget (fun w => media_of w pl) in
  match pm_publisher m with
  | Some pc => mret pc
  | None =>
      let! pending := take_pending_m pl Publisher in
      let! pc := (fun w => let '(r, w) := create_pc (dp_pc d) w in
                           (map_err (fun e => "publisher pc: " +:+ e) r, w)) in
      mdo (flush_candidates pc pending);;
      mdo (call (CAddTransceiver pc));;
      let! _ := mlift (map_err (fun e => "add audio transceiver: " +:+ e) (dp_transceiver d)) in
      mdo (upd_media pl (set_pm_publisher (Some pc)));;
      mret pc
  end.

(** What answering an offer involves. *)
Record OfferDraws := mkOffer {
  do_publisher : PublisherDraws; do_remote : Result string unit; do_answer : Result string string;
  do_local : Result string unit
}.

Definition handle_publisher_offer (pl : loc) (offer : SessionDescription) (d : OfferDraws) : M SessionDescription :=
  let! pc := ensure_publisher pl (do_publisher d) in
  mdo (upd_media pl (set_pm_offer (sd_mid_to_track_id offer) (audio_level_ext_id_from_sdp (sd_sdp offer))));;
  mdo (call (CSetRemote pc "offer" (sd_sdp offer)));;
  let! _ := mlift (map_err (fun e => "set publisher remote description: " +:+ e) (do_remote d)) in
  mdo (call (CCreateAnswer pc));;
  let! answer := mlift (map_err (fun e => "create publisher answer: " +:+ e) (do_answer d)) in
  mdo (call (CSetLocal pc answer));;
  let! _ := mlift (map_err (fun e => "set publisher local description: " +:+ e) (do_local d)) in
  mret (mkSdp "answer" answer (sd_id offer) ∅).

(** * Negotiation of the subscriber connection *)

(** The part of [handle_subscriber_answer] under the lock: whether a forced task is spawned. *)
Definition answer_accepted (m : ParticipantMedia) : ParticipantMedia * bool :=
  (set_pm_flags false false (pm_subscriber_offer_seq m) m, pm_needs_negotiation m).

Definition handle_subscriber_answer (pl : loc) (answer : SessionDescription) (remote : Result string unit) : M unit :=
  let! m := mget (fun w => media_of w pl) in
  let! pc := mlift (ok_or (pm_subscriber m) "no subscriber pc") in
  mdo (call (CSetRemote pc "answer" (sd_sdp answer)));;
  let! _ := mlift (map_err (fun e => "set subscriber remote description: " +:+ e) remote) in
  mdo (fun w => let '(m, again) := answer_accepted (media_of w pl) in
                let w := set_media pl m w in
                if again then spawn_negotiation pl true w else w).

Definition flag_negotiation (m : ParticipantMedia) : ParticipantMedia :=
  set_pm_flags (pm_answer_pending m) true (pm_subscriber_offer_seq m) m.

Definition request_subscriber_negotiation (pl : loc) (w : MWorld) : MWorld :=
  spawn_negotiation pl false (upd_media pl flag_negotiation w).

(** The decision of [subscribe_negotiation] under the media lock: whether to go on. *)
Definition negotiation_check (force : bool) (m : ParticipantMedia) : ParticipantMedia * bool :=
  if pm_answer_pending m then (set_pm_flags true true (pm_subscriber_offer_seq m) m, false)
  else if negb force && negb (pm_needs_negotiation m) then (set_pm_flags false false (pm_subscriber_offer_seq m) m, false)
  else (set_pm_flags false false (pm_subscriber_offer_seq m) m, true).

(** [subscriber_offer_seq.fetch_add(1).max(1)]. *)
Definition next_offer_id (m : ParticipantMedia) : ParticipantMedia * Z :=
  (set_pm_flags (pm_answer_pending m) (pm_needs_negotiation m) (wrap_u 32 (pm_subscriber_offer_seq m + 1)) m,
   Z.max (pm_subscriber_offer_seq m) 1).

Definition await_answer (m : ParticipantMedia) : ParticipantMedia :=
  set_pm_flags true (pm_needs_negotiation m) (pm_subscriber_offer_seq m) m.

(** The mids of the transceivers that send a track: a later entry of a mid replaces an
    earlier one. *)
Definition mids_of (transceivers : list (option string * option string)) : gmap string string :=
  foldl (fun acc tr => match tr with (Some mid, Some id) => <[mid := id]> acc | _ => acc end) ∅ transceivers.

(** What making an offer involves: its text, whether it was set, and the transceivers. *)
Record NegotiationDraws := mkNeg {
  dn_offer : Result string string; dn_local : Result string unit;
  dn_transceivers : list (option string * option string)
}.

(** [subscribe_negotiation] after the debounce, run alone. *)
Definition subscribe_negotiation (pl : loc) (force : bool) (d : NegotiationDraws) (w : MWorld) : MWorld :=
  match w_parts (mw_world w) !! pl with
  | None => w
  | Some p =>
      if bool_decide (state p = Disconnected) then w
      else
        let '(m, go) := negotiation_check force (media_of w pl) in
        let w := set_media pl m w in
        if negb go then w
        else match pm_subscriber m with
             | None => w
             | Some pc =>
                 let w := call (CCreateOffer pc) w in
                 match dn_offer d with
                 | Err _ => w
                 | Ok sdp =>
                     let w := call (CSetLocal pc sdp) w in
                     match dn_local d with
                     | Err _ => w
                     | Ok _ =>
                         let '(m, id) := next_offer_id (media_of w pl) in
                         let w := set_media pl (await_answer m) w in
                         let sd := mkSdp "offer" sdp id (mids_of (dn_transceivers d)) in
                         set_mworld (send pl (ROffer sd) (mw_world w)).1 w
                     end
                 end
             end
  end.

(** * Subscriptions *)

(** What adding a subscription draws: the connection, the new down-track and the sender. *)
Record SubDraws := mkSubDraws { ds_setup : SetupDraws; ds_track : loc; ds_sender : Result string loc }.

Definition upd_forwarder (fl : loc) (f : Forwarder -> Forwarder) (w : MWorld) : MWorld :=
  set_forwarders (alter f fl (mw_forwarders w)) w.

Definition insert_subscription (tsid : string) (track sender : loc) (m : ParticipantMedia) : ParticipantMedia :=
  set_pm_subscriptions (<[tsid := track]> (pm_subscriber_tracks m)) (<[tsid := sender]> (pm_subscriber_senders m)) m.

Definition add_subscription (sl : loc) (tsid : string) (pl : loc) (d : SubDraws) : M unit :=
  require_context sl "no room context";;
  setup_subscriber sl (ds_setup d);;
  let! fwd := mget (fun w => pm_forwarders (media_of w pl) !! tsid) in
  let! fl := mlift (ok_or fwd ("track " +:+ tsid +:+ " has no forwarder yet")) in
  let! sids := mget (fun w => (default "" (sid_of (mw_world w) sl), default "" (sid_of (mw_world w) pl))) in
  mdo (call (CNewDownTrack (ds_track d) tsid ("TR" +:+ sids.2 +:+ "_" +:+ tsid)));;
  let! m := mget (fun w => media_of w sl) in
  let! pc := mlift (ok_or (pm_subscriber m) "no subscriber pc") in
  mdo (call (CAddTrack pc (ds_track d)));;
  let! sender := mlift (map_err (fun e => "add subscriber track: " +:+ e) (ds_sender d)) in
  mdo (upd_media sl (insert_subscription tsid (ds_track d) sender));;
  mdo (upd_forwarder fl (add_subscriber sids.1 (ds_track d)));;
  mdo (fun w => if has_context w sl
                then upd_metrics (fun s => inc track_subscribe_counter ["started"; ""] (inc track_subscribed ["audio"] s)) w
                else w);;
  mdo (request_subscriber_negotiation sl).

Definition delete_subscription (tsid : string) (m : ParticipantMedia) : ParticipantMedia :=
  set_pm_subscriptions (delete tsid (pm_subscriber_tracks m)) (delete tsid (pm_subscriber_senders m)) m.

(** The forwarders of a participant, by track. *)
Definition release_track (tsid ssid : string) (w : MWorld) (pl : loc) : MWorld :=
  match pm_forwarders (media_of w pl) !! tsid with
  | Some fl => upd_forwarder fl (remove_subscriber ssid) w
  | None => w
  end.

Definition room_members (w : World) (pl : loc) : list loc :=
  match room_of w pl with Some (_, r) => members r | None => [] end.

(** [remove_subscription]; it always succeeds. *)
Definition remove_subscription (sl : loc) (tsid : string) (w : MWorld) : MWorld :=
  let m := media_of w sl in
  let ssid := default "" (sid_of (mw_world w) sl) in
  let w := upd_media sl (delete_subscription tsid) w in
  let w := foldl (release_track tsid ssid) w (room_members (mw_world w) sl) in
  let w := match pm_subscriber_senders m !! tsid, pm_subscriber m with
           | Some sender, Some pc => call (CRemoveTrack pc sender) w
           | _, _ => w
           end in
  let w := if has_context w sl
           then upd_metrics (fun s => inc track_subscribe_counter ["ended"; ""] (dec track_subscribed ["audio"] s)) w
           else w in
  request_subscriber_negotiation sl w.

(** * Teardown *)

(** Every forwarder of a participant, without the subscriber. *)
Definition release_all (ssid : string) (w : MWorld) (pl : loc) : MWorld :=
  foldl (fun w fl => upd_forwarder fl (remove_subscriber ssid) w) w (map_to_list (pm_forwarders (media_of w pl))).*2.

Definition clear_media (m : ParticipantMedia) : ParticipantMedia :=
  mkPM None None ∅ ∅ ∅ (pm_publisher_mids m) (pm_publisher_audio_level_ext m) (pm_reliable m) (pm_lossy m)
    (pm_pending_candidates m) (pm_answer_pending m) (pm_needs_negotiation m) (pm_subscriber_offer_seq m).

Definition close_pc (pc : option loc) (w : MWorld) : MWorld :=
  match pc with Some pc => call (CClose pc) w | None => w end.

Definition close_participant_media (pl : loc) (w : MWorld) : MWorld :=
  let m := media_of w pl in
  let w := set_media pl (clear_media m) w in
  let w := foldl (release_all (default "" (sid_of (mw_world w) pl))) w (room_members (mw_world w) pl) in
  close_pc (pm_subscriber m) (close_pc (pm_publisher m) w).

(** * Data *)

(** [send_data_to_participant]: over the channel of the packet's kind, if it exists. *)
Definition send_data_to_participant (pl : loc) (packet : DataPacket) (w : MWorld) : MWorld :=
  let m := media_of w pl in
  match (match dp_kind packet with Reliable => pm_reliable m | Lossy => pm_lossy m end) with
  | Some channel => call (CChannelSend channel packet) w
  | None => w
  end.

(** A message on a data channel, the server's or one the client opened: a channel whose label
    mentions [lossy] is lossy. *)
Definition on_channel_message (pl : loc) (label : string) (packet : DataPacket) (w : MWorld) : MWorld :=
  set_mworld (handle_incoming_data pl packet (contains "lossy" label) (mw_world w)) w.

(** * Running the calls of the signaling plane *)

Definition part_by_sid (w : World) (sid : string) : option loc :=
  fst <$> (snd <$> list_find (fun lp => p_sid lp.2 = sid) (map_to_list (w_parts w))).

(** One recorded call; [d] gives the draws of a new subscription. *)
Definition exec_event (d : string -> string -> SubDraws) (w : MWorld) (e : Event) : MWorld :=
  match e with
  | EvSubscribe s t p =>
      match part_by_sid (mw_world w) s, part_by_sid (mw_world w) p with
      | Some sl, Some pl => (add_subscription sl t pl (d s t) w).2
      | _, _ => w
      end
  | EvUnsubscribe s t =>
      match part_by_sid (mw_world w) s with Some sl => remove_subscription sl t w | None => w end
  | EvNegotiate s =>
      match part_by_sid (mw_world w) s with Some sl => request_subscriber_negotiation sl w | None => w end
  | EvCloseMedia s =>
      match part_by_sid (mw_world w) s with Some sl => close_participant_media sl w | None => w end
  | EvData s packet =>
      match part_by_sid (mw_world w) s with Some sl => send_data_to_participant sl packet w | None => w end
  | _ => w
  end.

(** An operation of the signaling plane followed by the calls it made. *)
Definition run_signal (d : string -> string -> SubDraws) (op : World -> World) (w : MWorld) : MWorld :=
  let x := mw_world w in
  foldl (exec_event d) (set_mworld (op x) w) (drop (length (w_trace x)) (w_trace (op x))).

(** * Published tracks *)

Definition set_p_is_publisher (p : Participant) : Participant :=
  mkParticipant (p_sid p) (p_identity p) (p_name p) (p_metadata p) (p_attributes p) (p_kind p)
    (p_joined_at_ms p) (p_client_protocol p) true (p_permission p) (p_auto_subscribe p) (p_state p)
    (p_version p) (p_disconnected_reason p) (p_resume_gen p) (p_tx p) (p_room p) (p_tracks p) (p_tracks_by_cid p).

(** What [on_track] is called with and draws: whether the track is audio, its stream id, the
    mid of the transceiver, and the locations and id of new objects. *)
Record TrackDraws := mkTrackDraws {
  dt_audio : bool; dt_stream_id : string; dt_mid : option string;
  dt_track : loc; dt_track_sid : string; dt_forwarder : loc
}.

(** The client id of the track: the stream id, or what the offer said of the mid. *)
Definition track_cid (m : ParticipantMedia) (d : TrackDraws) : option string :=
  if negb (dt_stream_id d =? "")%string then Some (dt_stream_id d)
  else mid ← dt_mid d; pm_publisher_mids m !! mid.

(** A track nobody announced. *)
Definition create_track (pl : loc) (cid : string) (d : TrackDraws) (w : World) : World * loc :=
  let t := PublishedTrack_new (w_now w) (dt_track_sid d) "audio" cid Unknown "" in
  (upd_part pl (add_track (t_sid t) (t_cid t) (dt_track d)) (set_tracks (<[dt_track d := t]> (w_tracks w)) w), dt_track d).

Definition resolve_track (pl : loc) (p : Participant) (m : ParticipantMedia) (d : TrackDraws) (w : World) : World * loc :=
  match track_cid m d with
  | Some cid => match get_track_by_cid cid p with Some tl => (w, tl) | None => create_track pl cid d w end
  | None => create_track pl "" d w
  end.

(** [set_mid] and [set_mime] on the shared track. *)
Definition announce_track (tl : loc) (mid : option string) (w : World) : World :=
  set_tracks (alter (fun t => set_mime "audio/opus" (match mid with Some m => set_mid (Some m) t | None => t end)) tl
                (w_tracks w)) w.

(** [on_track], up to the forwarding loop it spawns. *)
Definition on_track (pl : loc) (dt : TrackDraws) (ds : string -> string -> SubDraws) (w : MWorld) : MWorld :=
  match w_parts (mw_world w) !! pl with
  | None => w
  | Some p =>
      if negb (dt_audio dt) then w
      else
        let '(x, tl) := resolve_track pl p (media_of w pl) dt (mw_world w) in
        let x := announce_track tl (dt_mid dt) x in
        let x := upd_part pl set_p_is_publisher x in
        match w_tracks x !! tl with
        | None => w
        | Some t =>
            let f := Forwarder_new (t_sid t) (p_sid p) (pm_publisher_audio_level_ext (media_of w pl)) (source_str (t_source t)) in
            let w := set_mworld x w in
            let w := upd_media pl (fun m => set_pm_forwarders (<[t_sid t := dt_forwarder dt]> (pm_forwarders m)) m)
                       (set_forwarders (<[dt_forwarder dt := f]> (mw_forwarders w)) w) in
            let w := run_signal ds (on_track_published pl tl) w in
            match room_of (mw_world w) pl with
            | Some _ =>
                upd_metrics (fun s => Metrics.observe session_start_time ["0"; "false"]
                                        (f64_of_Z (session_age_ms (w_now (mw_world w)) p))
                                        (inc track_publish_counter ["audio"; "started"] (inc track_published ["audio"] s))) w
            | None => w
            end
        end
  end.

(** One packet of the loop; [false] when the loop ends. *)
Definition loop_packet (pl fl : loc) (ck : Clock) (pkt : RtpPacket) (w : MWorld) : MWorld * bool :=
  match w_parts (mw_world w) !! pl, mw_forwarders w !! fl with
  | Some p, Some f =>
      if bool_decide (state p = Disconnected) then (w, false)
      else
        let '(f, s, ws) := forward_packet ck pkt f (mw_metrics w) in
        let w := upd_metrics (fun _ => s) (set_forwarders (<[fl := f]> (mw_forwarders w)) w) in
        (foldl (fun w wr => call (CWriteRtp wr.1 wr.2) w) w ws, true)
  | _, _ => (w, false)
  end.

(** After the loop. *)
Definition loop_end (pl fl : loc) (ds : string -> string -> SubDraws) (w : MWorld) : MWorld :=
  match mw_forwarders w !! fl with
  | None => w
  | Some f =>
      let w := upd_forwarder fl set_fw_closed w in
      match w_parts (mw_world w) !! pl with
      | None => w
      | Some p =>
          let w := upd_media pl (fun m => set_pm_forwarders (delete (fw_track_sid f) (pm_forwarders m)) m) w in
          let had := bool_decide (is_Some (get_track (fw_track_sid f) p)) in
          let w := run_signal ds (on_track_unpublished pl (fw_track_sid f)) w in
          match room_of (mw_world w) pl with
          | Some _ => if had
                      then upd_metrics (fun s => inc track_publish_counter ["audio"; "ended"] (dec track_published ["audio"] s)) w
                      else w
          | None => w
          end
      end
  end.

(** * Connection states *)

Inductive PcState := PcFailed | PcClosed | PcOther.
(** [on_peer_connection_state_change] of both connections. *)
Definition on_pc_state (pl : loc) (s : PcState) (ds : string -> string -> SubDraws) (w : MWorld) : MWorld :=
  match s with
  | PcFailed => run_signal ds (on_media_disconnected pl true) w
  | PcClosed => run_signal ds (on_media_disconnected pl false) w
  | PcOther => w
  end.

(** [on_ice_connection_state_change] of the publisher: the first time it is connected, the
    participant becomes active and the others are told. *)
Definition on_ice_state (pl : loc) (connected : bool) (w : MWorld) : MWorld :=
  match w_parts (mw_world w) !! pl with
  | None => w
  | Some p =>
      let '(p', changed) := set_state Active p in
      if connected
      then
        let w := set_mworld (set_parts (<[pl := p']> (w_parts (mw_world w))) (mw_world w)) w in
        if changed then
          match room_of (mw_world w) pl with
          | Some (rl, _) =>
              let w := upd_metrics (Metrics.observe session_join_latency ["0"]
                                      (f64_of_Z (session_age_ms (w_now (mw_world w)) p'))) w in
              match info_of pl (mw_world w) with
              | (x, Some info) => set_mworld (broadcast_participant_update rl [info] (Some (p_sid p)) x) w
              | (x, None) => set_mworld x w
              end
          | None => w
          end
        else w
      else w
  end.

(** * Speakers *)

(** The first active detector of a participant, after stale ones are reset. *)
Fixpoint first_active (now : Z) (fls : list loc) (w : MWorld) : MWorld * option Z :=
  match fls with
  | [] => (w, None)
  | fl :: rest =>
      let w := upd_forwarder fl (fun f => set_fw_audio (reset_if_stale now (fw_audio f)) f) w in
      match mw_forwarders w !! fl with
      | Some f => if d_active (fw_audio f) then (w, Some (d_level (fw_audio f))) else first_active now rest w
      | None => first_active now rest w
      end
  end.

Definition speaker_of (now : Z) (acc : MWorld * list SpeakerInfo) (pl : loc) : MWorld * list SpeakerInfo :=
  let '(w, l) := acc in
  let '(w, level) := first_active now (map_to_list (pm_forwarders (media_of w pl))).*2 w in
  match level, sid_of (mw_world w) pl with
  | Some lv, Some sid => (w, l ++ [mkSpeaker sid lv true])
  | _, _ => (w, l)
  end.

Definition active_speakers (now : Z) (participants : list loc) (w : MWorld) : MWorld * list SpeakerInfo :=
  foldl (speaker_of now) (w, []) participants.

(** [v.sort()] on strings, and [v.join(",")]. *)
Fixpoint insert_str (s : string) (l : list string) : list string :=
  match l with
  | [] => [s]
  | x :: l' => if str_le s x then s :: l else x :: insert_str s l'
  end.
Definition sort_strs (l : list string) : list string := foldr insert_str [] l.
Fixpoint join_with (sep : string) (l : list string) : string :=
  match l with
  | [] => ""
  | [s] => s
  | s :: l' => s +:+ sep +:+ join_with sep l'
  end.
Definition speakers_key (speakers : list SpeakerInfo) : string := join_with "," (sort_strs (sp_sid <$> speakers)).

(** One room in [broadcast_speakers]. *)
Definition broadcast_room_speakers (now : Z) (w : MWorld) (rl : loc) : MWorld :=
  match w_rooms (mw_world w) !! rl with
  | None => w
  | Some r =>
      if r_closed r then w
      else
        let '(w, speakers) := active_speakers now (members r) w in
        let key := speakers_key speakers in
        let last := default "" (w_speakers (mw_world w) !! r_name r) in
        if (last =? key)%string then w
        else
          let x := set_speakers (<[r_name r := key]> (w_speakers (mw_world w))) (mw_world w) in
          set_mworld (send_all (members r) (RSpeakersChanged speakers) x) w
  end.
Definition broadcast_speakers (now : Z) (w : MWorld) : MWorld :=
  foldl (broadcast_room_speakers now) w (map_to_list (w_table (mw_world w))).*2.

(** * Releasing subscribers *)

Lemma remove_subscriber_idem s f : remove_subscriber s (remove_subscriber s f) = remove_subscriber s f.
Proof. unfold remove_subscriber, set_fw_subscribers. cbn. by rewrite delete_delete_eq. Qed.

(** The forwarder heap after a subscriber is removed from the given forwarders. *)
Definition released (s : string) (fls : list loc) (fs : gmap loc Forwarder) : gmap loc Forwarder :=
  foldl (fun fs fl => alter (remove_subscriber s) fl fs) fs fls.

Lemma released_lookup s fls : forall fs fl,
  released s fls fs !! fl = (if decide (fl ∈ fls) then remove_subscriber s <$> fs !! fl else fs !! fl).
Proof.
  unfold released. induction fls as [|x fls IH]; intros fs fl; cbn [foldl].
  - by rewrite decide_False by (by intros ?%elem_of_nil).
  - rewrite IH. destruct (decide (fl = x)) as [->|Hne].
    + rewrite lookup_alter_eq, (decide_True (P := x ∈ x :: fls)) by left. case_decide; [|done].
      destruct (fs !! x) as [f|]; cbn; [|done]. by rewrite remove_subscriber_idem.
    + rewrite lookup_alter_ne by done.
      destruct (decide (fl ∈ fls)); [rewrite decide_True by (by right)|rewrite decide_False by (by intros [|]%elem_of_cons)]; done.
Qed.

Lemma released_app s a b fs : released s (a ++ b) fs = released s b (released s a fs).
Proof. unfold released. by rewrite foldl_app. Qed.

Definition forwarders_of (w : MWorld) (pl : loc) : list loc := (map_to_list (pm_forwarders (media_of w pl))).*2.

Lemma release_all_eq s w pl :
  release_all s w pl = set_forwarders (released s (forwarders_of w pl) (mw_forwarders w)) w.
Proof.
  unfold release_all, forwarders_of. generalize (map_to_list (pm_forwarders (media_of w pl))).*2 as l. intros l.
  revert w. induction l as [|fl l IH]; intros w; [by destruct w|]. cbn [foldl]. by rewrite IH.
Qed.

Lemma release_members_eq s ls : forall w,
  foldl (release_all s) w ls = set_forwarders (released s (ls ≫= forwarders_of w) (mw_forwarders w)) w.
Proof.
  induction ls as [|l ls IH]; intros w; [by destruct w|]. cbn [foldl]. rewrite IH, release_all_eq.
  cbn [mw_forwarders set_forwarders]. by rewrite bind_cons, released_app.
Qed.

Lemma release_track_members_eq tsid s ls : forall w,
  foldl (release_track tsid s) w ls =
  set_forwarders (released s (omap (fun pl => pm_forwarders (media_of w pl) !! tsid) ls) (mw_forwarders w)) w.
Proof.
  induction ls as [|l ls IH]; intros w; [by destruct w|]. cbn [foldl omap list_omap]. rewrite IH. unfold release_track.
  destruct (pm_forwarders (media_of w l) !! tsid) as [fl|] eqn:E; [|done]. reflexivity.
Qed.

(** The subscribers of a forwarder, empty when there is none. *)
Definition subscribers_at (w : MWorld) (fl : loc) : gmap string loc :=
  match mw_forwarders w !! fl with Some f => fw_subscribers f | None => ∅ end.

Lemma released_subscribers s fls fs fl s' :
  match released s fls fs !! fl with Some f => fw_subscribers f | None => ∅ end !! s' =
  (if decide (fl ∈ fls /\ s' = s) then None
   else match fs !! fl with Some f => fw_subscribers f | None => ∅ end !! s').
Proof.
  rewrite released_lookup. destruct (decide (fl ∈ fls)) as [Hin|Hin].
  - destruct (decide (s' = s)) as [->|Hne].
    + rewrite decide_True by done. destruct (fs !! fl) as [f|]; cbn; [by rewrite lookup_delete_eq|done].
    + rewrite decide_False by tauto. destruct (fs !! fl) as [f|]; cbn; [by rewrite lookup_delete_ne|done].
  - by rewrite decide_False by tauto.
Qed.

Lemma media_of_set pl m w l : media_of (set_media pl m w) l = if decide (l = pl) then m else media_of w l.
Proof.
  unfold media_of, set_media. cbn [mw_media]. case_decide as E; [subst; by rewrite lookup_insert_eq|].
  by rewrite lookup_insert_ne.
Qed.

Lemma close_pc_calls pc w :
  close_pc pc w = mkMW (mw_world w) (mw_media w) (mw_forwarders w) (mw_metrics w)
                    (mw_calls w ++ option_list (CClose <$> pc)) (mw_spawned w).
Proof. destruct pc; cbn; [done|]. rewrite app_nil_r. by destruct w. Qed.

(** The state [close_participant_media] leaves. *)
Lemma close_media_eq pl w s :
  sid_of (mw_world w) pl = Some s ->
  let m := media_of w pl in
  let w1 := set_media pl (clear_media m) w in
  close_participant_media pl w =
  mkMW (mw_world w) (mw_media w1)
    (released s (room_members (mw_world w) pl ≫= forwarders_of w1) (mw_forwarders w)) (mw_metrics w)
    (mw_calls w ++ option_list (CClose <$> pm_publisher m) ++ option_list (CClose <$> pm_subscriber m)) (mw_spawned w).
Proof.
  intros Hs m w1. unfold close_participant_media. fold m. fold w1.
  rewrite !close_pc_calls. cbn [mw_world mw_media mw_forwarders mw_metrics mw_calls mw_spawned].
  change (mw_world w1) with (mw_world w). rewrite Hs, release_members_eq.
  cbn [set_forwarders mw_world mw_media mw_forwarders mw_metrics mw_calls mw_spawned default].
  by rewrite <- app_assoc.
Qed.

(** C15: teardown of a participant's media.  Closing closes each of its connections once and makes
    no other call, forgets its forwarders and subscriptions, and releases it from every forwarder
    of every member of its room, so that no packet is written to it any more; every other
    subscription of every track, and the media of all others, is left as it was. *)
Theorem close_media_releases pl w s :
  sid_of (mw_world w) pl = Some s ->
  let w' := close_participant_media pl w in
  mw_calls w' = mw_calls w ++ option_list (CClose <$> pm_publisher (media_of w pl))
                           ++ option_list (CClose <$> pm_subscriber (media_of w pl)) /\
  pm_publisher (media_of w' pl) = None /\ pm_subscriber (media_of w' pl) = None /\
  pm_forwarders (media_of w' pl) = ∅ /\ pm_subscriber_tracks (media_of w' pl) = ∅ /\
  pm_subscriber_senders (media_of w' pl) = ∅ /\
  (forall q tsid fl, q ∈ room_members (mw_world w') pl -> pm_forwarders (media_of w' q) !! tsid = Some fl ->
     subscribers_at w' fl !! s = None) /\
  (forall fl s', s' <> s -> subscribers_at w' fl !! s' = subscribers_at w fl !! s') /\
  (forall q, q <> pl -> media_of w' q = media_of w q).
Proof.
  intros Hs. rewrite (close_media_eq pl w s Hs). set (m := media_of w pl). set (w1 := set_media pl (clear_media m) w).
  unfold subscribers_at. cbn [mw_world mw_media mw_forwarders mw_calls].
  assert (forall q, media_of (mkMW (mw_world w) (mw_media w1)
            (released s (room_members (mw_world w) pl ≫= forwarders_of w1) (mw_forwarders w)) (mw_metrics w)
            (mw_calls w ++ option_list (CClose <$> pm_publisher m) ++ option_list (CClose <$> pm_subscriber m))
            (mw_spawned w)) q = if decide (q = pl) then clear_media m else media_of w q) as Hm.
  { intros q. apply (media_of_set pl (clear_media m) w q). }
  rewrite !Hm, (decide_True (P := pl = pl)) by done. split_and!; try done.
  - intros q tsid fl Hq Hf. rewrite released_subscribers, decide_True; [done|]. split; [|done].
    apply list_elem_of_bind. exists q. split; [|done]. unfold forwarders_of, w1. rewrite media_of_set, <- Hm.
    apply list_elem_of_fmap. exists (tsid, fl). split; [done|]. by apply elem_of_map_to_list.
  - intros fl s' Hne. rewrite released_subscribers, decide_False; [done|]. by intros [].
  - intros q Hq. by rewrite Hm, decide_False.
Qed.

(** * Subscriptions *)

(** What setting up a connection does not touch. *)
Definition pm_view (m : ParticipantMedia) :=
  (pm_forwarders m, pm_subscriber_tracks m, pm_subscriber_senders m, pm_answer_pending m, pm_needs_negotiation m,
   pm_subscriber_offer_seq m).
Definition setup_frame (w w' : MWorld) : Prop :=
  mw_world w' = mw_world w /\ mw_forwarders w' = mw_forwarders w /\ mw_metrics w' = mw_metrics w /\
  mw_spawned w' = mw_spawned w /\ forall q, pm_view (media_of w' q) = pm_view (media_of w q).

#[global] Instance setup_frame_preorder : PreOrder setup_frame.
Proof.
  split; [done|]. intros a b c (A1 & A2 & A3 & A4 & A5) (B1 & B2 & B3 & B4 & B5).
  split_and!; [congruence..|]. intros q. by rewrite B5, A5.
Qed.

Lemma upd_media_frame pl f w : (forall m, pm_view (f m) = pm_view m) -> setup_frame w (upd_media pl f w).
Proof.
  intros Hf. split_and!; try done. intros q. unfold upd_media. rewrite media_of_set. case_decide; [|done].
  subst. apply Hf.
Qed.
Lemma call_frame c w : setup_frame w (call c w).
Proof. done. Qed.
Lemma flush_frame pc l : forall w, setup_frame w (flush_candidates pc l w).
Proof. unfold flush_candidates. induction l as [|i l IH]; intros w; cbn [foldl]; [done|]. by rewrite <- IH. Qed.

Lemma flush_media pc l q : forall w, media_of (flush_candidates pc l w) q = media_of w q.
Proof. unfold flush_candidates. induction l as [|i l IH]; intros w; cbn [foldl]; [done|]. by rewrite IH. Qed.

(** An operation that keeps to the frame, whatever it answers. *)
Definition framed {A} (m : M A) : Prop := forall w, setup_frame w (m w).2.
Lemma framed_bind {A B} (m : M A) (k : A -> M B) : framed m -> (forall a, framed (k a)) -> framed (media_bind m k).
Proof.
  intros Hm Hk w. unfold media_bind. specialize (Hm w). destruct (m w) as [[a|e] w1]; cbn [snd] in *; [|done].
  by rewrite Hm, <- (Hk a w1).
Qed.
Lemma framed_lift {A} (r : Result string A) : framed (mlift r). Proof. by intros w. Qed.
Lemma framed_get {A} (f : MWorld -> A) : framed (mget f). Proof. by intros w. Qed.
Lemma framed_ret {A} (a : A) : framed (mret a). Proof. by intros w. Qed.
Lemma framed_do f : (forall w, setup_frame w (f w)) -> framed (mdo f). Proof. intros H w. apply H. Qed.
Lemma framed_context pl e : framed (require_context pl e). Proof. by intros w. Qed.
Lemma framed_take pl t : framed (take_pending_m pl t).
Proof. intros w. unfold take_pending_m, take_pending. cbn. by apply (upd_media_frame pl). Qed.
Lemma framed_create r : framed (create_pc r).
Proof. unfold create_pc. apply framed_bind; [apply framed_lift|]. intros pc. by apply framed_bind; [intros w|intros _ w]. Qed.
Lemma framed_map_err {A} f (m : M A) : framed m -> framed (fun w => let '(r, w) := m w in (map_err f r, w)).
Proof. intros H w. specialize (H w). by destruct (m w). Qed.
Create HintDb framed.
#[export] Hint Resolve framed_lift framed_get framed_ret framed_context framed_take framed_create framed_map_err
  call_frame flush_frame framed_do : framed.

Lemma setup_subscriber_framed pl d : framed (setup_subscriber pl d).
Proof.
  unfold setup_subscriber. apply framed_bind; [auto with framed|intros _]. apply framed_bind; [auto with framed|intros m].
  destruct (pm_subscriber m); [auto with framed|].
  repeat (apply framed_bind; [try solve [auto with framed]|intros ?]); [|auto with framed].
  apply framed_do. intros w. by apply upd_media_frame.
Qed.

(** All answers of the crate are positive. *)
Definition setup_ok (d : SetupDraws) : Prop :=
  is_ok (dw_pc d) && is_ok (dw_reliable d) && is_ok (dw_lossy d) && is_ok (dw_data_track d) = true.

Lemma setup_subscriber_ok pl d w :
  has_context w pl = true -> setup_ok d ->
  exists w', setup_subscriber pl d w = (Ok (), w') /\ setup_frame w w' /\ is_Some (pm_subscriber (media_of w' pl)).
Proof.
  intros Hc Hd. pose proof (setup_subscriber_framed pl d w) as Hf.
  assert (exists w', setup_subscriber pl d w = (Ok (), w') /\ is_Some (pm_subscriber (media_of w' pl))) as (w' & E & Hs).
  { unfold setup_ok in Hd. destruct d as [[pc|] [rl|] [ly|] [dt|]]; try done.
    unfold setup_subscriber, media_bind, require_context, mget. rewrite Hc.
    destruct (pm_subscriber (media_of w pl)) as [pc'|] eqn:Es; [exists w; by rewrite Es|].
    unfold take_pending_m, take_pending, create_pc, mlift, mdo, mret, media_bind. cbn [map_err dw_pc dw_reliable dw_lossy dw_data_track].
    eexists. split; [reflexivity|]. rewrite flush_media. unfold upd_media. by rewrite media_of_set, decide_True. }
  exists w'. rewrite E in Hf. done.
Qed.

(** The effect of a successful subscription. *)
Record subscribed (w w' : MWorld) (sl : loc) (ssid tsid : string) (fl t sender : loc) : Prop := {
  sb_world : mw_world w' = mw_world w;
  sb_forwarders : mw_forwarders w' = alter (add_subscriber ssid t) fl (mw_forwarders w);
  sb_tables : forall q, pm_forwarders (media_of w' q) = pm_forwarders (media_of w q);
  sb_tracks : pm_subscriber_tracks (media_of w' sl) = <[tsid := t]> (pm_subscriber_tracks (media_of w sl));
  sb_senders : pm_subscriber_senders (media_of w' sl) = <[tsid := sender]> (pm_subscriber_senders (media_of w sl));
  sb_needs : pm_needs_negotiation (media_of w' sl) = true;
  sb_spawned : mw_spawned w' = mw_spawned w ++ [(sl, false)];
  sb_others : forall q, q <> sl -> pm_view (media_of w' q) = pm_view (media_of w q)
}.

Lemma add_subscription_ok sl tsid pl d w fl ssid sender :
  has_context w sl = true -> setup_ok (ds_setup d) -> sid_of (mw_world w) sl = Some ssid ->
  pm_forwarders (media_of w pl) !! tsid = Some fl -> ds_sender d = Ok sender ->
  exists w', add_subscription sl tsid pl d w = (Ok (), w') /\ subscribed w w' sl ssid tsid fl (ds_track d) sender.
Proof.
  intros Hc Hd Hs Hf Hr. destruct (setup_subscriber_ok sl (ds_setup d) w Hc Hd) as (w1 & E1 & (F1 & F2 & F3 & F4 & F5) & [pc Hpc]).
  assert (has_context w1 sl = true) as Hc1 by (unfold has_context; by rewrite F1).
  assert (forall q, pm_forwarders (media_of w1 q) = pm_forwarders (media_of w q)) as F6.
  { intros q. specialize (F5 q). unfold pm_view in F5. congruence. }
  unfold add_subscription. unfold media_bind at 1, require_context. rewrite Hc.
  unfold media_bind at 1. rewrite E1. unfold media_bind, mget, mlift, mdo. rewrite F6, Hf. cbn [ok_or].
  change (media_of (call ?c w1) sl) with (media_of w1 sl). rewrite Hpc. cbn [ok_or]. rewrite Hr. cbn [map_err].
  rewrite F1, Hs. cbn [default fst snd from_option id].
  match goal with |- context [has_context ?x sl] => replace (has_context x sl) with true by (symmetry; exact Hc1) end.
  eexists. split; [reflexivity|].
  match goal with |- subscribed _ ?x _ _ _ _ _ _ => set (w' := x) end.
  assert (forall q, media_of w' q = if decide (q = sl) then flag_negotiation (insert_subscription tsid (ds_track d) sender (media_of w1 sl))
                                    else media_of w1 q) as Hm.
  { intros q. unfold w', media_of, request_subscriber_negotiation, spawn_negotiation, upd_media, set_media, media_of, upd_metrics,
      upd_forwarder, set_forwarders, upd_media, set_media, call, media_of. cbn [mw_media].
    case_decide as Eq; [subst q; by rewrite !lookup_insert_eq|by rewrite !lookup_insert_ne]. }
  specialize (F5 sl) as F7. unfold pm_view in F7. injection F7 as G1 G2 G3 G4 G5 G6.
  split; try rewrite (Hm sl), decide_True by done;
    cbn [flag_negotiation insert_subscription set_pm_flags set_pm_subscriptions pm_subscriber_tracks pm_subscriber_senders
         pm_needs_negotiation].
  - done.
  - unfold w'. cbn. by rewrite F2.
  - intros q. rewrite Hm. case_decide; [subst q|]; cbn; done.
  - by rewrite G2.
  - by rewrite G3.
  - done.
  - unfold w'. cbn. by rewrite F4.
  - intros q Hq. by rewrite Hm, decide_False.
Qed.

(** * A published track reaches its audience *)

(** Ids of participants are distinct. *)
Definition sids_unique (w : World) : Prop := forall l l' p p',
  w_parts w !! l = Some p -> w_parts w !! l' = Some p' -> p_sid p = p_sid p' -> l = l'.

Lemma part_by_sid_unique w l p : sids_unique w -> w_parts w !! l = Some p -> part_by_sid w (p_sid p) = Some l.
Proof.
  intros Hu Hp. unfold part_by_sid.
  destruct (list_find (fun lp : loc * Participant => p_sid lp.2 = p_sid p) (map_to_list (w_parts w))) as [[i [l' p']]|] eqn:E.
  - apply list_find_Some in E as (Hi & Hs & _). cbn in Hs |- *. f_equal.
    apply list_elem_of_lookup_2, elem_of_map_to_list in Hi. by eapply Hu.
  - apply list_find_None in E. rewrite list.Forall_forall in E.
    exfalso. apply (E (l, p)); [by apply elem_of_map_to_list|done].
Qed.

Lemma part_by_sid_sound w s l : part_by_sid w s = Some l -> sid_of w l = Some s.
Proof.
  unfold part_by_sid, sid_of. destruct (list_find _ _) as [[i [l' p']]|] eqn:E; [|done]. cbn. intros [= <-].
  apply list_find_Some in E as (Hi & Hs & _). apply list_elem_of_lookup_2, elem_of_map_to_list in Hi.
  rewrite Hi. cbn in *. by f_equal.
Qed.

(** All answers about a subscription are positive. *)
Definition sub_ok (d : SubDraws) : Prop := setup_ok (ds_setup d) /\ is_ok (ds_sender d) = true.

(** The recorded subscriptions of one track run to completion. *)
Lemma exec_subscribes ds tsid psid pl fl ss : forall w,
  part_by_sid (mw_world w) psid = Some pl ->
  pm_forwarders (media_of w pl) !! tsid = Some fl -> is_Some (mw_forwarders w !! fl) ->
  (forall s, sub_ok (ds s tsid)) ->
  Forall (fun s => exists sl, part_by_sid (mw_world w) s = Some sl /\ has_context w sl = true) ss ->
  let w' := foldl (exec_event ds) w ((fun s => EvSubscribe s tsid psid) <$> ss) in
  mw_world w' = mw_world w /\
  (forall q, pm_forwarders (media_of w' q) = pm_forwarders (media_of w q)) /\
  is_Some (mw_forwarders w' !! fl) /\
  forall s, subscribers_at w' fl !! s = if decide (s ∈ ss) then Some (ds_track (ds s tsid)) else subscribers_at w fl !! s.
Proof.
  induction ss as [|s0 ss IH]; intros w Hp Hf Hfl Hd Hss.
  - by split_and!.
  - apply list.Forall_cons in Hss as [(sl & Es & Hc) Hss]. cbn [fmap list_fmap foldl]. cbn [exec_event].
    rewrite Es, Hp. destruct (Hd s0) as [Hset Hsend]. destruct (ds_sender (ds s0 tsid)) as [sender|] eqn:Er; [|done].
    destruct (add_subscription_ok sl tsid pl (ds s0 tsid) w fl s0 sender Hc Hset (part_by_sid_sound _ _ _ Es) Hf Er)
      as (w1 & E1 & [S1 S2 S3 _ _ _ _ _]). rewrite E1. cbn [snd].
    destruct Hfl as [f Hfl].
    assert (mw_forwarders w1 !! fl = Some (add_subscriber s0 (ds_track (ds s0 tsid)) f)) as Hf1
      by (rewrite S2, lookup_alter_eq, Hfl; done).
    destruct (IH w1) as (I1 & I2 & I3 & I4).
    + by rewrite S1.
    + by rewrite S3.
    + by rewrite Hf1.
    + done.
    + unfold has_context in *. by rewrite S1.
    + split_and!; [by rewrite I1|intros q; by rewrite I2, S3|done|]. intros s. rewrite I4.
      unfold subscribers_at. rewrite Hf1, Hfl. cbn [add_subscriber fw_subscribers set_fw_subscribers].
      destruct (decide (s ∈ ss)); [by rewrite decide_True by (by right)|].
      destruct (decide (s = s0)) as [->|Hne].
      * by rewrite lookup_insert_eq, decide_True by left.
      * rewrite lookup_insert_ne, decide_False by (done || by intros [|]%elem_of_cons). done.
Qed.

(** ** The calls of [on_track_published] *)

(** The audience of a track: the other members that may and want to receive it. *)
Definition in_audience (w : World) (psid : string) (l : loc) : option string :=
  q ← w_parts w !! l;
  if negb (bool_decide (p_sid q = psid)) && (p_can_subscribe q && p_auto_subscribe q) then Some (p_sid q) else None.
Definition audience (w : World) (r : Room) (psid : string) : list string := omap (in_audience w psid) (members r).

Lemma subscribe_loop_trace tsid psid ls : forall w,
  Forall (fun l => sid_of w l <> Some psid) ls ->
  let w' := foldl (subscribe_if_allowed tsid psid) w ls in
  w_trace w' = w_trace w ++ ((fun s => EvSubscribe s tsid psid) <$> omap (in_audience w psid) ls).
Proof.
  induction ls as [|l ls IH]; intros w Hls; [by rewrite app_nil_r|].
  apply list.Forall_cons in Hls as [Hl Hls]. cbn [foldl omap list_omap]. unfold subscribe_if_allowed at 2.
  unfold in_audience at 1. unfold sid_of in Hl. destruct (w_parts w !! l) as [q|] eqn:E; cbn [mbind option_bind]; [|by apply IH].
  rewrite bool_decide_false by (intros Hq; apply Hl; cbn; by rewrite Hq). cbn [negb andb].
  destruct (p_can_subscribe q && p_auto_subscribe q); [|by apply IH].
  rewrite (IH (emit (EvSubscribe (p_sid q) tsid psid) w)) by done. cbn [w_trace emit fmap list_fmap].
  by rewrite <- app_assoc.
Qed.

Lemma audience_others w r psid :
  omap (in_audience w psid) (others w r psid) = audience w r psid.
Proof.
  unfold audience, others. induction (members r) as [|l ls IH]; [done|]. cbn [omap list_omap].
  destruct (decide (sid_of w l = Some psid)) as [E|E].
  - rewrite filter_cons_False by (rewrite bool_decide_true by done; done). rewrite IH.
    unfold in_audience at 2. unfold sid_of in E. destruct (w_parts w !! l) as [q|]; [|done]. cbn in E |- *.
    rewrite bool_decide_true by congruence. done.
  - rewrite filter_cons_True by (rewrite bool_decide_false by done; done). cbn [omap list_omap]. by rewrite IH.
Qed.

(** What the audience depends on. *)
Definition sub_view (q : Participant) := (p_sid q, p_can_subscribe q, p_auto_subscribe q).
Lemma audience_view w w' r psid :
  (forall l, sub_view <$> w_parts w' !! l = sub_view <$> w_parts w !! l) -> audience w' r psid = audience w r psid.
Proof.
  intros Hv. unfold audience. induction (members r) as [|l ls IH]; [done|]. cbn [omap list_omap]. rewrite IH.
  replace (in_audience w' psid l) with (in_audience w psid l); [done|]. unfold in_audience. specialize (Hv l).
  destruct (w_parts w' !! l), (w_parts w !! l); try done. cbn in Hv |- *. unfold sub_view in Hv. injection Hv as -> -> ->. done.
Qed.

Lemma info_of_view pl w w1 oi l : info_of pl w = (w1, oi) ->
  w_trace w1 = w_trace w /\ sub_view <$> w_parts w1 !! l = sub_view <$> w_parts w !! l.
Proof.
  unfold info_of. destruct (w_parts w !! pl) as [p|] eqn:E; [|by intros [= <- _]].
  unfold participant_to_proto. destruct (next _). intros [= <- _]. split; [done|]. cbn.
  destruct (decide (l = pl)) as [->|]; [by rewrite lookup_insert_eq, E|by rewrite lookup_insert_ne].
Qed.

Lemma on_track_published_trace pl tl w p rl r t :
  w_parts w !! pl = Some p -> room_of w pl = Some (rl, r) -> w_tracks w !! tl = Some t ->
  exists rp info, w_trace (on_track_published pl tl w) =
    w_trace w ++ ((fun s => EvSubscribe s (t_sid t) (p_sid p)) <$> audience w r (p_sid p))
              ++ [EvTrackPublished rp info (track_to_proto t)].
Proof.
  intros Hp Hr Ht. unfold on_track_published. rewrite Hp, Hr, Ht.
  destruct (info_of pl w) as [w1 oi] eqn:Ei.
  assert (exists info, oi = Some info) as [info ->].
  { revert Ei. unfold info_of. rewrite Hp. destruct (participant_to_proto (w_tracks w) p). intros [= _ <-]. eauto. }
  exists (room_to_proto w r), info.
  set (w2 := broadcast_participant_update rl [info] (Some (p_sid p)) w1).
  pose proof (broadcast_update_trace rl [info] (Some (p_sid p)) w1) as [T2 P2]. fold w2 in T2, P2.
  cbn [w_trace emit]. rewrite subscribe_loop_trace.
  - rewrite audience_others, T2, (proj1 (info_of_view pl w w1 (Some info) pl Ei)), <- app_assoc.
    rewrite (audience_view w w2); [done|]. intros l. rewrite P2. by apply (info_of_view pl w w1 (Some info) l).
  - apply list.Forall_forall. intros l [Hl _]%list_elem_of_filter. intros E. by rewrite bool_decide_true in Hl.
Qed.

(** ** From the incoming track to its subscribers *)

Lemma frame_room_of w w' pl : frame w w' -> room_of w' pl = room_of w pl.
Proof.
  intros (Hs & Hr & _ & _). unfold room_of. rewrite Hr.
  assert (p_room <$> w_parts w' !! pl = p_room <$> w_parts w !! pl) as Hp.
  { pose proof (f_equal (fun st => s_room <$> st !! pl) Hs) as H. unfold statics in H. rewrite !lookup_fmap in H.
    by destruct (w_parts w' !! pl), (w_parts w !! pl). }
  destruct (w_parts w' !! pl), (w_parts w !! pl); cbn in *; try done. by injection Hp as ->.
Qed.

Lemma frame_sids_unique w w' : frame w w' -> sids_unique w -> sids_unique w'.
Proof.
  intros (Hs & _) Hu.
  assert (forall l p', w_parts w' !! l = Some p' -> exists p, w_parts w !! l = Some p /\ p_sid p = p_sid p') as Hl.
  { intros l p' Hp. pose proof (f_equal (fun st => s_sid <$> st !! l) Hs) as H. unfold statics in H.
    rewrite !lookup_fmap, Hp in H. destruct (w_parts w !! l) as [p|]; [|done]. cbn in H. exists p. split; congruence. }
  intros l l' p p' Hp Hp' E. destruct (Hl _ _ Hp) as (q & Hq & Eq). destruct (Hl _ _ Hp') as (q' & Hq' & Eq').
  eapply Hu; [done|done|congruence].
Qed.

Lemma frame_part w w' l p : frame w w' -> w_parts w !! l = Some p ->
  exists p', w_parts w' !! l = Some p' /\ p_sid p' = p_sid p /\ p_room p' = p_room p.
Proof.
  intros (Hs & _) Hp. pose proof (f_equal (fun st => st !! l) Hs) as E. cbn in E. unfold statics in E.
  rewrite !lookup_fmap, Hp in E. destruct (w_parts w' !! l) as [p'|]; [|done]. exists p'.
  cbn in E. unfold static in E. split_and!; congruence.
Qed.

Lemma audience_context x x' rl r psid s :
  frame x x' -> sids_unique x -> w_rooms x !! rl = Some r -> room_ok (statics x) rl r -> s ∈ audience x r psid ->
  exists sl, part_by_sid x' s = Some sl /\ is_Some (room_of x' sl).
Proof.
  intros F Hu Hr Hok (l & [sid Hl]%elem_of_members & Hs)%list_elem_of_omap. unfold in_audience in Hs.
  destruct (w_parts x !! l) as [q|] eqn:Eq; [|done]. cbn in Hs. case_match; [|done]. injection Hs as <-.
  destruct (frame_part _ _ _ _ F Eq) as (q' & Eq' & Esid & Eroom). exists l. split.
  - rewrite <- Esid. apply part_by_sid_unique; [|done]. by eapply frame_sids_unique.
  - destruct (ok_members _ _ _ Hok _ _ Hl) as (st & Hst & _ & Hroom). unfold statics in Hst. rewrite lookup_fmap, Eq in Hst.
    injection Hst as <-. cbn in Hroom. unfold room_of. rewrite Eq'. cbn. rewrite Eroom, Hroom. cbn.
    destruct F as (_ & -> & _). rewrite Hr. cbn. eauto.
Qed.

(** What is prepared before the announcement. *)
Record prepared (x x' : World) (pl tl : loc) (t : PublishedTrack) : Prop := {
  pr_frame : frame x x';
  pr_view : forall l, sub_view <$> w_parts x' !! l = sub_view <$> w_parts x !! l;
  pr_trace : w_trace x' = w_trace x;
  pr_track : w_tracks x' !! tl = Some t
}.

Lemma upd_part_view pl f x l :
  (forall q, sub_view (f q) = sub_view q) -> sub_view <$> w_parts (upd_part pl f x) !! l = sub_view <$> w_parts x !! l.
Proof.
  intros Hf. cbn. destruct (decide (l = pl)) as [->|]; [rewrite lookup_alter_eq|by rewrite lookup_alter_ne].
  destruct (w_parts x !! pl); cbn; [by rewrite Hf|done].
Qed.

Lemma resolve_track_prepared pl p m d x :
  (forall cid tl, get_track_by_cid cid p = Some tl -> is_Some (w_tracks x !! tl)) ->
  exists t, prepared x (resolve_track pl p m d x).1 pl (resolve_track pl p m d x).2 t /\
    forall cid tl, track_cid m d = Some cid -> get_track_by_cid cid p = Some tl -> w_tracks x !! tl = Some t.
Proof.
  intros Hh. unfold resolve_track.
  assert (forall cid, exists t, prepared x (create_track pl cid d x).1 pl (create_track pl cid d x).2 t) as Hc.
  { intros cid. exists (PublishedTrack_new (w_now x) (dt_track_sid d) "audio" cid Unknown ""). split.
    - unfold create_track. etrans; [apply set_tracks_frame|]. by apply upd_part_frame.
    - intros l. unfold create_track. cbn [fst]. by rewrite upd_part_view.
    - done.
    - unfold create_track. cbn. by rewrite lookup_insert_eq. }
  destruct (track_cid m d) as [cid|].
  - destruct (get_track_by_cid cid p) as [tl|] eqn:E.
    + destruct (Hh _ _ E) as [t Ht]. exists t. split; [done|]. intros cid' tl' [= <-] E'. congruence.
    + destruct (Hc cid) as [t Ht]. exists t. split; [done|]. intros cid' tl' [= <-]. congruence.
  - destruct (Hc "") as [t Ht]. by exists t.
Qed.

Lemma announce_prepared x x' pl tl t mid :
  prepared x x' pl tl t ->
  exists t', t_sid t' = t_sid t /\ t_source t' = t_source t /\
    prepared x (upd_part pl set_p_is_publisher (announce_track tl mid x')) pl tl t'.
Proof.
  intros [F V T H].
  exists (set_mime "audio/opus" (match mid with Some m => set_mid (Some m) t | None => t end)).
  split_and!; [by destruct mid..|]. split.
  - etrans; [exact F|]. etrans; [apply set_tracks_frame|]. by apply upd_part_frame.
  - intros l. rewrite upd_part_view by done. apply V.
  - done.
  - cbn. by rewrite lookup_alter_eq, H.
Qed.

(** C12: a published track reaches its audience.  When media of an announced or new track arrives
    and the connections cooperate, the track gets a forwarder in its publisher's table (under
    the announced track's id when the client id matches one), and the forwarder's subscribers are
    exactly the other members of the room that may subscribe and have automatic subscription on,
    each with the down-track created for it. *)
Theorem published_track_reaches_audience pl dt ds w p rl r :
  let x := mw_world w in
  w_parts x !! pl = Some p -> room_of x pl = Some (rl, r) -> dt_audio dt = true ->
  sids_unique x -> room_ok (statics x) rl r ->
  (forall cid tl, get_track_by_cid cid p = Some tl -> is_Some (w_tracks x !! tl)) ->
  (forall s t, sub_ok (ds s t)) ->
  let w' := on_track pl dt ds w in
  exists tsid,
    pm_forwarders (media_of w' pl) !! tsid = Some (dt_forwarder dt) /\
    (forall cid tl t, track_cid (media_of w pl) dt = Some cid -> get_track_by_cid cid p = Some tl ->
       w_tracks x !! tl = Some t -> tsid = t_sid t) /\
    forall s, subscribers_at w' (dt_forwarder dt) !! s =
      if decide (s ∈ audience x r (p_sid p)) then Some (ds_track (ds s tsid)) else None.
Proof.
  intros x Hp Hr Ha Hu Hok Hh Hd w'. subst w'. unfold on_track. fold x. rewrite Hp, Ha. cbn [negb].
  destruct (resolve_track_prepared pl p (media_of w pl) dt x Hh) as (t0 & P0 & Hknown).
  destruct (resolve_track pl p (media_of w pl) dt x) as [x1 tl]. cbn [fst snd] in P0.
  destruct (announce_prepared x x1 pl tl t0 (dt_mid dt) P0) as (t & Esid & Esrc & [F V T H]).
  set (x3 := upd_part pl set_p_is_publisher (announce_track tl (dt_mid dt) x1)) in *. rewrite H.
  set (fl := dt_forwarder dt). set (w3 := upd_media pl _ _).
  assert (exists p3, w_parts x3 !! pl = Some p3 /\ p_sid p3 = p_sid p) as (p3 & Hp3 & Es3).
  { specialize (V pl). rewrite Hp in V. destruct (w_parts x3 !! pl) as [p3|]; [|done]. exists p3.
    unfold sub_view in V. cbn in V. split; congruence. }
  destruct (on_track_published_trace pl tl x3 p3 rl r t Hp3) as (rp & info & Et); [by rewrite (frame_room_of _ _ _ F)|done|].
  rewrite Es3, (audience_view x x3 r (p_sid p) V) in Et.
  assert (frame x (on_track_published pl tl x3)) as F4 by (etrans; [exact F|apply on_track_published_frame]).
  set (w4 := set_mworld (on_track_published pl tl x3) w3).
  assert (run_signal ds (on_track_published pl tl) w3 =
          foldl (exec_event ds) w4 ((fun s => EvSubscribe s (t_sid t) (p_sid p)) <$> audience x r (p_sid p))) as Er.
  { unfold run_signal. change (mw_world w3) with x3. rewrite Et, app_assoc, <- app_assoc, drop_app_length.
    rewrite foldl_app. reflexivity. }
  rewrite Er. clear Er Et.
  assert (forall q, media_of w4 q = media_of w3 q) as M4 by done.
  assert (media_of w3 pl = set_pm_forwarders (<[t_sid t := fl]> (pm_forwarders (media_of w pl))) (media_of w pl)) as M3.
  { unfold w3, upd_media. rewrite media_of_set, decide_True by done. done. }
  destruct (exec_subscribes ds (t_sid t) (p_sid p) pl fl (audience x r (p_sid p)) w4) as (I1 & I2 & I3 & I4).
  - pose proof (frame_sids_unique _ _ F4 Hu) as Hu4. unfold w4. cbn [mw_world set_mworld].
    destruct (frame_part _ _ _ _ F4 Hp) as (p4 & Hp4 & <- & _). by apply part_by_sid_unique.
  - rewrite M4, M3. cbn. by rewrite lookup_insert_eq.
  - unfold w4, w3. cbn. by rewrite lookup_insert_eq.
  - intros s. apply Hd.
  - apply list.Forall_forall. intros s Hs.
    assert (w_rooms x !! rl = Some r) as Hrl.
    { revert Hr. unfold room_of. rewrite Hp. cbn. destruct (p_room p) as [rl'|]; [|done]. cbn.
      destruct (w_rooms x !! rl') eqn:E; [|done]. cbn. congruence. }
    destruct (audience_context x (on_track_published pl tl x3) rl r (p_sid p) s F4 Hu Hrl Hok Hs) as (sl & E1 & [rr E2]).
    exists sl. split; [exact E1|]. unfold has_context. unfold w4. cbn [mw_world set_mworld]. by rewrite E2.
  - set (w5 := foldl _ _ _) in *.
    exists (t_sid t). split_and!.
    + transitivity (pm_forwarders (media_of w5 pl) !! t_sid t); [by case_match|].
      rewrite I2, M4, M3. cbn. by rewrite lookup_insert_eq.
    + intros cid tl' t' E1 E2 E3. specialize (Hknown cid tl' E1 E2). congruence.
    + intros s. transitivity (subscribers_at w5 fl !! s); [by case_match|]. rewrite I4. case_decide; [done|].
      unfold subscribers_at, w4, w3. cbn. rewrite lookup_insert_eq. done.
Qed.

(** * Speakers *)

Lemma reset_if_stale_idem now d : reset_if_stale now (reset_if_stale now d) = reset_if_stale now d.
Proof. unfold reset_if_stale, is_stale. repeat case_match; cbn in *; congruence. Qed.

(** A detector as it is read: reset when stale. *)
Definition detector_at (now : Z) (w : MWorld) (fl : loc) : option AudioLevelDetector :=
  (fun f => reset_if_stale now (fw_audio f)) <$> mw_forwarders w !! fl.
Definition active_level (now : Z) (w : MWorld) (fl : loc) : option Z :=
  d ← detector_at now w fl; if d_active d then Some (d_level d) else None.

(** Reference: who speaks, and at which level. *)
Definition speaker_at (now : Z) (w : MWorld) (pl : loc) : option SpeakerInfo :=
  lv ← head (omap (active_level now w) (forwarders_of w pl));
  sid ← sid_of (mw_world w) pl;
  Some (mkSpeaker sid lv true).

(** Nothing a reader of detectors sees has changed. *)
Definition same_detectors (now : Z) (w w' : MWorld) : Prop :=
  mw_world w' = mw_world w /\ mw_media w' = mw_media w /\ forall fl, detector_at now w' fl = detector_at now w fl.

#[global] Instance same_detectors_preorder now : PreOrder (same_detectors now).
Proof.
  split; [done|]. intros a b c (A1 & A2 & A3) (B1 & B2 & B3). split_and!; [congruence..|]. intros fl. by rewrite B3.
Qed.

Lemma reset_detectors now w fl :
  same_detectors now w (upd_forwarder fl (fun f => set_fw_audio (reset_if_stale now (fw_audio f)) f) w).
Proof.
  split_and!; [done..|]. intros fl'. unfold detector_at. cbn. destruct (decide (fl' = fl)) as [->|].
  - rewrite lookup_alter_eq. destruct (mw_forwarders w !! fl); [|done]. cbn. by rewrite reset_if_stale_idem.
  - by rewrite lookup_alter_ne.
Qed.

Lemma active_level_same now w w' fl : same_detectors now w w' -> active_level now w' fl = active_level now w fl.
Proof. intros (_ & _ & H). unfold active_level. by rewrite H. Qed.

Lemma first_active_spec now fls : forall w,
  same_detectors now w (first_active now fls w).1 /\
  (first_active now fls w).2 = head (omap (active_level now w) fls).
Proof.
  induction fls as [|fl fls IH]; intros w; [done|]. cbn [first_active omap list_omap].
  set (w1 := upd_forwarder fl _ w). pose proof (reset_detectors now w fl) as S1. fold w1 in S1.
  assert (omap (active_level now w1) fls = omap (active_level now w) fls) as Eo.
  { clear IH. induction fls as [|x fls IH]; [done|]. cbn [omap list_omap]. rewrite (active_level_same now w w1 x S1). by rewrite IH. }
  destruct (IH w1) as [I1 I2]. rewrite Eo in I2.
  assert (mw_forwarders w1 !! fl = (fun f => set_fw_audio (reset_if_stale now (fw_audio f)) f) <$> mw_forwarders w !! fl) as E1.
  { unfold w1. cbn. by rewrite lookup_alter_eq. }
  assert (active_level now w fl = match mw_forwarders w !! fl with
          | Some f => let d := reset_if_stale now (fw_audio f) in if d_active d then Some (d_level d) else None
          | None => None end) as -> by (unfold active_level, detector_at; by destruct (mw_forwarders w !! fl)).
  rewrite E1. destruct (mw_forwarders w !! fl) as [f|]; cbn.
  - destruct (d_active (reset_if_stale now (fw_audio f))) eqn:Ea; cbn; [by split|]. split; [by etrans|done].
  - split; [by etrans|done].
Qed.

Lemma speaker_at_same now w w' pl : same_detectors now w w' -> speaker_at now w' pl = speaker_at now w pl.
Proof.
  intros S. unfold speaker_at, forwarders_of, media_of. destruct S as (S1 & S2 & S3). rewrite S1, S2.
  set (fls := (map_to_list _).*2).
  replace (omap (active_level now w') fls) with (omap (active_level now w) fls); [done|].
  induction fls as [|x fls IH]; [done|]. cbn [omap list_omap]. rewrite IH. unfold active_level. by rewrite S3.
Qed.

Lemma active_speakers_loop now pls : forall w acc,
  same_detectors now w (foldl (speaker_of now) (w, acc) pls).1 /\
  (foldl (speaker_of now) (w, acc) pls).2 = acc ++ omap (speaker_at now w) pls.
Proof.
  induction pls as [|pl pls IH]; intros w acc; [by rewrite app_nil_r|]. cbn [foldl omap list_omap].
  unfold speaker_of at 2 4. fold (forwarders_of w pl).
  pose proof (first_active_spec now (forwarders_of w pl) w) as [S1 R1].
  destruct (first_active now (forwarders_of w pl) w) as [w1 lv]. cbn [fst snd] in S1, R1.
  assert (omap (speaker_at now w1) pls = omap (speaker_at now w) pls) as Eo.
  { clear IH. induction pls as [|x pls IH]; [done|]. cbn [omap list_omap]. by rewrite (speaker_at_same now w w1 x S1), IH. }
  assert (speaker_at now w pl = lv' ← lv; sid ← sid_of (mw_world w) pl; Some (mkSpeaker sid lv' true)) as ->
    by (unfold speaker_at; by rewrite <- R1).
  destruct S1 as (W1 & S1'). rewrite W1.
  destruct lv as [lv|]; [destruct (sid_of (mw_world w) pl) as [sid|]|]; cbn [mbind option_bind].
  - destruct (IH w1 (acc ++ [mkSpeaker sid lv true])) as [I1 I2]. rewrite I2, Eo, <- app_assoc. split; [|done].
    etrans; [|exact I1]. by split.
  - destruct (IH w1 acc) as [I1 I2]. rewrite I2, Eo. split; [|done]. etrans; [|exact I1]. by split.
  - destruct (IH w1 acc) as [I1 I2]. rewrite I2, Eo. split; [|done]. etrans; [|exact I1]. by split.
Qed.

Lemma active_speakers_spec now pls w :
  same_detectors now w (active_speakers now pls w).1 /\
  (active_speakers now pls w).2 = omap (speaker_at now w) pls.
Proof. apply (active_speakers_loop now pls w []). Qed.

(** ** The key of a speaker set *)

Definition no_comma (s : string) : Prop := s <> "" /\ ~ List.In ","%char (list_ascii_of_string s).

Lemma join_with_cons sep s l : l <> [] -> join_with sep (s :: l) = s +:+ sep +:+ join_with sep l.
Proof. by destruct l. Qed.

Lemma comma_split a a' b b' :
  ~ List.In ","%char (list_ascii_of_string a) -> ~ List.In ","%char (list_ascii_of_string a') ->
  a +:+ "," +:+ b = a' +:+ "," +:+ b' -> a = a' /\ b = b'.
Proof.
  revert a'. induction a as [|c a IH]; intros [|c' a'] Ha Ha' E; cbn in E, Ha, Ha'.
  - injection E as ->. done.
  - injection E as <- _. tauto.
  - injection E as -> _. tauto.
  - injection E as -> E. destruct (IH a') as [-> ->]; [tauto|tauto|exact E|done].
Qed.
Lemma no_comma_join a b s : ~ List.In ","%char (list_ascii_of_string s) -> a +:+ "," +:+ b <> s.
Proof.
  revert s. induction a as [|c a IH]; intros [|c' s] Hs E; cbn in *; try done.
  - injection E as <- _. tauto.
  - injection E as _ E. by apply (IH s); [tauto|].
Qed.

Lemma join_inj l l' : Forall no_comma l -> Forall no_comma l' -> join_with "," l = join_with "," l' -> l = l'.
Proof.
  revert l'. induction l as [|s l IH]; intros l' Hl Hl' E.
  - destruct l' as [|s' [|s'' l']]; [done| |]; apply list.Forall_cons in Hl' as [[Hs' _] _]; cbn in E.
    + by rewrite <- E in Hs'.
    + by destruct s'.
  - apply list.Forall_cons in Hl as [[Hs Hc] Hl].
    destruct l' as [|s' l']; [destruct l; cbn in E; [by rewrite E in Hs|by destruct s]|].
    apply list.Forall_cons in Hl' as [[Hs' Hc'] Hl'].
    destruct (decide (l = [])) as [->|Hne], (decide (l' = [])) as [->|Hne'].
    + cbn in E. by rewrite E.
    + rewrite (join_with_cons _ s' l') in E by done. cbn in E. symmetry in E. by apply no_comma_join in E.
    + rewrite (join_with_cons _ s l) in E by done. cbn in E. by apply no_comma_join in E.
    + rewrite !join_with_cons in E by done. destruct (comma_split _ _ _ _ Hc Hc' E) as [-> E']. f_equal. by apply IH.
Qed.

Lemma insert_str_perm s l : insert_str s l ≡ₚ s :: l.
Proof. induction l as [|x l IH]; cbn; [done|]. case_match; [done|]. rewrite IH. apply Permutation_swap. Qed.
Lemma sort_strs_perm l : sort_strs l ≡ₚ l.
Proof. induction l as [|s l IH]; cbn; [done|]. by rewrite insert_str_perm, IH. Qed.

(** Active-speaker updates.  A sweep over an open room computes, for every member, the
    first of its tracks whose detector is active once stale ones are reset; members are told
    exactly when the set of speakers differs from the one last told (ids have no comma), and then
    all get the same list, which is remembered; otherwise no channel is touched. *)
Theorem speakers_told_iff_changed now rl w r prev :
  w_rooms (mw_world w) !! rl = Some r -> r_closed r = false ->
  w_speakers (mw_world w) !! r_name r = Some (speakers_key prev) ->
  let speakers := omap (speaker_at now w) (members r) in
  Forall no_comma (sp_sid <$> prev) -> Forall no_comma (sp_sid <$> speakers) ->
  let x := mw_world w in let x' := mw_world (broadcast_room_speakers now w rl) in
  if decide (sort_strs (sp_sid <$> speakers) = sort_strs (sp_sid <$> prev))
  then w_chans x' = w_chans x /\ w_speakers x' = w_speakers x
  else w_chans x' = w_chans (send_all (members r) (RSpeakersChanged speakers) x) /\
       w_speakers x' !! r_name r = Some (speakers_key speakers).
Proof.
  intros Hr Hc Hk speakers Hp Hs x x'. unfold x', x, broadcast_room_speakers. rewrite Hr, Hc.
  destruct (active_speakers_spec now (members r) w) as [(S1 & S2 & S3) E]. fold speakers in E.
  destruct (active_speakers now (members r) w) as [w1 sp]. cbn [fst snd] in *. subst sp. rewrite S1, Hk. cbn [default from_option id].
  assert (speakers_key prev = speakers_key speakers <-> sort_strs (sp_sid <$> speakers) = sort_strs (sp_sid <$> prev)) as Hiff.
  { unfold speakers_key. split; [intros Hj; symmetry; apply join_inj in Hj; [done|..]|congruence];
      by rewrite sort_strs_perm. }
  destruct (String.eqb_spec (speakers_key prev) (speakers_key speakers)) as [Ek|Ek].
  - rewrite decide_True by tauto. by rewrite S1.
  - rewrite decide_False by tauto. cbn [mw_world set_mworld].
    assert (forall ls m y, w_speakers (send_all ls m y) = w_speakers y) as Hsp.
    { intros ls m. unfold send_all. induction ls as [|l ls IH]; intros y; cbn; [done|]. rewrite IH. unfold send_update. by repeat case_match. }
    assert (forall ls m y z, w_chans y = w_chans z -> w_parts y = w_parts z -> w_chans (send_all ls m y) = w_chans (send_all ls m z)) as Hch.
    { intros ls m. unfold send_all. induction ls as [|l ls IH]; intros y z E1 E2; cbn; [done|]. apply IH; unfold send_update;
        rewrite E1, E2; repeat case_match; cbn; congruence. }
    split; [by apply Hch|]. rewrite Hsp. cbn. by rewrite lookup_insert_eq.
Qed.

(** * Examples *)

Lemma sids_unique_nodup w : NoDup (p_sid <$> (map_to_list (w_parts w)).*2) -> sids_unique w.
Proof.
  intros Hd l l' p p' Hp Hp' E.
  apply elem_of_map_to_list, list_elem_of_lookup in Hp as [i Hi].
  apply elem_of_map_to_list, list_elem_of_lookup in Hp' as [j Hj].
  assert (i = j) as ->; [|congruence].
  eapply (proj1 (NoDup_alt _) Hd i j (p_sid p)); rewrite !list_lookup_fmap, ?Hi, ?Hj; cbn; congruence.
Qed.

Module MediaDemo.
Definition limits : option (Z * Z * Z) := Some (300, 20, 0).
Definition join_as (n : nat) (identity : string) (w : World) : World :=
  (join_room limits (DemoSignal.token identity "" []) DemoSignal.params Standard (DemoSignal.draws n) w).1.
Definition x1 : World := join_as 1 "alice" DemoSignal.s0.
Definition x2 : World := join_as 2 "bob" x1.
Definition w0 : MWorld := mkMW x2 ∅ ∅ RtpDemo.m0 [] [].
Definition room : Room := default Demo.r0 (w_rooms x2 !! 10%nat).
Definition alice : Participant := default (Demo.caller 1) (w_parts x2 !! 11%nat).

Definition setup : SetupDraws := mkSetup (Ok 100%nat) (Ok 101%nat) (Ok 102%nat) (Ok 103%nat).
Definition sub (track sender : loc) : SubDraws := mkSubDraws setup track (Ok sender).
Definition ds (s t : string) : SubDraws := sub 200%nat 300%nat.
Definition dt : TrackDraws := mkTrackDraws true "cid" None 50%nat "TR_1" 60%nat.
(** Alice's track has arrived and Bob receives it. *)
Definition w1 : MWorld := on_track 11%nat dt ds w0.

Lemma x2_ok : world_ok x2.
Proof.
  apply join_room_ok; [apply join_room_ok; [apply empty_world_ok|]|].
  - split_and!; done.
  - split_and!; [vm_compute; reflexivity..|]. intros l s.
    replace (statics x1) with ({[11%nat := mkStatic "PA_1" "alice" Standard (Some 10%nat) 0]} : gmap loc Static)
      by (vm_compute; reflexivity).
    intros [_ <-]%lookup_singleton_Some. done.
Qed.
Lemma x2_sids : sids_unique x2.
Proof. apply sids_unique_nodup, (bool_decide_unpack _). vm_compute. reflexivity. Qed.
Lemma pa9 : no_comma "PA_9".
Proof. split; [done|]. cbn. intuition discriminate. Qed.
End MediaDemo.

Lemma published_track_reaches_audience_witness :
  subscribers_at (on_track 11%nat MediaDemo.dt MediaDemo.ds MediaDemo.w0) (dt_forwarder MediaDemo.dt) !! "PA_2" = Some (200%nat : loc).
Proof.
  destruct (published_track_reaches_audience 11%nat MediaDemo.dt MediaDemo.ds MediaDemo.w0 MediaDemo.alice 10%nat MediaDemo.room)
    as (tsid & _ & _ & H).
  - vm_compute. reflexivity.
  - vm_compute. reflexivity.
  - reflexivity.
  - exact MediaDemo.x2_sids.
  - apply (wok_rooms _ MediaDemo.x2_ok). vm_compute. reflexivity.
  - intros cid tl.
    unfold get_track_by_cid. replace (p_tracks_by_cid MediaDemo.alice) with (∅ : gmap string loc) by (vm_compute; reflexivity).
    by rewrite lookup_empty.
  - intros s t. split; reflexivity.
  - rewrite (H "PA_2"), decide_True; [reflexivity|].
    apply (bool_decide_unpack _). vm_compute. reflexivity.
Defined.

Lemma close_media_releases_witness :
  subscribers_at (close_participant_media 21%nat MediaDemo.w1) 60%nat !! "PA_2" = None /\
  mw_calls (close_participant_media 21%nat MediaDemo.w1) = mw_calls MediaDemo.w1 ++ [CClose 100%nat].
Proof.
  destruct (close_media_releases 21%nat MediaDemo.w1 "PA_2") as (Hc & _ & _ & _ & _ & _ & Hs & _ & _).
  - vm_compute. reflexivity.
  - split.
    + apply (Hs 11%nat "TR_1").
      * apply (bool_decide_unpack _). vm_compute. reflexivity.
      * vm_compute. reflexivity.
    + rewrite Hc. f_equal.
Defined.

Lemma speakers_told_iff_changed_witness :
  let w := set_mworld (set_speakers {["r" := "PA_9"]} (mw_world MediaDemo.w1)) MediaDemo.w1 in
  w_speakers (mw_world (broadcast_room_speakers 0 w 10%nat)) !! "r" = Some "".
Proof.
  intros w.
  pose proof (speakers_told_iff_changed 0 10%nat w MediaDemo.room [mkSpeaker "PA_9" 0 true]) as H. cbv zeta in H.
  assert (omap (speaker_at 0 w) (members MediaDemo.room) = []) as E by (vm_compute; reflexivity). rewrite E in H.
  rewrite decide_False in H by done.
  apply H.
  - vm_compute. reflexivity.
  - vm_compute. reflexivity.
  - vm_compute. reflexivity.
  - apply list.Forall_singleton. exact MediaDemo.pa9.
  - constructor.
Defined.

(** ** What the code does not do as intended *)

(** Subscribing again to a track one already receives attaches a second sender and forgets the
    first: unsubscribing removes only the second, so the client keeps an unremovable copy. *)
Example resubscription_leaks_sender :
  let w := (add_subscription 21%nat "TR_1" 11%nat (MediaDemo.sub 201%nat 301%nat) MediaDemo.w1).2 in
  let w := remove_subscription 21%nat "TR_1" w in
  List.filter (fun c => match c with CAddTrack _ _ | CRemoveTrack _ _ => true | _ => false end) (mw_calls w)
  = [CAddTrack 100%nat 200%nat; CAddTrack 100%nat 201%nat; CRemoveTrack 100%nat 301%nat].
Proof. vm_compute. reflexivity. Qed.

(** Unsubscribing somebody who never subscribed, as the end of a track does for every other
    member, lowers the gauge of subscriptions below zero. *)
Example unsubscribe_lowers_gauge :
  int_value track_subscribed ["audio"] (mw_metrics (remove_subscription 21%nat "TR_1" MediaDemo.w0)) = -1.
Proof. vm_compute. reflexivity. Qed.

(** The first two offers have the same id. *)
Example first_offers_share_id :
  let m0 := ParticipantMedia_default in
  let '(m1, id1) := next_offer_id m0 in
  let '(m2, id2) := next_offer_id m1 in
  let '(_, id3) := next_offer_id m2 in
  id1 = 1 /\ id2 = 1 /\ id3 = 2.
Proof. vm_compute. done. Qed.

(** A candidate for a target the protocol does not name is kept where nobody looks for it. *)
Example unknown_target_candidate :
  let w := (add_ice_candidate 21%nat "c" 7 (Some "c") (Ok ()) MediaDemo.w0).2 in
  let w := (setup_subscriber 21%nat MediaDemo.setup w).2 in
  List.filter (fun c => match c with CAddIce _ _ => true | _ => false end) (mw_calls w) = [].
Proof. vm_compute. reflexivity. Qed.
