(* ===== verification/Negotiation.v ===== *)
(** Interleavings of the media plane, [crates/lk-server/src/media.rs]: the tasks that offer the
    subscriber connection to a client ([subscribe_negotiation], [handle_subscriber_answer],
    [request_subscriber_negotiation]), and candidates that arrive while a connection is set up
    ([add_ice_candidate], [setup_subscriber]).

    A step is what runs between two suspension points; the decisions and flag updates of a step
    are the functions of [Media.v].  An offer describes the tracks attached to the connection
    when it is created, which the revision counter of the state stands for. *)
From Stdlib Require Import ZArith Lia Ascii String.
From stdpp Require Import base gmap strings list option relations.
From S2P Require Import Prelude Proto Participant Media.

Open Scope string_scope.
Open Scope list_scope.
Open Scope Z_scope.

Module Negotiation.

(** Where a [subscribe_negotiation] task is. *)
Inductive Phase :=
| PSleep (force : bool)      (** debouncing, or waiting for the [negotiating] lock *)
| PProceed                   (** has the lock and passed the check *)
| POffered (rev : Z)         (** the offer is created *)
| PSet (rev : Z)             (** and set as the local description *)
| PNumbered (id rev : Z)     (** has its id; the transceivers are being read *)
| PAwaiting (id rev : Z).    (** [answer_pending] is set; the offer is being sent *)

(** One participant: its media state, the tasks, how often tracks were attached or detached,
    subscription calls that have not asked for negotiation yet, the offers sent with the
    revision they describe, and how many of them the client answered. *)
Record Neg := mkNeg {
  ng_media : ParticipantMedia;
  ng_tasks : list Phase;
  ng_rev : Z;
  ng_ops : nat;
  ng_sent : list (Z * Z);
  ng_answered : nat
}.

Definition holds (ph : Phase) : bool := match ph with PSleep _ => false | _ => true end.
Definition lock_free (tasks : list Phase) : Prop := Forall (fun ph => holds ph = false) tasks.

Definition start (m : ParticipantMedia) : Neg := mkNeg m [] 0 0 [] 0.

(** New work: a track is attached or detached, and negotiation is asked for. *)
Inductive neg_input : Neg -> Neg -> Prop :=
| n_change m ts rev ops sent ans :
    neg_input (mkNeg m ts rev ops sent ans) (mkNeg m ts (rev + 1) (S ops) sent ans)
| n_request m ts rev ops sent ans :
    neg_input (mkNeg m ts rev (S ops) sent ans) (mkNeg (flag_negotiation m) (ts ++ [PSleep false]) rev ops sent ans)
| n_ask m ts rev ops sent ans :
    neg_input (mkNeg m ts rev ops sent ans) (mkNeg (flag_negotiation m) (ts ++ [PSleep false]) rev ops sent ans).

(** Progress of the tasks, with a connection that does as asked, and answers of the client to
    the offers it was sent. *)
Inductive neg_internal : Neg -> Neg -> Prop :=
| n_stop m m' a b force rev ops sent ans :
    lock_free (a ++ b) -> negotiation_check force m = (m', false) ->
    neg_internal (mkNeg m (a ++ PSleep force :: b) rev ops sent ans) (mkNeg m' (a ++ b) rev ops sent ans)
| n_go m m' a b force rev ops sent ans :
    lock_free (a ++ b) -> negotiation_check force m = (m', true) ->
    neg_internal (mkNeg m (a ++ PSleep force :: b) rev ops sent ans) (mkNeg m' (a ++ PProceed :: b) rev ops sent ans)
| n_offer m a b rev ops sent ans :
    neg_internal (mkNeg m (a ++ PProceed :: b) rev ops sent ans) (mkNeg m (a ++ POffered rev :: b) rev ops sent ans)
| n_local m a b r rev ops sent ans :
    neg_internal (mkNeg m (a ++ POffered r :: b) rev ops sent ans) (mkNeg m (a ++ PSet r :: b) rev ops sent ans)
| n_number m m' id a b r rev ops sent ans :
    next_offer_id m = (m', id) ->
    neg_internal (mkNeg m (a ++ PSet r :: b) rev ops sent ans) (mkNeg m' (a ++ PNumbered id r :: b) rev ops sent ans)
| n_await m id a b r rev ops sent ans :
    neg_internal (mkNeg m (a ++ PNumbered id r :: b) rev ops sent ans)
      (mkNeg (await_answer m) (a ++ PAwaiting id r :: b) rev ops sent ans)
| n_send m id a b r rev ops sent ans :
    neg_internal (mkNeg m (a ++ PAwaiting id r :: b) rev ops sent ans) (mkNeg m (a ++ b) rev ops (sent ++ [(id, r)]) ans)
| n_answer m m' again ts rev ops sent ans :
    (ans < length sent)%nat -> answer_accepted m = (m', again) ->
    neg_internal (mkNeg m ts rev ops sent ans)
      (mkNeg m' (ts ++ (if again then [PSleep true] else [])) rev ops sent (S ans)).

Definition neg_step (s s' : Neg) : Prop := neg_input s s' \/ neg_internal s s'.

(** ** The invariant *)

Definition rev_of (ph : Phase) : option Z :=
  match ph with POffered r | PSet r | PNumbered _ r | PAwaiting _ r => Some r | _ => None end.

(** The revision of the offer being made, or of the last one sent. *)
Definition covered (ts : list Phase) (sent : list (Z * Z)) : Z :=
  match omap rev_of ts with
  | r :: _ => r
  | [] => default 0 (snd <$> last sent)
  end.

(** What the holder of the lock tells of the flag. *)
Definition flag_ok (m : ParticipantMedia) (sent : list (Z * Z)) (ans : nat) (ph : Phase) : Prop :=
  match ph with
  | PSleep _ => True
  | PAwaiting _ _ => pm_answer_pending m = true /\ ans = length sent
  | _ => pm_answer_pending m = false /\ ans = length sent
  end.

Record inv (s : Neg) : Prop := {
  i_lock : (length (filter (fun ph => holds ph = true) (ng_tasks s)) <= 1)%nat;
  i_free : lock_free (ng_tasks s) ->
    (length (ng_sent s) = ng_answered s + if pm_answer_pending (ng_media s) then 1 else 0)%nat;
  i_flag : Forall (flag_ok (ng_media s) (ng_sent s) (ng_answered s)) (ng_tasks s);
  i_needs : pm_needs_negotiation (ng_media s) = true ->
    pm_answer_pending (ng_media s) = true \/ exists f, PSleep f ∈ ng_tasks s;
  i_le : covered (ng_tasks s) (ng_sent s) <= ng_rev s;
  i_cover : covered (ng_tasks s) (ng_sent s) < ng_rev s ->
    (0 < ng_ops s)%nat \/ pm_needs_negotiation (ng_media s) = true \/ PSleep true ∈ ng_tasks s \/ PProceed ∈ ng_tasks s
}.

Definition last_rev (sent : list (Z * Z)) : Z := default 0 (snd <$> last sent).

Lemma lock_free_app a b : lock_free (a ++ b) <-> lock_free a /\ lock_free b.
Proof. unfold lock_free. by rewrite list.Forall_app. Qed.
Lemma lock_free_cons ph b : lock_free (ph :: b) <-> holds ph = false /\ lock_free b.
Proof. unfold lock_free. by rewrite list.Forall_cons. Qed.

Lemma free_revs l : lock_free l -> omap rev_of l = [].
Proof.
  induction l as [|ph l IH]; [done|]. intros [H1 H2]%lock_free_cons. cbn [omap list_omap].
  destruct ph; try done. by apply IH.
Qed.
Lemma held_revs a ph b : lock_free (a ++ b) -> omap rev_of (a ++ ph :: b) = option_list (rev_of ph).
Proof.
  intros [Ha Hb]%lock_free_app. rewrite omap_app, (free_revs a Ha). cbn [app omap list_omap].
  rewrite (free_revs b Hb). by destruct (rev_of ph).
Qed.
Lemma free_count l : lock_free l -> filter (fun ph => holds ph = true) l = [].
Proof.
  induction l as [|ph l IH]; [done|]. intros [H1 H2]%lock_free_cons.
  rewrite filter_cons_False by congruence. by apply IH.
Qed.
Lemma held_count a ph b :
  length (filter (fun x => holds x = true) (a ++ ph :: b)) =
  (length (filter (fun x => holds x = true) (a ++ b)) + if holds ph then 1 else 0)%nat.
Proof.
  rewrite !list.filter_app, !length_app. destruct (holds ph) eqn:E.
  - rewrite filter_cons_True by done. cbn [length]. lia.
  - rewrite filter_cons_False by congruence. lia.
Qed.
Lemma count_free l : filter (fun ph => holds ph = true) l = [] -> lock_free l.
Proof.
  induction l as [|ph l IH]; [constructor|]. destruct (holds ph) eqn:E.
  - by rewrite filter_cons_True.
  - rewrite filter_cons_False by congruence. intros H. apply lock_free_cons. auto.
Qed.
Lemma holder_alone a ph b :
  (length (filter (fun x => holds x = true) (a ++ ph :: b)) <= 1)%nat -> holds ph = true -> lock_free (a ++ b).
Proof.
  rewrite held_count. intros H E. rewrite E in H. apply count_free, nil_length_inv. lia.
Qed.
Lemma free_flags m sent ans l : lock_free l -> Forall (flag_ok m sent ans) l.
Proof. intros H. eapply list.Forall_impl; [exact H|]. by intros []. Qed.

Lemma elem_of_middle {A} (x y : A) a b : x <> y -> x ∈ a ++ y :: b <-> x ∈ a ++ b.
Proof. intros Hne. rewrite !elem_of_app, elem_of_cons. naive_solver. Qed.

(** The invariant when nobody has the lock. *)
Lemma inv_idle m ts rev ops sent ans :
  lock_free ts ->
  inv (mkNeg m ts rev ops sent ans) <->
  (length sent = ans + if pm_answer_pending m then 1 else 0)%nat /\
  (pm_needs_negotiation m = true -> pm_answer_pending m = true \/ exists f, PSleep f ∈ ts) /\
  last_rev sent <= rev /\
  (last_rev sent < rev -> (0 < ops)%nat \/ pm_needs_negotiation m = true \/ PSleep true ∈ ts).
Proof.
  intros Hf. assert (covered ts sent = last_rev sent) as Ec by (unfold covered; by rewrite free_revs).
  assert (PProceed ∉ ts) as Hp.
  { intros Hin. unfold lock_free in Hf. rewrite list.Forall_forall in Hf. by specialize (Hf _ Hin). }
  split.
  - intros [I1 I2 I3 I4 I5 I6]. cbn in *. rewrite Ec in I5, I6. split_and!; [auto..|]. intros H. destruct (I6 H) as [|[|[|]]]; auto.
  - intros (I2 & I4 & I5 & I6). split; cbn; rewrite ?Ec; auto using free_flags.
    + rewrite free_count by done. cbn. lia.
    + intros H. destruct (I6 H) as [|[|]]; auto.
Qed.

(** And when a task has it. *)
Lemma inv_held m a ph b rev ops sent ans :
  lock_free (a ++ b) -> holds ph = true ->
  inv (mkNeg m (a ++ ph :: b) rev ops sent ans) <->
  flag_ok m sent ans ph /\
  (pm_needs_negotiation m = true -> pm_answer_pending m = true \/ exists f, PSleep f ∈ a ++ b) /\
  default (last_rev sent) (rev_of ph) <= rev /\
  (default (last_rev sent) (rev_of ph) < rev ->
     (0 < ops)%nat \/ pm_needs_negotiation m = true \/ PSleep true ∈ a ++ b \/ ph = PProceed).
Proof.
  intros Hf Hh. assert (covered (a ++ ph :: b) sent = default (last_rev sent) (rev_of ph)) as Ec.
  { unfold covered. rewrite held_revs by done. by destruct (rev_of ph). }
  assert (forall f, PSleep f ∈ a ++ ph :: b <-> PSleep f ∈ a ++ b) as Hs by (intros f; apply elem_of_middle; by intros <-).
  assert (PProceed ∉ a ++ b) as Hp.
  { intros Hin. unfold lock_free in Hf. rewrite list.Forall_forall in Hf. by specialize (Hf _ Hin). }
  assert (PProceed ∈ a ++ ph :: b <-> ph = PProceed) as Hpp.
  { rewrite elem_of_app, elem_of_cons. rewrite elem_of_app in Hp. naive_solver. }
  assert (Forall (flag_ok m sent ans) (a ++ ph :: b) <-> flag_ok m sent ans ph) as Hfl.
  { apply lock_free_app in Hf as [Ha Hb]. rewrite list.Forall_app, list.Forall_cons. naive_solver auto using free_flags. }
  split.
  - intros [I1 I2 I3 I4 I5 I6]. cbn in *. rewrite Ec in I5, I6. setoid_rewrite Hs in I4. rewrite Hs, Hpp in I6.
    rewrite Hfl in I3. auto.
  - intros (I3 & I4 & I5 & I6). split; cbn; rewrite ?Ec, ?Hfl; auto.
    + rewrite held_count, free_count, Hh by done. cbn. lia.
    + intros [_ [Hx _]%lock_free_cons]%lock_free_app. congruence.
    + setoid_rewrite Hs. done.
    + by rewrite Hs, Hpp.
Qed.

Lemma start_inv m : pm_answer_pending m = false -> pm_needs_negotiation m = false -> inv (start m).
Proof. intros H1 H2. apply inv_idle; [constructor|]. rewrite H1, H2. cbn. split_and!; done. Qed.

(** Either nobody has the lock or one task, the only one, has it. *)
Lemma inv_cases s : inv s ->
  lock_free (ng_tasks s) \/ exists a ph b, ng_tasks s = a ++ ph :: b /\ holds ph = true /\ lock_free (a ++ b).
Proof.
  intros [I1 _ _ _ _ _]. destruct (filter (fun ph => holds ph = true) (ng_tasks s)) as [|ph l] eqn:E; [left; by apply count_free|right].
  assert (ph ∈ filter (fun ph => holds ph = true) (ng_tasks s)) as Hin by (rewrite E; left).
  apply list_elem_of_filter in Hin as [Hh Hin]. apply list_elem_of_split in Hin as (a & b & Ets).
  exists a, ph, b. split_and!; [done|done|]. rewrite Ets in *. eapply holder_alone; [|done]. rewrite E. exact I1.
Qed.

Lemma free_snoc a f : lock_free a -> lock_free (a ++ [PSleep f]).
Proof. intros H. apply lock_free_app. split; [done|]. by repeat constructor. Qed.

Lemma request_inv m ts rev ops ops' sent ans :
  inv (mkNeg m ts rev ops sent ans) -> inv (mkNeg (flag_negotiation m) (ts ++ [PSleep false]) rev ops' sent ans).
Proof.
  intros Hi. destruct (inv_cases _ Hi) as [Hf|(a & ph & b & Ets & Hh & Hf)]; cbn in *.
  - apply (inv_idle m ts rev ops sent ans Hf) in Hi as (I1 & I2 & I3 & I4). apply inv_idle; [by apply free_snoc|].
    cbn. split_and!; [done| |done|auto]. intros _. right. exists false. apply elem_of_app. right. left.
  - subst ts. apply (inv_held m a ph b rev ops sent ans Hf Hh) in Hi as (I1 & I2 & I3 & I4).
    rewrite <- app_assoc. cbn [app]. apply inv_held; [rewrite app_assoc; by apply free_snoc|done|].
    split_and!; [by destruct ph| |done|cbn; auto]. intros _. right. exists false. rewrite !elem_of_app. right. right. left.
Qed.

Lemma input_inv s s' : neg_input s s' -> inv s -> inv s'.
Proof.
  intros [] Hi.
  - destruct Hi as [I1 I2 I3 I4 I5 I6]. cbn in *. split; cbn; try done; [lia|intros _; left; lia].
  - by eapply request_inv.
  - by eapply request_inv.
Qed.

(** The cases of [negotiation_check]. *)
Lemma check_cases force m m' go :
  negotiation_check force m = (m', go) ->
  (pm_answer_pending m = true /\ go = false /\ pm_answer_pending m' = true /\ pm_needs_negotiation m' = true) \/
  (pm_answer_pending m = false /\ pm_answer_pending m' = false /\ pm_needs_negotiation m' = false /\
   ((go = true /\ (force = true \/ pm_needs_negotiation m = true)) \/
    (go = false /\ force = false /\ pm_needs_negotiation m = false))).
Proof.
  unfold negotiation_check. destruct (pm_answer_pending m) eqn:E1; [intros [= <- <-]; by left|].
  right. destruct force, (pm_needs_negotiation m) eqn:E2; cbn [negb andb] in *; injection H as <- <-; cbn; auto 10.
Qed.

Lemma sleep_removed f g (a b : list Phase) : PSleep f ∈ a ++ PSleep g :: b -> f <> g -> PSleep f ∈ a ++ b.
Proof. intros H Hne. apply elem_of_middle in H; [done|]. congruence. Qed.

Lemma internal_inv s s' : neg_internal s s' -> inv s -> inv s'.
Proof.
  intros Hs Hi. destruct Hs as
    [m m' a b force rev ops sent ans Hf Ec|m m' a b force rev ops sent ans Hf Ec|m a b rev ops sent ans
    |m a b r rev ops sent ans|m m' oid a b r rev ops sent ans En|m oid a b r rev ops sent ans
    |m oid a b r rev ops sent ans|m m' again ts rev ops sent ans Hl Ea].
  - (* stop *)
    assert (lock_free (a ++ PSleep force :: b)) as Hf'.
    { apply lock_free_app in Hf as [Ha Hb]. apply lock_free_app. split; [done|]. by apply lock_free_cons. }
    apply inv_idle in Hi as (I1 & I2 & I3 & I4); [|done]. apply inv_idle; [done|].
    destruct (check_cases _ _ _ _ Ec) as [(E1 & _ & E2 & E3)|(E1 & E2 & E3 & [[? _]|(_ & -> & E4)])]; [|done|];
      rewrite E1 in I1; rewrite E2, E3.
    + split_and!; [done|auto|done|auto].
    + split_and!; [done|done|done|]. intros H. destruct (I4 H) as [|[|Hin]]; [auto|congruence|].
      right. right. by apply (sleep_removed true false).
  - (* go *)
    assert (lock_free (a ++ PSleep force :: b)) as Hf'.
    { apply lock_free_app in Hf as [Ha Hb]. apply lock_free_app. split; [done|]. by apply lock_free_cons. }
    apply inv_idle in Hi as (I1 & I2 & I3 & I4); [|done]. apply inv_held; [done|done|].
    destruct (check_cases _ _ _ _ Ec) as [(_ & ? & _)|(E1 & E2 & E3 & _)]; [done|]. rewrite E1 in I1.
    cbn [flag_ok rev_of from_option]. rewrite E2, E3. split_and!; [done|lia|done|done|auto].
  - assert (lock_free (a ++ b)) as Hf by (eapply holder_alone; [apply Hi|done]).
    apply inv_held in Hi as ((I0 & I1) & I2 & I3 & I4); [|done..]. apply inv_held; [done..|].
    cbn [flag_ok rev_of from_option] in *; unfold id in *. split_and!; [done|done|done|lia|lia].
  - assert (lock_free (a ++ b)) as Hf by (eapply holder_alone; [apply Hi|done]).
    apply inv_held in Hi as ((I0 & I1) & I2 & I3 & I4); [|done..]. apply inv_held; [done..|].
    cbn [flag_ok rev_of from_option] in *; unfold id in *. split_and!; try done. intros H. destruct (I4 H) as [|[|[|]]]; auto. done.
  - assert (lock_free (a ++ b)) as Hf by (eapply holder_alone; [apply Hi|done]).
    apply inv_held in Hi as ((I0 & I1) & I2 & I3 & I4); [|done..]. injection En as <- <-. apply inv_held; [done..|].
    cbn [flag_ok rev_of from_option] in *; unfold id in *. split_and!; try done. intros H. destruct (I4 H) as [|[|[|]]]; auto. done.
  - assert (lock_free (a ++ b)) as Hf by (eapply holder_alone; [apply Hi|done]).
    apply inv_held in Hi as ((I0 & I1) & I2 & I3 & I4); [|done..]. apply inv_held; [done..|].
    cbn [flag_ok rev_of from_option] in *; unfold id in *. split_and!; try done; [auto|]. intros H. destruct (I4 H) as [|[|[|]]]; auto. done.
  - assert (lock_free (a ++ b)) as Hf by (eapply holder_alone; [apply Hi|done]).
    apply inv_held in Hi as ((I0 & I1) & I2 & I3 & I4); [|done..]. apply inv_idle; [done|].
    assert (last_rev (sent ++ [(oid, r)]) = r) as El by (unfold last_rev; by rewrite last_snoc).
    cbn [flag_ok rev_of from_option] in *; unfold id in *. rewrite El, I0, length_app. cbn [length].
    split_and!; [lia|auto|done|]. intros H. destruct (I4 H) as [|[|[|]]]; auto. done.
  - injection Ea as <- <-.
    destruct (inv_cases _ Hi) as [Hf|(a & ph & b & Ets & Hh & Hf)]; cbn [ng_tasks] in *.
    + apply inv_idle in Hi as (I1 & I2 & I3 & I4); [|done].
      apply inv_idle; [by destruct (pm_needs_negotiation m); [apply free_snoc|rewrite app_nil_r]|]. cbn.
      destruct (pm_answer_pending m); [|lia]. split_and!; [lia|done|done|]. intros H.
      destruct (I4 H) as [|[Hn|]]; [auto|rewrite Hn; do 2 right; apply elem_of_app; right; left|do 2 right; apply elem_of_app; auto].
    + subst ts. apply inv_held in Hi as (I1 & _); [|done..]. exfalso.
      destruct ph; cbn in I1; try done; destruct I1 as [_ I1]; lia.
Qed.

Lemma negotiation_reach_inv m s :
  pm_answer_pending m = false -> pm_needs_negotiation m = false -> reach neg_step (start m) s -> inv s.
Proof.
  intros H1 H2. apply reach_invariant; [by apply start_inv|].
  intros s1 s2 Hi [Hs|Hs]; [by eapply input_inv|by eapply internal_inv].
Qed.

(** ** Termination *)

Definition weight (ph : Phase) : nat :=
  match ph with
  | PSleep _ => 20 | PProceed => 16 | POffered _ => 15 | PSet _ => 14 | PNumbered _ _ => 13 | PAwaiting _ _ => 12
  end.
Definition weights (ts : list Phase) : nat := sum_list_with weight ts.

(** A bound on the steps left without new work. *)
Definition potential (s : Neg) : nat :=
  (weights (ng_tasks s) + 10 * (length (ng_sent s) - ng_answered s)
   + if pm_needs_negotiation (ng_media s) then 12 else 0)%nat.

Lemma weights_app a b : weights (a ++ b) = (weights a + weights b)%nat.
Proof. apply sum_list_with_app. Qed.

Lemma internal_decreases s s' : inv s -> neg_internal s s' -> (potential s' < potential s)%nat.
Proof.
  intros Hi Hs. destruct Hs as
    [m m' a b force rev ops sent ans Hf Ec|m m' a b force rev ops sent ans Hf Ec|m a b rev ops sent ans
    |m a b r rev ops sent ans|m m' oid a b r rev ops sent ans En|m oid a b r rev ops sent ans
    |m oid a b r rev ops sent ans|m m' again ts rev ops sent ans Hl Ea]; unfold potential; cbn [ng_tasks ng_sent ng_answered ng_media];
    rewrite ?weights_app; unfold weights; cbn [sum_list_with weight].
  - destruct (check_cases _ _ _ _ Ec) as [(_ & _ & _ & ->)|(_ & _ & -> & _)]; case_match; lia.
  - destruct (check_cases _ _ _ _ Ec) as [(_ & ? & _)|(_ & _ & -> & _)]; [done|]; case_match; lia.
  - lia.
  - lia.
  - injection En as <- _. cbn. lia.
  - cbn. lia.
  - assert (lock_free (a ++ b)) as Hf by (eapply holder_alone; [apply Hi|done]).
    apply inv_held in Hi as ((_ & ->) & _); [|done..]. rewrite length_app. cbn [length]. lia.
  - injection Ea as <- <-. cbn. destruct (pm_needs_negotiation m); cbn; lia.
Qed.

(** ** Progress *)

(** Nothing is left to do: no task, and every offer answered. *)
Definition settled (s : Neg) : Prop := ng_tasks s = [] /\ ng_answered s = length (ng_sent s).

Lemma internal_progress s : inv s -> settled s \/ exists s', neg_internal s s'.
Proof.
  intros Hi. destruct s as [m ts rev ops sent ans].
  destruct (inv_cases _ Hi) as [Hf|(a & ph & b & Ets & Hh & Hf)]; cbn [ng_tasks] in *.
  - destruct ts as [|ph ts].
    + apply inv_idle in Hi as (I1 & _); [|done]. destruct (decide (ans = length sent)) as [->|Hne]; [by left|]. right.
      eexists. eapply n_answer; [|apply surjective_pairing]. destruct (pm_answer_pending m); lia.
    + right. apply lock_free_cons in Hf as [Hp Hf]. destruct ph as [force| | | | |]; try done.
      destruct (negotiation_check force m) as [m' []] eqn:Ec.
      * eexists. by apply (n_go m m' [] ts force).
      * eexists. by apply (n_stop m m' [] ts force).
  - right. subst ts. destruct ph; try done.
    + eexists. apply n_offer.
    + eexists. apply n_local.
    + eexists. eapply n_number, surjective_pairing.
    + eexists. apply n_await.
    + eexists. apply n_send.
Qed.

Lemma settled_covers s : inv s -> settled s -> ng_ops s = 0%nat -> last_rev (ng_sent s) = ng_rev s.
Proof.
  destruct s as [m ts rev ops sent ans]. intros Hi [Et Ea] Ho. cbn [ng_tasks ng_answered ng_sent ng_ops ng_rev] in *. subst.
  apply inv_idle in Hi as (I1 & I2 & I3 & I4); [|constructor].
  destruct (pm_answer_pending m); [lia|].
  destruct (decide (last_rev sent < rev)) as [Hlt|]; [|lia]. destruct (I4 Hlt) as [|[Hn|[]%elem_of_nil]]; [lia|].
  destruct (I2 Hn) as [|[f []%elem_of_nil]]. done.
Qed.

Lemma internal_rev s s' : neg_internal s s' -> ng_rev s' = ng_rev s /\ ng_ops s' = ng_ops s.
Proof. by intros []. Qed.

Lemma internal_star_inv s s' : rtc neg_internal s s' -> inv s -> inv s' /\ ng_rev s' = ng_rev s /\ ng_ops s' = ng_ops s.
Proof.
  induction 1 as [|x y z H _ IH]; intros Hi; [done|]. destruct (IH (internal_inv _ _ H Hi)) as (I1 & -> & ->).
  destruct (internal_rev _ _ H). by split_and!.
Qed.

Lemma internal_steps_bound n : forall s s', inv s -> nsteps neg_internal n s s' -> (n + potential s' <= potential s)%nat.
Proof.
  induction n as [|n IH]; intros s s' Hi H; inversion H; subst; [lia|].
  pose proof (internal_decreases _ _ Hi H1). specialize (IH _ _ (internal_inv _ _ H1 Hi) H2). lia.
Qed.

Lemma settles s : inv s -> exists s', rtc neg_internal s s' /\ settled s'.
Proof.
  remember (potential s) as n eqn:En. revert s En. induction n as [n IH] using lt_wf_ind. intros s -> Hi.
  destruct (internal_progress s Hi) as [H|[s1 H1]]; [by exists s|].
  destruct (IH _ (internal_decreases _ _ Hi H1) s1 eq_refl (internal_inv _ _ H1 Hi)) as (s2 & H2 & Hs2).
  exists s2. split; [by eapply rtc_l|done].
Qed.

(** At most one offer is unanswered. *)
Lemma one_unanswered s : inv s -> (ng_answered s <= length (ng_sent s) <= S (ng_answered s))%nat.
Proof.
  intros Hi. destruct s as [m' ts rev ops sent ans].
  destruct (inv_cases _ Hi) as [Hf|(a & ph & b & Ets & Hh & Hf)]; cbn [ng_tasks ng_sent ng_answered] in *.
  - apply inv_idle in Hi as (I1 & _); [|done]. destruct (pm_answer_pending m'); lia.
  - subst ts. apply inv_held in Hi as (I1 & _); [|done..]. destruct ph; cbn in I1; try done; destruct I1 as [_ ->]; lia.
Qed.

(** C10: renegotiation converges.  Take any interleaving of subscription changes, requests to
    negotiate, debounced tasks and client answers.  At most one offer is ever unanswered, and an
    offer is only made when all earlier ones are answered.  When no more changes come, every run
    of the tasks and answers ends within a number of steps fixed by the state, and ends with no
    task left and the client holding an offer that describes the latest set of tracks: no
    change is lost, whichever task, answer or flag it raced with. *)
Theorem renegotiation_converges m s :
  pm_answer_pending m = false -> pm_needs_negotiation m = false -> reach neg_step (start m) s ->
  (ng_answered s <= length (ng_sent s) <= S (ng_answered s))%nat /\
  (forall ph, ph ∈ ng_tasks s -> holds ph = true -> ng_answered s = length (ng_sent s)) /\
  (forall n s', nsteps neg_internal n s s' -> n <= potential s)%nat /\
  (ng_ops s = 0%nat -> forall s', rtc neg_internal s s' ->
     (exists s'', neg_internal s' s'') \/ (settled s' /\ last_rev (ng_sent s') = ng_rev s)) /\
  (exists s', rtc neg_internal s s' /\ settled s').
Proof.
  intros H1 H2 Hr. pose proof (negotiation_reach_inv m s H1 H2 Hr) as Hi. split; [|split; [|split; [|split]]].
  - by apply one_unanswered.
  - intros ph Hin Hh. destruct Hi as [_ _ I3 _ _ _]. rewrite list.Forall_forall in I3. specialize (I3 _ Hin).
    destruct ph; cbn in I3; try done; apply I3.
  - intros n s' Hn. pose proof (internal_steps_bound n s s' Hi Hn). lia.
  - intros Ho s' Hs. destruct (internal_star_inv _ _ Hs Hi) as (Hi' & Er & Eo).
    destruct (internal_progress s' Hi') as [Hset|Hp]; [right|by left]. split; [done|].
    rewrite <- Er. apply settled_covers; [done|done|congruence].
  - by apply settles.
Qed.

(** ** When the connection does not cooperate *)

(** Failures the code logs: an offer that cannot be created or set, an answer the connection
    refuses. *)
Inductive neg_fail : Neg -> Neg -> Prop :=
| f_offer m a b rev ops sent ans :
    neg_fail (mkNeg m (a ++ PProceed :: b) rev ops sent ans) (mkNeg m (a ++ b) rev ops sent ans)
| f_local m a b r rev ops sent ans :
    neg_fail (mkNeg m (a ++ POffered r :: b) rev ops sent ans) (mkNeg m (a ++ b) rev ops sent ans)
| f_answer m ts rev ops sent ans :
    (ans < length sent)%nat -> neg_fail (mkNeg m ts rev ops sent ans) (mkNeg m ts rev ops sent (S ans)).

(** Waiting for an answer that was already consumed. *)
Definition blocked (s : Neg) : Prop :=
  lock_free (ng_tasks s) /\ pm_answer_pending (ng_media s) = true /\ (length (ng_sent s) <= ng_answered s)%nat.

Lemma not_free_middle a ph b : lock_free (a ++ ph :: b) -> holds ph = true -> False.
Proof. intros [_ [H _]%lock_free_cons]%lock_free_app. congruence. Qed.

Lemma blocked_step s s' : blocked s -> neg_step s s' -> blocked s' /\ ng_sent s' = ng_sent s.
Proof.
  unfold blocked. intros (Hf & Hp & Hl) [Hs|Hs]; destruct Hs; cbn in *;
    try (exfalso; by eapply not_free_middle); try (split; [split_and!|]; auto using free_snoc; done).
  - match goal with H : negotiation_check _ _ = _ |- _ =>
      destruct (check_cases _ _ _ _ H) as [(_ & _ & E & _)|(E & _)]; [|congruence] end.
    split; [|done]. by split_and!.
  - match goal with H : negotiation_check _ _ = _ |- _ =>
      destruct (check_cases _ _ _ _ H) as [(_ & ? & _)|(E & _)]; congruence end.
  - lia.
Qed.

Lemma blocked_forever s s' : blocked s -> rtc neg_step s s' -> ng_sent s' = ng_sent s.
Proof.
  intros Hb H. revert Hb. induction H as [|x y z Hs _ IH]; intros Hb; [done|].
  destruct (blocked_step x y Hb Hs) as [Hy E]. by rewrite (IH Hy).
Qed.


(** *** Runs *)

Definition m0 : ParticipantMedia := ParticipantMedia_default.
Definition flagged : ParticipantMedia := flag_negotiation m0.
Definition checked : ParticipantMedia := (negotiation_check false flagged).1.
Definition numbered : ParticipantMedia := (next_offer_id checked).1.
(** A subscription has been added and its task has passed the check. *)
Definition proceeding : Neg := mkNeg checked [PProceed] 1 0 [] 0.
(** The offer for it is out. *)
Definition offered : Neg := mkNeg (await_answer numbered) [] 1 0 [(1, 1)] 0.

Lemma proceeding_reachable : reach neg_step (start m0) proceeding.
Proof.
  eapply reach_step; [eapply reach_step; [eapply reach_step; [apply reach_init|]|]|].
  - left. apply n_change.
  - left. apply n_request.
  - right. apply (n_go flagged checked [] [] false); [constructor|reflexivity].
Qed.
Lemma offered_reachable : reach neg_step (start m0) offered.
Proof.
  eapply reach_step; [eapply reach_step; [eapply reach_step; [eapply reach_step; [eapply reach_step; [apply proceeding_reachable|]|]|]|]|];
    right.
  - apply (n_offer checked [] []).
  - apply (n_local checked [] []).
  - apply (n_number checked numbered 1 [] []). reflexivity.
  - apply (n_await numbered 1 [] []).
  - apply (n_send (await_answer numbered) 1 [] []).
Qed.

Lemma renegotiation_converges_witness : exists s', rtc neg_internal proceeding s' /\ settled s'.
Proof.
  destruct (renegotiation_converges m0 proceeding) as (_ & _ & _ & _ & H); [reflexivity|reflexivity|exact proceeding_reachable|].
  exact H.
Defined.


(** An offer that cannot be created is forgotten: the new track is described by no offer, and no
    task is left that would make one. *)
Theorem failed_offer_is_forgotten :
  exists s, neg_fail proceeding s /\ settled s /\ ng_ops s = 0%nat /\ last_rev (ng_sent s) < ng_rev s /\
    forall s', ~ neg_internal s s'.
Proof.
  exists (mkNeg checked [] 1 0 [] 0). split_and!; try done.
  - apply (f_offer checked [] []).
  - intros s' H. inversion H; try (by destruct a). cbn in *. lia.
Qed.

End Negotiation.

Module EarlyCandidates.

(** The one setup that creates the connection; other callers wait for its lock and find the
    connection. *)
Inductive Setup :=
| SIdle
| STaken (pending : list string)               (** has the buffered candidates; creates the connection *)
| SFlushing (pc : loc) (pending : list string) (** has installed it; hands the candidates over *)
| SDone.

(** Calls of [add_ice_candidate] that have looked the connection up and not acted yet, what was
    handed to the connection, and everything that arrived. *)
Record Cand := mkCand {
  cd_media : ParticipantMedia;
  cd_setup : Setup;
  cd_reading : list (string * option loc);
  cd_delivered : list string;
  cd_arrived : list string
}.

Definition start : Cand := mkCand ParticipantMedia_default SIdle [] [] [].

Inductive cand_step : Cand -> Cand -> Prop :=
| c_read m st rd dl ar init :
    cand_step (mkCand m st rd dl ar) (mkCand m st (rd ++ [(init, pc_for Subscriber m)]) dl (ar ++ [init]))
| c_buffer m st a b dl ar init :
    cand_step (mkCand m st (a ++ (init, None) :: b) dl ar) (mkCand (push_pending Subscriber init m) st (a ++ b) dl ar)
| c_deliver m st a b dl ar init pc :
    cand_step (mkCand m st (a ++ (init, Some pc) :: b) dl ar) (mkCand m st (a ++ b) (dl ++ [init]) ar)
| c_take m m' pending rd dl ar :
    pm_subscriber m = None -> take_pending Subscriber m = (m', pending) ->
    cand_step (mkCand m SIdle rd dl ar) (mkCand m' (STaken pending) rd dl ar)
| c_install m pending rd dl ar pc reliable lossy :
    cand_step (mkCand m (STaken pending) rd dl ar)
      (mkCand (set_pm_subscriber (Some pc) (Some reliable) (Some lossy) m) (SFlushing pc pending) rd dl ar)
| c_flush m pc init pending rd dl ar :
    cand_step (mkCand m (SFlushing pc (init :: pending)) rd dl ar) (mkCand m (SFlushing pc pending) rd (dl ++ [init]) ar)
| c_done m pc rd dl ar :
    cand_step (mkCand m (SFlushing pc []) rd dl ar) (mkCand m SDone rd dl ar).

Definition in_hand (st : Setup) : list string :=
  match st with STaken l | SFlushing _ l => l | _ => [] end.
Definition buffered (m : ParticipantMedia) : list string := default [] (pm_pending_candidates m !! Subscriber).
Definition installed (st : Setup) : bool := match st with SFlushing _ _ | SDone => true | _ => false end.

Lemma buffered_push init m : buffered (push_pending Subscriber init m) = buffered m ++ [init].
Proof. unfold buffered, push_pending. cbn. by rewrite lookup_insert_eq. Qed.
Lemma buffered_take m m' l : take_pending Subscriber m = (m', l) -> buffered m' = [] /\ l = buffered m.
Proof. intros [= <- <-]. unfold buffered. cbn. by rewrite lookup_delete_eq. Qed.

(** Where the candidates are. *)
Definition everywhere (s : Cand) : list string :=
  cd_delivered s ++ (cd_reading s).*1 ++ in_hand (cd_setup s) ++ buffered (cd_media s).

Lemma step_conserves s s' : cand_step s s' -> cd_arrived s ≡ₚ everywhere s -> cd_arrived s' ≡ₚ everywhere s'.
Proof.
  unfold everywhere. intros Hs Ha. destruct Hs as
    [m st rd dl ar init|m st a b dl ar init|m st a b dl ar init pc|m m' pending rd dl ar Hn Ht
    |m pending rd dl ar pc reliable lossy|m pc init pending rd dl ar|m pc rd dl ar];
    cbn in *; rewrite ?fmap_app in *; cbn [fmap list_fmap fst] in *; try exact Ha.
  - rewrite Ha. solve_Permutation.
  - rewrite Ha, buffered_push. solve_Permutation.
  - rewrite Ha. solve_Permutation.
  - destruct (buffered_take _ _ _ Ht) as [-> ->]. rewrite Ha. by rewrite app_nil_r.
  - rewrite Ha. solve_Permutation.
Qed.

Lemma step_buffer s s' :
  cand_step s s' -> installed (cd_setup s) = true ->
  installed (cd_setup s') = true /\ exists extra, buffered (cd_media s') = buffered (cd_media s) ++ extra.
Proof.
  intros [] Hi; cbn in *; try done; (split; [done|]);
    first [exists []; by rewrite app_nil_r | exists [init]; apply buffered_push].
Qed.

Lemma buffer_grows s s' :
  rtc cand_step s s' -> installed (cd_setup s) = true ->
  exists extra, buffered (cd_media s') = buffered (cd_media s) ++ extra.
Proof.
  induction 1 as [|x y z H _ IH]; intros Hi; [exists []; by rewrite app_nil_r|].
  destruct (step_buffer x y H Hi) as [Hy [e1 E1]]. destruct (IH Hy) as [e2 E2]. exists (e1 ++ e2).
  by rewrite E2, E1, app_assoc.
Qed.

(** Early candidates.  However candidates, the creation of the connection and the hand-over
    of buffered candidates interleave, every candidate that arrived is in exactly one place:
    handed to the connection, about to be, or in the buffer.  But once the connection is
    installed the buffer is never read again: it only grows, so a candidate that got there in
    between (or looked the connection up just before) is stranded. *)
Theorem early_candidates_conserved s :
  reach cand_step start s ->
  cd_arrived s ≡ₚ everywhere s /\
  (installed (cd_setup s) = true -> forall s', rtc cand_step s s' ->
     exists extra, buffered (cd_media s') = buffered (cd_media s) ++ extra).
Proof.
  intros Hr. split.
  - revert s Hr. apply reach_invariant; [done|]. intros a b Ha Hs. by eapply step_conserves.
  - intros Hi s' Hs. by apply buffer_grows.
Qed.

(** A candidate that arrives while the connection is created is never handed over. *)
Definition stranded : Cand :=
  mkCand (set_pm_subscriber (Some 100%nat) (Some 101%nat) (Some 102%nat)
            (push_pending Subscriber "c" (take_pending Subscriber ParticipantMedia_default).1))
    SDone [] [] ["c"].
Lemma stranded_reachable : reach cand_step start stranded.
Proof.
  eapply reach_step; [eapply reach_step; [eapply reach_step; [eapply reach_step; [eapply reach_step; [apply reach_init|]|]|]|]|].
  - apply (c_take _ (take_pending Subscriber ParticipantMedia_default).1 []); reflexivity.
  - apply (c_read _ _ [] _ _ "c").
  - apply (c_buffer _ _ [] []).
  - apply (c_install _ _ _ _ _ 100%nat 101%nat 102%nat).
  - apply c_done.
Qed.

Theorem candidate_stranded :
  reach cand_step start stranded /\ cd_arrived stranded = ["c"] /\ cd_delivered stranded = [] /\
  forall s', rtc cand_step stranded s' -> exists extra, buffered (cd_media s') = ["c"] ++ extra.
Proof.
  split_and!; [exact stranded_reachable|done|done|].
  intros s' Hs. by apply (buffer_grows _ _ Hs).
Qed.

Lemma early_candidates_conserved_witness :
  cd_arrived stranded ≡ₚ everywhere stranded.
Proof. apply (early_candidates_conserved stranded stranded_reachable). Defined.

End EarlyCandidates.
