(* ===== verification/Ice.v ===== *)
(** The TURN server as clients are told about it ([crates/lk-server/src/turn.rs]): the address
    it is advertised under, its start, and the [ice_servers] of a join response with credentials
    the server accepts. *)
From Stdlib Require Import ZArith Lia Ascii String.
From stdpp Require Import base gmap strings list option.
From S2P Require Import Prelude RustStr Core Turn Config IpAddr Proto.

Open Scope string_scope.
Open Scope list_scope.
Open Scope Z_scope.

(** * Addresses of the standard library *)

(** [Ipv4Addr::is_private] and [is_loopback]. *)
Definition v4_is_private (o : list Z) : bool :=
  match o with
  | a :: b :: _ => (a =? 10) || ((a =? 172) && (16 <=? b) && (b <=? 31)) || ((a =? 192) && (b =? 168))
  | _ => false
  end.
Definition v4_is_loopback (o : list Z) : bool := match o with a :: _ => a =? 127 | [] => false end.
Definition v6_is_loopback (g : list Z) : bool := bool_decide (g = [0; 0; 0; 0; 0; 0; 0; 1]).

(** Lower-case hexadecimal without leading zeros, of a number below 2^16. *)
Definition hex_digit (n : Z) : ascii := ascii_of_N (Z.to_N (if n <? 10 then 48 + n else 87 + n)).
Definition fmt_hex (n : Z) : string :=
  let d k := hex_digit (Z.land (Z.shiftr n (4 * k)) 15) in
  let s := [d 3; d 2; d 1; d 0] in
  string_of_list_ascii
    (if n <? 16 then drop 3 s else if n <? 256 then drop 2 s else if n <? 4096 then drop 1 s else s).

Fixpoint fmt_groups (g : list Z) : string :=
  match g with
  | [] => ""
  | [x] => fmt_hex x
  | x :: g => fmt_hex x +:+ ":" +:+ fmt_groups g
  end.

(** The first longest run of zero groups: its start and length. *)
Fixpoint zero_runs (i : Z) (cur best : Z * Z) (g : list Z) : Z * Z :=
  match g with
  | [] => best
  | x :: g =>
      if x =? 0
      then let cur := if cur.2 =? 0 then (i, 1) else (cur.1, cur.2 + 1) in
           zero_runs (i + 1) cur (if best.2 <? cur.2 then cur else best) g
      else zero_runs (i + 1) (0, 0) best g
  end.

Definition fmt_v4 (o : list Z) : string :=
  match o with
  | [a; b; c; d] => fmt_dec a +:+ "." +:+ fmt_dec b +:+ "." +:+ fmt_dec c +:+ "." +:+ fmt_dec d
  | _ => ""
  end.
(** [Display] of an address: mapped IPv4 addresses keep their dotted form. *)
Definition fmt_v6 (g : list Z) : string :=
  match g with
  | [0; 0; 0; 0; 0; 65535; hi; lo] =>
      "::ffff:" +:+ fmt_v4 [Z.shiftr hi 8; Z.land hi 255; Z.shiftr lo 8; Z.land lo 255]
  | _ =>
      let '(start, len) := zero_runs 0 (0, 0) (0, 0) g in
      if 1 <? len
      then fmt_groups (take (Z.to_nat start) g) +:+ "::" +:+ fmt_groups (drop (Z.to_nat (start + len)) g)
      else fmt_groups g
  end.
Definition fmt_ip (ip : IpAddr) : string := match ip with V4 o => fmt_v4 o | V6 g => fmt_v6 g end.

Example fmt_ip_1 : fmt_ip (V6 [8193; 3512; 0; 0; 1; 0; 0; 1]) = "2001:db8::1:0:0:1". Proof. reflexivity. Qed.
Example fmt_ip_2 : fmt_ip (V6 [0; 0; 0; 0; 0; 0; 0; 0]) = "::". Proof. reflexivity. Qed.
Example fmt_ip_3 : fmt_ip (V6 [8193; 0; 1; 2; 3; 4; 5; 6]) = "2001:0:1:2:3:4:5:6". Proof. reflexivity. Qed.

(** * The advertised address *)

(** [IsPrivate for IpAddr]. *)
Definition is_private (ip : IpAddr) : bool :=
  match ip with
  | V4 o => v4_is_private o || v4_is_loopback o
  | V6 g => v6_is_loopback g || (Z.land (default 0 (head g)) 65024 =? 64512)
  end.

(** [ip_from]: an address, or the address part of a network. *)
Definition ip_from (s : string) : option IpAddr :=
  match parse_ip s with
  | Some ip => Some ip
  | None => '(ip, _) ← split_once "/" s; parse_ip ip
  end.

Definition LOCALHOST : IpAddr := V4 [127; 0; 0; 1].

Definition external_ip (config : Config) : IpAddr :=
  let node_ip := rtc_node_ip (cf_rtc config) in
  match (if (node_ip =? "")%string then None else parse_ip node_ip) with
  | Some ip => ip
  | None =>
      let includes := ip_includes (rtc_ips (cf_rtc config)) in
      match head (filter (fun ip => is_private ip = false) (omap ip_from includes)) with
      | Some ip => ip
      | None => default LOCALHOST (head (omap ip_from includes))
      end
  end.

(** * Starting the server *)

(** What the server is started with. *)
Record TurnServer := mkTurnServer { tv_bind : string; tv_relay : IpAddr; tv_realm : string; tv_keys : gmap string string }.

Definition TURN_REALM : string := "livekit".

(** [start_turn_server]; [bind] and [start] are what the socket and the TURN library answer. *)
Definition start_turn_server (bind : string -> Result string unit) (start : TurnServer -> Result string unit)
  (config : Config) (keys : gmap string string) : Result string (option TurnServer) :=
  let turn := cf_turn config in
  if negb (tn_enabled turn) then Ok None
  else if tn_udp_port turn =? 0 then Err "turn.udp_port must be set when turn is enabled"
  else
    let port := fmt_dec (tn_udp_port turn) in
    _ ← map_err (fun e => "bind turn udp " +:+ port +:+ ": " +:+ e) (bind ("0.0.0.0:" +:+ port));
    let server := mkTurnServer ("0.0.0.0:" +:+ port) (external_ip config) TURN_REALM keys in
    _ ← map_err (fun e => "start turn server: " +:+ e) (start server);
    Ok (Some server).

(** * What clients are told *)

(** The first entry of a [BTreeMap]: the least key in byte order. *)
Definition lesser (a b : string * string) : string * string :=
  match String.compare a.1 b.1 with Gt => b | _ => a end.
Definition first_entry (keys : gmap string string) : option (string * string) :=
  match map_to_list keys with
  | [] => None
  | e :: es => Some (foldl lesser e es)
  end.

Definition turn_host (config : Config) : string :=
  if (tn_domain (cf_turn config) =? "")%string then fmt_ip (external_ip config) else tn_domain (cf_turn config).

Section IceServers.
Context (sha256 : list Z -> list Z).

(** [unix_seconds() + ttl.max(1) as i64], where [ttl] is unsigned; [now] is the clock reading. *)
Definition ice_expiry (now ttl : Z) : Z := now + wrap_s 64 (Z.max ttl 1).

(** [ice_servers]; [None] is a panic of the codec or an overflow of the expiry. *)
Definition ice_servers (now : Z) (config : Config) (keys : gmap string string) (participant_id : string)
  : option (list IceServer) :=
  let turn := cf_turn config in
  if negb (tn_enabled turn) || (tn_udp_port turn =? 0) then Some []
  else match first_entry keys with
       | None => Some []
       | Some (api_key, secret) =>
           let expiry := ice_expiry now (tn_ttl turn) in
           if negb (in_i64 expiry) then None
           else
             username ← turn_username api_key participant_id expiry;
             password ← turn_password sha256 secret participant_id expiry;
             let url := "turn:" +:+ turn_host config +:+ ":" +:+ fmt_dec (tn_udp_port turn) +:+ "?transport=udp" in
             Some [mkIceServer [url] username password]
       end.
End IceServers.

(** * The advertised address is the best one there is *)

Lemma external_ip_includes config : rtc_node_ip (cf_rtc config) = "" ->
  let ips := omap ip_from (ip_includes (rtc_ips (cf_rtc config))) in
  (Exists (fun ip => is_private ip = false) ips -> is_private (external_ip config) = false) /\
  (ips <> [] -> external_ip config ∈ ips) /\ (ips = [] -> external_ip config = LOCALHOST).
Proof.
  intros Hn ips. unfold external_ip. rewrite Hn. cbn [String.eqb]. fold ips.
  destruct (filter (fun ip => is_private ip = false) ips) as [|ip l] eqn:Ef; cbn [head default].
  - split_and!.
    + intros (ip & Hi & Hp)%list.Exists_exists. assert (ip ∈ filter (fun ip => is_private ip = false) ips) as H
        by (by apply list_elem_of_filter). rewrite Ef in H. by apply elem_of_nil in H.
    + destruct ips as [|ip l]; [done|]. intros _. by left.
    + by intros ->.
  - assert (ip ∈ filter (fun ip => is_private ip = false) ips) as H by (rewrite Ef; left).
    apply list_elem_of_filter in H as [Hp Hi]. split_and!; [done..|]. intros E. rewrite E in Hi. by apply elem_of_nil in Hi.
Qed.

(** ** IPv4 addresses print as they parse *)

Lemma octet_dot s : Forall (fun n => read_octet (fmt_dec n +:+ String "." s) = Some (n, String "." s)) (seqZ 0 256).
Proof. let l := eval vm_compute in (seqZ 0 256) in change (seqZ 0 256) with l. repeat (constructor; [reflexivity|]). constructor. Qed.
Lemma octet_end : Forall (fun n => read_octet (fmt_dec n) = Some (n, "")) (seqZ 0 256).
Proof. let l := eval vm_compute in (seqZ 0 256) in change (seqZ 0 256) with l. repeat (constructor; [reflexivity|]). constructor. Qed.

Definition is_octet (n : Z) : Prop := 0 <= n < 256.

Lemma v4_roundtrip a b c d : is_octet a -> is_octet b -> is_octet c -> is_octet d ->
  parse_ip (fmt_ip (V4 [a; b; c; d])) = Some (V4 [a; b; c; d]).
Proof.
  intros Ha Hb Hc Hd. unfold parse_ip, read_ip_addr, fmt_ip, fmt_v4.
  assert (forall n s, is_octet n -> read_octet (fmt_dec n +:+ "." +:+ s) = Some (n, "." +:+ s)) as Dot.
  { intros n s Hn. pose proof (octet_dot s) as H. rewrite list.Forall_forall in H. apply H, elem_of_seqZ. unfold is_octet in Hn. lia. }
  assert (read_octet (fmt_dec d) = Some (d, "")) as End.
  { pose proof octet_end as H. rewrite list.Forall_forall in H. apply H, elem_of_seqZ. unfold is_octet in Hd. lia. }
  unfold read_ipv4_addr, read_separator.
  assert (forall s, read_given_char "." ("." +:+ s) = Some ((), s)) as Sep by done.
  rewrite Dot by done. cbn [mbind option_bind]. do 2 (rewrite Sep; cbn [mbind option_bind]; rewrite Dot by done; cbn [mbind option_bind]).
  rewrite Sep. cbn [mbind option_bind]. rewrite End. reflexivity.
Qed.

(** * Credentials *)

Lemma lesser_in e l : foldl lesser e l ∈ e :: l.
Proof.
  revert e. induction l as [|x l IH]; intros e; cbn [foldl]; [by left|].
  specialize (IH (lesser e x)). apply elem_of_cons in IH as [->|H]; [|by do 2 right].
  unfold lesser. destruct (String.compare e.1 x.1); [by left..|by right; left].
Qed.
Lemma first_entry_in keys k s : first_entry keys = Some (k, s) -> keys !! k = Some s.
Proof.
  unfold first_entry. destruct (map_to_list keys) as [|e es] eqn:E; [done|]. intros [= H].
  pose proof (lesser_in e es) as Hi. rewrite H, <- E in Hi. by apply elem_of_map_to_list in Hi.
Qed.
Lemma first_entry_some keys : keys <> ∅ -> is_Some (first_entry keys).
Proof.
  intros Hk. unfold first_entry. destruct (map_to_list keys) as [|e es] eqn:E; [|eauto].
  by apply map_to_list_empty_iff in E.
Qed.

Section Accepted.
Context (sha256 : list Z -> list Z) (generate_auth_key : string -> string -> string -> list Z).
Context (sha256_bytes : forall m, Forall is_byte (sha256 m)).

(** The TURN server accepts the credentials of a join response.  When the TURN server of a
    configuration starts, a participant who joins later is told of exactly one ICE server, at the
    configured port and under the configured domain or else the relay address, and the handler of
    that server accepts the advertised username and derives its key from the advertised password;
    keys and participant ids are free of the separator, and the clock and the lifetime are in
    range. *)
Theorem ice_credentials_accepted bind start config keys server now pid :
  start_turn_server bind start config keys = Ok (Some server) -> keys <> ∅ ->
  map_Forall (fun k _ => free_of "|" k /\ utf8_valid (as_bytes k) = true) keys ->
  free_of "|" pid -> utf8_valid (as_bytes pid) = true ->
  0 <= now < 2 ^ 62 -> 0 <= tn_ttl (cf_turn config) < 2 ^ 62 ->
  exists username password,
    ice_servers sha256 now config keys pid =
      Some [mkIceServer ["turn:" +:+ turn_host config +:+ ":" +:+ fmt_dec (tn_udp_port (cf_turn config)) +:+ "?transport=udp"]
              username password] /\
    auth_handle sha256 generate_auth_key (tv_keys server) username (tv_realm server)
      = Ok (generate_auth_key username (tv_realm server) password) /\
    (tn_domain (cf_turn config) = "" -> turn_host config = fmt_ip (tv_relay server)).
Proof.
  intros Hs Hk Hkeys Hp Up Hn Ht. unfold start_turn_server in Hs. cbv zeta in Hs. unfold ice_servers. cbv zeta.
  destruct (tn_enabled (cf_turn config)); [|done]. destruct (tn_udp_port (cf_turn config) =? 0); [done|].
  cbn [negb orb] in *. destruct (bind _); [|done]. cbn in Hs. destruct (start _); [|done]. injection Hs as <-.
  destruct (first_entry_some keys Hk) as [[k s] Ef]. rewrite Ef. pose proof (first_entry_in _ _ _ Ef) as Hks.
  destruct (Hkeys k s Hks) as [Hkf Hku].
  set (expiry := ice_expiry now _).
  assert (0 < expiry < 2 ^ 63) as He.
  { unfold expiry, ice_expiry. rewrite wrap_s_small; lia. }
  assert (in_i64 expiry = true) as Hi by (unfold in_i64, i64_min, i64_max; lia).
  rewrite Hi. cbn [negb].
  destruct (turn_credentials_authenticate sha256 generate_auth_key sha256_bytes keys k s pid expiry TURN_REALM) as (u & pw & E1 & E2 & E3);
    [done..|lia|].
  rewrite E1, E2. cbn [mbind option_bind]. exists u, pw. split_and!; [done|exact E3|].
  intros Hd. unfold turn_host. rewrite Hd. done.
Qed.
End Accepted.

(** * Examples *)

Module IceDemo.
Definition with_turn (turn : TurnConfig) (c : Config) : Config :=
  mkConfig (cf_port c) (cf_bind_addresses c) (cf_rtc c) (cf_redis c) (cf_keys c) (cf_logging c) (cf_room c) (cf_webhook c)
    (cf_prometheus_port c) (cf_prometheus c) turn (cf_agents c) (cf_limit c) (cf_region c) (cf_node_id c) (cf_dev c)
    (cf_signal_relay c) (cf_psrpc c) (cf_log_level c).
Definition config (node_ip : string) : Config :=
  set_rtc 0 0 node_ip (with_turn (mkTurnCfg true "" 3478 0 "" "" 300 false) Config_default).
Definition keys : gmap string string := {["APIkey" := "secret"]}.
Definition started := start_turn_server (fun _ => Ok ()) (fun _ => Ok ()) (config "216.48.182.132") keys.
Definition server : TurnServer := mkTurnServer "0.0.0.0:3478" (V4 [216; 48; 182; 132]) "livekit" keys.
End IceDemo.

Lemma ice_credentials_accepted_witness : exists username password,
  ice_servers toy_digest 1700000000 (IceDemo.config "216.48.182.132") IceDemo.keys "PA_1"
    = Some [mkIceServer ["turn:216.48.182.132:3478?transport=udp"] username password] /\
  auth_handle toy_digest toy_auth_key IceDemo.keys username "livekit" = Ok (toy_auth_key username "livekit" password).
Proof.
  destruct (ice_credentials_accepted toy_digest toy_auth_key toy_digest_bytes (fun _ => Ok ()) (fun _ => Ok ())
    (IceDemo.config "216.48.182.132") IceDemo.keys IceDemo.server 1700000000 "PA_1") as (u & p & E1 & E2 & _).
  - vm_compute. reflexivity.
  - discriminate.
  - apply map_Forall_singleton. split; reflexivity.
  - reflexivity.
  - reflexivity.
  - lia.
  - vm_compute. split; [discriminate|reflexivity].
  - exists u, p. split; [exact E1|exact E2].
Defined.

(** An IPv6 relay address is put into the URL without brackets: its last group reads as part of
    the port. *)
Example ice_url_unbracketed :
  option_map (map ice_urls) (ice_servers toy_digest 1700000000 (IceDemo.config "2001:db8::1") IceDemo.keys "PA_1")
  = Some [["turn:2001:db8::1:3478?transport=udp"]].
Proof. vm_compute. reflexivity. Qed.
