(* ===== verification/Transport.v ===== *)
(** The signaling transport of a session ([crates/lk-server/src/signal.rs]): the two halves of a
    websocket with the state they share, and the task that writes responses while the rest of
    the server queues them. *)
From Stdlib Require Import ZArith Lia Ascii String.
From stdpp Require Import base gmap strings list option relations.
From S2P Require Import Prelude RustStr Signal.

Open Scope string_scope.
Open Scope list_scope.
Open Scope Z_scope.

(** * Websocket frames *)

(** [axum::extract::ws::Message]; the payload of control frames is never read. *)
Inductive WsMessage :=
| MText (text : string)
| MBinary (bytes : list Z)
| MPing
| MPong
| MClose (code : option Z).

(** What waiting for the next frame gives: a frame, an error of the connection, its end, or
    nothing for [PING_TIMEOUT_SECS]. *)
Inductive ReadEvent := RdFrame (m : WsMessage) | RdError | RdEnd | RdTimeout.

(** What the halves share: whether the client speaks JSON, and the code to close with. *)
Record WsShared := mkShared { ws_mode : bool; ws_close_code : Z }.

(** [ws_io]. *)
Definition ws_io : WsShared := mkShared false 1000.

Section Codec.
(** Requests and responses with their binary and JSON forms. *)
Context {Req Resp : Type}.
Context (encode_to_vec : Resp -> list Z) (to_json : Resp -> option string).
Context (decode : list Z -> option Req) (from_json : string -> option Req).

Definition ws_encode (resp : Resp) (json : bool) : WsMessage :=
  if json then match to_json resp with Some text => MText text | None => MBinary (encode_to_vec resp) end
  else MBinary (encode_to_vec resp).

Definition ws_decode (msg : WsMessage) (json : bool) : option Req * bool :=
  match msg with
  | MBinary bytes => (decode bytes, false)
  | MText text => (from_json text, true)
  | _ => (None, json)
  end.

(** ** The reading half *)

(** [WsIoReader::next_request]: the request or the end of the session, the events left, and the
    shared state; a socket with nothing more to offer runs into the deadline. *)
Fixpoint next_request (max_frame_size : Z) (events : list ReadEvent) (s : WsShared)
  : option Req * list ReadEvent * WsShared :=
  match events with
  | RdFrame (MBinary bytes) :: rest =>
      let s := mkShared false (ws_close_code s) in
      if max_frame_size <? Z.of_nat (length bytes) then (None, rest, mkShared (ws_mode s) 1009)
      else (decode bytes, rest, s)
  | RdFrame (MText text) :: rest =>
      let s := mkShared true (ws_close_code s) in
      if max_frame_size <? Z.of_nat (String.length text) then (None, rest, mkShared (ws_mode s) 1009)
      else (from_json text, rest, s)
  | RdFrame (MClose _) :: rest => (None, rest, s)
  | RdFrame MPing :: rest | RdFrame MPong :: rest => next_request max_frame_size rest s
  | RdError :: rest | RdEnd :: rest | RdTimeout :: rest => (None, rest, s)
  | [] => (None, [], s)
  end.

(** All requests a session reads, until [next_request] ends it; every turn takes an event. *)
Fixpoint read_session (fuel : nat) (max_frame_size : Z) (events : list ReadEvent) (s : WsShared) : list Req * WsShared :=
  match fuel with
  | O => ([], s)
  | S fuel =>
      match next_request max_frame_size events s with
      | (Some req, rest, s) => let '(reqs, s) := read_session fuel max_frame_size rest s in (req :: reqs, s)
      | (None, _, s) => ([], s)
      end
  end.

(** ** The writing half *)

(** [WsIoWriter::send]: the frame put on the socket. *)
Definition ws_send (resp : Resp) (s : WsShared) : WsMessage := ws_encode resp (ws_mode s).
(** [WsIoWriter::close]. *)
Definition ws_close (s : WsShared) : WsMessage := MClose (Some (ws_close_code s)).

(** ** What a client gets for what it sends *)

(** What a client does: a request in one of the two forms, or a control frame. *)
Inductive ClientAct := CRequest (req : Req) (json : bool) | CPing | CPong.

Context (client_bin : Req -> list Z) (client_json : Req -> string).
(** The client's encoders are what the decoders read. *)
Context (decode_law : forall r, decode (client_bin r) = Some r) (json_law : forall r, from_json (client_json r) = Some r).

Definition client_frame (a : ClientAct) : WsMessage :=
  match a with
  | CRequest r true => MText (client_json r)
  | CRequest r false => MBinary (client_bin r)
  | CPing => MPing
  | CPong => MPong
  end.
Definition frame_size (m : WsMessage) : Z :=
  match m with MText t => Z.of_nat (String.length t) | MBinary b => Z.of_nat (length b) | _ => 0 end.
Definition act_request (a : ClientAct) : option Req := match a with CRequest r _ => Some r | _ => None end.
Definition act_form (json : bool) (a : ClientAct) : bool := match a with CRequest _ j => j | _ => json end.
Definition client_events (acts : list ClientAct) : list ReadEvent := RdFrame ∘ client_frame <$> acts.

Lemma read_request_frame max r json rest s :
  frame_size (client_frame (CRequest r json)) <= max ->
  next_request max (RdFrame (client_frame (CRequest r json)) :: rest) s = (Some r, rest, mkShared json (ws_close_code s)).
Proof.
  destruct json; cbn [client_frame frame_size]; intros H; cbn [next_request].
  - rewrite (proj2 (Z.ltb_ge _ _) H). by rewrite json_law.
  - rewrite (proj2 (Z.ltb_ge _ _) H). by rewrite decode_law.
Qed.

Lemma read_session_ctl fuel max e rest s :
  e = RdFrame MPing \/ e = RdFrame MPong -> read_session fuel max (e :: rest) s = read_session fuel max rest s.
Proof. destruct fuel; [done|]. by intros [->| ->]. Qed.

Lemma read_session_acts max acts tail : forall fuel s,
  (length acts <= fuel)%nat -> Forall (fun a => frame_size (client_frame a) <= max) acts ->
  exists fuel', (fuel <= fuel' + length acts)%nat /\ (fuel' <= fuel)%nat /\
  read_session fuel max (client_events acts ++ tail) s =
    let '(reqs, s') := read_session fuel' max tail (mkShared (foldl act_form (ws_mode s) acts) (ws_close_code s)) in
    (omap act_request acts ++ reqs, s').
Proof.
  induction acts as [|a acts IH]; intros fuel s Hf Hs.
  - exists fuel. split; [cbn [length]; lia|]. split; [lia|]. cbn. destruct s. by destruct (read_session _ _ _ _).
  - apply list.Forall_cons in Hs as [Ha Hs]. cbn [length] in Hf. unfold client_events. cbn [fmap list_fmap app compose].
    fold (client_events acts). destruct a as [r json| |].
    + destruct fuel as [|fuel]; [lia|]. cbn [read_session]. rewrite read_request_frame by done.
      destruct (IH fuel (mkShared json (ws_close_code s))) as (f' & F1 & F2 & E); [lia|done|].
      exists f'. split; [cbn [length]; lia|]. split; [lia|]. rewrite E. cbn [foldl act_form ws_mode ws_close_code omap list_omap act_request].
      destruct (read_session f' _ _ _); reflexivity.
    + rewrite read_session_ctl by auto. destruct (IH fuel s) as (f' & F1 & F2 & E); [lia|done|].
      exists f'. split; [cbn [length]; lia|]. split; [lia|]. rewrite E. done.
    + rewrite read_session_ctl by auto. destruct (IH fuel s) as (f' & F1 & F2 & E); [lia|done|].
      exists f'. split; [cbn [length]; lia|]. split; [lia|]. rewrite E. done.
Qed.

(** A client's requests arrive, and it is answered in its own form.  Whatever mixture of binary
    and JSON requests, pings and pongs a client sends within the size limit, the session reads
    exactly its requests in their order and ends with the client's close as a normal closure; what
    is written from then on has the form of the last request. *)
Theorem ws_session_reads max acts code :
  Forall (fun a => frame_size (client_frame a) <= max) acts ->
  let events := client_events acts ++ [RdFrame (MClose code)] in
  let '(reqs, s) := read_session (length events) max events ws_io in
  reqs = omap act_request acts /\ ws_close s = MClose (Some 1000) /\
  forall resp, ws_send resp s = ws_encode resp (foldl act_form false acts).
Proof.
  intros Hs events. unfold events.
  destruct (read_session_acts max acts [RdFrame (MClose code)] (length events) ws_io) as (f' & F1 & F2 & E); [|done|].
  { unfold events, client_events. rewrite length_app, length_fmap. lia. }
  unfold events in *. rewrite E. destruct f' as [|f']; cbn [read_session next_request].
  - rewrite length_app in F1. unfold client_events in F1. rewrite length_fmap in F1. cbn in F1. lia.
  - rewrite app_nil_r. done.
Qed.

(** A session ends at the first frame that is too large or does not decode: nothing after it is
    read; only the size shows in the close code. *)
Theorem bad_frame_ends_session max acts bad rest :
  Forall (fun a => frame_size (client_frame a) <= max) acts ->
  (max < frame_size bad \/ exists m, (ws_decode bad m).1 = None) -> (exists b, bad = MBinary b) \/ (exists t, bad = MText t) ->
  let events := client_events acts ++ RdFrame bad :: rest in
  let '(reqs, s) := read_session (length events) max events ws_io in
  reqs = omap act_request acts /\
  ws_close s = MClose (Some (if max <? frame_size bad then 1009 else 1000)).
Proof.
  intros Hs Hbad Hk events. unfold events.
  destruct (read_session_acts max acts (RdFrame bad :: rest) (length events) ws_io) as (f' & F1 & F2 & E); [|done|].
  { unfold events, client_events. rewrite length_app, length_fmap. lia. }
  unfold events in *. rewrite E. destruct f' as [|f'].
  { rewrite length_app in F1. unfold client_events in F1. rewrite length_fmap in F1. cbn in F1. lia. }
  cbn [read_session]. destruct Hk as [[b ->]|[t ->]]; cbn [next_request frame_size] in *.
  - destruct (Z.ltb_spec max (Z.of_nat (length b))); [by rewrite app_nil_r|].
    destruct Hbad as [?|[m Hm]]; [lia|]. cbn in Hm. rewrite Hm. by rewrite app_nil_r.
  - destruct (Z.ltb_spec max (Z.of_nat (String.length t))); [by rewrite app_nil_r|].
    destruct Hbad as [?|[m Hm]]; [lia|]. cbn in Hm. rewrite Hm. by rewrite app_nil_r.
Qed.
End Codec.
