(* ===== verification/Session.v ===== *)
(** Whole signaling sessions ([crates/lk-server/src/signal.rs]): the first responses of a session,
    its requests at the level of rooms and media together, the subscription to what is already
    published, the end with the grace period, and the order in which the client sees what the
    server queues for it. *)
From Stdlib Require Import ZArith Lia Ascii String.
From stdpp Require Import base gmap strings list option relations.
From S2P Require Import Prelude RustStr Core Track Auth Config Proto Participant Room Signal RoomService Turn Ice F64 Metrics Rtp Media.

Open Scope string_scope.
Open Scope list_scope.
Open Scope Z_scope.

(** * The first responses *)

(** What a session reads of [Server]. *)
Record ServerConf := mkServerConf { sc_config : Config; sc_node_id : string }.

(** [server_info]; the edition is the standard one. *)
Definition server_info (s : ServerConf) : ServerInfo :=
  mkServerInfo SERVER_VERSION PROTOCOL_VERSION (cf_region (sc_config s)) (sc_node_id s) AGENT_PROTOCOL.

Section Responses.
Context (sha256 : list Z -> list Z).

(** [unix_seconds()]. *)
Definition seconds (w : World) : Z := Z.quot (w_now w) 1000000.

Definition session_ice (s : ServerConf) (sid : string) (w : World) : option (list IceServer) :=
  ice_servers sha256 (seconds w) (sc_config s) (cf_keys (sc_config s)) sid.

Definition build_reconnect_response (s : ServerConf) (sid : string) (w : World) : option ReconnectResponse :=
  ice ← session_ice s sid w; Some (mkReconnect ice (server_info s) 0).

(** The members a joining participant is told of. *)
Definition visible_to (w : World) (sid : string) (l : loc) : bool :=
  match w_parts w !! l with
  | Some p => negb (p_sid p =? sid)%string && negb (hidden (p_permission p))
  | None => false
  end.

(** [build_join_response]; [None] is a panic of the credential codec. *)
Definition build_join_response (s : ServerConf) (rl pl : loc) (w : World) : World * option JoinResponse :=
  match w_rooms w !! rl, w_parts w !! pl with
  | Some r, Some p =>
      let '(w, others) := infos_of (filter (fun l => visible_to w (p_sid p) l = true) (members r)) w in
      let room_proto := room_to_proto w r in
      match info_of pl w with
      | (w, Some info) =>
          (w, ice ← session_ice s (p_sid p) w;
              Some (mkJoinResponse room_proto info others SERVER_VERSION ice true (cf_region (sc_config s))
                      PING_TIMEOUT_SECS PING_INTERVAL_SECS (server_info s) (enabled_codec_mimes (sc_config s)) true))
      | (w, None) => (w, None)
      end
  | _, _ => (w, None)
  end.

(** [SignalPrelude]; the requests carry what the model draws for them. *)
Record SignalPrelude := mkPrelude {
  pre_join : SignalResponse;
  pre_post_join : list SignalResponse;
  pre_publisher_offer : option (SessionDescription * OfferDraws);
  pre_add_tracks : list (AddTrackRequest * loc * string);
  pre_sync_state : option (list SyncTrack);
  pre_launch_agents : list RoomAgentDispatch
}.

(** What a connection brings for its first requests. *)
Record FirstRequests := mkFirst {
  fq_offer : option (SessionDescription * OfferDraws); fq_add_tracks : list (AddTrackRequest * loc * string);
  fq_sync : option (list SyncTrack)
}.

(** The prelude of a resumed session. *)
Definition resume_prelude (s : ServerConf) (rl pl : loc) (w : World) : World * option SignalPrelude :=
  match w_rooms w !! rl, w_parts w !! pl with
  | Some r, Some p =>
      let '(w, updates) := infos_of (members r) w in
      (w, rr ← build_reconnect_response s (p_sid p) w;
          Some (mkPrelude (RReconnect rr) [RUpdate updates; RRoomUpdate (room_to_proto w r)] None [] None []))
  | _, _ => (w, None)
  end.

(** Where [run_session_with_io] goes: into a session (with whether it resumes), back with an
    error, or into a panic. *)
Inductive Entry :=
| Entered (rl pl : loc) (prelude : SignalPrelude) (resume : bool)
| Refused (e : string)
| Panicked.

Definition enter_session (limits : option (Z * Z * Z)) (s : ServerConf) (token : VerifiedToken) (params : SessionParams)
  (kind : ParticipantKind) (first : FirstRequests) (dr : Draws) (w : World) : World * Entry :=
  match (if sp_reconnect params then resume_room_participant token params w else (w, None)) with
  | (w, Some (rl, pl)) =>
      match resume_prelude s rl pl w with
      | (w, Some prelude) => (w, Entered rl pl prelude true)
      | (w, None) => (w, Panicked)
      end
  | (w, None) =>
      match join_room limits token params kind dr w with
      | (w, Err e) =>
          let room_name := vg_room (video token) in
          (match get_room room_name w with None => emit (EvReleaseRoom room_name) w | Some _ => w end, Refused e)
      | (w, Ok (rl, pl, launch_agents)) =>
          match build_join_response s rl pl w with
          | (w, Some jr) =>
              (w, Entered rl pl (mkPrelude (RJoin jr) [] (fq_offer first) (fq_add_tracks first) (fq_sync first) launch_agents) false)
          | (w, None) => (w, Panicked)
          end
      end
  end.
End Responses.

(** * Requests on rooms and media together *)

(** A request with the answers of the media plane. *)
Inductive MediaRequest :=
| MOffer (offer : SessionDescription) (d : OfferDraws)
| MAnswer (answer : SessionDescription) (remote : Result string unit)
| MTrickle (candidate : string) (target : Z) (parsed : option string) (outcome : Result string unit)
| MSignal (req : SignalRequest).

Definition offer_request (pl : loc) (offer : SessionDescription) (d : OfferDraws) (w : MWorld) : MWorld :=
  let w := set_mworld (upd_part pl (fun p => (set_state Joined p).1) (mw_world w)) w in
  match w_parts (mw_world w) !! pl with
  | Some p =>
      if negb (p_can_publish p) then w
      else match handle_publisher_offer pl offer d w with
           | (Ok answer, w) => set_mworld (send pl (RAnswer answer) (mw_world w)).1 w
           | (Err _, w) => w
           end
  | None => w
  end.

Definition session_request (ds : string -> string -> SubDraws) (pl : loc) (req : MediaRequest) (w : MWorld) : MWorld :=
  match req with
  | MOffer offer d => offer_request pl offer d w
  | MAnswer answer remote => (handle_subscriber_answer pl answer remote w).2
  | MTrickle candidate target parsed outcome => (add_ice_candidate pl candidate target parsed outcome w).2
  | MSignal req => run_signal ds (handle_participant_request pl req) w
  end.

(** * A session *)

(** The tracks of the other members, when the participant may subscribe: publisher and id. *)
Definition existing_tracks (w : World) (r : Room) (p : Participant) : list (loc * string) :=
  if p_can_subscribe p
  then mjoin ((fun l => match w_parts w !! l with
                        | Some q => if (p_sid q =? p_sid p)%string then []
                                    else omap (fun tl => (fun t => (l, t_sid t)) <$> w_tracks w !! tl) (map_to_list (p_tracks q)).*2
                        | None => []
                        end) <$> members r)
  else [].

Definition subscribe_existing (ds : string -> string -> SubDraws) (rl pl : loc) (setup : SetupDraws) (w : MWorld) : MWorld :=
  let w := (setup_subscriber pl setup w).2 in
  match w_rooms (mw_world w) !! rl, w_parts (mw_world w) !! pl with
  | Some r, Some p =>
      let w := foldl (fun w e => (add_subscription pl e.2 e.1 (ds (p_sid p) e.2) w).2) w (existing_tracks (mw_world w) r p) in
      request_subscriber_negotiation pl w
  | _, _ => w
  end.

(** The first requests of a session that does not resume. *)
Definition first_requests (prelude : SignalPrelude) : list MediaRequest :=
  ((fun a => MSignal (QAddTrack a.1.1 a.1.2 a.2)) <$> pre_add_tracks prelude) ++
  option_list ((fun o => MOffer o.1 o.2) <$> pre_publisher_offer prelude) ++
  option_list ((fun ts => MSignal (QSyncState ts)) <$> pre_sync_state prelude).

(** A session until its reader loop: the outbound channel [c], the first requests, the agents to
    launch, and the subscriptions. *)
Definition session_start (ds : string -> string -> SubDraws) (rl pl c : loc) (prelude : SignalPrelude) (resume : bool)
  (setup : SetupDraws) (w : MWorld) : MWorld * list RoomAgentDispatch :=
  let w := set_mworld (open_session pl c (mw_world w)) w in
  let w := upd_metrics (inc connection_total ["incoming"]) w in
  let w := if resume then w else foldl (fun w q => session_request ds pl q w) w (first_requests prelude) in
  let w := if resume then w else subscribe_existing ds rl pl setup w in
  (w, pre_launch_agents prelude).

(** The reader loop, on the requests the transport yields. *)
Fixpoint session_requests (ds : string -> string -> SubDraws) (pl : loc) (reqs : list MediaRequest) (w : MWorld) : MWorld :=
  match reqs with
  | [] => w
  | req :: rest =>
      let w := session_request ds pl req w in
      match w_parts (mw_world w) !! pl with
      | Some p => if bool_decide (state p = Disconnected) then w else session_requests ds pl rest w
      | None => w
      end
  end.

(** The end of the session: the generation of the grace task, if one is spawned. *)
Definition session_finish (pl : loc) (w : MWorld) : MWorld * option Z :=
  (upd_metrics (dec connection_total ["incoming"]) w, session_end pl (mw_world w)).

(** [run_signal_session]: the agents to launch and the grace task it leaves behind. *)
Definition run_signal_session (ds : string -> string -> SubDraws) (rl pl c : loc) (prelude : SignalPrelude) (resume : bool)
  (setup : SetupDraws) (reqs : list MediaRequest) (w : MWorld) : MWorld * list RoomAgentDispatch * option Z :=
  let '(w, launched) := session_start ds rl pl c prelude resume setup w in
  let '(w, grace) := session_finish pl (session_requests ds pl reqs w) in
  (w, launched, grace).

(** * Subscribing to what is already published *)

(** A track whose publisher has no forwarder for it yet is skipped. *)
Lemma add_subscription_missing sl tsid pl d w :
  has_context w sl = true -> setup_ok (ds_setup d) -> pm_forwarders (media_of w pl) !! tsid = None ->
  setup_frame w (add_subscription sl tsid pl d w).2.
Proof.
  intros Hc Hd Hf. destruct (setup_subscriber_ok sl (ds_setup d) w Hc Hd) as (w1 & E1 & F & _).
  unfold add_subscription. unfold media_bind at 1, require_context. rewrite Hc. unfold media_bind at 1. rewrite E1.
  unfold media_bind at 1, mget. destruct F as (F1 & F2 & F3 & F4 & F5).
  assert (pm_forwarders (media_of w1 pl) = pm_forwarders (media_of w pl)) as ->.
  { specialize (F5 pl). unfold pm_view in F5. congruence. }
  rewrite Hf. cbn. by split_and!.
Qed.

(** What stays while tracks are subscribed: the world, the tables of forwarders, and the
    subscriptions of everybody else. *)
Record subscribing (s : string) (w w' : MWorld) : Prop := {
  sg_world : mw_world w' = mw_world w;
  sg_tables : forall q, pm_forwarders (media_of w' q) = pm_forwarders (media_of w q);
  sg_others : forall fl s', s' <> s -> subscribers_at w' fl !! s' = subscribers_at w fl !! s';
  sg_kept : forall fl, is_Some (subscribers_at w fl !! s) -> is_Some (subscribers_at w' fl !! s);
  sg_alive : forall fl, is_Some (mw_forwarders w' !! fl) <-> is_Some (mw_forwarders w !! fl);
  sg_spawned : mw_spawned w `prefix_of` mw_spawned w'
}.
#[global] Instance subscribing_preorder s : PreOrder (subscribing s).
Proof.
  split; [split; done|]. intros a b c [A1 A2 A3 A4 A5 A6] [B1 B2 B3 B4 B5 B6]. split.
  - congruence.
  - intros q. by rewrite B2, A2.
  - intros fl s' Hs. by rewrite B3, A3.
  - auto.
  - intros fl. by rewrite B5, A5.
  - by etrans.
Qed.

Lemma setup_subscribing s w w' : setup_frame w w' -> subscribing s w w'.
Proof.
  intros (F1 & F2 & F3 & F4 & F5). split; unfold subscribers_at; rewrite ?F2, ?F4; try done.
  intros q. specialize (F5 q). unfold pm_view in F5. congruence.
Qed.

Lemma subscribed_subscribing w w' sl s tsid fl t sender : subscribed w w' sl s tsid fl t sender -> subscribing s w w'.
Proof.
  intros [S1 S2 S3 _ _ _ S7 _]. split; [done..| | | |by rewrite S7; apply prefix_app_r].
  - intros fl' s' Hs. unfold subscribers_at. rewrite S2. destruct (decide (fl' = fl)) as [->|].
    + rewrite lookup_alter_eq. destruct (mw_forwarders w !! fl); cbn; [by rewrite lookup_insert_ne|done].
    + by rewrite lookup_alter_ne.
  - intros fl'. unfold subscribers_at. rewrite S2. destruct (decide (fl' = fl)) as [->|].
    + rewrite lookup_alter_eq. destruct (mw_forwarders w !! fl); cbn; [rewrite lookup_insert_eq; eauto|done].
    + by rewrite lookup_alter_ne.
  - intros fl'. rewrite S2. destruct (decide (fl' = fl)) as [->|].
    + rewrite lookup_alter_eq. destruct (mw_forwarders w !! fl); cbn; naive_solver.
    + by rewrite lookup_alter_ne.
Qed.

Definition subscribe_one (ds : string -> string -> SubDraws) (pl : loc) (s : string) (w : MWorld) (e : loc * string) : MWorld :=
  (add_subscription pl e.2 e.1 (ds s e.2) w).2.

(** The subscription to a track with a forwarder is in place. *)
Definition receives (w : MWorld) (pl : loc) (s tsid : string) (fl t : loc) : Prop :=
  is_Some (subscribers_at w fl !! s) /\ pm_subscriber_tracks (media_of w pl) !! tsid = Some t.

Lemma subscribe_one_spec ds pl s w q tsid :
  has_context w pl = true -> (forall a b, sub_ok (ds a b)) -> sid_of (mw_world w) pl = Some s ->
  let w' := subscribe_one ds pl s w (q, tsid) in
  subscribing s w w' /\
  (forall fl, pm_forwarders (media_of w q) !! tsid = Some fl -> is_Some (mw_forwarders w !! fl) ->
     receives w' pl s tsid fl (ds_track (ds s tsid))) /\
  (forall tsid', pm_subscriber_tracks (media_of w pl) !! tsid' = Some (ds_track (ds s tsid')) ->
     pm_subscriber_tracks (media_of w' pl) !! tsid' = Some (ds_track (ds s tsid'))).
Proof.
  intros Hc Hd Hs w'. unfold w', subscribe_one. cbn [fst snd]. destruct (Hd s tsid) as [Hset Hsend].
  destruct (ds_sender (ds s tsid)) as [sender|] eqn:Er; [|done].
  destruct (pm_forwarders (media_of w q) !! tsid) as [fl|] eqn:Ef.
  - destruct (add_subscription_ok pl tsid q (ds s tsid) w fl s sender Hc Hset Hs Ef Er) as (w1 & E & Hsub). rewrite E. cbn [snd].
    split; [by eapply subscribed_subscribing|]. destruct Hsub as [_ S2 _ S4 _ _ _ _]. split.
    + intros ? [= <-] [f Hf]. split; [|by rewrite S4, lookup_insert_eq].
      unfold subscribers_at. rewrite S2, lookup_alter_eq, Hf. cbn. rewrite lookup_insert_eq. eauto.
    + intros tsid' H. rewrite S4. destruct (decide (tsid' = tsid)) as [->|]; [by rewrite lookup_insert_eq|by rewrite lookup_insert_ne].
  - pose proof (add_subscription_missing pl tsid q (ds s tsid) w Hc Hset Ef) as F. split; [by apply setup_subscribing|].
    split; [done|]. intros tsid'. destruct F as (_ & _ & _ & _ & F5). specialize (F5 pl). unfold pm_view in F5.
    injection F5 as _ -> _ _ _ _. done.
Qed.

Lemma subscribe_all_spec ds pl s es : forall w,
  has_context w pl = true -> (forall a b, sub_ok (ds a b)) -> sid_of (mw_world w) pl = Some s ->
  let w' := foldl (subscribe_one ds pl s) w es in
  subscribing s w w' /\
  (forall q tsid fl, (q, tsid) ∈ es -> pm_forwarders (media_of w q) !! tsid = Some fl -> is_Some (mw_forwarders w !! fl) ->
     receives w' pl s tsid fl (ds_track (ds s tsid))) /\
  (forall tsid', pm_subscriber_tracks (media_of w pl) !! tsid' = Some (ds_track (ds s tsid')) ->
     pm_subscriber_tracks (media_of w' pl) !! tsid' = Some (ds_track (ds s tsid'))).
Proof.
  induction es as [|[q tsid] es IH]; intros w Hc Hd Hs w'.
  - split_and!; [done| |done]. intros ? ? ? H. by apply elem_of_nil in H.
  - unfold w'. cbn [foldl]. destruct (subscribe_one_spec ds pl s w q tsid Hc Hd Hs) as (S1 & R1 & K1).
    set (w1 := subscribe_one ds pl s w (q, tsid)) in *. pose proof S1 as [G1 G2 _ _ G5 _].
    destruct (IH w1) as (S2 & R2 & K2); [unfold has_context; by rewrite G1|done|by rewrite G1|].
    split_and!; [by etrans| |auto].
    intros q' tsid' fl [[= -> ->]|He]%elem_of_cons Hf Ha.
    + destruct (R1 fl Hf Ha) as [A B]. split; [by apply (sg_kept _ _ _ S2)|by apply K2].
    + apply (R2 q'); [done|by rewrite G2|by rewrite G5].
Qed.


(** * The order in which a client sees what is queued for it *)

(** Channels only gain messages at the end; one whose receiver is gone gains none. *)
Definition chans_grow (w w' : World) : Prop := forall c ch, w_chans w !! c = Some ch ->
  exists l, w_chans w' !! c = Some (mkChan (c_queue ch ++ l) (c_open ch)) /\ (c_open ch = false -> l = []).

Lemma chans_grow_same w w' : w_chans w' = w_chans w -> chans_grow w w'.
Proof. intros E c [q o] H. exists []. rewrite E, H, app_nil_r. done. Qed.

#[global] Instance chans_grow_preorder : PreOrder chans_grow.
Proof.
  split; [intros w; by apply chans_grow_same|]. intros a b d H1 H2 c ch Hc.
  destruct (H1 c ch Hc) as (l1 & E1 & N1). destruct (H2 c _ E1) as (l2 & E2 & N2).
  exists (l1 ++ l2). rewrite E2. cbn [c_queue c_open] in *. rewrite app_assoc. split; [done|]. intros Ho.
  by rewrite N1, N2.
Qed.

Lemma push_grows c ch r w :
  w_chans w !! c = Some ch -> c_open ch = true ->
  chans_grow w (set_chans (<[c := mkChan (c_queue ch ++ [r]) (c_open ch)]> (w_chans w)) w).
Proof.
  intros Hc Ho c' [q' o'] H. cbn [w_chans set_chans]. destruct (decide (c' = c)) as [->|].
  - rewrite Hc in H. injection H as ->. exists [r]. rewrite lookup_insert_eq. split; [done|]. cbn in Ho |- *. congruence.
  - exists []. rewrite lookup_insert_ne, H, app_nil_r by done. done.
Qed.

Lemma send_grows pl r w : chans_grow w (send pl r w).1.
Proof.
  unfold send. destruct (w_parts w !! pl ≫= p_tx) as [c|]; [|done]. destruct (w_chans w !! c) as [ch|] eqn:E; [|done].
  destruct (c_open ch) eqn:Ho; [|done]. rewrite <- Ho. by apply push_grows.
Qed.
Lemma send_update_grows pl r w : chans_grow w (send_update pl r w).1.
Proof.
  unfold send_update. destruct (w_parts w !! pl ≫= p_tx) as [c|]; [|done]. destruct (w_chans w !! c) as [ch|] eqn:E; [|done].
  destruct (c_open ch) eqn:Ho; [|done]. cbn [andb]. case_match; [|done]. rewrite <- Ho. by apply push_grows.
Qed.
Lemma foldl_grows {A} (f : World -> A -> World) l : (forall w a, chans_grow w (f w a)) -> forall w, chans_grow w (foldl f w l).
Proof. intros Hf. induction l as [|a l IH]; intros w; cbn; [done|]. etrans; [apply Hf|apply IH]. Qed.
Lemma send_all_grows ls r w : chans_grow w (send_all ls r w).
Proof. apply foldl_grows. intros. apply send_update_grows. Qed.
Lemma broadcast_update_grows rl infos e w : chans_grow w (broadcast_participant_update rl infos e w).
Proof. unfold broadcast_participant_update. case_match; [apply send_all_grows|done]. Qed.
Lemma info_of_grows pl w : chans_grow w (info_of pl w).1.
Proof. apply chans_grow_same. unfold info_of. case_match; [|done]. by destruct (participant_to_proto _ _). Qed.

(** Peels one operation off the world on the right. *)
Ltac grow_step :=
  match goal with
  | |- chans_grow ?w ?w => reflexivity
  | H : chans_grow ?w ?x |- chans_grow ?w ?x => exact H
  | |- chans_grow _ (send _ _ _).1 => etrans; [|apply send_grows]
  | |- chans_grow _ (send_update _ _ _).1 => etrans; [|apply send_update_grows]
  | |- chans_grow _ (broadcast_participant_update _ _ _ _) => etrans; [|apply broadcast_update_grows]
  | |- chans_grow _ (foldl _ _ _) => etrans; [|apply foldl_grows; intros]
  | |- chans_grow _ (emit _ ?x) => transitivity x; [|by apply chans_grow_same]
  | |- chans_grow _ (upd_part _ _ ?x) => transitivity x; [|by apply chans_grow_same]
  | |- chans_grow _ (upd_room _ _ ?x) => transitivity x; [|by apply chans_grow_same]
  | |- chans_grow _ (set_parts _ ?x) => transitivity x; [|by apply chans_grow_same]
  | |- chans_grow _ (set_rooms _ ?x) => transitivity x; [|by apply chans_grow_same]
  | |- chans_grow _ (set_tracks _ ?x) => transitivity x; [|by apply chans_grow_same]
  | |- chans_grow _ (set_table _ ?x) => transitivity x; [|by apply chans_grow_same]
  | |- chans_grow _ (set_speakers _ ?x) => transitivity x; [|by apply chans_grow_same]
  | |- chans_grow _ (new_part _ _ ?x) => transitivity x; [|by apply chans_grow_same]
  | |- context [info_of ?pl ?w] =>
      let H := fresh "Hinfo" in
      pose proof (info_of_grows pl w) as H; destruct (info_of pl w) as [? [?|]]; cbn [fst] in H
  | H : chans_grow ?x ?y |- chans_grow ?w ?y => transitivity x; [|exact H]; clear H
  | |- chans_grow _ (match ?x with _ => _ end) => destruct x eqn:?
  | |- chans_grow _ (match ?x with _ => _ end).1 => destruct x eqn:?
  | |- chans_grow _ (if ?x then _ else _) => destruct x eqn:?
  | |- chans_grow _ (_, _).1 => cbn [fst]
  | |- chans_grow _ (let _ := _ in _) => cbv zeta
  end.
Ltac solve_grows := repeat grow_step; try by apply chans_grow_same.

Lemma remove_participant_grows rl sid w : chans_grow w (remove_participant rl sid w).1.
Proof. unfold remove_participant. cbv zeta. solve_grows. Qed.
Lemma on_participant_left_grows rl w : chans_grow w (on_participant_left rl w).
Proof. unfold on_participant_left. solve_grows. Qed.
Lemma end_participant_grows pl reason w : chans_grow w (end_participant pl reason w).
Proof.
  unfold end_participant. cbv zeta. repeat grow_step.
  all: etrans; [|apply on_participant_left_grows].
  all: repeat grow_step.
  all: etrans; [|apply remove_participant_grows]; repeat grow_step.
Qed.
Lemma on_track_published_grows pl tl w : chans_grow w (on_track_published pl tl w).
Proof. unfold on_track_published, subscribe_if_allowed. cbv zeta. solve_grows. Qed.
Lemma on_track_unpublished_grows pl sid w : chans_grow w (on_track_unpublished pl sid w).
Proof. unfold on_track_unpublished. cbv zeta. solve_grows. Qed.
Lemma handle_incoming_data_grows pl pk lossy w : chans_grow w (handle_incoming_data pl pk lossy w).
Proof. unfold handle_incoming_data, forward_data. cbv zeta. solve_grows. Qed.
Lemma close_signal_grows pl reason w : chans_grow w (close_signal pl reason w).
Proof. unfold close_signal. cbv zeta. solve_grows. Qed.
Lemma handle_request_grows pl req w : chans_grow w (handle_participant_request pl req w).
Proof.
  destruct req; cbn [handle_participant_request];
    unfold handle_offer, handle_add_track, send_request_response, set_track_muted, handle_update_subscriptions,
      apply_subscription, handle_update_metadata, handle_sync_state, sync_track, handle_leave; cbv zeta;
    try apply end_participant_grows; solve_grows.
Qed.
Lemma get_or_create_room_grows name rl sid limits w : chans_grow w (get_or_create_room name rl sid limits w).1.
Proof. unfold get_or_create_room. cbv zeta. solve_grows. Qed.
Lemma evict_duplicate_grows id rl w : chans_grow w (evict_duplicate id rl w).
Proof. unfold evict_duplicate. case_match; [|done]. etrans; [apply close_signal_grows|apply end_participant_grows]. Qed.
Lemma join_grows rl pl w : chans_grow w (join rl pl w).1.
Proof. unfold join, join_insert. cbv zeta. solve_grows. Qed.
Lemma announce_join_grows fj rl pl psid w : chans_grow w (announce_join fj rl pl psid w).
Proof. unfold announce_join. cbv zeta. solve_grows. Qed.
Lemma join_room_grows limits token params kind dr w : chans_grow w (join_room limits token params kind dr w).1.
Proof.
  unfold join_room. destruct (check_join token params) as [name|]; [|done].
  pose proof (get_or_create_room_grows name (dr_room dr) (dr_room_sid dr) limits w) as H1.
  destruct (get_or_create_room _ _ _ _ _) as [w1 rl]. cbn [fst] in H1. cbv zeta.
  pose proof (evict_duplicate_grows (tk_identity token) rl w1) as H2. set (w2 := evict_duplicate _ _ _) in *.
  assert (chans_grow w w2) as H by (by etrans). clear H1 H2.
  destruct (w_rooms w2 !! rl) as [r|]; [|exact H]. destruct (foldl add_dispatch _ _) as [r' new].
  set (w3 := set_rooms _ _). assert (chans_grow w w3) as H3 by (unfold w3; repeat grow_step). clearbody w3.
  pose proof (join_grows rl (dr_part dr) w3) as Hj. destruct (join rl (dr_part dr) w3) as [w4 [|]]; cbn [fst] in Hj |- *.
  - etrans; [|apply announce_join_grows]. by etrans.
  - by etrans.
Qed.
Lemma resume_grows token params w : chans_grow w (resume_room_participant token params w).1.
Proof. unfold resume_room_participant. solve_grows. Qed.
Lemma close_participant_grows reason info w pl : chans_grow w (close_participant reason info w pl).
Proof. unfold close_participant. cbv zeta. solve_grows. Qed.
Lemma close_grows rl reason w : chans_grow w (close rl reason w).
Proof.
  unfold close, on_room_closed, remove_room. cbv zeta. repeat grow_step; try apply close_participant_grows.
Qed.
Lemma check_room_timeouts_grows w : chans_grow w (check_room_timeouts w).
Proof. apply foldl_grows. intros w' rl. unfold check_room_timeout. repeat grow_step. apply close_grows. Qed.
Lemma broadcast_data_grows rl pk ds w : chans_grow w (broadcast_data rl pk ds w).
Proof. unfold broadcast_data. solve_grows. Qed.

(** Of everything that happens on the server, only a new session and a writer task treat a
    channel otherwise. *)
Lemma server_step_grows w w' : server_step w w' ->
  chans_grow w w' \/ (exists c keep, w' = drain c keep w) \/ (exists pl c, w' = open_session pl c w).
Proof.
  destruct 1; try (left; first [by apply chans_grow_same | apply join_room_grows | apply resume_grows | apply handle_request_grows
    | apply on_track_published_grows | apply on_track_unpublished_grows | apply handle_incoming_data_grows | apply close_signal_grows
    | apply end_participant_grows | apply get_or_create_room_grows | apply broadcast_data_grows | apply check_room_timeouts_grows]).
  - right. right. eauto.
  - right. left. eauto.
  - left. unfold on_media_disconnected. case_match; [apply end_participant_grows|done].
  - left. unfold grace_task. solve_grows. apply end_participant_grows.
  - left. unfold broadcast_room_update. case_match; [apply send_all_grows|done].
  - left. unfold close_room. case_match; [apply close_grows|done].
Qed.

(** ** The writer task of a session *)

(** Frames on the wire of the session. *)
Inductive Frame := FResponse (r : SignalResponse) | FClose.

(** The writer: what of the join response and its followers is left, whether the task runs, and
    the frames written. *)
Record Writer := mkWriter { wr_todo : list SignalResponse; wr_running : bool; wr_wire : list Frame }.
Definition writer_start (prelude : SignalPrelude) : Writer := mkWriter (pre_join prelude :: pre_post_join prelude) true [].
Definition responses (wire : list Frame) : list SignalResponse :=
  omap (fun f => match f with FResponse r => Some r | FClose => None end) wire.

Definition set_queue (c : loc) (q : list SignalResponse) (open : bool) (w : World) : World :=
  set_chans (<[c := mkChan q open]> (w_chans w)) w.
Definition write (r : SignalResponse) (wr : Writer) : Writer :=
  mkWriter (wr_todo wr) (wr_running wr) (wr_wire wr ++ [FResponse r]).
(** The task ends and drops its receiver. *)
Definition stop (wr : Writer) : Writer := mkWriter (wr_todo wr) false (wr_wire wr).

(** The server and the writer task of the session on channel [c]; the label is what is queued.
    The server does anything that neither drains the channel nor opens it again; the session
    closes the transport at some point. *)
Inductive wire_step (c : loc) : World * Writer -> list SignalResponse -> World * Writer -> Prop :=
| wi_server w w' wr ch l :
    server_step w w' -> w_chans w !! c = Some ch -> w_chans w' !! c = Some (mkChan (c_queue ch ++ l) (c_open ch)) ->
    (c_open ch = false -> l = []) -> wire_step c (w, wr) l (w', wr)
| wi_prelude w wr r todo :
    wr_running wr = true -> wr_todo wr = r :: todo ->
    wire_step c (w, wr) [] (w, write r (mkWriter todo true (wr_wire wr)))
| wi_recv w wr r q open :
    wr_running wr = true -> wr_todo wr = [] -> w_chans w !! c = Some (mkChan (r :: q) open) ->
    wire_step c (w, wr) [] (set_queue c q open w, write r wr)
| wi_failed w wr q open :
    wr_running wr = true -> w_chans w !! c = Some (mkChan q open) -> wire_step c (w, wr) [] (set_queue c q false w, stop wr)
| wi_finished w wr open :
    wr_running wr = true -> wr_todo wr = [] -> w_chans w !! c = Some (mkChan [] open) ->
    (forall pl p, w_parts w !! pl = Some p -> p_tx p <> Some c) ->
    wire_step c (w, wr) [] (set_queue c [] false w, stop wr)
| wi_close w wr : wire_step c (w, wr) [] (w, mkWriter (wr_todo wr) (wr_running wr) (wr_wire wr ++ [FClose])).

Inductive wire_run (c : loc) : World * Writer -> list SignalResponse -> World * Writer -> Prop :=
| wire_refl s : wire_run c s [] s
| wire_more s l s' l' s'' : wire_run c s l s' -> wire_step c s' l' s'' -> wire_run c s (l ++ l') s''.

Lemma responses_app a b : responses (a ++ b) = responses a ++ responses b.
Proof. unfold responses. induction a as [|[r|] a IH]; cbn; [done|by rewrite IH|done]. Qed.

(** What is written, what is left and what is queued make up what was to be sent; after the task
    has ended nothing more is written. *)
Definition wire_inv (c : loc) (prelude : SignalPrelude) (l : list SignalResponse) (s : World * Writer) : Prop :=
  let '(w, wr) := s in
  exists ch rest, w_chans w !! c = Some ch /\
    pre_join prelude :: pre_post_join prelude ++ l = responses (wr_wire wr) ++ rest /\
    (wr_running wr = true -> rest = wr_todo wr ++ c_queue ch).

Lemma wire_inv_step c prelude l l' s s' : wire_inv c prelude l s -> wire_step c s l' s' -> wire_inv c prelude (l ++ l') s'.
Proof.
  intros Hi Hs. destruct Hs as [w w' wr ch l' _ Hc Hc' _|w wr r todo Hr Ht|w wr r q open Hr Ht Hc|w wr q open Hr Hc|w wr open Hr Ht Hc _|w wr];
    destruct Hi as (ch0 & rest & E0 & E & Hq); unfold wire_inv.
  - assert (ch0 = ch) as -> by congruence. eexists _, (rest ++ l'). split; [exact Hc'|]. cbn [c_queue]. split.
    + rewrite !app_comm_cons, !app_assoc in *. by rewrite E.
    + intros Hr. by rewrite Hq, app_assoc.
  - exists ch0, (todo ++ c_queue ch0). rewrite app_nil_r. split_and!; [done| |done]. cbn [wr_wire write].
    rewrite responses_app, E, (Hq Hr), Ht, <- app_assoc. done.
  - rewrite Hc in E0. injection E0 as <-. exists (mkChan q open), q. rewrite app_nil_r. cbn [w_chans set_queue set_chans wr_wire write wr_running wr_todo].
    rewrite lookup_insert_eq, responses_app, E, (Hq Hr), Ht, <- app_assoc. done.
  - exists (mkChan q false), rest. rewrite app_nil_r. cbn. rewrite lookup_insert_eq. done.
  - exists (mkChan [] false), rest. rewrite app_nil_r. cbn. rewrite lookup_insert_eq. done.
  - exists ch0, rest. rewrite app_nil_r. cbn [wr_wire wr_running wr_todo]. rewrite responses_app. cbn. rewrite app_nil_r. done.
Qed.

Lemma wire_inv_run c prelude s l s' : wire_run c s l s' -> wire_inv c prelude [] s -> wire_inv c prelude l s'.
Proof. induction 1; [done|]. intros Hi. eapply wire_inv_step; [by apply IHwire_run|done]. Qed.


(** * Entering a session *)

(** Reading the info of a participant changes nothing another reader sees of it. *)
Definition member_view (p : Participant) := (p_sid p, p_permission p).
Lemma info_of_member l w q :
  member_view <$> w_parts (info_of l w).1 !! q = member_view <$> w_parts w !! q.
Proof.
  unfold info_of. destruct (w_parts w !! l) as [p|] eqn:E; [|done].
  destruct (participant_to_proto (w_tracks w) p) as [p' i] eqn:Ep. cbn [fst w_parts set_parts].
  destruct (decide (q = l)) as [->|]; [rewrite lookup_insert_eq, E|by rewrite lookup_insert_ne].
  unfold participant_to_proto in Ep. destruct (next (p_version p)) as [c v]. by injection Ep as <- _.
Qed.
Lemma info_of_fields l w p : w_parts w !! l = Some p ->
  exists w' i, info_of l w = (w', Some i) /\ pi_sid i = p_sid p /\ pi_permission i = Some (p_permission p).
Proof.
  intros E. unfold info_of. rewrite E. destruct (participant_to_proto (w_tracks w) p) as [p' i] eqn:Ep.
  unfold participant_to_proto in Ep. destruct (next (p_version p)) as [c v]. injection Ep as _ <-. eauto.
Qed.

(** The infos of a list of members, as they are seen before. *)
Lemma infos_of_views ls : forall w,
  (fun i => (pi_sid i, pi_permission i)) <$> (infos_of ls w).2 =
  omap (fun l => (fun p => (p_sid p, Some (p_permission p))) <$> w_parts w !! l) ls.
Proof.
  induction ls as [|l ls IH]; intros w; [done|]. cbn [infos_of omap list_omap].
  pose proof (info_of_member l w) as Hv. destruct (w_parts w !! l) as [p|] eqn:E.
  - destruct (info_of_fields l w p E) as (w1 & i & Ei & I1 & I2). rewrite Ei in Hv |- *. specialize (IH w1). cbn [fst] in Hv.
    destruct (infos_of ls w1) as [w2 infos]. cbn [snd] in IH |- *. change (option_list (Some i) ++ infos) with (i :: infos).
    rewrite fmap_cons, IH, I1, I2. change ((fun p => (p_sid p, Some (p_permission p))) <$> Some p) with (Some (p_sid p, Some (p_permission p))).
    cbn iota. f_equal. clear -Hv. induction ls as [|q ls IH]; [done|]. cbn [omap list_omap]. specialize (Hv q).
    destruct (w_parts w1 !! q) as [a|], (w_parts w !! q) as [b|]; cbn in Hv |- *; [|done..|exact IH].
    unfold member_view in Hv. injection Hv as -> ->. by f_equal.
  - unfold info_of. rewrite E. specialize (IH w). destruct (infos_of ls w) as [w2 infos]. exact IH.
Qed.

Section Entry.
Context (sha256 : list Z -> list Z).

Lemma build_join_response_frame s rl pl w : frame w (build_join_response sha256 s rl pl w).1.
Proof.
  unfold build_join_response. destruct (w_rooms w !! rl) as [r|]; [|done]. destruct (w_parts w !! pl) as [p|]; [|done].
  pose proof (infos_of_frame (filter (fun l => visible_to w (p_sid p) l = true) (members r)) w) as H1.
  destruct (infos_of _ w) as [w1 others]. cbv zeta. cbn [fst] in H1. pose proof (info_of_frame pl w1) as H2.
  destruct (info_of pl w1) as [w2 [i|]]; cbn [fst] in *; by etrans.
Qed.
Lemma resume_prelude_frame s rl pl w : frame w (resume_prelude sha256 s rl pl w).1.
Proof.
  unfold resume_prelude. destruct (w_rooms w !! rl) as [r|]; [|done]. destruct (w_parts w !! pl) as [p|]; [|done].
  pose proof (infos_of_frame (members r) w) as H1. destruct (infos_of _ w) as [w1 others]. exact H1.
Qed.

(** Entering a session, by whichever way and with whichever outcome, keeps the server's
    invariant. *)
Theorem enter_session_ok limits s token params kind first dr w :
  world_ok w -> fresh_draws dr w -> world_ok (enter_session sha256 limits s token params kind first dr w).1.
Proof.
  intros Hw Hf. unfold enter_session.
  assert (resume_room_participant token params w = (w, None) \/
          exists rl pl, resume_room_participant token params w = (upd_part pl bump_gen w, Some (rl, pl))) as Hres.
  { destruct (resume_cases token params w) as [E|(rl & pl & E & _)]; eauto. }
  assert (world_ok (match join_room limits token params kind dr w with
    | (w, Err e) => (match get_room (vg_room (video token)) w with None => emit (EvReleaseRoom (vg_room (video token))) w | Some _ => w end, Refused e)
    | (w, Ok (rl, pl, launch_agents)) =>
          match build_join_response sha256 s rl pl w with
          | (w, Some jr) =>
              (w, Entered rl pl (mkPrelude (RJoin jr) [] (fq_offer first) (fq_add_tracks first) (fq_sync first) launch_agents) false)
          | (w, None) => (w, Panicked)
          end end).1) as Hjoin.
  { pose proof (join_room_ok limits token params kind dr w Hw Hf) as Hj.
    destruct (join_room limits token params kind dr w) as [w1 [[[rl pl] ds]|e]]; cbn [fst] in *.
    - pose proof (build_join_response_frame s rl pl w1) as F. destruct (build_join_response _ _ _ _ _) as [w2 [j|]];
        (eapply frame_world_ok; [exact F|exact Hj]).
    - case_match; [exact Hj|]. eapply frame_world_ok; [apply emit_frame|exact Hj]. }
  destruct (sp_reconnect params); [|exact Hjoin]. destruct Hres as [->|(rl & pl & ->)]; [exact Hjoin|].
  pose proof (resume_prelude_frame s rl pl (upd_part pl bump_gen w)) as F.
  destruct (resume_prelude _ _ _ _ _) as [w2 [j|]]; (eapply frame_world_ok; [exact F|by apply bump_gen_ok]).
Qed.

(** What a join response tells of the room: the joining participant as itself, and as the others
    exactly the members that are somebody else and not hidden. *)
Theorem join_response_members s rl pl w w' j r p :
  w_rooms w !! rl = Some r -> w_parts w !! pl = Some p ->
  build_join_response sha256 s rl pl w = (w', Some j) ->
  pi_sid (jr_participant j) = p_sid p /\
  (pi_sid <$> jr_others j) = p_sid <$> filter (fun q => p_sid q <> p_sid p /\ hidden (p_permission q) = false) (parts_of w r) /\
  Forall (fun i => info_hidden i = false) (jr_others j).
Proof.
  intros Hr Hp E. unfold build_join_response in E. rewrite Hr, Hp in E.
  set (ls := filter _ (members r)) in E. pose proof (infos_of_views ls w) as Hv.
  assert (exists p1, w_parts (infos_of ls w).1 !! pl = Some p1 /\ p_sid p1 = p_sid p) as (p1 & Hp1 & Hs1).
  { assert (forall ls w, (p_sid <$> w_parts (infos_of ls w).1 !! pl) = p_sid <$> w_parts w !! pl) as Hk.
    { clear. induction ls as [|l ls IH]; intros w; [done|]. cbn [infos_of]. pose proof (info_of_member l w pl) as H.
      destruct (info_of l w) as [w1 i]. specialize (IH w1). destruct (infos_of ls w1) as [w2 infos]. cbn [fst] in *. rewrite IH.
      unfold member_view in H. destruct (w_parts w1 !! pl), (w_parts w !! pl); cbn in *; congruence. }
    specialize (Hk ls w). rewrite Hp in Hk. destruct (w_parts (infos_of ls w).1 !! pl) as [p1|]; [|done].
    exists p1. cbn in Hk. split; congruence. }
  destruct (infos_of ls w) as [w1 others]. cbv zeta in E. cbn [fst snd] in *.
  destruct (info_of_fields pl w1 p1 Hp1) as (w2 & i & Ei & I1 & _). rewrite Ei in E.
  destruct (session_ice sha256 s (p_sid p) w2) as [ice|]; [|done]. cbn in E. injection E as _ <-. cbn [jr_participant jr_others].
  split; [congruence|].
  assert (omap (fun l => (fun q => (p_sid q, Some (p_permission q))) <$> w_parts w !! l) ls =
          (fun q => (p_sid q, Some (p_permission q))) <$>
            filter (fun q => p_sid q <> p_sid p /\ hidden (p_permission q) = false) (parts_of w r)) as Hls.
  { unfold ls, parts_of. clear. induction (members r) as [|l m IH]; [done|]. rewrite filter_cons. cbn [omap list_omap].
    assert (visible_to w (p_sid p) l = true <->
            exists q, w_parts w !! l = Some q /\ p_sid q <> p_sid p /\ hidden (p_permission q) = false) as Hvis.
    { unfold visible_to. destruct (w_parts w !! l) as [q|]; [|naive_solver].
      destruct (String.eqb_spec (p_sid q) (p_sid p)); destruct (hidden (p_permission q)) eqn:Hh; cbn; naive_solver. }
    destruct (w_parts w !! l) as [q|] eqn:E; [rewrite filter_cons|rewrite decide_False by naive_solver; exact IH].
    destruct (decide (p_sid q <> p_sid p /\ hidden (p_permission q) = false)).
    - rewrite decide_True by naive_solver. cbn [omap list_omap]. rewrite E, fmap_cons. cbn. f_equal. exact IH.
    - rewrite decide_False by naive_solver. exact IH. }
  rewrite Hls in Hv. split.
  - apply (f_equal (fmap fst)) in Hv. rewrite <- !list_fmap_compose in Hv. exact Hv.
  - apply list.Forall_forall. intros x Hx.
    assert ((pi_sid x, pi_permission x) ∈ (fun i => (pi_sid i, pi_permission i)) <$> others) as Hin
      by (apply list_elem_of_fmap; eauto).
    rewrite Hv in Hin. apply list_elem_of_fmap in Hin as (q & [= _ Eq] & [[_ Hq] _]%list_elem_of_filter).
    unfold info_hidden. by rewrite Eq.
Qed.

(** A resumed session is told of every member, hidden ones included: unlike a join response, the
    update that follows the reconnect response is not filtered. *)
Theorem resume_reveals_hidden s rl pl w w' prelude r :
  w_rooms w !! rl = Some r -> resume_prelude sha256 s rl pl w = (w', Some prelude) ->
  exists infos room, pre_post_join prelude = [RUpdate infos; RRoomUpdate room] /\
    (pi_sid <$> infos) = p_sid <$> parts_of w r.
Proof.
  intros Hr E. unfold resume_prelude in E. rewrite Hr in E. destruct (w_parts w !! pl) as [p|]; [|done].
  pose proof (infos_of_views (members r) w) as Hv. destruct (infos_of (members r) w) as [w1 infos]. cbn [snd] in Hv.
  destruct (build_reconnect_response _ _ _ _) as [rr|]; [|done]. cbn in E. injection E as _ <-. cbn [pre_post_join].
  exists infos, (room_to_proto w1 r). split; [done|]. apply (f_equal (fmap fst)) in Hv. rewrite <- !list_fmap_compose in Hv.
  transitivity ((fst ∘ (fun i : ParticipantInfo => (pi_sid i, pi_permission i))) <$> infos); [done|]. rewrite Hv.
  unfold parts_of. clear. induction (members r) as [|l m IH]; [done|]. cbn [omap list_omap].
  destruct (w_parts w !! l); cbn; [by f_equal|exact IH].
Qed.
End Entry.

(** * Examples *)

Module SessionDemo.
Definition prelude : SignalPrelude := mkPrelude (RPong 0) [] None [] None [].
Definition quiet : SessionParams := mkParams false "" false true "" ∅ [].
(** Carol joins after Alice's track has arrived; with [params] she wants no automatic
    subscriptions. *)
Definition carol (params : SessionParams) : MWorld :=
  set_mworld (join_room MediaDemo.limits (DemoSignal.token "carol" "" []) params Standard (DemoSignal.draws 3)
    (mw_world MediaDemo.w1)).1 MediaDemo.w1.
Definition wc : MWorld := carol DemoSignal.params.
Definition rc : Room := default Demo.r0 (w_rooms (mw_world wc) !! 10%nat).
Definition pc : Participant := default (Demo.caller 1) (w_parts (mw_world wc) !! 31%nat).
Definition alice : Participant := default (Demo.caller 1) (w_parts (mw_world wc) !! 11%nat).
Definition track : PublishedTrack := default (PublishedTrack_new 0 "" "" "" Microphone "") (w_tracks (mw_world wc) !! 50%nat).

(** Alice's session at the start, and after a ping. *)
Definition w0 : World := open_session 11%nat 90%nat DemoSignal.s1.
Definition w1 : World := handle_participant_request 11%nat QPing w0.
Definition pong : SignalResponse := RPong (millis w0).
End SessionDemo.



(** ** What the code does not do as intended *)

(** A participant that turned automatic subscription off is subscribed to every track published
    before it joined: the loop over the existing tracks does not look at the setting. *)
Example auto_subscribe_off_ignored :
  p_auto_subscribe <$> w_parts (mw_world (SessionDemo.carol SessionDemo.quiet)) !! 31%nat = Some false /\
  subscribers_at (subscribe_existing MediaDemo.ds 10%nat 31%nat MediaDemo.setup (SessionDemo.carol SessionDemo.quiet)) 60%nat !! "PA_3"
  = Some (200%nat : loc).
Proof. vm_compute. split; reflexivity. Qed.

(** A socket that closes after its participant was resumed takes the resumed session down: the
    generation is read when the old session ends, so the grace task finds it unchanged. *)
Example late_close_ends_resumed_session :
  let resumed := (resume_room_participant (DemoSignal.token "alice" "" []) DemoSignal.params DemoSignal.s1).1 in
  let live := open_session 11%nat 91%nat resumed in
  session_end 11%nat live = Some 1 /\
  (get_participant "PA_1" <$> w_rooms live !! 10%nat) = Some (Some 11%nat) /\
  (get_participant "PA_1" <$> w_rooms (grace_task 11%nat 1 live) !! 10%nat) = Some None.
Proof. vm_compute. split_and!; reflexivity. Qed.
