(* ===== verification/SignalIo.v ===== *)
(** The transports of a session behind one interface ([SignalIo] of
    [crates/lk-server/src/signal.rs]): what the session's loop asks of a reader, the websocket and
    the relay as its two implementations, and that a relayed session is handled like a local
    one. *)
From Stdlib Require Import ZArith Lia Ascii String.
From stdpp Require Import base gmap strings list option.
From S2P Require Import Prelude RustStr Core Participant Room Signal Media Transport Cluster Relay Session.

Open Scope string_scope.
Open Scope list_scope.
Open Scope Z_scope.

(** * The interface *)

(** [SignalIoReader]: [next_request] gives a request or ends the session.  [delivers s reqs] says
    that the transport in state [s] hands over exactly [reqs] and then ends; the laws are what
    the session relies on. *)
Class SignalIoReader (S Req : Type) := {
  reader_next : S -> option Req * S;
  delivers : S -> list Req -> Prop;
  delivers_cons s r rs : delivers s (r :: rs) -> exists s', reader_next s = (Some r, s') /\ delivers s' rs;
  delivers_nil s : delivers s [] -> (reader_next s).1 = None;
}.

Section Loop.
Context {S Req W : Type} {R : SignalIoReader S Req}.
Context (handle : Req -> W -> W) (gone : W -> bool).

(** The reader loop of [run_signal_session]; every turn takes a request. *)
Fixpoint session_loop (fuel : nat) (s : S) (w : W) : option W :=
  match fuel with
  | O => None
  | Datatypes.S fuel =>
      match reader_next s with
      | (None, _) => Some w
      | (Some req, s) => let w := handle req w in if gone w then Some w else session_loop fuel s w
      end
  end.

(** Handling a list of requests, up to the one that ends the participant. *)
Fixpoint handle_all (reqs : list Req) (w : W) : W :=
  match reqs with
  | [] => w
  | req :: reqs => let w := handle req w in if gone w then w else handle_all reqs w
  end.

(** Over any transport that keeps its promise, the loop ends, having handled exactly what the
    transport delivers. *)
Lemma session_loop_handles reqs s w fuel : delivers s reqs -> (length reqs < fuel)%nat ->
  session_loop fuel s w = Some (handle_all reqs w).
Proof.
  revert s w fuel. induction reqs as [|r reqs IH]; intros s w [|fuel] Hd Hf; cbn [length] in Hf; try lia; cbn [session_loop handle_all].
  - pose proof (delivers_nil s Hd) as E. destruct (reader_next s) as [o s']. cbn in E. by subst.
  - destruct (delivers_cons s r reqs Hd) as (s' & -> & Hd'). cbv zeta. destruct (gone (handle r w)); [done|]. apply IH; [done|lia].
Qed.
End Loop.

(** * The websocket *)

Section Ws.
Context {Req : Type} (decode : list Z -> option Req) (from_json : string -> option Req).
Context (client_bin : Req -> list Z) (client_json : Req -> string) (max_frame_size : Z).
Context (decode_law : forall r, decode (client_bin r) = Some r) (json_law : forall r, from_json (client_json r) = Some r).
Notation client_frame := (client_frame client_bin client_json).
Notation client_events := (client_events client_bin client_json).

Definition ends_session (e : ReadEvent) : bool :=
  match e with RdFrame (MClose _) | RdError | RdEnd | RdTimeout => true | RdFrame _ => false end.

Definition ws_delivers (st : list ReadEvent * WsShared) (reqs : list Req) : Prop :=
  exists acts e tail, st.1 = client_events acts ++ e :: tail /\ ends_session e = true /\
    Forall (fun a => frame_size (client_frame a) <= max_frame_size) acts /\ omap act_request acts = reqs.

Definition ws_next (st : list ReadEvent * WsShared) : option Req * (list ReadEvent * WsShared) :=
  let '(r, events, s) := Transport.next_request decode from_json max_frame_size st.1 st.2 in (r, (events, s)).

Lemma ws_next_cons st r rs : ws_delivers st (r :: rs) -> exists st', ws_next st = (Some r, st') /\ ws_delivers st' rs.
Proof using decode_law json_law.
  intros (acts & e & tail & E & He & Hs & Hr). destruct st as [events s]. cbn [fst] in E. subst events. unfold ws_next. cbn [fst snd].
  revert s Hs Hr. induction acts as [|a acts IH]; intros s Hs Hr; [done|]. apply list.Forall_cons in Hs as [Ha Hs].
  destruct a as [r' json| |]; cbn [omap list_omap act_request] in Hr.
  - injection Hr as <- Hr. unfold Transport.client_events. cbn [fmap list_fmap compose app]. fold (client_events acts).
    rewrite (read_request_frame decode from_json client_bin client_json decode_law json_law) by done.
    eexists. split; [done|]. exists acts, e, tail. by split_and!.
  - apply (IH s Hs Hr).
  - apply (IH s Hs Hr).
Qed.

Lemma ws_next_nil st : ws_delivers st [] -> (ws_next st).1 = None.
Proof.
  intros (acts & e & tail & E & He & Hs & Hr). destruct st as [events s]. cbn [fst] in E. subst events. unfold ws_next. cbn [fst snd].
  clear Hs. induction acts as [|a acts IH].
  - destruct e as [m| | |]; [|done..]. by destruct m.
  - destruct a as [r' json| |]; [done|exact (IH Hr)..].
Qed.

#[export] Instance ws_reader : SignalIoReader (list ReadEvent * WsShared) Req :=
  {| reader_next := ws_next; delivers := ws_delivers; delivers_cons := ws_next_cons; delivers_nil := ws_next_nil |}.
End Ws.

(** * The relay *)

Section Relay.
Context {Req : Type} (encode_req : Req -> string) (decode_req : string -> option Req).
Hypothesis decode_encode : forall r, decode_req (encode_req r) = Some r.
Variable session_id : string.

(** The hosting node's side of a relayed session: the bus, the reader, and what the client's node
    will still relay: a batch arrives whenever a poll has found nothing, the close after the last
    one. *)
Record RelaySt := mkRelaySt { ry_bus : MemInner; ry_reader : @RelayIoReader Req; ry_batches : list (list Req) }.

Definition pump_all (batch : list Req) (b : MemInner) : MemInner := foldl (fun b r => pump_request encode_req session_id r b) b batch.

(** [RelayIoReader::next_request] with its polls. *)
Fixpoint relay_wait (batches : list (list Req)) (b : MemInner) (r : RelayIoReader) : option Req * RelaySt :=
  match Relay.next_request decode_req b r with
  | (Got req, (b, r)) => (Some req, mkRelaySt b r batches)
  | (Ended, (b, r)) => (None, mkRelaySt b r batches)
  | (Again, (b, r)) =>
      match batches with
      | batch :: batches => relay_wait batches (pump_all batch b) r
      | [] =>
          match Relay.next_request decode_req (pump_close session_id b) r with
          | (Got req, (b, r)) => (Some req, mkRelaySt b r [])
          | (_, (b, r)) => (None, mkRelaySt b r [])
          end
      end
  end.
Definition relay_next (st : RelaySt) : option Req * RelaySt := relay_wait (ry_batches st) (ry_bus st) (ry_reader st).

(** The reader holds or will read [q], and the batches bring the rest; the ids stay in range. *)
Definition relay_delivers (st : RelaySt) (reqs : list Req) : Prop :=
  exists m q, relay_ok encode_req session_id (ry_bus st, ry_reader st) m q /\ 0 <= m /\
    m + Z.of_nat (length (concat (ry_batches st))) < 2 ^ 64 - 1 /\ reqs = q ++ concat (ry_batches st).

Lemma pump_all_ok batch b r m q : relay_ok encode_req session_id (b, r) m q ->
  relay_ok encode_req session_id (pump_all batch b, r) (m + Z.of_nat (length batch)) (q ++ batch).
Proof.
  revert b m q. induction batch as [|x batch IH]; intros b m q H; cbn [pump_all foldl length].
  - by rewrite app_nil_r, Z.add_0_r.
  - apply (relay_pump encode_req session_id (b, r) m q x) in H. apply IH in H. rewrite <- app_assoc in H.
    by replace (m + Z.of_nat (Datatypes.S (length batch))) with (m + 1 + Z.of_nat (length batch)) by lia.
Qed.

(** A close that finds nothing before it ends the session. *)
Lemma relay_close b r m : relay_ok encode_req session_id (b, r) m [] -> 0 <= m < 2 ^ 64 - 1 ->
  (Relay.next_request decode_req (pump_close session_id b) r).1 = Ended.
Proof.
  intros (n & queued & Hq & Hs & Hst & Hn & Hm & H0 & Hl) Hb. symmetry in Hq. apply app_eq_nil in Hq as [Hp ->].
  destruct r as [sid last pending]. cbn [fst snd rr_pending rr_session_id rr_last_id] in *. subst sid pending.
  unfold Relay.next_request, pump_close, xadd, next, xread_poll. cbn [rr_pending rr_session_id rr_last_id mi_streams].
  rewrite lookup_insert_eq, Hst, Hn. cbn [numbered app omap list_omap]. cbn [length] in Hm.
  rewrite (proj2 (Z.ltb_lt _ _)) by lia. done.
Qed.

Lemma relay_wait_spec batches b r m q : relay_ok encode_req session_id (b, r) m q -> 0 <= m ->
  m + Z.of_nat (length (concat batches)) < 2 ^ 64 - 1 ->
  match q ++ concat batches with
  | [] => (relay_wait batches b r).1 = None
  | x :: reqs => exists st, relay_wait batches b r = (Some x, st) /\ relay_delivers st reqs
  end.
Proof using decode_encode.
  revert b r m q. induction batches as [|batch batches IH]; intros b r m q Hok H0 Hm; cbn [relay_wait];
    destruct (relay_take encode_req decode_req decode_encode session_id (b, r) m q Hok) as ([b' r'] & E & Hok');
    try (cbn [concat length] in Hm; lia); cbn [fst snd] in E; rewrite E.
  - destruct q as [|x q]; cbn [app concat].
    + pose proof (relay_close b' r' m Hok' ltac:(cbn in Hm; lia)) as Hc.
      destruct (Relay.next_request _ (pump_close session_id b') r') as [res [b2 r2]]. cbn in Hc. by subst res.
    + eexists. split; [done|]. exists m, q. by split_and!.
  - destruct q as [|x q]; cbn [app].
    + cbn [concat] in Hm. rewrite length_app in Hm. cbn [tail] in Hok'. apply (pump_all_ok batch) in Hok'.
      apply (IH _ _ _ _ Hok'); lia.
    + eexists. split; [done|]. exists m, q. by split_and!.
Qed.

Lemma relay_next_cons st r rs : relay_delivers st (r :: rs) -> exists st', relay_next st = (Some r, st') /\ relay_delivers st' rs.
Proof using decode_encode.
  intros (m & q & Hok & H0 & Hm & E). pose proof (relay_wait_spec _ _ _ _ _ Hok H0 Hm) as H. by rewrite <- E in H.
Qed.
Lemma relay_next_nil st : relay_delivers st [] -> (relay_next st).1 = None.
Proof using decode_encode.
  intros (m & q & Hok & H0 & Hm & E). pose proof (relay_wait_spec _ _ _ _ _ Hok H0 Hm) as H. by rewrite <- E in H.
Qed.

#[export] Instance relay_io_reader : SignalIoReader RelaySt Req :=
  {| reader_next := relay_next; delivers := relay_delivers; delivers_cons := relay_next_cons; delivers_nil := relay_next_nil |}.

(** A new relayed session delivers what its batches hold. *)
Lemma relay_starts batches : Z.of_nat (length (concat batches)) < 2 ^ 64 - 1 ->
  relay_delivers (mkRelaySt MemInner_default (relay_reader session_id) batches) (concat batches).
Proof. intros H. exists 0, []. split_and!; try done; try lia. exists 0, []. by split_and!. Qed.
End Relay.

(** * Sessions over either transport *)

(** The frames of a client as its own node sees them. *)
Definition relayed_frame {Req} (decode : list Z -> option Req) (from_json : string -> option Req) (m : WsMessage) : @WsFrame Req :=
  match m with
  | MText _ | MBinary _ => WsData (ws_decode decode from_json m false).1
  | MPing | MPong => WsPingPong
  | MClose _ => WsClose
  end.

(** The client's node relays exactly the client's requests. *)
Lemma in_pump_acts {Req} decode from_json client_bin client_json encode_req session_id (acts : list (@ClientAct Req)) code b :
  (forall r, decode (client_bin r) = Some r) -> (forall r, from_json (client_json r) = Some r) ->
  in_pump encode_req session_id ((relayed_frame decode from_json ∘ client_frame client_bin client_json <$> acts) ++ [relayed_frame decode from_json (MClose code)]) b =
  pump_all encode_req session_id (omap act_request acts) b.
Proof.
  intros Hd Hj. revert b. induction acts as [|a acts IH]; intros b; [done|].
  destruct a as [r []| |]; cbn [fmap list_fmap compose app relayed_frame client_frame ws_decode fst omap list_omap act_request in_pump];
    rewrite ?Hd, ?Hj; apply IH.
Qed.

Definition session_gone (pl : loc) (w : MWorld) : bool :=
  match w_parts (mw_world w) !! pl with Some p => bool_decide (state p = Disconnected) | None => true end.

Lemma handle_all_session {Req} ds pl (interp : Req -> MediaRequest) reqs w :
  handle_all (fun r => session_request ds pl (interp r)) (session_gone pl) reqs w = session_requests ds pl (interp <$> reqs) w.
Proof.
  revert w. induction reqs as [|r reqs IH]; intros w; [done|]. cbn [handle_all session_requests fmap list_fmap]. unfold session_gone at 1.
  destruct (w_parts _ !! pl); [|done]. by destruct (bool_decide _).
Qed.


(** A client that pings and leaves. *)
Module TransportDemo.
Definition interp (leave : bool) : MediaRequest := MSignal (if leave then QLeave 1 else QPing).
Definition bin (leave : bool) : list Z := [if leave then 1 else 0].
Definition unbin (bytes : list Z) : option bool := match bytes with [b] => Some (b =? 1) | _ => None end.
Definition text (leave : bool) : string := if leave then "leave" else "ping".
Definition untext (s : string) : option bool := Some (s =? "leave")%string.
Lemma bin_law r : unbin (bin r) = Some r. Proof. by destruct r. Qed.
Lemma text_law r : untext (text r) = Some r. Proof. by destruct r. Qed.
Definition acts : list ClientAct := [CRequest false true; CPing; CRequest false false; CRequest true true].
End TransportDemo.

