(* ===== verification/Mp3.v ===== *)
(** The codecs of the recorder: the encoder around libmp3lame ([crates/lk-egress/src/mp3.rs]),
    the decoder around libopus ([audio.rs]), and the equivalence of MP3 and WAV recordings of
    the same packets ([recorder.rs]). *)
From Stdlib Require Import ZArith Lia Ascii String.
From stdpp Require Import base gmap strings list option numbers.
From S2P Require Import Prelude RustStr Wav Recorder.

Open Scope string_scope.
Open Scope list_scope.
Open Scope Z_scope.

(** * The encoder *)

Definition MP3_BUF : Z := 16 * 1024.

(** [check]: a negative return code is an error. *)
Definition check (rc : Z) : Result string unit :=
  if rc <? 0 then Err ("libmp3lame error " +:+ fmt_dec rc) else Ok ().

(** [buffer[..n]]: [None] when the slice is out of range, which panics. *)
Definition slice_to (n : Z) (buffer : list Z) : option (list Z) :=
  if n <=? Z.of_nat (length buffer) then Some (take (Z.to_nat n) buffer) else None.

Section Lame.
(** libmp3lame: the state behind a handle, and its functions.  The encoding functions return
    the code, what they wrote to the start of the buffer and the new state. *)
Context {G : Type}.
Context (lame_init : option G) (lame_set_in_samplerate lame_set_num_channels lame_set_brate : G -> Z -> Z * G).
Context (lame_init_params : G -> Z * G).
Context (lame_encode_buffer : G -> list Z -> list Z -> Z -> Z -> Z * list Z * G).
Context (lame_encode_buffer_interleaved : G -> list Z -> Z -> Z -> Z * list Z * G).
Context (lame_encode_flush : G -> Z -> Z * list Z * G).

Record Mp3Encoder := mkMp3 { me_handle : G; me_channels : Z; me_buffer : list Z }.

Definition Mp3Encoder_new (channels bitrate_kbps : Z) : Result string Mp3Encoder :=
  handle ← ok_or lame_init "lame_init failed";
  let '(rc, handle) := lame_set_in_samplerate handle SAMPLE_RATE in
  _ ← check rc;
  let '(rc, handle) := lame_set_num_channels handle (wrap_s 32 channels) in
  _ ← check rc;
  let '(rc, handle) := lame_set_brate handle bitrate_kbps in
  _ ← check rc;
  let '(rc, handle) := lame_init_params handle in
  _ ← check rc;
  Ok (mkMp3 handle channels (replicate (Z.to_nat MP3_BUF) 0)).

(** The buffer after the library wrote [written] to its start. *)
Definition fill (written buffer : list Z) : list Z := written ++ drop (length written) buffer.

(** What both calls do with the library's answer; [None] is a panic. *)
Definition answer (what : string) (e : Mp3Encoder) (res : Z * list Z * G) : option (Result string (list Z) * Mp3Encoder) :=
  let '(rc, written, handle) := res in
  let e := mkMp3 handle (me_channels e) (fill written (me_buffer e)) in
  if rc <? 0 then Some (Err ("libmp3lame " +:+ what +:+ " error " +:+ fmt_dec rc), e)
  else out ← slice_to rc (me_buffer e); Some (Ok out, e).

Definition mp3_encode (e : Mp3Encoder) (pcm : list Z) : option (Result string (list Z) * Mp3Encoder) :=
  if bool_decide (pcm = []) then Some (Ok [], e)
  else answer "encode" e
    (if me_channels e =? 1
     then lame_encode_buffer (me_handle e) pcm pcm (wrap_s 32 (Z.of_nat (length pcm))) MP3_BUF
     else lame_encode_buffer_interleaved (me_handle e) pcm (wrap_s 32 (Z.of_nat (length pcm) / 2)) MP3_BUF).

Definition mp3_flush (e : Mp3Encoder) : option (Result string (list Z) * Mp3Encoder) :=
  answer "flush" e (lame_encode_flush (me_handle e) MP3_BUF).

(** ** The documented behaviour of libmp3lame *)

(** A code that is not negative counts the bytes written, at most the buffer's size;
    -1 means that the buffer is too small, which a buffer of 1.25 n + 7200 bytes (7200 for the
    flush) is not; -3 that the parameters were not initialised. *)
Definition lame_answer (ready : G -> Prop) (room : bool) (size : Z) (res : Z * list Z * G) : Prop :=
  let '(rc, written, g) := res in
  Z.of_nat (length written) <= size /\ (0 <= rc -> rc = Z.of_nat (length written)) /\
  (room = true -> rc <> -1) /\ rc <> -3 /\ ready g.

Record LameLaws (ready : G -> Prop) : Prop := {
  law_init g rc g' : lame_init_params g = (rc, g') -> 0 <= rc -> ready g';
  law_encode g l r n size : ready g -> 0 <= size -> 0 <= n <= Z.of_nat (length l) -> 0 <= n <= Z.of_nat (length r) ->
    lame_answer ready (5 * n + 4 * 7200 <=? 4 * size) size (lame_encode_buffer g l r n size);
  law_interleaved g l n size : ready g -> 0 <= size -> 0 <= 2 * n <= Z.of_nat (length l) ->
    lame_answer ready (5 * n + 4 * 7200 <=? 4 * size) size (lame_encode_buffer_interleaved g l n size);
  law_flush g size : ready g -> 0 <= size -> lame_answer ready (7200 <=? size) size (lame_encode_flush g size);
}.

Section Safety.
Context (ready : G -> Prop) (laws : LameLaws ready).

Record enc_ok (e : Mp3Encoder) : Prop := {
  eo_ready : ready (me_handle e);
  eo_buffer : Z.of_nat (length (me_buffer e)) = MP3_BUF;
}.

Lemma check_bind_ok {A} rc (k : unit -> Result string A) a : (check rc ≫= k) = Ok a <-> 0 <= rc /\ k () = Ok a.
Proof. unfold check. destruct (Z.ltb_spec rc 0); cbn; split; [done|lia|done|tauto]. Qed.

Lemma new_ok c b e : Mp3Encoder_new c b = Ok e -> enc_ok e /\ me_channels e = c.
Proof.
  unfold Mp3Encoder_new. destruct lame_init as [g|]; cbn [ok_or mbind Result_bind]; [|done].
  destruct (lame_set_in_samplerate g SAMPLE_RATE) as [rc1 g1]. rewrite (check_bind_ok rc1). intros [_ H]. revert H.
  destruct (lame_set_num_channels g1 _) as [rc2 g2]. rewrite (check_bind_ok rc2). intros [_ H]. revert H.
  destruct (lame_set_brate g2 b) as [rc3 g3]. rewrite (check_bind_ok rc3). intros [_ H]. revert H.
  destruct (lame_init_params g3) as [rc4 g4] eqn:E. rewrite (check_bind_ok rc4). intros [Hrc [= <-]].
  split; [|done]. split; [by eapply law_init|]. vm_compute. reflexivity.
Qed.

(** What the library wrote is what the caller gets; there is no panic, and the codes for a
    small buffer or a missing initialisation do not occur. *)
Definition delivered (what : string) (res : Z * list Z * G) (out : option (Result string (list Z) * Mp3Encoder)) : Prop :=
  exists e', enc_ok e' /\
    ((out = Some (Ok res.1.2, e') /\ Z.of_nat (length res.1.2) <= MP3_BUF) \/
     exists rc, out = Some (Err ("libmp3lame " +:+ what +:+ " error " +:+ fmt_dec rc), e') /\ rc < 0 /\ rc <> -1 /\ rc <> -3).

Lemma answer_delivered what e res : enc_ok e -> lame_answer ready true MP3_BUF res -> delivered what res (answer what e res).
Proof using Type.
  destruct res as [[rc written] g]. intros [Hr Hb] (Hle & Hrc & Hroom & H3 & Hg). unfold answer, delivered.
  assert (Z.of_nat (length (fill written (me_buffer e))) = MP3_BUF) as Hf.
  { unfold fill. rewrite length_app, length_drop. lia. }
  eexists (mkMp3 g (me_channels e) (fill written (me_buffer e))). split; [by split|].
  destruct (Z.ltb_spec rc 0) as [Hneg|Hpos].
  - right. exists rc. split_and!; try done. by apply Hroom.
  - left. split; [|done]. rewrite (Hrc Hpos). unfold slice_to. cbn [me_buffer]. rewrite (proj2 (Z.leb_le _ _)) by lia.
    cbn. rewrite Nat2Z.id. unfold fill. by rewrite take_app_length.
Qed.

(** Encoding is safe for every frame of at most 7347 samples per channel (the recorder passes
    960): the slice of the output buffer never panics, the buffer is never too small, and the
    caller gets exactly the bytes the library wrote. *)
Theorem mp3_encode_delivered e pcm : enc_ok e -> pcm <> [] ->
  Z.of_nat (length pcm) <= 7347 * (if me_channels e =? 1 then 1 else 2) ->
  exists res, delivered "encode" res (mp3_encode e pcm).
Proof using laws.
  clear lame_set_in_samplerate lame_set_num_channels lame_set_brate. intros He Hne Hlen. unfold mp3_encode. rewrite bool_decide_false by done. destruct (me_channels e =? 1).
  - eexists. apply answer_delivered; [done|]. rewrite wrap_s_small by (try done; lia).
    pose proof (law_encode _ laws (me_handle e) pcm pcm (Z.of_nat (length pcm)) MP3_BUF) as H.
    rewrite (proj2 (Z.leb_le _ _)) in H by (unfold MP3_BUF; lia). apply H; [apply He|done|lia|lia].
  - eexists. apply answer_delivered; [done|].
    assert (0 <= 2 * (Z.of_nat (length pcm) / 2) <= Z.of_nat (length pcm)) as Hd by div_lia.
    rewrite wrap_s_small by (try done; lia).
    pose proof (law_interleaved _ laws (me_handle e) pcm (Z.of_nat (length pcm) / 2) MP3_BUF) as H.
    rewrite (proj2 (Z.leb_le _ _)) in H by (unfold MP3_BUF; lia). apply H; [apply He|done|lia].
Qed.

Lemma mp3_flush_delivered e : enc_ok e -> delivered "flush" (lame_encode_flush (me_handle e) MP3_BUF) (mp3_flush e).
Proof using laws. intros He. apply answer_delivered; [done|]. apply (law_flush _ laws _ MP3_BUF); [apply He|done]. Qed.
End Safety.
End Lame.

(** * The Opus decoder *)

Section Opus.
(** libopus: the state of a decoder, the check of a packet, and decoding into a buffer of the
    given size, which returns the number of samples and what it wrote. *)
Context {D : Type} (opus_new : Result string D) (packet_try_from : list Z -> Result string unit).
Context (opus_decode : D -> list Z -> Z -> Result string (Z * list Z) * D).

Definition OPUS_BUF : Z := 5760.

Definition OpusDecoder_new : Result string D := map_err (fun e => "opus decoder: " +:+ e) opus_new.

(** [MutSignals::try_from] fails for buffers longer than an [i32] counts; this one is not. *)
Definition opus_payload (d : D) (payload : list Z) : Result string (list Z) * D :=
  match packet_try_from payload with
  | Err e => (Err ("opus packet: " +:+ e), d)
  | Ok _ =>
      let '(res, d) := opus_decode d payload OPUS_BUF in
      (match res with
       | Ok (n, written) => Ok (take (Z.to_nat n) (fill written (replicate (Z.to_nat OPUS_BUF) 0)))
       | Err e => Err ("opus decode: " +:+ e)
       end, d)
  end.

Definition decode_opus (payload : list Z) : Result string (list Z) :=
  d ← OpusDecoder_new; fst (opus_payload d payload).

(** The decoder writes the samples it counts, 16-bit ones that fit the buffer. *)
Hypothesis opus_law : forall d p size n w d', opus_decode d p size = (Ok (n, w), d') ->
  n = Z.of_nat (length w) /\ n <= size /\ Forall in_i16 w.

(** A decoded payload is what the library decoded: 16-bit samples (what the recording loop
    relies on), at most 120 ms of them, so that a packet completes at most six frames. *)
Theorem opus_payload_spec d p pcm d' : opus_payload d p = (Ok pcm, d') ->
  opus_decode d p OPUS_BUF = (Ok (Z.of_nat (length pcm), pcm), d') /\ Forall in_i16 pcm /\
  (length pcm <= 6 * FRAME_SAMPLES)%nat.
Proof using opus_law.
  unfold opus_payload. destruct (packet_try_from p); [|done].
  destruct (opus_decode d p OPUS_BUF) as [[[n w]|e] d1] eqn:E; [|done].
  destruct (opus_law _ _ _ _ _ _ E) as (-> & Hn & Hw). intros H. apply pair_equal_spec in H as [H <-]. injection H as <-.
  rewrite Nat2Z.id. unfold fill. rewrite take_app_length. split_and!; [done|done|]. unfold OPUS_BUF, FRAME_SAMPLES in *. lia.
Qed.
End Opus.

(** * MP3 recordings hold what WAV recordings hold *)

Section Mp3Recording.
Context {Decoder Encoder Payload : Type}.
Context (decoder_new : Decoder) (decode : Decoder -> Payload -> Result string (list Z) * Decoder).
Context (encoder_new : Z -> Result string Encoder) (encode : Encoder -> list Z -> Result string (list Z) * Encoder)
        (encoder_flush : Encoder -> Result string (list Z)).
Context (iter : gmap string (list Z) -> list string).
Hypothesis iter_perm : forall tracks, iter tracks ≡ₚ keys tracks.
Hypothesis decode_i16 : forall d p pcm d', decode d p = (Ok pcm, d') -> Forall in_i16 pcm.
Notation Recording := (@Recording Decoder Encoder).
Notation write_frame := (@write_frame Decoder Encoder encode).
Notation drain := (@drain Decoder Encoder encode iter).
Notation on_packet := (on_packet decoder_new decode encode iter).
Notation on_packets := (on_packets decoder_new decode encode iter).
Notation run_recording := (run_recording decoder_new decode encoder_new encode encoder_flush iter).

(** The reference: a list of frames through the encoder, up to its first error. *)
Fixpoint encode_all (e : Encoder) (frames : list (list Z)) : Result string (list Z * Encoder) :=
  match frames with
  | [] => Ok ([], e)
  | f :: frames' =>
      let '(res, e') := encode e f in
      out ← res;
      '(rest, e'') ← encode_all e' frames';
      Ok (out ++ rest, e'')
  end.

Definition mp3_file (e : Encoder) (frames : list (list Z)) : Result string (list Z * Z) :=
  '(out, e') ← map_err (fun x => "mp3 encode: " +:+ x) (encode_all e frames);
  tail ← map_err (fun x => "mp3 flush: " +:+ x) (encoder_flush e');
  Ok (out ++ tail, Z.of_nat (length frames)).

Lemma encode_all_snoc e frames f : encode_all e (frames ++ [f]) =
  ('(out, e1) ← encode_all e frames; let '(res, e2) := encode e1 f in out' ← res; Ok (out ++ out', e2)).
Proof.
  revert e. induction frames as [|g frames IH]; intros e; cbn [encode_all app].
  - cbn. destruct (encode e f) as [[out|x] e']; cbn; [by rewrite app_nil_r|done].
  - destruct (encode e g) as [[out|x] e1]; cbn; [|done]. rewrite IH.
    destruct (encode_all e1 frames) as [[o e2]|x]; cbn; [|done].
    destruct (encode e2 f) as [[out'|x] e3]; cbn; [by rewrite app_assoc|done].
Qed.

(** The outcome [res] of an MP3 recording beside the WAV recording [r] of the same packets,
    which has written [frames]. *)
Definition beside (e0 : Encoder) (frames : list (list Z)) (res : Result string Recording) (r : Recording) : Prop :=
  match encode_all e0 frames with
  | Ok (out, e) => exists pos, res = Ok (mkRecording (rc_mixer r) (rc_decoders r) None (Some e) (mkFile out pos []) (rc_frames r))
  | Err x => res = Err ("mp3 encode: " +:+ x)
  end.

Definition frame_ok (f : list Z) : Prop := length f = FRAME_SAMPLES /\ Forall in_i16 f.

Definition wav_of (frames : list (list Z)) (r : Recording) : Prop :=
  recorded r (mjoin frames) /\ rc_frames r = Z.of_nat (length frames) /\ Forall frame_ok frames.

Lemma beside_cases e0 frames res r : beside e0 frames res r ->
  (exists x, res = Err x) \/ exists rm, res = Ok rm /\ rc_mixer rm = rc_mixer r /\ rc_decoders rm = rc_decoders r.
Proof. unfold beside. destruct (encode_all e0 frames) as [[out e]|x]; [intros [pos ->]|intros ->]; eauto. Qed.

(** A change of mixer and decoders on both sides. *)
Definition remix (m : Mixer) (d : gmap string Decoder) (r : Recording) : Recording :=
  mkRecording m d (rc_wav r) (rc_mp3 r) (rc_file r) (rc_frames r).
Lemma remix_beside m d e0 frames res r : beside e0 frames res r ->
  beside e0 frames (res ≫= fun rm => Ok (remix m d rm)) (remix m d r).
Proof. unfold beside. destruct (encode_all e0 frames) as [[out e]|x]; [intros [pos ->]|intros ->]; [by exists pos|done]. Qed.
Lemma remix_wav_of m d frames r : wav_of frames r -> wav_of frames (remix m d r).
Proof. done. Qed.

Lemma append_ok path bytes f : f_faults f = [] ->
  append_bytes path bytes f = Ok (mkFile (f_bytes f ++ bytes) (length (f_bytes f) + length bytes) []).
Proof.
  intros Hf. unfold append_bytes, io. rewrite Hf. cbn [map_err mbind Result_bind id].
  unfold write_all, io. rewrite Hf. cbn [f_faults f_bytes f_pos map_err]. by rewrite write_at_end.
Qed.

Lemma write_frame_beside e0 frames path fr res r r' : beside e0 frames res r -> wav_of frames r ->
  frame_ok fr -> write_frame path fr r = Ok r' ->
  beside e0 (frames ++ [fr]) (res ≫= write_frame path fr) r' /\ wav_of (frames ++ [fr]) r'.
Proof.
  intros Hb (Hr & Hn & Hl) Hlen E. split.
  - unfold beside. rewrite encode_all_snoc. unfold beside in Hb.
    destruct (write_frame_recorded encode path fr r _ Hr) as (r1 & E1 & _ & Em & Ed & Ef).
    rewrite E in E1. injection E1 as <-. rewrite Em, Ed, Ef.
    destruct (encode_all e0 frames) as [[out e]|x]; [|by rewrite Hb]. destruct Hb as [pos ->].
    cbn [mbind Result_bind]. unfold Recorder.write_frame. cbn [rc_wav rc_mp3 rc_file rc_frames rc_mixer rc_decoders mbind Result_bind].
    destruct (encode e fr) as [[out'|x] e']; cbn [map_err mbind Result_bind]; [|done].
    case_bool_decide as Ho; [subst out'; rewrite app_nil_r; by eexists|].
    rewrite append_ok by done. cbn [mbind Result_bind f_bytes]. by eexists.
  - destruct (write_frame_recorded encode path fr r _ Hr) as (r1 & E1 & Hr1 & _ & _ & Ef).
    rewrite E in E1. injection E1 as <-. split_and!.
    + rewrite join_app. cbn. by rewrite app_nil_r.
    + rewrite Ef, Hn, length_app. cbn. lia.
    + by apply Forall_app_2; [|constructor].
Qed.

Lemma read_tracks_ok c order frame tracks : Forall in_i16 frame ->
  length (read_tracks c order frame tracks).1 = length frame /\ Forall in_i16 (read_tracks c order frame tracks).1.
Proof.
  revert frame tracks. induction order as [|cid order IH]; intros frame tracks Hf; cbn [read_tracks]; [done|].
  destruct (tracks !! cid) as [q|]; [|by apply IH]. rewrite mix_in_spec. set (frame' := imap _ frame).
  destruct (IH frame' (<[cid:=drop (length frame) q]> tracks)) as [-> H]; [|split; [apply length_imap|exact H]].
  apply Forall_lookup. intros i x. unfold frame'. rewrite list_lookup_imap. intros (y & _ & ->)%fmap_Some.
  pose proof (clamp_bounds i16_min i16_max (y + sample q i ÷ c) ltac:(done)). unfold in_i16, i16_min, i16_max in *. lia.
Qed.
Lemma read_frame_ok order m : frame_ok (read_frame order FRAME_SAMPLES m).1.
Proof.
  unfold read_frame, frame_ok. destruct (read_tracks_ok (track_count m) order (replicate FRAME_SAMPLES 0) (mx_tracks m)) as [Hl Hf].
  - apply Forall_replicate. unfold in_i16. lia.
  - destruct (read_tracks _ _ _ _) as [frame tracks]. cbn [fst] in *. by rewrite Hl, length_replicate.
Qed.

Lemma drain_beside fuel e0 frames path res r r' : beside e0 frames res r -> wav_of frames r -> drain fuel path r = Ok r' ->
  exists frames', beside e0 frames' (res ≫= drain fuel path) r' /\ wav_of frames' r'.
Proof.
  revert frames res r. induction fuel as [|fuel IH]; intros frames res r Hb Hw E; cbn [Recorder.drain] in E.
  { injection E as <-. exists frames. split; [|done]. by destruct (beside_cases _ _ _ _ Hb) as [[x ->]|(rm & -> & _)]. }
  pose proof (beside_cases _ _ _ _ Hb) as Hc. destruct (FRAME_SAMPLES <=? available (rc_mixer r))%nat eqn:Ea.
  - pose proof (read_frame_ok (iter (mx_tracks (rc_mixer r))) (rc_mixer r)) as Hl.
    destruct (read_frame _ _ _) as [fr m] eqn:Er. cbn [fst] in Hl. apply bind_ok in E as (r1 & E1 & E2).
    pose proof (remix_beside m (rc_decoders r) _ _ _ _ Hb) as Hb1.
    destruct (write_frame_beside _ _ path fr _ _ r1 Hb1 (remix_wav_of _ _ _ _ Hw) Hl E1) as [Hb2 Hw2].
    destruct (IH _ _ _ Hb2 Hw2 E2) as (frames' & Hb3 & Hw3). exists frames'. split; [|done].
    destruct Hc as [[x ->]|(rm & -> & Em & Ed)]; [done|]. cbn [mbind Result_bind Recorder.drain] in *.
    rewrite Em, Ea, Er. unfold remix in Hb3. by rewrite Ed.
  - injection E as <-. exists frames. split; [|done].
    destruct Hc as [[x ->]|(rm & -> & Em & Ed)]; [done|]. cbn [mbind Result_bind Recorder.drain] in *. by rewrite Em, Ea.
Qed.

Lemma on_packet_beside e0 frames path p res r r' : beside e0 frames res r -> wav_of frames r -> on_packet path p r = Ok r' ->
  exists frames', beside e0 frames' (res ≫= on_packet path p) r' /\ wav_of frames' r'.
Proof.
  intros Hb Hw E. pose proof (beside_cases _ _ _ _ Hb) as Hc. unfold Recorder.on_packet in E.
  destruct (decode (default decoder_new (rc_decoders r !! pk_track_cid p)) (pk_payload p)) as [[pcm|x] d'] eqn:Ed.
  - destruct (prune_stale _ _) as [stale m] eqn:Es.
    pose proof (remix_beside m (foldr delete (<[pk_track_cid p:=d']> (rc_decoders r)) stale) _ _ _ _ Hb) as Hb1.
    destruct (drain_beside _ _ _ path _ _ r' Hb1 (remix_wav_of _ _ _ _ Hw) E) as (frames' & Hb2 & Hw2).
    exists frames'. split; [|done]. destruct Hc as [[y ->]|(rm & -> & Em & Edc)]; [done|].
    cbn [mbind Result_bind] in *. unfold Recorder.on_packet. rewrite Em, Edc, Ed, Es. exact Hb2.
  - injection E as <-. exists frames. split; [|done].
    pose proof (remix_beside (rc_mixer r) (<[pk_track_cid p:=d']> (rc_decoders r)) _ _ _ _ Hb) as Hb1.
    destruct Hc as [[y ->]|(rm & -> & Em & Edc)]; [done|].
    cbn [mbind Result_bind] in *. unfold Recorder.on_packet. rewrite Em, Edc, Ed. exact Hb1.
Qed.

Lemma on_packets_beside e0 frames path ps res r r' : beside e0 frames res r -> wav_of frames r -> on_packets path ps r = Ok r' ->
  exists frames', beside e0 frames' (res ≫= on_packets path ps) r' /\ wav_of frames' r'.
Proof.
  revert frames res r. induction ps as [|p ps IH]; intros frames res r Hb Hw E; cbn [Recorder.on_packets] in E.
  - injection E as <-. exists frames. split; [|done]. by destruct (beside_cases _ _ _ _ Hb) as [[x ->]|(rm & -> & _)].
  - apply bind_ok in E as (r1 & E1 & E2). destruct (on_packet_beside _ _ path p _ _ _ Hb Hw E1) as (f1 & Hb1 & Hw1).
    destruct (IH _ _ _ Hb1 Hw1 E2) as (f2 & Hb2 & Hw2). exists f2. split; [|done]. by destruct res.
Qed.

Lemma stop_beside e0 frames path res r : beside e0 frames res r -> rc_frames r = Z.of_nat (length frames) ->
  (res ≫= (fun r => r ← stop encoder_flush path r; Ok (match rc_wav r with Some w => f_bytes (wv_writer w) | None => f_bytes (rc_file r) end, rc_frames r)))
  = mp3_file e0 frames.
Proof.
  intros Hb Hn. unfold beside in Hb. unfold mp3_file. destruct (encode_all e0 frames) as [[out e]|x]; [|by rewrite Hb].
  destruct Hb as [pos ->]. cbn [map_err mbind Result_bind]. unfold stop. cbn [rc_wav rc_mp3 rc_file rc_frames mbind Result_bind].
  destruct (encoder_flush e) as [tail|x]; cbn [map_err mbind Result_bind]; [|done].
  case_bool_decide as Ht; [subst tail; cbn; by rewrite app_nil_r, Hn|].
  rewrite append_ok by done. cbn. by rewrite Hn.
Qed.

Lemma frames_in_i16 frames : Forall frame_ok frames -> Forall in_i16 (mjoin frames).
Proof. induction 1 as [|f frames [_ Hf] _ IH]; cbn; [constructor|by apply Forall_app_2]. Qed.

(** Both recordings of the same packets. *)
Lemma mp3_run path b e0 ps : encoder_new b = Ok e0 -> Z.of_nat (length ps) < 2 ^ 31 ->
  exists frames r0 r, Forall frame_ok frames /\ run_recording path FmtMp3 b ps [] = mp3_file e0 frames /\
    start encoder_new path FmtWav b [] = Ok r0 /\ on_packets path ps r0 = Ok r /\ wav_of frames r.
Proof using All.
  intros He Hps. destruct (start_recorded (Decoder := Decoder) encoder_new path b) as (r0 & E0 & Hr0 & Em & Ed & Ef).
  destruct (on_packets_inv decoder_new decode encode iter iter_perm decode_i16 path ps 0 r0) as (r & E & [_ _ _ _]);
    [by apply recorded_inv|done|].
  assert (beside e0 [] (start encoder_new path FmtMp3 b []) r0) as Hb0.
  { unfold beside. cbn [encode_all]. exists 0%nat. rewrite Em, Ed, Ef. unfold start.
    rewrite (bool_decide_false (FmtMp3 = FmtWav)), (bool_decide_true (FmtMp3 = FmtMp3)), He by done. done. }
  destruct (on_packets_beside e0 [] path ps _ r0 r Hb0) as (frames & Hb & Hr & Hn & Hl);
    [split_and!; [done|by rewrite Ef|constructor]|done|].
  exists frames, r0, r. split_and!; try done. rewrite <- (stop_beside _ _ path _ _ Hb Hn).
  unfold Recorder.run_recording. by destruct (start _ _ FmtMp3 _ _).
Qed.

(** C37: MP3 and WAV recordings hold the same audio.  Whatever packets arrive, there is one
    list of 20 ms frames of 16-bit samples such that recording the packets as MP3 is running
    these frames through the encoder, in order, and appending its tail (or failing with the
    encoder's first error), and recording them as WAV gives a file with exactly these
    frames. *)
Theorem mp3_recording_encodes path b e0 ps : encoder_new b = Ok e0 -> Z.of_nat (length ps) < 2 ^ 31 ->
  exists frames, Forall frame_ok frames /\
    run_recording path FmtMp3 b ps [] = mp3_file e0 frames /\
    (1920 * Z.of_nat (length frames) < 2 ^ 32 - 36 -> exists bytes,
      run_recording path FmtWav b ps [] = Ok (bytes, Z.of_nat (length frames)) /\
      read_wav bytes = Some (mkWave 1 SAMPLE_RATE (mjoin frames))).
Proof using All.
  intros He Hps. destruct (mp3_run path b e0 ps He Hps) as (frames & r0 & r & Hl & Hm & E0 & E & Hr & Hn & _).
  exists frames. split_and!; [done|done|]. intros Hsize.
  destruct (stop_recorded encoder_flush path r (mjoin frames) Hr) as (r' & w & Es & Ew & Ef' & Hread).
  { by apply frames_in_i16. }
  { rewrite (mjoin_length_const _ FRAME_SAMPLES) by (eapply Forall_impl; [|exact Hl]; by intros f [? _]). unfold FRAME_SAMPLES. lia. }
  exists (f_bytes (wv_writer w)). unfold Recorder.run_recording. rewrite E0. cbn [mbind Result_bind].
  rewrite E. cbn [mbind Result_bind]. rewrite Es. cbn [mbind Result_bind]. by rewrite Ew, Ef', Hn.
Qed.
End Mp3Recording.

(** An encoder that keeps every 480th sample, its number of frames and a tail. *)
Definition thin_encode (n : Z) (f : list Z) : Result string (list Z) * Z := (Ok [default 0 (f !! 0%nat); default 0 (f !! 480%nat)], n + 1).

Lemma mp3_recording_encodes_witness : exists frames, Forall frame_ok frames /\
  run_recording () pass (fun _ => Ok 0) thin_encode (fun n => Ok [n]) keys "/out/EG_1.mp3" FmtMp3 64 two_speakers [] =
    mp3_file thin_encode (fun n => Ok [n]) 0 frames /\
  (1920 * Z.of_nat (length frames) < 2 ^ 32 - 36 -> exists bytes,
    run_recording () pass (fun _ => Ok 0) thin_encode (fun n => Ok [n]) keys "/out/EG_1.mp3" FmtWav 64 two_speakers [] =
      Ok (bytes, Z.of_nat (length frames)) /\
    read_wav bytes = Some (mkWave 1 SAMPLE_RATE (mjoin frames))).
Proof.
  apply (mp3_recording_encodes () pass (fun _ => Ok 0) thin_encode (fun n => Ok [n]) keys (fun _ => reflexivity _) pass_i16
    "/out/EG_1.mp3" 64 0 two_speakers).
  - reflexivity.
  - vm_compute. reflexivity.
Defined.

(** * The recorder with its encoder *)

Section LameRecording.
Context {Decoder Payload G : Type}.
Context (decoder_new : Decoder) (decode : Decoder -> Payload -> Result string (list Z) * Decoder).
Context (iter : gmap string (list Z) -> list string).
Hypothesis iter_perm : forall tracks, iter tracks ≡ₚ keys tracks.
Hypothesis decode_i16 : forall d p pcm d', decode d p = (Ok pcm, d') -> Forall in_i16 pcm.
Context (lame_init : option G) (lame_set_in_samplerate lame_set_num_channels lame_set_brate : G -> Z -> Z * G).
Context (lame_init_params : G -> Z * G).
Context (lame_encode_buffer : G -> list Z -> list Z -> Z -> Z -> Z * list Z * G).
Context (lame_encode_buffer_interleaved : G -> list Z -> Z -> Z -> Z * list Z * G).
Context (lame_encode_flush : G -> Z -> Z * list Z * G).
Context (ready : G -> Prop)
  (laws : LameLaws lame_init_params lame_encode_buffer lame_encode_buffer_interleaved lame_encode_flush ready).
Notation mp3_encode := (mp3_encode lame_encode_buffer lame_encode_buffer_interleaved).
Notation mp3_flush := (mp3_flush lame_encode_flush).

(** The encoder as the recording loop uses it: one channel; a panic ends the recording. *)
Definition recorder_new (bitrate : Z) : Result string (@Mp3Encoder G) :=
  Mp3Encoder_new lame_init lame_set_in_samplerate lame_set_num_channels lame_set_brate lame_init_params 1 bitrate.
Definition recorder_encode (e : Mp3Encoder) (pcm : list Z) : Result string (list Z) * Mp3Encoder :=
  default (Err "panic", e) (mp3_encode e pcm).
Definition recorder_flush (e : Mp3Encoder) : Result string (list Z) := default (Err "panic") (fst <$> mp3_flush e).

(** The errors that remain: the library ran out of memory, or reports an internal problem. *)
Definition lame_failure (what x : string) : Prop :=
  exists rc, x = "libmp3lame " +:+ what +:+ " error " +:+ fmt_dec rc /\ rc < 0 /\ rc <> -1 /\ rc <> -3.

Lemma recorder_encode_ok e f : enc_ok ready e -> me_channels e = 1 -> frame_ok f ->
  let '(res, e') := recorder_encode e f in
  enc_ok ready e' /\ me_channels e' = 1 /\ match res with Ok out => True | Err x => lame_failure "encode" x end.
Proof using laws.
  intros He Hc [Hl _]. assert (f <> []) as Hne by (intros ->; discriminate).
  destruct (mp3_encode_delivered lame_init_params lame_encode_buffer lame_encode_buffer_interleaved lame_encode_flush ready laws e f)
    as (res & e' & He' & H); [done|done|rewrite Hc, Hl; by vm_compute|].
  assert (forall r, mp3_encode e f = Some (r, e') -> me_channels e' = 1) as Hch.
  { intros r. unfold Mp3.mp3_encode, answer. rewrite bool_decide_false, Hc by done. cbn [Z.eqb Pos.eqb].
    destruct (lame_encode_buffer _ _ _ _ _) as [[rc w] g]. destruct (rc <? 0); [by intros [= _ <-]|].
    destruct (slice_to _ _); cbn; [by intros [= _ <-]|done]. }
  unfold recorder_encode. destruct H as [[E _]|(rc & E & Hrc)]; rewrite E; cbn [default]; (split; [done|]);
    (split; [by eapply Hch|]); [done|]. by exists rc.
Qed.

Lemma encode_all_safe frames e : enc_ok ready e -> me_channels e = 1 -> Forall frame_ok frames ->
  match encode_all recorder_encode e frames with
  | Ok (_, e') => enc_ok ready e'
  | Err x => lame_failure "encode" x
  end.
Proof using laws.
  intros He Hc Hf. revert e He Hc. induction Hf as [|f frames Hok _ IH]; intros e He Hc; cbn [encode_all]; [done|].
  pose proof (recorder_encode_ok e f He Hc Hok) as H. destruct (recorder_encode e f) as [[out|x] e']; cbn [mbind Result_bind]; [|apply H].
  destruct H as (He' & Hc' & _). specialize (IH e' He' Hc'). by destruct (encode_all _ _ _) as [[rest e'']|x].
Qed.

(** MP3 recordings fail only when libmp3lame does.  Whatever packets arrive, the output buffer
    is always large enough, the slice of it is in range, and an MP3 recording whose file can
    be written ends with a file or with a failure inside the library (memory, psychoacoustics),
    never with a panic or the errors for small buffers and missing initialisation. *)
Theorem mp3_recording_safe path b e0 ps : recorder_new b = Ok e0 -> Z.of_nat (length ps) < 2 ^ 31 ->
  match run_recording decoder_new decode recorder_new recorder_encode recorder_flush iter path FmtMp3 b ps [] with
  | Ok _ => True
  | Err x => (exists y, x = "mp3 encode: " +:+ y /\ lame_failure "encode" y) \/
             (exists y, x = "mp3 flush: " +:+ y /\ lame_failure "flush" y)
  end.
Proof using All.
  intros He Hps. destruct (new_ok _ _ _ _ _ _ _ _ _ laws _ _ _ He) as [Hok Hc].
  destruct (mp3_run decoder_new decode recorder_new recorder_encode recorder_flush iter iter_perm decode_i16 path b e0 ps He Hps)
    as (frames & _ & _ & Hf & -> & _). unfold mp3_file.
  pose proof (encode_all_safe frames e0 Hok Hc Hf) as H.
  destruct (encode_all recorder_encode e0 frames) as [[out e]|x]; cbn [map_err mbind Result_bind]; [|left; eauto].
  destruct (mp3_flush_delivered _ _ _ _ _ laws e H) as (e' & _ & [[E _]|(rc & E & Hrc)]);
    unfold recorder_flush; rewrite E; cbn; [done|right]. eexists. split; [done|]. by exists rc.
Qed.
End LameRecording.

(** A library whose frames are one byte each. *)
Definition toy_encode (g : Z) (l r : list Z) (n size : Z) : Z * list Z * Z := (1, [n mod 256], g + 1).
Definition toy_interleaved (g : Z) (l : list Z) (n size : Z) : Z * list Z * Z := (1, [n mod 256], g + 1).
Definition toy_flush (g size : Z) : Z * list Z * Z := if 0 <? size then (1, [g mod 256], g) else (-1, [], g).

(** The toy library obeys the laws: a state counts the frames. *)
Lemma toy_laws : LameLaws (fun g => (0, g)) (fun g l r n size => if 0 <? size then toy_encode g l r n size else (-1, [], g))
  (fun g l n size => if 0 <? size then toy_interleaved g l n size else (-1, [], g))
  (fun g size => if 0 <? size then toy_flush g size else (-2, [], g)) (fun _ => True).
Proof.
  split; [done|..]; intros.
  all: destruct (Z.ltb_spec 0 size) as [Hs|Hs]; unfold toy_encode, toy_interleaved, toy_flush, lame_answer; rewrite ?(proj2 (Z.ltb_lt _ _) Hs).
  all: cbn [length]; split_and!; try lia; try done; try (intros ?%Z.leb_le; lia).
Qed.

Lemma mp3_recording_safe_witness :
  match run_recording () pass
    (recorder_new (Some 0) (fun g _ => (0, g)) (fun g _ => (0, g)) (fun g _ => (0, g)) (fun g => (0, g)))
    (recorder_encode (fun g l r n size => if 0 <? size then toy_encode g l r n size else (-1, [], g))
      (fun g l n size => if 0 <? size then toy_interleaved g l n size else (-1, [], g)))
    (recorder_flush (fun g size => if 0 <? size then toy_flush g size else (-2, [], g)))
    keys "/out/EG_1.mp3" FmtMp3 64 two_speakers [] with
  | Ok _ => True
  | Err x => (exists y, x = "mp3 encode: " +:+ y /\ lame_failure "encode" y) \/
             (exists y, x = "mp3 flush: " +:+ y /\ lame_failure "flush" y)
  end.
Proof.
  eapply (mp3_recording_safe () pass keys (fun _ => reflexivity _) pass_i16 (Some 0) (fun g _ => (0, g)) (fun g _ => (0, g))
    (fun g _ => (0, g)) (fun g => (0, g)) _ _ _ _ toy_laws "/out/EG_1.mp3" 64 _ two_speakers).
  - reflexivity.
  - vm_compute. reflexivity.
Defined.
