(* ===== verification/EgressClient.v ===== *)
(** The recorder as a room participant ([crates/lk-egress/src/client.rs]): its join token, the
    connection it opens, and its signaling loop with the tasks that feed it.

    The loop is a transition function on [Client]; what the socket and the peer connection answer
    are arguments of the inputs.  The queue of outgoing requests is bounded, and the loop is its
    only reader. *)
From Stdlib Require Import ZArith Lia Ascii String.
From stdpp Require Import base gmap strings list option.
From S2P Require Import Prelude RustStr Core Auth Proto Participant Room Signal Agent Twirp RoomService AgentService Http.

Open Scope string_scope.
Open Scope list_scope.
Open Scope Z_scope.

(** * The join token *)

Definition egress_claims (api_key identity room : string) (now : Z) : Value :=
  VObj [("iss", VStr api_key); ("sub", VStr identity); ("iat", VInt now); ("nbf", VInt (now - 5)); ("exp", VInt (now + 24 * 3600));
        ("kind", VStr "EGRESS");
        ("video", VObj [("roomJoin", VBool true); ("room", VStr room); ("canPublish", VBool false); ("canSubscribe", VBool true);
                        ("canPublishData", VBool false); ("hidden", VBool true); ("recorder", VBool true)])].

(** [join_token]; [jwt_encode] signs with HS256. *)
Definition join_token (jwt_encode : string -> Value -> Result string string) (api_key api_secret identity room : string) (now : Z) :
    Result string string :=
  jwt_encode api_secret (egress_claims api_key identity room now).

(** The URL of the signaling socket, and its query as the server reads it. *)
Definition connect_url (ws_url token : string) : string :=
  ws_url +:+ "/rtc?access_token=" +:+ token +:+ "&publish=0&auto_subscribe=1&subscriber=1".
Definition connect_query (token : string) : gmap string string :=
  <["access_token" := token]> (<["publish" := "0"]> (<["auto_subscribe" := "1"]> {["subscriber" := "1"]})).

(** * Before the loop *)

(** A frame of the socket as the client sees it: a response, something that does not decode, or
    a control frame. *)
Inductive ClientFrame := CfResponse (text : bool) (resp : ServerSignal) | CfBad (text : bool) (e : string) | CfControl
(** [lk::SignalResponse], as far as the client looks at it. *)
with ServerSignal := SvJoin | SvOffer (sdp : string) | SvTrickle (candidate_init : string) | SvOther.

(** Reading until the join response: the frames left; [Err] in the list is an error of the
    socket. *)
Fixpoint await_join (frames : list (Result string ClientFrame)) : Result string (list (Result string ClientFrame)) :=
  match frames with
  | [] => Err "signaling closed"
  | Err e :: _ | Ok (CfBad _ e) :: _ => Err e
  | Ok (CfResponse _ SvJoin) :: rest => Ok rest
  | Ok _ :: rest => await_join rest
  end.

(** * The signaling loop *)

Inductive ClientRequest := RqPing (timestamp : Z) | RqTrickle (candidate : string) | RqAnswer (sdp : string).

(** Calls on the peer connection. *)
Inductive PcCall := PNew (pc : loc) | PSetRemote (pc : loc) (sdp : string) | PCreateAnswer (pc : loc) | PSetLocal (pc : loc) (sdp : string)
| PAddIce (pc : loc) (init : string).

(** Where the loop is: between turns, ended, or waiting for room in the queue for an answer. *)
Inductive Status := Running | Stopped | Blocked (answer : string).

Record Client := mkClient {
  cl_status : Status;
  cl_pc : option loc;
  cl_json : bool;
  cl_queue : list ClientRequest;
  cl_sent : list (ClientRequest * bool);
  cl_calls : list PcCall;
  cl_receiver : bool
}.
Definition client_start : Client := mkClient Running None true [] [] [] true.
Definition OUT_CAPACITY : nat := 64.

Definition set_status (s : Status) (c : Client) : Client :=
  mkClient s (cl_pc c) (cl_json c) (cl_queue c) (cl_sent c) (cl_calls c) (cl_receiver c).
Definition set_json (j : bool) (c : Client) : Client :=
  mkClient (cl_status c) (cl_pc c) j (cl_queue c) (cl_sent c) (cl_calls c) (cl_receiver c).
Definition set_pc (pc : loc) (c : Client) : Client :=
  mkClient (cl_status c) (Some pc) (cl_json c) (cl_queue c) (cl_sent c) (cl_calls c) (cl_receiver c).
Definition set_queue (q : list ClientRequest) (c : Client) : Client :=
  mkClient (cl_status c) (cl_pc c) (cl_json c) q (cl_sent c) (cl_calls c) (cl_receiver c).
Definition log_call (k : PcCall) (c : Client) : Client :=
  mkClient (cl_status c) (cl_pc c) (cl_json c) (cl_queue c) (cl_sent c) (cl_calls c ++ [k]) (cl_receiver c).

(** A full channel: [try_send] drops, [send] waits. *)
Definition has_room (c : Client) : bool := (length (cl_queue c) <? OUT_CAPACITY)%nat.

(** What answering an offer involves. *)
Record OfferDraws := mkOfferDraws { od_pc : option loc; od_remote : bool; od_answer : option string; od_local : bool }.

(** The connection for an offer: created once. *)
Definition ensure_pc (d : OfferDraws) (c : Client) : option (loc * Client) :=
  match cl_pc c with
  | Some pc => Some (pc, c)
  | None => pc ← od_pc d; Some (pc, log_call (PNew pc) (set_pc pc c))
  end.

(** [out_tx.send(answer).await] from inside the loop. *)
Definition queue_answer (sdp : string) (c : Client) : Client :=
  if has_room c then set_queue (cl_queue c ++ [RqAnswer sdp]) c else set_status (Blocked sdp) c.

Definition on_offer (sdp : string) (d : OfferDraws) (c : Client) : Client :=
  match ensure_pc d c with
  | None => set_status Stopped c
  | Some (pc, c) =>
      let c := log_call (PSetRemote pc sdp) c in
      if negb (od_remote d) then set_status Stopped c
      else
        let c := log_call (PCreateAnswer pc) c in
        match od_answer d with
        | None => set_status Stopped c
        | Some answer =>
            if negb (od_local d) then set_status Stopped c
            else queue_answer answer (log_call (PSetLocal pc answer) c)
        end
  end.

(** [parsed] is the decoded candidate. *)
Definition on_trickle (parsed : option string) (c : Client) : Client :=
  match cl_pc c, parsed with
  | Some pc, Some init => log_call (PAddIce pc init) c
  | _, _ => c
  end.

(** What happens to a client: its loop takes a request or a frame or finds the socket gone; the
    keep-alive task (which waits while the queue is full); a candidate of the connection; the end
    of the receiver of its audio. *)
Inductive ClientInput :=
| InSend (ok : bool)
| InFrame (f : ClientFrame) (d : OfferDraws) (parsed : option string)
| InGone
| InKeepAlive (now : Z)
| InCandidate (candidate : string)
| InReceiverDropped.

Definition client_input (i : ClientInput) (c : Client) : Client :=
  match i with
  | InKeepAlive now => if has_room c then set_queue (cl_queue c ++ [RqPing (now * 1000)]) c else c
  | InCandidate candidate => if has_room c then set_queue (cl_queue c ++ [RqTrickle candidate]) c else c
  | InReceiverDropped => mkClient (cl_status c) (cl_pc c) (cl_json c) (cl_queue c) (cl_sent c) (cl_calls c) false
  | InSend ok =>
      match cl_status c, cl_queue c with
      | Running, req :: q =>
          if ok then mkClient Running (cl_pc c) (cl_json c) q (cl_sent c ++ [(req, cl_json c)]) (cl_calls c) (cl_receiver c)
          else set_status Stopped (set_queue q c)
      | _, _ => c
      end
  | InFrame f d parsed =>
      match cl_status c with
      | Running =>
          match f with
          | CfControl => set_json false c
          | CfBad text _ => set_json text c
          | CfResponse text resp =>
              let c := set_json text c in
              match resp with
              | SvOffer sdp => on_offer sdp d c
              | SvTrickle _ => on_trickle parsed c
              | _ => c
              end
          end
      | _ => c
      end
  | InGone => match cl_status c with Running => set_status Stopped c | _ => c end
  end.

(** [connect] up to the signaling loop: [dial] is what the socket answers within ten seconds,
    [None] when it does not.  The loop starts with the frames after the join response. *)
Definition connect (jwt_encode : string -> Value -> Result string string) (dial : string -> option (Result string (list (Result string ClientFrame))))
    (api_key api_secret ws_url room identity : string) (now : Z) : Result string (Client * list (Result string ClientFrame)) :=
  token ← join_token jwt_encode api_key api_secret identity room now;
  let url := connect_url ws_url token in
  frames ← match dial url with
           | None => Err ("ws connect timed out: " +:+ url)
           | Some res => map_err (fun e => "ws connect " +:+ url +:+ ": " +:+ e) res
           end;
  rest ← await_join frames;
  Ok (client_start, rest).

Definition client_run (ins : list ClientInput) (c : Client) : Client := foldl (fun c i => client_input i c) c ins.

(** A recorder that starts listening has been admitted: its token was signed, the socket opened
    in time, and a join response came before any frame that does not decode. *)
Lemma connect_ok jwt_encode dial key secret ws_url room identity now c rest :
  connect jwt_encode dial key secret ws_url room identity now = Ok (c, rest) <->
  c = client_start /\ exists token before text,
    join_token jwt_encode key secret identity room now = Ok token /\
    dial (connect_url ws_url token) = Some (Ok (before ++ Ok (CfResponse text SvJoin) :: rest)) /\
    Forall (fun f => match f with Ok CfControl => True | Ok (CfResponse _ r) => r <> SvJoin | _ => False end) before.
Proof.
  unfold connect. split.
  - intros (token & Ht & (frames & Hf & (r & Hr & [= <- ->])%bind_ok)%bind_ok)%bind_ok. split; [done|].
    destruct (dial _) as [res|] eqn:Ed; [|done]. apply map_err_ok in Hf as ->.
    enough (exists before text, frames = before ++ Ok (CfResponse text SvJoin) :: rest /\
      Forall (fun f => match f with Ok CfControl => True | Ok (CfResponse _ r) => r <> SvJoin | _ => False end) before)
      as (before & text & -> & Hb) by (exists token, before, text; eauto).
    clear Ed Ht. revert Hr. induction frames as [|f frames IH]; [done|]. cbn [await_join].
    destruct f as [[text resp|text e|]|e]; try done.
    + destruct resp as [|sdp|ci|]; [intros [= ->]; by exists [], text|..]; intros Hr; destruct (IH Hr) as (b & t & -> & Hb);
        eexists (_ :: b), t; (split; [reflexivity|by constructor]).
    + intros Hr. destruct (IH Hr) as (b & t & -> & Hb). exists (Ok CfControl :: b), t. split; [done|]. by apply list.Forall_cons.
  - intros (-> & token & before & text & Ht & Hd & Hb). rewrite Ht. cbn [mbind Result_bind]. rewrite Hd. cbn [map_err mbind Result_bind].
    assert (await_join (before ++ Ok (CfResponse text SvJoin) :: rest) = Ok rest) as ->; [|done]. clear Hd.
    induction Hb as [|f before Hf _ IH]; [done|]. destruct f as [[t resp|t e|]|e]; try done. by destruct resp.
Qed.

(** * The token is good *)

Section RecorderToken.
Context (b64_decode : string -> Result string (list Z)) (json_from_slice : list Z -> Result string Value).
Context (jwt_decode : string -> string -> Validation -> Result string Value) (jwt_encode : string -> Value -> Result string string).
Context (hs256_ok : string -> string -> bool) (claims_valid : Validation -> Value -> bool).
(** The time of the verification, in seconds. *)
Variable at_time : Z.
(** The contract of the JWT library: decoding checks signature and claims and returns the payload,
    encoding signs the claims, which are valid for their issuer between not-before and expiry. *)
Hypothesis jwt_spec : forall token secret v claims,
  jwt_decode token secret v = Ok claims <->
  hs256_ok token secret = true /\ decode_payload_unverified b64_decode json_from_slice token = Ok claims /\
  claims_valid v claims = true.
Hypothesis encode_spec : forall secret claims token, jwt_encode secret claims = Ok token ->
  hs256_ok token secret = true /\ decode_payload_unverified b64_decode json_from_slice token = Ok claims.
Hypothesis valid_spec : forall v claims exp nbf,
  vget "iss" claims = Some (VStr (v_issuer v)) -> vget "exp" claims = Some (VInt exp) -> vget "nbf" claims = Some (VInt nbf) ->
  at_time < exp + v_leeway v -> nbf <= at_time + v_leeway v -> claims_valid v claims = true.

(** The recorder's token admits it as a silent, hidden participant.  The token verifies for a
    day under the API key it was signed with; it passes the checks of a join with the connection's
    own parameters, as an egress participant that does not keep a room open; its permission lets
    it subscribe but neither publish nor send data, and hides it; it carries no other grant. *)
Theorem recorder_token_admits keys key secret identity room now token :
  join_token jwt_encode key secret identity room now = Ok token ->
  keys !! key = Some secret -> now - 65 <= at_time < now + 24 * 3600 -> room <> "" -> identity <> "" ->
  exists t params, verify b64_decode json_from_slice jwt_decode keys token = Ok t /\
    build_session_params (fun _ => None) (fun _ => None) (fun _ _ => None) (fun _ => None) (connect_query token) false = Ok params /\
    sp_reconnect params = false /\ sp_auto_subscribe params = true /\ check_join t params = Ok room /\
    tk_identity t = identity /\ participant_kind_from_token t = Egress /\ is_dependent (participant_kind_from_token t) = true /\
    permission_from_grant (video t) = mkPermission true false false [] true true false false false false /\
    room_admin (video t) = false /\ room_create (video t) = false /\ room_list (video t) = false /\
    room_record (video t) = false /\ sip_admin (sip t) = false /\ sip_call (sip t) = false.
Proof.
  intros Hb Hk Ht Hr Hi. destruct (encode_spec _ _ _ Hb) as [Hsig Hpay].
  set (claims := egress_claims key identity room now) in *.
  exists (parse_claims key claims), (mkParams false "" true false "" ∅ []). split_and!; try reflexivity.
  - assert (jwt_decode token secret (validation_for key) = Ok claims) as Hj.
    { apply jwt_spec. split_and!; [done|done|]. eapply valid_spec; try reflexivity; cbn; lia. }
    unfold verify. rewrite Hpay. cbn. unfold get_secret. rewrite Hk. cbn. by rewrite Hj.
  - unfold check_join.
    change (tk_identity (parse_claims key claims)) with identity. change (vg_room (video (parse_claims key claims))) with room.
    apply String.eqb_neq in Hr as ->, Hi as ->. reflexivity.
Qed.
End RecorderToken.

(** * Offers are answered on one connection *)

Definition answers (l : list ClientRequest) : list string :=
  omap (fun r => match r with RqAnswer sdp => Some sdp | _ => None end) l.
Definition locals (l : list PcCall) : list string :=
  omap (fun k => match k with PSetLocal _ sdp => Some sdp | _ => None end) l.
Definition call_pc (k : PcCall) : loc :=
  match k with PNew pc | PSetRemote pc _ | PCreateAnswer pc | PSetLocal pc _ | PAddIce pc _ => pc end.
Definition is_new (k : PcCall) : bool := match k with PNew _ => true | _ => false end.

Lemma answers_app a b : answers (a ++ b) = answers a ++ answers b.
Proof. unfold answers. apply omap_app. Qed.
Lemma locals_app a b : locals (a ++ b) = locals a ++ locals b.
Proof. unfold locals. apply omap_app. Qed.

(** Every call is on the connection, which was created once. *)
Definition one_pc (c : Client) : Prop :=
  match cl_pc c with
  | Some pc => Forall (fun k => call_pc k = pc) (cl_calls c) /\ length (filter (fun k => is_new k = true) (cl_calls c)) = 1%nat
  | None => cl_calls c = []
  end.
Definition waiting (s : Status) : list string := match s with Blocked a => [a] | _ => [] end.

Record client_ok (c : Client) : Prop := {
  ck_pc : one_pc c;
  ck_queue : (length (cl_queue c) <= OUT_CAPACITY)%nat;
  ck_answers : cl_status c <> Stopped ->
    answers (cl_sent c).*1 ++ answers (cl_queue c) ++ waiting (cl_status c) = locals (cl_calls c);
  ck_prefix : answers (cl_sent c).*1 `prefix_of` locals (cl_calls c)
}.

Lemma client_start_ok : client_ok client_start.
Proof. split; [done|cbn; lia|done|done]. Qed.

Lemma log_one_pc c k pc : cl_pc c = Some pc -> call_pc k = pc -> is_new k = false -> one_pc c -> one_pc (log_call k c).
Proof.
  unfold one_pc. cbn [cl_pc log_call cl_calls]. intros -> Hk Hn [H1 H2]. split.
  - apply list.Forall_app. split; [done|]. by apply list.Forall_singleton.
  - rewrite list.filter_app, length_app, H2, filter_cons, decide_False by (by rewrite Hn). done.
Qed.

(** Logging a call that sets no local description changes nothing else. *)
Lemma log_ok c k pc : cl_pc c = Some pc -> call_pc k = pc -> is_new k = false -> locals [k] = [] -> client_ok c -> client_ok (log_call k c).
Proof.
  intros Hp Hk Hn Hl [A B C D]. split; cbn [cl_status cl_pc cl_queue cl_sent cl_calls log_call].
  - by apply (log_one_pc c k pc).
  - done.
  - intros Hs. rewrite locals_app, Hl, app_nil_r. by apply C.
  - rewrite locals_app, Hl, app_nil_r. done.
Qed.
Lemma stop_ok c : client_ok c -> client_ok (set_status Stopped c).
Proof. intros [A B C D]. by split. Qed.
Lemma json_ok j c : client_ok c -> client_ok (set_json j c).
Proof. intros [A B C D]. by split. Qed.
Lemma push_ok c r : client_ok c -> has_room c = true -> answers [r] = [] -> client_ok (set_queue (cl_queue c ++ [r]) c).
Proof.
  intros [A B C D] Hr Ha. unfold has_room in Hr. apply Nat.ltb_lt in Hr. split; cbn [cl_status cl_pc cl_queue cl_sent cl_calls set_queue].
  - exact A.
  - rewrite length_app. cbn. lia.
  - intros Hs. rewrite answers_app, Ha, app_nil_r. by apply C.
  - exact D.
Qed.

Lemma ensure_pc_ok d c pc c' : cl_status c = Running -> ensure_pc d c = Some (pc, c') -> client_ok c ->
  client_ok c' /\ cl_pc c' = Some pc /\ cl_status c' = Running.
Proof.
  intros Hs. unfold ensure_pc. destruct (cl_pc c) as [pc0|] eqn:Hp.
  - intros [= <- <-] H. by rewrite Hp.
  - destruct (od_pc d) as [pc0|]; [|done]. cbn. intros [= <- <-] [A B C D]. unfold one_pc in A. rewrite Hp in A.
    split; [|done]. split; cbn [cl_status cl_pc cl_queue cl_sent cl_calls log_call set_pc] in *.
    + unfold one_pc. cbn. rewrite A. cbn. split; [by apply list.Forall_singleton|done].
    + done.
    + intros _. rewrite A. cbn. rewrite C by (by rewrite Hs). by rewrite A.
    + by rewrite A in *.
Qed.

Lemma answer_ok c pc sdp : client_ok c -> cl_pc c = Some pc -> cl_status c = Running ->
  client_ok (queue_answer sdp (log_call (PSetLocal pc sdp) c)).
Proof.
  intros [A B C D] Hp Hs. rewrite Hs in C. cbn [waiting] in C. rewrite app_nil_r in C. specialize (C ltac:(done)).
  pose proof (log_one_pc c (PSetLocal pc sdp) pc Hp eq_refl eq_refl A) as A'.
  unfold queue_answer, has_room. cbn [cl_queue log_call]. destruct (Nat.ltb_spec (length (cl_queue c)) OUT_CAPACITY).
  - split; cbn [cl_status cl_pc cl_queue cl_sent cl_calls log_call set_queue].
    + exact A'.
    + rewrite length_app. cbn. lia.
    + intros _. rewrite Hs, answers_app, locals_app, <- C. cbn. by rewrite app_nil_r, <- app_assoc.
    + rewrite locals_app. by apply prefix_app_r.
  - split; cbn [cl_status cl_pc cl_queue cl_sent cl_calls log_call set_status].
    + exact A'.
    + done.
    + intros _. cbn [waiting]. rewrite locals_app, <- C. by rewrite <- app_assoc.
    + rewrite locals_app. by apply prefix_app_r.
Qed.

Lemma on_offer_ok sdp d c : client_ok c -> cl_status c = Running -> client_ok (on_offer sdp d c).
Proof.
  intros H Hs. unfold on_offer. destruct (ensure_pc d c) as [[pc c1]|] eqn:E; [|by apply stop_ok].
  destruct (ensure_pc_ok d c pc c1 Hs E H) as (H1 & Hp & Hs1). cbv zeta.
  assert (client_ok (log_call (PSetRemote pc sdp) c1)) as H2 by (by apply (log_ok _ _ pc)).
  destruct (negb (od_remote d)); [by apply stop_ok|].
  assert (client_ok (log_call (PCreateAnswer pc) (log_call (PSetRemote pc sdp) c1))) as H3 by (by apply (log_ok _ _ pc)).
  destruct (od_answer d) as [answer|]; [|by apply stop_ok]. destruct (negb (od_local d)); [by apply stop_ok|].
  by apply answer_ok.
Qed.

Lemma client_input_ok i c : client_ok c -> client_ok (client_input i c).
Proof.
  intros H. destruct i as [ok|f d parsed| |now|cand|]; cbn [client_input].
  - destruct (cl_status c) eqn:Hs; try done. destruct (cl_queue c) as [|req q] eqn:Hq; [done|]. destruct H as [A B C D].
    rewrite Hs, Hq in C. specialize (C ltac:(done)). cbn [waiting] in C. rewrite app_nil_r in C. rewrite Hq in B.
    destruct ok; split; cbn [cl_status cl_pc cl_queue cl_sent cl_calls set_status set_queue] in *; try done; try (cbn in B; lia).
    + intros _. rewrite fmap_app, answers_app, <- app_assoc, app_nil_r. rewrite <- C. f_equal. by rewrite <- answers_app.
    + rewrite fmap_app, answers_app, <- C. apply prefix_app. change (req :: q) with ([req] ++ q). rewrite answers_app. by apply prefix_app_r.
  - destruct (cl_status c) eqn:Hs; try done. destruct f as [text resp|text e|]; [|by apply json_ok..].
    pose proof (json_ok text c H) as Hj. destruct resp; try done.
    + by apply on_offer_ok.
    + unfold on_trickle. destruct (cl_pc (set_json text c)) as [pc|] eqn:Hp; [|done]. destruct parsed; [|done].
      by apply (log_ok _ _ pc).
  - destruct (cl_status c); try done. by apply stop_ok.
  - destruct (has_room c) eqn:Hr; [|done]. by apply push_ok.
  - destruct (has_room c) eqn:Hr; [|done]. by apply push_ok.
  - destruct H as [A B C D]. by split.
Qed.

Lemma client_run_ok ins : forall c, client_ok c -> client_ok (client_run ins c).
Proof. induction ins as [|i ins IH]; intros c H; [done|]. cbn. apply IH. by apply client_input_ok. Qed.

(** The recorder answers every offer once, in order, on one connection.  Whatever arrives in
    whatever order, the client makes one peer connection, with the first offer, and every later
    offer goes to it; while its loop runs, the answers sent and queued are exactly the local
    descriptions it has set, in their order; what was sent is a prefix of them even after the loop
    has ended. *)
Theorem recorder_answers_offers ins :
  let c := client_run ins client_start in
  one_pc c /\ (length (cl_queue c) <= OUT_CAPACITY)%nat /\
  (cl_status c = Running -> answers ((cl_sent c).*1 ++ cl_queue c) = locals (cl_calls c)) /\
  answers (cl_sent c).*1 `prefix_of` locals (cl_calls c).
Proof.
  intros c. destruct (client_run_ok ins client_start client_start_ok) as [A B C D]. fold c in A, B, C, D.
  split_and!; [done..| |done]. intros Hs. rewrite Hs in C. cbn [waiting] in C. rewrite app_nil_r in C. rewrite answers_app. by apply C.
Qed.

(** ** What the code does not do as intended *)

(** Nothing of the loop looks at the receiver of the audio: when the recording drops it, the
    client goes on as if it were there, keep-alive included, although the connection is documented
    to live until the receiver is dropped. *)
Theorem receiver_drop_keeps_session ins : forall c,
  let c' := client_run ins (client_input InReceiverDropped c) in
  cl_status c' = cl_status (client_run ins c) /\ cl_sent c' = cl_sent (client_run ins c).
Proof.
  set (same := fun a b => cl_status a = cl_status b /\ cl_pc a = cl_pc b /\ cl_json a = cl_json b /\ cl_queue a = cl_queue b /\
                          cl_sent a = cl_sent b /\ cl_calls a = cl_calls b).
  assert (forall i a b, same a b -> same (client_input i a) (client_input i b)) as Hstep.
  { intros i [s1 p1 j1 q1 t1 k1 r1] [s2 p2 j2 q2 t2 k2 r2] (E1 & E2 & E3 & E4 & E5 & E6). cbn in *. subst.
    destruct i as [ok|f d parsed| |now|cand|]; cbn; try (unfold same; cbn; by split_and!).
    - destruct s2, q2; try done. by destruct ok.
    - destruct s2; try done. destruct f as [text resp|text e|]; try done. destruct resp; try done.
      + unfold on_offer, ensure_pc, queue_answer, has_room. cbn. destruct p2 as [pc|]; [|destruct (od_pc d); cbn; [|done]];
          destruct (od_remote d), (od_answer d), (od_local d); cbn; try done; repeat case_match; by unfold same.
      + unfold on_trickle. cbn. by destruct p2, parsed.
    - by destruct s2.
    - unfold has_room. cbn. repeat case_match; by unfold same.
    - unfold has_room. cbn. repeat case_match; by unfold same. }
  assert (forall ins a b, same a b -> same (client_run ins a) (client_run ins b)) as Hrun.
  { intros l. induction l as [|i l IH]; intros a b H; [done|]. cbn. by apply IH, Hstep. }
  intros c. destruct (Hrun ins (client_input InReceiverDropped c) c) as (A & _ & _ & _ & B & _); [|done].
  by unfold same.
Qed.

(** The loop queues its answer in the queue that it alone empties: once it waits there for room,
    it waits for itself, and nothing is ever sent again. *)
Theorem full_queue_blocks_client ins : forall c sdp,
  cl_status c = Blocked sdp -> (length (cl_queue c) = OUT_CAPACITY) ->
  cl_status (client_run ins c) = Blocked sdp /\ cl_sent (client_run ins c) = cl_sent c.
Proof.
  induction ins as [|i ins IH]; intros c sdp Hs Hq; [done|]. cbn [client_run foldl].
  assert (has_room c = false) as Hr by (unfold has_room; rewrite Hq; apply Nat.ltb_irrefl).
  assert (let c' := client_input i c in cl_status c' = Blocked sdp /\ cl_queue c' = cl_queue c /\ cl_sent c' = cl_sent c) as (E1 & E2 & E3).
  { destruct i; cbn [client_input]; rewrite ?Hs, ?Hr; done. }
  destruct (IH (client_input i c) sdp E1) as [A B]; [by rewrite E2|]. by rewrite <- E3.
Qed.

(** Sixty-four candidates between two offers are enough. *)
Example queue_fills : exists sdp,
  cl_status (client_run (InFrame (CfResponse false (SvOffer "o1")) (mkOfferDraws (Some 1%nat) true (Some "a1") true) None
    :: replicate 63 (InCandidate "c") ++ [InFrame (CfResponse false (SvOffer "o2")) (mkOfferDraws None true (Some "a2") true) None])
    client_start) = Blocked sdp.
Proof. exists "a2". vm_compute. reflexivity. Qed.

(** A room at its capacity turns its recorder away: the check before the upgrade counts the real
    participants and refuses whoever connects, although a join would not hold the capacity against
    a dependent participant. *)
Theorem full_room_refuses_recorder verify b64 dw gz dj req form is_v1 w token rl r :
  authenticate verify (hq_authorization req) (hq_query req ∪ form) = Ok token ->
  check_join token (mkParams false "" true false "" ∅ []) = Ok (vg_room (video token)) ->
  get_room (vg_room (video token)) w = Some rl -> w_rooms w !! rl = Some r -> r_closed r = false -> is_full w r = true ->
  rtc_admit verify b64 dw gz dj req form is_v1 w = Err room_full_response /\
  forall pl p, w_parts w !! pl = Some p -> p_kind p = Egress -> join_check w rl pl = true.
Proof.
  intros Ha Hck Hrl Hr Hc Hf. split.
  - unfold rtc_admit. cbv zeta. rewrite Ha. cbn [map_err mbind Result_bind].
    unfold check_join in Hck. destruct (room_join (video token)); [|done]. cbn [negb] in Hck |- *.
    destruct (tk_identity token =? "")%string; [done|]. destruct (vg_room (video token) =? "")%string; [done|].
    rewrite Hrl. cbn [mbind option_bind]. rewrite Hr. unfold room_is_full. unfold is_full in Hf. by rewrite Hf.
  - intros pl p Hp Hk. unfold join_check. rewrite Hr, Hp, Hc. unfold non_dependent. by rewrite Hk.
Qed.

(** * Witnesses *)

(** Concrete collaborators: one signed token, that of the claims below. *)
Module RecorderDemo.
Definition claims : Value := egress_claims "key" "EG_1" "room1" 1000.
Definition b64 (s : string) : Result string (list Z) := Ok [].
Definition json (l : list Z) : Result string Value := Ok claims.
Definition decode (token secret : string) (v : Validation) : Result string Value :=
  match decode_payload_unverified b64 json token with
  | Ok c => if TokenDemo.hs256 token secret && TokenDemo.valid v c then Ok c else Err "invalid"
  | Err _ => Err "malformed"
  end.
Definition encode (secret : string) (c : Value) : Result string string :=
  if value_eqb c claims && (secret =? "secret")%string then Ok "h.p.secret" else Err "unknown claims".

Lemma recorder_decode_spec token secret v c : decode token secret v = Ok c <->
  TokenDemo.hs256 token secret = true /\ decode_payload_unverified b64 json token = Ok c /\ TokenDemo.valid v c = true.
Proof.
  unfold decode. destruct (decode_payload_unverified b64 json token) as [c'|e].
  - destruct (TokenDemo.hs256 token secret) eqn:E1; cbn [andb]; [|by split; [|intros [? ?]]].
    destruct (TokenDemo.valid v c') eqn:E2; split; [intros [= <-]; done|by intros (_ & [= ->] & _)|done|intros (_ & [= ->] & ?); congruence].
  - split; [done|by intros (_ & ? & _)].
Qed.
Lemma recorder_encode_spec secret c token : encode secret c = Ok token ->
  TokenDemo.hs256 token secret = true /\ decode_payload_unverified b64 json token = Ok c.
Proof.
  unfold encode. destruct (value_eqb c claims) eqn:E1; [|done]. apply value_eqb_eq in E1 as ->.
  destruct (String.eqb_spec secret "secret") as [->|]; [|done]. by intros [= <-].
Qed.
End RecorderDemo.

Lemma recorder_token_admits_witness : exists t,
  verify RecorderDemo.b64 RecorderDemo.json RecorderDemo.decode {["key" := "secret"]} "h.p.secret" = Ok t /\
  participant_kind_from_token t = Egress.
Proof.
  destruct (recorder_token_admits RecorderDemo.b64 RecorderDemo.json RecorderDemo.decode RecorderDemo.encode TokenDemo.hs256 TokenDemo.valid
    2000 RecorderDemo.recorder_decode_spec RecorderDemo.recorder_encode_spec (fun v c exp nbf H _ _ _ _ => TokenDemo.valid_spec v c H)
    {["key" := "secret"]} "key" "secret" "EG_1" "room1" 1000 "h.p.secret") as (t & params & Hv & _ & _ & _ & _ & _ & Hk & _).
  - vm_compute. reflexivity.
  - reflexivity.
  - lia.
  - discriminate.
  - discriminate.
  - exists t. split; [exact Hv|exact Hk].
Defined.
