(* ===== verification/RecorderSession.v ===== *)
(** The recorder in a room: the negotiation tasks of the server ([Negotiation]) and the signaling
    loop of the recorder ([EgressClient]) in one system, with the messages between them in
    transit. *)
From Stdlib Require Import ZArith Lia Ascii String.
From stdpp Require Import base gmap strings list option relations.
From S2P Require Import Prelude RustStr Proto Participant Media Negotiation EgressClient.
Import Negotiation.Negotiation.

Open Scope string_scope.
Open Scope list_scope.
Open Scope Z_scope.

(** The server's side, the recorder, offers on their way to it and answers on their way back. *)
Record Sys := mkSys { sy_neg : Neg; sy_client : Client; sy_offers : list (Z * Z); sy_answers : list string }.

(** A connection that does as asked. *)
Definition draws_ok (d : OfferDraws) : Prop :=
  is_Some (od_pc d) /\ od_remote d = true /\ is_Some (od_answer d) /\ od_local d = true.

(** Progress without new work: a task of the server; an offer that is sent, arrives and is answered;
    a request the recorder's loop writes to the socket; an answer that reaches the server. *)
Inductive sys_internal : Sys -> Sys -> Prop :=
| si_task n n' c os ans :
    neg_internal n n' -> ng_sent n' = ng_sent n -> ng_answered n' = ng_answered n ->
    sys_internal (mkSys n c os ans) (mkSys n' c os ans)
| si_send n n' o c os ans :
    neg_internal n n' -> ng_sent n' = ng_sent n ++ [o] -> ng_answered n' = ng_answered n ->
    sys_internal (mkSys n c os ans) (mkSys n' c (os ++ [o]) ans)
| si_offer n c o os ans text sdp d :
    draws_ok d -> cl_status c = Running ->
    sys_internal (mkSys n c (o :: os) ans) (mkSys n (client_input (InFrame (CfResponse text (SvOffer sdp)) d None) c) os ans)
| si_write n c req q os ans :
    cl_status c = Running -> cl_queue c = req :: q ->
    sys_internal (mkSys n c os ans) (mkSys n (client_input (InSend true) c) os (ans ++ answers [req]))
| si_answer n n' c os a ans :
    neg_internal n n' -> ng_sent n' = ng_sent n -> ng_answered n' = S (ng_answered n) ->
    sys_internal (mkSys n c os (a :: ans)) (mkSys n' c os ans).

(** New work: changes of the subscriptions, and requests of the recorder's other tasks, as long as
    its queue does not fill up. *)
Inductive sys_input : Sys -> Sys -> Prop :=
| sp_server n n' c os ans : neg_input n n' -> sys_input (mkSys n c os ans) (mkSys n' c os ans)
| sp_client n c i os ans :
    match i with InKeepAlive _ | InCandidate _ | InReceiverDropped => True | _ => False end ->
    has_room (client_input i c) = true -> sys_input (mkSys n c os ans) (mkSys n (client_input i c) os ans)
| sp_frame n c text parsed d init os ans :
    cl_status c = Running ->
    sys_input (mkSys n c os ans) (mkSys n (client_input (InFrame (CfResponse text (SvTrickle init)) d parsed) c) os ans).

Definition sys_step (s s' : Sys) : Prop := sys_input s s' \/ sys_internal s s'.
Definition sys_start (m : ParticipantMedia) : Sys := mkSys (Negotiation.Negotiation.start m) client_start [] [].

(** * What is in transit *)

(** Every offer sent is on its way, in the recorder's queue as an answer, on its way back, or
    answered; and the queue has room for an answer that is not in it. *)
Record sys_ok (m : ParticipantMedia) (s : Sys) : Prop := {
  so_reach : reach neg_step (Negotiation.Negotiation.start m) (sy_neg s);
  so_running : cl_status (sy_client s) = Running;
  so_transit : length (ng_sent (sy_neg s)) =
    (ng_answered (sy_neg s) + length (sy_answers s) + length (answers (cl_queue (sy_client s))) + length (sy_offers s))%nat;
  so_room : (length (cl_queue (sy_client s)) < OUT_CAPACITY + length (answers (cl_queue (sy_client s))))%nat;
}.

Lemma has_room_lt c : has_room c = true <-> (length (cl_queue c) < OUT_CAPACITY)%nat.
Proof. unfold has_room. apply Nat.ltb_lt. Qed.

Lemma queue_answer_room a c : has_room c = true ->
  cl_status (queue_answer a c) = cl_status c /\ cl_queue (queue_answer a c) = cl_queue c ++ [RqAnswer a].
Proof. intros H. unfold queue_answer. by rewrite H. Qed.

(** An offer that arrives is answered, when there is room. *)
Lemma offer_input text sdp d c : draws_ok d -> cl_status c = Running -> has_room c = true ->
  let c' := client_input (InFrame (CfResponse text (SvOffer sdp)) d None) c in
  cl_status c' = Running /\ exists a, cl_queue c' = cl_queue c ++ [RqAnswer a].
Proof.
  intros ([pc Hp] & Hr & [a Ha] & Hl) Hs Hq. cbn [client_input]. rewrite Hs. unfold on_offer, ensure_pc. cbn [set_json cl_pc].
  rewrite Hr, Ha, Hl, Hp. destruct (cl_pc c) as [pc'|]; cbn [mbind option_bind negb];
    (match goal with |- context [queue_answer a ?x] => destruct (queue_answer_room a x) as [-> ->]; [exact Hq|] end); cbn; eauto.
Qed.

Section System.
Context (m : ParticipantMedia) (Hm1 : pm_answer_pending m = false) (Hm2 : pm_needs_negotiation m = false).

Lemma sys_neg_inv s : sys_ok m s -> inv (sy_neg s).
Proof using Hm1 Hm2. intros [H _ _ _]. by apply (negotiation_reach_inv m). Qed.

(** At most one message of the negotiation is in transit. *)
Lemma transit_one s : sys_ok m s -> (length (sy_answers s) + length (answers (cl_queue (sy_client s))) + length (sy_offers s) <= 1)%nat.
Proof using Hm1 Hm2. intros H. pose proof (one_unanswered _ (sys_neg_inv s H)). destruct H as [_ _ Ht _]. lia. Qed.

Lemma sys_internal_ok s s' : sys_internal s s' -> sys_ok m s -> sys_ok m s'.
Proof using Hm1 Hm2.
  intros Hstep Hok. pose proof (transit_one s Hok) as H1. destruct Hok as [Hr Hs Ht Hq].
  destruct Hstep as [n n' c os ans Hn E1 E2|n n' o c os ans Hn E1 E2|n c o os ans text sdp d Hd Hc|n c req q os ans Hc Eq|n n' c os a ans Hn E1 E2];
    cbn [sy_neg sy_client sy_offers sy_answers] in *.
  - split; cbn [sy_neg sy_client sy_offers sy_answers]; [eapply reach_step; [done|by right]|done|by rewrite E1, E2|done].
  - split; cbn [sy_neg sy_client sy_offers sy_answers]; [eapply reach_step; [done|by right]|done|rewrite E1, E2, !length_app; cbn; lia|done].
  - assert (has_room c = true) as Hroom by (apply has_room_lt; cbn [length] in H1; lia).
    destruct (offer_input text sdp d c Hd Hc Hroom) as (Hc' & a & Hq'). split; cbn [sy_neg sy_client sy_offers sy_answers]; [done|done|..];
      rewrite Hq', ?length_app, answers_app, length_app; cbn [length answers omap list_omap] in *; lia.
  - cbn [client_input]. rewrite Hc, Eq. split; cbn [sy_neg sy_client sy_offers sy_answers cl_queue cl_status]; [done|done|..];
      rewrite Eq in Ht, Hq; change (req :: q) with ([req] ++ q) in Ht, Hq; rewrite answers_app, ?length_app in Ht, Hq; rewrite ?length_app.
    + lia.
    + assert (length (answers [req]) <= 1)%nat by (destruct req; cbn; lia). rewrite ?length_app in Hq. cbn [length] in Hq. lia.
  - split; cbn [sy_neg sy_client sy_offers sy_answers]; [eapply reach_step; [done|by right]|done|rewrite E1, E2; cbn [length] in Ht; lia|done].
Qed.

Lemma sys_input_ok s s' : sys_input s s' -> sys_ok m s -> sys_ok m s'.
Proof using Type.
  intros Hstep [Hr Hs Ht Hq].
  destruct Hstep as [n n' c os ans Hn|n c i os ans Hi Hroom|n c text parsed d init os ans Hc]; cbn [sy_neg sy_client sy_offers sy_answers] in *.
  - assert (ng_sent n' = ng_sent n /\ ng_answered n' = ng_answered n) as [E1 E2] by (by destruct Hn).
    split; cbn [sy_neg sy_client sy_offers sy_answers]; [eapply reach_step; [done|by left]|done|by rewrite E1, E2|done].
  - apply has_room_lt in Hroom.
    assert (cl_status (client_input i c) = cl_status c /\ length (answers (cl_queue (client_input i c))) = length (answers (cl_queue c))) as [Es Ea].
    { destruct i; try done; cbn [client_input]; destruct (has_room c); try done; cbn [set_queue cl_status cl_queue];
        rewrite answers_app, length_app; cbn; split; (done || lia). }
    split; cbn [sy_neg sy_client sy_offers sy_answers]; [done|congruence|by rewrite Ea|lia].
  - assert (cl_status (client_input (InFrame (CfResponse text (SvTrickle init)) d parsed) c) = Running /\
      cl_queue (client_input (InFrame (CfResponse text (SvTrickle init)) d parsed) c) = cl_queue c) as [Es Eq].
    { cbn [client_input]. rewrite Hc. unfold on_trickle. by destruct (cl_pc (set_json text c)), parsed. }
    split; cbn [sy_neg sy_client sy_offers sy_answers]; [done|done|by rewrite Eq|by rewrite Eq].
Qed.

Lemma sys_reach_ok s : reach sys_step (sys_start m) s -> sys_ok m s.
Proof using Hm1 Hm2.
  apply reach_invariant.
  - split; cbn; [constructor|done|done|unfold OUT_CAPACITY; lia].
  - intros s1 s2 Hs [H|H]; [by eapply sys_input_ok|by eapply sys_internal_ok].
Qed.

(** * Progress *)

(** A bound on the internal steps left. *)
Definition sys_potential (s : Sys) : nat :=
  (4 * potential (sy_neg s) + 3 * length (sy_offers s) + 2 * length (cl_queue (sy_client s)) + length (sy_answers s))%nat.

Lemma sys_internal_decreases s s' : sys_ok m s -> sys_internal s s' -> (sys_potential s' < sys_potential s)%nat.
Proof using Hm1 Hm2.
  intros Hok Hstep. pose proof (transit_one s Hok) as H1. pose proof (sys_neg_inv s Hok) as Hi. destruct Hok as [_ _ _ Hq].
  destruct Hstep as [n n' c os ans Hn E1 E2|n n' o c os ans Hn E1 E2|n c o os ans text sdp d Hd Hc|n c req q os ans Hc Eq|n n' c os a ans Hn E1 E2];
    unfold sys_potential; cbn [sy_neg sy_client sy_offers sy_answers length] in *;
    try (pose proof (internal_decreases _ _ Hi Hn); rewrite ?length_app; cbn [length]; lia).
  - assert (has_room c = true) as Hroom by (apply has_room_lt; lia).
    destruct (offer_input text sdp d c Hd Hc Hroom) as (_ & a & Hq'). rewrite Hq', length_app. cbn [length]. lia.
  - cbn [client_input]. rewrite Hc, Eq. cbn [cl_queue length]. rewrite length_app.
    assert (length (answers [req]) <= 1)%nat by (destruct req; cbn; lia). lia.
Qed.

(** What a step of the server's tasks sends or consumes. *)
Lemma neg_internal_cases n n' : neg_internal n n' ->
  (ng_sent n' = ng_sent n /\ ng_answered n' = ng_answered n) \/
  (exists o, ng_sent n' = ng_sent n ++ [o] /\ ng_answered n' = ng_answered n) \/
  (ng_sent n' = ng_sent n /\ ng_answered n' = S (ng_answered n) /\ (ng_answered n < length (ng_sent n))%nat).
Proof using Type. intros []; cbn; eauto 10. Qed.

(** Short of rest, some step can be taken. *)
Lemma sys_progress s : sys_ok m s ->
  (exists s', sys_internal s s') \/
  (settled (sy_neg s) /\ sy_offers s = [] /\ cl_queue (sy_client s) = [] /\ sy_answers s = []).
Proof using Hm1 Hm2.
  intros Hok. pose proof (sys_neg_inv s Hok) as Hi. destruct Hok as [_ Hs Ht _].
  destruct s as [n c os ans]; cbn [sy_neg sy_client sy_offers sy_answers] in *.
  destruct os as [|o os].
  2: { left. eexists. by apply (si_offer n c o os ans true "" (mkOfferDraws (Some 0%nat) true (Some "") true)). }
  destruct (cl_queue c) as [|req q] eqn:Eq; [|left; eexists; by eapply si_write].
  destruct ans as [|a ans].
  - destruct (internal_progress n Hi) as [H|[n' H]]; [by right|left]. cbn in Ht.
    destruct (neg_internal_cases _ _ H) as [[E1 E2]|[(o & E1 & E2)|(E1 & E2 & E3)]]; [..|lia].
    + eexists. by eapply si_task.
    + eexists. by eapply si_send.
  - left. destruct n as [nm ts rev ops sent na]. cbn in Ht. eexists. eapply si_answer.
    + eapply n_answer; [|apply surjective_pairing]. lia.
    + done.
    + done.
Qed.

Lemma sys_internal_rev s s' : sys_internal s s' -> ng_rev (sy_neg s') = ng_rev (sy_neg s) /\ ng_ops (sy_neg s') = ng_ops (sy_neg s).
Proof using Type. intros []; cbn; try done; by apply internal_rev. Qed.

Lemma sys_star_ok s s' : rtc sys_internal s s' -> sys_ok m s ->
  sys_ok m s' /\ ng_rev (sy_neg s') = ng_rev (sy_neg s) /\ ng_ops (sy_neg s') = ng_ops (sy_neg s).
Proof using Hm1 Hm2.
  induction 1 as [|x y z H _ IH]; intros Hok; [done|]. destruct (IH (sys_internal_ok _ _ H Hok)) as (I1 & -> & ->).
  destruct (sys_internal_rev _ _ H). by split_and!.
Qed.

Lemma sys_steps_bound k : forall s s', sys_ok m s -> nsteps sys_internal k s s' -> (k + sys_potential s' <= sys_potential s)%nat.
Proof using Hm1 Hm2.
  induction k as [|k IH]; intros s s' Hok H; inversion H; subst; [lia|].
  pose proof (sys_internal_decreases _ _ Hok H1). specialize (IH _ _ (sys_internal_ok _ _ H1 Hok) H2). lia.
Qed.
End System.


(** ** A run *)

(** A track was subscribed and its offer is on its way to the recorder. *)
Definition sys_offered : Sys := mkSys offered client_start [(1, 1)] [].

Lemma sys_offered_reachable : reach sys_step (sys_start m0) sys_offered.
Proof.
  eapply reach_step; [eapply reach_step; [eapply reach_step; [eapply reach_step; [eapply reach_step;
    [eapply reach_step; [eapply reach_step; [eapply reach_step; [apply reach_init|]|]|]|]|]|]|]|].
  - left. apply sp_server, n_change.
  - left. apply sp_server, n_request.
  - right. apply si_task; [by apply (n_go flagged checked [] [] false); [constructor|]|done|done].
  - right. apply si_task; [apply (n_offer checked [] [])|done|done].
  - right. apply si_task; [apply (n_local checked [] [])|done|done].
  - right. apply si_task; [by apply (n_number checked numbered 1 [] [])|done|done].
  - right. apply si_task; [apply (n_await numbered 1 [] [])|done|done].
  - right. apply (si_send _ _ (1, 1) client_start [] []); [apply (n_send (await_answer numbered) 1 [] [])|done|done].
Qed.

