(* ===== verification/RedisBus.v ===== *)
(** The Redis clients of the server: the connections of the cluster bus ([RedisBus] of
    [crates/lk-server/src/cluster.rs]), of the store ([RedisStore] of [redis_store.rs]) and of the
    message bus ([RedisBus] of [crates/lk-psrpc/src/lib.rs]) with its subscription task.

    What Redis answers is an argument of every operation; the model records the commands with the
    connection they went over. *)
From Stdlib Require Import ZArith Lia Ascii String.
From stdpp Require Import base gmap strings list option.
From S2P Require Import Prelude RustStr Config Cluster.

Open Scope string_scope.
Open Scope list_scope.
Open Scope Z_scope.

(** [redis_config]: the settings a client needs, without the retry count and the cluster flag. *)
Record RedisSettings := mkSettings { rs_address : string; rs_username : string; rs_password : string; rs_db : Z; rs_use_tls : bool }.
Definition redis_config (r : RedisConfig) : RedisSettings :=
  mkSettings (rd_address r) (rd_username r) (rd_password r) (rd_db r) (rd_use_tls r).

Definition redis_url (s : RedisSettings) : string :=
  (if rs_use_tls s then "rediss" else "redis") +:+ "://" +:+ rs_username s +:+ ":" +:+ rs_password s +:+ "@" +:+
  rs_address s +:+ "/" +:+ fmt_dec (rs_db s).

Definition loc := nat.

(** What opening a client and connecting answer. *)
Record ConnDraws := mkConn { cd_open : Result string unit; cd_connect : Result string loc }.

(** Commands, as far as they are sent. *)
Inductive Cmd :=
| SetEx (key value : string) (ttl : Z) | Get (key : string)
| HSet (hash field value : string) | HSetNx (hash field value : string) | HGet (hash field : string) | HDel (hash field : string)
| Del (key : string) | Keys (pattern : string)
| XAdd (stream : string) (fields : Fields) | XRead (stream last_id : string) (block_ms : Z)
| SAdd (key member : string) | HGetAll (key : string)
| Publish (channel : string) (payload : list Z).

(** * Lazily made connections *)

(** A [OnceCell] with a connection, and the commands sent with the connection of each. *)
Definition Log := list (loc * Cmd).

(** [conn()]: the cached connection, or a new one that is then cached. *)
Definition lazy_conn (label : string) (d : ConnDraws) (cell : option loc) : Result string loc * option loc :=
  match cell with
  | Some c => (Ok c, cell)
  | None =>
      match cd_open d with
      | Err e => (Err ("redis connect: " +:+ e), None)
      | Ok _ =>
          match cd_connect d with
          | Err e => (Err (label +:+ e), None)
          | Ok c => (Ok c, Some c)
          end
      end
  end.

(** * The cluster bus *)

Record ClusterBus := mkBus { rb_conn : option loc; rb_block : option loc; rb_log : Log }.
Definition cluster_bus_new : ClusterBus := mkBus None None [].

(** A command over the shared connection, with the prefix of its errors. *)
Definition command {A} (label : string) (c : Cmd) (reply : Result string A) (d : ConnDraws) (b : ClusterBus) : Result string A * ClusterBus :=
  match lazy_conn "redis manager: " d (rb_conn b) with
  | (Err e, cell) => (Err e, mkBus cell (rb_block b) (rb_log b))
  | (Ok conn, cell) => (map_err (fun e => label +:+ e) reply, mkBus cell (rb_block b) (rb_log b ++ [(conn, c)]))
  end.

Definition redis_set_with_ttl (key value : string) (ttl : Z) : Result string unit -> ConnDraws -> ClusterBus -> Result string unit * ClusterBus :=
  command "redis set: " (SetEx key value ttl).
Definition redis_get (key : string) : Result string (option string) -> ConnDraws -> ClusterBus -> Result string (option string) * ClusterBus :=
  command "redis get: " (Get key).
Definition redis_hset (hash field value : string) : Result string unit -> ConnDraws -> ClusterBus -> Result string unit * ClusterBus :=
  command "redis hset: " (HSet hash field value).
(** The reply is the number of fields set. *)
Definition redis_hsetnx (hash field value : string) (reply : Result string Z) (d : ConnDraws) (b : ClusterBus) : Result string bool * ClusterBus :=
  let '(r, b) := command "redis hsetnx: " (HSetNx hash field value) reply d b in
  (match r with Ok n => Ok (n =? 1) | Err e => Err e end, b).
Definition redis_hget (hash field : string) : Result string (option string) -> ConnDraws -> ClusterBus -> Result string (option string) * ClusterBus :=
  command "redis hget: " (HGet hash field).
Definition redis_hdel (hash field : string) : Result string unit -> ConnDraws -> ClusterBus -> Result string unit * ClusterBus :=
  command "redis hdel: " (HDel hash field).
Definition redis_del (key : string) : Result string unit -> ConnDraws -> ClusterBus -> Result string unit * ClusterBus :=
  command "redis del: " (Del key).
Definition redis_keys (pattern : string) : Result string (list string) -> ConnDraws -> ClusterBus -> Result string (list string) * ClusterBus :=
  command "redis keys: " (Keys pattern).
Definition redis_xadd (stream : string) (fields : Fields) : Result string unit -> ConnDraws -> ClusterBus -> Result string unit * ClusterBus :=
  command "redis xadd: " (XAdd stream fields).

(** The reply of [XREAD]: per stream the entries with their fields; a value that is no text reads
    as empty. *)
Definition ReadReply := list (list (string * list (string * option string))).
Definition read_entry (e : string * list (string * option string)) : string * Fields :=
  (e.1, List.map (fun kv => (kv.1, default "" kv.2)) e.2).
Definition read_entries (reply : ReadReply) : list (string * Fields) := List.concat (List.map (List.map read_entry) reply).

(** [xread_block] has a connection of its own. *)
Definition redis_xread_block (stream last_id : string) (timeout_ms : Z) (reply : Result string ReadReply) (d : ConnDraws) (b : ClusterBus) :
    Result string (option (list (string * Fields))) * ClusterBus :=
  match lazy_conn "redis block conn: " d (rb_block b) with
  | (Err e, cell) => (Err e, mkBus (rb_conn b) cell (rb_log b))
  | (Ok conn, cell) =>
      (match reply with Ok r => Ok (Some (read_entries r)) | Err e => Err ("redis xread: " +:+ e) end,
       mkBus (rb_conn b) cell (rb_log b ++ [(conn, XRead stream last_id timeout_ms)]))
  end.

(** ** Blocking reads do not hold up the rest *)

(** Any operation of the bus, with what Redis answers. *)
Inductive BusOp :=
| OSet (key value : string) (ttl : Z) (r : Result string unit) | OGet (key : string) (r : Result string (option string))
| OHSet (h f v : string) (r : Result string unit) | OHSetNx (h f v : string) (r : Result string Z)
| OHGet (h f : string) (r : Result string (option string)) | OHDel (h f : string) (r : Result string unit)
| ODel (key : string) (r : Result string unit) | OKeys (p : string) (r : Result string (list string))
| OXAdd (s : string) (fs : Fields) (r : Result string unit) | OXRead (s last : string) (ms : Z) (r : Result string ReadReply).
Definition bus_op (b : ClusterBus) (o : BusOp * ConnDraws) : ClusterBus :=
  match o.1 with
  | OSet k v t r => (redis_set_with_ttl k v t r o.2 b).2
  | OGet k r => (redis_get k r o.2 b).2
  | OHSet h f v r => (redis_hset h f v r o.2 b).2
  | OHSetNx h f v r => (redis_hsetnx h f v r o.2 b).2
  | OHGet h f r => (redis_hget h f r o.2 b).2
  | OHDel h f r => (redis_hdel h f r o.2 b).2
  | ODel k r => (redis_del k r o.2 b).2
  | OKeys p r => (redis_keys p r o.2 b).2
  | OXAdd s fs r => (redis_xadd s fs r o.2 b).2
  | OXRead s last ms r => (redis_xread_block s last ms r o.2 b).2
  end.

Definition blocking (c : Cmd) : bool := match c with XRead _ _ _ => true | _ => false end.
(** Every command went over the connection of its kind. *)
Definition on_own_conn (b : ClusterBus) : Prop :=
  Forall (fun e => if blocking e.2 then rb_block b = Some e.1 else rb_conn b = Some e.1) (rb_log b).

Lemma lazy_conn_cases label d cell r cell' : lazy_conn label d cell = (r, cell') ->
  (exists c, r = Ok c /\ cell' = Some c /\ (cell = None \/ cell = Some c)) \/ (exists e, r = Err e) /\ cell = None /\ cell' = None.
Proof. unfold lazy_conn. destruct cell as [c|]; [naive_solver|]. repeat case_match; naive_solver. Qed.

Lemma command_own {A} label c (reply : Result string A) d b : blocking c = false -> on_own_conn b -> on_own_conn (command label c reply d b).2.
Proof.
  intros Hb H. unfold command. destruct (lazy_conn _ _ _) as [r cell] eqn:E. apply lazy_conn_cases in E as [(x & -> & -> & Hc)|((e & ->) & Hn & ->)].
  - unfold on_own_conn in *. cbn. apply list.Forall_app. split; [|apply list.Forall_singleton; by cbn; rewrite Hb].
    eapply list.Forall_impl; [exact H|]. intros [l k]. cbn. destruct (blocking k); [done|]. destruct Hc as [->| ->]; [done|congruence].
  - unfold on_own_conn in *. cbn. by rewrite Hn in H.
Qed.

(** Blocking reads are isolated.  Whatever operations run on a bus and whatever fails, all blocking
    reads go over one connection and all other commands over another cell's connection: a read
    that waits for entries never delays routing or heartbeats. *)
Theorem blocking_reads_isolated ops : on_own_conn (foldl bus_op cluster_bus_new ops).
Proof.
  assert (forall b, on_own_conn b -> on_own_conn (foldl bus_op b ops)) as H; [|apply H; constructor].
  induction ops as [|[o d] ops IH]; intros b Hb; [done|]. cbn [foldl]. apply IH. unfold bus_op. cbn [fst snd].
  destruct o; try (by apply command_own).
  - unfold redis_hsetnx. pose proof (command_own "redis hsetnx: " (HSetNx h f v) r d b eq_refl Hb) as Hc.
    destruct (command _ _ _ _ _) as [x b']. exact Hc.
  - unfold redis_xread_block. destruct (lazy_conn _ _ _) as [x cell] eqn:E.
    apply lazy_conn_cases in E as [(c & -> & -> & Hc)|((e & ->) & Hn & ->)]; unfold on_own_conn in *; cbn.
    + apply list.Forall_app. split; [|by apply list.Forall_singleton].
      eapply list.Forall_impl; [exact Hb|]. intros [l k]. cbn. destruct (blocking k); [|done]. destruct Hc as [->| ->]; [done|congruence].
    + by rewrite Hn in Hb.
Qed.

(** The trait says that a read that times out gives [None]; over Redis it gives an empty list, and
    never [None]. *)
Lemma redis_read_never_none stream last ms reply d b : (redis_xread_block stream last ms reply d b).1 <> Ok None.
Proof. unfold redis_xread_block. repeat case_match; cbn; congruence. Qed.

(** * The store *)

Record RedisStore := mkStore { st_conn : option loc; st_log : Log }.
Definition store_new : RedisStore := mkStore None [].
(** [conn] with [connect]. *)
Definition store_conn (d : ConnDraws) (s : RedisStore) : Result string loc * option loc := lazy_conn "redis manager: " d (st_conn s).
Definition store_command {A} (label : string) (c : Cmd) (reply : Result string A) (d : ConnDraws) (s : RedisStore) : Result string A * RedisStore :=
  match store_conn d s with
  | (Err e, cell) => (Err e, mkStore cell (st_log s))
  | (Ok conn, cell) => (map_err (fun e => label +:+ e) reply, mkStore cell (st_log s ++ [(conn, c)]))
  end.
(** Values are bytes; they are recorded by their text. *)
Definition store_hset (key id bytes : string) : Result string unit -> ConnDraws -> RedisStore -> Result string unit * RedisStore :=
  store_command "redis hset: " (HSet key id bytes).
Definition store_hget (key id : string) : Result string (option string) -> ConnDraws -> RedisStore -> Result string (option string) * RedisStore :=
  store_command "redis hget: " (HGet key id).
Definition store_hdel (key id : string) : Result string unit -> ConnDraws -> RedisStore -> Result string unit * RedisStore :=
  store_command "redis hdel: " (HDel key id).
Definition store_sadd (key member : string) : Result string unit -> ConnDraws -> RedisStore -> Result string unit * RedisStore :=
  store_command "redis sadd: " (SAdd key member).
(** The values of the reply, whatever their order. *)
Definition store_hgetall (key : string) (reply : Result string (gmap string string)) (d : ConnDraws) (s : RedisStore) :
    Result string (list string) * RedisStore :=
  let '(r, s) := store_command "redis hgetall: " (HGetAll key) reply d s in
  (match r with Ok m => Ok (map_to_list m).*2 | Err e => Err e end, s).

(** * The message bus *)

(** ** Publishing *)

(** A cell that can be emptied again, and the commands sent. *)
Record PsrpcBus := mkPsrpcBus { pb_conn : option loc; pb_log : Log }.

(** [conn]: the cached connection, or a new one. *)
Definition psrpc_conn (d : ConnDraws) (b : PsrpcBus) : Result string loc * option loc := lazy_conn "redis manager: " d (pb_conn b).

(** One attempt: the draws of a new connection and the answer to the command. *)
Record Attempt := mkAttempt { at_conn : ConnDraws; at_reply : Result string unit }.

(** [publish]: up to two attempts, the second after the cached connection was dropped. *)
Fixpoint publish_attempts (attempts : nat) (channel : string) (payload : list Z) (ds : list Attempt) (b : PsrpcBus) :
    option (Result string unit) * PsrpcBus :=
  match attempts, ds with
  | S attempts, d :: ds =>
      match psrpc_conn (at_conn d) b with
      | (Err e, cell) => (Some (Err e), mkPsrpcBus cell (pb_log b))
      | (Ok conn, cell) =>
          let log := pb_log b ++ [(conn, Publish channel payload)] in
          match at_reply d with
          | Ok _ => (Some (Ok ()), mkPsrpcBus cell log)
          | Err e =>
              let b := mkPsrpcBus None log in
              match attempts with
              | O => (Some (Err ("redis publish: " +:+ e)), b)
              | S _ => publish_attempts attempts channel payload ds b
              end
          end
      end
  | _, _ => (None, b)
  end.
Definition redis_publish (channel : string) (payload : list Z) (first second : Attempt) (b : PsrpcBus) : option (Result string unit) * PsrpcBus :=
  publish_attempts 2 channel payload [first; second] b.

(** Publishing survives one bad connection.  A publication always returns; it sends the command
    once or twice, the second time over a connection made after the first failed; it reports
    success exactly when the last command it sent succeeded; and after a failure nothing stays
    cached, so the next publication connects again. *)
Theorem publish_retries_once channel payload d1 d2 b :
  exists r new, redis_publish channel payload d1 d2 b = (Some r, mkPsrpcBus (pb_conn (redis_publish channel payload d1 d2 b).2) (pb_log b ++ new)) /\
    let b' := (redis_publish channel payload d1 d2 b).2 in
    Forall (fun e => e.2 = Publish channel payload) new /\ (length new <= 2)%nat /\
    (r = Ok () <-> (length new = 1%nat /\ at_reply d1 = Ok ()) \/ (length new = 2%nat /\ at_reply d2 = Ok ())) /\
    (is_ok r = false -> pb_conn b' = None) /\
    (length new = 2%nat -> is_ok (at_reply d1) = false /\ exists c, cd_connect (at_conn d2) = Ok c /\ new !! 1%nat = Some (c, Publish channel payload)).
Proof.
  unfold redis_publish. cbn [publish_attempts]. unfold psrpc_conn. destruct (lazy_conn _ (at_conn d1) (pb_conn b)) as [r1 cell1] eqn:E1.
  apply lazy_conn_cases in E1 as [(c1 & -> & -> & _)|((e1 & ->) & _ & ->)].
  2: { exists (Err e1), []. rewrite app_nil_r. split; [by destruct b|]. cbn. split_and!; [constructor|lia|naive_solver|done|done]. }
  destruct (at_reply d1) as [[]|e1] eqn:R1.
  { exists (Ok ()), [(c1, Publish channel payload)]. split; [done|]. cbn. split_and!; [by apply list.Forall_singleton|lia|naive_solver|done|done]. }
  cbn [pb_conn pb_log]. destruct (lazy_conn "redis manager: " (at_conn d2) None) as [r2 cell2] eqn:E2. pose proof E2 as E2'.
  apply lazy_conn_cases in E2 as [(c2 & -> & -> & _)|((e2 & ->) & _ & ->)].
  2: { exists (Err e2), [(c1, Publish channel payload)]. split; [done|]. cbn.
       split_and!; [by apply list.Forall_singleton|lia|naive_solver|done|done]. }
  assert (cd_connect (at_conn d2) = Ok c2) as Hc.
  { unfold lazy_conn in E2'. destruct (cd_open (at_conn d2)); [|done]. destruct (cd_connect (at_conn d2)); [|done]. by injection E2' as -> _. }
  destruct (at_reply d2) as [[]|e2] eqn:R2; cbn [publish_attempts].
  - exists (Ok ()), [(c1, Publish channel payload); (c2, Publish channel payload)]. rewrite <- app_assoc. split; [done|]. cbn.
    split_and!; [by repeat constructor|lia|naive_solver|done|naive_solver].
  - exists (Err ("redis publish: " +:+ e2)), [(c1, Publish channel payload); (c2, Publish channel payload)]. rewrite <- app_assoc. split; [done|]. cbn.
    split_and!; [by repeat constructor|lia|naive_solver|done|naive_solver].
Qed.

(** ** The subscription task *)

(** Where the task is: about to connect (or sleeping before it), subscribing the channels that are
    left on a connection, or forwarding messages. *)
Inductive SubPc := Connecting | Subscribing (rest : list string) | Streaming | Returned.
(** The task, whether the caller was told, and what it forwarded. *)
Record SubTask := mkTask { sb_pc : SubPc; sb_ready : bool; sb_subscribed : list string; sb_out : list (string * list Z) }.
Definition sub_start : SubTask := mkTask Connecting false [] [].

Inductive SubInput :=
| Connected (ok : bool)
| Subscribed (ok : bool)
| Message (channel : string) (payload : option (list Z))
| StreamEnded
| ReceiverGone (channel : string) (payload : option (list Z)).

(** All channels are subscribed: the caller is told, once. *)
Definition streaming (t : SubTask) : SubTask := mkTask Streaming true (sb_subscribed t) (sb_out t).

(** One answer of Redis; a failure makes the task sleep and start over. *)
Definition sub_input (channels : list string) (i : SubInput) (t : SubTask) : SubTask :=
  match sb_pc t, i with
  | Connecting, Connected true =>
      match channels with
      | [] => streaming (mkTask Connecting (sb_ready t) [] (sb_out t))
      | _ => mkTask (Subscribing channels) (sb_ready t) [] (sb_out t)
      end
  | Connecting, Connected false => t
  | Subscribing (c :: rest), Subscribed true =>
      let t := mkTask (Subscribing rest) (sb_ready t) (sb_subscribed t ++ [c]) (sb_out t) in
      match rest with [] => streaming t | _ => t end
  | Subscribing _, Subscribed false => mkTask Connecting (sb_ready t) [] (sb_out t)
  | Streaming, Message channel payload => mkTask Streaming (sb_ready t) (sb_subscribed t) (sb_out t ++ [(channel, default [] payload)])
  | Streaming, StreamEnded => mkTask Connecting (sb_ready t) [] (sb_out t)
  | Streaming, ReceiverGone _ _ => mkTask Returned (sb_ready t) (sb_subscribed t) (sb_out t)
  | _, _ => t
  end.
Definition sub_run (channels : list string) (ins : list SubInput) (t : SubTask) : SubTask :=
  foldl (fun t i => sub_input channels i t) t ins.

Definition sub_ok (channels : list string) (t : SubTask) : Prop :=
  match sb_pc t with
  | Connecting => sb_subscribed t = []
  | Subscribing rest => rest <> [] /\ sb_subscribed t ++ rest = channels
  | Streaming | Returned => sb_subscribed t = channels /\ sb_ready t = true
  end.

Lemma sub_input_ok channels i t : sub_ok channels t -> sub_ok channels (sub_input channels i t).
Proof.
  destruct t as [pc ready subs out]. unfold sub_ok. cbn [sb_pc sb_subscribed sb_ready].
  destruct pc as [|rest| |], i as [ok|ok|ch p| |ch p]; cbn; try done; try (by destruct ok).
  - intros ->. destruct ok; [|done]. destruct channels; by cbn.
  - by destruct rest.
  - intros [Hl Hs]. destruct rest as [|c rest]; [done|]. destruct ok; cbn; [|done]. destruct rest as [|c' rest]; cbn.
    + done.
    + split; [done|]. by rewrite <- app_assoc.
  - by destruct rest.
  - by destruct rest.
  - by destruct rest.
Qed.

(** The answers that take the task from the start of a turn to its stream. *)
Definition good_turn (channels : list string) : list SubInput := Connected true :: replicate (length channels) (Subscribed true).

Lemma sub_run_cons channels i ins t : sub_run channels (i :: ins) t = sub_run channels ins (sub_input channels i t).
Proof. done. Qed.

Lemma subscribing_run channels rest : forall subs ready out, rest <> [] ->
  sub_run channels (replicate (length rest) (Subscribed true)) (mkTask (Subscribing rest) ready subs out) = mkTask Streaming true (subs ++ rest) out.
Proof.
  induction rest as [|c rest IH]; intros subs ready out H; [done|]. cbn [length replicate]. rewrite sub_run_cons.
  cbn [sub_input sb_pc sb_ready sb_subscribed sb_out]. destruct rest as [|c' rest].
  - reflexivity.
  - rewrite (IH (subs ++ [c]) ready out) by done. by rewrite <- app_assoc.
Qed.

(** The subscription survives its connection.  However often connecting, subscribing or the stream
    fails: the caller is told only once every channel is subscribed; while the task streams, all
    channels are subscribed on its connection; and from any state in which it is not gone and not
    in the middle of a turn, one good turn of Redis brings it back to streaming, with what it
    forwarded before kept.  As long as Redis does not answer, the caller is not told: subscribing
    waits without a limit. *)
Theorem subscription_recovers channels ins :
  let t := sub_run channels ins sub_start in
  sub_ok channels t /\
  (sb_ready t = true -> exists pre post, ins = pre ++ post /\ sb_subscribed (sub_run channels pre sub_start) = channels /\
     sb_pc (sub_run channels pre sub_start) = Streaming) /\
  (sb_pc t = Connecting -> sub_run channels (good_turn channels) t = mkTask Streaming true channels (sb_out t)) /\
  (Forall (fun i => i = Connected false) ins -> t = sub_start).
Proof.
  intros t.
  assert (forall ins t0, sub_ok channels t0 -> sub_ok channels (sub_run channels ins t0)) as Hok.
  { intros l. induction l as [|i l IH]; intros t0 H; [done|]. cbn. by apply IH, sub_input_ok. }
  assert (sub_ok channels t) as Ht by (by apply Hok). split; [done|]. split; [|split].
  - unfold t. clear t Ht. induction ins as [|i ins IH] using rev_ind; [done|].
    unfold sub_run. rewrite foldl_app. cbn [foldl]. fold (sub_run channels ins sub_start). intros Hr.
    destruct (sb_ready (sub_run channels ins sub_start)) eqn:Er.
    + destruct (IH eq_refl) as (pre & post & -> & H). exists pre, (post ++ [i]). by rewrite app_assoc.
    + exists (ins ++ [i]), []. rewrite app_nil_r. split; [done|]. unfold sub_run. rewrite foldl_app. cbn [foldl].
      fold (sub_run channels ins sub_start). pose proof (sub_input_ok channels i _ (Hok ins sub_start eq_refl)) as H1.
      set (t1 := sub_run channels ins sub_start) in *.
      assert (sb_pc (sub_input channels i t1) = Streaming) as Hs.
      { destruct t1 as [pc ready subs out]. cbn in Er. subst ready. destruct pc as [|rest| |], i as [ok|ok|ch p| |ch p]; cbn in Hr |- *; try done.
        - destruct ok; [|done]. by destruct channels.
        - by destruct rest.
        - by destruct ok, rest as [|c [|c' rest]].
        - by destruct rest.
        - by destruct rest.
        - by destruct rest. }
      unfold sub_ok in H1. rewrite Hs in H1. by destruct H1.
  - intros Hc. destruct t as [pc ready subs out]. cbn in Hc. subst pc. unfold good_turn. rewrite sub_run_cons. cbn [sub_input sb_pc sb_ready sb_out].
    destruct channels as [|c channels]; [reflexivity|]. by rewrite subscribing_run.
  - intros Hf. unfold t. clear -Hf. induction Hf as [|i l -> _ IH]; [done|]. exact IH.
Qed.

(** ** The in-memory message bus *)

(** The senders registered for each channel, and the queues of the receivers that are alive. *)
Record MemBus := mkMemBus { mb_subs : gmap string (list nat); mb_queues : gmap nat (list (string * list Z)); mb_next : nat }.
Definition mem_bus_new : MemBus := mkMemBus ∅ ∅ 0.

(** [sub.send(..)]; an error means that the receiver is gone, and is ignored. *)
Definition mem_send (msg : string * list Z) (queues : gmap nat (list (string * list Z))) (sub : nat) : gmap nat (list (string * list Z)) :=
  match queues !! sub with Some q => <[sub := q ++ [msg]]> queues | None => queues end.
Definition mem_publish (channel : string) (payload : list Z) (b : MemBus) : MemBus :=
  mkMemBus (mb_subs b) (foldl (mem_send (channel, payload)) (mb_queues b) (default [] (mb_subs b !! channel))) (mb_next b).
Definition mem_subscribe (channels : list string) (b : MemBus) : nat * MemBus :=
  (mb_next b,
   mkMemBus (foldl (fun subs c => <[c := default [] (subs !! c) ++ [mb_next b]]> subs) (mb_subs b) channels)
     (<[mb_next b := []]> (mb_queues b)) (S (mb_next b))).
(** A dropped stream: its queue goes, its senders stay registered. *)
Definition mem_drop (sub : nat) (b : MemBus) : MemBus := mkMemBus (mb_subs b) (delete sub (mb_queues b)) (mb_next b).

Inductive MemOp := MPublish (channel : string) (payload : list Z) | MSubscribe (channels : list string) | MDrop (sub : nat).
Definition mem_op (b : MemBus) (o : MemOp) : MemBus :=
  match o with
  | MPublish c p => mem_publish c p b
  | MSubscribe cs => (mem_subscribe cs b).2
  | MDrop sub => mem_drop sub b
  end.

(** What a receiver of [channels] is sent. *)
Definition heard (channels : list string) (ops : list MemOp) : list (string * list Z) :=
  omap (fun o => match o with MPublish c p => if bool_decide (c ∈ channels) then Some (c, p) else None | _ => None end) ops.

(** Subscriber [sub] is registered once for each of [channels] and for nothing else. *)
Definition listens (sub : nat) (channels : list string) (b : MemBus) : Prop :=
  (sub < mb_next b)%nat /\
  forall c, filter (fun s => s = sub) (default [] (mb_subs b !! c)) = if bool_decide (c ∈ channels) then [sub] else [].
(** Registered senders have been handed out before. *)
Definition mem_ok (b : MemBus) : Prop := forall c, Forall (fun s => (s < mb_next b)%nat) (default [] (mb_subs b !! c)).

Lemma mem_send_fold msg l queues sub q : queues !! sub = Some q ->
  foldl (mem_send msg) queues l !! sub = Some (q ++ replicate (length (filter (fun s => s = sub) l)) msg).
Proof.
  revert queues q. induction l as [|s l IH]; intros queues q Hq; cbn [foldl].
  - rewrite filter_nil. cbn. by rewrite app_nil_r.
  - rewrite filter_cons. destruct (decide (s = sub)) as [->|Hs].
    + rewrite (IH _ (q ++ [msg])); [|unfold mem_send; by rewrite Hq, lookup_insert_eq]. cbn. by rewrite <- app_assoc.
    + apply IH. unfold mem_send. destruct (queues !! s); [|done]. by rewrite lookup_insert_ne.
Qed.

Lemma mem_subscribe_subs channels (subs : gmap string (list nat)) n c :
  default [] (foldl (fun subs c => <[c := default [] (subs !! c) ++ [n]]> subs) subs channels !! c) =
  default [] (subs !! c) ++ replicate (length (filter (fun c' => c' = c) channels)) n.
Proof.
  revert subs. induction channels as [|c' channels IH]; intros subs; cbn [foldl].
  - rewrite filter_nil. cbn. by rewrite app_nil_r.
  - rewrite IH, filter_cons. destruct (decide (c' = c)) as [->|Hc].
    + rewrite lookup_insert_eq. cbn. by rewrite <- app_assoc.
    + by rewrite lookup_insert_ne.
Qed.

Lemma mem_op_ok b o : mem_ok b -> mem_ok (mem_op b o).
Proof.
  intros H c. destruct o as [c' p|cs|s]; [apply H| |apply H]. cbn [mem_op mem_subscribe snd mb_subs mb_next].
  rewrite mem_subscribe_subs. apply Forall_app. split.
  - eapply Forall_impl; [|apply H]. cbn. lia.
  - apply Forall_replicate. lia.
Qed.

Lemma filter_none (l : list nat) n : Forall (fun s => (s < n)%nat) l -> filter (fun s => s = n) l = [].
Proof.
  induction 1 as [|s l Hs _ IH]; [done|]. rewrite filter_cons. destruct (decide (s = n)) as [->|]; [lia|done].
Qed.

(** A new receiver is registered for its channels. *)
Lemma mem_subscribe_listens channels b : mem_ok b -> NoDup channels ->
  listens (mem_subscribe channels b).1 channels (mem_subscribe channels b).2.
Proof.
  intros Hb Hnd. split; [cbn; lia|]. intros c. cbn [mem_subscribe fst snd mb_subs]. rewrite mem_subscribe_subs, list.filter_app.
  rewrite (filter_none _ _ (Hb c)). cbn [app].
  assert (length (filter (fun c' => c' = c) channels) = if bool_decide (c ∈ channels) then 1 else 0)%nat as ->.
  { induction Hnd as [|c' channels Hc' _ IH]; [done|]. rewrite filter_cons. destruct (decide (c' = c)) as [->|Hne].
    - cbn [length]. rewrite IH, (bool_decide_true (c ∈ c :: _)), (bool_decide_false (c ∈ channels)) by (done || left). done.
    - rewrite IH. do 2 case_bool_decide; try done; set_solver. }
  destruct (bool_decide _); cbn [replicate]; [|done]. by rewrite filter_cons, decide_True by done.
Qed.

Lemma mem_op_listens sub channels o b : mem_ok b -> listens sub channels b -> listens sub channels (mem_op b o).
Proof.
  intros Hb [Hn H]. destruct o as [c' p|cs|s]; [by split| |by split]. split; [cbn; lia|]. intros c.
  cbn [mem_op mem_subscribe snd mb_subs]. rewrite mem_subscribe_subs, list.filter_app, H.
  enough (filter (fun s => s = sub) (replicate (length (filter (fun c' => c' = c) cs)) (mb_next b)) = []) as ->.
  { by rewrite app_nil_r. }
  induction (length _) as [|n IH]; [done|]. cbn [replicate]. rewrite filter_cons, decide_False by lia. done.
Qed.

(** The in-memory bus loses nothing and keeps the order.  A receiver that is not dropped holds,
    after whatever else happens on the bus, exactly the messages published on its channels
    since it subscribed, once each and in the order of publication. *)
Theorem memory_bus_delivers channels ops b : mem_ok b -> NoDup channels ->
  let '(sub, b0) := mem_subscribe channels b in
  MDrop sub ∉ ops -> mb_queues (foldl mem_op b0 ops) !! sub = Some (heard channels ops).
Proof.
  intros Hb Hnd. pose proof (mem_subscribe_listens channels b Hb Hnd) as Hl. pose proof (mem_op_ok b (MSubscribe channels) Hb) as Hb0.
  assert (mb_queues (mem_subscribe channels b).2 !! (mem_subscribe channels b).1 = Some []) as Hq by (cbn; apply lookup_insert_eq).
  cbn [mem_op] in Hb0. destruct (mem_subscribe channels b) as [sub b0]. cbn [fst snd] in *. clear Hb b Hnd. intros Hd.
  change (heard channels ops) with ([] ++ heard channels ops). revert b0 Hb0 Hl Hq Hd. generalize ([] : list (string * list Z)) as q.
  induction ops as [|o ops IH]; intros q b Hb Hl Hq Hd; cbn [foldl heard omap list_omap]; [by rewrite app_nil_r|].
  apply not_elem_of_cons in Hd as [Ho Hd]. pose proof (mem_op_ok b o Hb) as Hb'. pose proof (mem_op_listens sub channels o b Hb Hl) as Hl'.
  destruct o as [c p|cs|s]; cbn [mem_op] in *.
  - assert (mb_queues (mem_publish c p b) !! sub = Some (q ++ if bool_decide (c ∈ channels) then [(c, p)] else [])) as Hq'.
    { cbn [mem_publish mb_queues]. rewrite (mem_send_fold _ _ _ _ _ Hq), (proj2 Hl c). by destruct (bool_decide _). }
    rewrite (IH _ _ Hb' Hl' Hq' Hd), <- app_assoc. by destruct (bool_decide _).
  - apply IH; try done. cbn [mem_subscribe snd mb_queues]. rewrite lookup_insert_ne; [done|]. destruct Hl as [Hn _]. lia.
  - apply IH; try done. cbn [mem_drop mb_queues]. rewrite lookup_delete_ne; [done|]. congruence.
Qed.

(** Dropped receivers stay registered: every publication still visits their senders. *)
Example dropped_receiver_stays_registered :
  let b := mem_drop 0 (mem_subscribe ["a"] mem_bus_new).2 in
  mb_subs (mem_publish "a" [1] b) !! "a" = Some [0%nat] /\ mb_queues (mem_publish "a" [1] b) = ∅.
Proof. vm_compute. done. Qed.
