(* ===== verification/BusClients.v ===== *)
(** The services on the message bus: the typed clients of the server ([crates/lk-server/src/psrpc.rs])
    and of the recorder ([crates/lk-egress/src/io.rs]), who registers which method
    ([server.rs] of both crates), and the clients the server makes on first use
    ([crates/lk-server/src/server.rs]).  The claim flow itself is in [Psrpc]. *)
From Stdlib Require Import ZArith Lia Ascii String.
From stdpp Require Import base gmap strings list option.
From S2P Require Import Prelude RustStr Config Psrpc.

Open Scope string_scope.
Open Scope list_scope.
Open Scope Z_scope.

(** * Calls *)

Definition SIP_SERVICE : string := "SIPInternal".
Definition IOINFO_SIP_SERVICE : string := "IOInfoSIP".
(** [DEFAULT_TIMEOUT], in seconds. *)
Definition DEFAULT_TIMEOUT : Z := 30.

(** Where a call goes. *)
Record Target := mkTarget { tg_service : string; tg_method : string; tg_topic : string }.
Definition target_channel (t : Target) : string := rpc_channel (lit (tg_service t)) (lit (tg_method t)) (lit (tg_topic t)).

(** The calls of the typed clients: [SipInternalClient], [EgressClient] and [IoClient]. *)
Inductive ClientCall :=
| CreateSip | TransferSip (sip_call_id : string) | StartEgress | StopEgress (egress_id : string) | CreateEgress | UpdateEgress.
Definition target (c : ClientCall) : Target :=
  match c with
  | CreateSip => mkTarget SIP_SERVICE "CreateSIPParticipant" ""
  | TransferSip id => mkTarget SIP_SERVICE "TransferSIPParticipant" id
  | StartEgress => mkTarget "EgressInternal" "StartEgress" ""
  | StopEgress id => mkTarget "EgressHandler" "StopEgress" id
  | CreateEgress => mkTarget "IOInfo" "CreateEgress" ""
  | UpdateEgress => mkTarget "IOInfo" "UpdateEgress" ""
  end.

Section TypedClients.
(** [request_single] of the client of a service: payload and timeout in seconds. *)
Context (request_single : Target -> list Z -> Z -> Result PsrpcError (list Z)).
(** The messages in protobuf. *)
Context {SipReq SipResp TransferReq StartReq StopReq Info : Type}.
Context (enc_sip : SipReq -> list Z) (dec_sip : list Z -> Result string SipResp) (enc_transfer : TransferReq -> list Z)
        (enc_start : StartReq -> list Z) (enc_stop : StopReq -> list Z) (enc_info : Info -> list Z) (dec_info : list Z -> Result string Info).

(** [PsrpcClient::request]. *)
Definition request (t : Target) (payload : list Z) : Result PsrpcError (list Z) := request_single t payload DEFAULT_TIMEOUT.

Definition create_sip_participant_with_timeout (req : SipReq) (timeout : Z) : Result PsrpcError SipResp :=
  raw ← request_single (target CreateSip) (enc_sip req) timeout; map_err Malformed (dec_sip raw).
Definition create_sip_participant (req : SipReq) : Result PsrpcError SipResp :=
  raw ← request (target CreateSip) (enc_sip req); map_err Malformed (dec_sip raw).
Definition transfer_sip_participant (sip_call_id : string) (req : TransferReq) : Result PsrpcError unit :=
  _ ← request (target (TransferSip sip_call_id)) (enc_transfer req); Ok ().
Definition start_egress (req : StartReq) : Result PsrpcError Info :=
  raw ← request (target StartEgress) (enc_start req); map_err Malformed (dec_info raw).
Definition stop_egress (egress_id : string) (req : StopReq) : Result PsrpcError Info :=
  raw ← request (target (StopEgress egress_id)) (enc_stop req); map_err Malformed (dec_info raw).
Definition create_egress (info : Info) : Result PsrpcError unit := _ ← request (target CreateEgress) (enc_info info); Ok ().
Definition update_egress (info : Info) : Result PsrpcError unit := _ ← request (target UpdateEgress) (enc_info info); Ok ().
End TypedClients.

(** * Registrations *)

(** [register] and [register_topic] in the order of the source; the first failure ends the
    start-up, with what was registered before it. *)
Fixpoint register_all (register : Target -> Result string unit) (ts done : list Target) : Result string unit * list Target :=
  match ts with
  | [] => (Ok (), done)
  | t :: ts =>
      match register t with
      | Ok _ => register_all register ts (done ++ [t])
      | Err e => (Err e, done)
      end
  end.

Definition sip_io_targets : list Target :=
  (fun m => mkTarget IOINFO_SIP_SERVICE m "") <$>
    ["GetSIPTrunkAuthentication"; "EvaluateSIPDispatchRules"; "UpdateSIPCallState"; "RecordCallContext"].
Definition io_info_targets : list Target := (fun m => mkTarget "IOInfo" m "") <$> ["CreateEgress"; "UpdateEgress"].

(** [EgressServer::new] of the recorder. *)
Definition recorder_targets : list Target := (fun m => mkTarget "EgressInternal" m "") <$> ["StartEgress"; "ListActiveEgress"].
Definition start_recorder (register : Target -> Result string unit) : Result string unit * list Target :=
  register_all register recorder_targets [].
(** The topic a running recording registers. *)
Definition stop_target (egress_id : string) : Target := mkTarget "EgressHandler" "StopEgress" egress_id.

(** * Clients made on first use *)

Section Lazy.
Context {Client : Type}.

(** The [OnceCell]s of the server; the SIP service is started or not. *)
Record Cells := mkCells { ce_sip : option Client; ce_egress : option Client; ce_sip_io : bool; ce_registered : list Target }.
Definition cells_new : Cells := mkCells None None false [].

Definition sip_client_with (connect : Result string Client) (c : Cells) : Result string Client * Cells :=
  match ce_sip c with
  | Some client => (Ok client, c)
  | None => match connect with
            | Err e => (Err e, c)
            | Ok client => (Ok client, mkCells (Some client) (ce_egress c) (ce_sip_io c) (ce_registered c))
            end
  end.
Definition sip_client (redis : RedisConfig) (connect : Result string Client) (c : Cells) : Result string Client * Cells :=
  match ce_sip c with
  | Some client => (Ok client, c)
  | None => if negb (is_configured redis) then (Err "outbound SIP requires redis (psrpc bus) and a livekit/sip bridge", c)
            else sip_client_with connect c
  end.

(** [EgressClient::new] makes two clients: both must connect. *)
Definition egress_connect {A} (pair : A -> A -> Client) (internal handler : Result string A) : Result string Client :=
  i ← internal; h ← handler; Ok (pair i h).
Definition egress_client_with (connect : Result string Client) (c : Cells) : Result string Client * Cells :=
  match ce_egress c with
  | Some client => (Ok client, c)
  | None => match connect with
            | Err e => (Err e, c)
            | Ok client => (Ok client, mkCells (ce_sip c) (Some client) (ce_sip_io c) (ce_registered c))
            end
  end.
Definition egress_client (redis : RedisConfig) (connect : Result string Client) (c : Cells) : Result string Client * Cells :=
  match ce_egress c with
  | Some client => (Ok client, c)
  | None => if negb (is_configured redis) then (Err "egress requires redis (psrpc bus) and a livekit-egress recorder", c)
            else egress_client_with connect c
  end.

Definition start_sip_io_with (register : Target -> Result string unit) (c : Cells) : Result string unit * Cells :=
  if ce_sip_io c then (Ok (), c)
  else
    let '(r, done) := register_all register (sip_io_targets ++ io_info_targets) (ce_registered c) in
    (r, mkCells (ce_sip c) (ce_egress c) (is_ok r) done).
Definition start_sip_io (redis : RedisConfig) (register : Target -> Result string unit) (c : Cells) : Result string unit * Cells :=
  if ce_sip_io c then (Ok (), c)
  else if negb (is_configured redis) then (Err "inbound SIP requires redis (psrpc bus) and a livekit/sip bridge", c)
  else start_sip_io_with register c.
End Lazy.

(** * Calls meet registrations *)

Lemma register_all_ok register ts : forall done r done', register_all register ts done = (r, done') ->
  exists reg, done' = done ++ reg /\ reg `prefix_of` ts /\ (r = Ok () -> reg = ts).
Proof.
  induction ts as [|t ts IH]; intros acc r acc' E; cbn in E.
  - injection E as <- <-. exists []. by rewrite app_nil_r.
  - destruct (register t) as [[]|e].
    + destruct (IH _ _ _ E) as (reg & -> & Hp & Hr). exists (t :: reg). split; [by rewrite <- app_assoc|]. split; [by apply prefix_cons|].
      intros Hok. by rewrite Hr.
    + injection E as <- <-. exists []. rewrite app_nil_r. split_and!; [done|apply prefix_nil|done].
Qed.

Lemma lit_inj s s' : lit s = lit s' -> s = s'.
Proof.
  revert s'. induction s as [|a s IH]; intros [|a' s'] E; cbn in E; try done. injection E as E1 E2. f_equal; [|by apply IH].
  unfold code in E1. apply Nat2Z.inj in E1. rewrite <- (ascii_nat_embedding a), <- (ascii_nat_embedding a'). by rewrite E1.
Qed.

Lemma target_channel_inj t t' :
  tg_service t <> "" -> tg_method t <> "" -> tg_service t' <> "" -> tg_method t' <> "" ->
  target_channel t = target_channel t' -> t = t'.
Proof.
  assert (forall s, s <> "" -> name_ok (lit s)) as Hn.
  { intros s Hs. split; [by destruct s|apply lit_ok]. }
  intros H1 H2 H3 H4 E. apply rpc_channel_inj in E as (E1 & E2 & E3); try (by apply Hn); try apply lit_ok.
  destruct t, t'. cbn in *. apply lit_inj in E1, E2, E3. by subst.
Qed.

(** Every call finds its service, and only its service.  Once the server's SIP service and the
    recorder have started, the recorder's reports go to channels the server listens on, a start
    request goes to a channel the recorder listens on, and a stop request to the channel of the
    running recording with its id; a registered method hears a call exactly when service, method
    and topic are the call's: no stop reaches another recording. *)
Theorem bus_calls_meet_registrations {Client} redis reg_server reg_recorder (cells cells' : @Cells Client) recorder :
  ce_sip_io cells = false -> start_sip_io redis reg_server cells = (Ok (), cells') ->
  start_recorder reg_recorder = (Ok (), recorder) ->
  (forall c, c = CreateEgress \/ c = UpdateEgress -> target_channel (target c) ∈ target_channel <$> ce_registered cells') /\
  target_channel (target StartEgress) ∈ target_channel <$> recorder /\
  (forall id id', target_channel (target (StopEgress id)) = target_channel (stop_target id') <-> id = id') /\
  (forall c t, t ∈ recorder ++ io_info_targets ++ sip_io_targets -> target_channel (target c) = target_channel t <-> target c = t).
Proof.
  intros Hn Hs Hr.
  assert (recorder = recorder_targets) as ->.
  { destruct (register_all_ok _ _ _ _ _ Hr) as (reg & -> & _ & Hok). by rewrite Hok. }
  assert (forall t, t ∈ io_info_targets -> t ∈ ce_registered cells') as Hin.
  { unfold start_sip_io in Hs. rewrite Hn in Hs. destruct (negb _); [done|]. unfold start_sip_io_with in Hs. rewrite Hn in Hs.
    destruct (register_all _ _ _) as [r acc] eqn:E. injection Hs as Hr' <-. destruct (register_all_ok _ _ _ _ _ E) as (reg & -> & _ & Hok).
    intros t Ht. cbn. rewrite Hok by done. rewrite !elem_of_app. auto. }
  split_and!.
  - intros c Hc. apply list_elem_of_fmap. exists (target c). split; [done|]. apply Hin. destruct Hc as [->| ->]; [by left|by right; left].
  - apply list_elem_of_fmap. exists (target StartEgress). split; [done|]. by left.
  - intros id id'. split; [|by intros ->]. intros E. apply target_channel_inj in E; [|done..]. by injection E.
  - intros c t Ht. split; [|by intros ->]. apply target_channel_inj; try (by destruct c).
    all: repeat (apply elem_of_cons in Ht as [->|Ht]; [done|]); by apply elem_of_nil in Ht.
Qed.

(** A client is made at most once: after a success every later request gets the same client
    without connecting, and without Redis nothing is tried. *)
Theorem lazy_clients_cached {Client} redis connect connect' (c c' : @Cells Client) client :
  sip_client redis connect c = (Ok client, c') ->
  sip_client redis connect' c' = (Ok client, c') /\ ce_egress c' = ce_egress c /\ ce_registered c' = ce_registered c /\
  (ce_sip c = None -> is_configured redis = true).
Proof.
  unfold sip_client. destruct (ce_sip c) as [x|] eqn:E.
  - intros [= <- <-]. rewrite E. done.
  - destruct (is_configured redis) eqn:Er; [|done]. cbn. unfold sip_client_with. rewrite E. destruct connect as [x|]; [|done].
    intros [= <- <-]. done.
Qed.
