(* ===== verification/Sts.v ===== *)
(** Temporary credentials for uploads ([crates/lk-egress/src/sts.rs]): the request body of
    [sts:AssumeRole], the call, and the reading of its answer.  The percent encoder, the request
    signer, the HTTP client and the XML reader are parameters. *)
From Stdlib Require Import ZArith Lia Ascii String.
From stdpp Require Import base gmap strings list option.
From S2P Require Import Prelude RustStr.

Open Scope string_scope.
Open Scope list_scope.
Open Scope Z_scope.

(** * The answer *)

(** An event of the XML reader: element names, text (or why it does not unescape), the error that
    ends the reading, anything else. *)
Inductive XmlEvent := XStart (name : string) | XText (text : Result string string) | XEnd (name : string) | XError (e : string) | XOther.

Record TempCredentials := mkTemp { access_key_id : string; secret_access_key : string; session_token : string }.

(** The values read so far and the elements the reader is in. *)
Record CredReader := mkReader { cr_creds : TempCredentials; cr_access : bool; cr_secret : bool; cr_token : bool }.
Definition reader_start : CredReader := mkReader (mkTemp "" "" "") false false false.

Definition mark (name : string) (inside : bool) (r : CredReader) : CredReader :=
  if (name =? "AccessKeyId")%string then mkReader (cr_creds r) inside (cr_secret r) (cr_token r)
  else if (name =? "SecretAccessKey")%string then mkReader (cr_creds r) (cr_access r) inside (cr_token r)
  else if (name =? "SessionToken")%string then mkReader (cr_creds r) (cr_access r) (cr_secret r) inside
  else r.
Definition take_text (text : string) (r : CredReader) : CredReader :=
  let c := cr_creds r in
  let c := if cr_access r then mkTemp text (secret_access_key c) (session_token c)
           else if cr_secret r then mkTemp (access_key_id c) text (session_token c)
           else if cr_token r then mkTemp (access_key_id c) (secret_access_key c) text
           else c in
  mkReader c (cr_access r) (cr_secret r) (cr_token r).

(** The loop; the end of the list is the end of the document. *)
Fixpoint read_events (events : list XmlEvent) (r : CredReader) : Result string CredReader :=
  match events with
  | [] => Ok r
  | XStart name :: rest => read_events rest (mark name true r)
  | XEnd name :: rest => read_events rest (mark name false r)
  | XText (Ok text) :: rest => read_events rest (take_text text r)
  | XText (Err e) :: _ => Err e
  | XError e :: _ => Err ("sts xml parse: " +:+ e)
  | XOther :: rest => read_events rest r
  end.

Definition fmt_bool (b : bool) : string := if b then "true" else "false".
Definition present (s : string) : bool := negb (s =? "")%string.

Definition parse_credentials (events : list XmlEvent) : Result string TempCredentials :=
  r ← read_events events reader_start;
  let c := cr_creds r in
  if present (access_key_id c) && present (secret_access_key c) && present (session_token c) then Ok c
  else Err ("sts response missing credentials (access=" +:+ fmt_bool (present (access_key_id c)) +:+ ", secret=" +:+
            fmt_bool (present (secret_access_key c)) +:+ ", token=" +:+ fmt_bool (present (session_token c)) +:+ ")").

(** [error_message]: the last [Message] that unescapes, or the start of the document. *)
Fixpoint read_message (events : list XmlEvent) (inside : bool) (message : string) : string :=
  match events with
  | [] | XError _ :: _ => message
  | XStart name :: rest => read_message rest (inside || (name =? "Message")%string) message
  | XEnd name :: rest => read_message rest (inside && negb (name =? "Message")%string) message
  | XText (Ok text) :: rest => read_message rest inside (if inside then text else message)
  | _ :: rest => read_message rest inside message
  end.
(** [s.chars().take(n).collect()] on UTF-8: a character starts at a byte that does not continue
    one. *)
Fixpoint take_chars (n : nat) (s : string) : string :=
  match s with
  | "" => ""
  | String c s' =>
      if (128 <=? code c) && (code c <? 192) then String c (take_chars n s')
      else match n with O => "" | S n' => String c (take_chars n' s') end
  end.
Definition error_message (xml : string) (events : list XmlEvent) : string :=
  let message := read_message events false "" in
  if (message =? "")%string then take_chars 200 xml else message.

(** * The call *)

(** [FORM_SAFE]: the ASCII characters that are escaped; [CONTROLS] are those below the space and DEL. *)
Definition FORM_SAFE (b : Z) : bool :=
  (b <? 32) || (b =? 127) || existsb (fun c => Z.of_nat (nat_of_ascii c) =? b) (list_ascii_of_string " #%&+,/:;<>?@[]^`{|}=") || (b =? 34).

Definition sts_region (region : string) : string :=
  if (region =? "")%string || (region =? "auto")%string then "us-east-1" else region.

Section AssumeRole.
Context (utf8_percent_encode : (Z -> bool) -> string -> string).
(** What the signer makes of body, region and identity, what the server answers (status and body),
    and the events of a document. *)
Context (sign : string -> string -> string -> string -> option string -> Result string (list (string * string))).
Context (post : string -> string -> list (string * string) -> Result string (Z * Result string string)).
(** How the HTTP library prints a status (its code and reason). *)
Context (xml_events : string -> list XmlEvent) (show_status : Z -> string).

Definition form_encode (value : string) : string := utf8_percent_encode FORM_SAFE value.

Definition sts_body (role_arn external_id : string) : string :=
  "Action=AssumeRole&Version=2011-06-15&RoleArn=" +:+ form_encode role_arn +:+ "&RoleSessionName=livekit-egress" +:+
  (if (external_id =? "")%string then "" else "&ExternalId=" +:+ form_encode external_id).

Definition is_success (status : Z) : bool := (200 <=? status) && (status <? 300).

Definition assume_role (base_access_key base_secret base_session_token region role_arn external_id : string) : Result string TempCredentials :=
  let region := sts_region region in
  let body := sts_body role_arn external_id in
  let uri := "https://sts." +:+ region +:+ ".amazonaws.com/" in
  let token := if (base_session_token =? "")%string then None else Some base_session_token in
  headers ← sign body region base_access_key base_secret token;
  '(status, text) ← map_err (fun e => "sts request: " +:+ e)
                      (post uri body (("content-type", "application/x-www-form-urlencoded") :: headers));
  text ← map_err (fun e => "sts response body: " +:+ e) text;
  if is_success status then parse_credentials (xml_events text)
  else Err ("sts assume role failed (" +:+ show_status status +:+ "): " +:+ error_message text (xml_events text)).
End AssumeRole.

(** * Reading is right *)

(** A document of leaf elements, each with its text. *)
Definition leaf (e : string * string) : list XmlEvent := [XStart e.1; XText (Ok e.2); XEnd e.1].
(** Reference: the last text of an element with this name. *)
Definition pick (name : string) (acc : string) (e : string * string) : string := if (e.1 =? name)%string then e.2 else acc.
Definition last_of (name : string) (els : list (string * string)) : string :=
  foldl (pick name) "" els.

Lemma leaf_read e rest c :
  read_events (leaf e ++ rest) (mkReader c false false false) =
  read_events rest (mkReader (mkTemp (if (e.1 =? "AccessKeyId")%string then e.2 else access_key_id c)
                                     (if (e.1 =? "SecretAccessKey")%string then e.2 else secret_access_key c)
                                     (if (e.1 =? "SessionToken")%string then e.2 else session_token c)) false false false).
Proof.
  destruct e as [name text], c as [a s t]. cbn [leaf app read_events fst snd]. unfold mark, take_text.
  destruct (String.eqb_spec name "AccessKeyId") as [->|]; [done|].
  destruct (String.eqb_spec name "SecretAccessKey") as [->|]; [done|].
  destruct (String.eqb_spec name "SessionToken") as [->|]; done.
Qed.

Lemma leaves_read els : forall c,
  read_events (List.flat_map leaf els) (mkReader c false false false) =
  Ok (mkReader (mkTemp (foldl (pick "AccessKeyId") (access_key_id c) els) (foldl (pick "SecretAccessKey") (secret_access_key c) els)
                       (foldl (pick "SessionToken") (session_token c) els)) false false false).
Proof.
  induction els as [|e els IH]; intros c; [by destruct c|]. cbn [List.flat_map foldl]. rewrite leaf_read, IH. done.
Qed.

(** Credentials are read as they stand in the answer.  For every document of leaf elements, in
    whatever order and among whatever other elements, the result is the text of each of the three
    elements, or an error exactly when one is missing or empty. *)
Theorem credentials_read els :
  let a := last_of "AccessKeyId" els in let s := last_of "SecretAccessKey" els in let t := last_of "SessionToken" els in
  match parse_credentials (List.flat_map leaf els) with
  | Ok c => c = mkTemp a s t /\ a <> "" /\ s <> "" /\ t <> ""
  | Err _ => a = "" \/ s = "" \/ t = ""
  end.
Proof.
  intros a s t. unfold parse_credentials.
  assert (read_events (List.flat_map leaf els) reader_start = Ok (mkReader (mkTemp a s t) false false false)) as ->.
  { apply leaves_read. }
  cbn [mbind Result_bind cr_creds access_key_id secret_access_key session_token]. unfold present.
  destruct (String.eqb_spec a ""), (String.eqb_spec s ""), (String.eqb_spec t ""); cbn; auto.
Qed.

(** * Values cannot change the request *)

(** Percent encoding as documented: bytes of the set and bytes that are not ASCII become [%] and
    two upper-case digits. *)
Definition hex_upper (d : Z) : ascii := ascii_of_nat (Z.to_nat (if d <? 10 then 48 + d else 55 + d)).
Definition escaped (set : Z -> bool) (c : ascii) : bool := (128 <=? code c) || set (code c).
Fixpoint percent (set : Z -> bool) (s : string) : string :=
  match s with
  | "" => ""
  | String c s => if escaped set c then String "%" (String (hex_upper (code c / 16)) (String (hex_upper (code c mod 16)) (percent set s)))
                  else String c (percent set s)
  end.

(** Reading it back. *)
Definition unhex (c : ascii) : Z := if code c <? 58 then code c - 48 else code c - 55.
Fixpoint unpercent (s : string) : string :=
  match s with
  | String c (String h (String l s') as rest) =>
      if Ascii.eqb c "%" then String (ascii_of_nat (Z.to_nat (16 * unhex h + unhex l))) (unpercent s') else String c (unpercent rest)
  | String c rest => String c (unpercent rest)
  | "" => ""
  end.

Lemma code_bounds c : 0 <= code c < 256.
Proof. unfold code. pose proof (nat_ascii_bounded c). lia. Qed.

Lemma hex_upper_code d : 0 <= d < 16 -> code (hex_upper d) = if d <? 10 then 48 + d else 55 + d.
Proof. intros Hd. unfold hex_upper, code. rewrite nat_ascii_embedding; destruct (Z.ltb_spec d 10); lia. Qed.
Lemma unhex_upper d : 0 <= d < 16 -> unhex (hex_upper d) = d.
Proof.
  intros Hd. unfold unhex. rewrite hex_upper_code by done. destruct (Z.ltb_spec d 10).
  - rewrite (proj2 (Z.ltb_lt _ _)) by lia. lia.
  - rewrite (proj2 (Z.ltb_ge _ _)) by lia. lia.
Qed.

Lemma unpercent_cons c s : c <> "%"%char -> unpercent (String c s) = String c (unpercent s).
Proof.
  intros Hc. destruct s as [|h [|l s]]; cbn [unpercent]; [done..|]. by destruct (Ascii.eqb_spec c "%").
Qed.

Lemma unpercent_percent set s : set 37 = true -> unpercent (percent set s) = s.
Proof.
  intros Hp. induction s as [|c s IH]; [done|]. cbn [percent]. destruct (escaped set c) eqn:E.
  - cbn [unpercent Ascii.eqb Bool.eqb]. pose proof (code_bounds c) as Hc.
    rewrite !unhex_upper by (first [apply Z.mod_pos_bound; lia|split; [apply Z.div_pos; lia|apply Z.div_lt_upper_bound; lia]]).
    rewrite <- Z.div_mod by lia. f_equal; [|exact IH]. unfold code. by rewrite Nat2Z.id, ascii_nat_embedding.
  - rewrite unpercent_cons; [by rewrite IH|]. intros ->. unfold escaped in E. change (code "%") with 37 in E. by rewrite Hp, orb_true_r in E.
Qed.

(** An escaped ASCII character that is no hexadecimal digit and not the percent sign does not
    occur. *)
Lemma percent_free set s x : escaped set x = true -> x <> "%"%char -> (forall d, 0 <= d < 16 -> hex_upper d <> x) -> free_of x (percent set s).
Proof.
  intros Hx Hp Hh. induction s as [|c s IH]; [done|]. cbn [percent]. destruct (escaped set c) eqn:E; rewrite !free_of_cons.
  - pose proof (code_bounds c). split_and!; try done; apply Hh;
      first [apply Z.mod_pos_bound; lia|split; [apply Z.div_pos; lia|apply Z.div_lt_upper_bound; lia]].
  - split; [|done]. intros ->. congruence.
Qed.

Section Body.
Context (utf8_percent_encode : (Z -> bool) -> string -> string).
Hypothesis percent_law : forall set s, utf8_percent_encode set s = percent set s.

(** The body of the request has exactly its fields.  Whatever text the role and the external id
    contain, splitting the body at the separators gives the five fields (four without an external
    id) under their names, and decoding gives the two values back: no value can add or change a
    field. *)
Theorem sts_body_fields role ext :
  split_on "&" (sts_body utf8_percent_encode role ext) =
    ["Action=AssumeRole"; "Version=2011-06-15"; "RoleArn=" +:+ form_encode utf8_percent_encode role; "RoleSessionName=livekit-egress"] ++
    (if (ext =? "")%string then [] else ["ExternalId=" +:+ form_encode utf8_percent_encode ext]) /\
  (forall v, free_of "=" (form_encode utf8_percent_encode v) /\ unpercent (form_encode utf8_percent_encode v) = v).
Proof.
  assert (forall v, free_of "&" (form_encode utf8_percent_encode v) /\ free_of "=" (form_encode utf8_percent_encode v)) as Hf.
  { intros v. unfold form_encode. rewrite percent_law. split; (apply percent_free; [reflexivity|discriminate|]).
    all: intros d Hd E; apply (f_equal code) in E; rewrite hex_upper_code in E by done.
    - change (code "&") with 38 in E. destruct (Z.ltb_spec d 10); lia.
    - change (code "=") with 61 in E. destruct (Z.ltb_spec d 10); lia. }
  split.
  - unfold sts_body. destruct (Hf role) as [Hr _], (Hf ext) as [He _].
    change ("Action=AssumeRole&Version=2011-06-15&RoleArn=" +:+ ?x) with
      ("Action=AssumeRole" +:+ String "&" ("Version=2011-06-15" +:+ String "&" ("RoleArn=" +:+ x))).
    rewrite split_on_app by reflexivity. rewrite split_on_app by reflexivity.
    assert (free_of "&" ("RoleArn=" +:+ form_encode utf8_percent_encode role)) as Hra by (apply free_of_app; split; [reflexivity|done]).
    destruct (ext =? "")%string.
    + change (?x +:+ ?y +:+ "&RoleSessionName=livekit-egress" +:+ "") with (x +:+ (y +:+ String "&" "RoleSessionName=livekit-egress")).
      rewrite <- str_app_assoc. rewrite split_on_app by done. rewrite split_on_free by reflexivity. done.
    + change ("&RoleSessionName=livekit-egress" +:+ "&ExternalId=" +:+ ?x) with
        (String "&" ("RoleSessionName=livekit-egress" +:+ String "&" ("ExternalId=" +:+ x))).
      rewrite <- str_app_assoc. rewrite split_on_app by done. rewrite split_on_app by reflexivity.
      rewrite split_on_free; [done|]. apply free_of_app. split; [reflexivity|done].
  - intros v. split; [by apply Hf|]. unfold form_encode. rewrite percent_law. by apply unpercent_percent.
Qed.
End Body.

Lemma sts_body_fields_witness : split_on "&" (sts_body percent "arn:aws:iam::1:role/r&Action=x" "e") =
  ["Action=AssumeRole"; "Version=2011-06-15"; "RoleArn=arn%3Aaws%3Aiam%3A%3A1%3Arole%2Fr%26Action%3Dx"; "RoleSessionName=livekit-egress"; "ExternalId=e"].
Proof. rewrite (proj1 (sts_body_fields percent (fun _ _ => eq_refl) "arn:aws:iam::1:role/r&Action=x" "e")). reflexivity. Defined.
