(* ===== verification/Startup.v ===== *)
(** Start-up of the two programs: command line, choice of the configuration, the parts of a
    server, its background tasks and listeners, and log lines ([main.rs] of [lk-server] and of
    [lk-egress], [Server::new] of [server.rs]). *)
From Stdlib Require Import ZArith Lia Ascii String.
From stdpp Require Import base gmap strings list option.
From S2P Require Import Prelude RustStr Auth Config Agent Webhook Egress Cluster RedisBus BusClients.

Open Scope string_scope.
Open Scope list_scope.
Open Scope Z_scope.

(** * The command line *)

Record Args := mkArgs { ar_config : option string; ar_config_body : option string; ar_dev : bool }.
Definition no_args : Args := mkArgs None None false.

(** [parse_args] on the arguments after the program's name; an error is the exit code. *)
Fixpoint parse_from (a : Args) (argv : list string) : Result Z Args :=
  match argv with
  | [] => Ok a
  | arg :: rest =>
      if (arg =? "--config")%string then
        match rest with
        | [] => Ok (mkArgs None (ar_config_body a) (ar_dev a))
        | v :: rest' => parse_from (mkArgs (Some v) (ar_config_body a) (ar_dev a)) rest'
        end
      else if (arg =? "--config-body")%string then
        match rest with
        | [] => Ok (mkArgs (ar_config a) None (ar_dev a))
        | v :: rest' => parse_from (mkArgs (ar_config a) (Some v) (ar_dev a)) rest'
        end
      else if (arg =? "--dev")%string then parse_from (mkArgs (ar_config a) (ar_config_body a) true) rest
      else if ((arg =? "--help") || (arg =? "-h"))%string then Err 0
      else Err 2
  end.
Definition parse_args (argv : list string) : Result Z Args := parse_from no_args argv.

(** The recorder's loop is the same, with a tuple for the record. *)
Definition recorder_args (argv : list string) : Result Z (option string * option string * bool) :=
  a ← parse_args argv; Ok (ar_config a, ar_config_body a, ar_dev a).

(** * The server's configuration *)

Section ServerConfig.
Context (yaml_config : string -> Result string Config) (yaml_keys : string -> Result string (gmap string string)).
Context (read_to_string : string -> Result string string).
Notation load := (load_config_from_yaml yaml_config yaml_keys).

Definition set_dev (c : Config) : Config :=
  Config.mkConfig (cf_port c) (cf_bind_addresses c) (cf_rtc c) (cf_redis c) (<["devkey" := "secret"]> (cf_keys c)) (cf_logging c)
    (cf_room c) (cf_webhook c) (cf_prometheus_port c) (cf_prometheus c) (cf_turn c) (cf_agents c) (cf_limit c) (cf_region c)
    (cf_node_id c) true (cf_signal_relay c) (cf_psrpc c) (cf_log_level c).

Definition server_config (env : gmap string string) (args : Args) : Result string Config :=
  match ar_config_body args, ar_config args, env !! "LIVEKIT_CONFIG" with
  | Some body, _, _ => load env body
  | None, _, Some body => load env body
  | None, Some path, _ =>
      yaml ← map_err (fun e => "failed to read config " +:+ path +:+ ": " +:+ e) (read_to_string path);
      load env yaml
  | None, None, _ => Ok (if ar_dev args then set_dev Config_default else Config_default)
  end.
End ServerConfig.

(** * The server and its background tasks *)

Inductive BusKind := BusRedis | BusMemory.
Inductive StoreKind := StoreRedis | StoreMemory.
Record Cluster := mkCluster { cl_bus : BusKind; cl_node_id : string; cl_enabled : bool }.

Definition Cluster_new (config : Config) (node_id : string) : Cluster :=
  if is_configured (cf_redis config) && rd_cluster (cf_redis config) then mkCluster BusRedis node_id true
  else mkCluster BusMemory node_id false.

Definition Store_from_config (config : Config) : StoreKind :=
  if is_configured (cf_redis config) then StoreRedis else StoreMemory.

(** The parts made by [Server::new]; the media engine and the metrics are made from the
    configuration and the node id alone. *)
Record Server := mkServer {
  sv_config : Config; sv_keys : gmap string string; sv_webhook : WebhookNotifier; sv_agent : Manager;
  sv_node_id : string; sv_store : StoreKind; sv_cluster : Cluster; sv_cells : @Cells unit; sv_rooms : gmap string nat;
}.

Definition with_cluster (config : Config) (cluster : Cluster) : Server :=
  let keys := cf_keys config in
  mkServer config keys (from_config config keys) (AgentManager_new keys) (cl_node_id cluster)
    (Store_from_config config) cluster cells_new ∅.

(** [suffix] is the random part of a node id. *)
Definition Server_new (suffix : string) (config : Config) : Server :=
  let id := if (cf_node_id config =? "")%string then node_id None suffix else cf_node_id config in
  with_cluster config (Cluster_new config id).

Inductive Task := TurnTask (keys : gmap string string) | SipIoTask | HeartbeatTask | RelayTask | SweepTask (room_ms speaker_ms : Z).

Definition start_background_tasks (s : Server) : list Task :=
  let enabled := cl_enabled (sv_cluster s) in
  [TurnTask (sv_keys s); SipIoTask] ++ (if enabled then [HeartbeatTask] else []) ++ (if enabled then [RelayTask] else []) ++
  [SweepTask 1000 400].

(** * Listening *)

Definition listen_addresses (c : Config) : list string :=
  if cf_dev c then ["127.0.0.1"; "::1"]
  else match cf_bind_addresses c with [] => ["0.0.0.0"] | l => l end.
Definition bind_addr (c : Config) : string := default "0.0.0.0" (head (listen_addresses c)).
Definition metrics_port (c : Config) : option Z :=
  match cf_prometheus_port c with
  | Some p => Some p
  | None => if pr_port (cf_prometheus c) =? 0 then None else Some (pr_port (cf_prometheus c))
  end.

(** [run_server] from the sockets it opens to the end of the process, on the registry [g] of
    the moment it ends; the background tasks are started before. *)
Definition run_server (bind : string -> Result string unit) (s : Server) (g : Registry) :
    list Task * Result string (list string) * Registry :=
  let tasks := start_background_tasks s in
  let c := sv_config s in
  let main := bind_addr c +:+ ":" +:+ fmt_dec (effective_port c) in
  let socks :=
    _ ← bind main;
    match metrics_port c with
    | Some p => let addr := bind_addr c +:+ ":" +:+ fmt_dec p in _ ← bind addr; Ok [main; addr]
    | None => Ok [main]
    end in
  (tasks, socks, match socks with Ok _ => deregister (cl_node_id (sv_cluster s)) (cl_enabled (sv_cluster s)) g | Err _ => g end).

(** * Log lines *)

Inductive Level := TRACE | DEBUG | INFO | WARN | ERROR.
Inductive FieldValue :=
| FStr (s : string) | FDebug (s : string) | FI64 (n : Z) | FU64 (n : Z) | FF64 (finite : bool) | FBool (b : bool) | FError (s : string).

(** [FieldCollector]: a float that is not finite becomes null. *)
Definition record (v : FieldValue) : Value :=
  match v with
  | FStr s | FDebug s | FError s => VStr s
  | FI64 n | FU64 n => VInt n
  | FF64 finite => if finite then VFloat else Null
  | FBool b => VBool b
  end.
Definition collect (fields : list (string * FieldValue)) : gmap string Value :=
  foldl (fun m kv => <[kv.1 := record kv.2]> m) ∅ fields.

Definition level_name (l : Level) : string :=
  match l with TRACE => "trace" | DEBUG => "debug" | INFO => "info" | WARN => "warn" | ERROR => "error" end.

(** The object of a line; the time stamp is a float. *)
Definition format_event (level : Level) (target : string) (event : list (string * FieldValue)) : gmap string Value :=
  let fields := collect event in
  let message := default Null (fields !! "message") in
  let fields := delete "message" fields in
  let obj := <["msg" := message]> (<["target" := VStr target]> (<["ts" := VFloat]> (<["level" := VStr (level_name level)]> ∅))) in
  fields ∪ obj.

Definition init_logging (c : Config) : string := if (lg_level (cf_logging c) =? "")%string then "info" else lg_level (cf_logging c).

(** * The recorder *)

(** The settings of the recorder's connections, beside those of its recordings. *)
Record RecorderConfig := mkRecorderConfig {
  rk_conf : EgressConfig; rk_api_key : string; rk_api_secret : string; rk_ws_url : string; rk_redis : RedisSettings;
  rk_prometheus_port : Z; rk_insecure : bool;
}.
Definition no_redis : RedisSettings := mkSettings "" "" "" 0 false.
Definition RecorderConfig_default (fits : nat -> bool) : RecorderConfig :=
  mkRecorderConfig (EgressConfig_default fits) "" "" "ws://127.0.0.1:7880" no_redis 0 false.
Definition set_output_dir (dir : string) (c : EgressConfig) : EgressConfig :=
  Egress.mkConfig dir (ec_mp3_bitrate c) (ec_log_level c) (ec_logging_level c) (ec_s3 c) (ec_gcp c) (ec_azure c) (ec_alioss c)
    (ec_fits c) (ec_s3_assume_role_key c) (ec_s3_assume_role_secret c) (ec_s3_assume_role_arn c) (ec_s3_assume_role_external_id c).

Section Recorder.
Context (yaml_recorder : string -> Result string RecorderConfig) (read_to_string : string -> Result string string).
Context (fits : nat -> bool).

Definition recorder_from_yaml (yaml : string) : Result string RecorderConfig := map_err (fun e => "config: " +:+ e) (yaml_recorder yaml).

Definition load_config (path body : option string) (dev : bool) : Result string RecorderConfig :=
  match body, path with
  | Some body, _ => recorder_from_yaml body
  | None, Some path =>
      yaml ← map_err (fun e => "failed to read config " +:+ path +:+ ": " +:+ e) (read_to_string path);
      recorder_from_yaml yaml
  | None, None =>
      let c := RecorderConfig_default fits in
      Ok (if dev
          then mkRecorderConfig (set_output_dir "/tmp" (rk_conf c)) "devkey" "secret" (rk_ws_url c)
                 (mkSettings "127.0.0.1:6379" "" "" 0 false) (rk_prometheus_port c) (rk_insecure c)
          else c)
  end.

(** What the system answers while the recorder starts. *)
Record StartDraws := mkStartDraws { sd_create_dir : string -> Result string unit; sd_io : Result string unit; sd_register : Target -> Result string unit }.

(** [main] of the recorder up to the wait for its end: the topics it serves. *)
Definition recorder_main (d : StartDraws) (argv : list string) : Result (Z + string) (RecorderConfig * list Target) :=
  '(path, body, dev) ← map_err inl (recorder_args argv);
  c ← map_err inr (load_config path body dev);
  _ ← guard_err (rs_address (rk_redis c) =? "")%string (inr "redis is required (psrpc bus to the livekit-voice server)");
  _ ← guard_err ((rk_api_secret c =? "") || (rk_ws_url c =? ""))%string (inr "api_key/api_secret and ws_url are required");
  let dir := ec_output_dir (rk_conf c) in
  _ ← map_err (fun e => inr ("output_dir " +:+ dir +:+ ": " +:+ e)) (sd_create_dir d dir);
  _ ← map_err inr (sd_io d);
  let '(res, served) := start_recorder (sd_register d) in
  _ ← map_err inr res;
  Ok (c, served).
End Recorder.

(** * Properties *)

(** The arguments that spell [a]. *)
Definition render_args (a : Args) : list string :=
  match ar_config a with Some p => ["--config"; p] | None => [] end ++
  match ar_config_body a with Some b => ["--config-body"; b] | None => [] end ++
  (if ar_dev a then ["--dev"] else []).

(** Every combination of settings can be given: the arguments that spell it parse back to it,
    whatever the values look like (also when they look like flags). *)
Theorem args_roundtrip a : parse_args (render_args a) = Ok a.
Proof. destruct a as [[p|] [b|] []]; reflexivity. Qed.

(** Parsing always ends with settings or with one of two exit codes. *)
Lemma parse_from_exits n : forall a argv, (length argv <= n)%nat ->
  match parse_from a argv with Ok _ => True | Err code => code = 0 \/ code = 2 end.
Proof.
  induction n as [|n IH]; intros a [|arg rest] Hn; cbn [length] in Hn; try (done || lia). cbn [parse_from].
  destruct (arg =? "--config")%string; [destruct rest; [done|apply IH; cbn in Hn; lia]|].
  destruct (arg =? "--config-body")%string; [destruct rest; [done|apply IH; cbn in Hn; lia]|].
  destruct (arg =? "--dev")%string; [apply IH; lia|]. destruct (_ || _); auto.
Qed.

(** The configuration a server runs with: the text given on the command line, else the
    variable, else the file, else the defaults; [--dev] only counts when nothing else is
    given. *)
Theorem config_source yaml_config yaml_keys read env args :
  server_config yaml_config yaml_keys read env args =
  match ar_config_body args ∪ env !! "LIVEKIT_CONFIG" with
  | Some body => load_config_from_yaml yaml_config yaml_keys env body
  | None =>
      match ar_config args with
      | Some path =>
          match read path with
          | Ok yaml => load_config_from_yaml yaml_config yaml_keys env yaml
          | Err e => Err ("failed to read config " +:+ path +:+ ": " +:+ e)
          end
      | None => Ok (if ar_dev args then set_dev Config_default else Config_default)
      end
  end.
Proof.
  unfold server_config. destruct (ar_config_body args); [by destruct (env !! _)|]. rewrite (left_id_L None (∪)).
  destruct (ar_config args) as [path|], (env !! "LIVEKIT_CONFIG"); try done. by destruct (read path).
Qed.

Lemma no_keys_refuse b64 json jwt keys token : keys = ∅ -> is_ok (verify b64 json jwt keys token) = false.
Proof.
  intros Hk. unfold verify. destruct (decode_payload_unverified _ _ _) as [u|]; cbn [mbind Result_bind]; [|done].
  destruct (vget "iss" u ≫= as_str) as [key|]; cbn [ok_or mbind Result_bind]; [|done].
  unfold get_secret. by rewrite Hk, lookup_empty.
Qed.

(** Without a configuration text or file the environment is not read: whatever keys, port or
    address it sets, the server has the default ones, and without [--dev] no keys at all, so
    that it refuses every token. *)
Theorem unconfigured_server_ignores_environment yaml_config yaml_keys read env b64 json jwt token suffix :
  env !! "LIVEKIT_CONFIG" = None ->
  exists c, server_config yaml_config yaml_keys read env no_args = Ok c /\ c = Config_default /\
    is_ok (verify b64 json jwt (sv_keys (Server_new suffix c)) token) = false.
Proof.
  intros He. exists Config_default. split_and!; [|done|].
  - unfold server_config. cbn [ar_config_body ar_config no_args]. by rewrite He.
  - by apply no_keys_refuse.
Qed.

(** A server has at most two sockets, both on the first of its addresses: further bind
    addresses, and the IPv6 address of the development mode, are never bound.  When it ends
    after serving, its node is no longer registered. *)
Theorem only_first_address_bound bind suffix c g tasks socks g' : run_server bind (Server_new suffix c) g = (tasks, Ok socks, g') ->
  (length socks <= 2)%nat /\
  Forall (fun a => exists port, a = bind_addr c +:+ ":" +:+ fmt_dec port /\ bind a = Ok ()) socks /\
  (HeartbeatTask ∈ tasks -> sv_node_id (Server_new suffix c) ∉ rg_alive g').
Proof.
  unfold run_server. cbv zeta. set (s := Server_new suffix c). change (sv_config s) with c.
  assert (cl_node_id (sv_cluster s) = sv_node_id s) as -> by done.
  intros E. apply pair_equal_spec in E as [[<- Es]%pair_equal_spec Eg].
  split; [|split].
  - destruct (bind _); [|done]. cbn in Es. destruct (metrics_port c); [|by injection Es as <-; cbn; lia].
    destruct (bind _); [|done]. injection Es as <-. cbn. lia.
  - destruct (bind (bind_addr c +:+ ":" +:+ fmt_dec (effective_port c))) as [[]|] eqn:E1; [|done]. cbn [mbind Result_bind] in Es.
    destruct (metrics_port c) as [p|]; [|injection Es as <-; repeat constructor; eauto].
    destruct (bind (bind_addr c +:+ ":" +:+ fmt_dec p)) as [[]|] eqn:E2; [|done]. injection Es as <-. repeat constructor; eauto.
  - rewrite Es in Eg. subst g'. unfold start_background_tasks, deregister. destruct (cl_enabled (sv_cluster s)); cbn [app].
    + intros _. cbn [rg_alive]. set_solver.
    + intros H. set_solver.
Qed.

(** ** Log lines *)

Lemma collect_snoc fields k v : collect (fields ++ [(k, v)]) = <[k := record v]> (collect fields).
Proof. unfold collect. by rewrite foldl_app. Qed.

(** What a line says: a field of the event has the value recorded last; the level, the module
    and the message are there unless the event has a field of that name, which replaces
    them. *)
Theorem log_line_spec level target event k :
  format_event level target event !! k =
  match (if (k =? "message")%string then None else collect event !! k) with
  | Some v => Some v
  | None =>
      if (k =? "msg")%string then Some (default Null (collect event !! "message"))
      else if (k =? "target")%string then Some (VStr target)
      else if (k =? "ts")%string then Some VFloat
      else if (k =? "level")%string then Some (VStr (level_name level))
      else None
  end.
Proof.
  unfold format_event. cbv zeta. rewrite lookup_union.
  destruct (String.eqb_spec k "message") as [->|Hm].
  - rewrite lookup_delete_eq. rewrite (left_id_L None (∪)). rewrite !lookup_insert_ne by done. done.
  - rewrite lookup_delete_ne by done. destruct (collect event !! k); [by rewrite union_Some_l|].
    rewrite (left_id_L None (∪)). repeat match goal with
    | |- context [(k =? ?s)%string] => destruct (String.eqb_spec k s) as [->|]; [by rewrite ?lookup_insert_ne, lookup_insert_eq by done|rewrite lookup_insert_ne by done]
    end. done.
Qed.

(** The warning of a failed relay has a field named target, which hides the module it comes
    from. *)
Example relay_warning_hides_module :
  format_event WARN "lk_server::cluster" [("message", FDebug "relay start failed: timeout"); ("target", FDebug "LXnode2")] !! "target" =
  Some (VStr "LXnode2").
Proof. reflexivity. Qed.

(** ** The recorder *)

Lemma register_all_iff register ts : forall before after, register_all register ts before = (Ok (), after) <->
  Forall (fun t => is_ok (register t) = true) ts /\ after = before ++ ts.
Proof.
  induction ts as [|t ts IH]; intros before after; cbn [register_all].
  - rewrite app_nil_r. split; [by intros [= ->]|by intros [_ ->]].
  - rewrite list.Forall_cons. destruct (register t) as [[]|e] eqn:E; cbn [is_ok].
    + rewrite IH, <- app_assoc. naive_solver.
    + split; [done|]. by intros [[? _] _].
Qed.

Lemma unit_ok {E F} (f : E -> F) (r : Result E unit) u : map_err f r = Ok u <-> is_ok r = true.
Proof. destruct r as [[]|], u; cbn; split; congruence. Qed.
Lemma guard_ok {E} b (e : E) u : guard_err b e = Ok u <-> b = false.
Proof. destruct b, u; cbn; split; congruence. Qed.

(** When the recorder starts: its configuration loads and names a Redis server, a secret and
    a server URL, the output directory can be made and the bus accepts both registrations; it
    then serves both topics, to which the server's calls go. *)
Theorem recorder_start_spec yaml read fits d argv c served :
  recorder_main yaml read fits d argv = Ok (c, served) <->
  (exists path body dev, recorder_args argv = Ok (path, body, dev) /\ load_config yaml read fits path body dev = Ok c) /\
  rs_address (rk_redis c) <> "" /\ rk_api_secret c <> "" /\ rk_ws_url c <> "" /\
  is_ok (sd_create_dir d (ec_output_dir (rk_conf c))) = true /\ is_ok (sd_io d) = true /\
  Forall (fun t => is_ok (sd_register d t) = true) recorder_targets /\ served = recorder_targets.
Proof.
  unfold recorder_main. rewrite bind_ok. setoid_rewrite map_err_ok. split.
  - intros ([[path body] dev] & Ha & H). apply bind_ok in H as (c' & Hc%map_err_ok & H).
    apply bind_ok in H as (_ & Hr%guard_ok & H). apply bind_ok in H as (_ & Hs%guard_ok & H). cbv zeta in H.
    apply bind_ok in H as (_ & Hd%unit_ok & H). apply bind_ok in H as (_ & Hi%unit_ok & H).
    destruct (start_recorder _) as [res served'] eqn:Es. apply bind_ok in H as (u & Hres%map_err_ok & [= -> ->]).
    rewrite Hres in Es. destruct u. unfold start_recorder in Es. apply register_all_iff in Es as [Hf Hl]. bool_to_prop. eauto 15.
  - intros ((path & body & dev & Ha & Hc) & Hr & Hs & Hw & Hd & Hi & Hf & ->). exists (path, body, dev). split; [done|].
    rewrite Hc. cbn [map_err mbind Result_bind]. apply String.eqb_neq in Hr, Hs, Hw. rewrite Hr, Hs, Hw. cbn [orb guard_err mbind Result_bind].
    destruct (sd_create_dir d _); [|done]. destruct (sd_io d); [|done]. cbn [map_err mbind Result_bind].
    unfold start_recorder. rewrite (proj2 (register_all_iff _ recorder_targets [] recorder_targets)) by done. done.
Qed.

(** The key is not among the settings the recorder asks for, although its message says so: it
    starts without one, and the tokens it makes name no key. *)
Example recorder_starts_without_key :
  is_ok (recorder_main (fun _ => Ok (mkRecorderConfig (EgressConfig_default (fun _ => true)) "" "s" "ws://livekit:7880"
      (mkSettings "redis:6379" "" "" 0 false) 0 false)) (fun _ => Err "no file") (fun _ => true)
    (mkStartDraws (fun _ => Ok ()) (Ok ()) (fun _ => Ok ())) ["--config-body"; "..."]) = true.
Proof. reflexivity. Qed.
