(* ===== verification/Cli.v ===== *)
(** The command-line client [lk] ([crates/lk-server/src/bin/lk.rs]): the token it makes, the calls
    it sends and how it reads the answers, and how the server's handlers treat these calls. *)
From Stdlib Require Import ZArith Lia Ascii String.
From stdpp Require Import base gmap strings list option.
From S2P Require Import Prelude RustStr Auth Store Twirp RoomService SipService SipCalls Http.

Open Scope string_scope.
Open Scope list_scope.
Open Scope Z_scope.

(** * Commands *)

Record Cli := mkCli { cl_url : string; cl_api_key : string; cl_api_secret : string }.

Inductive SipCommand :=
| CreateParticipant (trunk_id room call_to : string) (number identity name metadata dtmf : option string) (wait_until_answered : bool)
| TransferParticipant (room identity transfer_to : string) (play_dialtone : bool)
| CreateOutboundTrunk (name : option string) (address : string) (numbers : list string) (auth_username auth_password : option string)
| ListOutboundTrunks | ListInboundTrunks | ListDispatchRules.

(** [m.insert(key, json!(v))] for a value that is given. *)
Definition optional (key : string) (v : option string) : list (string * Value) :=
  match v with Some s => [(key, VStr s)] | None => [] end.

(** The method and body of a command. *)
Definition sip_request (cmd : SipCommand) : string * Value :=
  match cmd with
  | CreateParticipant trunk_id room call_to number identity name metadata dtmf wait =>
      ("CreateSIPParticipant",
       VObj ([("sipTrunkId", VStr trunk_id); ("roomName", VStr room); ("sipCallTo", VStr call_to)] ++
             optional "sipNumber" number ++ optional "participantIdentity" identity ++ optional "participantName" name ++
             optional "participantMetadata" metadata ++ optional "dtmf" dtmf ++ [("waitUntilAnswered", VBool wait)]))
  | TransferParticipant room identity transfer_to play_dialtone =>
      ("TransferSIPParticipant",
       VObj [("roomName", VStr room); ("participantIdentity", VStr identity); ("transferTo", VStr transfer_to); ("playDialtone", VBool play_dialtone)])
  | CreateOutboundTrunk name address numbers auth_username auth_password =>
      ("CreateSIPOutboundTrunk",
       VObj [("trunk", VObj ([("address", VStr address); ("numbers", VArr (VStr <$> numbers))] ++
                             optional "name" name ++ optional "authUsername" auth_username ++ optional "authPassword" auth_password))])
  | ListOutboundTrunks => ("ListSIPOutboundTrunk", VObj [])
  | ListInboundTrunks => ("ListSIPInboundTrunk", VObj [])
  | ListDispatchRules => ("ListSIPDispatchRule", VObj [])
  end.

(** * Calls *)

Definition cli_claims (cli : Cli) (now : Z) (sip : Value) : Value :=
  VObj [("iss", VStr (cl_api_key cli)); ("sub", VStr "lk-cli"); ("iat", VInt now); ("nbf", VInt (now - 5)); ("exp", VInt (now + 600)); ("sip", sip)].
Definition cli_grants : Value := VObj [("admin", VBool true); ("call", VBool true)].

Record Post := mkPost { po_url : string; po_content_type : string; po_authorization : string; po_body : Value }.

Section Call.
Context (jwt_encode : string -> Value -> Result string string).
(** What the HTTP client answers: the status and the body; [parse] reads JSON, [pretty] prints it. *)
Context (send : Post -> Result string (Z * Result string string)) (parse : string -> option Value) (pretty : Value -> string).

(** [expect]: the error is a panic. *)
Definition mint_token (cli : Cli) (now : Z) (sip : Value) : Result string string :=
  jwt_encode (cl_api_secret cli) (cli_claims cli now sip).

Definition post_of (cli : Cli) (token service method : string) (body : Value) : Post :=
  mkPost (cl_url cli +:+ "/twirp/" +:+ service +:+ "/" +:+ method) "application/json" ("Bearer " +:+ token) body.

(** What is printed, or the error. *)
Definition read_answer (status : Z) (text : string) : Result string string :=
  let value := default (VStr text) (parse text) in
  if (200 <=? status) && (status <? 300) then Ok (pretty value)
  else
    let msg := default text (vget "msg" value ≫= as_str) in
    Err (default "error" (vget "code" value ≫= as_str) +:+ ": " +:+ msg).

Definition call (cli : Cli) (now : Z) (service method : string) (body : Value) : Result string string :=
  token ← mint_token cli now cli_grants;
  '(status, text) ← map_err (fun e => "request failed: " +:+ e) (send (post_of cli token service method body));
  text ← map_err (fun e => "read body: " +:+ e) text;
  read_answer status text.

Definition run_sip (cli : Cli) (now : Z) (cmd : SipCommand) : Result string string :=
  let '(method, body) := sip_request cmd in call cli now "livekit.SIP" method body.
End Call.

(** * At the server *)

Section AtServer.
Context (b64_decode : string -> Result string (list Z)) (json_from_slice : list Z -> Result string Value).
Context (jwt_decode : string -> string -> Validation -> Result string Value) (jwt_encode : string -> Value -> Result string string).
Context (hs256_ok : string -> string -> bool) (claims_valid : Validation -> Value -> bool).
Variable at_time : Z.
Hypothesis jwt_spec : forall token secret v claims,
  jwt_decode token secret v = Ok claims <->
  hs256_ok token secret = true /\ decode_payload_unverified b64_decode json_from_slice token = Ok claims /\
  claims_valid v claims = true.
Hypothesis encode_spec : forall secret claims token, jwt_encode secret claims = Ok token ->
  hs256_ok token secret = true /\ decode_payload_unverified b64_decode json_from_slice token = Ok claims.
Hypothesis valid_spec : forall v claims exp nbf,
  vget "iss" claims = Some (VStr (v_issuer v)) -> vget "exp" claims = Some (VInt exp) -> vget "nbf" claims = Some (VInt nbf) ->
  at_time < exp + v_leeway v -> nbf <= at_time + v_leeway v -> claims_valid v claims = true.
Notation verify := (verify b64_decode json_from_slice jwt_decode).

(** The token of a call verifies for ten minutes with the key it names; it allows SIP calls and
    SIP administration and nothing else. *)
Theorem cli_token_grants keys cli now token :
  mint_token jwt_encode cli now cli_grants = Ok token -> keys !! cl_api_key cli = Some (cl_api_secret cli) ->
  now - 65 <= at_time < now + 600 ->
  exists t, verify keys token = Ok t /\ tk_identity t = "lk-cli" /\
    ensure_sip_call t = Ok tt /\ ensure_sip_admin t = Ok () /\ ensure_record t = Err denied /\
    forall room, ensure_admin t room = Err denied.
Proof using All.
  intros Hm Hk Ht. destruct (encode_spec _ _ _ Hm) as [Hsig Hpay]. set (claims := cli_claims cli now cli_grants) in *.
  exists (parse_claims (cl_api_key cli) claims). split_and!; try reflexivity.
  - assert (jwt_decode token (cl_api_secret cli) (validation_for (cl_api_key cli)) = Ok claims) as Hj.
    { apply jwt_spec. split_and!; [done|done|]. eapply valid_spec; try reflexivity; cbn; lia. }
    unfold Auth.verify. rewrite Hpay. cbn. unfold get_secret. rewrite Hk. cbn. by rewrite Hj.
Qed.

(** The transfer command never works: the handler also asks for the administration of the room,
    which the token does not grant, so that the server refuses every transfer and does
    nothing. *)
Theorem cli_transfer_denied `{HB : Backend B H} client answer keys cli now token (r : TransferSipParticipantRequest) (st : @Outside H) :
  mint_token jwt_encode cli now cli_grants = Ok token -> keys !! cl_api_key cli = Some (cl_api_secret cli) ->
  now - 65 <= at_time < now + 600 -> ts_room_name r <> "" -> ts_participant_identity r <> "" ->
  exists t, verify keys token = Ok t /\ transfer_sip_participant client answer t (Ok r) st = (Err denied, st).
Proof using All.
  intros Hm Hk Ht Hr Hi. destruct (cli_token_grants keys cli now token Hm Hk Ht) as (t & Hv & _ & Hc & _ & _ & Ha).
  exists t. split; [done|]. unfold transfer_sip_participant, bind, lift. apply String.eqb_neq in Hr, Hi. rewrite Hr, Hi, Hc, Ha. done.
Qed.
End AtServer.
