(* ===== verification/LoadTest.v ===== *)
(** The signaling load test, [crates/lk-server/src/bin/load_test.rs]: its options, its statistics,
    the clients of its three scenarios and the report it prints.

    What the server sends is a list of events per connection, in which the timers of the client
    show as events too; a scenario is a function of what its clients meet.  Arithmetic on [u64] and
    [usize] wraps in a release build and panics in a debug build. *)
From Stdlib Require Import ZArith Lia Ascii String SpecFloat.
From stdpp Require Import base gmap strings list option sorting.
From S2P Require Import Prelude RustStr Core Auth Proto Participant Room Signal Agent Twirp RoomService AgentService Http F64.

Open Scope string_scope.
Open Scope list_scope.
Open Scope Z_scope.

Notation wrap64 := (wrap_u 64).

(** * Statistics *)

Record Stats := mkStats { st_count : Z; st_total_us : Z; st_samples : list Z }.
Definition Stats_default : Stats := mkStats 0 0 [].

Definition record (us : Z) (s : Stats) : Stats :=
  mkStats (wrap64 (st_count s + 1)) (wrap64 (st_total_us s + us)) (st_samples s ++ [us]).

(** The percentile [q] of a sorted list. *)
Definition percentile_index (len : Z) (q : f64) : Z := Z.min (f64_floor_usize (f64_mul (f64_of_Z len) q)) (len - 1).
Definition percentile (sorted : list Z) (q : f64) : option Z := sorted !! Z.to_nat (percentile_index (Z.of_nat (length sorted)) q).

Record Summary := mkSummary { sm_count : Z; sm_avg : f64; sm_p50 : Z; sm_p95 : Z; sm_p99 : Z; sm_max : Z }.

(** The literals [0.50], [0.95], [0.99] and [1.0]: a quotient of integers is rounded like a decimal
    literal. *)
Definition q50 : f64 := f64_div 50 100.
Definition q95 : f64 := f64_div 95 100.
Definition q99 : f64 := f64_div 99 100.
Definition q100 : f64 := f64_div 1 1.

(** [summarize]: the line it prints, [None] when there are no samples; the outer [None] is an index
    out of range. *)
Definition summarize (s : Stats) : option (option Summary) :=
  match st_samples s with
  | [] => Some None
  | _ =>
      let sorted := merge_sort Z.le (st_samples s) in
      p50 ← percentile sorted q50; p95 ← percentile sorted q95; p99 ← percentile sorted q99; p100 ← percentile sorted q100;
      Some (Some (mkSummary (st_count s) (f64_div (f64_of_Z (st_total_us s)) (f64_of_Z (st_count s))) p50 p95 p99 p100))
  end.

(** * Options *)

Record Args := mkArgs {
  a_target : string; a_key : string; a_secret : string; a_clients : Z; a_rooms : Z; a_duration : Z; a_scenario : string
}.
Definition default_args : Args := mkArgs "ws://127.0.0.1:7880" "devkey" "secret" 50 10 5 "all".

Definition u64_max : Z := 2 ^ 64 - 1.
Definition parse_u64 : string -> option Z := parse_int 0 u64_max.

(** How reading the options ends: with the options, with an exit status, or with a panic. *)
Inductive Parsed := PArgs (args : Args) | PExit (status : Z) | PPanic.

Definition set_option (name value : string) (a : Args) : option Args :=
  if (name =? "--target")%string then Some (mkArgs value (a_key a) (a_secret a) (a_clients a) (a_rooms a) (a_duration a) (a_scenario a))
  else if (name =? "--key")%string then Some (mkArgs (a_target a) value (a_secret a) (a_clients a) (a_rooms a) (a_duration a) (a_scenario a))
  else if (name =? "--secret")%string then Some (mkArgs (a_target a) (a_key a) value (a_clients a) (a_rooms a) (a_duration a) (a_scenario a))
  else if (name =? "--clients")%string then
    n ← parse_u64 value; Some (mkArgs (a_target a) (a_key a) (a_secret a) n (a_rooms a) (a_duration a) (a_scenario a))
  else if (name =? "--rooms")%string then
    n ← parse_u64 value; Some (mkArgs (a_target a) (a_key a) (a_secret a) (a_clients a) n (a_duration a) (a_scenario a))
  else if (name =? "--duration")%string then
    n ← parse_u64 value; Some (mkArgs (a_target a) (a_key a) (a_secret a) (a_clients a) (a_rooms a) n (a_scenario a))
  else Some (mkArgs (a_target a) (a_key a) (a_secret a) (a_clients a) (a_rooms a) (a_duration a) value).

Definition value_options : list string := ["--target"; "--key"; "--secret"; "--clients"; "--rooms"; "--duration"; "--scenario"].

Fixpoint parse_loop (argv : list string) (a : Args) : Parsed :=
  match argv with
  | [] => PArgs a
  | name :: rest =>
      if bool_decide (name ∈ value_options) then
        match rest with
        | [] => PPanic
        | value :: rest => match set_option name value a with Some a => parse_loop rest a | None => PPanic end
        end
      else if bool_decide (name = "--help" \/ name = "-h") then PExit 0
      else PExit 2
  end.
Definition parse_args (argv : list string) : Parsed := parse_loop argv default_args.

(** * A client *)

(** The claims of a token of the load test; [jwt_encode] signs them, and its failure panics. *)
Definition load_claims (key identity room : string) (now : Z) : Value :=
  VObj [("iss", VStr key); ("sub", VStr identity); ("iat", VInt now); ("nbf", VInt (now - 5)); ("exp", VInt (now + 3600));
        ("video", VObj [("roomJoin", VBool true); ("room", VStr room); ("canPublish", VBool true); ("canSubscribe", VBool true);
                        ("canPublishData", VBool true)])].
Definition load_token (jwt_encode : string -> Value -> Result string string) (key secret identity room : string) (now : Z) : option string :=
  match jwt_encode secret (load_claims key identity room now) with Ok token => Some token | Err _ => None end.

Definition load_url (target token : string) : string := target +:+ "/rtc?access_token=" +:+ token.

(** A response as far as the load test looks at it. *)
Inductive Kind := KJoin | KPongResp | KOther.

(** What a connection meets: a response, a frame that does not decode, a control frame, an error,
    the end of the stream, or the timer of the wait in progress. *)
Inductive Ev := EvResp (k : Kind) | EvBad (e : string) | EvControl | EvErr (e : string) | EvClosed | EvElapsed.

(** [join_once] after the connection: what is left of the stream with the join response, or the
    error; [None] is a client still waiting at the end of the list. *)
Fixpoint join_wait (evs : list Ev) : option (Result string (list Ev)) :=
  match evs with
  | [] => None
  | EvResp KJoin :: rest => Some (Ok rest)
  | EvResp _ :: rest | EvControl :: rest => join_wait rest
  | EvBad e :: _ | EvErr e :: _ => Some (Err e)
  | EvClosed :: _ => Some (Err "connection closed")
  | EvElapsed :: _ => Some (Err "join timeout")
  end.
Definition join_once (dial : string -> Result string (list Ev)) (target token : string) : option (Result string (list Ev)) :=
  match dial (load_url target token) with
  | Err e => Some (Err e)
  | Ok evs => join_wait evs
  end.

(** The wait for a pong: whether one came, and what is left of the stream. *)
Fixpoint wait_pong (evs : list Ev) : option (bool * list Ev) :=
  match evs with
  | [] => None
  | EvResp KPongResp :: rest => Some (true, rest)
  | EvResp _ :: rest => wait_pong rest
  | _ :: rest => Some (false, rest)
  end.

(** The pings of a client until its deadline: for each the error of its sending, if any, and the
    time from sending to the end of the wait. *)
Fixpoint rtt_loop (turns : list (option string * Z)) (evs : list Ev) (stats : Stats) (count : Z) : option (Result string (Stats * Z)) :=
  match turns with
  | [] => Some (Ok (stats, count))
  | (Some e, _) :: _ => Some (Err e)
  | (None, us) :: turns =>
      '(got, evs) ← wait_pong evs;
      if got : bool then rtt_loop turns evs (record us stats) (wrap64 (count + 1)) else rtt_loop turns evs stats count
  end.

(** The joins and leaves of a client of the third scenario: for each attempt whether it joined;
    the identities and rooms it used, and how often it joined. *)
Fixpoint tp_loop (i : Z) (attempts : list bool) (n room_idx : Z) : list (string * string) * Z :=
  match attempts with
  | [] => ([], n)
  | joined :: attempts =>
      let used := ("tp-" +:+ fmt_dec i +:+ "-" +:+ fmt_dec n, "tp-room-" +:+ fmt_dec (room_idx mod 10)) in
      let '(l, n) := if joined : bool then tp_loop i attempts (wrap64 (n + 1)) (wrap64 (room_idx + 1)) else tp_loop i attempts n room_idx in
      (used :: l, n)
  end.

(** * The run *)

(** Identity and room of client [i]: [None] is the division by zero. *)
Definition client_of (prefix : string) (args : Args) (i : nat) : option (string * string) :=
  if a_rooms args =? 0 then None
  else Some (prefix +:+ fmt_dec (Z.of_nat i), "room-" +:+ fmt_dec (Z.of_nat i mod a_rooms args)).
Definition clients_of (prefix : string) (args : Args) : option (list (string * string)) :=
  mapM (client_of prefix args) (seq 0 (Z.to_nat (a_clients args))).

Inductive Line :=
| LSkipped (scenario : Z)
| LJoin (summary : option Summary) (failures : Z)
| LRtt (summary : option Summary) (pongs : Z) (conns : Z) (rate : f64)
| LThroughput (joins : Z) (rate : f64).

Definition runs (args : Args) (name : string) : bool := (a_scenario args =? "all")%string || (a_scenario args =? name)%string.

(** The first scenario: [results] are the joins of its clients in order, with their latency. *)
Definition join_scenario (results : list (Result string Z)) (failures : Z) : Stats * Z :=
  foldl (fun '(stats, failures) r =>
    match r with Ok us => (record (wrap64 us) stats, failures) | Err _ => (stats, wrap64 (failures + 1)) end) (Stats_default, failures) results.

(** The second: the statistics and pongs of its clients. *)
Definition merge_stats (a b : Stats) : Stats :=
  mkStats (wrap64 (st_count a + st_count b)) (wrap64 (st_total_us a + st_total_us b)) (st_samples a ++ st_samples b).
Definition rtt_scenario (results : list (Result string (Stats * Z))) (failures : Z) : Stats * Z * Z :=
  foldl (fun '(stats, pongs, failures) r =>
    match r with
    | Ok (s, count) => (merge_stats stats s, wrap64 (pongs + count), failures)
    | Err _ => (stats, pongs, wrap64 (failures + 1))
    end) (Stats_default, 0, failures) results.

(** [(args.clients - failures as usize).max(1)]. *)
Definition conns_of (debug : bool) (clients failures : Z) : option Z :=
  if debug && (clients <? failures) then None else Some (Z.max (wrap64 (clients - failures)) 1).

(** [main] after the options: what the clients of the scenarios met; [None] is a panic. *)
Definition load_test (debug : bool) (args : Args) (joins : list (Result string Z)) (rtts : list (Result string (Stats * Z)))
    (throughput : list Z) : option (list Line) :=
  '(l1, failures) ←
    (if runs args "join" then
       _ ← clients_of "bench-" args;
       let '(stats, failures) := join_scenario joins 0 in
       summary ← summarize stats; Some (LJoin summary failures, failures)
     else Some (LSkipped 1, 0));
  l2 ←
    (if runs args "rtt" then
       _ ← clients_of "rtt-" args;
       let '(stats, pongs, failures) := rtt_scenario rtts failures in
       summary ← summarize stats; conns ← conns_of debug (a_clients args) failures;
       Some (LRtt summary pongs conns (f64_div (f64_of_Z pongs) (f64_of_Z (a_duration args))))
     else Some (LSkipped 2));
  let l3 :=
    if runs args "throughput" then
      let total := foldl (fun t n => wrap64 (t + n)) 0 throughput in
      LThroughput total (f64_div (f64_of_Z total) (f64_of_Z (a_duration args)))
    else LSkipped 3 in
  Some [l1; l2; l3].

(** * Statistics are consistent *)

Definition stats_ok (s : Stats) : Prop :=
  st_count s = wrap64 (Z.of_nat (length (st_samples s))) /\ st_total_us s = wrap64 (foldr Z.add 0 (st_samples s)).

Lemma wrap64_add a b : wrap64 (wrap64 a + wrap64 b) = wrap64 (a + b).
Proof. unfold wrap_u. symmetry. apply Z.add_mod. lia. Qed.
Lemma wrap64_add_l a b : wrap64 (wrap64 a + b) = wrap64 (a + b).
Proof. unfold wrap_u. apply Zplus_mod_idemp_l. Qed.

Lemma foldr_add_app (a b : list Z) : foldr Z.add 0 (a ++ b) = foldr Z.add 0 a + foldr Z.add 0 b.
Proof. induction a as [|x a IH]; [done|]. cbn [foldr app]. rewrite IH. lia. Qed.

Lemma stats_default_ok : stats_ok Stats_default.
Proof. done. Qed.
Lemma record_ok us s : stats_ok s -> stats_ok (record us s).
Proof.
  intros [E1 E2]. unfold stats_ok. cbn [record st_count st_total_us st_samples]. rewrite E1, E2, !wrap64_add_l, length_app, foldr_add_app.
  split; f_equal; cbn; lia.
Qed.
Lemma merge_ok a b : stats_ok a -> stats_ok b -> stats_ok (merge_stats a b).
Proof.
  intros [E1 E2] [E3 E4]. unfold stats_ok. cbn [merge_stats st_count st_total_us st_samples].
  rewrite E1, E2, E3, E4, !wrap64_add, length_app, foldr_add_app. split; f_equal; lia.
Qed.
#[local] Hint Resolve stats_default_ok record_ok merge_ok : core.

(** Each pong is one sample. *)
Lemma rtt_loop_ok turns : forall evs stats count s c,
  stats_ok stats -> count = st_count stats -> rtt_loop turns evs stats count = Some (Ok (s, c)) ->
  stats_ok s /\ c = st_count s.
Proof.
  induction turns as [|[[e|] us] turns IH]; intros evs stats count s c Hs Hc; cbn [rtt_loop]; [by intros [= <- <-]|done|].
  destruct (wait_pong evs) as [[[] evs']|]; cbn; [..|done]; apply IH; auto. cbn. by rewrite Hc.
Qed.

Definition client_ok (r : Result string (Stats * Z)) : Prop :=
  match r with Ok (s, c) => stats_ok s /\ c = st_count s | Err _ => True end.

Lemma rtt_scenario_ok results failures : Forall client_ok results ->
  let '(stats, pongs, _) := rtt_scenario results failures in stats_ok stats /\ pongs = st_count stats.
Proof.
  unfold rtt_scenario. intros H.
  enough (forall stats pongs f, stats_ok stats -> pongs = st_count stats ->
    let '(stats, pongs, _) := foldl (fun '(stats, pongs, failures) r =>
      match r with
      | Ok (s, count) => (merge_stats stats s, wrap64 (pongs + count), failures)
      | Err _ => (stats, pongs, wrap64 (failures + 1))
      end) (stats, pongs, f) results in stats_ok stats /\ pongs = st_count stats) as Hg by (by apply Hg).
  induction H as [|r results Hr _ IH]; intros stats pongs f Hs Hp; [done|]. cbn [foldl].
  destruct r as [[s c]|e]; [|by apply IH]. destruct Hr as [Hr ->]. apply IH; [auto|]. cbn. by rewrite Hp.
Qed.

(** ** Percentiles *)

Lemma percentile_index_range len q : 0 < len -> 0 <= percentile_index len q < len.
Proof.
  intros H. unfold percentile_index, f64_floor_usize.
  enough (0 <= match f64_mul (f64_of_Z len) q with
    | S754_finite false m e => Z.min (if 0 <=? e then Z.shiftl (Zpos m) e else Z.shiftr (Zpos m) (- e)) (2 ^ 64 - 1)
    | S754_infinity false => 2 ^ 64 - 1
    | _ => 0
    end) by lia.
  destruct (f64_mul _ _) as [[]|[]| |[] m e]; try lia. apply Z.min_glb; [|lia].
  destruct (0 <=? e); [apply Z.shiftl_nonneg|apply Z.shiftr_nonneg]; lia.
Qed.

Lemma index_q50 len : 0 < len < 2 ^ 53 -> percentile_index len q50 = len / 2.
Proof.
  intros H. unfold percentile_index. change q50 with (S754_finite false 4503599627370496 (-52 - 1)). rewrite f64_scale by lia.
  change (2 ^ 1) with 2. apply Z.min_l. pose proof (Z.div_lt_upper_bound len 2 len). lia.
Qed.
Lemma index_q100 len : 0 < len < 2 ^ 53 -> percentile_index len q100 = len - 1.
Proof.
  intros H. unfold percentile_index. change q100 with (S754_finite false 4503599627370496 (-52 - 0)). rewrite f64_scale by lia.
  rewrite Z.div_1_r. lia.
Qed.

Lemma percentile_some sorted q : sorted <> [] -> exists v, percentile sorted q = Some v /\ v ∈ sorted.
Proof.
  intros H. assert (0 < Z.of_nat (length sorted)) as Hl by (destruct sorted; [done|cbn; lia]).
  pose proof (percentile_index_range _ q Hl). destruct (lookup_lt_is_Some_2 sorted (Z.to_nat (percentile_index (Z.of_nat (length sorted)) q))) as [v Hv]; [lia|].
  exists v. split; [exact Hv|by eapply list_elem_of_lookup_2].
Qed.

(** The last of a sorted list is its largest. *)
Lemma sorted_last (l : list Z) v x : StronglySorted Z.le l -> l !! (length l - 1)%nat = Some v -> x ∈ l -> x <= v.
Proof.
  induction 1 as [|y l _ IH Hy]; [done|]. destruct l as [|z l].
  - cbn. intros [= ->] Hx. apply list_elem_of_singleton in Hx. lia.
  - cbn [length]. replace (S (S (length l)) - 1)%nat with (S (length l)) by lia. cbn [lookup list_lookup]. intros Hv Hx.
    assert ((z :: l) !! (length (z :: l) - 1)%nat = Some v) as Hv' by (cbn [length]; by replace (S (length l) - 1)%nat with (length l) by lia).
    apply elem_of_cons in Hx as [->|Hx]; [|by apply IH]. rewrite list.Forall_forall in Hy. apply Hy. by eapply list_elem_of_lookup_2.
Qed.

(** The summary of a scenario.  For any number of samples from one to [2^53 - 1], in whatever order
    they came: no index is out of range, all four percentiles are samples, the median is the sample
    at half the length of the sorted list and the maximum the largest sample. *)
Theorem summarize_spec s :
  0 < Z.of_nat (length (st_samples s)) < 2 ^ 53 ->
  exists r sorted, summarize s = Some (Some r) /\ sorted ≡ₚ st_samples s /\ StronglySorted Z.le sorted /\
    sm_count r = st_count s /\
    sorted !! (length (st_samples s) / 2)%nat = Some (sm_p50 r) /\
    sm_p95 r ∈ st_samples s /\ sm_p99 r ∈ st_samples s /\ sm_max r ∈ st_samples s /\
    (forall x, x ∈ st_samples s -> x <= sm_max r).
Proof.
  intros Hl. set (sorted := merge_sort Z.le (st_samples s)).
  assert (sorted ≡ₚ st_samples s) as Hp by apply merge_sort_Permutation.
  assert (StronglySorted Z.le sorted) as Hs by apply (StronglySorted_merge_sort Z.le _).
  assert (length sorted = length (st_samples s)) as El by (by apply Permutation_length).
  assert (sorted <> []) as Hne by (intros E; rewrite E in El; cbn in El; lia).
  destruct (percentile_some sorted q50 Hne) as (v50 & E50 & _), (percentile_some sorted q95 Hne) as (v95 & E95 & M95),
    (percentile_some sorted q99 Hne) as (v99 & E99 & M99), (percentile_some sorted q100 Hne) as (v100 & E100 & M100).
  exists (mkSummary (st_count s) (f64_div (f64_of_Z (st_total_us s)) (f64_of_Z (st_count s))) v50 v95 v99 v100), sorted.
  rewrite <- Hp. split_and!; try done; cbn [sm_p50 sm_max].
  - unfold summarize. fold sorted. rewrite E50, E95, E99, E100. by destruct (st_samples s).
  - unfold percentile in E50. rewrite El, index_q50 in E50 by done. rewrite <- E50. f_equal.
    apply Nat2Z.inj. rewrite ?El, Nat2Z.inj_div, Z2Nat.id; [done|]. apply Z.div_pos; lia.
  - intros x Hx. eapply sorted_last; [exact Hs| |by rewrite Hp].
    unfold percentile in E100. rewrite El, index_q100 in E100 by done. rewrite El. rewrite <- E100. f_equal. lia.
Qed.

(** What the second scenario reports: the number of pongs is the number of round trips the summary
    was made of, whatever the clients met. *)
Theorem pongs_are_samples debug args joins rtts throughput lines summary pongs conns rate :
  Forall client_ok rtts -> load_test debug args joins rtts throughput = Some lines -> LRtt summary pongs conns rate ∈ lines ->
  exists samples, pongs = wrap64 (Z.of_nat (length samples)) /\
    match summary with None => samples = [] | Some r => sm_count r = pongs /\ sm_p95 r ∈ samples end.
Proof.
  intros Hr H Hin. unfold load_test in H. pose proof (rtt_scenario_ok rtts) as Hg.
  destruct (if runs args "join" then _ else _) as [[l1 failures]|] eqn:E1; [cbn [mbind option_bind] in H|done].
  destruct (if runs args "rtt" then _ else _) as [l2|] eqn:E2; [cbn [mbind option_bind] in H|done]. injection H as <-.
  assert (l2 = LRtt summary pongs conns rate) as ->.
  { rewrite !elem_of_cons in Hin. destruct Hin as [<-|[<-|[Hi|[]%elem_of_nil]]]; [|done|by destruct (runs args "throughput")].
    destruct (runs args "join"); [|done]. destruct (clients_of "bench-" args); [|done]. cbn in E1. destruct (join_scenario joins 0).
    destruct (summarize s); [|done]. cbn in E1. congruence. }
  destruct (runs args "rtt"); [|done]. destruct (clients_of "rtt-" args); [|done]. cbn in E2. specialize (Hg failures Hr).
  destruct (rtt_scenario rtts failures) as [[stats p] f]. destruct Hg as [[Hc _] ->].
  destruct (summarize stats) as [sm|] eqn:Es; [|done]. cbn in E2. destruct (conns_of _ _ _); [|done]. injection E2 as <- <- <- <-.
  exists (st_samples stats). split; [done|]. unfold summarize in Es. destruct (st_samples stats) as [|x xs] eqn:El; [by injection Es as <-|].
  assert (merge_sort Z.le (x :: xs) <> []) as Hne.
  { intros E. pose proof (Permutation_length (merge_sort_Permutation Z.le (x :: xs))) as HP. by rewrite E in HP. }
  destruct (percentile_some _ q95 Hne) as (v95 & E95 & M95). rewrite E95 in Es. cbn in Es.
  destruct (percentile _ q50); [|done]. cbn in Es. destruct (percentile _ q99); [|done]. cbn in Es. destruct (percentile _ q100); [|done].
  injection Es as <-. split; [done|]. cbn. by rewrite merge_sort_Permutation in M95.
Qed.

(** * The clients *)

Lemma fmt_dec_inj a b : 0 <= a < 2 ^ 64 -> 0 <= b < 2 ^ 64 -> fmt_dec a = fmt_dec b -> a = b.
Proof.
  intros Ha Hb E. assert (Some a = Some b) as [= ->]; [|done].
  by rewrite <- (parse_fmt_dec (-1) u64_max a), <- (parse_fmt_dec (-1) u64_max b), E by (unfold u64_max; lia).
Qed.

(** Every client of a scenario has an identity of its own, so that none replaces another, and a
    room of the configured number. *)
Theorem load_clients_distinct prefix args clients :
  0 <= a_clients args < 2 ^ 64 -> 0 < a_rooms args < 2 ^ 64 -> clients_of prefix args = Some clients ->
  length clients = Z.to_nat (a_clients args) /\ NoDup clients.*1 /\
  Forall (fun c => exists k, 0 <= k < a_rooms args /\ c.2 = "room-" +:+ fmt_dec k) clients.
Proof.
  intros Hc Hr H. assert (clients = (fun i => (prefix +:+ fmt_dec (Z.of_nat i), "room-" +:+ fmt_dec (Z.of_nat i mod a_rooms args)))
    <$> seq 0 (Z.to_nat (a_clients args))) as ->.
  { unfold clients_of in H. apply mapM_Some in H. revert H. generalize (seq 0 (Z.to_nat (a_clients args))). intros l H.
    induction H as [|i c l cs Hi _ IH]; [done|]. unfold client_of in Hi. destruct (Z.eqb_spec (a_rooms args) 0); [lia|].
    injection Hi as <-. cbn. by f_equal. }
  clear H. split; [by rewrite length_fmap, length_seq|]. split.
  - rewrite <- list_fmap_compose. apply NoDup_fmap_2_strong; [|apply NoDup_seq].
    intros x y Hx%elem_of_seq Hy%elem_of_seq E. cbn in E. apply str_app_inj in E as [_ E]; [|done].
    apply fmt_dec_inj in E; lia.
  - apply list.Forall_fmap, list.Forall_forall. intros i _. exists (Z.of_nat i mod a_rooms args). split; [apply Z.mod_pos_bound; lia|done].
Qed.

(** Without rooms there is nobody to join as: the run ends in a panic. *)
Theorem no_rooms_panics debug args joins rtts throughput :
  a_rooms args = 0 -> 0 < a_clients args -> runs args "join" = true -> load_test debug args joins rtts throughput = None.
Proof.
  intros Hr Hc Hj. unfold load_test. rewrite Hj. enough (clients_of "bench-" args = None) as -> by done.
  unfold clients_of. destruct (Z.to_nat (a_clients args)) eqn:E; [lia|]. cbn. unfold client_of. by rewrite Hr.
Qed.

Lemma all_fail_joins (es : list string) f : 0 <= f -> f + Z.of_nat (length es) < 2 ^ 64 ->
  join_scenario (Err <$> es) f = (Stats_default, f + Z.of_nat (length es)).
Proof.
  unfold join_scenario. revert f. induction es as [|e es IH]; intros f H0 Hl; cbn [fmap list_fmap foldl length] in *; [f_equal; lia|].
  rewrite wrap_u_small by lia. rewrite IH by lia. f_equal. lia.
Qed.
Lemma all_fail_rtts (es : list string) f : 0 <= f -> f + Z.of_nat (length es) < 2 ^ 64 ->
  rtt_scenario (Err <$> es) f = (Stats_default, 0, f + Z.of_nat (length es)).
Proof.
  unfold rtt_scenario. revert f. induction es as [|e es IH]; intros f H0 Hl; cbn [fmap list_fmap foldl length] in *; [f_equal; lia|].
  rewrite wrap_u_small by lia. rewrite IH by lia. f_equal. lia.
Qed.

(** A server that cannot be reached: the failures of both scenarios are subtracted from the number
    of clients, so a debug build panics and a release build reports [2^64 - clients]
    connections. *)
Theorem unreachable_connection_count args es1 es2 throughput :
  0 < a_clients args < 2 ^ 62 -> 0 < a_rooms args -> a_scenario args = "all" ->
  Z.of_nat (length es1) = a_clients args -> Z.of_nat (length es2) = a_clients args ->
  load_test true args (Err <$> es1) (Err <$> es2) throughput = None /\
  exists l1 rate l3, load_test false args (Err <$> es1) (Err <$> es2) throughput =
    Some [l1; LRtt None 0 (2 ^ 64 - a_clients args) rate; l3].
Proof.
  intros Hc Hr Hs E1 E2. assert (forall p, exists cs, clients_of p args = Some cs) as Hcs.
  { intros p. unfold clients_of. apply mapM_is_Some_2, list.Forall_forall. intros i _. unfold client_of.
    destruct (Z.eqb_spec (a_rooms args) 0); [lia|eauto]. }
  destruct (Hcs "bench-") as [c1 H1], (Hcs "rtt-") as [c2 H2].
  unfold load_test, runs. rewrite Hs, H1, H2. cbn [String.eqb Ascii.eqb Bool.eqb orb mbind option_bind].
  rewrite all_fail_joins by lia. cbn [summarize Stats_default st_samples mbind option_bind]. rewrite all_fail_rtts by lia.
  cbn [summarize Stats_default st_samples mbind option_bind]. unfold conns_of.
  destruct (Z.ltb_spec (a_clients args) (0 + Z.of_nat (length es1) + Z.of_nat (length es2))); [|lia]. cbn [andb mbind option_bind].
  split; [done|].
  assert (Z.max (wrap64 (a_clients args - (0 + Z.of_nat (length es1) + Z.of_nat (length es2)))) 1 = 2 ^ 64 - a_clients args) as ->; [|by do 3 eexists].
  replace (a_clients args - (0 + Z.of_nat (length es1) + Z.of_nat (length es2))) with (2 ^ 64 - a_clients args + (-1) * 2 ^ 64) by lia.
  unfold wrap_u. rewrite Z_mod_plus_full, Z.mod_small by lia. lia.
Qed.

(** A pong that comes late counts for the next ping: the first ping got no answer within its
    second, and the time of the second is what its pong is recorded with. *)
Theorem late_pong_counts_for_next us1 us2 turns rest :
  rtt_loop ((None, us1) :: (None, us2) :: turns) (EvElapsed :: EvResp KPongResp :: rest) Stats_default 0 =
  rtt_loop turns rest (record us2 Stats_default) 1.
Proof. done. Qed.

(** The join timeout starts anew with every frame: while other messages keep coming, the client
    keeps waiting. *)
Theorem join_waits_while_frames_come evs :
  Forall (fun e => e = EvControl \/ e = EvResp KOther) evs -> join_wait evs = None.
Proof. induction 1 as [|e evs [->| ->] _ IH]; done. Qed.

(** A client joins exactly when a join response comes before anything that ends the wait. *)
Theorem join_once_ok dial target token rest :
  join_once dial target token = Some (Ok rest) <->
  exists before, dial (load_url target token) = Ok (before ++ EvResp KJoin :: rest) /\
    Forall (fun e => match e with EvControl => True | EvResp k => k <> KJoin | _ => False end) before.
Proof.
  unfold join_once. destruct (dial _) as [evs|e]; [|naive_solver]. split.
  - revert rest. induction evs as [|ev evs IH]; intros rest H; cbn [join_wait] in H; [done|].
    destruct ev as [[]| | | | |]; try done; [injection H as <-; by exists []|..]; destruct (IH _ H) as (b & [= ->] & Hb);
      eexists (_ :: b); (split; [reflexivity|by constructor]).
  - intros (before & [= ->] & Hb). induction Hb as [|ev before Hev _ IH]; [done|]. destruct ev as [[]| | | | |]; done.
Qed.

(** * Its tokens are good *)

Section LoadToken.
Context (b64_decode : string -> Result string (list Z)) (json_from_slice : list Z -> Result string Value).
Context (jwt_decode : string -> string -> Validation -> Result string Value) (jwt_encode : string -> Value -> Result string string).
Context (hs256_ok : string -> string -> bool) (claims_valid : Validation -> Value -> bool).
(** The time of the verification, in seconds. *)
Variable at_time : Z.
(** The contract of the JWT library, as for the recorder. *)
Hypothesis jwt_spec : forall token secret v claims,
  jwt_decode token secret v = Ok claims <->
  hs256_ok token secret = true /\ decode_payload_unverified b64_decode json_from_slice token = Ok claims /\
  claims_valid v claims = true.
Hypothesis encode_spec : forall secret claims token, jwt_encode secret claims = Ok token ->
  hs256_ok token secret = true /\ decode_payload_unverified b64_decode json_from_slice token = Ok claims.
Hypothesis valid_spec : forall v claims exp nbf,
  vget "iss" claims = Some (VStr (v_issuer v)) -> vget "exp" claims = Some (VInt exp) -> vget "nbf" claims = Some (VInt nbf) ->
  at_time < exp + v_leeway v -> nbf <= at_time + v_leeway v -> claims_valid v claims = true.

(** Tokens of the load test admit its clients: they verify for an hour under the key they were
    signed with, pass the checks of a join with the connection's own parameters, and carry the
    permission to publish, subscribe and send data and no administrative grant. *)
Theorem load_token_admits keys key secret identity room now token :
  load_token jwt_encode key secret identity room now = Some token ->
  keys !! key = Some secret -> now - 65 <= at_time < now + 3600 -> room <> "" -> identity <> "" ->
  exists t params, verify b64_decode json_from_slice jwt_decode keys token = Ok t /\
    build_session_params (fun _ => None) (fun _ => None) (fun _ _ => None) (fun _ => None) {["access_token" := token]} false = Ok params /\
    sp_reconnect params = false /\ check_join t params = Ok room /\ tk_identity t = identity /\
    participant_kind_from_token t = Standard /\
    permission_from_grant (video t) = mkPermission true true true [] false false false false false false /\
    room_admin (video t) = false /\ room_create (video t) = false /\ room_list (video t) = false /\ sip_admin (sip t) = false.
Proof.
  intros Hb Hk Ht Hr Hi. unfold load_token in Hb. destruct (jwt_encode secret _) as [tok|] eqn:He; [|done]. injection Hb as ->.
  destruct (encode_spec _ _ _ He) as [Hsig Hpay]. set (claims := load_claims key identity room now) in *.
  eexists (parse_claims key claims), _. split; [|split; [reflexivity|split; [reflexivity|]]].
  - assert (jwt_decode token secret (validation_for key) = Ok claims) as Hj.
    { apply jwt_spec. split_and!; [done|done|]. eapply valid_spec; try reflexivity; cbn; lia. }
    unfold verify. rewrite Hpay. cbn. unfold get_secret. rewrite Hk. cbn. by rewrite Hj.
  - split_and!; try reflexivity. unfold check_join.
    change (tk_identity (parse_claims key claims)) with identity. change (vg_room (video (parse_claims key claims))) with room.
    apply String.eqb_neq in Hr as ->, Hi as ->. reflexivity.
Qed.
End LoadToken.
