(* ===== verification/SendAudio.v ===== *)
(** The test publisher, [crates/lk-egress/examples/send_audio.rs]: its options, what it reads from
    the signaling socket, the negotiation of its connections and the packets it sends.

    [publish] is written in a small monad over what is left of the socket and the actions taken so
    far, with the ways it can end: an error, a panic, or waiting for a frame that has not come. *)
From Stdlib Require Import ZArith Lia Ascii String.
From stdpp Require Import base gmap strings list option.
From S2P Require Import Prelude RustStr Auth F64 Rtp LoadTest.

Open Scope string_scope.
Open Scope list_scope.
Open Scope Z_scope.

(** * Options *)

Record Opts := mkOpts { o_ws : string; o_key : string; o_secret : string; o_room : string; o_seconds : Z; o_verbose : bool }.
Definition default_opts : Opts := mkOpts "ws://127.0.0.1:7880" "devkey" "secret" "bench" 10 false.

Inductive Started := SRun (o : Opts) | SHelp | SPanic.

Definition set_opt (name value : string) (o : Opts) : option Opts :=
  if (name =? "--ws")%string then Some (mkOpts value (o_key o) (o_secret o) (o_room o) (o_seconds o) (o_verbose o))
  else if (name =? "--key")%string then Some (mkOpts (o_ws o) value (o_secret o) (o_room o) (o_seconds o) (o_verbose o))
  else if (name =? "--secret")%string then Some (mkOpts (o_ws o) (o_key o) value (o_room o) (o_seconds o) (o_verbose o))
  else if (name =? "--room")%string then Some (mkOpts (o_ws o) (o_key o) (o_secret o) value (o_seconds o) (o_verbose o))
  else n ← parse_u64 value; Some (mkOpts (o_ws o) (o_key o) (o_secret o) (o_room o) n (o_verbose o)).

Fixpoint opt_loop (argv : list string) (o : Opts) : Started :=
  match argv with
  | [] => SRun o
  | name :: rest =>
      if bool_decide (name ∈ ["--ws"; "--key"; "--secret"; "--room"; "--seconds"]) then
        match rest with
        | [] => SPanic
        | value :: rest => match set_opt name value o with Some o => opt_loop rest o | None => SPanic end
        end
      else if (name =? "--verbose")%string then
        opt_loop rest (mkOpts (o_ws o) (o_key o) (o_secret o) (o_room o) (o_seconds o) true)
      else if (name =? "--help")%string then SHelp
      else SPanic
  end.

(** * The signaling socket *)

Definition sender_claims (key identity room : string) (now : Z) : Value :=
  VObj [("iss", VStr key); ("sub", VStr identity); ("iat", VInt now); ("nbf", VInt (now - 5)); ("exp", VInt (now + 3600));
        ("video", VObj [("roomJoin", VBool true); ("room", VStr room); ("canPublish", VBool true); ("canSubscribe", VBool true);
                        ("canPublishData", VBool true)])].

(** A response as far as the sender looks at it; [RsOther] is also a response without a message. *)
Inductive Resp := RsJoin | RsOffer (sdp : string) | RsAnswer (sdp : string) | RsTrickle (candidate_init : string) (target : Z)
| RsRefreshToken | RsOther.

(** What comes from the socket: a frame with a response ([None] does not decode), a control frame,
    the end or an error; and the timer of the wait for the subscriber offer. *)
Inductive Frame := FBinary (r : option Resp) | FText (r : option Resp) | FControl | FClosed | FTimer.

Inductive Read := RGot (r : Resp) (rest : list Frame) | RPanic | RWait.

Fixpoint read_response (fs : list Frame) : Read :=
  match fs with
  | [] => RWait
  | FBinary None :: _ | FText None :: _ | FClosed :: _ => RPanic
  | FBinary (Some RsRefreshToken) :: rest => read_response rest
  | FBinary (Some r) :: rest | FText (Some r) :: rest => RGot r rest
  | FControl :: rest | FTimer :: rest => read_response rest
  end.

(** [await_offer] under its timeout of three seconds: the offer and what is left, or what is left
    when the time is up. *)
Inductive Awaited := AwOffer (sdp : string) (rest : list Frame) | AwTimeout (rest : list Frame) | AwPanic | AwWait.

Fixpoint await_offer (fs : list Frame) : Awaited :=
  match fs with
  | [] => AwWait
  | FTimer :: rest => AwTimeout rest
  | FBinary None :: _ | FText None :: _ | FClosed :: _ => AwPanic
  | FBinary (Some (RsOffer sdp)) :: rest | FText (Some (RsOffer sdp)) :: rest => AwOffer sdp rest
  | _ :: rest => await_offer rest
  end.

(** * Actions and the monad *)

(** The connection with target 0 is the publisher, with target 1 the subscriber. *)
Inductive Act :=
| ANewPc (target : Z)
| ASetRemote (target : Z) (sdp : string)
| ASetLocal (target : Z) (sdp : string)
| ASendAnswer (sdp : string)
| ASendOffer (sdp : string) (mid_to_track_id : list (string * string))
| AAddTrack (id stream : string)
| AAddIce (target : Z) (init : string)
| ARtp (seq timestamp : Z).

Record St := mkSt { s_frames : list Frame; s_acts : list Act }.
Inductive Out (A : Type) := Done (a : A) | Failed (e : string) | Panicked | Waiting.
Arguments Done {A} _. Arguments Failed {A} _. Arguments Panicked {A}. Arguments Waiting {A}.
Definition M (A : Type) : Type := St -> Out A * St.

#[global] Instance M_ret : MRet M := fun A a s => (Done a, s).
#[global] Instance M_bind : MBind M := fun A B k f s =>
  match f s with
  | (Done a, s') => k a s'
  | (Failed e, s') => (Failed e, s')
  | (Panicked, s') => (Panicked, s')
  | (Waiting, s') => (Waiting, s')
  end.

Definition act (a : Act) : M unit := fun s => (Done tt, mkSt (s_frames s) (s_acts s ++ [a])).
(** [.map_err(...)?] on what a connection answers. *)
Definition lift {A} (r : Result string A) : M A := fun s => match r with Ok a => (Done a, s) | Err e => (Failed e, s) end.
(** [send_request(...).unwrap()]. *)
Definition send (ok : bool) (a : Act) : M unit := if ok then act a else fun s => (Panicked, s).
Definition read : M Resp := fun s =>
  match read_response (s_frames s) with
  | RGot r rest => (Done r, mkSt rest (s_acts s))
  | RPanic => (Panicked, s)
  | RWait => (Waiting, s)
  end.

(** What the connections answer to the set-up of the subscriber, which happens at most once, and of
    the publisher; whether the answer and the offer can be sent; and the reading of candidates. *)
Record PcDraws := mkDraws {
  sub_remote : Result string unit; sub_answer : Result string string; sub_local : Result string unit;
  pub_transceiver : Result string unit; pub_offer : Result string string; pub_local : Result string unit; pub_remote : Result string unit;
  send_answer : bool; send_offer : bool;
  parse_init : string -> option string
}.

Definition setup_subscriber (d : PcDraws) (sdp : string) : M unit :=
  act (ANewPc 1);; act (ASetRemote 1 sdp);; lift (sub_remote d);;
  answer ← lift (sub_answer d); act (ASetLocal 1 answer);; lift (sub_local d);;
  send (send_answer d) (ASendAnswer answer).

Definition feed_trickle (d : PcDraws) (sub : bool) (candidate_init : string) (target : Z) : M unit :=
  match parse_init d candidate_init with
  | None => mret tt
  | Some init =>
      if target =? 0 then act (AAddIce 0 init)
      else if target =? 1 then (if sub then act (AAddIce 1 init) else mret tt)
      else mret tt
  end.

(** The wait for the subscriber offer. *)
Definition await_subscriber (d : PcDraws) : M bool := fun s =>
  match await_offer (s_frames s) with
  | AwOffer sdp rest => (setup_subscriber d sdp;; mret true) (mkSt rest (s_acts s))
  | AwTimeout rest => (Done false, mkSt rest (s_acts s))
  | AwPanic => (Panicked, s)
  | AwWait => (Waiting, s)
  end.

(** The wait for the publisher answer; [fuel] is at least the number of frames left. *)
Fixpoint await_answer (fuel : nat) (d : PcDraws) (sub : bool) : M string :=
  match fuel with
  | O => fun s => (Waiting, s)
  | S fuel =>
      r ← read;
      match r with
      | RsAnswer sdp => mret sdp
      | RsOffer sdp => if sub then await_answer fuel d sub else setup_subscriber d sdp;; await_answer fuel d true
      | RsTrickle init target => feed_trickle d sub init target;; await_answer fuel d sub
      | _ => await_answer fuel d sub
      end
  end.

(** The packets: numbers of 16 bits from 1, and the time of each as [seq as u32 * 960]. *)
Definition packet_seq (k : Z) : Z := wrap_u 16 (1 + k).
Definition packet (k : Z) : Z * Z := (packet_seq k, packet_seq k * 960).
Definition frame_count (seconds : Z) : Z := wrap_u 64 (seconds * 50).
Fixpoint send_packets (ks : list Z) : M unit :=
  match ks with
  | [] => mret tt
  | k :: ks => act (ARtp (packet k).1 (packet k).2);; send_packets ks
  end.

(** [publish] after the connection. *)
Definition publish_on (d : PcDraws) (seconds : Z) : M unit :=
  _ ← read;
  sub ← await_subscriber d;
  act (ANewPc 0);; act (AAddTrack "bench-audio" "bench-mic");; lift (pub_transceiver d);;
  offer ← lift (pub_offer d); act (ASetLocal 0 offer);; lift (pub_local d);;
  send (send_offer d) (ASendOffer offer [("0", "bench-mic")]);;
  answer ← (fun s => await_answer (S (length (s_frames s))) d sub s);
  act (ASetRemote 0 answer);; lift (pub_remote d);;
  send_packets (seqZ 0 (frame_count seconds)).

(** [publish]: [None] is a token that could not be signed, which panics. *)
Definition publish (jwt_encode : string -> Value -> Result string string) (dial : string -> Result string (list Frame)) (d : PcDraws)
    (o : Opts) (now : Z) : Out unit * list Act :=
  match jwt_encode (o_secret o) (sender_claims (o_key o) "sender" (o_room o) now) with
  | Err _ => (Panicked, [])
  | Ok token =>
      match dial (o_ws o +:+ "/rtc?access_token=" +:+ token) with
      | Err e => (Failed e, [])
      | Ok frames => let '(r, s) := publish_on d (o_seconds o) (mkSt frames []) in (r, s_acts s)
      end
  end.

(** * Reading *)

Lemma read_response_shorter fs r rest : read_response fs = RGot r rest -> (length rest < length fs)%nat.
Proof.
  induction fs as [|f fs IH]; [done|]. cbn [read_response length].
  destruct f as [[[]|]|[]| | |]; try done; try (intros [= <- <-]; lia); intros H; specialize (IH H); lia.
Qed.

Lemma M_bind_eq {A B} (k : A -> M B) (f : M A) s :
  (f ≫= k) s = match f s with
  | (Done a, s') => k a s' | (Failed e, s') => (Failed e, s') | (Panicked, s') => (Panicked, s') | (Waiting, s') => (Waiting, s')
  end.
Proof. done. Qed.

Lemma bind_done {A B} (k : A -> M B) (f : M A) s b s' :
  (f ≫= k) s = (Done b, s') -> exists a s1, f s = (Done a, s1) /\ k a s1 = (Done b, s').
Proof. rewrite M_bind_eq. destruct (f s) as [[a|e| |] s1]; try done. eauto. Qed.

Lemma act_done a s u s' : act a s = (Done u, s') -> s' = mkSt (s_frames s) (s_acts s ++ [a]).
Proof. by intros [= <-]. Qed.
Lemma send_done ok a s u s' : send ok a s = (Done u, s') -> s' = mkSt (s_frames s) (s_acts s ++ [a]).
Proof. by destruct ok; [intros [= <-]|]. Qed.
Lemma lift_done {A} (r : Result string A) s a s' : lift r s = (Done a, s') -> r = Ok a /\ s' = s.
Proof. unfold lift. destruct r; [by intros [= <- <-]|done]. Qed.
Lemma read_done s r s' : read s = (Done r, s') -> s_acts s' = s_acts s /\ read_response (s_frames s) = RGot r (s_frames s').
Proof. unfold read. destruct (read_response _) as [r' rest| |]; [|done..]. by intros [= <- <-]. Qed.

(** One step of a run that succeeds. *)
Ltac done_step :=
  match goal with
  | H : (_ ≫= _) _ = (Done _, _) |- _ => apply bind_done in H as (? & ? & ? & H)
  | H : act _ _ = (Done _, _) |- _ => apply act_done in H
  | H : send _ _ _ = (Done _, _) |- _ => apply send_done in H
  | H : lift _ _ = (Done _, _) |- _ => apply lift_done in H as [? ?]
  | H : read _ = (Done _, _) |- _ => apply read_done in H as [? ?]
  | H : mret _ _ = (Done _, _) |- _ => unfold mret, M_ret in H; simplify_eq
  end.

(** * What a successful run did *)

Definition sub_answers (l : list Act) : list string := omap (fun a => match a with ASendAnswer sdp => Some sdp | _ => None end) l.
Definition sent_packets (l : list Act) : list (Z * Z) := omap (fun a => match a with ARtp q t => Some (q, t) | _ => None end) l.
Definition sent_offers (l : list Act) : list string := omap (fun a => match a with ASendOffer sdp _ => Some sdp | _ => None end) l.

(** Actions that set up or feed a connection without offers or packets. *)
Definition quiet (l : list Act) : Prop := sent_packets l = [] /\ sent_offers l = [].

Lemma quiet_app a b : quiet a -> quiet b -> quiet (a ++ b).
Proof. intros [A1 A2] [B1 B2]. unfold quiet, sent_packets, sent_offers in *. by rewrite !omap_app, A1, A2, B1, B2. Qed.

(** The actions a part of the run added, and how often it answered the subscriber offer. *)
Definition adds (s s' : St) (n : nat) : Prop :=
  exists l, s_acts s' = s_acts s ++ l /\ quiet l /\ length (sub_answers l) = n.

Lemma adds_refl s : adds s s 0.
Proof. exists []. by rewrite app_nil_r. Qed.
Lemma adds_trans s1 s2 s3 a b : adds s1 s2 a -> adds s2 s3 b -> adds s1 s3 (a + b).
Proof.
  intros (l1 & E1 & Q1 & N1) (l2 & E2 & Q2 & N2). exists (l1 ++ l2). rewrite E2, E1, app_assoc. split; [done|].
  split; [by apply quiet_app|]. unfold sub_answers in *. rewrite omap_app, length_app. lia.
Qed.
Lemma adds_same s s' : s_acts s' = s_acts s -> adds s s' 0.
Proof. intros E. exists []. by rewrite app_nil_r. Qed.

Lemma setup_subscriber_adds d sdp s s' : setup_subscriber d sdp s = (Done tt, s') -> adds s s' 1 /\ s_frames s' = s_frames s.
Proof.
  unfold setup_subscriber. intros H. repeat done_step. subst. cbn. split; [|done].
  eexists [_; _; _; _]. rewrite <- !app_assoc. cbn [app]. by repeat split.
Qed.

Lemma feed_trickle_adds d sub ci target s s' : feed_trickle d sub ci target s = (Done tt, s') -> adds s s' 0 /\ s_frames s' = s_frames s.
Proof.
  unfold feed_trickle. destruct (parse_init d ci) as [init|]; [|intros [= <-]; split; [apply adds_refl|done]].
  repeat case_match; intros [= <-]; (split; [|done]); try apply adds_refl; eexists [_]; by repeat split.
Qed.

Lemma await_answer_adds fuel : forall d sub s sdp s', await_answer fuel d sub s = (Done sdp, s') ->
  exists n, adds s s' n /\ (n <= if sub then 0 else 1)%nat.
Proof.
  induction fuel as [|fuel IH]; intros d sub s sdp s' H; [done|]. cbn [await_answer] in H. done_step.
  match goal with H : read s = _ |- _ => apply read_done in H as [E _]; apply (adds_same s) in E end. rename x into r, x0 into s1.
  assert (forall sub s1, adds s s1 0 -> await_answer fuel d sub s1 = (Done sdp, s') -> exists n, adds s s' n /\ (n <= if sub then 0 else 1)%nat) as Hk.
  { intros sub' s2 Ha Hs. destruct (IH _ _ _ _ _ Hs) as (n & Hn & Hb). exists n. split; [|done]. by eapply (adds_trans _ _ _ 0 n). }
  destruct r; try by eapply Hk.
  - destruct sub; [by eapply (Hk true)|]. done_step. destruct x. destruct (setup_subscriber_adds _ _ _ _ H0) as [Ha _].
    destruct (IH _ _ _ _ _ H) as (n & Hn & Hb). exists 1%nat. split; [|done].
    assert (n = 0%nat) as -> by (cbn in Hb; lia). eapply (adds_trans _ _ _ 0 1); [done|]. by eapply (adds_trans _ _ _ 1 0).
  - injection H as -> ->. exists 0%nat. split; [done|]. destruct sub; lia.
  - done_step. destruct x. destruct (feed_trickle_adds _ _ _ _ _ _ H0) as [Ha _]. eapply Hk; [|done]. by eapply (adds_trans _ _ _ 0 0).
Qed.

Lemma send_packets_acts ks : forall s s', send_packets ks s = (Done tt, s') ->
  s_acts s' = s_acts s ++ ((fun k => ARtp (packet k).1 (packet k).2) <$> ks).
Proof.
  induction ks as [|k ks IH]; intros s s' H; cbn [send_packets] in H; repeat done_step; subst; [by rewrite app_nil_r|].
  rewrite (IH _ _ H). cbn [s_acts fmap list_fmap]. by rewrite <- app_assoc.
Qed.

(** A run that succeeds.  The sender has made one offer for its track, at most once answered the
    server's subscriber offer, and set the server's answer before any packet; it then sent the
    packets of the wanted duration, fifty for a second, and nothing after them. *)
Theorem publish_done d seconds fs s' :
  publish_on d seconds (mkSt fs []) = (Done tt, s') ->
  exists pre answer offer,
    s_acts s' = pre ++ [ASetRemote 0 answer] ++ ((fun k => ARtp (packet k).1 (packet k).2) <$> seqZ 0 (frame_count seconds)) /\
    pub_offer d = Ok offer /\ sent_offers pre = [offer] /\ sent_packets pre = [] /\ (length (sub_answers pre) <= 1)%nat.
Proof.
  unfold publish_on. intros H. do 2 done_step. rename x into r0, x0 into s0, x1 into sub, x2 into s1, H0 into Hr, H1 into Hs.
  apply read_done in Hr as [E0 _]. cbn in E0.
  assert (exists n, adds s0 s1 n /\ (n + (if sub then 0 else 1) <= 1)%nat) as (n1 & (l1 & E1 & Q1 & N1) & B1).
  { unfold await_subscriber in Hs. destruct (await_offer _) as [sdp rest|rest| |]; try done.
    - apply bind_done in Hs as ([] & s2 & Hset & Hs). destruct (setup_subscriber_adds _ _ _ _ Hset) as [Ha _]. injection Hs as <- <-. by exists 1%nat.
    - injection Hs as <- <-. exists 0%nat. split; [by apply adds_same|done]. }
  repeat done_step. subst.
  match goal with H : await_answer _ _ _ _ = _ |- _ => apply await_answer_adds in H as (n2 & (l2 & E2 & Q2 & N2) & B2) end.
  match goal with H : send_packets _ _ = _ |- _ => apply send_packets_acts in H as -> end.
  cbn [s_acts] in *. rewrite E1, E0 in E2. cbn [app] in E2. rewrite E2.
  match goal with H : pub_offer d = Ok ?o |- context [ASetRemote 0 ?a] =>
    exists (l1 ++ [ANewPc 0; AAddTrack "bench-audio" "bench-mic"; ASetLocal 0 o; ASendOffer o [("0", "bench-mic")]] ++ l2), a, o end.
  destruct Q1 as [P1 O1], Q2 as [P2 O2]. unfold sent_offers, sent_packets, sub_answers in *.
  split_and!; [by rewrite <- !app_assoc|done|..]; rewrite !omap_app.
  - by rewrite O1, O2.
  - by rewrite P1, P2.
  - rewrite !length_app. cbn [length omap list_omap]. destruct sub; lia.
Qed.

(** * A run that gets to the media *)

(** Connections that do as asked. *)
Definition cooperates (d : PcDraws) : Prop :=
  sub_remote d = Ok tt /\ (exists a, sub_answer d = Ok a) /\ sub_local d = Ok tt /\ pub_transceiver d = Ok tt /\ (exists o, pub_offer d = Ok o) /\
  pub_local d = Ok tt /\ pub_remote d = Ok tt /\ send_answer d = true /\ send_offer d = true.

Definition readable (f : Frame) : Prop := match f with FBinary None | FText None | FClosed => False | _ => True end.
Definition response (f : Frame) : option Resp :=
  match f with FBinary (Some RsRefreshToken) => None | FBinary r | FText r => r | _ => None end.

Lemma read_until b ans c r0 : Forall readable b -> response ans = Some r0 ->
  exists r rest, read_response (b ++ ans :: c) = RGot r rest /\
    ((r = r0 /\ rest = c) \/ exists b', rest = b' ++ ans :: c /\ Forall readable b').
Proof.
  intros Hb Ha. induction Hb as [|f b Hf Hb IH].
  - exists r0, c. split; [|by left]. destruct ans as [[[]|]|[]| | |]; cbn in *; congruence.
  - destruct f as [[[]|]|[]| | |]; try done; cbn [app read_response]; try exact IH; by do 2 eexists; split; [reflexivity|right; exists b].
Qed.

Lemma sender_subscriber_ok d sdp s : cooperates d -> exists s', setup_subscriber d sdp s = (Done tt, s') /\ s_frames s' = s_frames s.
Proof.
  intros (E1 & [a E2] & E3 & _ & _ & _ & _ & E4 & _). unfold setup_subscriber, send. rewrite E1, E2, E3, E4. eexists. by split.
Qed.
Lemma feed_trickle_ok d sub ci target s : exists s', feed_trickle d sub ci target s = (Done tt, s') /\ s_frames s' = s_frames s.
Proof. unfold feed_trickle. repeat case_match; eexists; by split. Qed.

Lemma await_answer_ok fuel : forall d sub s b ans c a,
  cooperates d -> s_frames s = b ++ ans :: c -> Forall readable b -> response ans = Some (RsAnswer a) -> (length (s_frames s) < fuel)%nat ->
  exists sdp s', await_answer fuel d sub s = (Done sdp, s').
Proof.
  induction fuel as [|fuel IH]; intros d sub s b ans c a Hd Hs Hb Ha Hf; [lia|].
  destruct (read_until b ans c _ Hb Ha) as (r & rest & Hr & Hcase). rewrite <- Hs in Hr. pose proof (read_response_shorter _ _ _ Hr) as Hl.
  cbn [await_answer]. rewrite M_bind_eq. unfold read. rewrite Hr.
  destruct Hcase as [[-> ->]|(b' & -> & Hb')]; [by do 2 eexists|].
  assert (forall sub s1, s_frames s1 = b' ++ ans :: c -> exists sdp s', await_answer fuel d sub s1 = (Done sdp, s')) as Hk.
  { intros sub' s1 E1. eapply IH; [done|exact E1|done|done|]. rewrite E1. lia. }
  destruct r; try by apply Hk.
  - destruct sub; [by apply Hk|]. rewrite M_bind_eq.
    destruct (sender_subscriber_ok d sdp (mkSt (b' ++ ans :: c) (s_acts s)) Hd) as (s1 & -> & E1). by apply Hk.
  - by do 2 eexists.
  - rewrite M_bind_eq. destruct (feed_trickle_ok d sub candidate_init target (mkSt (b' ++ ans :: c) (s_acts s))) as (s1 & -> & E1). by apply Hk.
Qed.

(** The frame that ends the wait for the subscriber offer. *)
Definition ends_wait (f : Frame) : Prop := f = FTimer \/ exists sdp, response f = Some (RsOffer sdp).

Lemma ends_wait_readable f : ends_wait f -> readable f.
Proof. intros [->|[sdp H]]; [done|]. by destruct f as [[[]|]|[]| | |]. Qed.

Lemma await_subscriber_ok d s a t rest : cooperates d -> s_frames s = a ++ t :: rest -> Forall readable a -> ends_wait t ->
  exists sub s' b, await_subscriber d s = (Done sub, s') /\ s_frames s' = b ++ rest /\ Forall readable b.
Proof.
  intros Hd Hs Ha Ht. unfold await_subscriber. rewrite Hs.
  assert (exists b, Forall readable b /\
    ((exists sdp, await_offer (a ++ t :: rest) = AwOffer sdp (b ++ rest)) \/ await_offer (a ++ t :: rest) = AwTimeout (b ++ rest)))
    as (b & Hb & Hcase).
  { clear Hs. induction Ha as [|f a Hf Ha IH].
    - exists []. split; [constructor|]. destruct Ht as [->|[sdp H]]; [by right|left; exists sdp].
      destruct t as [[[]|]|[[]|]| | |]; cbn in *; congruence.
    - assert (Forall readable (a ++ [t])) as Hat by (apply list.Forall_app; split; [done|apply list.Forall_singleton, ends_wait_readable, Ht]).
      assert (a ++ t :: rest = (a ++ [t]) ++ rest) as Eat by (by rewrite <- app_assoc).
      destruct f as [[[]|]|[[]|]| | |]; try done; cbn [app await_offer]; try exact IH; exists (a ++ [t]); rewrite <- Eat; eauto. }
  destruct Hcase as [[sdp ->]| ->].
  - rewrite M_bind_eq. destruct (sender_subscriber_ok d sdp (mkSt (b ++ rest) (s_acts s)) Hd) as (s1 & -> & E1). by exists true, s1, b.
  - by do 3 eexists.
Qed.

Lemma send_packets_ok ks : forall s, exists s', send_packets ks s = (Done tt, s').
Proof. induction ks as [|k ks IH]; intros s; [by eexists|]. cbn [send_packets]. rewrite M_bind_eq. apply IH. Qed.

(** The sender gets to its packets.  When the connections do as asked, the first response is there,
    every frame that comes decodes, and an answer to the publisher offer comes at some time after a
    subscriber offer or the end of the wait for one, the run succeeds; whatever else the server
    sends in between. *)
Theorem sender_completes d seconds f0 r0 a t b ans c sdp acts :
  cooperates d -> response f0 = Some r0 -> Forall readable a -> ends_wait t -> Forall readable b -> response ans = Some (RsAnswer sdp) ->
  exists s', publish_on d seconds (mkSt (f0 :: a ++ t :: b ++ ans :: c) acts) = (Done tt, s').
Proof.
  intros Hd H0 Ha Ht Hb Hans. unfold publish_on. rewrite M_bind_eq.
  assert (read (mkSt (f0 :: a ++ t :: b ++ ans :: c) acts) = (Done r0, mkSt (a ++ t :: b ++ ans :: c) acts)) as ->.
  { unfold read. destruct f0 as [[[]|]|[]| | |]; cbn in *; congruence. }
  rewrite M_bind_eq.
  destruct (await_subscriber_ok d (mkSt (a ++ t :: b ++ ans :: c) acts) a t (b ++ ans :: c) Hd eq_refl Ha Ht) as (sub & s1 & b' & -> & E1 & Hb').
  assert (Forall readable (b' ++ b)) as Hbb by (by apply list.Forall_app). rewrite app_assoc in E1.
  pose proof Hd as (_ & _ & _ & D1 & [o D2] & D3 & D4 & _ & D5). unfold send. rewrite D1, D2, D3, D4, D5.
  repeat (rewrite M_bind_eq; cbn [act lift s_frames s_acts]).
  destruct (await_answer_ok (S (length (s_frames s1))) d sub (mkSt (s_frames s1)
    (((((s_acts s1 ++ [ANewPc 0]) ++ [AAddTrack "bench-audio" "bench-mic"]) ++ [ASetLocal 0 o]) ++ [ASendOffer o [("0", "bench-mic")]])))
    (b' ++ b) ans c sdp Hd E1 Hbb Hans) as (sd & s2 & ->); [cbn; lia|].
  apply send_packets_ok.
Qed.

(** * The packets *)

Lemma packet_seq_position k : packet_seq k = seq_of (1 + k).
Proof. done. Qed.

Lemma in_window_seqZ n : forall m, in_window m (seqZ (m + 1) (Z.of_nat n)).
Proof.
  induction n as [|n IH]; intros m; [done|]. rewrite seqZ_cons by lia. replace (Z.pred (Z.of_nat (S n))) with (Z.of_nat n) by lia.
  cbn [in_window]. replace (Z.max m (m + 1)) with (m + 1) by lia. split; [lia|apply (IH (m + 1))].
Qed.
Lemma late_seqZ n : forall m, late m (seqZ (m + 1) (Z.of_nat n)) = 0.
Proof.
  induction n as [|n IH]; intros m; [done|]. rewrite seqZ_cons by lia. replace (Z.pred (Z.of_nat (S n))) with (Z.of_nat n) by lia.
  cbn [late]. replace (Z.max m (m + 1)) with (m + 1) by lia. unfold Z.succ. rewrite (IH (m + 1)). destruct (Z.ltb_spec (m + 1) m); lia.
Qed.
Lemma max_seqZ n : forall m, foldl Z.max m (seqZ (m + 1) (Z.of_nat n)) = m + Z.of_nat n.
Proof.
  induction n as [|n IH]; intros m; [change (m = m + 0); lia|]. rewrite seqZ_cons by lia. replace (Z.pred (Z.of_nat (S n))) with (Z.of_nat n) by lia.
  cbn [foldl]. replace (Z.max m (m + 1)) with (m + 1) by lia. unfold Z.succ. rewrite IH. lia.
Qed.

(** What the server's statistics make of the sender: its packets, when they arrive in the order they
    are sent, at whatever times, are numbered so that the server counts every one of them and
    neither a loss nor a packet out of order, across any number of wrap-arounds of the 16-bit
    numbers. *)
Theorem sender_stream_lossless n (at_ms : Z -> Z) :
  0 < n < 2 ^ 46 ->
  let s := observe_stream ((fun k => ((packet k).1, ((packet k).2, at_ms k))) <$> seqZ 0 n) in
  rs_lost s = 0 /\ rs_out_of_order s = 0 /\ rs_expected s = n.
Proof.
  intros Hn s. set (pkts := (fun k => (1 + k, ((packet k).2, at_ms k))) <$> seqZ 1 (n - 1)).
  assert (pkts.*1 = seqZ (1 + 1) (Z.of_nat (Z.to_nat (n - 1)))) as E1.
  { unfold pkts. rewrite <- list_fmap_compose, Z2Nat.id by lia. rewrite <- fmap_add_seqZ. by apply list_fmap_ext. }
  assert (s = observe_stream ((fun p => (seq_of p.1, p.2)) <$> ((1, ((packet 0).2, at_ms 0)) :: pkts))) as ->.
  { unfold s. f_equal. rewrite seqZ_cons by lia. cbn [fmap list_fmap]. f_equal. unfold pkts. rewrite <- list_fmap_compose. done. }
  destruct (loss_of_positions 1 pkts ((packet 0).2, at_ms 0)) as (L1 & L2 & L3); rewrite ?E1.
  - apply list.NoDup_cons. split; [rewrite elem_of_seqZ; lia|apply NoDup_seqZ].
  - apply list.Forall_forall. intros x Hx%elem_of_seqZ. lia.
  - apply in_window_seqZ.
  - rewrite length_seqZ. lia.
  - rewrite L1, L2, L3, E1. rewrite late_seqZ, max_seqZ. split_and!; [|done|lia].
    assert (missing 1 (1 + Z.of_nat (Z.to_nat (n - 1))) (1 :: seqZ (1 + 1) (Z.of_nat (Z.to_nat (n - 1)))) = []) as ->; [|done].
    unfold missing. destruct (filter _ _) as [|x l] eqn:E; [done|]. exfalso.
    assert (x ∈ x :: l) as Hx by left. rewrite <- E in Hx. apply list_elem_of_filter in Hx as [Hx1 Hx2%elem_of_seqZ]. apply Hx1.
    rewrite elem_of_cons, elem_of_seqZ. lia.
Qed.

(** The times do not follow: they advance by 960 with every packet only until the numbers wrap,
    where the next packet's time is zero. *)
Theorem sender_timestamp_wraps k :
  0 <= k ->
  (packet (k + 1)).2 = if (k + 2) mod 2 ^ 16 =? 0 then 0 else (packet k).2 + 960.
Proof.
  intros Hk. unfold packet, packet_seq, wrap_u. cbn [snd]. replace (1 + (k + 1)) with (k + 2) by lia.
  destruct (Z.eqb_spec ((k + 2) mod 2 ^ 16) 0) as [->|Hne]; [done|].
  rewrite (Z.mod_eq (k + 2)), (Z.mod_eq (1 + k)) in * by lia.
  assert ((k + 2) / 2 ^ 16 = (1 + k) / 2 ^ 16) as E; [|lia].
  pose proof (Z.div_mod (1 + k) (2 ^ 16) ltac:(lia)). pose proof (Z.mod_pos_bound (1 + k) (2 ^ 16) ltac:(lia)).
  pose proof (Z.div_mod (k + 2) (2 ^ 16) ltac:(lia)). pose proof (Z.mod_pos_bound (k + 2) (2 ^ 16) ltac:(lia)). lia.
Qed.

(** Its token is the one of a client of the load test, which admits it. *)
Lemma sender_claims_admit key identity room now : sender_claims key identity room now = load_claims key identity room now.
Proof. done. Qed.
